(* ===== verification/_CoqProject ===== *)
-Q . S2P
Prelude.v
Wire.v
Bpf.v
Netip.v
Text.v
Checksum.v
Packet.v
Dhcpv4Message.v
Dhcpv4Packet.v
Dhcpv4Pool.v
Dhcpv4Handler.v
Dhcpv4Server.v
Datapath.v
Migration.v
Affinity.v
Tcpmss.v
Stats.v
Xdp.v
Icmp.v
Ipv6fwd.v
Encap.v
Fragment.v
Decap.v
Cliconfig.v
Softwire.v
Mtu.v
Pathmtu.v
Companion.v
Loading.v
Controller.v
Softwirectl.v
Endtoend.v
Dhcpv6.v
Dhcpv6Client.v
PrefixDelegation.v
Pdlease.v
Routeradvert.v
Lanprefix.v
Ndproxy.v
Starting.v
Radvd.v
Wanextend.v
Hb46pp.v
Provhttp.v
Aftrdiscovery.v
Netlink.v
Rtnetlink.v
Ethtool.v
Ifstats.v
Netdump.v
Lannetlink.v
Linknetlink.v
Dnsproxy.v
Discovery.v
Startup.v
Running.v
Lanservices.v
Solicit.v
Statscmd.v
Dnstcp.v
Pollfd.v
