(* ===== verification/Prelude.v ===== *)
(** * minuteman: a DS-Lite CPE gateway, verified in parts

    minuteman is a customer-premises gateway: IPv4 hosts on its LANs reach the IPv4
    Internet through a softwire, an IPv4-in-IPv6 tunnel to the provider's AFTR.  Packets
    are forwarded by eBPF programs (src/bpf); the Go program around them decides where
    the softwire goes, serves the LAN (DHCPv4, Router Advertisements, Neighbor
    Discovery proxying), and obtains the provider's configuration (DHCPv6, prefix
    delegation, HB46PP).  Its processes run on an actor library that is not part of the
    repository: each is a record of callbacks, most of them pure, returning the new
    state and the effects it asks for.  That is how they are modelled here, and what is
    relied on of the library is a step relation or a run in the file of each process.

    ** The parts, file by file

    The base: this file holds the outcome of a Go call ([Ret], [Fail] with the
    constant part of the error, [Panic]) as a monad, byte slices with Go's bounds checks
    ([idx], [slice], [from]), the wrap-around of machine integers, and the automation
    ([read], [zlen_lia] and the hint databases).  Wire.v has big-endian integers,
    Bpf.v the classic BPF the packet sockets' filters are written in,
    Netip.v the standard library's addresses and prefixes, Text.v its parsers of numbers
    and addresses.

    The softwire, the heart of the program:
    - Datapath.v: src/pkg/datapath, the userspace side.  The state is the BPF maps it
      writes ([world]: the control word, the next-hop slots, the flow table, the
      tunnel's MTU and, for testing every failure, the map operations that will fail);
      an operation is a computation of the monad [DP] over it, which an error can
      interrupt between any two map writes.
    - Migration.v: what BeginMigration, Cutover, CompleteMigration, AbortMigration and
      SwitchAFTR amount to.  Packets read the maps at any moment: the safety theorem is
      about every intermediate state, and the refinement theorem relates each call,
      interrupted ones included, to the machine Steady / Priming / Draining.
    - Affinity.v: packets and collections of the flow table interleaved: which AFTR a
      flow uses across a migration (touch_flow_affinity and pick_softwire_slot are
      those of src/bpf/datapath.bpf.c).
    - Softwire.v: src/internal/softwirectl/softwire.go, the server that drives the
      datapath, over the class [Datapath]; [Loader_laws] discharges the class with
      Datapath.v's operations.
    - Controller.v: src/internal/softwirectl/controller.go, the state machine that
      re-discovers the AFTR, migrates to it, and follows the WAN's address.
    - Softwirectl.v: the three of them as one system, with the order of their messages and
      the restarts of tree.go.
    - Endtoend.v: that system's maps under the encapsulation program, from the controller's
      decision to the bytes that leave.
    - Mtu.v: the path MTU watcher and the MTU arithmetic (tunnelpmtu, slowpath, frag.go,
      mss.go, pmtu.go); Stats.v: the counters and their text.
    - Companion.v: the kernel devices beside the fast path, the ip6tnl of
      src/internal/slowpath and the veth pairs of src/internal/fragpath with the programs
      EnableSoftwireFrag attaches to them, over a kernel's table of devices ([Links]).
    - Loading.v: src/pkg/datapath again: the pins in bpffs (pin.go), the attachments
      (loader.go), the sysctls, software RSS and the roles of programs.

    The packet programs, src/bpf (C): Packet.v has a frame as its bytes and the checksum
    helpers of datapath_helpers.h in either byte order; Tcpmss.v the clamp of the MSS;
    Xdp.v the state a program runs on ([X]: the frame, the maps of [world], the
    counters), the kernel's helpers as the class [Kernel], and the shared parsers and
    lookups; Icmp.v the token buckets and the ICMP errors the programs build; Ipv6fwd.v
    native IPv6 forwarding; Encap.v and Decap.v the two ends of the tunnel; Fragment.v
    the emitters on the veth pairs; Pathmtu.v what the two halves say of the path MTU
    together.

    DHCPv4 on the LAN: Checksum.v (RFC 1071), Dhcpv4Message.v (the codec),
    Dhcpv4Packet.v (frames), Dhcpv4Pool.v (leases), Dhcpv4Handler.v (a request to its
    reply), all of src/pkg/dhcpv4; Dhcpv4Server.v, the process of
    src/internal/dhcpv4server with its table of leases on disk.

    DHCPv6 on the WAN: Dhcpv6.v (src/pkg/dhcpv6: codec, exchanges, retransmission
    times), Dhcpv6Client.v (the process of src/internal/dhcpv6client),
    PrefixDelegation.v (src/pkg/prefixdelegation), Pdlease.v (the renewal ladder of
    src/internal/pdlease), Lanprefix.v (src/internal/lanprefix: what the prefix means
    for the LANs).

    IPv6 on the LAN: Ndproxy.v (src/pkg/ndproxy, src/internal/ndppd and the host routes
    of src/internal/wanextend), Routeradvert.v (src/pkg/routeradvert: the encoder, what is
    advertised and when), Radvd.v (the advertiser of src/internal/radvd), Wanextend.v (the
    watch of the WAN's prefix), Solicit.v (the solicitations of the WAN's router).

    The provider's configuration: Aftrdiscovery.v (src/pkg/aftrdiscovery), Hb46pp.v
    and Provhttp.v (src/pkg/hb46pp: the protocol, the transport).  Discovery.v has src/cmd/minuteman's use of both: an attempt, the
    loop at startup, the controller's later attempts, the choice of the B4 source.

    The kernel: Netlink.v (src/pkg/netlink: the socket, every request and parser),
    Rtnetlink.v (the requests as the kernel reads them, each paired with its answer),
    Netdump.v (the dumps), Lannetlink.v and Linknetlink.v (the client as the interfaces
    Lanprefix.v and Companion.v are written against).

    Around them: Dnsproxy.v and Dnstcp.v (src/internal/dnsproxy: the listeners, the TCP
    relay), Lanservices.v (what a LAN is told and what serves it: the DNS proxy's
    addresses, the leases applied or the WAN's prefix extended), Cliconfig.v (src/internal/cliconfig,
    the values of the flags), Startup.v (src/cmd/minuteman: the checks of the flags, the
    configurations they give the parts, and [run], the order in which everything is
    opened and given back), Running.v (the work of its loops: attaching the LANs, logging
    the counters, watching the applications), Starting.v (how the four kinds of processes that own sockets
    start), Ethtool.v and Ifstats.v (src/pkg/ethtool and `minuteman stats interfaces`),
    Statscmd.v (main's dispatch and the stats commands), Pollfd.v
    (src/pkg/internal/pollfd).

    ** How the parts meet

    The controller sends the softwire server requests and gets replies tagged with a
    generation; the softwire server calls the datapath; the datapath writes the maps
    the packets read.  Controller.v is about any replies whatever, Softwire.v about any
    datapath with the class's laws, and Migration.v shows the Loader has them.
    Softwirectl.v puts them together: the answers are the server's to the requests the
    controller sent, either may be restarted at any moment, and others use the maps
    meanwhile.  The
    lease process calls the DHCPv6 client through PrefixDelegation.v's [Acquire],
    [renew] and [rebind], over any exchanger; Dhcpv6Client.v shows what the client's
    answers are.

    The packet programs run on the very [world] the datapath's operations write, so
    Encap.v and Decap.v read the slots Migration.v is about through the control word, and
    Affinity.v's choice of the slot is the one Encap.v makes.  Endtoend.v joins both ends:
    the slot a packet is sent through holds the pair the controller is on, because the
    system of Softwirectl.v keeps it so from the maps SetB4Config creates.  Pathmtu.v goes the other
    way: an ICMPv6 error a program accepts changes the map that Mtu.v's watcher reads.
    Lanservices.v runs the lease process, the carving of LAN prefixes, what is advertised
    and the DNS proxy's choice of addresses one after the other, as main does.

    The kernel is reached through classes whose laws are its documented behaviour, each
    with a concrete instance in the samples: addresses ([NetlinkLaws]), host routes
    ([RtnetlinkLaws]), devices ([LinksLaws]), bpffs ([BpffsLaws]), drivers
    ([EthdevLaws]), and what a packet program may call, the FIB lookup and the resizing of
    a frame ([KernelLaws], with [kernel_1]).  For addresses and
    devices the development goes down to the bytes: [over_socket] (Lannetlink.v) and
    [links_over_socket] (Linknetlink.v) are the interfaces of Lanprefix.v and Companion.v
    over the encoded requests, with what is left assumed of the kernel being that it
    acknowledges what it reads ([KernelAcks]) and has carried out what it acknowledges
    ([AddrKernelLaws], [DevKernelLaws]).  The proxy is proved against the class [RoutesLaws], which
    [HostRoutes_laws] discharges from [RtnetlinkLaws]; neither says anything of a call that
    reports an error, nor [LinksLaws] of the MTU of a tunnel repointed.  The libraries that are not part
    of the repository are classes too: the network and resolver of a discovery ([Net]),
    the HTTP client and JSON decoder of HB46PP ([World]), the random draws ([Random]),
    the sockets and processes of the actor library ([ActorsLaws]).
    [Startup.dhcpv4_config] builds the configurations the theorems of Dhcpv4Server.v
    start from, and Discovery.v hands its result to Controller.v's [Discovery].

    ** What the theorems show

    - Safety under every interleaving and failure: no packet resolves a torn or
      half-written slot; a flow recorded while priming stays on its AFTR until idle; a
      new flow moves at the cutover; a finished drain leaves nothing on the old AFTR.
    - Packets: what enters the tunnel is the host's packet with its TTL decremented and a
      correct outer header to the flow's AFTR; what leaves it came from an AFTR of the
      slots and is the inner packet; the fragments the emitters make reassemble to the
      packet; the path MTU never goes below IPv6's minimum and is the smallest reported;
      tunnel errors are relayed to the host that sent the packet; ICMP errors are within
      their budget; the MSS clamp lowers the option and keeps the checksum right where the
      option is aligned, and breaks it where it is not.
    - The controller never gets stuck, answers to abandoned requests are ignored, the
      cutover is gated on every flow having been recorded, the B4 is replaced only
      by a confirmed, usable address, and the pair new packets use is the one the
      controller takes the softwire to be on, except after a hard switch that failed: outside
      the start, a hard switch in flight and those states, what leaves the WAN is, byte for
      byte, a packet from the controller's B4 to the AFTR it means, a flow left behind in a
      drain keeping the one it was on, and the answers of that AFTR are taken back.
    - A run gives back everything it opened, once, whichever step fails; the start of a
      process leaves it with its sockets or leaves nothing; pins are all
      made or none; a LAN attached has its program, its configuration and its port; the
      tunnel and the pairs are what the datapath takes them to be, the tunnel's MTU as long
      as its endpoints have not been set since; the configurations accepted flags give meet
      the conditions of the other theorems, the pool's for subnets of 1 to 30 bits and the
      timers' for leases of up to 2^63 / 7 nanoseconds.
    - DHCPv4: no address is held by two clients in any reachable pool; the reply to each
      request; nothing granted is announced before its write to disk has been
      answered; the disk has the pool's leases but for the clients whose writes are under
      way or have failed, and a restart gives all others back theirs.
    - DHCPv6: a call is answered only by a message answering it; timeouts within RFC
      bounds and no more transmissions than MRC; every lease is fit to run on and its
      timers are positive, ordered and without overflow; the ladder always has exactly
      one thing pending.
    - Discovery: redirects are followed only where it is safe, each failure is reported
      as what it was, and the loop at startup ends with the first success.
    - LAN and proxy: what a LAN advertises is a prefix of the lease in force and a DNS
      server that listens; each LAN gets its own /64, and its address and no other that was
      assigned, unless a call has failed for it; changes are
      announced and solicitations answered in time; the WAN is answered only for hosts
      verified recently, and routes follow the confirmations where the calls that make them
      do not fail; the DNS listener loses none of its slots, and sends each query on, as it
      came, and its answer back; the TCP relay delivers what was sent, in order.
    - Codecs: decoding is total and panics on no bytes, and reads back what encoding
      writes; every netlink request reads as the request meant, and its answer is the
      one the kernel gave it; so the client implements what the LANs' addresses and the
      companion devices are managed through.

    ** Bounds and fuel

    Integers are Z with the wrap-around written where the code's width matters ([u8] to
    [u64], [i64]); instants and durations are nanoseconds.  Loops over byte slices
    recurse with fuel the length of the slice (each turn consumes at least one byte; the
    totality lemmas show it is never exhausted).  The pool's search for a free address
    has the size of the subnet for fuel ([nextFree_loop_spec]).  Acquire's loop, which Go bounds by its
    context only, runs on an explicit list of rounds, and its termination theorem gives
    the rounds that are enough.  The controller numbers its hard switches and its
    migrations in 64 bits: the theorems on its runs are about runs of fewer than 2^64
    events.

    The loop at startup and the retries of Hb46pp.v run on a list of turns, what the
    network and the clock do in each; its theorem says which turn ends it.

    ** What is not modelled

    The packet programs: the capture hook of xdpcap, and the queue of the cpumap between
    the two stages of a frame, which are programs of their own here; a program runs
    atomically, where the flow table and the buckets of a real machine are shared by its
    CPUs.  The Go program: opening sockets, supervision trees and other system calls;
    cobra's parsing of a subcommand's arguments and its help; logging and the text of
    errors beyond its constant part; HTTP, JSON and the resolver, behind classes.  What is
    left of the Go code outside these is declarations of supervision trees, the Open and
    Close of sockets, String methods and the text of the commands' help. *)

From stdpp Require Export base tactics list numbers option strings gmap.
From Stdlib Require Export ZArith Lia.

Local Open Scope Z_scope.

(** ** Outcomes of a Go call *)

(** A Go function of the program returns a value, returns a non-nil error, or
    panics (an index out of range, an [As4] of an address that is not IPv4).
    The error carries the constant part of its message. *)
Inductive outcome (A : Type) : Type :=
| Ret (a : A)
| Fail (e : string)
| Panic.
Arguments Ret {A} _.
Arguments Fail {A} _.
Arguments Panic {A}.

#[export] Instance outcome_ret : MRet outcome := @Ret.
#[export] Instance outcome_bind : MBind outcome := fun A B f m =>
  match m with Ret a => f a | Fail e => Fail e | Panic => Panic end.
#[export] Instance outcome_fmap : FMap outcome := fun A B f m =>
  match m with Ret a => Ret (f a) | Fail e => Fail e | Panic => Panic end.
#[export] Instance outcome_eq_dec `{EqDecision A} : EqDecision (outcome A).
Proof. solve_decision. Defined.

Definition ok {A} (m : outcome A) : bool :=
  match m with Ret _ => true | _ => false end.

(** [no_panic m]: the call comes back, with a value or with an error. *)
Definition no_panic {A} (m : outcome A) : bool :=
  match m with Panic => false | _ => true end.

Lemma bind_ret {A B} (a : A) (f : A -> outcome B) : (Ret a ≫= f) = f a.
Proof. reflexivity. Qed.

Lemma bind_inv {A B} (m : outcome A) (f : A -> outcome B) b :
  m ≫= f = Ret b -> exists a, m = Ret a /\ f a = Ret b.
Proof. destruct m as [a|e|]; cbn; [eauto|discriminate..]. Qed.

Lemma bind_no_panic {A B} (m : outcome A) (f : A -> outcome B) :
  no_panic m = true -> (forall a, m = Ret a -> no_panic (f a) = true) ->
  no_panic (m ≫= f) = true.
Proof. destruct m as [a|e|]; cbn; auto. Qed.

(** ** Machine integers *)

Abbreviation u8 z := (z mod 2 ^ 8).
Abbreviation u16 z := (z mod 2 ^ 16).
Abbreviation u32 z := (z mod 2 ^ 32).
Abbreviation u64 z := (z mod 2 ^ 64).

(** Two's complement wrap-around of a 64-bit signed integer. *)
Definition i64 (z : Z) : Z := (z + 2 ^ 63) mod 2 ^ 64 - 2 ^ 63.

Lemma i64_id z : - 2 ^ 63 <= z < 2 ^ 63 -> i64 z = z.
Proof. intros H. unfold i64. rewrite Z.mod_small; lia. Qed.

Lemma i64_range z : - 2 ^ 63 <= i64 z < 2 ^ 63.
Proof. unfold i64. pose proof (Z.mod_pos_bound (z + 2 ^ 63) (2 ^ 64) eq_refl). lia. Qed.

(** Equal readings of a 64-bit counter. *)
Lemma u64_sub_zero a b : u64 (a - b) <= 0 -> u64 a = u64 b.
Proof.
  intros H. pose proof (Z.mod_pos_bound (a - b) (2 ^ 64) eq_refl) as Hb.
  assert (u64 (a - b) = 0) as H0 by lia. rewrite <- (Z.sub_add b a), Zplus_mod, H0, Z.add_0_l.
  apply Zmod_mod.
Qed.

(** ** Byte slices *)

Abbreviation bytes := (list Z).

Definition is_byte (z : Z) : Prop := 0 <= z < 256.
Definition is_bytes (b : bytes) : Prop := Forall is_byte b.

#[export] Instance is_byte_dec z : Decision (is_byte z).
Proof. unfold is_byte. apply _. Defined.
#[export] Instance is_bytes_dec b : Decision (is_bytes b).
Proof. unfold is_bytes. apply _. Defined.

(** [len(b)] as a Go [int]. *)
Definition zlen {A} (b : list A) : Z := Z.of_nat (length b).

#[global] Arguments zlen : simpl never.

(** [b[i]], with Go's bounds check. *)
Definition idx {A} (b : list A) (i : Z) : outcome A :=
  if decide (0 <= i < zlen b)
  then match b !! Z.to_nat i with Some x => Ret x | None => Panic end
  else Panic.

(** [b[i:j]], with Go's bounds check (a slice here never has spare
    capacity). *)
Definition slice {A} (b : list A) (i j : Z) : outcome (list A) :=
  if decide (0 <= i <= j /\ j <= zlen b)
  then Ret (take (Z.to_nat (j - i)) (drop (Z.to_nat i) b))
  else Panic.

(** [b[i:]]. *)
Definition from {A} (b : list A) (i : Z) : outcome (list A) := slice b i (zlen b).

Definition zeros (n : Z) : bytes := replicate (Z.to_nat n) 0.

(** The [n] bytes of a zeroed field after [copy(field, src)]: [src] cut at the
    field's end, the rest of the field left zero. *)
Definition field (n : Z) (src : bytes) : bytes :=
  take (Z.to_nat n) src ++ zeros (n - zlen src).

Lemma zlen_nonneg {A} (b : list A) : 0 <= zlen b.
Proof. unfold zlen. lia. Qed.
Lemma zlen_nil {A} : zlen (@nil A) = 0.
Proof. reflexivity. Qed.
Lemma zlen_cons {A} (x : A) b : zlen (x :: b) = 1 + zlen b.
Proof. unfold zlen. cbn [length]. lia. Qed.
Lemma zlen_app {A} (b c : list A) : zlen (b ++ c) = zlen b + zlen c.
Proof. unfold zlen. rewrite length_app. lia. Qed.
Lemma zlen_zeros n : zlen (zeros n) = Z.max 0 n.
Proof. unfold zlen, zeros. rewrite length_replicate. lia. Qed.
Lemma zlen_take {A} n (b : list A) : zlen (take n b) = Z.min (Z.of_nat n) (zlen b).
Proof. unfold zlen. rewrite length_take. lia. Qed.
Lemma zlen_drop {A} n (b : list A) : zlen (drop n b) = Z.max 0 (zlen b - Z.of_nat n).
Proof. unfold zlen. rewrite length_drop. lia. Qed.
Lemma zlen_field n src : 0 <= n -> zlen (field n src) = n.
Proof. intros. unfold field. rewrite zlen_app, zlen_take, zlen_zeros.
  pose proof (zlen_nonneg src). lia. Qed.

Lemma field_exact n src : zlen src = n -> field n src = src.
Proof.
  intros <-. unfold field, zeros, zlen. rewrite Nat2Z.id, firstn_all, Z.sub_diag.
  apply app_nil_r.
Qed.

Lemma idx_ok {A} `{Inhabited A} (b : list A) i :
  0 <= i < zlen b -> idx b i = Ret (b !!! Z.to_nat i).
Proof.
  intros Hi. unfold idx. rewrite decide_True by done.
  destruct (b !! Z.to_nat i) as [x|] eqn:E.
  - by rewrite (list_lookup_total_correct _ _ _ E).
  - apply lookup_ge_None in E. unfold zlen in Hi. lia.
Qed.

Lemma idx_inv {A} (b : list A) i x : idx b i = Ret x ->
  0 <= i < zlen b /\ b !! Z.to_nat i = Some x.
Proof.
  unfold idx. case_decide as Hi; [|done].
  destruct (b !! Z.to_nat i); [|done]. by intros [= ->].
Qed.

Lemma slice_ok {A} (b : list A) i j :
  0 <= i <= j -> j <= zlen b ->
  slice b i j = Ret (take (Z.to_nat (j - i)) (drop (Z.to_nat i) b)).
Proof. intros. unfold slice. by rewrite decide_True. Qed.

Lemma slice_inv {A} (b : list A) i j c : slice b i j = Ret c ->
  (0 <= i <= j /\ j <= zlen b) /\
  c = take (Z.to_nat (j - i)) (drop (Z.to_nat i) b) /\ zlen c = j - i.
Proof.
  unfold slice. case_decide as Hi; [|done]. intros [= <-].
  rewrite zlen_take, zlen_drop. split; [done|]. split; [done|lia].
Qed.

Lemma from_ok {A} (b : list A) i :
  0 <= i <= zlen b -> from b i = Ret (drop (Z.to_nat i) b).
Proof.
  intros. unfold from. rewrite slice_ok by lia. f_equal. apply take_ge.
  rewrite length_drop. unfold zlen. lia.
Qed.

Lemma from_inv {A} (b : list A) i c : from b i = Ret c ->
  0 <= i <= zlen b /\ c = drop (Z.to_nat i) b /\ zlen c = zlen b - i.
Proof.
  unfold from. intros (Hi & -> & Hl)%slice_inv. split; [lia|]. split; [|done].
  apply take_ge. rewrite length_drop. unfold zlen in *. lia.
Qed.

(** Reading at the boundary of a concatenation. *)
Lemma idx_cons_0 {A} (x : A) b : idx (x :: b) 0 = Ret x.
Proof. unfold idx. rewrite decide_True; [done|]. rewrite zlen_cons. pose proof (zlen_nonneg b). lia. Qed.

Lemma slice_app_exact {A} (p m s : list A) i j :
  zlen p = i -> zlen m = j - i -> slice (p ++ m ++ s) i j = Ret m.
Proof.
  intros Hp Hm. pose proof (zlen_nonneg p). pose proof (zlen_nonneg m).
  pose proof (zlen_nonneg s).
  rewrite slice_ok by (rewrite ?zlen_app; lia). f_equal.
  rewrite drop_app_length' by (unfold zlen in *; lia).
  rewrite take_app_length'; [done|]. unfold zlen in *; lia.
Qed.

Lemma from_app_exact {A} (p s : list A) i :
  zlen p = i -> from (p ++ s) i = Ret s.
Proof.
  intros Hp. pose proof (zlen_nonneg p). pose proof (zlen_nonneg s).
  rewrite from_ok by (rewrite zlen_app; lia). f_equal.
  apply drop_app_length'. unfold zlen in *; lia.
Qed.

Lemma idx_app_exact {A} (p : list A) x s i :
  zlen p = i -> idx (p ++ x :: s) i = Ret x.
Proof.
  intros Hp. pose proof (zlen_nonneg p). pose proof (zlen_nonneg s). unfold idx.
  rewrite decide_True by (rewrite zlen_app, zlen_cons; lia).
  rewrite list_lookup_middle; [done|]. unfold zlen in *; lia.
Qed.

(** Reading past a prefix, and inside one. *)
Lemma slice_app_r {A} (p s : list A) i j :
  zlen p <= i -> slice (p ++ s) i j = slice s (i - zlen p) (j - zlen p).
Proof.
  intros Hp. pose proof (zlen_nonneg p). unfold slice. rewrite zlen_app.
  destruct (decide (0 <= i - zlen p <= j - zlen p /\ j - zlen p <= zlen s)).
  - rewrite decide_True by lia. f_equal.
    rewrite drop_app_ge by (unfold zlen in *; lia). do 2 f_equal; unfold zlen; lia.
  - rewrite decide_False by lia. done.
Qed.

Lemma slice_app_l {A} (p s : list A) i j :
  j <= zlen p -> slice (p ++ s) i j = slice p i j.
Proof.
  intros Hp. pose proof (zlen_nonneg s). unfold slice. rewrite zlen_app.
  destruct (decide (0 <= i <= j /\ j <= zlen p)).
  - rewrite decide_True by lia. f_equal. unfold zlen in *.
    rewrite drop_app_le by lia. apply take_app_le. rewrite length_drop. lia.
  - rewrite decide_False by lia. done.
Qed.

Lemma slice_full {A} (b : list A) j : j = zlen b -> slice b 0 j = Ret b.
Proof.
  intros ->. pose proof (zlen_nonneg b). rewrite slice_ok by lia. f_equal.
  rewrite Z.sub_0_r. unfold zlen. by rewrite Nat2Z.id, firstn_all.
Qed.

Lemma from_app_r {A} (p s : list A) i :
  zlen p <= i -> from (p ++ s) i = from s (i - zlen p).
Proof.
  intros Hp. unfold from. rewrite slice_app_r by done. f_equal. rewrite zlen_app. lia.
Qed.

Lemma from_0 {A} (b : list A) : from b 0 = Ret b.
Proof. by apply slice_full. Qed.

Lemma idx_app_r {A} (p s : list A) i :
  zlen p <= i -> idx (p ++ s) i = idx s (i - zlen p).
Proof.
  intros Hp. pose proof (zlen_nonneg p). unfold idx. rewrite zlen_app.
  destruct (decide (0 <= i - zlen p < zlen s)).
  - rewrite decide_True by lia. rewrite lookup_app_r by (unfold zlen in *; lia).
    by replace (Z.to_nat i - length p)%nat with (Z.to_nat (i - zlen p)) by (unfold zlen in *; lia).
  - rewrite decide_False by lia. done.
Qed.

Lemma idx_cons_S {A} (x : A) b i : 0 < i -> idx (x :: b) i = idx b (i - 1).
Proof. intros. change (x :: b) with ([x] ++ b). rewrite idx_app_r by (unfold zlen; cbn; lia). done. Qed.

Lemma slice_cons_S {A} (x : A) b i j :
  0 < i -> slice (x :: b) i j = slice b (i - 1) (j - 1).
Proof. intros. change (x :: b) with ([x] ++ b). rewrite slice_app_r by (unfold zlen; cbn; lia). done. Qed.

Lemma from_cons_S {A} (x : A) b i : 0 < i -> from (x :: b) i = from b (i - 1).
Proof. intros. change (x :: b) with ([x] ++ b). rewrite from_app_r by (unfold zlen; cbn; lia). done. Qed.

(** The same at an offset only known to be zero. *)
Lemma from_start {A} (b : list A) i : i = 0 -> from b i = Ret b.
Proof. intros ->. apply from_0. Qed.
Lemma idx_start {A} (x : A) b i : i = 0 -> idx (x :: b) i = Ret x.
Proof. intros ->. apply idx_cons_0. Qed.
Lemma slice_whole {A} (b : list A) i j : i = 0 -> j = zlen b -> slice b i j = Ret b.
Proof. intros ->. apply slice_full. Qed.
Lemma slice_take {A} (b : list A) i j n : i = 0 -> j = n -> 0 <= n <= zlen b ->
  slice b i j = Ret (take (Z.to_nat n) b).
Proof. intros -> -> Hj. rewrite slice_ok by lia. by rewrite Z.sub_0_r. Qed.
Lemma slice_start {A} (m s : list A) i j : i = 0 -> j = zlen m -> slice (m ++ s) i j = Ret m.
Proof. intros -> ->. rewrite slice_app_l by lia. by apply slice_full. Qed.

Lemma is_bytes_idx b i x : is_bytes b -> idx b i = Ret x -> is_byte x.
Proof. intros Hb [_ Hx]%idx_inv. by eapply Forall_lookup_1. Qed.
Lemma is_bytes_slice b i j c : is_bytes b -> slice b i j = Ret c -> is_bytes c.
Proof. intros Hb (_ & -> & _)%slice_inv. apply Forall_take. by apply Forall_drop. Qed.

Lemma is_bytes_app b c : is_bytes (b ++ c) <-> is_bytes b /\ is_bytes c.
Proof. apply Forall_app. Qed.
Lemma is_bytes_zeros n : is_bytes (zeros n).
Proof. apply Forall_replicate. unfold is_byte. lia. Qed.
Lemma is_bytes_take n b : is_bytes b -> is_bytes (take n b).
Proof. apply Forall_take. Qed.
Lemma is_bytes_drop n b : is_bytes b -> is_bytes (drop n b).
Proof. apply Forall_drop. Qed.
Lemma is_bytes_field n b : is_bytes b -> is_bytes (field n b).
Proof. intros. apply is_bytes_app. auto using is_bytes_take, is_bytes_zeros. Qed.

(** The default is the element before, if there is one. *)
Lemma last_cons_default {A} (x d : A) l : List.last (x :: l) d = List.last l x.
Proof.
  revert x d. induction l as [|y l IH]; [done|]. intros x d.
  change (List.last (x :: y :: l) d) with (List.last (y :: l) d). by rewrite !IH.
Qed.

(** ** Automation *)

Create HintDb wire discriminated.
Create Rewrite HintDb zlen.
#[export] Hint Rewrite @zlen_nil @zlen_cons @zlen_app @zlen_zeros : zlen.
#[export] Hint Rewrite zlen_field using lia : zlen.
#[export] Hint Resolve is_bytes_zeros is_bytes_take is_bytes_drop is_bytes_field : wire.

(** Length goals about concatenated fields. *)
Ltac zlen_lia :=
  autorewrite with zlen;
  repeat match goal with
         | |- context [zlen ?b] =>
           lazymatch goal with
           | _ : 0 <= zlen b |- _ => fail
           | _ => pose proof (zlen_nonneg b) end
         end; lia.

(** [read]: reads at a known offset of a concatenation of fields, peeling the
    fields before the offset one at a time. *)
Ltac read_step :=
  first
  [ rewrite from_start by zlen_lia
  | rewrite idx_start by zlen_lia
  | rewrite slice_whole by zlen_lia
  | rewrite slice_start by zlen_lia
  | rewrite idx_cons_S by zlen_lia
  | rewrite from_cons_S by zlen_lia
  | rewrite slice_cons_S by zlen_lia
  | rewrite from_app_r by zlen_lia
  | rewrite idx_app_r by zlen_lia
  | rewrite slice_app_r by zlen_lia
  | rewrite slice_app_l by zlen_lia ].

(** Splits a successful (or non-panicking) chain of binds into its steps. *)
Ltac bind_inv H :=
  let a := fresh "a" in let E := fresh "E" in
  apply bind_inv in H as (a & E & H).

(** A decidable goal about closed terms, by evaluation. *)
Ltac by_eval := apply (bool_decide_unpack _); vm_compute; exact I.
