(* ===== verification/Wire.v ===== *)
(** Big-endian integers on the wire.

    [be n v] are the [n] low bytes of [v], most significant first, and [unbe]
    reads them back; the [PutUint16]/[PutUint32] of the standard library's
    encoding/binary and the packages' own putUint16/putUint32 helpers are
    instances.  The lemmas here give the round trips and the bounds every codec
    of the development shares. *)

From S2P Require Import Prelude.

Local Open Scope Z_scope.

Fixpoint be (n : nat) (v : Z) : bytes :=
  match n with
  | O => []
  | S n' => u8 (Z.shiftr v (8 * Z.of_nat n')) :: be n' v
  end.

Definition unbe (b : bytes) : Z := fold_left (fun acc x => Z.lor (Z.shiftl acc 8) x) b 0.

Lemma lor_add a b : Z.land a b = 0 -> Z.lor a b = a + b.
Proof. intros H. by rewrite Z.add_nocarry_lxor, Z.lxor_lor by done. Qed.

(** A bit at or above [n] of a number below [2 ^ n] is zero. *)
Lemma testbit_above x n i : 0 <= x < 2 ^ n -> 0 <= n <= i -> Z.testbit x i = false.
Proof.
  intros Hx Hi. rewrite <- (Z.mod_small x (2 ^ n)) by done.
  apply Z.mod_pow2_bits_high. lia.
Qed.

(** Placing [x] below [a], [k] bits wide, is an addition. *)
Lemma lor_shiftl_add a x k :
  0 <= k -> 0 <= x < 2 ^ k -> Z.lor (Z.shiftl a k) x = a * 2 ^ k + x.
Proof.
  intros Hk Hx. rewrite lor_add, Z.shiftl_mul_pow2; [done..|].
  apply Z.bits_inj'. intros n Hn. rewrite Z.land_spec, Z.bits_0.
  destruct (decide (n < k)).
  - by rewrite Z.shiftl_spec_low.
  - rewrite (testbit_above x k n) by lia. apply andb_false_r.
Qed.

Lemma unbe_acc b acc : is_bytes b ->
  fold_left (fun acc x => Z.lor (Z.shiftl acc 8) x) b acc
  = acc * 256 ^ zlen b + unbe b.
Proof.
  unfold unbe. intros Hb. revert acc. induction Hb as [|x b Hx Hb IH]; intros acc; cbn [fold_left].
  - change (zlen []) with 0. lia.
  - rewrite IH, (IH (Z.lor _ _)), !lor_shiftl_add by (unfold is_byte in Hx; lia).
    rewrite zlen_cons, Z.pow_add_r; [|lia|apply zlen_nonneg].
    change (256 ^ 1) with 256. change (2 ^ 8) with 256. ring.
Qed.

Lemma unbe_cons x b : is_byte x -> is_bytes b ->
  unbe (x :: b) = x * 256 ^ zlen b + unbe b.
Proof.
  intros Hx Hb. unfold unbe at 1. cbn [fold_left].
  rewrite unbe_acc by done. rewrite lor_shiftl_add by (unfold is_byte in Hx; lia). lia.
Qed.

Lemma unbe_app b c : is_bytes b -> is_bytes c ->
  unbe (b ++ c) = unbe b * 256 ^ zlen c + unbe c.
Proof.
  intros Hb Hc. unfold unbe at 1. rewrite fold_left_app. by apply unbe_acc.
Qed.

Lemma unbe_bound b : is_bytes b -> 0 <= unbe b < 256 ^ zlen b.
Proof.
  induction 1 as [|x b Hx Hb IH]; [by split|].
  rewrite unbe_cons, zlen_cons, Z.pow_add_r by (done || lia || apply zlen_nonneg).
  unfold is_byte in Hx. nia.
Qed.

Lemma length_be n v : length (be n v) = n.
Proof. induction n; cbn; congruence. Qed.
Lemma zlen_be n v : zlen (be n v) = Z.of_nat n.
Proof. unfold zlen. by rewrite length_be. Qed.

Lemma is_byte_u8 v : is_byte (u8 v).
Proof. unfold is_byte. pose proof (Z.mod_pos_bound v (2 ^ 8) eq_refl). lia. Qed.
Lemma is_bytes_be n v : is_bytes (be n v).
Proof. induction n; constructor; auto using is_byte_u8. Qed.

(** Writing [n] bytes and reading them back keeps the low [8 n] bits. *)
Lemma unbe_be n v : unbe (be n v) = v mod 256 ^ Z.of_nat n.
Proof.
  induction n as [|n IH]; [cbn; by rewrite Z.mod_1_r|].
  cbn [be]. rewrite unbe_cons, zlen_be, IH by auto using is_byte_u8, is_bytes_be.
  rewrite Z.shiftr_div_pow2, Nat2Z.inj_succ, Z.pow_succ_r by lia.
  replace (2 ^ (8 * Z.of_nat n)) with (256 ^ Z.of_nat n)
    by (rewrite Z.pow_mul_r by lia; done).
  rewrite (Z.mul_comm 256), Z.rem_mul_r by (lia || nia).
  change (2 ^ 8) with 256. lia.
Qed.

Lemma unbe_be_id n v : 0 <= v < 256 ^ Z.of_nat n -> unbe (be n v) = v.
Proof. intros. rewrite unbe_be. by apply Z.mod_small. Qed.

(** Reading [length b] bytes and writing them back gives the same bytes. *)
Lemma be_unbe b : is_bytes b -> be (length b) (unbe b) = b.
Proof.
  induction b as [|x b IH]; [done|]. intros Hb. inversion Hb as [|? ? Hx Hb']; subst.
  cbn [length be]. pose proof (unbe_bound b Hb') as Hu. unfold is_byte in Hx.
  rewrite unbe_cons by done. f_equal.
  - rewrite Z.shiftr_div_pow2, Z.pow_mul_r by lia. change (2 ^ 8) with 256.
    fold (zlen b). rewrite Z.div_add_l, (Z.div_small (unbe b)) by lia.
    rewrite Z.add_0_r. apply Z.mod_small. lia.
  - etrans; [|by apply IH]. clear IH.
    assert (forall n w k, Z.of_nat n <= k -> be n (w * 256 ^ k + unbe b) = be n (unbe b)) as Hbe.
    { induction n as [|n IHn]; intros w k Hk; cbn [be]; [done|].
      f_equal; [|apply IHn; lia].
      rewrite !Z.shiftr_div_pow2, Z.pow_mul_r by lia. change (2 ^ 8) with 256.
      replace (256 ^ k) with (256 ^ (k - Z.of_nat n - 1) * 256 * 256 ^ Z.of_nat n).
      2: { rewrite <- Z.mul_assoc, <- (Z.pow_1_r 256) at 1.
           rewrite <- (Z.pow_1_r 256) at 2. rewrite <- !Z.pow_add_r by lia. f_equal. lia. }
      rewrite Z.mul_assoc, Z.div_add_l, Z.mul_assoc, Z.add_comm, Z.mod_add by lia. done. }
    apply Hbe. unfold zlen. lia.
Qed.

(** The high bytes and the low bytes. *)
Lemma be_split a b v : be (a + b) v = be a (Z.shiftr v (8 * Z.of_nat b)) ++ be b v.
Proof.
  induction a as [|a IH]; [done|]. cbn [be app Nat.add]. rewrite IH. do 2 f_equal.
  rewrite Z.shiftr_shiftr by lia. f_equal. lia.
Qed.

Lemma be_inj n a b :
  0 <= a < 256 ^ Z.of_nat n -> 0 <= b < 256 ^ Z.of_nat n -> be n a = be n b -> a = b.
Proof. intros Ha Hb E. by rewrite <- (unbe_be_id n a), <- (unbe_be_id n b), E. Qed.

(** ** Reading a big-endian integer at the front of a slice *)

(** [get n b]: the big-endian integer of [b]'s first [n] bytes, panicking when
    [b] is shorter. *)
Definition get (n : nat) (b : bytes) : outcome Z :=
  unbe <$> slice b 0 (Z.of_nat n).

Lemma get_no_panic n b : Z.of_nat n <= zlen b -> no_panic (get n b) = true.
Proof. intros. unfold get. rewrite slice_ok by lia. done. Qed.

Lemma get_be n v s : 0 <= v < 256 ^ Z.of_nat n -> get n (be n v ++ s) = Ret v.
Proof.
  intros Hv. unfold get. change (be n v ++ s) with ([] ++ be n v ++ s).
  rewrite slice_app_exact by (rewrite ?zlen_be; lia || done). cbn.
  by rewrite unbe_be_id.
Qed.

#[export] Hint Rewrite zlen_be : zlen.
#[export] Hint Resolve is_bytes_be : wire.

#[global] Arguments be : simpl never.
#[global] Arguments unbe : simpl never.
