(* ===== verification/Bpf.v ===== *)
(** Classic BPF, as much of it as the filters of the packet sockets are written in
    (src/pkg/dhcpv4/packet.go, src/pkg/ndproxy/packet.go). *)

From S2P Require Import Prelude Wire.

Local Open Scope Z_scope.

(** Load the byte at [K]; four times the low half of the byte at [K] into X; the 16 bits
    at X + [K]; compare the accumulator with [K], skipping [Jf] instructions when it
    differs; return [K]. *)
Inductive SockFilter : Type :=
| LdB (K : Z) | LdxMsh (K : Z) | LdHInd (K : Z) | JEq (K : Z) (Jf : nat) | RetK (K : Z).

(** A program's verdict on a packet: how many of its bytes to deliver, none for a load past
    its end. *)
Fixpoint bpf (prog : list SockFilter) (skip : nat) (acc x : Z) (packet : bytes) : Z :=
  match prog, skip with
  | [], _ => 0
  | _ :: rest, S skip => bpf rest skip acc x packet
  | LdB k :: rest, O => match packet !! Z.to_nat k with Some v => bpf rest 0 v x packet | None => 0 end
  | LdxMsh k :: rest, O =>
    match packet !! Z.to_nat k with Some v => bpf rest 0 acc (4 * Z.land v 0x0f) packet | None => 0 end
  | LdHInd k :: rest, O =>
    match packet !! Z.to_nat (x + k), packet !! Z.to_nat (x + k + 1) with
    | Some hi, Some lo => bpf rest 0 (hi * 256 + lo) x packet
    | _, _ => 0
    end
  | JEq k jf :: rest, O => bpf rest (if acc =? k then 0 else jf) acc x packet
  | RetK k :: _, O => k
  end.

(** What the socket delivers a packet for. *)
Definition accepts (prog : list SockFilter) (packet : bytes) : Z := bpf prog 0 0 0 packet.
