(* ===== verification/Netip.v ===== *)
(** Go's net/netip, as far as the program uses it: [Addr], [Prefix] and their
    methods.  An [Addr] is the zero (invalid) value, an IPv4 address (its 32-bit
    value) or an IPv6 address (its 128-bit value and its zone).  [As4] of an
    address that is not IPv4 panics, as the library documents. *)

From S2P Require Import Prelude Wire.

Local Open Scope Z_scope.

Inductive Addr : Type :=
| AInvalid
| A4 (v : Z)
| A6 (v : Z) (zone : string).

#[export] Instance Addr_eq_dec : EqDecision Addr.
Proof. solve_decision. Defined.

#[export] Instance Addr_countable : Countable Addr.
Proof.
  refine (inj_countable'
    (fun a => match a with
              | AInvalid => inl tt | A4 v => inr (inl v) | A6 v z => inr (inr (v, z)) end)
    (fun s => match s with
              | inl _ => AInvalid | inr (inl v) => A4 v | inr (inr (v, z)) => A6 v z end) _).
  by intros [].
Defined.

#[export] Instance Addr_inhabited : Inhabited Addr := populate AInvalid.

(** The representation invariant of the library's [Addr]. *)
Definition addr_wf (a : Addr) : Prop :=
  match a with
  | AInvalid => True
  | A4 v => 0 <= v < 2 ^ 32
  | A6 v _ => 0 <= v < 2 ^ 128
  end.

#[export] Instance addr_wf_dec a : Decision (addr_wf a).
Proof. destruct a; cbn; apply _. Defined.

Definition IsValid (a : Addr) : bool := match a with AInvalid => false | _ => true end.
Definition Is4 (a : Addr) : bool := match a with A4 _ => true | _ => false end.
Definition Is6 (a : Addr) : bool := match a with A6 _ _ => true | _ => false end.

(** [::ffff:0:0/96]. *)
Definition Is4In6 (a : Addr) : bool :=
  match a with A6 v _ => Z.shiftr v 32 =? 0xffff | _ => false end.

Definition Unmap (a : Addr) : Addr :=
  match a with A6 v _ => if Z.shiftr v 32 =? 0xffff then A4 (u32 v) else a | _ => a end.

Definition Zone (a : Addr) : string := match a with A6 _ z => z | _ => "" end.
Definition WithoutZone (a : Addr) : Addr := match a with A6 v _ => A6 v "" | _ => a end.
Definition WithZone (a : Addr) (z : string) : Addr := match a with A6 v _ => A6 v z | _ => a end.

Definition IsUnspecified (a : Addr) : bool :=
  bool_decide (a = A4 0) || bool_decide (a = A6 0 "").

Definition IsLoopback (a : Addr) : bool :=
  match Unmap a with
  | A4 v => Z.shiftr v 24 =? 127 | A6 v _ => v =? 1 | AInvalid => false end.

Definition IsMulticast (a : Addr) : bool :=
  match Unmap a with
  | A4 v => Z.shiftr v 28 =? 0xe | A6 v _ => Z.shiftr v 120 =? 0xff | AInvalid => false end.

Definition IsLinkLocalUnicast (a : Addr) : bool :=
  match Unmap a with
  | A4 v => Z.shiftr v 16 =? 0xa9fe (* 169.254/16 *)
  | A6 v _ => Z.shiftr v 118 =? 0x3fa (* fe80::/10 *)
  | AInvalid => false end.

(** [IsGlobalUnicast]: not unspecified, broadcast, loopback, multicast or
    link-local (private addresses are global in this sense). *)
Definition IsGlobalUnicast (a : Addr) : bool :=
  match Unmap a with
  | AInvalid => false
  | A4 v => negb (v =? 0) && negb (v =? 0xffffffff) && negb (IsLoopback a)
            && negb (IsMulticast a) && negb (IsLinkLocalUnicast a)
  | A6 v z => negb (IsUnspecified (A6 v z)) && negb (IsLoopback a)
              && negb (IsMulticast a) && negb (IsLinkLocalUnicast a)
  end.

Definition IsPrivate (a : Addr) : bool :=
  match Unmap a with
  | A4 v => (Z.shiftr v 24 =? 10) || (Z.shiftr v 20 =? 0xac1) || (Z.shiftr v 16 =? 0xc0a8)
  | A6 v _ => Z.shiftr v 121 =? 0x7e (* fc00::/7 *)
  | AInvalid => false end.

Definition BitLen (a : Addr) : Z :=
  match a with AInvalid => 0 | A4 _ => 32 | A6 _ _ => 128 end.

Definition addr_val (a : Addr) : Z :=
  match a with AInvalid => 0 | A4 v => v | A6 v _ => v end.

Definition As4 (a : Addr) : outcome bytes :=
  match a with
  | A4 v => Ret (be 4 v)
  | A6 v _ => if Is4In6 a then Ret (be 4 (u32 v)) else Panic
  | AInvalid => Panic
  end.

(** [As16] never panics: the zero Addr is all zeroes, an IPv4 address is
    written in its IPv4-mapped form. *)
Definition As16 (a : Addr) : bytes :=
  match a with
  | AInvalid => zeros 16
  | A4 v => be 16 (0xffff * 2 ^ 32 + v)
  | A6 v _ => be 16 v
  end.

Definition AddrFrom4 (b : bytes) : Addr := A4 (unbe b).
Definition AddrFrom16 (b : bytes) : Addr := A6 (unbe b) "".

(** [AddrFromSlice]: 4 or 16 bytes, anything else is not an address. *)
Definition AddrFromSlice (b : bytes) : option Addr :=
  if zlen b =? 4 then Some (AddrFrom4 b)
  else if zlen b =? 16 then Some (AddrFrom16 b) else None.

(** The following address, or the zero Addr past the last one. *)
Definition Next (a : Addr) : Addr :=
  match a with
  | AInvalid => AInvalid
  | A4 v => if v + 1 =? 2 ^ 32 then AInvalid else A4 (v + 1)
  | A6 v z => if v + 1 =? 2 ^ 128 then AInvalid else A6 (v + 1) z
  end.

(** [Compare]: by bit length, then value, then zone. *)
Definition Compare (a b : Addr) : comparison :=
  match BitLen a ?= BitLen b with
  | Eq => match addr_val a ?= addr_val b with
          | Eq => String.compare (Zone a) (Zone b)
          | c => c end
  | c => c
  end.

(** A [Prefix]: [pbits = -1] marks the invalid prefix. *)
Record Prefix : Type := mkPrefix { paddr : Addr; pbits : Z }.

#[export] Instance Prefix_eq_dec : EqDecision Prefix.
Proof. solve_decision. Defined.

Definition Prefix_invalid : Prefix := mkPrefix AInvalid (-1).

Definition PrefixFrom (a : Addr) (bits : Z) : Prefix :=
  if IsValid a && (0 <=? bits) && (bits <=? BitLen a)
  then mkPrefix (WithoutZone a) bits else mkPrefix (WithoutZone a) (-1).

Definition prefix_IsValid (p : Prefix) : bool := 0 <=? pbits p.

(** The low [n] bits of [v] cleared. *)
Definition clear_low (v n : Z) : Z := Z.shiftl (Z.shiftr v n) n.

Definition Masked (p : Prefix) : Prefix :=
  if prefix_IsValid p then
    match paddr p with
    | AInvalid => Prefix_invalid
    | A4 v => mkPrefix (A4 (clear_low v (32 - pbits p))) (pbits p)
    | A6 v _ => mkPrefix (A6 (clear_low v (128 - pbits p)) "") (pbits p)
    end
  else Prefix_invalid.

(** An IPv4 address is never in an IPv6 prefix nor the reverse, and an address
    with a zone is in no prefix. *)
Definition Contains (p : Prefix) (a : Addr) : bool :=
  prefix_IsValid p && bool_decide (Zone a = "")
  && match paddr p, a with
     | A4 n, A4 v => Z.shiftr n (32 - pbits p) =? Z.shiftr v (32 - pbits p)
     | A6 n _, A6 v _ => Z.shiftr n (128 - pbits p) =? Z.shiftr v (128 - pbits p)
     | _, _ => false
     end.

Definition prefix_wf (p : Prefix) : Prop :=
  addr_wf (paddr p) /\ Zone (paddr p) = "" /\ -1 <= pbits p <= BitLen (paddr p).

#[export] Instance prefix_wf_dec p : Decision (prefix_wf p).
Proof. unfold prefix_wf. apply _. Defined.

(** ** Facts *)

Lemma clear_low_spec v n : 0 <= n -> clear_low v n = v / 2 ^ n * 2 ^ n.
Proof. intros. unfold clear_low. by rewrite Z.shiftl_mul_pow2, Z.shiftr_div_pow2. Qed.

Lemma As4_ok a : Is4 a = true -> exists b, As4 a = Ret b.
Proof. destruct a; cbn; [done|eauto|done]. Qed.

Lemma AddrFrom4_be v : 0 <= v < 2 ^ 32 -> AddrFrom4 (be 4 v) = A4 v.
Proof. intros. unfold AddrFrom4. by rewrite unbe_be_id by (change (256 ^ Z.of_nat 4) with (2 ^ 32); done). Qed.

Lemma AddrFrom16_be v : 0 <= v < 2 ^ 128 -> AddrFrom16 (be 16 v) = A6 v "".
Proof. intros. unfold AddrFrom16. by rewrite unbe_be_id by (change (256 ^ Z.of_nat 16) with (2 ^ 128); done). Qed.

(** An IPv6 address without a zone survives [As16] / [AddrFrom16]. *)
Lemma As16_roundtrip v : 0 <= v < 2 ^ 128 -> AddrFrom16 (As16 (A6 v "")) = A6 v "".
Proof. apply AddrFrom16_be. Qed.

Lemma zlen_As16 a : zlen (As16 a) = 16.
Proof. destruct a; [done|apply zlen_be..]. Qed.

Lemma is_bytes_As16 a : is_bytes (As16 a).
Proof. destruct a; [apply is_bytes_zeros|apply is_bytes_be..]. Qed.

Lemma AddrFrom4_wf b : is_bytes b -> zlen b = 4 -> addr_wf (AddrFrom4 b).
Proof. intros Hb Hl. cbn. pose proof (unbe_bound b Hb). rewrite Hl in *. done. Qed.

Lemma AddrFrom16_wf b : is_bytes b -> zlen b = 16 -> addr_wf (AddrFrom16 b).
Proof. intros Hb Hl. cbn. pose proof (unbe_bound b Hb). rewrite Hl in *. done. Qed.

(** Membership in an IPv4 prefix is an interval. *)
Lemma Contains4 n bits v :
  0 <= bits <= 32 ->
  Contains (mkPrefix (A4 n) bits) (A4 v) = true <->
  n / 2 ^ (32 - bits) * 2 ^ (32 - bits) <= v
    < (n / 2 ^ (32 - bits) + 1) * 2 ^ (32 - bits).
Proof.
  intros Hb. unfold Contains, prefix_IsValid. cbn [paddr pbits Zone].
  rewrite (bool_decide_eq_true_2 ("" = "")) by done.
  replace (0 <=? bits) with true by (symmetry; apply Z.leb_le; lia). cbn [andb].
  rewrite Z.eqb_eq, !Z.shiftr_div_pow2 by lia.
  pose proof (Z.pow_pos_nonneg 2 (32 - bits)) as Hp.
  split.
  - intros ->. pose proof (Z.div_mod v (2 ^ (32 - bits))).
    pose proof (Z.mod_pos_bound v (2 ^ (32 - bits))). lia.
  - intros Hv. apply (Z.div_unique_pos _ _ _ (v - n / 2 ^ (32 - bits) * 2 ^ (32 - bits)));
      revert Hv; generalize (n / 2 ^ (32 - bits)) (2 ^ (32 - bits)); intros; nia.
Qed.

Lemma Masked_idem p : prefix_wf p -> Masked (Masked p) = Masked p.
Proof.
  destruct p as [a bits]. intros (Ha & Hz & Hb). unfold Masked, prefix_IsValid; cbn [paddr pbits] in *.
  destruct (Z.leb_spec 0 bits); [|done]. destruct a as [|v|v z]; cbn [paddr pbits BitLen] in *; [done|..].
  all: replace (0 <=? bits) with true by (symmetry; apply Z.leb_le; lia).
  all: rewrite !clear_low_spec by lia; do 2 f_equal; rewrite Z.div_mul by (apply Z.pow_nonzero; lia); done.
Qed.

(** The network address of a prefix belongs to it, as does every address it
    contains to the masked prefix. *)
Lemma Contains_Masked p a : prefix_wf p -> Contains (Masked p) a = Contains p a.
Proof.
  destruct p as [n bits]. intros (Hn & Hz & Hb). unfold Masked, Contains, prefix_IsValid; cbn [paddr pbits] in *.
  destruct (Z.leb_spec 0 bits); [|done].
  destruct n as [|v|v z]; cbn [paddr pbits BitLen] in *.
  - cbn. by rewrite andb_false_r.
  - destruct (Z.leb_spec 0 bits); [|lia]. do 2 f_equal. destruct a; [done| |done].
    rewrite clear_low_spec, !Z.shiftr_div_pow2, Z.div_mul by (lia || apply Z.pow_nonzero; lia). done.
  - destruct (Z.leb_spec 0 bits); [|lia]. do 2 f_equal. destruct a; [done..|].
    rewrite clear_low_spec, !Z.shiftr_div_pow2, Z.div_mul by (lia || apply Z.pow_nonzero; lia). done.
Qed.

Lemma Masked_pbits p n bits : Masked p = mkPrefix (A4 n) bits -> pbits p = bits.
Proof.
  unfold Masked. destruct (prefix_IsValid p); [destruct (paddr p)|]; unfold Prefix_invalid; congruence.
Qed.
