(* ===== verification/Text.v ===== *)
(** Text as the standard library reads it: a text is its bytes.  What the flags and the
    provider's answers go through: strings.Cut, strconv.Atoi and netip's ParseAddr and
    Addr.Prefix, with the printing of decimal numbers and IPv4 addresses. *)

From S2P Require Import Prelude Wire Netip.

Local Open Scope Z_scope.

(** The bytes of a literal, and the string of some bytes. *)
Definition str (s : string) : bytes := (fun a => Z.of_N (Ascii.N_of_ascii a)) <$> String.list_ascii_of_string s.
Definition of_bytes (b : bytes) : string := String.string_of_list_ascii ((fun c => Ascii.ascii_of_N (Z.to_N c)) <$> b).

Definition is_digit (c : Z) : bool := (0x30 <=? c) && (c <=? 0x39).

(** strings.Cut at a byte. *)
Fixpoint Cut (sep : Z) (b : bytes) : option (bytes * bytes) :=
  match b with
  | [] => None
  | c :: rest => if c =? sep then Some ([], rest) else prod_map (cons c) id <$> Cut sep rest
  end.

(** The three values of the Go call: what is before, what is after, and whether there
    was a separator. *)
Definition Cut3 (sep : Z) (b : bytes) : bytes * bytes * bool :=
  match Cut sep b with Some (x, y) => (x, y, true) | None => (b, [], false) end.

(** ** Decimal numbers *)

Definition digits_val (b : bytes) : option Z :=
  if bool_decide (b = []) || negb (forallb is_digit b) then None
  else Some (fold_left (fun acc c => acc * 10 + (c - 0x30)) b 0).

(** strconv.Atoi, on a 64-bit platform. *)
Definition Atoi (b : bytes) : option Z :=
  let '(neg, digits) := match b with
    | c :: rest => if c =? 0x2D then (true, rest) else if c =? 0x2B then (false, rest) else (false, b)
    | [] => (false, b)
    end in
  v ← digits_val digits;
  let v := if neg : bool then - v else v in
  if (- 2 ^ 63 <=? v) && (v <? 2 ^ 63) then Some v else None.

(** A number below [10 ^ k] in decimal. *)
Fixpoint dec (k : nat) (v : Z) : bytes :=
  match k with
  | O => []
  | S k => (if v <? 10 then [] else dec k (v / 10)) ++ [0x30 + v mod 10]
  end.
Definition decimal (v : Z) : bytes := dec 20 v.
Arguments decimal : simpl never.

(** ** Addresses (netip.ParseAddr) *)

(** parseIPv4Fields: [dot] is set at the start and just after a dot. *)
Fixpoint ipv4_loop (s : bytes) (dot : bool) (fields : bytes) (val digLen : Z) : option bytes :=
  match s with
  | [] => if zlen fields <? 3 then None else Some (fields ++ [val])
  | c :: rest =>
    if is_digit c then
      if (digLen =? 1) && (val =? 0) then None
      else
        let val := val * 10 + (c - 0x30) in
        if 255 <? val then None else ipv4_loop rest false fields val (digLen + 1)
    else if c =? 0x2E then
      if dot || bool_decide (rest = []) then None
      else if zlen fields =? 3 then None
      else ipv4_loop rest true (fields ++ [val]) 0 0
    else None
  end.

Definition parseIPv4 (s : bytes) : option Addr := AddrFrom4 <$> ipv4_loop s true [] 0 0.

Definition hex_val (c : Z) : option Z :=
  if is_digit c then Some (c - 0x30)
  else if (0x61 <=? c) && (c <=? 0x66) then Some (c - 0x57)
  else if (0x41 <=? c) && (c <=? 0x46) then Some (c - 0x37)
  else None.

(** The digits of a group: their value, how many they are, and what follows. *)
Fixpoint hex_loop (s : bytes) (off acc : Z) : option (Z * Z * bytes) :=
  match s with
  | [] => Some (acc, off, [])
  | c :: rest =>
    match hex_val c with
    | None => Some (acc, off, s)
    | Some d => if 3 <? off then None else hex_loop rest (off + 1) (acc * 16 + d)
    end
  end.

(** The groups: each round adds two bytes at least, so eight are enough. *)
Fixpoint ipv6_loop (fuel : nat) (s ip : bytes) (ellipsis : option Z) : option (bytes * bytes * option Z) :=
  match fuel with
  | O => Some (s, ip, ellipsis)
  | S fuel =>
    if 16 <=? zlen ip then Some (s, ip, ellipsis)
    else
      '(acc, off, rest) ← hex_loop s 0 0;
      if off =? 0 then None
      else if bool_decide (head rest = Some 0x2E) then
        if bool_decide (ellipsis = None) && negb (zlen ip =? 12) then None
        else if 16 <? zlen ip + 4 then None
        else fields ← ipv4_loop s true [] 0 0; Some ([], ip ++ fields, ellipsis)
      else
        let ip := ip ++ be 2 acc in
        match rest with
        | [] => Some ([], ip, ellipsis)
        | [_] => None
        | c :: (c' :: rest'') as rest' =>
          if negb (c =? 0x3A) then None
          else if c' =? 0x3A then
            if bool_decide (ellipsis = None) then
              match rest'' with
              | [] => Some ([], ip, Some (zlen ip))
              | _ => ipv6_loop fuel rest'' ip (Some (zlen ip))
              end
            else None
          else ipv6_loop fuel rest' ip ellipsis
        end
  end.

Definition parseIPv6 (s : bytes) : option Addr :=
  let '(s, zone, scoped) := Cut3 0x25 s in
  if scoped && bool_decide (zone = []) then None
  else
    let found := match s with 0x3A :: 0x3A :: rest => (rest, Some 0) | _ => (s, None) end in
    if bool_decide (found = ([], Some 0)) then Some (A6 0 (of_bytes zone))
    else
      '(s, ip, ellipsis) ← ipv6_loop 8 found.1 [] found.2;
      if negb (bool_decide (s = [])) then None
      else if zlen ip <? 16 then
        e ← ellipsis;
        Some (WithZone (AddrFrom16 (take (Z.to_nat e) ip ++ zeros (16 - zlen ip) ++ drop (Z.to_nat e) ip)) (of_bytes zone))
      else if bool_decide (ellipsis = None) then Some (WithZone (AddrFrom16 ip) (of_bytes zone)) else None.

(** The first of the three characters decides. *)
Fixpoint ParseAddr_scan (s rest : bytes) : option Addr :=
  match rest with
  | [] => None
  | c :: rest =>
    if c =? 0x2E then parseIPv4 s
    else if c =? 0x3A then parseIPv6 s
    else if c =? 0x25 then None
    else ParseAddr_scan s rest
  end.
Definition ParseAddr (s : bytes) : option Addr := ParseAddr_scan s s.

(** Addr.Prefix, of a valid address: the prefix of that length holding it. *)
Definition addr_Prefix (ip : Addr) (bits : Z) : option Prefix :=
  if (bits <? 0) || (BitLen ip <? bits) then None
  else Some (Masked (PrefixFrom (WithoutZone ip) bits)).

(** An IPv4 address in dotted decimal. *)
Definition print4 (v : Z) : bytes :=
  decimal (v / 2 ^ 24) ++ [0x2E] ++ decimal (v / 2 ^ 16 mod 256) ++ [0x2E] ++ decimal (v / 2 ^ 8 mod 256)
  ++ [0x2E] ++ decimal (v mod 256).

(** ** The readings of what is printed *)

Lemma str_of_bytes b : is_bytes b -> str (of_bytes b) = b.
Proof.
  intros Hb. unfold str, of_bytes. rewrite String.list_ascii_of_string_of_list_ascii, <- list_fmap_compose.
  induction Hb as [|c b Hc Hb IH]; [done|]. rewrite fmap_cons, IH. f_equal. unfold compose.
  rewrite Ascii.N_ascii_embedding; [|unfold is_byte in Hc; lia]. apply Z2N.id. unfold is_byte in Hc. lia.
Qed.

Lemma Cut_absent sep x y : Forall (fun c => c <> sep) x -> Cut sep (x ++ sep :: y) = Some (x, y).
Proof.
  induction 1 as [|c x Hc Hx IH]; cbn [app Cut]; [by rewrite Z.eqb_refl|]. rewrite (proj2 (Z.eqb_neq _ _)) by done.
  by rewrite IH.
Qed.

Lemma Cut_none sep b : Forall (fun c => c <> sep) b -> Cut sep b = None.
Proof.
  induction 1 as [|c b Hc Hb IH]; [done|]. cbn [Cut]. rewrite (proj2 (Z.eqb_neq _ _)) by done. by rewrite IH.
Qed.

Lemma Cut_app sep b x y : Cut sep b = Some (x, y) -> b = x ++ sep :: y /\ Forall (fun c => c <> sep) x.
Proof.
  revert x y. induction b as [|c b IH]; intros x y; cbn [Cut]; [done|]. destruct (Z.eqb_spec c sep) as [->|Hc].
  - intros [= <- <-]. split; [done|constructor].
  - destruct (Cut sep b) as [[x' y']|]; [|done]. cbn. intros [= <- <-]. destruct (IH x' y' eq_refl) as [-> ?]. split; [done|by constructor].
Qed.

Definition decimal_digit (c : Z) : Prop := 0x30 <= c <= 0x39.

Lemma is_digit_true c : is_digit c = true <-> decimal_digit c.
Proof. unfold is_digit, decimal_digit. rewrite andb_true_iff, !Z.leb_le. done. Qed.

Lemma dec_digits k v : 0 <= v -> Forall decimal_digit (dec k v).
Proof.
  revert v. induction k as [|k IH]; intros v Hv; cbn [dec]; [constructor|]. pose proof (Z.mod_pos_bound v 10 eq_refl).
  apply Forall_app. split; [|constructor; [unfold decimal_digit; lia|constructor]].
  destruct (v <? 10); [constructor|]. apply IH. by apply Z.div_pos.
Qed.

Lemma dec_val k v : 0 <= v < 10 ^ Z.of_nat k -> fold_left (fun acc c => acc * 10 + (c - 0x30)) (dec k v) 0 = v.
Proof.
  revert v. induction k as [|k IH]; intros v Hv; [change (10 ^ Z.of_nat 0) with 1 in Hv; cbn; lia|].
  rewrite Nat2Z.inj_succ, Z.pow_succ_r in Hv by lia. cbn [dec]. rewrite fold_left_app. cbn [fold_left].
  pose proof (Z.div_mod v 10 ltac:(lia)). destruct (Z.ltb_spec v 10).
  - cbn [fold_left]. rewrite Z.mod_small in * by lia. lia.
  - rewrite IH; [lia|]. split; [by apply Z.div_pos; lia|]. by apply Z.div_lt_upper_bound; lia.
Qed.

Lemma dec_nonempty k v : dec (S k) v <> [].
Proof. cbn [dec]. by destruct (v <? 10); [|destruct (dec k (v / 10))]. Qed.

Lemma digits_val_decimal v : 0 <= v < 10 ^ 20 -> digits_val (decimal v) = Some v.
Proof.
  intros Hv. unfold digits_val, decimal. rewrite bool_decide_eq_false_2 by apply dec_nonempty.
  rewrite (proj2 (forallb_forall _ _)).
  - cbn [orb negb]. by rewrite dec_val.
  - intros c Hc. apply is_digit_true. pose proof (dec_digits 20 v ltac:(lia)) as H. rewrite Forall_forall in H. by apply H, list_elem_of_In.
Qed.

Lemma Atoi_decimal v : 0 <= v < 2 ^ 63 -> Atoi (decimal v) = Some v.
Proof.
  intros Hv. unfold Atoi. pose proof (digits_val_decimal v ltac:(lia)) as E. pose proof (dec_digits 20 v ltac:(lia)) as Hd.
  change (dec 20 v) with (decimal v) in Hd. destruct (decimal v) as [|c b]; [done|]. apply Forall_cons in Hd as [Hc _].
  unfold decimal_digit in Hc. rewrite (proj2 (Z.eqb_neq c 0x2D)), (proj2 (Z.eqb_neq c 0x2B)) by lia. rewrite E. cbn.
  by rewrite (proj2 (Z.leb_le _ _)), (proj2 (Z.ltb_lt _ _)) by lia.
Qed.

(** A field of an IPv4 address. *)
Lemma ipv4_field a rest fields : 0 <= a < 256 ->
  exists n, ipv4_loop (decimal a ++ rest) true fields 0 0 = ipv4_loop rest false fields a n.
Proof.
  intros Ha. assert (forall d, 0 <= d <= 9 -> is_digit (0x30 + d) = true) as Hd by (intros d ?; apply is_digit_true; unfold decimal_digit; lia).
  assert (forall x, 0 <= x < 10 -> x mod 10 = x) as Hs by (intros; by apply Z.mod_small).
  pose proof (Z.mod_pos_bound a 10 eq_refl). pose proof (Z.div_mod a 10 ltac:(lia)).
  unfold decimal. cbn [dec]. destruct (Z.ltb_spec a 10).
  { rewrite Hs by lia. cbn [app ipv4_loop]. rewrite Hd by lia. cbn [Z.eqb andb]. rewrite (proj2 (Z.ltb_ge _ _)) by lia.
    exists 1. f_equal. lia. }
  set (q := a / 10) in *. pose proof (Z.mod_pos_bound q 10 eq_refl). pose proof (Z.div_mod q 10 ltac:(lia)).
  destruct (Z.ltb_spec q 10).
  { rewrite (Hs q) by lia. cbn [app ipv4_loop]. rewrite Hd by lia. cbn [Z.eqb andb]. rewrite (proj2 (Z.ltb_ge _ _)) by lia.
    rewrite Hd by lia. rewrite (proj2 (Z.eqb_neq (0 * 10 + (48 + q - 48)) 0)) by lia. cbn [andb]. rewrite andb_false_r.
    rewrite (proj2 (Z.ltb_ge _ _)) by lia. exists 2. f_equal. lia. }
  set (p := q / 10) in *. rewrite (proj2 (Z.ltb_lt p 10)) by lia. rewrite (Hs p) by lia.
  cbn [app ipv4_loop]. rewrite Hd by lia. cbn [Z.eqb andb]. rewrite (proj2 (Z.ltb_ge _ _)) by lia.
  rewrite Hd by lia. rewrite (proj2 (Z.eqb_neq (0 * 10 + (48 + p - 48)) 0)) by lia. rewrite andb_false_r.
  rewrite (proj2 (Z.ltb_ge _ _)) by lia. rewrite Hd by lia. cbn [Z.add Z.eqb Pos.add Pos.eqb andb].
  rewrite (proj2 (Z.ltb_ge _ _)) by lia. exists 3. f_equal. lia.
Qed.

Lemma ipv4_dot b rest fields a n : b ++ rest <> [] -> zlen fields < 3 ->
  ipv4_loop (0x2E :: b ++ rest) false fields a n = ipv4_loop (b ++ rest) true (fields ++ [a]) 0 0.
Proof.
  intros Hne Hf. cbn [ipv4_loop]. change (is_digit 0x2E) with false. cbn [Z.eqb Pos.eqb orb].
  rewrite bool_decide_eq_false_2 by done. by rewrite (proj2 (Z.eqb_neq _ _)) by lia.
Qed.

Lemma scan_digits s b rest : Forall decimal_digit b -> ParseAddr_scan s (b ++ rest) = ParseAddr_scan s rest.
Proof.
  induction 1 as [|c b Hc Hb IH]; [done|]. cbn [app ParseAddr_scan]. unfold decimal_digit in Hc.
  by rewrite (proj2 (Z.eqb_neq c 0x2E)), (proj2 (Z.eqb_neq c 0x3A)), (proj2 (Z.eqb_neq c 0x25)) by lia.
Qed.

Lemma four_bytes v : 0 <= v < 2 ^ 32 -> be 4 v = [v / 2 ^ 24; v / 2 ^ 16 mod 256; v / 2 ^ 8 mod 256; v mod 256].
Proof.
  intros Hv. change (be 4 v) with [u8 (Z.shiftr v 24); u8 (Z.shiftr v 16); u8 (Z.shiftr v 8); u8 (Z.shiftr v 0)].
  unfold u8. rewrite !Z.shiftr_div_pow2 by lia. rewrite Z.pow_0_r, Z.div_1_r. f_equal.
  apply Z.mod_small. split; [apply Z.div_pos; lia|]. apply Z.div_lt_upper_bound; lia.
Qed.

(** The next field is read, [H] bounding it. *)
Ltac read_field H :=
  match goal with
  | |- ipv4_loop (decimal ?a ++ ?rest) true ?fields 0 0 = _ =>
    let n := fresh "n" in let E := fresh "E" in destruct (ipv4_field a rest fields H) as [n E]; rewrite E; clear E
  end.

(** What print4 writes, ParseAddr reads. *)
Lemma ParseAddr_print4 v : 0 <= v < 2 ^ 32 -> ParseAddr (print4 v) = Some (A4 v).
Proof.
  intros Hv. unfold ParseAddr. set (s := print4 v). unfold print4 in s.
  assert (0 <= v / 2 ^ 24 < 256) as Ha by (split; [apply Z.div_pos; lia|apply Z.div_lt_upper_bound; lia]).
  pose proof (Z.mod_pos_bound (v / 2 ^ 16) 256 eq_refl) as Hb. pose proof (Z.mod_pos_bound (v / 2 ^ 8) 256 eq_refl) as Hc.
  pose proof (Z.mod_pos_bound v 256 eq_refl) as Hd.
  unfold s at 2. rewrite scan_digits by (apply dec_digits; lia). cbn [app ParseAddr_scan]. unfold parseIPv4.
  enough (ipv4_loop s true [] 0 0 = Some (be 4 v)) as -> by (cbn; by rewrite AddrFrom4_be).
  rewrite four_bytes by done. unfold s.
  assert (forall x y, decimal x ++ y <> []) as Hne
    by (intros x y; pose proof (dec_nonempty 19 x); unfold decimal; by destruct (dec 20 x)).
  rewrite <- (app_nil_r (decimal (v mod 256))).
  read_field Ha. cbn [app]. rewrite ipv4_dot by done. read_field Hb. cbn [app]. rewrite ipv4_dot by done.
  read_field Hc. cbn [app]. rewrite ipv4_dot by done. read_field Hd. done.
Qed.

(** ** What is read is an address *)

Lemma ipv4_loop_ok s dot fields val n b : is_bytes fields -> zlen fields <= 3 -> 0 <= val <= 255 ->
  ipv4_loop s dot fields val n = Some b -> is_bytes b /\ zlen b = 4.
Proof.
  revert dot fields val n. induction s as [|c s IH]; intros dot fields val n Hf Hl Hv; cbn [ipv4_loop].
  - destruct (Z.ltb_spec (zlen fields) 3); [done|]. intros [= <-]. rewrite zlen_app, zlen_cons, zlen_nil. split; [|lia].
    apply is_bytes_app. split; [done|]. constructor; [unfold is_byte; lia|constructor].
  - destruct (is_digit c) eqn:Ec.
    + apply is_digit_true in Ec. unfold decimal_digit in Ec. destruct (_ && _); [done|].
      destruct (Z.ltb_spec 255 (val * 10 + (c - 48))); [done|]. apply IH; [done..|lia].
    + destruct (c =? 0x2E); [|done]. destruct (_ || _); [done|]. destruct (Z.eqb_spec (zlen fields) 3); [done|].
      apply IH; [|rewrite zlen_app, zlen_cons, zlen_nil; lia|lia].
      apply is_bytes_app. split; [done|]. constructor; [unfold is_byte; lia|constructor].
Qed.

Lemma ipv6_loop_ok fuel s ip e s' ip' e' : is_bytes ip -> zlen ip <= 16 -> zlen ip mod 2 = 0 ->
  (forall x, e = Some x -> 0 <= x <= zlen ip) ->
  ipv6_loop fuel s ip e = Some (s', ip', e') ->
  is_bytes ip' /\ zlen ip' <= 16 /\ (forall x, e' = Some x -> 0 <= x <= zlen ip').
Proof.
  revert s ip e. induction fuel as [|fuel IH]; intros s ip e Hb Hl Hm He; cbn [ipv6_loop]; [by intros [= <- <- <-]|].
  pose proof (zlen_nonneg ip). destruct (Z.leb_spec 16 (zlen ip)) as [|Hlt]; [by intros [= <- <- <-]|].
  destruct (hex_loop s 0 0) as [[[acc off] rest]|]; cbn [mbind option_bind]; [|done].
  destruct (off =? 0); [done|]. case_bool_decide as Hdot.
  - destruct (_ && _); [done|]. destruct (Z.ltb_spec 16 (zlen ip + 4)); [done|].
    destruct (ipv4_loop s true [] 0 0) as [fields|] eqn:Ef; cbn [mbind option_bind]; [|done].
    apply ipv4_loop_ok in Ef as [? Hz]; [|constructor|rewrite zlen_nil; lia|lia]. intros [= <- <- <-].
    rewrite zlen_app, Hz. split; [by apply is_bytes_app|]. split; [lia|]. intros x Hx. apply He in Hx. lia.
  - assert (zlen ip + 2 <= 16) as H2 by (pose proof (Z.div_mod (zlen ip) 2 ltac:(lia)); lia).
    assert (zlen (ip ++ be 2 acc) = zlen ip + 2) as Hz by (rewrite zlen_app, zlen_be; lia).
    assert (is_bytes (ip ++ be 2 acc)) as Hb2 by (apply is_bytes_app; split; [done|apply is_bytes_be]).
    assert (zlen (ip ++ be 2 acc) mod 2 = 0) as Hm2 by (rewrite Hz, <- Z.add_mod_idemp_l, Hm by lia; done).
    destruct rest as [|c [|c' rest]]; [intros [= <- <- <-]; split_and!; [done|lia|]; intros x Hx; apply He in Hx; lia|done|].
    destruct (negb (c =? 0x3A)); [done|]. destruct (c' =? 0x3A).
    + case_bool_decide; [|done]. assert (forall x, Some (zlen (ip ++ be 2 acc)) = Some x -> 0 <= x <= zlen (ip ++ be 2 acc))
        as He2 by (intros x [= <-]; lia).
      destruct rest; [intros [= <- <- <-]; split_and!; [done|lia|done]|]. apply IH; done || lia.
    + apply IH; [done|lia|done|]. intros x Hx. apply He in Hx. lia.
Qed.

Lemma parseIPv6_ok s a : parseIPv6 s = Some a -> addr_wf a /\ IsValid a = true /\ Is4 a = false.
Proof.
  unfold parseIPv6. destruct (Cut3 0x25 s) as [[s1 zone] scoped]. destruct (_ && _); [done|].
  set (found := match s1 with 0x3A :: 0x3A :: rest => _ | _ => _ end). case_bool_decide; [intros [= <-]; by_eval|].
  assert (forall x, found.2 = Some x -> x = 0) as Hf
    by (unfold found; repeat case_match; cbn; intros x [= <-] || done; done).
  destruct (ipv6_loop 8 found.1 [] found.2) as [[[s2 ip] e]|] eqn:El; cbn [mbind option_bind]; [|done].
  apply ipv6_loop_ok in El as (Hb & Hl & He); [|by constructor|done|done|by intros x ->%Hf].
  destruct (negb _); [done|].
  assert (forall b z, is_bytes b -> zlen b = 16 -> addr_wf (WithZone (AddrFrom16 b) z)) as Hw
    by (intros b z H1 H2; pose proof (AddrFrom16_wf b H1 H2); done).
  destruct (Z.ltb_spec (zlen ip) 16) as [Hlt|Hge].
  - destruct e as [x|]; cbn [mbind option_bind]; [|done]. specialize (He x eq_refl). intros [= <-]. split; [|done]. apply Hw.
    + apply is_bytes_app. split; [by apply is_bytes_take|]. apply is_bytes_app. split; [apply is_bytes_zeros|by apply is_bytes_drop].
    + rewrite !zlen_app, zlen_take, zlen_zeros, zlen_drop. pose proof (zlen_nonneg ip). lia.
  - case_bool_decide; [|done]. intros [= <-]. split; [|done]. apply Hw; [done|lia].
Qed.

Lemma ParseAddr_ok s a : ParseAddr s = Some a -> addr_wf a /\ IsValid a = true.
Proof.
  unfold ParseAddr. generalize s at 2. intros rest. induction rest as [|c rest IH]; cbn [ParseAddr_scan]; [done|].
  destruct (c =? 0x2E).
  - unfold parseIPv4. destruct (ipv4_loop s true [] 0 0) as [b|] eqn:E; [|done]. intros [= <-].
    apply ipv4_loop_ok in E as [? ?]; [|constructor|rewrite zlen_nil; lia|lia]. split; [by apply AddrFrom4_wf|done].
  - destruct (c =? 0x3A); [intros (? & ? & _)%parseIPv6_ok; done|]. by destruct (c =? 0x25).
Qed.

(** ** At concrete inputs *)

Lemma ParseAddr_samples :
  ParseAddr (str "192.168.1.1") = Some (A4 0xC0A80101) /\ ParseAddr (str "192.168.01.1") = None
  /\ ParseAddr (str "1.2.3") = None /\ ParseAddr (str "1.2.3.256") = None
  /\ ParseAddr (str "2001:db8::1") = Some (A6 0x20010db8000000000000000000000001 "")
  /\ ParseAddr (str "::ffff:10.0.0.1") = Some (A6 0xffff0a000001 "") /\ ParseAddr (str "::") = Some (A6 0 "")
  /\ ParseAddr (str "fe80::1%eth0") = Some (A6 0xfe800000000000000000000000000001 "eth0")
  /\ ParseAddr (str "1:2:3:4:5:6:7:8:9") = None /\ ParseAddr (str "1::2::3") = None
  /\ ParseAddr (str "1:2:3:4:5:6:7::") = Some (A6 0x00010002000300040005000600070000 "")
  /\ ParseAddr (str "12345::") = None /\ ParseAddr (str "::1%") = None /\ ParseAddr (str "localhost") = None.
Proof. vm_compute. done. Qed.
