(* ===== verification/Checksum.v ===== *)
(** The Internet checksum (RFC 1071) as the packages compute it
    (src/pkg/dhcpv4/packet.go, checksum): 32-bit accumulation of 16-bit words,
    the carries folded back in.  The fold is the residue modulo 65535 kept in
    1..65535, and a block with its checksum inserted sums to zero. *)

From S2P Require Import Prelude Wire.

Local Open Scope Z_scope.

(** The accumulation loop and the odd trailing byte, at 32 bits. *)
Fixpoint checksum_sum (b : bytes) (sum : Z) : Z :=
  match b with
  | hi :: lo :: b' => checksum_sum b' (u32 (sum + Z.lor (Z.shiftl hi 8) lo))
  | [hi] => u32 (sum + Z.shiftl hi 8)
  | [] => sum
  end.

(** [for sum>>16 != 0]: at most three tests on a 32-bit sum. *)
Fixpoint fold_carries (fuel : nat) (sum : Z) : Z :=
  match fuel with
  | O => sum
  | S fuel' =>
    if Z.shiftr sum 16 =? 0 then sum
    else fold_carries fuel' (u32 (Z.land sum 0xffff + Z.shiftr sum 16))
  end.

Definition checksum (b : bytes) : Z :=
  u16 (Z.lnot (u16 (fold_carries 4 (checksum_sum b 0)))).

(** ** The arithmetic meaning *)

(** The exact sum of the big-endian words. *)
Fixpoint wsum (b : bytes) : Z :=
  match b with
  | hi :: lo :: b' => 256 * hi + lo + wsum b'
  | [hi] => 256 * hi
  | [] => 0
  end.

Lemma bytes_ind2 (P : bytes -> Prop) :
  P [] -> (forall x, P [x]) -> (forall x y b, P b -> P (x :: y :: b)) -> forall b, P b.
Proof.
  intros H0 H1 H2. fix IH 1. intros [|x [|y b]]; [done|done|]. apply H2, IH.
Qed.

Lemma wsum_nonneg b : is_bytes b -> 0 <= wsum b.
Proof.
  induction b as [|x|x y b IH] using bytes_ind2; intros Hb; cbn [wsum]; [lia|..].
  - inversion Hb; subst. unfold is_byte in *. lia.
  - inversion Hb as [|? ? Hx Hb']; subst. inversion Hb' as [|? ? Hy Hb'']; subst.
    specialize (IH Hb''). unfold is_byte in *. lia.
Qed.

Lemma wsum_bound b : is_bytes b -> 2 * wsum b <= 65535 * (zlen b + 1).
Proof.
  induction b as [|x|x y b IH] using bytes_ind2; intros Hb; cbn [wsum].
  - change (zlen []) with 0. lia.
  - inversion Hb; subst. change (zlen [x]) with 1. unfold is_byte in *. lia.
  - inversion Hb as [|? ? Hx Hb']; subst. inversion Hb' as [|? ? Hy Hb'']; subst.
    specialize (IH Hb''). rewrite !zlen_cons. unfold is_byte in *. lia.
Qed.

Lemma wsum_app b c : Z.even (zlen b) = true -> wsum (b ++ c) = wsum b + wsum c.
Proof.
  induction b as [|x|x y b IH] using bytes_ind2; intros He; cbn [wsum app]; [lia|done|].
  rewrite IH; [lia|]. rewrite !zlen_cons in He.
  replace (1 + (1 + zlen b)) with (zlen b + 2 * 1) in He by lia.
  by rewrite Z.even_add_mul_2 in He.
Qed.

Lemma wsum_be2 v : 0 <= v < 2 ^ 16 -> wsum (be 2 v) = v.
Proof.
  intros Hv. change (be 2 v) with [u8 (Z.shiftr v 8); u8 (Z.shiftr v 0)]. cbn [wsum].
  rewrite Z.shiftr_0_r, Z.shiftr_div_pow2 by lia. change (2 ^ 8) with 256.
  rewrite (Z.mod_small (v / 256)) by (split; [apply Z.div_pos; lia|apply Z.div_lt_upper_bound; lia]).
  pose proof (Z.div_mod v 256). lia.
Qed.

(** Below 2^32 the accumulation is exact. *)
Lemma checksum_sum_exact b acc : is_bytes b -> 0 <= acc -> acc + wsum b < 2 ^ 32 ->
  checksum_sum b acc = acc + wsum b.
Proof.
  revert acc. induction b as [|x|x y b IH] using bytes_ind2; intros acc Hb Ha Hs; cbn [checksum_sum wsum] in *.
  - lia.
  - inversion Hb as [|? ? Hx]; subst. unfold is_byte in Hx. rewrite Z.shiftl_mul_pow2 by lia.
    rewrite Z.mod_small; lia.
  - inversion Hb as [|? ? Hx Hb']; subst. inversion Hb' as [|? ? Hy Hb'']; subst.
    pose proof (wsum_nonneg b Hb''). unfold is_byte in *.
    rewrite lor_shiftl_add by lia. change (2 ^ 8) with 256. rewrite Z.mod_small by lia.
    rewrite IH by (done || lia). lia.
Qed.

(** The residue in 1..65535 of a positive number, 0 of 0. *)
Definition ones (s : Z) : Z := if s =? 0 then 0 else 1 + (s - 1) mod 65535.

Lemma ones_small s : 0 <= s < 65536 -> ones s = s.
Proof.
  intros H. unfold ones. destruct (Z.eqb_spec s 0); [done|]. rewrite Z.mod_small; lia.
Qed.

Lemma ones_step s : 65536 <= s -> ones (s mod 65536 + s / 65536) = ones s.
Proof.
  intros H. pose proof (Z.div_mod s 65536). pose proof (Z.mod_pos_bound s 65536).
  assert (1 <= s / 65536) by (apply Z.div_le_lower_bound; lia). unfold ones.
  destruct (Z.eqb_spec (s mod 65536 + s / 65536) 0); [lia|].
  destruct (Z.eqb_spec s 0); [lia|]. f_equal.
  replace (s - 1) with (s mod 65536 + s / 65536 - 1 + (s / 65536) * 65535) by lia.
  by rewrite Z.mod_add.
Qed.

Lemma fold_step s : 0 <= s < 2 ^ 32 ->
  u32 (Z.land s 0xffff + Z.shiftr s 16) = s mod 65536 + s / 65536.
Proof.
  intros H. change 0xffff with (Z.ones 16). rewrite Z.land_ones, Z.shiftr_div_pow2 by lia.
  change (2 ^ 16) with 65536. pose proof (Z.mod_pos_bound s 65536).
  assert (0 <= s / 65536 < 65536) by (split; [apply Z.div_pos; lia|apply Z.div_lt_upper_bound; lia]).
  apply Z.mod_small. lia.
Qed.

Lemma fold_carries_ones n s : (3 <= n)%nat -> 0 <= s < 2 ^ 32 -> fold_carries n s = ones s.
Proof.
  intros Hn Hs.
  assert (forall k s, 0 <= s < 65536 -> fold_carries k s = ones s) as Hsmall.
  { intros k t Ht. rewrite ones_small by done. destruct k; [done|]. cbn.
    rewrite Z.shiftr_div_pow2, Z.div_small by (cbn; lia). done. }
  assert (forall k s, (1 <= k)%nat -> 65536 <= s < 131071 -> fold_carries k s = ones s) as Hmid.
  { intros k t Hk Ht. destruct k as [|k]; [lia|]. cbn [fold_carries].
    destruct (Z.eqb_spec (Z.shiftr t 16) 0) as [E|E].
    - rewrite Z.shiftr_div_pow2 in E by lia. change (2 ^ 16) with 65536 in E.
      pose proof (Z.div_mod t 65536). pose proof (Z.mod_pos_bound t 65536). lia.
    - rewrite fold_step, Hsmall, ones_step; [done|lia| |lia].
      assert (t / 65536 = 1) as -> by (symmetry; apply (Z.div_unique _ _ _ (t - 65536)); lia).
      pose proof (Z.div_mod t 65536). pose proof (Z.mod_pos_bound t 65536). lia. }
  destruct (Z_lt_le_dec s 65536); [apply Hsmall; lia|].
  destruct n as [|n]; [lia|]. cbn [fold_carries].
  assert (1 <= s / 65536) by (apply Z.div_le_lower_bound; lia).
  destruct (Z.eqb_spec (Z.shiftr s 16) 0) as [E|E].
  { rewrite Z.shiftr_div_pow2 in E by lia. change (2 ^ 16) with 65536 in E. lia. }
  rewrite fold_step by done. rewrite <- (ones_step s) by done.
  pose proof (Z.mod_pos_bound s 65536).
  assert (s / 65536 < 65536) by (apply Z.div_lt_upper_bound; lia).
  destruct (Z_lt_le_dec (s mod 65536 + s / 65536) 65536); [apply Hsmall; lia|apply Hmid; lia].
Qed.

Lemma ones_bound s : 0 <= s -> 0 <= ones s < 65536.
Proof.
  intros H. unfold ones. destruct (_ =? 0); [lia|]. pose proof (Z.mod_pos_bound (s - 1) 65535). lia.
Qed.

(** The checksum of a block whose words sum to less than 2^32. *)
Lemma checksum_ones b : is_bytes b -> wsum b < 2 ^ 32 -> checksum b = 65535 - ones (wsum b).
Proof.
  intros Hb Hs. pose proof (wsum_nonneg b Hb). unfold checksum.
  rewrite checksum_sum_exact, fold_carries_ones, Z.add_0_l by lia || done.
  pose proof (ones_bound (wsum b)). rewrite (Z.mod_small (ones (wsum b))) by lia.
  pose proof (Z.add_lnot_diag (ones (wsum b))).
  replace (Z.lnot (ones (wsum b))) with (65535 - ones (wsum b) + (-1) * 2 ^ 16) by lia.
  rewrite Z.mod_add, Z.mod_small; lia.
Qed.

Lemma checksum_bound b : is_bytes b -> wsum b < 2 ^ 32 -> 0 <= checksum b < 2 ^ 16.
Proof.
  intros Hb Hs. rewrite checksum_ones by done.
  pose proof (ones_bound (wsum b) (wsum_nonneg b Hb)). lia.
Qed.

(** Adding the complement of a positive sum's residue brings the residue to
    all ones, whose complement is zero. *)
Lemma ones_complement s c : 0 < s -> c = 65535 - ones s \/ (c = 65535 /\ ones s = 65535) ->
  ones (s + c) = 65535.
Proof.
  intros Hs Hc. unfold ones in *. destruct (Z.eqb_spec s 0); [lia|].
  pose proof (Z.mod_pos_bound (s - 1) 65535). pose proof (Z.div_mod (s - 1) 65535).
  assert (0 <= c) by lia. destruct (Z.eqb_spec (s + c) 0); [lia|].
  assert (s + c - 1 = 65534 + ((s - 1) / 65535 + (if decide (c = 65535 /\ 1 + (s - 1) mod 65535 = 65535) then 1 else 0)) * 65535) as ->.
  { case_decide; lia. }
  rewrite Z.mod_add, Z.mod_small; lia.
Qed.

(** A block [p ++ zero field ++ s] whose two-byte field is then filled with its
    checksum (or, when that is zero, with all ones) sums to zero. *)
Lemma checksum_verifies p s c :
  is_bytes p -> is_bytes s -> Z.even (zlen p) = true ->
  0 < wsum (p ++ s) -> zlen p + 2 + zlen s <= 131000 ->
  c = checksum (p ++ [0; 0] ++ s) \/ (c = 65535 /\ checksum (p ++ [0; 0] ++ s) = 0) ->
  checksum (p ++ be 2 c ++ s) = 0.
Proof.
  intros Hp Hs He Hpos Hl Hc.
  assert (is_bytes (p ++ [0; 0] ++ s)) as H0
    by (apply is_bytes_app; split; [done|]; constructor; [done|]; constructor; done).
  pose proof (wsum_bound _ H0) as Hb0. rewrite !zlen_app in Hb0. change (zlen [0; 0]) with 2 in Hb0.
  pose proof (checksum_bound _ H0) as Hcb. pose proof (checksum_ones _ H0) as Hco.
  rewrite !wsum_app in * by done. cbn [wsum app] in Hb0, Hco, Hcb.
  rewrite !Z.mul_0_r, !Z.add_0_l in *.
  specialize (Hcb ltac:(lia)). specialize (Hco ltac:(lia)).
  cbn [app] in Hc. assert (0 <= c < 2 ^ 16) as Hcr by lia.
  assert (is_bytes (p ++ be 2 c ++ s)) as H1 by (rewrite !is_bytes_app; auto using is_bytes_be).
  pose proof (wsum_bound _ H1) as Hb1. rewrite !zlen_app, zlen_be in Hb1.
  assert (wsum (p ++ be 2 c ++ s) = wsum p + wsum s + c) as Hw
    by (rewrite wsum_app by done; rewrite (wsum_app (be 2 c)) by done; rewrite wsum_be2 by lia; lia).
  rewrite checksum_ones by (done || lia). rewrite Hw, ones_complement; lia.
Qed.
