(* ===== verification/Packet.v ===== *)
(** Packet bytes and the helpers of src/bpf/datapath_helpers.h that the packet
    programs share.

    A frame is its bytes; a pointer into it is an offset, [data_end] its length,
    and a field is read and written at its offset, in network byte order.  The
    Internet checksum is the exception: the programs sum and store the frame's
    16-bit words as the host sees them, so everything that touches a checksum is
    translated at the host's byte order, [little_endian], and proved for both.
    The one's complement sums are compared modulo 65535 ([eqc]). *)

From S2P Require Import Prelude Wire Checksum.

Local Open Scope Z_scope.

(** ** Reading and writing at an offset *)

Definition at8 (p : bytes) (i : Z) : Z := default 0 (p !! Z.to_nat i).
Definition sub (p : bytes) (i n : Z) : bytes := take (Z.to_nat n) (drop (Z.to_nat i) p).
Definition put (p : bytes) (i : Z) (bs : bytes) : bytes :=
  take (Z.to_nat i) p ++ bs ++ drop (Z.to_nat i + length bs) p.

(** [bpf_ntohs] of a 16-bit field, [bpf_ntohl] of a 32-bit one. *)
Definition ld16 (p : bytes) (i : Z) : Z := unbe (sub p i 2).
Definition ld32 (p : bytes) (i : Z) : Z := unbe (sub p i 4).

Lemma lookup_sub p i n k : 0 <= i ->
  sub p i n !! k = if decide (Z.of_nat k < n) then p !! (Z.to_nat i + k)%nat else None.
Proof.
  intros Hi. unfold sub. case_decide.
  - rewrite lookup_take_lt by lia. apply lookup_drop.
  - apply lookup_take_ge. lia.
Qed.

Lemma lookup_put p i bs k : 0 <= i -> i + zlen bs <= zlen p ->
  put p i bs !! k =
  if decide (i <= Z.of_nat k < i + zlen bs) then bs !! (k - Z.to_nat i)%nat else p !! k.
Proof.
  unfold zlen, put. intros Hi Hl.
  assert (length (take (Z.to_nat i) p) = Z.to_nat i) as Ht by (rewrite length_take; lia).
  case_decide as Hk.
  - rewrite lookup_app_r, Ht by lia. apply lookup_app_l. lia.
  - destruct (decide (Z.of_nat k < i)).
    + rewrite lookup_app_l by lia. apply lookup_take_lt. lia.
    + rewrite lookup_app_r, Ht, lookup_app_r, lookup_drop by lia. f_equal. lia.
Qed.

Lemma zlen_put p i bs : 0 <= i -> i + zlen bs <= zlen p -> zlen (put p i bs) = zlen p.
Proof. unfold zlen, put. intros. rewrite !length_app, length_take, length_drop. lia. Qed.

Lemma zlen_sub p i n : 0 <= i -> 0 <= n -> i + n <= zlen p -> zlen (sub p i n) = n.
Proof. unfold zlen, sub. intros. rewrite length_take, length_drop. lia. Qed.

Lemma is_bytes_sub p i n : is_bytes p -> is_bytes (sub p i n).
Proof. intros. by apply is_bytes_take, is_bytes_drop. Qed.

Lemma is_bytes_put p i bs : is_bytes p -> is_bytes bs -> is_bytes (put p i bs).
Proof. intros. unfold put. rewrite !is_bytes_app. auto using is_bytes_take, is_bytes_drop. Qed.

Lemma at8_byte p i : is_bytes p -> is_byte (at8 p i).
Proof.
  intros Hp. unfold at8. destruct (p !! Z.to_nat i) as [x|] eqn:E; [|by unfold is_byte; cbn].
  by apply (proj1 (Forall_lookup _ _) Hp) in E.
Qed.

Lemma at8_sub p i n j : 0 <= i -> 0 <= j < n -> at8 (sub p i n) j = at8 p (i + j).
Proof.
  intros. unfold at8. rewrite lookup_sub, decide_True by lia. do 2 f_equal. lia.
Qed.

Lemma at8_put_ne p i bs j : 0 <= i -> i + zlen bs <= zlen p -> 0 <= j ->
  (j < i \/ i + zlen bs <= j) -> at8 (put p i bs) j = at8 p j.
Proof. intros. unfold at8. rewrite lookup_put, decide_False by lia. done. Qed.

Lemma at8_put_in p i bs j : 0 <= i -> i + zlen bs <= zlen p -> i <= j < i + zlen bs ->
  at8 (put p i bs) j = at8 bs (j - i).
Proof.
  intros. unfold at8. rewrite lookup_put, decide_True by lia. do 2 f_equal. lia.
Qed.

(** A region and a write inside it, or beside it. *)
Lemma sub_put_in p i bs o n : 0 <= o <= i -> i + zlen bs <= o + n -> o + n <= zlen p ->
  sub (put p i bs) o n = put (sub p o n) (i - o) bs.
Proof.
  intros. pose proof (zlen_nonneg bs). apply list_eq. intros k. rewrite lookup_sub, !lookup_put by (rewrite ?zlen_sub; lia).
  rewrite lookup_sub by lia. repeat case_decide; try lia; try done.
  f_equal. lia.
Qed.

Lemma sub_put_ne p i bs o n : 0 <= i -> 0 <= o -> i + zlen bs <= zlen p ->
  (i + zlen bs <= o \/ o + n <= i) -> sub (put p i bs) o n = sub p o n.
Proof.
  intros. apply list_eq. intros k. rewrite !lookup_sub, lookup_put by lia.
  repeat case_decide; try lia; done.
Qed.

Lemma sub_put_same p i bs n : 0 <= i -> i + zlen bs <= zlen p -> n = zlen bs ->
  sub (put p i bs) i n = bs.
Proof.
  intros ? ? ->. apply list_eq. intros k. rewrite !lookup_sub, lookup_put by lia.
  repeat case_decide; try lia.
  - f_equal. lia.
  - symmetry. apply lookup_ge_None_2. unfold zlen in *. lia.
Qed.

Lemma sub_sub p i n j m : 0 <= i -> 0 <= j -> j + m <= n -> sub (sub p i n) j m = sub p (i + j) m.
Proof.
  intros. apply list_eq. intros k. rewrite !lookup_sub by lia.
  repeat case_decide; try lia; try done. f_equal. lia.
Qed.

Lemma sub_app_l p q i n : 0 <= i -> i + n <= zlen p -> sub (p ++ q) i n = sub p i n.
Proof.
  intros. apply list_eq. intros k. rewrite !lookup_sub by lia. case_decide; [|done].
  apply lookup_app_l. unfold zlen in *. lia.
Qed.

Lemma sub_app_r p q i n : zlen p <= i -> sub (p ++ q) i n = sub q (i - zlen p) n.
Proof.
  intros. pose proof (zlen_nonneg p). apply list_eq. intros k. rewrite !lookup_sub by lia. case_decide; [|done].
  rewrite lookup_app_r by (unfold zlen in *; lia). f_equal. unfold zlen in *. lia.
Qed.

Lemma sub_all p n : n = zlen p -> sub p 0 n = p.
Proof. intros ->. unfold sub, zlen. rewrite Nat2Z.id. cbn. by rewrite drop_0, firstn_all. Qed.

Lemma sub_split p i n m : 0 <= i -> 0 <= n -> 0 <= m -> sub p i (n + m) = sub p i n ++ sub p (i + n) m.
Proof.
  intros. unfold sub. rewrite (Z2Nat.inj_add i n), (Z2Nat.inj_add n m) by lia.
  rewrite <- drop_drop, take_take_drop. done.
Qed.

Lemma ld16_val p i : is_bytes p -> 0 <= i -> i + 2 <= zlen p ->
  ld16 p i = 256 * at8 p i + at8 p (i + 1).
Proof.
  intros Hp Hi Hl. unfold ld16.
  assert (sub p i 2 = [at8 p i; at8 p (i + 1)]) as ->.
  { apply list_eq. intros k. rewrite lookup_sub by lia. case_decide.
    - assert (k = 0 \/ k = 1)%nat as [-> | ->] by lia; unfold at8; cbn.
      + destruct (p !! Z.to_nat i) eqn:E; [by rewrite Nat.add_0_r|].
        apply lookup_ge_None in E. unfold zlen in Hl. lia.
      + replace (Z.to_nat (i + 1)) with (Z.to_nat i + 1)%nat by lia.
        destruct (p !! (Z.to_nat i + 1)%nat) eqn:E; [done|].
        apply lookup_ge_None in E. unfold zlen in Hl. lia.
    - symmetry. apply lookup_ge_None_2. cbn. lia. }
  pose proof (at8_byte p i Hp). pose proof (at8_byte p (i + 1) Hp).
  rewrite unbe_cons by (done || by apply Forall_singleton).
  change (zlen [at8 p (i + 1)]) with 1. unfold unbe; cbn [fold_left].
  change (Z.lor (Z.shiftl 0 8) (at8 p (i + 1))) with (Z.lor 0 (at8 p (i + 1))). rewrite Z.lor_0_l. lia.
Qed.

Lemma ld16_range p i : is_bytes p -> 0 <= ld16 p i < 2 ^ 16.
Proof.
  intros Hp. unfold ld16. pose proof (unbe_bound (sub p i 2) (is_bytes_sub _ _ _ Hp)) as H.
  assert (zlen (sub p i 2) <= 2).
  { unfold zlen, sub. rewrite length_take. lia. }
  pose proof (zlen_nonneg (sub p i 2)).
  assert (256 ^ zlen (sub p i 2) <= 256 ^ 2) by (apply Z.pow_le_mono_r; lia).
  change (256 ^ 2) with (2 ^ 16) in *. lia.
Qed.

Lemma sub_ext p q i n : 0 <= i -> 0 <= n -> i + n <= zlen p -> i + n <= zlen q ->
  (forall j, i <= j < i + n -> at8 p j = at8 q j) -> sub p i n = sub q i n.
Proof.
  intros Hi Hn Hp Hq He. apply list_eq. intros k. rewrite !lookup_sub by lia. case_decide as Hk; [|done].
  specialize (He (i + Z.of_nat k) ltac:(lia)). unfold at8, zlen in *.
  replace (Z.to_nat (i + Z.of_nat k)) with (Z.to_nat i + k)%nat in He by lia.
  destruct (lookup_lt_is_Some_2 p (Z.to_nat i + k)) as [a Ea]; [lia|].
  destruct (lookup_lt_is_Some_2 q (Z.to_nat i + k)) as [b Eb]; [lia|].
  rewrite Ea, Eb in *. cbn in He. congruence.
Qed.

(** Writes behind a prefix. *)
Lemma put_app_r a b i bs : 0 <= i -> put (a ++ b) (zlen a + i) bs = a ++ put b i bs.
Proof.
  intros Hi. unfold put, zlen. rewrite Z2Nat.inj_add, Nat2Z.id by lia.
  rewrite take_app_add, <- app_assoc. do 3 f_equal. rewrite <- Nat.add_assoc. apply drop_app_add.
Qed.

Lemma put_0 p bs : put p 0 bs = bs ++ drop (length bs) p.
Proof. done. Qed.

Lemma put_end a b i bs : i = zlen a -> put (a ++ b) i bs = a ++ bs ++ drop (length bs) b.
Proof. intros ->. rewrite <- (Z.add_0_r (zlen a)), put_app_r by done. by rewrite put_0. Qed.

Lemma put_app_l a b i bs : 0 <= i -> i + zlen bs <= zlen a -> put (a ++ b) i bs = put a i bs ++ b.
Proof.
  intros Hi Hl. unfold put, zlen in *. rewrite take_app_le, drop_app_le by lia. by rewrite <- !app_assoc.
Qed.

Lemma at8_app_r a b i : 0 <= i -> at8 (a ++ b) (zlen a + i) = at8 b i.
Proof.
  intros Hi. unfold at8, zlen. rewrite Z2Nat.inj_add, Nat2Z.id, lookup_app_r by lia. do 2 f_equal. lia.
Qed.

Lemma at8_app_l a b i : 0 <= i < zlen a -> at8 (a ++ b) i = at8 a i.
Proof. intros Hi. unfold at8, zlen in *. by rewrite lookup_app_l by lia. Qed.

Lemma at8_drop p n i : 0 <= n -> 0 <= i -> at8 (drop (Z.to_nat n) p) i = at8 p (n + i).
Proof. intros. unfold at8. rewrite lookup_drop. do 2 f_equal. lia. Qed.

Lemma put_drop p n i bs : 0 <= n -> 0 <= i -> n + i + zlen bs <= zlen p ->
  put (drop (Z.to_nat n) p) i bs = drop (Z.to_nat n) (put p (n + i) bs).
Proof.
  intros Hn Hi Hl. pose proof (zlen_nonneg bs). apply list_eq. intros k.
  rewrite lookup_drop, !lookup_put, lookup_drop by (rewrite ?zlen_drop; lia).
  repeat case_decide; try lia; [|done]. f_equal. lia.
Qed.

Lemma sub_drop p n i m : 0 <= n -> 0 <= i -> sub (drop (Z.to_nat n) p) i m = sub p (n + i) m.
Proof. intros. unfold sub. rewrite drop_drop. do 2 f_equal. lia. Qed.

Create HintDb packet.
#[export] Hint Resolve is_bytes_sub is_bytes_put at8_byte is_bytes_be : packet.

(** The side conditions of the lemmas on packets. *)
Ltac pk :=
  solve [ done | lia | auto with packet | rewrite ?zlen_sub, ?zlen_put by lia; lia ].

(** Rounding down to a multiple of 8. *)
Lemma ldiff_7 x : 0 <= x -> Z.ldiff x 7 = x / 8 * 8.
Proof.
  intros Hx. change 7 with (Z.ones 3). rewrite Z.ldiff_ones_r by lia.
  by rewrite Z.shiftr_div_pow2, Z.shiftl_mul_pow2 by lia.
Qed.

(** ** One's complement arithmetic *)

(** Equal as one's complement numbers. *)
Definition eqc (a b : Z) : Prop := a mod 65535 = b mod 65535.

Declare Scope packet_scope.
Infix "≡c" := eqc (at level 70) : packet_scope.
Open Scope packet_scope.

#[export] Instance eqc_equiv : Equivalence eqc.
Proof. unfold eqc. split; [intros ?|intros ? ?|intros ? ? ?]; congruence. Qed.
#[export] Instance eqc_add : Proper (eqc ==> eqc ==> eqc) Z.add.
Proof. unfold eqc. intros a a' Ha b b' Hb. rewrite Z.add_mod, Ha, Hb, <- Z.add_mod; done. Qed.
#[export] Instance eqc_sub : Proper (eqc ==> eqc ==> eqc) Z.sub.
Proof. unfold eqc. intros a a' Ha b b' Hb. rewrite Zminus_mod, Ha, Hb, <- Zminus_mod; done. Qed.
#[export] Instance eqc_mul : Proper (eqc ==> eqc ==> eqc) Z.mul.
Proof. unfold eqc. intros a a' Ha b b' Hb. rewrite Z.mul_mod, Ha, Hb, <- Z.mul_mod; done. Qed.
#[export] Instance eqc_opp : Proper (eqc ==> eqc) Z.opp.
Proof. intros a a' Ha. rewrite <- !Z.sub_0_l. by rewrite Ha. Qed.

Lemma eqc_shift a b k : a = b + 65535 * k -> a ≡c b.
Proof. intros ->. unfold eqc. by rewrite Z.mul_comm, Z.mod_add. Qed.

(** What a sum folds to. *)
Lemma ones_eqc s : 0 <= s -> ones s ≡c s.
Proof.
  intros Hs. unfold ones. destruct (Z.eqb_spec s 0) as [->|]; [done|].
  apply (eqc_shift _ _ (- ((s - 1) / 65535))). pose proof (Z.div_mod (s - 1) 65535). lia.
Qed.

(** A block verifies exactly when it is not all zeros and sums to zero. *)
Lemma checksum_zero b : is_bytes b -> wsum b < 2 ^ 32 ->
  checksum b = 0 <-> 0 < wsum b /\ wsum b ≡c 0.
Proof.
  intros Hb Hs. pose proof (wsum_nonneg b Hb). rewrite checksum_ones by done. unfold ones, eqc.
  destruct (Z.eqb_spec (wsum b) 0); [lia|].
  pose proof (Z.div_mod (wsum b - 1) 65535 ltac:(lia)). pose proof (Z.mod_pos_bound (wsum b - 1) 65535 eq_refl).
  change (0 mod 65535) with 0. split.
  - intros. split; [lia|].
    apply Z.mod_divide; [done|]. exists ((wsum b - 1) / 65535 + 1). lia.
  - intros [_ Hm]. apply Z.mod_divide in Hm as [q Hq]; [|done].
    assert ((wsum b - 1) / 65535 = q - 1 /\ (wsum b - 1) mod 65535 = 65534) as [_ ->].
    { split; [symmetry; apply (Z.div_unique _ _ _ 65534)|symmetry; apply (Z.mod_unique _ _ (q - 1))]; lia. }
    lia.
Qed.

(** The weight of the byte at [i] in the sum of the words. *)
Definition weight (i : Z) : Z := if Z.even i then 256 else 1.

Lemma wsum_insert p n b : (n < length p)%nat ->
  wsum (<[n := b]> p) = wsum p + weight (Z.of_nat n) * (b - default 0 (p !! n)).
Proof.
  revert n. induction p as [|x|x y p IH] using bytes_ind2; intros n Hn; cbn in Hn; [lia|..].
  - assert (n = 0)%nat as -> by lia. change (weight (Z.of_nat 0)) with 256. cbn. lia.
  - destruct n as [|[|n]].
    + change (weight (Z.of_nat 0)) with 256. cbn. lia.
    + change (weight (Z.of_nat 1)) with 1. cbn. lia.
    + change (<[S (S n):=b]> (x :: y :: p)) with (x :: y :: <[n:=b]> p). cbn [wsum].
      change ((x :: y :: p) !! S (S n)) with (p !! n).
      replace (weight (Z.of_nat (S (S n)))) with (weight (Z.of_nat n)).
      2: { unfold weight. replace (Z.of_nat (S (S n))) with (Z.of_nat n + 2 * 1) by lia. by rewrite Z.even_add_mul_2. }
      rewrite (IH n) by lia. lia.
Qed.

Lemma put_one p i b : 0 <= i < zlen p -> put p i [b] = <[Z.to_nat i := b]> p.
Proof.
  intros Hi. unfold zlen in Hi. apply list_eq. intros k. rewrite lookup_put by (unfold zlen; cbn; lia).
  change (zlen [b]) with 1. case_decide.
  - assert (k = Z.to_nat i) as -> by lia. rewrite Nat.sub_diag, list_lookup_insert_eq by lia. done.
  - rewrite list_lookup_insert_ne by lia. done.
Qed.

Lemma put_two p i a b : 0 <= i -> i + 2 <= zlen p -> put p i [a; b] = put (put p i [a]) (i + 1) [b].
Proof.
  intros. apply list_eq. intros k.
  rewrite !lookup_put by (rewrite ?zlen_put; try done; change (zlen [a]) with 1; change (zlen [b]) with 1;
    try change (zlen [a; b]) with 2; lia).
  change (zlen [a; b]) with 2. change (zlen [b]) with 1. change (zlen [a]) with 1.
  repeat case_decide; try lia; try done.
  - assert (Z.of_nat k = i + 1) by lia. replace (k - Z.to_nat i)%nat with 1%nat by lia.
    replace (k - Z.to_nat (i + 1))%nat with 0%nat by lia. done.
  - assert (Z.of_nat k = i) by lia. by replace (k - Z.to_nat i)%nat with 0%nat by lia.
Qed.

Lemma wsum_put8 p i b : 0 <= i < zlen p -> wsum (put p i [b]) = wsum p + weight i * (b - at8 p i).
Proof.
  intros Hi. rewrite put_one by done. rewrite wsum_insert by (unfold zlen in Hi; lia).
  rewrite Z2Nat.id by lia. done.
Qed.

Lemma wsum_put16 p i a b : 0 <= i -> i + 2 <= zlen p ->
  wsum (put p i [a; b]) = wsum p + weight i * (a - at8 p i) + weight (i + 1) * (b - at8 p (i + 1)).
Proof.
  intros. rewrite put_two by done.
  rewrite wsum_put8 by (rewrite zlen_put; change (zlen [a]) with 1; lia).
  rewrite at8_put_ne by (change (zlen [a]) with 1; lia). rewrite wsum_put8 by lia. lia.
Qed.

Lemma weight_succ i : weight (i + 1) = if Z.even i then 1 else 256.
Proof. unfold weight. rewrite Z.even_add. by destruct (Z.even i). Qed.

(** ** The host's words *)

(** Whether the host is little-endian. *)
Class Host := little_endian : bool.

Definition bpf_htons `{Host} (v : Z) : Z :=
  if little_endian then Z.lor (Z.shiftl (Z.land v 0xff) 8) (Z.shiftr v 8) else v.

(** The 16-bit word the host loads from, or stores at, an address. *)
Definition raw16 `{Host} (p : bytes) (i : Z) : Z :=
  if little_endian then Z.lor (Z.shiftl (at8 p (i + 1)) 8) (at8 p i)
  else Z.lor (Z.shiftl (at8 p i) 8) (at8 p (i + 1)).
Definition st16 `{Host} (p : bytes) (i v : Z) : bytes :=
  put p i (if little_endian then [u8 v; u8 (Z.shiftr v 8)] else [u8 (Z.shiftr v 8); u8 v]).

(** What a word of the host weighs on the wire. *)
Definition order `{Host} : Z := if little_endian then 256 else 1.

Section Helpers.
Context `{Host}.

(** ** The helpers *)

(** The [__u32 csum += (__u32)p[i]] loops over [n] words. *)
Fixpoint sum_words (n : nat) (p : bytes) (i acc : Z) : Z :=
  match n with
  | O => acc
  | S n' => sum_words n' p (i + 2) (u32 (acc + raw16 p i))
  end.

Definition checksum_fold32 (csum : Z) : Z :=
  let csum := u32 (Z.land csum 0xffff + Z.shiftr csum 16) in
  let csum := u32 (Z.land csum 0xffff + Z.shiftr csum 16) in
  u16 (Z.lnot csum).

(** [o]: where the IPv4 header starts. *)
Definition ipv4_checksum (p : bytes) (o : Z) : bytes :=
  let p := st16 p (o + 10) 0 in
  st16 p (o + 10) (checksum_fold32 (sum_words 10 p o 0)).

Definition decrease_ipv4_ttl (p : bytes) (o : Z) : bytes :=
  let csum := u32 (raw16 p (o + 10) + bpf_htons 0x0100) in
  let csum := u32 (Z.land csum 0xffff + Z.shiftr csum 16) in
  let p := st16 p (o + 10) (u16 csum) in
  put p (o + 8) [u8 (at8 p (o + 8) - 1)].

(** [i]: where the checksum is; [old] and [replacement] as the host sees them. *)
Definition csum_replace16 (p : bytes) (i old replacement : Z) : bytes :=
  let sum := u32 (u32 (u16 (Z.lnot (raw16 p i)) + u16 (Z.lnot old)) + replacement) in
  st16 p i (checksum_fold32 sum).

Definition ipv4_has_df (p : bytes) (o : Z) : bool := negb (Z.land (ld16 p (o + 6)) 0x4000 =? 0).

(** ** The host's words and the wire's *)

Lemma order_order : order * order ≡c 1.
Proof. unfold order. by destruct little_endian. Qed.

Lemma raw16_val p i : is_bytes p ->
  raw16 p i = if little_endian then 256 * at8 p (i + 1) + at8 p i else 256 * at8 p i + at8 p (i + 1).
Proof.
  intros Hp. pose proof (at8_byte p i Hp). pose proof (at8_byte p (i + 1) Hp). unfold is_byte, raw16 in *.
  destruct little_endian; rewrite lor_shiftl_add by lia; change (2 ^ 8) with 256; lia.
Qed.

Lemma raw16_range p i : is_bytes p -> 0 <= raw16 p i < 2 ^ 16.
Proof.
  intros Hp. rewrite raw16_val by done. pose proof (at8_byte p i Hp). pose proof (at8_byte p (i + 1) Hp).
  unfold is_byte in *. destruct little_endian; lia.
Qed.

Lemma ld16_raw p i : is_bytes p -> 0 <= i -> i + 2 <= zlen p -> ld16 p i ≡c order * raw16 p i.
Proof.
  intros. rewrite ld16_val, raw16_val by done. unfold order. destruct little_endian; [|by rewrite Z.mul_1_l].
  apply (eqc_shift _ _ (- at8 p (i + 1))). lia.
Qed.

Lemma raw16_ld p i : is_bytes p -> 0 <= i -> i + 2 <= zlen p -> raw16 p i ≡c order * ld16 p i.
Proof. intros. rewrite ld16_raw, Z.mul_assoc, order_order by done. by rewrite Z.mul_1_l. Qed.

Lemma split16 v : 0 <= v < 2 ^ 16 -> is_byte (u8 v) /\ is_byte (u8 (Z.shiftr v 8)) /\
  v = 256 * u8 (Z.shiftr v 8) + u8 v.
Proof.
  intros Hv. rewrite Z.shiftr_div_pow2 by lia. change (2 ^ 8) with 256.
  rewrite (Z.mod_small (v / 256)) by (split; [apply Z.div_pos; lia|apply Z.div_lt_upper_bound; lia]).
  pose proof (Z.div_mod v 256 ltac:(lia)). pose proof (Z.mod_pos_bound v 256 eq_refl).
  assert (0 <= v / 256 < 256) by (split; [apply Z.div_pos; lia|apply Z.div_lt_upper_bound; lia]).
  unfold is_byte. lia.
Qed.

Lemma bpf_htons_eqc v : 0 <= v < 2 ^ 16 -> bpf_htons v ≡c order * v.
Proof.
  intros Hv. unfold bpf_htons, order. destruct little_endian; [|by rewrite Z.mul_1_l].
  assert (0 <= Z.shiftr v 8 < 2 ^ 8).
  { rewrite Z.shiftr_div_pow2 by lia. split; [apply Z.div_pos; lia|apply Z.div_lt_upper_bound; lia]. }
  pose proof (split16 v Hv) as (H1 & H2 & E). rewrite (Z.mod_small (Z.shiftr v 8)) in E by done.
  change 0xff with (Z.ones 8). rewrite Z.land_ones, lor_shiftl_add by lia.
  apply (eqc_shift _ _ (- Z.shiftr v 8)). change (2 ^ 8) with 256 in *. lia.
Qed.

Lemma st16_length p i v : 0 <= i -> i + 2 <= zlen p -> zlen (st16 p i v) = zlen p.
Proof. intros. unfold st16. apply zlen_put; [done|]. by destruct little_endian. Qed.

Lemma is_bytes_st16 p i v : is_bytes p -> is_bytes (st16 p i v).
Proof.
  intros. apply is_bytes_put; [done|].
  destruct little_endian; repeat constructor; apply is_byte_u8.
Qed.

#[local] Hint Resolve is_bytes_st16 : packet.

(** The sum of a block one of whose words is replaced: at an odd offset the
    word's bytes weigh the other way round. *)
Lemma wsum_st16 p i v : is_bytes p -> 0 <= i -> i + 2 <= zlen p -> 0 <= v < 2 ^ 16 ->
  wsum (st16 p i v) ≡c wsum p + weight (i + 1) * (order * v - ld16 p i).
Proof.
  intros Hp Hi Hl Hv. pose proof (split16 v Hv) as (_ & _ & E). rewrite ld16_val by done.
  unfold st16, order. destruct little_endian; rewrite wsum_put16, weight_succ by done; unfold weight;
    set (a := u8 (Z.shiftr v 8)) in *; set (b := u8 v) in *; destruct (Z.even i).
  - apply (eqc_shift _ _ (- a)). lia.
  - apply (eqc_shift _ _ (at8 p i - 256 * a - b)). lia.
  - apply (eqc_shift _ _ 0). lia.
  - apply (eqc_shift _ _ (at8 p i - a)). lia.
Qed.

(** [x = bpf_htons(v)] leaves [v] in network order. *)
Lemma st16_htons p i v : 0 <= v < 2 ^ 16 -> st16 p i (bpf_htons v) = put p i (be 2 v).
Proof.
  intros Hv. unfold st16, bpf_htons. change (be 2 v) with [u8 (Z.shiftr v 8); u8 (Z.shiftr v 0)].
  rewrite Z.shiftr_0_r. destruct little_endian; [|done]. apply (f_equal (put p i)).
  change 0xff with (Z.ones 8). rewrite Z.land_ones by lia.
  assert (0 <= Z.shiftr v 8 < 2 ^ 8) as Hh.
  { rewrite Z.shiftr_div_pow2 by lia. split; [apply Z.div_pos; lia|apply Z.div_lt_upper_bound; lia]. }
  rewrite lor_shiftl_add by done. change (2 ^ 8) with 256 in *. pose proof (Z.mod_pos_bound v 256 eq_refl).
  assert ((v mod 256 * 256 + Z.shiftr v 8) mod 256 = Z.shiftr v 8 mod 256) as ->.
  { rewrite Z.add_comm, Z.mod_add by lia. done. }
  rewrite (Z.shiftr_div_pow2 (_ + _)) by lia. change (2 ^ 8) with 256. rewrite Z.div_add_l, (Z.div_small (Z.shiftr v 8)), Z.add_0_r by lia.
  by rewrite Z.mod_mod.
Qed.

Lemma bpf_htons_range v : 0 <= v < 2 ^ 16 -> 0 <= bpf_htons v < 2 ^ 16.
Proof.
  intros Hv. unfold bpf_htons. destruct little_endian; [|done].
  assert (0 <= Z.shiftr v 8 < 2 ^ 8).
  { rewrite Z.shiftr_div_pow2 by lia. split; [apply Z.div_pos; lia|apply Z.div_lt_upper_bound; lia]. }
  change 0xff with (Z.ones 8). rewrite Z.land_ones, lor_shiftl_add by lia.
  pose proof (Z.mod_pos_bound v 256 eq_refl). change (2 ^ 8) with 256 in *. lia.
Qed.

Lemma ld16_st16 p i v : is_bytes p -> 0 <= i -> i + 2 <= zlen p -> 0 <= v < 2 ^ 16 ->
  ld16 (st16 p i v) i ≡c order * v.
Proof.
  intros Hp Hi Hl Hv. rewrite ld16_val by (try apply is_bytes_st16; try done; by rewrite st16_length).
  unfold st16, order. pose proof (split16 v Hv) as (_ & _ & E).
  destruct little_endian; rewrite !at8_put_in by (try done; change (zlen [_; _]) with 2; lia);
    rewrite Z.sub_diag; replace (i + 1 - i) with 1 by lia.
  - change (at8 [u8 v; u8 (Z.shiftr v 8)] 0) with (u8 v).
    change (at8 [u8 v; u8 (Z.shiftr v 8)] 1) with (u8 (Z.shiftr v 8)).
    apply (eqc_shift _ _ (- u8 (Z.shiftr v 8))). lia.
  - change (at8 [u8 (Z.shiftr v 8); u8 v] 0) with (u8 (Z.shiftr v 8)).
    change (at8 [u8 (Z.shiftr v 8); u8 v] 1) with (u8 v). apply (eqc_shift _ _ 0). lia.
Qed.

Lemma at8_st16 p i v j : 0 <= i -> i + 2 <= zlen p -> 0 <= j -> (j < i \/ i + 2 <= j) ->
  at8 (st16 p i v) j = at8 p j.
Proof. intros. unfold st16. destruct little_endian; by rewrite at8_put_ne by (change (zlen [_; _]) with 2; lia). Qed.

(** ** Folding *)

Lemma fold_once s : 0 <= s < 2 ^ 32 ->
  ones (u32 (Z.land s 0xffff + Z.shiftr s 16)) = ones s /\
  0 <= u32 (Z.land s 0xffff + Z.shiftr s 16) < 131071 /\
  (s < 131071 -> 0 <= u32 (Z.land s 0xffff + Z.shiftr s 16) < 65536).
Proof.
  intros Hs. rewrite fold_step by done.
  pose proof (Z.div_mod s 65536 ltac:(lia)). pose proof (Z.mod_pos_bound s 65536 eq_refl).
  assert (0 <= s / 65536 < 65536) by (split; [apply Z.div_pos; lia|apply Z.div_lt_upper_bound; lia]).
  split; [|lia]. destruct (Z_lt_le_dec s 65536) as [Hlt|]; [|by apply ones_step].
  rewrite Z.div_small, Z.mod_small by lia. by rewrite Z.add_0_r.
Qed.

Lemma checksum_fold32_ones s : 0 <= s < 2 ^ 32 -> checksum_fold32 s = 65535 - ones s.
Proof.
  intros Hs. unfold checksum_fold32. pose proof (fold_once s Hs) as (E1 & R1 & _).
  set (t := u32 _) in E1, R1 |- *. pose proof (fold_once t ltac:(lia)) as (E2 & _ & R2).
  set (r := u32 (_ + Z.shiftr t 16)) in E2, R2 |- *. specialize (R2 ltac:(lia)).
  rewrite <- E1, <- E2, ones_small by done. pose proof (Z.add_lnot_diag r).
  replace (Z.lnot r) with (65535 - r + (-1) * 2 ^ 16) by lia.
  rewrite Z.mod_add, Z.mod_small; lia.
Qed.

Lemma checksum_fold32_eqc s : 0 <= s < 2 ^ 32 -> 0 <= checksum_fold32 s < 2 ^ 16 /\ checksum_fold32 s ≡c - s.
Proof.
  intros Hs. rewrite checksum_fold32_ones by done. pose proof (ones_bound s). split; [lia|].
  rewrite ones_eqc by lia. by apply (eqc_shift _ _ 1); lia.
Qed.

(** The incremental update, in terms of what is on the wire. *)
Lemma csum_replace16_eqc p i old new : is_bytes p -> 0 <= i -> i + 2 <= zlen p ->
  0 <= old < 2 ^ 16 -> 0 <= new < 2 ^ 16 ->
  exists v, 0 <= v < 2 ^ 16 /\ csum_replace16 p i old new = st16 p i v /\
    order * v ≡c ld16 p i + order * old - order * new.
Proof.
  intros Hp Hi Hl Ho Hn. unfold csum_replace16. pose proof (raw16_range p i Hp) as Hr.
  assert (forall x, 0 <= x < 2 ^ 16 -> u16 (Z.lnot x) = 65535 - x) as Hlnot.
  { intros x Hx. pose proof (Z.add_lnot_diag x). replace (Z.lnot x) with (65535 - x + (-1) * 2 ^ 16) by lia.
    rewrite Z.mod_add, Z.mod_small; lia. }
  rewrite !Hlnot by done. rewrite (Z.mod_small (65535 - raw16 p i + (65535 - old))), Z.mod_small by lia.
  set (s := _ + new). pose proof (checksum_fold32_eqc s ltac:(lia)) as [Hb Hs].
  exists (checksum_fold32 s). split; [done|split; [done|]].
  rewrite Hs. replace (- s) with (raw16 p i + old - new + 65535 * (-2)) by lia.
  rewrite (eqc_shift (raw16 p i + old - new + 65535 * (-2)) (raw16 p i + old - new) (-2)) by lia.
  rewrite ld16_raw by done. apply (eqc_shift _ _ 0). lia.
Qed.

(** ** The IPv4 header *)

Lemma wsum_two p i : is_bytes p -> 0 <= i -> i + 2 <= zlen p -> wsum (sub p i 2) = ld16 p i.
Proof.
  intros Hp Hi Hl. pose proof (zlen_sub p i 2 Hi ltac:(lia) Hl) as Hz. unfold ld16.
  pose proof (is_bytes_sub p i 2 Hp) as Hs. destruct (sub p i 2) as [|a [|b [|? ?]]]; [done..| |].
  - inversion Hs as [|? ? Ha Hs']; subst. inversion Hs' as [|? ? Hb _]; subst.
    rewrite unbe_cons by done. unfold unbe. cbn [wsum fold_left]. unfold is_byte in *.
    rewrite lor_shiftl_add by lia. change (zlen [b]) with 1. lia.
  - exfalso. rewrite !zlen_cons in Hz. match type of Hz with context [zlen ?l] => pose proof (zlen_nonneg l) end. lia.
Qed.

Lemma sum_words_eqc n p i acc : is_bytes p -> 0 <= i -> i + 2 * Z.of_nat n <= zlen p ->
  0 <= acc -> acc + 65535 * Z.of_nat n < 2 ^ 32 ->
  0 <= sum_words n p i acc < 2 ^ 32 /\
  sum_words n p i acc ≡c acc + order * wsum (sub p i (2 * Z.of_nat n)).
Proof.
  revert i acc. induction n as [|n IH]; intros i acc Hp Hi Hl Ha Hs; cbn [sum_words].
  - change (sub p i (2 * Z.of_nat 0)) with ([] : bytes). cbn [wsum]. split; [lia|].
    by rewrite Z.mul_0_r, Z.add_0_r.
  - pose proof (raw16_range p i Hp). rewrite (Z.mod_small (acc + raw16 p i)) by lia.
    destruct (IH (i + 2) (acc + raw16 p i)) as [Hr He]; [done|lia..|]. split; [done|]. rewrite He.
    replace (2 * Z.of_nat (S n)) with (2 + 2 * Z.of_nat n) by lia.
      rewrite sub_split, wsum_app, wsum_two, raw16_ld by first [pk|by rewrite zlen_sub by lia].
    apply (eqc_shift _ _ 0). lia.
Qed.

Lemma sum_words_bound n p i acc : is_bytes p -> 0 <= acc -> acc + 65535 * Z.of_nat n < 2 ^ 32 ->
  0 <= sum_words n p i acc <= acc + 65535 * Z.of_nat n.
Proof.
  revert i acc. induction n as [|n IH]; intros i acc Hp Ha Hs; cbn [sum_words]; [lia|].
  pose proof (raw16_range p i Hp). rewrite Z.mod_small by lia. specialize (IH (i + 2) (acc + raw16 p i) Hp). lia.
Qed.

Lemma wsum_pos b : is_bytes b -> 0 < at8 b 0 -> 0 < wsum b.
Proof.
  intros Hb Ha. destruct b as [|x [|y b]]; [done|change (at8 [x] 0) with x in Ha; cbn [wsum]; lia|].
  inversion Hb as [|? ? Hx Hb']; subst. inversion Hb' as [|? ? Hy Hb'']; subst.
  pose proof (wsum_nonneg b Hb''). change (at8 (x :: y :: b) 0) with x in Ha. unfold is_byte in *. cbn [wsum]. lia.
Qed.

(** The header at [o] verifies. *)
Definition header_ok (p : bytes) (o : Z) : Prop := checksum (sub p o 20) = 0.

Lemma header_ok_iff p o : is_bytes p -> 0 <= o -> o + 20 <= zlen p -> 0 < at8 p o ->
  header_ok p o <-> wsum (sub p o 20) ≡c 0.
Proof.
  intros Hp Ho Hl H0. unfold header_ok. pose proof (is_bytes_sub p o 20 Hp) as Hs.
  pose proof (wsum_bound _ Hs) as Hb. rewrite zlen_sub in Hb by lia.
  assert (0 < wsum (sub p o 20)) by (apply wsum_pos; [done|]; rewrite at8_sub, Z.add_0_r by lia; done).
  rewrite checksum_zero by (done || lia). tauto.
Qed.

Lemma st16_in p o i n v : 0 <= o -> 0 <= i -> i + 2 <= n -> o + n <= zlen p ->
  sub (st16 p (o + i) v) o n = st16 (sub p o n) i v.
Proof.
  intros. unfold st16. rewrite sub_put_in by (destruct little_endian; change (zlen [_; _]) with 2; lia).
  do 2 f_equal. lia.
Qed.

Lemma raw16_sub p o n i : 0 <= o -> 0 <= i -> i + 2 <= n -> raw16 (sub p o n) i = raw16 p (o + i).
Proof. intros. unfold raw16. rewrite !at8_sub by lia. by rewrite Z.add_assoc. Qed.

Lemma ld16_sub p o n i : 0 <= o -> 0 <= i -> i + 2 <= n -> ld16 (sub p o n) i = ld16 p (o + i).
Proof. intros. unfold ld16. by rewrite sub_sub. Qed.

Lemma zlen_ipv4_checksum p o : 0 <= o -> o + 20 <= zlen p -> zlen (ipv4_checksum p o) = zlen p.
Proof. intros. unfold ipv4_checksum. rewrite !st16_length; [done|try rewrite st16_length; lia..]. Qed.

(** A block whose checksum field, still zero, is filled with the folded sum of
    its words under the words already summed in [acc]. *)
Lemma filled_eqc n b i acc : is_bytes b -> zlen b = 2 * Z.of_nat n -> 0 <= i -> i + 2 <= zlen b ->
  Z.even i = true -> ld16 b i ≡c 0 -> 0 <= acc -> acc + 65535 * Z.of_nat n < 2 ^ 32 ->
  order * acc + wsum (st16 b i (checksum_fold32 (sum_words n b 0 acc))) ≡c 0.
Proof.
  intros Hb Hn Hi Hl He H0 Ha Hs.
  destruct (sum_words_eqc n b 0 acc) as [Hr Hw]; [done|lia..|].
  destruct (checksum_fold32_eqc _ Hr) as [Hv Hf]. rewrite <- Hn, sub_all in Hw by done.
  rewrite wsum_st16, H0, Hf, Hw by done. rewrite weight_succ, He, Z.mul_opp_r, Z.mul_add_distr_l, !Z.mul_assoc, order_order.
  apply (eqc_shift _ _ 0). lia.
Qed.

Lemma sum_words_sub n p i m acc : 0 <= i -> 2 * Z.of_nat n <= m -> i + m <= zlen p ->
  sum_words n p i acc = sum_words n (sub p i m) 0 acc.
Proof.
  intros Hi Hm Hl.
  assert (forall k acc, 0 <= k -> k + 2 * Z.of_nat n <= m -> sum_words n p (i + k) acc = sum_words n (sub p i m) k acc) as Hg.
  { clear acc Hm. induction n as [|n IH]; intros k acc Hk Hm; [done|]. cbn [sum_words].
    rewrite raw16_sub by lia. replace (i + k + 2) with (i + (k + 2)) by lia. apply IH; lia. }
  rewrite <- (Hg 0 acc) by lia. by rewrite Z.add_0_r.
Qed.

Lemma ipv4_checksum_ok p o : is_bytes p -> 0 <= o -> o + 20 <= zlen p -> 0 < at8 p o ->
  header_ok (ipv4_checksum p o) o.
Proof.
  intros Hp Ho Hl H0. set (q := st16 p (o + 10) 0).
  assert (is_bytes q) as Hq by by apply is_bytes_st16.
  assert (zlen q = zlen p) as Hql by (apply st16_length; lia).
  apply header_ok_iff; [by apply is_bytes_st16, is_bytes_st16|done|by rewrite zlen_ipv4_checksum by lia|..];
    unfold ipv4_checksum; fold q.
  { rewrite at8_st16 by lia. unfold q. by rewrite at8_st16 by lia. }
  rewrite (sum_words_sub 10 q o 20), st16_in by lia.
  pose proof (filled_eqc 10 (sub q o 20) 10 0) as Hf. rewrite Z.mul_0_r, Z.add_0_l, zlen_sub in Hf by lia.
  apply Hf; try done; [pk|]. rewrite ld16_sub by lia. unfold q.
  rewrite ld16_st16 by (done || lia). by rewrite Z.mul_0_r.
Qed.

Lemma sub_st16_ne p i v o n : 0 <= i -> i + 2 <= zlen p -> 0 <= o -> (i + 2 <= o \/ o + n <= i) ->
  sub (st16 p i v) o n = sub p o n.
Proof. intros. unfold st16. destruct little_endian; by rewrite sub_put_ne by (change (zlen [_; _]) with 2; lia). Qed.

Lemma is_bytes_ipv4_checksum p o : is_bytes p -> is_bytes (ipv4_checksum p o).
Proof. intros. by apply is_bytes_st16, is_bytes_st16. Qed.

Lemma sub_ipv4_checksum_ne p o i n : 0 <= o -> o + 20 <= zlen p -> 0 <= i -> (i + n <= o + 10 \/ o + 12 <= i) ->
  sub (ipv4_checksum p o) i n = sub p i n.
Proof. intros. unfold ipv4_checksum. by rewrite !sub_st16_ne by (rewrite ?st16_length; lia). Qed.

Lemma zlen_decrease_ipv4_ttl p o : 0 <= o -> o + 20 <= zlen p -> zlen (decrease_ipv4_ttl p o) = zlen p.
Proof.
  intros. unfold decrease_ipv4_ttl. rewrite zlen_put; [by apply st16_length; lia|lia|].
  rewrite st16_length by lia. change (zlen [_]) with 1. lia.
Qed.

(** The TTL of a packet behind other headers. *)
Lemma raw16_app_r a b i : 0 <= i -> raw16 (a ++ b) (zlen a + i) = raw16 b i.
Proof. intros. unfold raw16. rewrite <- Z.add_assoc, !at8_app_r by lia. done. Qed.

Lemma decrease_ipv4_ttl_app a b o : 0 <= o -> decrease_ipv4_ttl (a ++ b) (zlen a + o) = a ++ decrease_ipv4_ttl b o.
Proof.
  intros Ho. unfold decrease_ipv4_ttl, st16. rewrite <- !Z.add_assoc, raw16_app_r, !put_app_r, at8_app_r by lia. done.
Qed.

Lemma decrease_ipv4_ttl_drop p n : 0 <= n -> n + 20 <= zlen p ->
  decrease_ipv4_ttl (drop (Z.to_nat n) p) 0 = drop (Z.to_nat n) (decrease_ipv4_ttl p n).
Proof.
  intros Hn Hl. unfold decrease_ipv4_ttl. rewrite !Z.add_0_l.
  assert (raw16 (drop (Z.to_nat n) p) 10 = raw16 p (n + 10)) as ->.
  { unfold raw16. by rewrite !at8_drop, Z.add_assoc by lia. }
  set (v := u16 _). unfold st16.
  rewrite put_drop by (destruct little_endian; change (zlen [_; _]) with 2; lia). rewrite at8_drop by lia.
  rewrite put_drop; [done|lia..|]. rewrite zlen_put by (destruct little_endian; change (zlen [_; _]) with 2; lia).
  change (zlen [_]) with 1. lia.
Qed.

Lemma decrease_ipv4_ttl_behind a p n o : zlen a = n -> 0 <= o -> o + 20 <= zlen p ->
  decrease_ipv4_ttl (a ++ drop (Z.to_nat o) p) n = a ++ drop (Z.to_nat o) (decrease_ipv4_ttl p o).
Proof.
  intros <- Ho Hl. rewrite <- (Z.add_0_r (zlen a)), decrease_ipv4_ttl_app by done. f_equal.
  by apply decrease_ipv4_ttl_drop.
Qed.

(** The sum is the same after the TTL and the checksum moved together. *)
Lemma decrease_ipv4_ttl_ok p o : is_bytes p -> 0 <= o -> o + 20 <= zlen p -> 0 < at8 p o -> 1 <= at8 p (o + 8) ->
  header_ok p o -> header_ok (decrease_ipv4_ttl p o) o.
Proof.
  intros Hp Ho Hl H0 Ht Hok. apply header_ok_iff in Hok; [|done..].
  pose proof (raw16_range p (o + 10) Hp) as Hr. pose proof (bpf_htons_range 0x0100 ltac:(lia)) as Hh.
  pose proof (at8_byte p (o + 8) Hp) as Hb8. unfold decrease_ipv4_ttl.
  rewrite (Z.mod_small (raw16 p (o + 10) + _)) by lia.
  set (s := raw16 p (o + 10) + bpf_htons 0x0100) in *.
  destruct (fold_once s ltac:(lia)) as (E & _ & R). specialize (R ltac:(lia)).
  set (v := u32 (_ + Z.shiftr s 16)) in E, R |- *.
  assert (v ≡c s) as Hv by (rewrite <- (ones_eqc v), <- (ones_eqc s), E by lia; done).
  rewrite (Z.mod_small v) by lia. set (q := st16 p (o + 10) v).
  assert (zlen q = zlen p) as Hql by (apply st16_length; lia). unfold is_byte in Hb8.
  assert (at8 q (o + 8) = at8 p (o + 8)) as Hq8 by (unfold q; by rewrite at8_st16 by lia).
  rewrite Hq8, (Z.mod_small (at8 p (o + 8) - 1)) by lia.
  assert (is_bytes q) by by apply is_bytes_st16.
  assert (is_bytes [at8 p (o + 8) - 1]) by (apply Forall_singleton; unfold is_byte; lia).
  apply header_ok_iff; [pk|done|rewrite zlen_put; change (zlen [_]) with 1; lia|..].
  { rewrite at8_put_ne by (change (zlen [_]) with 1; lia). unfold q. by rewrite at8_st16 by lia. }
  rewrite sub_put_in by (change (zlen [_]) with 1; lia). replace (o + 8 - o) with 8 by lia.
  rewrite wsum_put8 by (rewrite zlen_sub by lia; lia). rewrite at8_sub, Hq8 by lia.
  unfold q. rewrite st16_in, wsum_st16, ld16_sub by pk. rewrite Hok, Hv. unfold s.
  rewrite Z.mul_add_distr_l, (bpf_htons_eqc 0x0100), Z.mul_assoc, order_order, (ld16_raw p (o + 10)) by first [done|lia].
  change (weight (10 + 1)) with 1. change (weight 8) with 256. apply (eqc_shift _ _ 0). lia.
Qed.

End Helpers.

#[export] Hint Resolve is_bytes_st16 is_bytes_ipv4_checksum : packet.
