(* ===== verification/Dhcpv4Message.v ===== *)
(** The DHCPv4 wire format: src/pkg/dhcpv4/message.go and options.go.  The
    encoder and the decoder, every bounds check of the decoder explicit; the
    decoder never panics, whatever the bytes, and reads back what the encoder
    writes. *)

From S2P Require Import Prelude Wire Netip.

Local Open Scope Z_scope.

(** ** Constants (message.go, options.go) *)

Definition OpBootRequest : Z := 1.
Definition OpBootReply : Z := 2.
Definition hardwareTypeEthernet : Z := 1.
Definition bootpFixedLen : Z := 236.
Definition magicCookie : bytes := [0x63; 0x82; 0x53; 0x63].
Definition minMessageLen : Z := 300.
Definition flagBroadcast : Z := 0x8000.

Definition OptPad : Z := 0.
Definition OptSubnetMask : Z := 1.
Definition OptRouter : Z := 3.
Definition OptDNSServers : Z := 6.
Definition OptInterfaceMTU : Z := 26.
Definition OptBroadcastAddr : Z := 28.
Definition OptRequestedIP : Z := 50.
Definition OptLeaseTime : Z := 51.
Definition OptMessageType : Z := 53.
Definition OptServerID : Z := 54.
Definition OptRenewalTime : Z := 58.
Definition OptRebindingTime : Z := 59.
Definition OptClientID : Z := 61.
Definition OptEnd : Z := 255.

Definition Discover : Z := 1.
Definition Offer : Z := 2.
Definition Request : Z := 3.
Definition Decline : Z := 4.
Definition ACK : Z := 5.
Definition NAK : Z := 6.
Definition Release : Z := 7.
Definition Inform : Z := 8.

(** ** Options (options.go) *)

Record Option_ : Type := mkOption { Code : Z; Data : bytes }.

#[export] Instance Option_eq_dec : EqDecision Option_.
Proof. solve_decision. Defined.

Abbreviation Options := (list Option_).

(** The first option with the given code. *)
Fixpoint Get (o : Options) (code : Z) : option Option_ :=
  match o with
  | [] => None
  | opt :: o' => if Code opt =? code then Some opt else Get o' code
  end.

(** One option: its value in pieces of at most 255 bytes, one piece at least.
    The loop runs once and then while data is left; each round drops 255 bytes,
    so [S (length data)] rounds are enough. *)
Fixpoint marshalOption_loop (fuel : nat) (code : Z) (data : bytes) : bytes :=
  match fuel with
  | O => []
  | S fuel' =>
    let n := Z.min (zlen data) 255 in
    let rest := drop (Z.to_nat n) data in
    u8 code :: u8 n :: take (Z.to_nat n) data
      ++ (if 0 <? zlen rest then marshalOption_loop fuel' code rest else [])
  end.

Definition Options_Marshal (o : Options) : bytes :=
  flat_map (fun opt => marshalOption_loop (S (length (Data opt))) (Code opt) (Data opt)) o.

(** The loop of parseOptions over the index [i]; every iteration moves [i]
    forward, so [S (length b)] of them are enough (running out would show as a
    panic, and [parseOptions_no_panic] excludes it). *)
Fixpoint parseOptions_loop (fuel : nat) (b : bytes) (i : Z) (opts : Options)
  : outcome Options :=
  match fuel with
  | O => Panic
  | S fuel' =>
    if i <? zlen b then
      code ← idx b i;
      if code =? OptPad then parseOptions_loop fuel' b (i + 1) opts
      else if code =? OptEnd then Ret opts
      else if zlen b <=? i + 1 then Fail "dhcpv4: truncated option header"
      else
        optLen ← idx b (i + 1);
        if zlen b <? i + 2 + optLen then Fail "dhcpv4: option length exceeds remaining bytes"
        else
          data ← slice b (i + 2) (i + 2 + optLen);
          parseOptions_loop fuel' b (i + (2 + optLen)) (opts ++ [mkOption code data])
    else Ret opts
  end.

Definition parseOptions (b : bytes) : outcome Options :=
  parseOptions_loop (S (length b)) b 0 [].

Definition NewMessageType (t : Z) : Option_ := mkOption OptMessageType [u8 t].

Definition NewAddr (code : Z) (a : Addr) : outcome Option_ :=
  v ← As4 a; Ret (mkOption code v).

Fixpoint NewAddrs_data (addrs : list Addr) : outcome bytes :=
  match addrs with
  | [] => Ret []
  | a :: rest => v ← As4 a; d ← NewAddrs_data rest; Ret (v ++ d)
  end.

Definition NewAddrs (code : Z) (addrs : list Addr) : outcome Option_ :=
  data ← NewAddrs_data addrs; Ret (mkOption code data).

Definition Second : Z := 1000000000.

(** Whole seconds, saturating at 32 bits; Go's division truncates. *)
Definition NewSeconds (code : Z) (d : Z) : Option_ :=
  let secs := Z.min (Z.max (Z.quot d Second) 0) 0xffffffff in
  mkOption code (be 4 (u32 secs)).

Definition NewMTU (mtu : Z) : Option_ := mkOption OptInterfaceMTU (be 2 mtu).

Definition Options_MessageType (o : Options) : option Z :=
  match Get o OptMessageType with
  | Some opt => match Data opt with [t] => Some t | _ => None end
  | None => None
  end.

Definition Options_addr (o : Options) (code : Z) : option Addr :=
  match Get o code with
  | Some opt => if zlen (Data opt) =? 4 then Some (AddrFrom4 (Data opt)) else None
  | None => None
  end.

Definition Options_RequestedIP (o : Options) : option Addr := Options_addr o OptRequestedIP.
Definition Options_ServerID (o : Options) : option Addr := Options_addr o OptServerID.

Definition Options_ClientID (o : Options) (fallback : bytes) : bytes :=
  match Get o OptClientID with
  | Some opt => if 0 <? zlen (Data opt) then Data opt else fallback
  | None => fallback
  end.

(** ** Messages (message.go) *)

Record Message : Type := mkMessage {
  Op : Z; HType : Z; HLen : Z; Hops : Z;
  XID : Z; Secs : Z; Flags : Z;
  CIAddr : Addr; YIAddr : Addr; SIAddr : Addr; GIAddr : Addr;
  CHAddr : bytes; SName : bytes; File : bytes;
  Opts : Options }.

#[export] Instance Message_eq_dec : EqDecision Message.
Proof. solve_decision. Defined.

Definition Broadcast (m : Message) : bool := negb (Z.land (Flags m) flagBroadcast =? 0).

(** putAddr4 into a zeroed field: the address, or 0.0.0.0 when it is not
    IPv4. *)
Definition putAddr4 (a : Addr) : bytes :=
  match a with A4 v => be 4 v | _ => zeros 4 end.

Definition getAddr4 (b : bytes) : outcome Addr := AddrFrom4 <$> slice b 0 4.

Fixpoint cstr (b : bytes) : bytes :=
  match b with
  | [] => []
  | c :: b' => if c =? 0 then [] else c :: cstr b'
  end.

(** Zero padding up to minMessageLen. *)
Definition pad_to (n : Z) (b : bytes) : bytes := b ++ zeros (n - zlen b).

Definition Message_Marshal (m : Message) : bytes :=
  pad_to minMessageLen
    ([Op m; HType m; HLen m; Hops m]           (* b[0:4] *)
     ++ be 4 (XID m) ++ be 2 (Secs m) ++ be 2 (Flags m)  (* b[4:12] *)
     ++ putAddr4 (CIAddr m) ++ putAddr4 (YIAddr m)
     ++ putAddr4 (SIAddr m) ++ putAddr4 (GIAddr m)       (* b[12:28] *)
     ++ field 16 (CHAddr m)                    (* b[28:44] *)
     ++ field 64 (SName m)                     (* b[44:108] *)
     ++ field 128 (File m)                     (* b[108:236] *)
     ++ magicCookie ++ Options_Marshal (Opts m) ++ [OptEnd]).

Definition Parse (b : bytes) : outcome Message :=
  if zlen b <? bootpFixedLen + zlen magicCookie then Fail "dhcpv4: message too short"
  else
    cookie ← slice b bootpFixedLen (bootpFixedLen + 4);
    if negb (bool_decide (cookie = magicCookie)) then Fail "dhcpv4: bad magic cookie"
    else
      op ← idx b 0; htype ← idx b 1; hlenb ← idx b 2; hops ← idx b 3;
      xid ← from b 4 ≫= get 4; secs ← from b 8 ≫= get 2; flags ← from b 10 ≫= get 2;
      ci ← from b 12 ≫= getAddr4; yi ← from b 16 ≫= getAddr4;
      si ← from b 20 ≫= getAddr4; gi ← from b 24 ≫= getAddr4;
      sname ← slice b 44 108; file ← slice b 108 236;
      let hlen := Z.min hlenb 16 in
      chaddr ← slice b 28 (28 + hlen);
      optb ← from b (bootpFixedLen + 4);
      match parseOptions optb with
      | Ret opts =>
        Ret (mkMessage op htype hlenb hops xid secs flags ci yi si gi
               chaddr (cstr sname) (cstr file) opts)
      | Fail e => Fail ("dhcpv4: parsing options: " +:+ e)
      | Panic => Panic
      end.

(** ** The option field *)

(** The pieces a value is sent in: 255 bytes each but the last, one at least
    (RFC 3396 clients concatenate them). *)
Fixpoint pieces_loop (fuel : nat) (code : Z) (data : bytes) : Options :=
  match fuel with
  | O => []
  | S fuel' =>
    mkOption code (take 255 data)
      :: (if 255 <? zlen data then pieces_loop fuel' code (drop 255 data) else [])
  end.

Definition pieces (opt : Option_) : Options :=
  pieces_loop (S (length (Data opt))) (Code opt) (Data opt).

(** What a receiver that concatenates the instances of a code sees. *)
Definition joined (o : Options) (code : Z) : bytes :=
  flat_map (fun opt => if Code opt =? code then Data opt else []) o.

(** An option as one code/length/data triple. *)
Definition emit (opt : Option_) : bytes := Code opt :: zlen (Data opt) :: Data opt.

Definition opt_wf (opt : Option_) : Prop :=
  0 < Code opt < 255 /\ is_bytes (Data opt).

#[export] Instance opt_wf_dec opt : Decision (opt_wf opt).
Proof. unfold opt_wf. apply _. Defined.

Lemma marshalOption_pieces fuel code data :
  is_byte code -> marshalOption_loop fuel code data = flat_map emit (pieces_loop fuel code data).
Proof.
  intros Hc. revert data. induction fuel as [|fuel IH]; intros data; [done|].
  cbn [marshalOption_loop pieces_loop flat_map]. pose proof (zlen_nonneg data).
  rewrite Z.mod_small by (unfold is_byte in Hc; lia).
  rewrite Z.mod_small by lia. unfold emit at 1. cbn [Code Data].
  rewrite zlen_take, (Z.min_comm _ (zlen data)). cbn [app]. do 2 f_equal.
  destruct (Z.ltb_spec 255 (zlen data)).
  - rewrite Z.min_r by lia. change (Z.to_nat (Z.of_nat 255)) with 255%nat.
    rewrite zlen_drop. replace (0 <? _) with true by (symmetry; apply Z.ltb_lt; lia).
    by rewrite IH.
  - rewrite Z.min_l by lia. rewrite zlen_drop.
    replace (0 <? _) with false by (symmetry; apply Z.ltb_ge; unfold zlen in *; lia).
    cbn [flat_map]. f_equal. rewrite !take_ge by (unfold zlen in *; lia). done.
Qed.

Lemma Options_Marshal_emit o : Forall opt_wf o ->
  Options_Marshal o = flat_map emit (flat_map pieces o).
Proof.
  induction 1 as [|opt o [Hc Hd] Ho IH]; [done|].
  unfold Options_Marshal in *. cbn [flat_map]. rewrite IH, flat_map_app. f_equal.
  apply marshalOption_pieces. unfold is_byte. lia.
Qed.

Lemma pieces_loop_data fuel code data : (length data < fuel)%nat ->
  flat_map Data (pieces_loop fuel code data) = data.
Proof.
  revert data. induction fuel as [|fuel IH]; intros data Hf; [lia|].
  cbn [pieces_loop flat_map Data]. destruct (Z.ltb_spec 255 (zlen data)) as [H|H].
  - rewrite IH by (rewrite length_drop; unfold zlen in H; lia). apply take_drop.
  - cbn. rewrite app_nil_r. apply take_ge. unfold zlen in H. lia.
Qed.

Lemma pieces_loop_Forall fuel code data : is_bytes data ->
  Forall (fun q => Code q = code /\ zlen (Data q) <= 255 /\ is_bytes (Data q))
    (pieces_loop fuel code data).
Proof.
  revert data. induction fuel as [|fuel IH]; intros data Hd; cbn [pieces_loop]; constructor.
  - cbn. split; [done|]. rewrite zlen_take. auto using is_bytes_take with lia.
  - destruct (255 <? zlen data); auto using is_bytes_drop.
Qed.

(** A value of at most 255 bytes goes out as it is. *)
Lemma pieces_short opt : zlen (Data opt) <= 255 -> pieces opt = [opt].
Proof.
  intros H. destruct opt as [code data]. unfold pieces. cbn [pieces_loop Code Data] in *.
  replace (255 <? zlen data) with false by (symmetry; apply Z.ltb_ge; lia).
  rewrite take_ge; [done|]. unfold zlen in H. lia.
Qed.

Lemma joined_app o o' code : joined (o ++ o') code = joined o code ++ joined o' code.
Proof. apply flat_map_app. Qed.

Lemma joined_pieces o code : Forall opt_wf o ->
  joined (flat_map pieces o) code = joined o code.
Proof.
  induction 1 as [|opt o [Hc Hd] Ho IH]; [done|].
  cbn [flat_map]. rewrite joined_app, IH. unfold joined at 3. cbn [flat_map]. f_equal.
  pose proof (pieces_loop_Forall (S (length (Data opt))) (Code opt) (Data opt) Hd) as HF.
  rewrite <- (pieces_loop_data (S (length (Data opt))) (Code opt) (Data opt)) at 1 by lia.
  unfold joined, pieces. revert HF.
  generalize (pieces_loop (S (length (Data opt))) (Code opt) (Data opt)) as ps.
  induction 1 as [|q ps (Hq & _) HF IHp]; cbn [flat_map]; [by destruct (_ =? _)|].
  rewrite IHp, Hq. by destruct (Code opt =? code).
Qed.

(** ** The option decoder *)

Lemma parseOptions_loop_no_panic fuel b i acc :
  is_bytes b -> 0 <= i <= zlen b -> zlen b - i < Z.of_nat fuel ->
  no_panic (parseOptions_loop fuel b i acc) = true.
Proof.
  intros Hb. revert i acc. induction fuel as [|fuel IH]; intros i acc Hi Hf;
    cbn [parseOptions_loop]; destruct (Z.ltb_spec i (zlen b)) as [Hlt|Hge]; try done; try lia.
  rewrite (idx_ok b i), bind_ret by lia.
  destruct (_ =? OptPad); [apply IH; lia|]. destruct (_ =? OptEnd); [done|].
  destruct (Z.leb_spec (zlen b) (i + 1)); [done|].
  destruct (idx b (i + 1)) as [optLen| |] eqn:E; [|by rewrite idx_ok in E by lia..].
  rewrite bind_ret. pose proof (is_bytes_idx _ _ _ Hb E) as Hlen. unfold is_byte in Hlen.
  destruct (Z.ltb_spec (zlen b) (i + 2 + optLen)); [done|].
  rewrite slice_ok, bind_ret by lia. apply IH; lia.
Qed.

(** A code/length/data triple at the read position. *)
Lemma parse_emit fuel p opt s acc :
  opt_wf opt -> zlen (Data opt) <= 255 ->
  parseOptions_loop (S fuel) (p ++ emit opt ++ s) (zlen p) acc
  = parseOptions_loop fuel ((p ++ emit opt) ++ s) (zlen (p ++ emit opt)) (acc ++ [opt]).
Proof.
  intros [Hc Hd] Hl. destruct opt as [code data]. cbn [Code Data] in *.
  assert (zlen (emit (mkOption code data)) = 2 + zlen data) as He
    by (unfold emit; cbn [Code Data]; zlen_lia).
  pose proof (zlen_nonneg p). pose proof (zlen_nonneg s). pose proof (zlen_nonneg data).
  set (b := p ++ emit (mkOption code data) ++ s).
  assert (zlen b = zlen p + 2 + zlen data + zlen s) as Hb by (unfold b; rewrite !zlen_app, He; lia).
  cbn [parseOptions_loop].
  replace (zlen p <? zlen b) with true by (symmetry; apply Z.ltb_lt; lia).
  assert (idx b (zlen p) = Ret code) as -> by (unfold b, emit; cbn [Code Data app]; by apply idx_app_exact).
  rewrite bind_ret.
  replace (code =? OptPad) with false by (symmetry; apply Z.eqb_neq; unfold OptPad; lia).
  replace (code =? OptEnd) with false by (symmetry; apply Z.eqb_neq; unfold OptEnd; lia).
  replace (zlen b <=? zlen p + 1) with false by (symmetry; apply Z.leb_gt; lia).
  assert (idx b (zlen p + 1) = Ret (zlen data)) as ->.
  { unfold b, emit; cbn [Code Data app]. rewrite idx_app_r by lia.
    replace (zlen p + 1 - zlen p) with 1 by lia. rewrite idx_cons_S by lia. apply idx_cons_0. }
  rewrite bind_ret.
  replace (zlen b <? zlen p + 2 + zlen data) with false by (symmetry; apply Z.ltb_ge; lia).
  assert (slice b (zlen p + 2) (zlen p + 2 + zlen data) = Ret data) as ->.
  { unfold b, emit; cbn [Code Data app]. change (code :: zlen data :: data ++ s) with ([code; zlen data] ++ data ++ s).
    rewrite app_assoc. apply slice_app_exact; [|lia]. rewrite zlen_app. done. }
  rewrite bind_ret. unfold b. rewrite app_assoc, (zlen_app p), He. f_equal.
Qed.

Lemma parse_emits fuel p o s acc :
  Forall (fun q => opt_wf q /\ zlen (Data q) <= 255) o ->
  parseOptions_loop (length o + fuel) (p ++ flat_map emit o ++ s) (zlen p) acc
  = parseOptions_loop fuel ((p ++ flat_map emit o) ++ s) (zlen (p ++ flat_map emit o)) (acc ++ o).
Proof.
  intros Ho. revert p acc. induction Ho as [|opt o [Hq Hl] Ho IH]; intros p acc.
  - cbn. by rewrite !app_nil_r.
  - cbn [length Nat.add flat_map]. rewrite <- app_assoc, parse_emit by done.
    rewrite IH. by rewrite <- !app_assoc.
Qed.

Lemma parse_end fuel p s acc :
  parseOptions_loop (S fuel) (p ++ OptEnd :: s) (zlen p) acc = Ret acc.
Proof.
  cbn [parseOptions_loop]. replace (zlen p <? _) with true by (symmetry; apply Z.ltb_lt; zlen_lia).
  rewrite (idx_app_exact p OptEnd s (zlen p)) by done. reflexivity.
Qed.

Lemma length_emits o : (2 * length o <= length (flat_map emit o))%nat.
Proof.
  induction o as [|opt o IH]; cbn [flat_map length]; [lia|].
  rewrite length_app. assert (2 <= length (emit opt))%nat by (cbn; lia). lia.
Qed.

(** What the decoder makes of an encoded option list: its pieces, whatever
    follows the END option. *)
Lemma parse_marshal_options o s : Forall opt_wf o ->
  parseOptions (Options_Marshal o ++ OptEnd :: s) = Ret (flat_map pieces o).
Proof.
  intros Ho. unfold parseOptions. rewrite Options_Marshal_emit by done.
  set (ps := flat_map pieces o). pose proof (length_emits ps) as Hl.
  assert (Forall (fun q => opt_wf q /\ zlen (Data q) <= 255) ps) as Hps.
  { unfold ps. clear Hl ps. induction Ho as [|opt o [Hc Hd] Ho IH]; cbn [flat_map]; [constructor|].
    apply Forall_app. split; [|done]. eapply Forall_impl; [by apply pieces_loop_Forall|].
    cbn. intros q (Hq & ? & ?). unfold opt_wf. by rewrite Hq. }
  assert (exists k, S (length (flat_map emit ps ++ OptEnd :: s)) = (length ps + S k)%nat) as [k ->].
  { exists (length (flat_map emit ps ++ OptEnd :: s) - length ps)%nat.
    rewrite length_app. cbn [length]. lia. }
  pose proof (parse_emits (S k) [] ps (OptEnd :: s) [] Hps) as E. cbn [app] in E.
  change (zlen []) with 0 in E. rewrite E. by rewrite parse_end.
Qed.

Lemma parseOptions_total b : is_bytes b -> no_panic (parseOptions b) = true.
Proof.
  intros Hb. apply parseOptions_loop_no_panic; unfold zlen; [done|lia..].
Qed.

(** ** Whole messages *)

(** The ranges of the struct's field types, and options the wire can carry. *)
Record message_wf (m : Message) : Prop := {
  wf_op : is_byte (Op m); wf_htype : is_byte (HType m);
  wf_hlen : is_byte (HLen m); wf_hops : is_byte (Hops m);
  wf_xid : 0 <= XID m < 2 ^ 32; wf_secs : 0 <= Secs m < 2 ^ 16;
  wf_flags : 0 <= Flags m < 2 ^ 16;
  wf_addrs : Forall addr_wf [CIAddr m; YIAddr m; SIAddr m; GIAddr m];
  wf_chaddr : is_bytes (CHAddr m); wf_sname : is_bytes (SName m); wf_file : is_bytes (File m);
  wf_opts : Forall opt_wf (Opts m) }.

(** The address a 4-byte field carries: 0.0.0.0 for what is not IPv4. *)
Definition wire_addr (a : Addr) : Addr := match a with A4 v => A4 v | _ => A4 0 end.

(** What a receiver reads of a message. *)
Definition received (m : Message) : Message :=
  mkMessage (Op m) (HType m) (HLen m) (Hops m) (XID m) (Secs m) (Flags m)
    (wire_addr (CIAddr m)) (wire_addr (YIAddr m)) (wire_addr (SIAddr m)) (wire_addr (GIAddr m))
    (take (Z.to_nat (Z.min (HLen m) 16)) (field 16 (CHAddr m)))
    (cstr (field 64 (SName m))) (cstr (field 128 (File m)))
    (flat_map pieces (Opts m)).

Lemma zlen_putAddr4 a : zlen (putAddr4 a) = 4.
Proof. destruct a; [done|apply zlen_be|done]. Qed.
#[local] Hint Rewrite zlen_putAddr4 : zlen.

Lemma getAddr4_put a s : addr_wf a -> getAddr4 (putAddr4 a ++ s) = Ret (wire_addr a).
Proof.
  intros Ha. unfold getAddr4. rewrite slice_app_l by (rewrite zlen_putAddr4; lia).
  rewrite slice_full by (by rewrite zlen_putAddr4).
  destruct a as [|v|v z]; cbn [fmap outcome_fmap putAddr4 wire_addr]; [done| |done].
  f_equal. by apply AddrFrom4_be.
Qed.

Lemma zlen_Marshal m : minMessageLen <= zlen (Message_Marshal m).
Proof. unfold Message_Marshal, pad_to. rewrite zlen_app, zlen_zeros. lia. Qed.

(** Reading one field of the encoded header. *)
Ltac header_field :=
  lazymatch goal with
  | |- (from _ _ ≫= _) = _ =>
    repeat read_step; rewrite bind_ret;
    first [ apply get_be; cbn; lia | apply getAddr4_put; done ]
  | |- _ => repeat read_step; reflexivity
  end.

Lemma Parse_Marshal_received m : message_wf m ->
  Parse (Message_Marshal m) = Ret (received m).
Proof.
  intros [Hop Hht Hhl Hho Hxid Hsecs Hfl Had Hch Hsn Hfi Hop'].
  repeat (apply Forall_cons in Had as [? Had]).
  pose proof (zlen_Marshal m) as Hlen. unfold Parse.
  replace (zlen (Message_Marshal m) <? _) with false
    by (symmetry; apply Z.ltb_ge; change (bootpFixedLen + zlen magicCookie) with 240;
        unfold minMessageLen in Hlen; lia).
  revert Hlen. unfold Message_Marshal, pad_to. rewrite <- !app_assoc. cbn [app].
  unfold bootpFixedLen, magicCookie. set (rest := Options_Marshal (Opts m) ++ _).
  assert (parseOptions rest = Ret (flat_map pieces (Opts m))) as Hrest
    by (by apply parse_marshal_options).
  clearbody rest. set (b := Op m :: _). intros _.
  assert (slice b 236 (236 + 4) = Ret magicCookie) as -> by (subst b; header_field).
  assert (idx b 0 = Ret (Op m)) as -> by (subst b; header_field).
  assert (idx b 1 = Ret (HType m)) as -> by (subst b; header_field).
  assert (idx b 2 = Ret (HLen m)) as -> by (subst b; header_field).
  assert (idx b 3 = Ret (Hops m)) as -> by (subst b; header_field).
  assert ((from b 4 ≫= get 4) = Ret (XID m)) as -> by (subst b; header_field).
  assert ((from b 8 ≫= get 2) = Ret (Secs m)) as -> by (subst b; header_field).
  assert ((from b 10 ≫= get 2) = Ret (Flags m)) as -> by (subst b; header_field).
  assert ((from b 12 ≫= getAddr4) = Ret (wire_addr (CIAddr m))) as -> by (subst b; header_field).
  assert ((from b 16 ≫= getAddr4) = Ret (wire_addr (YIAddr m))) as -> by (subst b; header_field).
  assert ((from b 20 ≫= getAddr4) = Ret (wire_addr (SIAddr m))) as -> by (subst b; header_field).
  assert ((from b 24 ≫= getAddr4) = Ret (wire_addr (GIAddr m))) as -> by (subst b; header_field).
  assert (slice b 44 108 = Ret (field 64 (SName m))) as -> by (subst b; header_field).
  assert (slice b 108 236 = Ret (field 128 (File m))) as -> by (subst b; header_field).
  assert (from b (236 + 4) = Ret rest) as -> by (subst b; header_field).
  rewrite !bind_ret. rewrite bool_decide_eq_true_2 by done. cbn [negb].
  unfold is_byte in Hhl.
  assert (slice b 28 (28 + Z.min (HLen m) 16)
          = Ret (take (Z.to_nat (Z.min (HLen m) 16)) (field 16 (CHAddr m)))) as ->.
  { subst b. repeat read_step. apply slice_take; zlen_lia. }
  rewrite !bind_ret, Hrest. reflexivity.
Qed.

(** ** The decoder on arbitrary bytes *)

(** Cases of a chain of checked reads: each read is in range. *)
Lemma get_inv n b v : is_bytes b -> get n b = Ret v -> 0 <= v < 256 ^ Z.of_nat n.
Proof.
  unfold get. intros Hb H. destruct (slice b 0 (Z.of_nat n)) as [c| |] eqn:E; try done.
  injection H as <-. pose proof (is_bytes_slice _ _ _ _ Hb E) as Hc.
  apply slice_inv in E as (_ & _ & Hl). pose proof (unbe_bound c Hc). by rewrite Hl, Z.sub_0_r in *.
Qed.

Lemma from_get_ok b i n : 0 <= i -> i + Z.of_nat n <= zlen b ->
  exists v, (from b i ≫= get n) = Ret v.
Proof.
  intros Hi Hn. rewrite from_ok, bind_ret by lia. unfold get.
  rewrite slice_ok by (rewrite ?zlen_drop; lia). eauto.
Qed.

Lemma from_get_bound b i n v : is_bytes b -> (from b i ≫= get n) = Ret v ->
  0 <= v < 256 ^ Z.of_nat n.
Proof.
  intros Hb H. bind_inv H. apply from_inv in E as (_ & -> & _).
  eapply get_inv; [by apply is_bytes_drop|done].
Qed.

Lemma from_addr_ok b i : 0 <= i -> i + 4 <= zlen b ->
  exists v, (from b i ≫= getAddr4) = Ret v.
Proof.
  intros Hi Hn. rewrite from_ok, bind_ret by lia. unfold getAddr4.
  rewrite slice_ok by (rewrite ?zlen_drop; lia). cbn. eauto.
Qed.

Lemma from_addr_wf b i a : is_bytes b -> (from b i ≫= getAddr4) = Ret a ->
  addr_wf a /\ Is4 a = true.
Proof.
  intros Hb H. bind_inv H. apply from_inv in E as (_ & -> & _). unfold getAddr4 in H.
  destruct (slice _ 0 4) as [c| |] eqn:E; [|done..]. injection H as <-.
  pose proof (is_bytes_slice _ _ _ _ (is_bytes_drop _ _ Hb) E).
  apply slice_inv in E as (_ & _ & Hl). split; [by apply AddrFrom4_wf|done].
Qed.

Lemma is_bytes_cstr b : is_bytes b -> is_bytes (cstr b).
Proof. induction 1 as [|c b Hc Hb IH]; cbn; [constructor|]. destruct (c =? 0); constructor; done. Qed.

Lemma parseOptions_loop_wf fuel b i acc o : is_bytes b -> Forall opt_wf acc ->
  parseOptions_loop fuel b i acc = Ret o -> Forall opt_wf o.
Proof.
  intros Hb. revert i acc. induction fuel as [|fuel IH]; intros i acc Hacc; cbn [parseOptions_loop]; [done|].
  destruct (i <? zlen b); [|by intros [= <-]]. intros H. bind_inv H. rename a into code.
  destruct (Z.eqb_spec code OptPad); [by eauto|].
  destruct (Z.eqb_spec code OptEnd); [by injection H as <-|].
  destruct (_ <=? _); [done|]. bind_inv H. destruct (_ <? _); [done|]. bind_inv H.
  eapply IH; [|done]. apply Forall_app. split; [done|]. constructor; [|done].
  pose proof (is_bytes_idx _ _ _ Hb E) as Hcode. unfold is_byte, OptPad, OptEnd in *.
  split; cbn [Code Data]; [lia|]. by eapply is_bytes_slice.
Qed.

Lemma parseOptions_wf b o : is_bytes b -> parseOptions b = Ret o -> Forall opt_wf o.
Proof. intros Hb. apply parseOptions_loop_wf; [done|constructor]. Qed.

(** Reads at a constant offset of a long enough slice. *)
Ltac read_ok :=
  lazymatch goal with
  | |- no_panic (idx ?b ?i ≫= _) = true => rewrite (idx_ok b i), bind_ret by lia
  | |- no_panic ((from ?b ?i ≫= get ?n) ≫= _) = true =>
    let v := fresh "v" in let E := fresh in
    destruct (from_get_ok b i n) as [v E]; [lia..|]; rewrite E, bind_ret; clear E
  | |- no_panic ((from ?b ?i ≫= getAddr4) ≫= _) = true =>
    let v := fresh "v" in let E := fresh in
    destruct (from_addr_ok b i) as [v E]; [lia..|]; rewrite E, bind_ret; clear E
  | |- no_panic (slice ?b ?i ?j ≫= _) = true => rewrite (slice_ok b i j), bind_ret by lia
  | |- no_panic (from ?b ?i ≫= _) = true => rewrite (from_ok b i), bind_ret by lia
  end.

Lemma Parse_total b : is_bytes b -> no_panic (Parse b) = true.
Proof.
  intros Hb. unfold Parse. change (bootpFixedLen + zlen magicCookie) with 240. unfold bootpFixedLen.
  destruct (Z.ltb_spec (zlen b) 240); [done|]. read_ok. destruct (negb _); [done|].
  destruct (idx b 0) as [op| |] eqn:E0; [|by rewrite idx_ok in E0 by lia..]. rewrite bind_ret.
  destruct (idx b 1) as [ht| |] eqn:E1; [|by rewrite idx_ok in E1 by lia..]. rewrite bind_ret.
  destruct (idx b 2) as [hl| |] eqn:E2; [|by rewrite idx_ok in E2 by lia..]. rewrite bind_ret.
  pose proof (is_bytes_idx _ _ _ Hb E2) as Hhl. unfold is_byte in Hhl.
  destruct (idx b 3) as [ho| |] eqn:E3; [|by rewrite idx_ok in E3 by lia..]. rewrite bind_ret.
  repeat read_ok.
  pose proof (parseOptions_total (drop (Z.to_nat (236 + 4)) b) (is_bytes_drop _ _ Hb)) as Ho.
  by destruct (parseOptions _).
Qed.

Lemma Parse_wf b m : is_bytes b -> Parse b = Ret m -> message_wf m.
Proof.
  intros Hb H. unfold Parse in H. destruct (_ <? _); [done|]. bind_inv H.
  destruct (negb _); [done|]. do 14 (let a := fresh "a" in let E := fresh "E" in
    apply bind_inv in H as (a & E & H)).
  bind_inv H. destruct (parseOptions _) as [o| |] eqn:Eo; [|done..]. injection H as <-.
  split; cbn; eauto using is_bytes_idx, is_bytes_slice, is_bytes_cstr.
  - apply (from_get_bound _ _ 4 _ Hb E4).
  - apply (from_get_bound _ _ 2 _ Hb E5).
  - apply (from_get_bound _ _ 2 _ Hb E6).
  - repeat constructor; eapply from_addr_wf; eauto.
  - apply from_inv in E14 as (_ & -> & _). eapply parseOptions_wf; [|done]. by apply is_bytes_drop.
Qed.

(** ** Properties *)

(** Messages the wire format carries exactly: IPv4 addresses, a hardware
    address of the announced length, NUL-free strings that fit, option values
    of one piece. *)
Definition canonical (m : Message) : Prop :=
  Forall (fun a => Is4 a = true) [CIAddr m; YIAddr m; SIAddr m; GIAddr m]
  /\ (HLen m = zlen (CHAddr m) /\ HLen m <= 16)
  /\ (Forall (fun c => c <> 0) (SName m) /\ zlen (SName m) <= 64)
  /\ (Forall (fun c => c <> 0) (File m) /\ zlen (File m) <= 128)
  /\ Forall (fun opt => zlen (Data opt) <= 255) (Opts m).

#[export] Instance canonical_dec m : Decision (canonical m).
Proof. unfold canonical. apply _. Defined.

Lemma cstr_field n b : Forall (fun c => c <> 0) b -> zlen b <= n -> cstr (field n b) = b.
Proof.
  intros Hb Hn. unfold field. rewrite take_ge by (unfold zlen in Hn; lia).
  generalize (n - zlen b). clear Hn. induction Hb as [|c b Hc Hb IH]; intros k; cbn.
  - unfold zeros. by destruct (Z.to_nat k).
  - apply Z.eqb_neq in Hc as ->. by rewrite IH.
Qed.

Lemma wire_addr_id a : Is4 a = true -> wire_addr a = a.
Proof. by destruct a. Qed.

Lemma pieces_id o : Forall (fun opt => zlen (Data opt) <= 255) o -> flat_map pieces o = o.
Proof. induction 1 as [|opt o Ho _ IH]; [done|]. cbn [flat_map]. by rewrite pieces_short, IH. Qed.

(** Encoding a message and decoding the bytes gives the message back, for
    every message the wire format can carry exactly. *)
Lemma Parse_Marshal m : message_wf m -> canonical m -> Parse (Message_Marshal m) = Ret m.
Proof.
  intros Hwf (Ha & [Hl Hl16] & [Hs Hs64] & [Hf Hf128] & Ho).
  rewrite Parse_Marshal_received by done. f_equal. unfold received.
  repeat (apply Forall_cons in Ha as [? Ha]).
  rewrite !wire_addr_id, !cstr_field, pieces_id, Hl by done.
  replace (Z.to_nat (Z.min (zlen (CHAddr m)) 16)) with (length (CHAddr m)) by (unfold zlen in *; lia).
  replace (take _ (field 16 _)) with (CHAddr m); [by rewrite <- Hl; destruct m|].
  unfold field. rewrite take_app_le by (rewrite length_take; unfold zlen in *; lia).
  rewrite take_take, Nat.min_l by (unfold zlen in *; lia). by rewrite firstn_all.
Qed.

(** The decoder is total on every byte string: it returns a message or an
    error and never panics, and a message it returns has every field in the
    range of its type and only options the wire can carry. *)
Lemma Parse_safe b : is_bytes b ->
  no_panic (Parse b) = true /\ (forall m, Parse b = Ret m -> message_wf m).
Proof. intros Hb. split; [by apply Parse_total|intros m; by apply Parse_wf]. Qed.

(** An option value of any length survives the encoder's 255-byte split: the
    decoder sees, for every code, pieces whose concatenation is the value sent
    (RFC 3396), and nothing after the END option. *)
Lemma Options_long_roundtrip o s : Forall opt_wf o ->
  exists o', parseOptions (Options_Marshal o ++ OptEnd :: s) = Ret o'
    /\ (forall code, joined o' code = joined o code)
    /\ Forall (fun q => zlen (Data q) <= 255) o'.
Proof.
  intros Ho. exists (flat_map pieces o). split_and!.
  - by apply parse_marshal_options.
  - intros code. by apply joined_pieces.
  - induction Ho as [|opt o [Hc Hd] Ho IH]; cbn [flat_map]; [constructor|].
    apply Forall_app. split; [|done]. eapply Forall_impl; [by apply pieces_loop_Forall|].
    cbn. tauto.
Qed.

(** ** Witnesses *)

Definition sample_discover : Message :=
  mkMessage OpBootRequest 1 6 0 0x12345678 3 flagBroadcast
    (A4 0) (A4 0) (A4 0) (A4 0) [2; 0; 0; 0; 0; 1] [104; 105] []
    [NewMessageType Discover; mkOption OptRequestedIP [192; 168; 1; 50]].

Lemma Parse_Marshal_witness : Parse (Message_Marshal sample_discover) = Ret sample_discover.
Proof.
  apply (Parse_Marshal sample_discover).
  - split; by_eval.
  - by_eval.
Defined.

Lemma Parse_safe_witness : no_panic (Parse (replicate 250 7)) = true
  /\ (forall m, Parse (replicate 250 7) = Ret m -> message_wf m).
Proof. apply (Parse_safe (replicate 250 7)). by_eval. Defined.

Lemma Options_long_roundtrip_witness :
  exists o', parseOptions (Options_Marshal [mkOption OptDNSServers (replicate 400 9)] ++ OptEnd :: [0; 0]) = Ret o'
    /\ (forall code, joined o' code = joined [mkOption OptDNSServers (replicate 400 9)] code)
    /\ Forall (fun q => zlen (Data q) <= 255) o'.
Proof.
  apply (Options_long_roundtrip [mkOption OptDNSServers (replicate 400 9)] [0; 0]).
  by_eval.
Defined.
