(* ===== verification/Dhcpv4Packet.v ===== *)
(** DHCPv4 framing: src/pkg/dhcpv4/packet.go.  Requests are located in raw
    IPv4/UDP packets; replies are framed with both checksums and addressed by
    the broadcast flag.  Filter is the program of Bpf.v the kernel runs on the socket. *)

From S2P Require Import Prelude Wire Bpf Netip Checksum Dhcpv4Message.

Local Open Scope Z_scope.

Definition bootpServerPort : Z := 67.
Definition bootpClientPort : Z := 68.
Definition IPPROTO_UDP : Z := 17.

Definition Filter : list SockFilter :=
  [LdB 9; JEq IPPROTO_UDP 4; LdxMsh 0; LdHInd 2; JEq bootpServerPort 1; RetK 0xffff; RetK 0].

(** [None] is the Go result [(nil, false)]. *)
Definition parseUDPToBOOTP (b : bytes) : outcome (option bytes) :=
  if zlen b <? 20 then Ret None else
  b0 ← idx b 0;
  if negb (Z.shiftr b0 4 =? 4) then Ret None else
  b9 ← idx b 9;
  if negb (b9 =? IPPROTO_UDP) then Ret None else
  let ihl := Z.land b0 0x0f * 4 in
  if (ihl <? 20) || (zlen b <? ihl + 8) then Ret None else
  udp ← from b ihl;
  port ← from udp 2 ≫= get 2;
  if negb (port =? bootpServerPort) then Ret None else
  udpLen ← from udp 4 ≫= get 2;
  if (udpLen <? 8) || (zlen udp <? udpLen) then Ret None else
  payload ← slice udp 8 udpLen;
  Ret (Some payload).

Definition ParseRequest (packet : bytes) : outcome (option Message) :=
  p ← parseUDPToBOOTP packet;
  match p with
  | None => Ret None
  | Some payload =>
    match Parse payload with
    | Ret msg => Ret (Some msg)
    | Fail _ => Ret None
    | Panic => Panic
    end
  end.

Definition broadcastMAC : bytes := replicate 6 0xff.

Definition destination (reply : Message) : Addr * bytes :=
  if Broadcast reply then (AddrFrom4 [255; 255; 255; 255], broadcastMAC)
  else
    let dstIP := YIAddr reply in
    let dstIP := if negb (Is4 dstIP) || IsUnspecified dstIP then CIAddr reply else dstIP in
    (dstIP, CHAddr reply).

Definition udpChecksum (src dst udp : bytes) : Z :=
  checksum (src ++ dst ++ [0; IPPROTO_UDP] ++ be 2 (zlen udp) ++ udp).

Definition ipHdr : Z := 20.
Definition udpHdr : Z := 8.

(** The IPv4 header with its checksum field [c]: version 4 and IHL 5, total
    length, TTL 64, protocol UDP, source and destination. *)
Definition ip_header (totalLen : Z) (c s4 d4 : bytes) : bytes :=
  [0x45; 0] ++ be 2 totalLen ++ zeros 4 ++ [64; IPPROTO_UDP] ++ c ++ s4 ++ d4.

Definition udp_header (udpLen : Z) (c : bytes) : bytes :=
  be 2 bootpServerPort ++ be 2 bootpClientPort ++ be 2 udpLen ++ c.

Definition buildFrame (src dst : Addr) (payload : bytes) : outcome bytes :=
  let udpLen := udpHdr + zlen payload in
  s4 ← As4 src; d4 ← As4 dst;
  let ipsum := checksum (ip_header (ipHdr + udpLen) (zeros 2) s4 d4) in
  let csum := udpChecksum s4 d4 (udp_header udpLen (zeros 2) ++ payload) in
  let csum := if csum =? 0 then 0xffff else csum in
  Ret (ip_header (ipHdr + udpLen) (be 2 ipsum) s4 d4
       ++ udp_header udpLen (be 2 csum) ++ payload).

Definition Frame (srcIP : Addr) (reply : Message) : outcome (bytes * bytes) :=
  let '(dstIP, dstMAC) := destination reply in
  frame ← buildFrame srcIP dstIP (Message_Marshal reply);
  Ret (frame, dstMAC).

(** ** Locating a request *)

Lemma parseUDP_total b : is_bytes b -> no_panic (parseUDPToBOOTP b) = true.
Proof.
  intros Hb. unfold parseUDPToBOOTP. destruct (Z.ltb_spec (zlen b) 20); [done|].
  destruct (idx b 0) as [b0| |] eqn:E0; [|by rewrite idx_ok in E0 by lia..]. rewrite bind_ret.
  pose proof (is_bytes_idx _ _ _ Hb E0) as Hb0. unfold is_byte in Hb0.
  destruct (negb _); [done|]. read_ok. destruct (negb _); [done|].
  set (ihl := Z.land b0 15 * 4). destruct (Z.ltb_spec ihl 20); [done|].
  destruct (Z.ltb_spec (zlen b) (ihl + 8)); [done|]. cbn [orb].
  rewrite (from_ok b ihl), bind_ret by lia.
  set (udp := drop (Z.to_nat ihl) b).
  assert (zlen udp = zlen b - ihl) as Hu by (unfold udp; rewrite zlen_drop; lia).
  read_ok. destruct (negb _); [done|].
  destruct (from_get_ok udp 4 2) as [len Hv]; [lia..|]. rewrite Hv, bind_ret.
  destruct (Z.ltb_spec len 8); [done|]. destruct (Z.ltb_spec (zlen udp) len); [done|]. cbn [orb].
  by rewrite slice_ok by lia.
Qed.

Lemma parseUDP_bytes b p : is_bytes b -> parseUDPToBOOTP b = Ret (Some p) -> is_bytes p.
Proof.
  intros Hb H. unfold parseUDPToBOOTP in H. destruct (_ <? 20); [done|]. bind_inv H.
  destruct (negb _); [done|]. bind_inv H. destruct (negb _); [done|].
  destruct (_ || _); [done|]. bind_inv H. bind_inv H. destruct (negb _); [done|].
  bind_inv H. destruct (_ || _); [done|]. bind_inv H. injection H as <-.
  eapply is_bytes_slice; [|done]. apply from_inv in E1 as (_ & -> & _). by apply is_bytes_drop.
Qed.

(** A received packet with an IPv4 header of [4 * ihl] bytes (options
    included), a UDP header to port 67, the payload and link-layer padding. *)
Lemma parseUDP_packet ihl h1 h2 sport csum payload padding :
  5 <= ihl <= 15 -> zlen h1 = 8 -> zlen h2 = 4 * ihl - 10 ->
  zlen sport = 2 -> zlen csum = 2 -> 8 + zlen payload < 2 ^ 16 ->
  parseUDPToBOOTP
    (((0x40 + ihl) :: h1 ++ IPPROTO_UDP :: h2)
     ++ (sport ++ be 2 bootpServerPort ++ be 2 (8 + zlen payload) ++ csum)
     ++ payload ++ padding) = Ret (Some payload).
Proof.
  intros Hi H1 H2 Hs Hc Hp. pose proof (zlen_nonneg payload). pose proof (zlen_nonneg padding).
  assert (Z.shiftr (0x40 + ihl) 4 = 4 /\ Z.land (0x40 + ihl) 15 = ihl) as [Hv Hl].
  { rewrite Z.shiftr_div_pow2 by lia. change 15 with (Z.ones 4). rewrite Z.land_ones by lia.
    split; [symmetry; apply (Z.div_unique _ _ _ ihl)|symmetry; apply (Z.mod_unique _ _ 4)]; lia. }
  unfold parseUDPToBOOTP.
  set (udp := (sport ++ _) ++ payload ++ padding).
  assert (zlen udp = 8 + zlen payload + zlen padding) as Hu by (unfold udp; zlen_lia).
  set (b := _ ++ udp).
  assert (zlen b = 4 * ihl + zlen udp) as Hb by (unfold b; zlen_lia).
  replace (zlen b <? 20) with false by (symmetry; apply Z.ltb_ge; lia).
  assert (idx b 0 = Ret (0x40 + ihl)) as -> by (unfold b; cbn [app]; by read_step).
  rewrite bind_ret, Hv. cbn [Z.eqb negb].
  assert (idx b 9 = Ret IPPROTO_UDP) as ->
    by (unfold b; cbn [app]; rewrite <- app_assoc; cbn [app]; by repeat read_step).
  rewrite bind_ret, Hl. cbn [Z.eqb negb].
  replace (ihl * 4 <? 20) with false by (symmetry; apply Z.ltb_ge; lia).
  replace (zlen b <? ihl * 4 + 8) with false by (symmetry; apply Z.ltb_ge; lia). cbn [orb].
  assert (from b (ihl * 4) = Ret udp) as -> by (unfold b; apply from_app_exact; zlen_lia).
  rewrite bind_ret.
  assert ((from udp 2 ≫= get 2) = Ret bootpServerPort) as ->
    by (unfold udp; rewrite <- !app_assoc; repeat read_step; rewrite bind_ret; by apply get_be).
  rewrite bind_ret. cbn [Z.eqb negb].
  assert ((from udp 4 ≫= get 2) = Ret (8 + zlen payload)) as ->
    by (unfold udp; rewrite <- !app_assoc; repeat read_step; rewrite bind_ret; apply get_be; cbn; lia).
  rewrite bind_ret.
  replace (8 + zlen payload <? 8) with false by (symmetry; apply Z.ltb_ge; lia).
  replace (zlen udp <? 8 + zlen payload) with false by (symmetry; apply Z.ltb_ge; lia). cbn [orb].
  assert (slice udp 8 (8 + zlen payload) = Ret payload) as ->
    by (unfold udp; rewrite <- !app_assoc; repeat read_step; reflexivity).
  reflexivity.
Qed.

(** ** Framing a reply *)

Lemma be2_zero : be 2 0 = [0; 0].
Proof. reflexivity. Qed.

Lemma zeros2 : zeros 2 = [0; 0].
Proof. reflexivity. Qed.

(** The checksum inserted in an IPv4 header verifies. *)
Lemma ip_header_verifies totalLen s4 d4 :
  is_bytes s4 -> is_bytes d4 -> zlen s4 = 4 -> zlen d4 = 4 ->
  checksum (ip_header totalLen (be 2 (checksum (ip_header totalLen (zeros 2) s4 d4))) s4 d4) = 0.
Proof.
  intros Hs Hd Ls Ld. unfold ip_header.
  set (p := [69; 0] ++ be 2 totalLen ++ zeros 4 ++ [64; IPPROTO_UDP]).
  assert (forall c, [69; 0] ++ be 2 totalLen ++ zeros 4 ++ [64; IPPROTO_UDP] ++ c ++ s4 ++ d4
                    = p ++ c ++ s4 ++ d4) as Hp by (intros c; unfold p; by rewrite <- !app_assoc).
  rewrite !Hp, zeros2.
  assert (zlen p = 10) as Lp by (unfold p; zlen_lia).
  assert (is_bytes p) as Bp.
  { unfold p. rewrite !is_bytes_app. split_and!; auto with wire; by_eval. }
  assert (is_bytes (s4 ++ d4)) as Bs by (by rewrite is_bytes_app).
  apply checksum_verifies; rewrite ?Lp; try done.
  - unfold p. cbn [app wsum]. rewrite <- app_assoc. cbn [wsum app].
    pose proof (wsum_nonneg (be 2 totalLen ++ (zeros 4 ++ [64; IPPROTO_UDP]) ++ s4 ++ d4)) as H.
    rewrite !is_bytes_app in H. specialize (H ltac:(split_and!; auto with wire; by_eval)). lia.
  - zlen_lia.
  - by left.
Qed.

(** The UDP checksum inserted in a datagram verifies over the pseudo-header; a
    computed zero travels as all ones (RFC 768). *)
Lemma udp_verifies s4 d4 payload :
  is_bytes s4 -> is_bytes d4 -> is_bytes payload -> zlen s4 = 4 -> zlen d4 = 4 ->
  udpHdr + zlen payload < 2 ^ 16 ->
  let csum := udpChecksum s4 d4 (udp_header (udpHdr + zlen payload) (zeros 2) ++ payload) in
  udpChecksum s4 d4
    (udp_header (udpHdr + zlen payload) (be 2 (if csum =? 0 then 0xffff else csum)) ++ payload) = 0.
Proof.
  intros Hs Hd Hp Ls Ld Hl csum. unfold csum. clear csum. unfold udpChecksum, udp_header.
  set (len := udpHdr + zlen payload).
  assert (forall c, zlen c = 2 ->
    zlen ((be 2 bootpServerPort ++ be 2 bootpClientPort ++ be 2 len ++ c) ++ payload) = len) as Hlen
    by (intros c Hc; unfold len, udpHdr; zlen_lia).
  rewrite !Hlen by (zlen_lia).
  set (p := s4 ++ d4 ++ [0; IPPROTO_UDP] ++ be 2 len
            ++ be 2 bootpServerPort ++ be 2 bootpClientPort ++ be 2 len).
  assert (forall c, s4 ++ d4 ++ [0; IPPROTO_UDP] ++ be 2 len
    ++ (be 2 bootpServerPort ++ be 2 bootpClientPort ++ be 2 len ++ c) ++ payload
    = p ++ c ++ payload) as Hpc by (intros c; unfold p; by rewrite <- !app_assoc).
  rewrite !Hpc, zeros2.
  assert (zlen p = 18) as Lp by (unfold p; zlen_lia).
  assert (is_bytes p) as Bp by (unfold p; rewrite !is_bytes_app; split_and!; auto with wire; by_eval).
  apply checksum_verifies; rewrite ?Lp; try done.
  - unfold p. rewrite <- !app_assoc, !(wsum_app s4), (wsum_app d4) by (by rewrite ?Ls, ?Ld).
    cbn [app wsum]. pose proof (wsum_nonneg s4 Hs). pose proof (wsum_nonneg d4 Hd).
    pose proof (wsum_nonneg (be 2 len ++ be 2 bootpServerPort ++ be 2 bootpClientPort ++ be 2 len ++ payload)) as H1.
    rewrite !is_bytes_app in H1. specialize (H1 ltac:(split_and!; auto with wire)).
    change (256 * 0 + IPPROTO_UDP) with 17. lia.
  - unfold len, udpHdr in *. zlen_lia.
  - destruct (Z.eqb_spec (checksum (p ++ [0; 0] ++ payload)) 0); auto.
Qed.

Lemma As4_bytes a b : addr_wf a -> As4 a = Ret b -> is_bytes b /\ zlen b = 4.
Proof.
  destruct a as [|v|v z]; cbn; [done|..].
  - intros _ [= <-]. auto using is_bytes_be, zlen_be.
  - intros _. destruct (_ =? _); [|done]. intros [= <-]. auto using is_bytes_be, zlen_be.
Qed.

(** ** Properties *)

(** A framed reply is a well-formed datagram: 20 bytes of IPv4 header whose
    checksum verifies and whose total length is the frame's, a UDP header from
    port 67 to port 68 whose checksum verifies over the pseudo-header (a zero sum
    sent as all ones), then the payload, between two IPv4 addresses. *)
Lemma buildFrame_verifies s d payload :
  0 <= s < 2 ^ 32 -> 0 <= d < 2 ^ 32 -> is_bytes payload -> zlen payload < 2 ^ 16 - 28 ->
  exists ip udp, buildFrame (A4 s) (A4 d) payload = Ret (ip ++ udp ++ payload)
    /\ zlen ip = 20 /\ zlen udp = 8
    /\ checksum ip = 0 /\ udpChecksum (be 4 s) (be 4 d) (udp ++ payload) = 0
    /\ get 2 (drop 2 ip) = Ret (zlen (ip ++ udp ++ payload))
    /\ take 4 udp = be 2 67 ++ be 2 68 /\ take 8 (drop 12 ip) = be 4 s ++ be 4 d
    /\ get 2 (drop 6 udp) <> Ret 0.
Proof.
  intros Hs Hd Hp Hl. pose proof (zlen_nonneg payload). unfold buildFrame. cbn [As4].
  rewrite !bind_ret. eexists _, _. split; [reflexivity|].
  assert (forall c n, zlen c = 2 -> zlen (ip_header n c (be 4 s) (be 4 d)) = 20) as Lip
    by (intros c n Hc; unfold ip_header; zlen_lia).
  assert (forall c n, zlen c = 2 -> zlen (udp_header n c) = 8) as Ludp
    by (intros c n Hc; unfold udp_header; zlen_lia).
  split_and!.
  - by apply Lip.
  - by apply Ludp.
  - apply ip_header_verifies; auto using is_bytes_be, zlen_be.
  - apply udp_verifies; auto using is_bytes_be, zlen_be. unfold udpHdr. lia.
  - rewrite !zlen_app, Lip, Ludp by done. unfold ip_header, ipHdr, udpHdr. cbn [app].
    change (drop 2 _) with (be 2 (20 + (8 + zlen payload)) ++
      (zeros 4 ++ 64 :: IPPROTO_UDP :: be 2 (checksum (ip_header (20 + (8 + zlen payload)) (zeros 2) (be 4 s) (be 4 d))) ++ be 4 s ++ be 4 d)).
    rewrite get_be; [done|]. cbn. lia.
  - done.
  - done.
  - set (c := udpChecksum _ _ _). intros H0.
    assert (0 <= c < 2 ^ 16) as Hc.
    { unfold c, udpChecksum. apply checksum_bound.
      - unfold udp_header. rewrite !is_bytes_app. split_and!; auto with wire. by_eval.
      - assert (is_bytes (be 4 s ++ be 4 d ++ [0; IPPROTO_UDP] ++ be 2 (zlen (udp_header (udpHdr + zlen payload) (zeros 2) ++ payload)) ++ udp_header (udpHdr + zlen payload) (zeros 2) ++ payload)) as Hb
          by (unfold udp_header; rewrite !is_bytes_app; split_and!; auto with wire; by_eval).
        pose proof (wsum_bound _ Hb) as Hw. rewrite !zlen_app, Ludp, !zlen_be in Hw by done.
        change (zlen [0; IPPROTO_UDP]) with 2 in Hw. rewrite !zlen_app, Ludp by done. lia. }
    change (drop 6 _) with (be 2 (if c =? 0 then 65535 else c) ++ []) in H0.
    rewrite get_be in H0 by (destruct (c =? 0); cbn; lia).
    destruct (Z.eqb_spec c 0); congruence.
Qed.

(** The request locator is total on arbitrary packets and, behind an IPv4
    header of any legal length (options included), finds exactly the UDP payload
    of a datagram to port 67, with link-layer padding removed. *)
Lemma parseUDPToBOOTP_spec :
  (forall b, is_bytes b -> no_panic (parseUDPToBOOTP b) = true)
  /\ (forall ihl h1 h2 sport csum payload padding,
        5 <= ihl <= 15 -> zlen h1 = 8 -> zlen h2 = 4 * ihl - 10 ->
        zlen sport = 2 -> zlen csum = 2 -> 8 + zlen payload < 2 ^ 16 ->
        parseUDPToBOOTP
          (((0x40 + ihl) :: h1 ++ IPPROTO_UDP :: h2)
           ++ (sport ++ be 2 bootpServerPort ++ be 2 (8 + zlen payload) ++ csum)
           ++ payload ++ padding) = Ret (Some payload)).
Proof. split; [apply parseUDP_total|apply parseUDP_packet]. Qed.

(** *** The filter *)

Lemma get_two hi lo rest : is_bytes (hi :: lo :: rest) -> get 2 (hi :: lo :: rest) = Ret (hi * 256 + lo).
Proof.
  intros Hb. inversion Hb as [|? ? Hh Hb']; subst. inversion Hb' as [|? ? Hl _]; subst.
  unfold get. rewrite slice_ok by zlen_lia. change (take _ _) with [hi; lo]. cbn [fmap outcome_fmap]. f_equal.
  rewrite !unbe_cons by (first [done|by apply Forall_singleton|by apply Forall_nil]). change (zlen [lo]) with 1. change (zlen []) with 0. change (unbe []) with 0. lia.
Qed.

(** It delivers every packet the server would read. *)
Lemma Filter_passes b m : is_bytes b -> ParseRequest b = Ret (Some m) -> accepts Filter b = 0xffff.
Proof.
  intros Hb Hp. unfold ParseRequest in Hp. apply bind_inv in Hp as (p & Hp & Hm). destruct p as [p|]; [|done]. clear Hm.
  unfold parseUDPToBOOTP in Hp. destruct (_ <? 20); [done|].
  apply bind_inv in Hp as (b0 & (_ & H0)%idx_inv & Hp). destruct (negb _); [done|].
  apply bind_inv in Hp as (b9 & (_ & H9)%idx_inv & Hp). destruct (Z.eqb_spec b9 IPPROTO_UDP) as [->|]; [|done]. cbn [negb] in Hp.
  set (ihl := Z.land b0 15 * 4) in Hp. destruct (Z.ltb_spec ihl 20); [done|]. destruct (Z.ltb_spec (zlen b) (ihl + 8)); [done|].
  cbn [orb] in Hp. rewrite from_ok, bind_ret in Hp by lia.
  assert (exists hi lo rest, drop (Z.to_nat (ihl + 2)) b = hi :: lo :: rest) as (hi & lo & rest & Hd).
  { pose proof (zlen_drop (Z.to_nat (ihl + 2)) b) as Hl. destruct (drop (Z.to_nat (ihl + 2)) b) as [|hi [|lo rest]];
      [rewrite ?zlen_cons, ?zlen_nil in Hl; lia..|by eexists _, _, _]. }
  apply bind_inv in Hp as (port & Hport & Hp). destruct (Z.eqb_spec port bootpServerPort) as [->|]; [|done]. clear Hp.
  apply bind_inv in Hport as (u & (_ & -> & _)%from_inv & Hport). rewrite drop_drop in Hport.
  replace (Z.to_nat ihl + Z.to_nat 2)%nat with (Z.to_nat (ihl + 2)) in Hport by lia. rewrite Hd in Hport.
  assert (b !! Z.to_nat (ihl + 2) = Some hi) as Hhi by (rewrite <- (Nat.add_0_r (Z.to_nat _)), <- lookup_drop, Hd; done).
  assert (b !! Z.to_nat (ihl + 2 + 1) = Some lo) as Hlo.
  { replace (Z.to_nat (ihl + 2 + 1)) with (Z.to_nat (ihl + 2) + 1)%nat by lia. by rewrite <- lookup_drop, Hd. }
  unfold accepts, Filter. cbn [bpf]. change (Z.to_nat 9) with 9%nat in *. change (Z.to_nat 0) with O in *. rewrite H9.
  cbn [bpf]. rewrite Z.eqb_refl. cbn [bpf]. rewrite H0. cbn [bpf].
  replace (4 * Z.land b0 15) with ihl by (unfold ihl; lia). rewrite Hhi, Hlo. cbn [bpf].
  replace (hi * 256 + lo) with bootpServerPort; [by rewrite Z.eqb_refl|].
  rewrite get_two in Hport by (pose proof (is_bytes_drop (Z.to_nat (ihl + 2)) b Hb) as Hx; by rewrite Hd in Hx). congruence.
Qed.

(** And none of its own replies, which a packet socket also sees leave. *)
Lemma Filter_drops_framed n c1 c2 len s4 d4 payload : zlen s4 = 4 -> zlen d4 = 4 ->
  accepts Filter (ip_header n (be 2 c1) s4 d4 ++ udp_header len (be 2 c2) ++ payload) = 0.
Proof.
  intros L1 L2. assert (length s4 = 4%nat) as K1 by (unfold zlen in L1; lia). assert (length d4 = 4%nat) as K2 by (unfold zlen in L2; lia).
  destruct s4 as [|? [|? [|? [|? []]]]]; try done. destruct d4 as [|? [|? [|? [|? []]]]]; try done.
Qed.

Lemma Filter_drops_replies s d payload f : addr_wf s -> addr_wf d -> buildFrame s d payload = Ret f -> accepts Filter f = 0.
Proof.
  intros Hs Hd. unfold buildFrame. intros (s4 & Hs4 & Hf)%bind_inv. apply bind_inv in Hf as (d4 & Hd4 & Hf).
  destruct (As4_bytes s s4 Hs Hs4) as [_ L1], (As4_bytes d d4 Hd Hd4) as [_ L2].
  assert (forall a b : bytes, Ret a = Ret b -> a = b) as Hinj by congruence.
  rewrite <- (Hinj _ _ Hf). by apply Filter_drops_framed.
Qed.

(** ** Witnesses *)

Lemma buildFrame_verifies_witness :
  exists ip udp, buildFrame (A4 0xc0a80101) (A4 0xc0a80132) [1; 2; 3] = Ret (ip ++ udp ++ [1; 2; 3])
    /\ zlen ip = 20 /\ zlen udp = 8
    /\ checksum ip = 0 /\ udpChecksum (be 4 0xc0a80101) (be 4 0xc0a80132) (udp ++ [1; 2; 3]) = 0
    /\ get 2 (drop 2 ip) = Ret (zlen (ip ++ udp ++ [1; 2; 3]))
    /\ take 4 udp = be 2 67 ++ be 2 68 /\ take 8 (drop 12 ip) = be 4 0xc0a80101 ++ be 4 0xc0a80132
    /\ get 2 (drop 6 udp) <> Ret 0.
Proof. apply (buildFrame_verifies 0xc0a80101 0xc0a80132 [1; 2; 3]); by_eval. Defined.
