(* ===== verification/Dhcpv4Pool.v ===== *)
(** The DHCPv4 address pool: src/pkg/dhcpv4/lease.go.  The three maps of the
    Go struct are finite maps, [now] is an instant in nanoseconds since the zero
    Time, and a method that changes the pool returns it. *)

From S2P Require Import Prelude Wire Netip.

Local Open Scope Z_scope.

Definition Hour : Z := 3600 * 1000000000.
Definition offerHoldTime : Z := 60 * 1000000000.
Definition declineQuarantine : Z := Hour.

Inductive bindingState : Type := bindingOffered | bindingCommitted.

#[export] Instance bindingState_eq_dec : EqDecision bindingState.
Proof. solve_decision. Defined.

Record lease : Type := mkLease { ip : Addr; expiry : Z; state : bindingState }.

#[export] Instance lease_eq_dec : EqDecision lease.
Proof. solve_decision. Defined.

(** A client is keyed by its identifier, a byte string. *)
Abbreviation client := (list Z).

Record Pool : Type := mkPool {
  subnet : Prefix; serverIP : Addr; network : Addr; broadcast : Addr; duration : Z;
  byClient : gmap client lease; byIP : gmap Addr client; declined : gmap Addr Z }.

#[export] Instance Pool_eq_dec : EqDecision Pool.
Proof. solve_decision. Defined.

Definition with_maps (p : Pool) (bc : gmap client lease) (bi : gmap Addr client) : Pool :=
  mkPool (subnet p) (serverIP p) (network p) (broadcast p) (duration p) bc bi (declined p).
Definition with_declined (p : Pool) (d : gmap Addr Z) : Pool :=
  mkPool (subnet p) (serverIP p) (network p) (broadcast p) (duration p) (byClient p) (byIP p) d.

(** The broadcast address: the network address with every host bit set. *)
Definition lastAddr (prefix : Prefix) : outcome Addr :=
  a ← As4 (paddr prefix);
  let hostBits := 32 - pbits prefix in
  let v := Z.lor (unbe a) (u32 (u64 (Z.shiftl 1 hostBits - 1))) in
  Ret (AddrFrom4 (be 4 v)).

Definition NewPool (sub : Prefix) (server : Addr) (dur : Z) : outcome Pool :=
  let sub := Masked sub in
  if negb (Is4 (paddr sub)) then Fail "dhcpv4: pool subnet must be IPv4"
  else if (pbits sub <? 1) || (30 <? pbits sub) then Fail "dhcpv4: pool subnet has no usable host range"
  else if negb (Is4 server) || negb (Contains sub server)
  then Fail "dhcpv4: server IP is not within pool subnet"
  else
    bcast ← lastAddr sub;
    Ret (mkPool sub server (paddr sub) bcast dur ∅ ∅ ∅).

Definition expired (l : lease) (now : Z) : bool := negb (now <? expiry l).

(** The conditions on an address that do not depend on the clock. *)
Definition usable (p : Pool) (a : Addr) : bool :=
  Is4 a && Contains (subnet p) a
  && negb (bool_decide (a = network p)) && negb (bool_decide (a = broadcast p))
  && negb (bool_decide (a = serverIP p)).

(** allocatable also clears an elapsed quarantine. *)
Definition allocatable (p : Pool) (a : Addr) (now : Z) : bool * Pool :=
  match declined p !! a with
  | Some until =>
    if now <? until then (false, p)
    else let p' := with_declined p (delete a (declined p)) in (usable p' a, p')
  | None => (usable p a, p)
  end.

(** The zero Time, the expiry of the zero lease Go reads for a missing key. *)
Definition zero_lease : lease := mkLease AInvalid 0 bindingOffered.

Definition isFree (p : Pool) (a : Addr) (forClient : client) (now : Z) : bool :=
  match byIP p !! a with
  | None => true
  | Some owner =>
    bool_decide (owner = forClient)
    || expired (default zero_lease (byClient p !! owner)) now
  end.

Definition clear (p : Pool) (c : client) : Pool :=
  match byClient p !! c with
  | Some l => with_maps p (delete c (byClient p)) (delete (ip l) (byIP p))
  | None => p
  end.

Definition hold (p : Pool) (c : client) (a : Addr) (now : Z) (st : bindingState) : Pool :=
  let p := clear p c in
  let bc := match byIP p !! a with
            | Some prev => delete prev (byClient p) | None => byClient p end in
  let dur := match st with bindingCommitted => duration p | bindingOffered => offerHoldTime end in
  with_maps p (<[c := mkLease a (now + dur) st]> bc) (<[a := c]> (byIP p)).

(** nextFree walks the subnet upward from the network address; [fuel] bounds the
    walk by the size of the subnet ([nextFree_loop_spec] shows it is enough). *)
Fixpoint nextFree_loop (fuel : nat) (p : Pool) (a : Addr) (forClient : client) (now : Z)
  : option Addr * Pool :=
  match fuel with
  | O => (None, p)
  | S fuel' =>
    if IsValid a && Contains (subnet p) a then
      let '(alloc, p') := allocatable p a now in
      if alloc && isFree p' a forClient now then (Some a, p')
      else nextFree_loop fuel' p' (Next a) forClient now
    else (None, p)
  end.

Definition nextFree (p : Pool) (forClient : client) (now : Z) : option Addr * Pool :=
  nextFree_loop (Z.to_nat (2 ^ (32 - pbits (subnet p)))) p (Next (network p)) forClient now.

(** Offer's three preferences in order: the address the client already holds
    (in its current state), the address it asks for, the lowest free one. *)
Definition Offer_requested (p : Pool) (c : client) (requested : Addr) (now : Z)
  : option Addr * Pool :=
  let '(alloc, p) := allocatable p requested now in
  if alloc && isFree p requested c now
  then (Some requested, hold p c requested now bindingOffered)
  else
    match nextFree p c now with
    | (Some a, p) => (Some a, hold p c a now bindingOffered)
    | (None, p) => (None, p)
    end.

Definition Pool_Offer (p : Pool) (c : client) (requested : Addr) (now : Z)
  : option Addr * Pool :=
  match byClient p !! c with
  | Some l =>
    if negb (expired l now) then
      let '(alloc, p') := allocatable p (ip l) now in
      if alloc then (Some (ip l), hold p' c (ip l) now (state l))
      else Offer_requested p' c requested now
    else Offer_requested p c requested now
  | None => Offer_requested p c requested now
  end.

Definition Binding (p : Pool) (c : client) (now : Z) : option Addr :=
  match byClient p !! c with
  | Some l => if expired l now then None else Some (ip l)
  | None => None
  end.

Definition Commit (p : Pool) (c : client) (a : Addr) (now : Z) : Pool :=
  hold p c a now bindingCommitted.

Definition CancelOffer (p : Pool) (c : client) : Pool :=
  match byClient p !! c with
  | Some l => match state l with bindingOffered => clear p c | bindingCommitted => p end
  | None => p
  end.

Definition Pool_Release (p : Pool) (c : client) (a : Addr) : Pool :=
  match byIP p !! a with
  | Some owner => if decide (owner = c) then clear p c else p
  | None => p
  end.

Definition Pool_Decline (p : Pool) (c : client) (a : Addr) (now : Z) : Pool :=
  match byIP p !! a with
  | Some owner =>
    if decide (owner = c)
    then clear (with_declined p (<[a := now + declineQuarantine]> (declined p))) c
    else p
  | None => p
  end.

(** A committed binding as kept across restarts. *)
Record Lease : Type := mkKept { IP : Addr; Expiry : Z }.

#[export] Instance Lease_eq_dec : EqDecision Lease.
Proof. solve_decision. Defined.

Definition Committed (p : Pool) (c : client) (now : Z) : option Lease :=
  match byClient p !! c with
  | Some l =>
    match state l with
    | bindingCommitted => if expired l now then None else Some (mkKept (ip l) (expiry l))
    | bindingOffered => None
    end
  | None => None
  end.

Definition Pool_Restore (p : Pool) (c : client) (l : Lease) (now : Z) : bool * Pool :=
  if negb (now <? Expiry l) then (false, p)
  else
    let '(alloc, p) := allocatable p (IP l) now in
    if negb alloc || negb (isFree p (IP l) c now) then (false, p)
    else
      let p := clear p c in
      (true, with_maps p (<[c := mkLease (IP l) (Expiry l) bindingCommitted]> (byClient p))
               (<[IP l := c]> (byIP p))).

(** ** The invariant *)

(** The two indexes are inverse of each other, only addresses the pool may
    hand out are held, and a held address is not in quarantine. *)
Record pool_inv (p : Pool) : Prop := {
  inv_fwd : forall c l, byClient p !! c = Some l -> byIP p !! ip l = Some c;
  inv_bwd : forall a c, byIP p !! a = Some c -> exists l, byClient p !! c = Some l /\ ip l = a;
  inv_usable : forall c l, byClient p !! c = Some l -> usable p (ip l) = true;
  inv_declined : forall c l, byClient p !! c = Some l -> declined p !! ip l = None }.

(** The fields no operation changes. *)
Definition same_config (p q : Pool) : Prop :=
  subnet q = subnet p /\ serverIP q = serverIP p /\ network q = network p
  /\ broadcast q = broadcast p /\ duration q = duration p.

#[export] Instance same_config_preorder : PreOrder same_config.
Proof. split; [by intros p|]. intros p q r (?&?&?&?&?) (?&?&?&?&?). repeat split; congruence. Qed.

Lemma usable_config p q a : same_config p q -> usable q a = usable p a.
Proof. intros (Hs & Hv & Hn & Hb & _). unfold usable. by rewrite Hs, Hv, Hn, Hb. Qed.

(** Only the quarantine differs, and only by entries removed. *)
Definition same_leases (p q : Pool) : Prop :=
  same_config p q /\ byClient q = byClient p /\ byIP q = byIP p /\ declined q ⊆ declined p.

#[export] Instance same_leases_preorder : PreOrder same_leases.
Proof.
  split; [by intros p|]. intros p q r (?&?&?&?) (?&?&?&?).
  split; [by etrans|]. split; [congruence|]. split; [congruence|]. by etrans.
Qed.

Lemma pool_inv_leases p q : same_leases p q -> pool_inv p -> pool_inv q.
Proof.
  intros (Hc & Hb & Hi & Hd) [Hf Hw Hu Hq]. split; rewrite ?Hb, ?Hi; [done..| |].
  - intros c l Hl. rewrite (usable_config p q) by done. by eapply Hu.
  - intros c l Hl. eapply lookup_weaken_None; [by eapply Hq|done].
Qed.

Lemma inv_owner_unique p c c' l l' : pool_inv p ->
  byClient p !! c = Some l -> byClient p !! c' = Some l' -> ip l = ip l' -> c = c'.
Proof. intros Hp H H' E. apply Hp in H, H'. congruence. Qed.

Section ClearHold.
Context (p : Pool) (c : client).
Context (Hinv : pool_inv p).

Lemma clear_config : same_config p (clear p c).
Proof. unfold clear. by destruct (byClient p !! c). Qed.

Lemma clear_declined : declined (clear p c) = declined p.
Proof. unfold clear. by destruct (byClient p !! c). Qed.

Lemma clear_byClient : byClient (clear p c) = delete c (byClient p).
Proof.
  unfold clear. destruct (byClient p !! c) eqn:E; [done|]. by rewrite delete_id.
Qed.

Lemma clear_byIP a : byIP (clear p c) !! a =
  match byIP p !! a with Some o => if decide (o = c) then None else Some o | None => None end.
Proof using Hinv.
  unfold clear. destruct (byClient p !! c) as [l|] eqn:E; cbn [byIP with_maps].
  - pose proof (inv_fwd p Hinv _ _ E) as Hf. destruct (decide (ip l = a)) as [<-|Hne].
    + rewrite lookup_delete_eq, Hf. by rewrite decide_True.
    + rewrite lookup_delete_ne by done. destruct (byIP p !! a) as [o|] eqn:Ea; [|done].
      case_decide as Ho; [|done]. subst o. apply (inv_bwd p Hinv) in Ea as (l' & Hl' & Ha). congruence.
  - destruct (byIP p !! a) as [o|] eqn:Ea; [|done]. case_decide as Ho; [|done].
    subst o. apply (inv_bwd p Hinv) in Ea as (l' & Hl' & Ha). congruence.
Qed.

Lemma clear_inv : pool_inv (clear p c).
Proof using Hinv.
  split.
  - intros c' l. rewrite clear_byClient, clear_byIP. intros [Hne Hl]%lookup_delete_Some.
    apply (inv_fwd p Hinv) in Hl. rewrite Hl. by rewrite decide_False.
  - intros a c'. rewrite clear_byIP, clear_byClient.
    destruct (byIP p !! a) as [o|] eqn:Ea; [|done]. case_decide as Ho; [done|]. intros [= <-].
    apply (inv_bwd p Hinv) in Ea as (l & Hl & Ha). exists l. by rewrite lookup_delete_ne.
  - intros c' l. rewrite clear_byClient. intros [_ Hl]%lookup_delete_Some.
    rewrite (usable_config p) by apply clear_config. by eapply Hinv.
  - intros c' l. rewrite clear_byClient, clear_declined. intros [_ Hl]%lookup_delete_Some.
    by eapply (inv_declined p Hinv).
Qed.

Context (a : Addr) (now : Z) (st : bindingState).
Let dur := match st with bindingCommitted => duration p | bindingOffered => offerHoldTime end.

Lemma hold_config : same_config p (hold p c a now st).
Proof. unfold hold. apply clear_config. Qed.

Lemma hold_declined : declined (hold p c a now st) = declined p.
Proof. unfold hold. apply clear_declined. Qed.

(** After [hold], the client has the address; the client that had it, if any,
    has lost its lease; nobody else is affected. *)
Lemma hold_byClient c' : byClient (hold p c a now st) !! c' =
  if decide (c' = c) then Some (mkLease a (now + dur) st)
  else match byClient p !! c' with
       | Some l => if decide (ip l = a) then None else Some l | None => None end.
Proof using Hinv.
  unfold hold. cbn [byClient with_maps]. case_decide as Hc.
  { subst c'. rewrite lookup_insert_eq. do 2 f_equal. destruct st; [done|].
    by destruct clear_config as (_&_&_&_&->). }
  rewrite lookup_insert_ne by done. rewrite clear_byIP.
  destruct (byIP p !! a) as [o|] eqn:Ea.
  - pose proof Ea as Eo. apply (inv_bwd p Hinv) in Eo as (lo & Hlo & Hao). case_decide as Ho.
    + subst o. rewrite clear_byClient, lookup_delete_ne by done.
      destruct (byClient p !! c') as [l|] eqn:El; [|done]. rewrite decide_False; [done|].
      intros Hl. apply Hc. by eapply inv_owner_unique; [..|rewrite Hl].
    + destruct (decide (c' = o)) as [->|Hno].
      * rewrite lookup_delete_eq, Hlo. by rewrite decide_True.
      * rewrite lookup_delete_ne, clear_byClient, lookup_delete_ne by done.
        destruct (byClient p !! c') as [l|] eqn:El; [|done]. rewrite decide_False; [done|].
        intros Hl. apply Hno. by eapply inv_owner_unique; [..|rewrite Hl].
  - rewrite clear_byClient, lookup_delete_ne by done.
    destruct (byClient p !! c') as [l|] eqn:El; [|done]. rewrite decide_False; [done|].
    intros Hl. apply (inv_fwd p Hinv) in El. congruence.
Qed.

Lemma hold_byIP a' : byIP (hold p c a now st) !! a' =
  if decide (a' = a) then Some c
  else match byIP p !! a' with
       | Some o => if decide (o = c) then None else Some o | None => None end.
Proof using Hinv.
  unfold hold. cbn [byIP with_maps]. case_decide as Ha.
  - subst. apply lookup_insert_eq.
  - rewrite lookup_insert_ne by done. apply clear_byIP.
Qed.

Lemma hold_inv : usable p a = true -> declined p !! a = None ->
  pool_inv (hold p c a now st).
Proof using Hinv.
  intros Hu Hd. split.
  - intros c' l. rewrite hold_byClient, hold_byIP. case_decide as Hc.
    + intros [= <-]. cbn. by rewrite decide_True, Hc.
    + destruct (byClient p !! c') as [l'|] eqn:El; [|done]. case_decide as Ha; [done|]. intros [= ->].
      apply (inv_fwd p Hinv) in El. by rewrite decide_False, El, decide_False.
  - intros a' c'. rewrite hold_byIP. case_decide as Ha.
    + intros [= <-]. eexists. rewrite hold_byClient, decide_True by done. done.
    + destruct (byIP p !! a') as [o|] eqn:Ea; [|done]. case_decide as Ho; [done|]. intros [= <-].
      apply (inv_bwd p Hinv) in Ea as (l & Hl & Hla). exists l. rewrite hold_byClient, Hl.
      rewrite decide_False by done. rewrite decide_False by congruence. done.
  - intros c' l. rewrite hold_byClient, (usable_config p) by apply hold_config.
    case_decide; [by intros [= <-]|].
    destruct (byClient p !! c') as [l'|] eqn:El; [|done]. case_decide; [done|]. intros [= ->].
    by eapply Hinv.
  - intros c' l. rewrite hold_byClient, hold_declined. case_decide; [by intros [= <-]|].
    destruct (byClient p !! c') as [l'|] eqn:El; [|done]. case_decide; [done|]. intros [= ->].
    by eapply (inv_declined p Hinv).
Qed.

(** A lease of another client that does not have the address stays. *)
Lemma hold_other c' l : c' <> c -> byClient p !! c' = Some l -> ip l <> a ->
  byClient (hold p c a now st) !! c' = Some l.
Proof using Hinv. intros Hc Hl Ha. by rewrite hold_byClient, decide_False, Hl, decide_False. Qed.
End ClearHold.

(** ** Quarantine and availability *)

Definition quarantined (p : Pool) (a : Addr) (now : Z) : bool :=
  match declined p !! a with Some until => now <? until | None => false end.

(** What nextFree looks for. *)
Definition available (p : Pool) (c : client) (now : Z) (a : Addr) : bool :=
  usable p a && negb (quarantined p a now) && isFree p a c now.

(** The leases are the same and, from [now] on, the quarantines too. *)
Definition same_from (now : Z) (p q : Pool) : Prop :=
  same_leases p q /\ forall a t, now <= t -> quarantined q a t = quarantined p a t.

#[export] Instance same_from_preorder now : PreOrder (same_from now).
Proof.
  split; [by intros p|]. intros p q r [? H1] [? H2]. split; [by etrans|].
  intros a t Ht. by rewrite H2, H1.
Qed.

Lemma isFree_leases p q a c now : same_leases p q -> isFree q a c now = isFree p a c now.
Proof. intros (_ & Hb & Hi & _). unfold isFree. by rewrite Hb, Hi. Qed.

Lemma available_from now p q c a : same_from now p q -> available q c now a = available p c now a.
Proof.
  intros [Hs Hq]. unfold available.
  rewrite (isFree_leases p q), (usable_config p q), Hq by (done || apply Hs || lia). done.
Qed.

Lemma allocatable_spec p a now b q : allocatable p a now = (b, q) ->
  b = usable p a && negb (quarantined p a now) /\ same_from now p q
  /\ (b = true -> declined q !! a = None).
Proof.
  unfold allocatable, quarantined. destruct (declined p !! a) as [u|] eqn:E.
  - destruct (Z.ltb_spec now u) as [Hn|Hn]; intros [= <- <-].
    + rewrite andb_false_r. split; [done|]. split; [done|done].
    + split; [by rewrite andb_true_r|]. split; [|intros _; apply lookup_delete_eq].
      split; [repeat split; apply delete_subseteq|].
      intros a' t Ht. unfold quarantined. cbn. destruct (decide (a = a')) as [<-|].
      * rewrite lookup_delete_eq, E. symmetry. apply Z.ltb_ge. lia.
      * by rewrite lookup_delete_ne.
  - intros [= <- <-]. rewrite andb_true_r. split; [done|]. split; [done|done].
Qed.


(** ** The subnet *)

(** [n] and [size] are the network address and the number of addresses of the
    pool's subnet. *)
Record subnet_is (p : Pool) (n bits : Z) : Prop := {
  sn_subnet : subnet p = mkPrefix (A4 n) bits;
  sn_bits : 1 <= bits <= 30;
  sn_range : 0 <= n /\ n + 2 ^ (32 - bits) <= 2 ^ 32;
  sn_aligned : n mod 2 ^ (32 - bits) = 0;
  sn_network : network p = A4 n;
  sn_broadcast : broadcast p = A4 (n + 2 ^ (32 - bits) - 1);
  sn_server : exists s, serverIP p = A4 s /\ n <= s < n + 2 ^ (32 - bits) }.

Lemma subnet_is_config p q n bits : same_config p q -> subnet_is p n bits -> subnet_is q n bits.
Proof.
  intros (Hs & Hv & Hn & Hb & _) [? ? ? ? ? ? (s & ? & ?)]. split; try congruence.
  exists s. split; [congruence|done].
Qed.

Lemma subnet_contains p n bits a : subnet_is p n bits ->
  Contains (subnet p) a = true <-> exists v, a = A4 v /\ n <= v < n + 2 ^ (32 - bits).
Proof.
  intros [Hs Hb Hr Ha _ _ _]. rewrite Hs.
  pose proof (Z.div_mod n (2 ^ (32 - bits)) ltac:(apply Z.pow_nonzero; lia)) as Hn.
  split.
  - destruct a as [|v|v z]; unfold Contains; cbn [paddr Zone pbits]; rewrite ?andb_false_r; [done| |done].
    intros Hc. apply Contains4 in Hc; [|lia]. exists v. split; [done|lia].
  - intros (v & -> & Hv). apply Contains4; lia.
Qed.

Lemma usable_spec p n bits a : subnet_is p n bits ->
  usable p a = true <->
  exists v, a = A4 v /\ n < v < n + 2 ^ (32 - bits) - 1 /\ a <> serverIP p.
Proof.
  intros Hp. unfold usable. rewrite !andb_true_iff, !negb_true_iff, !bool_decide_eq_false.
  rewrite (subnet_contains p n bits) by done. rewrite (sn_network _ _ _ Hp), (sn_broadcast _ _ _ Hp).
  split.
  - intros ((((_ & v & -> & Hv) & Hn) & Hb) & Hsv). exists v. split; [done|]. split; [|done].
    assert (v <> n) by congruence. assert (v <> n + 2 ^ (32 - bits) - 1) by congruence. lia.
  - intros (v & -> & Hv & Hsv). split_and!; try done; [|intros [= ->]; lia..].
    exists v. split; [done|lia].
Qed.

(** The address of value [v], past the last one the zero Addr. *)
Definition addr_at (v : Z) : Addr := if v =? 2 ^ 32 then AInvalid else A4 v.

Lemma nextFree_loop_spec p n bits c now fuel v : subnet_is p n bits ->
  n <= v <= n + 2 ^ (32 - bits) -> n + 2 ^ (32 - bits) - v <= Z.of_nat fuel ->
  match nextFree_loop fuel p (addr_at v) c now with
  | (Some a, q) => exists w, a = A4 w /\ v <= w < n + 2 ^ (32 - bits)
      /\ available p c now a = true
      /\ (forall u, v <= u < w -> available p c now (A4 u) = false)
      /\ same_from now p q /\ declined q !! a = None
  | (None, q) => (forall u, v <= u < n + 2 ^ (32 - bits) -> available p c now (A4 u) = false)
      /\ same_from now p q
  end.
Proof.
  revert p v. induction fuel as [|fuel IH]; intros p v Hp Hv Hf; cbn [nextFree_loop].
  { split; [intros u; lia|done]. }
  pose proof (sn_range _ _ _ Hp) as Hr. destruct (Z.eqb_spec v (2 ^ 32)) as [He|He].
  { replace (addr_at v) with AInvalid by (unfold addr_at; by rewrite (proj2 (Z.eqb_eq _ _) He)).
    cbn [IsValid andb]. split; [intros u; lia|done]. }
  replace (addr_at v) with (A4 v) by (unfold addr_at; by rewrite (proj2 (Z.eqb_neq _ _) He)).
  cbn [IsValid andb].
  destruct (Contains (subnet p) (A4 v)) eqn:Hc. cbn beta iota.
  2: { split; [|done]. intros u Hu. exfalso. apply not_true_iff_false in Hc. apply Hc.
       apply (subnet_contains p n bits); [done|]. exists v. split; [done|lia]. }
  apply (subnet_contains p n bits) in Hc as (w & [= <-] & Hw); [|done].
  destruct (allocatable p (A4 v) now) as [b q] eqn:Ea.
  apply allocatable_spec in Ea as (-> & Hq & Hd).
  rewrite (isFree_leases p q) by apply Hq. fold (available p c now (A4 v)).
  destruct (available p c now (A4 v)) eqn:Hav.
  - exists v. split; [done|]. split; [lia|]. split; [done|]. split; [intros u; lia|].
    split; [done|]. apply Hd. unfold available in Hav. by apply andb_true_iff in Hav as [? _].
  - change (Next (A4 v)) with (addr_at (v + 1)).
    specialize (IH q (v + 1) (subnet_is_config _ _ _ _ (proj1 (proj1 Hq)) Hp) ltac:(lia) ltac:(lia)).
    destruct (nextFree_loop fuel q (addr_at (v + 1)) c now) as [[a|] r].
    + destruct IH as (w' & -> & Hw' & Ha & Hu & Hs & Hdr). exists w'.
      rewrite (available_from now p q) in Ha by done.
      split; [done|]. split; [lia|]. split; [done|]. split; [|split; [by etrans|done]].
      intros u Hu'. destruct (decide (u = v)) as [->|]; [done|].
      rewrite <- (available_from now p q) by done. apply Hu. lia.
    + destruct IH as (Hu & Hs). split; [|by etrans].
      intros u Hu'. destruct (decide (u = v)) as [->|]; [done|].
      rewrite <- (available_from now p q) by done. apply Hu. lia.
Qed.

(** nextFree returns the lowest available address, or nothing when there is
    none; the fuel covers the whole subnet. *)
Lemma nextFree_spec p n bits c now : subnet_is p n bits ->
  match nextFree p c now with
  | (Some a, q) => available p c now a = true
      /\ (forall u w, a = A4 w -> u < w -> available p c now (A4 u) = false)
      /\ same_from now p q /\ declined q !! a = None
  | (None, q) => (forall a, available p c now a = false) /\ same_from now p q
  end.
Proof.
  intros Hp. unfold nextFree. rewrite (sn_subnet _ _ _ Hp), (sn_network _ _ _ Hp). cbn [pbits].
  change (Next (A4 n)) with (addr_at (n + 1)).
  pose proof (sn_bits _ _ _ Hp). pose proof (Z.pow_pos_nonneg 2 (32 - bits) ltac:(lia) ltac:(lia)).
  assert (forall a, available p c now a = true -> exists v, a = A4 v /\ n + 1 <= v < n + 2 ^ (32 - bits)) as Hin.
  { intros a Ha. unfold available in Ha. apply andb_true_iff in Ha as [[Hu _]%andb_true_iff _].
    apply (usable_spec p n bits) in Hu as (v & -> & Hv & _); [|done]. exists v. split; [done|lia]. }
  pose proof (nextFree_loop_spec p n bits c now (Z.to_nat (2 ^ (32 - bits))) (n + 1) Hp ltac:(lia) ltac:(lia)) as HL.
  destruct (nextFree_loop _ p (addr_at (n + 1)) c now) as [[a|] q].
  - destruct HL as (w & -> & Hw & Ha & Hu & Hs & Hd). split; [done|]. split; [|done].
    intros u w' [= <-] Huw. apply not_true_iff_false. intros Hav.
    destruct (Hin _ Hav) as (v & [= <-] & Hv). rewrite Hu in Hav; [done|lia].
  - destruct HL as (Hu & Hs). split; [|done]. intros a. apply not_true_iff_false. intros Hav.
    destruct (Hin _ Hav) as (v & -> & Hv). rewrite Hu in Hav; [done|lia].
Qed.

(** ** The operations *)

(** A lease that is neither expired nor missing. *)
Definition live (p : Pool) (c : client) (l : lease) (now : Z) : Prop :=
  byClient p !! c = Some l /\ expired l now = false.

(** An address free for a client is held by no other client with a live
    lease. *)
Lemma isFree_not_live p a c c' l now : pool_inv p -> isFree p a c now = true ->
  live p c' l now -> c' <> c -> ip l <> a.
Proof.
  intros Hp Hf [Hl He] Hc Ha. apply (inv_fwd p Hp) in Hl as Hi. unfold isFree in Hf.
  rewrite <- Ha, Hi, Hl in Hf. cbn in Hf. rewrite He in Hf.
  rewrite bool_decide_eq_false_2 in Hf by done. done.
Qed.

(** Granting an address free for the client. *)
Lemma hold_grant p q c a now st : pool_inv p -> same_from now p q ->
  usable p a = true -> declined q !! a = None -> isFree p a c now = true ->
  pool_inv (hold q c a now st) /\ same_config p (hold q c a now st)
  /\ (forall c' l, c' <> c -> live p c' l now -> byClient (hold q c a now st) !! c' = Some l).
Proof.
  intros Hp [Hq Hqt] Hu Hd Hf. pose proof (pool_inv_leases _ _ Hq Hp) as Hiq.
  split; [|split].
  - apply hold_inv; [done| |done]. by rewrite (usable_config p q) by apply Hq.
  - etrans; [apply Hq|apply hold_config].
  - intros c' l Hc Hl. pose proof (isFree_not_live _ _ _ _ _ _ Hp Hf Hl Hc).
    destruct Hl as [Hl _]. apply hold_other; try done. by rewrite (proj1 (proj2 Hq)).
Qed.

(** The state a client's lease is offered in: the state of the live lease it
    has, a mere offer otherwise. *)
Definition offer_state (p : Pool) (c : client) (a : Addr) (now : Z) (st : bindingState) : Prop :=
  st = bindingOffered \/ exists l, live p c l now /\ ip l = a /\ st = state l.

Lemma Offer_requested_spec p n bits c requested now : subnet_is p n bits ->
  match Offer_requested p c requested now with
  | (Some a, q') => exists q, same_from now p q /\ q' = hold q c a now bindingOffered
      /\ available p c now a = true /\ declined q !! a = None
      /\ (available p c now requested = true -> a = requested)
      /\ (available p c now requested = false ->
          forall u w, a = A4 w -> u < w -> available p c now (A4 u) = false)
  | (None, q) => same_from now p q /\ forall a, available p c now a = false
  end.
Proof.
  intros Hp. unfold Offer_requested. destruct (allocatable p requested now) as [b q] eqn:E.
  apply allocatable_spec in E as (-> & Hq & Hd). rewrite (isFree_leases p q) by apply Hq.
  fold (available p c now requested). destruct (available p c now requested) eqn:Hav.
  - exists q. pose proof Hav as Hav'. unfold available in Hav'. apply andb_true_iff in Hav' as [Hav' _].
    split; [done|]. split; [done|]. split; [done|]. split; [auto|done].
  - pose proof (nextFree_spec q n bits c now (subnet_is_config _ _ _ _ (proj1 (proj1 Hq)) Hp)) as HN.
    destruct (nextFree q c now) as [[a|] r].
    + destruct HN as (Ha & Hu & Hr & Hdr). rewrite (available_from now p q) in Ha by done.
      exists r. split; [by etrans|]. split; [done|]. split; [done|]. split; [done|]. split; [done|].
      intros _ u w Hw Hlt. rewrite <- (available_from now p q) by done. by eapply Hu.
    + destruct HN as (Hu & Hr). split; [by etrans|]. intros a.
      rewrite <- (available_from now p q) by done. apply Hu.
Qed.

Lemma Offer_spec p n bits c requested now : pool_inv p -> subnet_is p n bits ->
  match Pool_Offer p c requested now with
  | (Some a, q') => exists q st, same_from now p q /\ q' = hold q c a now st
      /\ available p c now a = true /\ declined q !! a = None
      /\ offer_state p c a now st
      /\ (forall l, live p c l now -> a = ip l /\ st = state l)
  | (None, q) => same_from now p q /\ (forall a, available p c now a = false)
      /\ (forall l, ~ live p c l now)
  end.
Proof.
  intros Hi Hp. pose proof (Offer_requested_spec p n bits c requested now Hp) as HR.
  unfold Pool_Offer. destruct (byClient p !! c) as [l|] eqn:El.
  - destruct (expired l now) eqn:Ex; cbn [negb].
    + destruct (Offer_requested p c requested now) as [[a|] q'].
      * destruct HR as (q & ? & ? & ? & ? & _). exists q, bindingOffered.
        repeat (split; [done|]). split; [by left|]. intros l' [Hl' Hx']. congruence.
      * destruct HR as [? ?]. repeat (split; [done|]). intros l' [Hl' Hx']. congruence.
    + destruct (allocatable p (ip l) now) as [b q] eqn:E. apply allocatable_spec in E as (-> & Hq & Hd).
      pose proof (inv_usable p Hi _ _ El) as Hu. pose proof (inv_declined p Hi _ _ El) as Hdl.
      assert (quarantined p (ip l) now = false) as Hqn by (unfold quarantined; by rewrite Hdl).
      rewrite Hu, Hqn in Hd |- *. cbn [negb andb] in Hd |- *.
      exists q, (state l). repeat (split; [done|]). split.
      { unfold available, isFree. rewrite Hu, Hqn, (inv_fwd p Hi _ _ El).
        by rewrite bool_decide_eq_true_2. }
      split; [auto|]. split; [right; by exists l|]. intros l' [Hl' _].
      rewrite El in Hl'. by injection Hl' as <-.
  - destruct (Offer_requested p c requested now) as [[a|] q'].
    + destruct HR as (q & ? & ? & ? & ? & _). exists q, bindingOffered.
      repeat (split; [done|]). split; [by left|]. intros l' [Hl' Hx']. congruence.
    + destruct HR as [? ?]. repeat (split; [done|]). intros l' [Hl' Hx']. congruence.
Qed.

Lemma Offer_inv p n bits c requested now : pool_inv p -> subnet_is p n bits ->
  pool_inv (snd (Pool_Offer p c requested now))
  /\ same_config p (snd (Pool_Offer p c requested now)).
Proof.
  intros Hi Hp. pose proof (Offer_spec p n bits c requested now Hi Hp) as H.
  destruct (Pool_Offer p c requested now) as [[a|] q']; cbn [snd].
  - destruct H as (q & st & Hq & -> & Ha & Hd & _).
    unfold available in Ha. rewrite !andb_true_iff in Ha. destruct Ha as [[Hu _] Hf].
    destruct (hold_grant p q c a now st Hi Hq Hu Hd Hf) as (? & ? & _). done.
  - destruct H as (Hq & _). split; [by eapply pool_inv_leases; [apply Hq|]|apply Hq].
Qed.

(** Committing an address the client holds (what Handle does after Binding). *)
Lemma Commit_bound_inv p c a now : pool_inv p -> Binding p c now = Some a ->
  pool_inv (Commit p c a now) /\ same_config p (Commit p c a now).
Proof.
  intros Hi Hb. unfold Binding in Hb. destruct (byClient p !! c) as [l|] eqn:El; [|done].
  destruct (expired l now); [done|]. injection Hb as <-. split; [|apply hold_config].
  apply hold_inv; [done|by eapply inv_usable|by eapply inv_declined].
Qed.

Lemma CancelOffer_inv p c : pool_inv p -> pool_inv (CancelOffer p c) /\ same_config p (CancelOffer p c).
Proof.
  intros Hi. unfold CancelOffer. destruct (byClient p !! c) as [l|]; [|done].
  destruct (state l); [|done]. split; [by apply clear_inv|apply clear_config].
Qed.

Lemma Release_inv p c a : pool_inv p -> pool_inv (Pool_Release p c a) /\ same_config p (Pool_Release p c a).
Proof.
  intros Hi. unfold Pool_Release. destruct (byIP p !! a) as [o|]; [|done].
  case_decide; [|done]. split; [by apply clear_inv|apply clear_config].
Qed.

Lemma Decline_inv p c a now : pool_inv p -> pool_inv (Pool_Decline p c a now) /\ same_config p (Pool_Decline p c a now).
Proof.
  intros Hi. unfold Pool_Decline. destruct (byIP p !! a) as [o|] eqn:Ea; [|done].
  case_decide as Ho; [|done]. subst o.
  apply (inv_bwd p Hi) in Ea as (l & Hl & Hla).
  set (p' := with_declined p _).
  split; [|etrans; [|apply clear_config]; done].
  (* the quarantined address is released at the same time *)
  assert (clear p' c = with_declined (clear p c) (<[a := now + declineQuarantine]> (declined p))) as ->.
  { unfold clear, p'. cbn. by rewrite Hl. }
  destruct (clear_inv p c Hi) as [Hf Hw Hu Hd]. split; cbn; [done..| |].
  - intros c' l' Hl'. by apply Hu in Hl'.
  - intros c' l' Hl'. destruct (decide (ip l' = a)) as [Ha|Ha].
    + exfalso. rewrite clear_byClient in Hl'. apply lookup_delete_Some in Hl' as [Hc Hl'].
      apply Hc. eapply inv_owner_unique; [done..|congruence].
    + rewrite lookup_insert_ne by done. rewrite <- (clear_declined p c). by eapply Hd.
Qed.

(** ** Building and restoring a pool *)

Lemma lastAddr_spec n bits : 1 <= bits <= 30 -> 0 <= n < 2 ^ 32 -> n mod 2 ^ (32 - bits) = 0 ->
  lastAddr (mkPrefix (A4 n) bits) = Ret (A4 (n + 2 ^ (32 - bits) - 1))
  /\ n + 2 ^ (32 - bits) <= 2 ^ 32.
Proof.
  intros Hb Hn Ha. set (k := 32 - bits).
  assert (0 < 2 ^ k) by (apply Z.pow_pos_nonneg; lia).
  assert (2 ^ k <= 2 ^ 31) by (apply Z.pow_le_mono_r; lia).
  pose proof (Z.div_mod n (2 ^ k) ltac:(lia)) as Hd. fold k in Ha. rewrite Ha in Hd.
  assert (n + 2 ^ k <= 2 ^ 32) as Hr.
  { assert (2 ^ 32 = 2 ^ k * 2 ^ bits) as H32 by (rewrite <- Z.pow_add_r by lia; f_equal; lia).
    assert (n / 2 ^ k < 2 ^ bits) by (apply Z.div_lt_upper_bound; [lia|]; rewrite <- H32; lia).
    rewrite H32. nia. }
  split; [|done]. unfold lastAddr. cbn [paddr pbits As4]. rewrite bind_ret. fold k.
  rewrite unbe_be_id by (change (256 ^ Z.of_nat 4) with (2 ^ 32); lia).
  rewrite Z.shiftl_1_l, (Z.mod_small _ (2 ^ 64)), Z.mod_small by lia.
  assert (Z.lor n (2 ^ k - 1) = n + 2 ^ k - 1) as ->.
  { replace n with (Z.shiftl (n / 2 ^ k) k) at 1 by (rewrite Z.shiftl_mul_pow2; lia).
    rewrite lor_shiftl_add by lia. lia. }
  f_equal. apply AddrFrom4_be. lia.
Qed.

Lemma empty_inv p : byClient p = ∅ -> byIP p = ∅ -> pool_inv p.
Proof.
  intros Hb Hi. split; rewrite ?Hb, ?Hi; intros ? ?; by rewrite ?lookup_empty.
Qed.

(** NewPool accepts exactly the IPv4 subnets of 1 to 30 bits that contain the
    IPv4 server address, and then builds an empty pool on the masked subnet. *)
Lemma NewPool_spec v bits server dur : 0 <= v < 2 ^ 32 -> -1 <= bits <= 32 ->
  let sub := mkPrefix (A4 v) bits in
  if bool_decide (1 <= bits <= 30) && Is4 server && Contains sub server
  then exists p, NewPool sub server dur = Ret p
       /\ subnet_is p (v / 2 ^ (32 - bits) * 2 ^ (32 - bits)) bits /\ pool_inv p
       /\ byClient p = ∅ /\ byIP p = ∅ /\ declined p = ∅ /\ duration p = dur /\ serverIP p = server
  else exists e, NewPool sub server dur = Fail e.
Proof.
  intros Hv Hb sub. unfold NewPool.
  assert (prefix_wf sub) as Hwf by (split; [done|split; [done|cbn; lia]]).
  rewrite Contains_Masked by done. subst sub.
  destruct (Z_lt_le_dec bits 0) as [Hneg|Hnn].
  { unfold Masked, prefix_IsValid. cbn [pbits paddr].
    replace (0 <=? bits) with false by (symmetry; apply Z.leb_gt; lia).
    rewrite bool_decide_eq_false_2 by lia. eexists. reflexivity. }
  assert (Masked (mkPrefix (A4 v) bits) = mkPrefix (A4 (v / 2 ^ (32 - bits) * 2 ^ (32 - bits))) bits) as ->.
  { unfold Masked, prefix_IsValid. cbn [pbits paddr].
    replace (0 <=? bits) with true by (symmetry; apply Z.leb_le; lia).
    by rewrite clear_low_spec by lia. }
  cbn [paddr pbits Is4 negb]. set (n := v / 2 ^ (32 - bits) * 2 ^ (32 - bits)).
  destruct (decide (1 <= bits <= 30)) as [Hr|Hr].
  2: { rewrite bool_decide_eq_false_2 by done.
       replace ((bits <? 1) || (30 <? bits)) with true
         by (symmetry; apply orb_true_iff; rewrite !Z.ltb_lt; lia). eexists. reflexivity. }
  rewrite bool_decide_eq_true_2 by done.
  replace ((bits <? 1) || (30 <? bits)) with false
    by (symmetry; apply orb_false_iff; rewrite !Z.ltb_ge; lia).
  destruct (Is4 server) eqn:Hs4; cbn [negb orb andb]; [|by eexists].
  destruct (Contains (mkPrefix (A4 v) bits) server) eqn:Hc; cbn [negb]; [|by eexists].
  assert (0 < 2 ^ (32 - bits)) by (apply Z.pow_pos_nonneg; lia).
  assert (n mod 2 ^ (32 - bits) = 0) as Hal by (unfold n; apply Z.mod_mul; lia).
  assert (0 <= n <= v) as Hn by (unfold n; pose proof (Z.mul_div_le v (2 ^ (32 - bits))); pose proof (Z.div_pos v (2 ^ (32 - bits))); lia).
  destruct (lastAddr_spec n bits Hr ltac:(lia) Hal) as [-> Hup]. rewrite bind_ret.
  destruct server as [|s|s z]; [done| |done]. eexists. split; [reflexivity|].
  split; [|split; [by apply empty_inv|done]].
  split; cbn; try done; [lia|]. exists s. split; [done|]. apply Contains4 in Hc; [|lia]. fold n in Hc. lia.
Qed.

(** Restoring a lease whose address has no previous owner. *)
Lemma Restore_inv p c l now : pool_inv p -> (forall o, byIP p !! IP l = Some o -> o = c) ->
  pool_inv (snd (Pool_Restore p c l now)) /\ same_config p (snd (Pool_Restore p c l now)).
Proof.
  intros Hi Ho. unfold Pool_Restore. destruct (negb (now <? Expiry l)); [done|].
  destruct (allocatable p (IP l) now) as [b q] eqn:E. apply allocatable_spec in E as (-> & Hq & Hd).
  pose proof (pool_inv_leases _ _ (proj1 Hq) Hi) as Hiq.
  destruct (negb _ || _) eqn:Hf; [split; [done|apply Hq]|].
  apply orb_false_iff in Hf as [Hb%negb_false_iff _]. specialize (Hd Hb).
  apply andb_true_iff in Hb as [Hu _]. cbn [snd].
  split; [|etrans; [apply Hq|apply clear_config]].
  (* with no other owner the update is that of hold *)
  assert (forall o, byIP (clear q c) !! IP l = Some o -> False) as Hno.
  { intros o. rewrite clear_byIP by done. rewrite (proj1 (proj2 (proj2 (proj1 Hq)))).
    destruct (byIP p !! IP l) as [o'|] eqn:Eo; [|done]. rewrite (Ho o' eq_refl). by rewrite decide_True. }
  destruct (clear_inv q c Hiq) as [Hf' Hw' Hu' Hd']. split; cbn.
  - intros c' l'. destruct (decide (c = c')) as [<-|Hc].
    + rewrite lookup_insert_eq. intros [= <-]. apply lookup_insert_eq.
    + rewrite lookup_insert_ne by done. intros Hl'. rewrite lookup_insert_ne; [by apply Hf'|].
      intros Heq. eapply (Hno c'). rewrite Heq. by apply Hf'.
  - intros a c'. destruct (decide (IP l = a)) as [<-|Ha].
    + rewrite lookup_insert_eq. intros [= <-]. eexists. by rewrite lookup_insert_eq.
    + rewrite lookup_insert_ne by done. intros Hc'. destruct (Hw' _ _ Hc') as (l' & Hl' & Hla).
      exists l'. rewrite lookup_insert_ne; [done|]. intros <-.
      rewrite clear_byClient, lookup_delete_eq in Hl'. done.
  - intros c' l'. destruct (decide (c = c')) as [<-|Hc].
    + rewrite lookup_insert_eq. intros [= <-]. rewrite (usable_config p); [done|].
      etrans; [apply Hq|]. apply (clear_config q c).
    + rewrite lookup_insert_ne by done. intros Hl'. by apply Hu' in Hl'.
  - intros c' l'. destruct (decide (c = c')) as [<-|Hc].
    + rewrite lookup_insert_eq. intros [= <-]. cbn. by rewrite clear_declined.
    + rewrite lookup_insert_ne by done. intros Hl'. by apply Hd' in Hl'.
Qed.
