(* ===== verification/Dhcpv4Handler.v ===== *)
(** The DHCPv4 request handler: src/pkg/dhcpv4/handler.go.  [Handle] turns a
    request into the pool after it and the reply to send, if any; a panic can only
    come from an address of the configuration that is not IPv4. *)

From S2P Require Import Prelude Wire Netip Dhcpv4Message Dhcpv4Pool.

Local Open Scope Z_scope.

Record InterfaceConfig : Type := mkConfig {
  Iface : string; ServerIP : Addr; Subnet : Prefix;
  DNSServers : list Addr; MTU : Z; LeaseTime : Z }.

Definition subnetMask (bits : Z) : Addr :=
  let v := if 0 <? bits then u32 (Z.shiftl 0xffffffff (32 - bits)) else 0 in
  AddrFrom4 (be 4 v).

Definition baseReply (req : Message) : Message :=
  mkMessage OpBootReply hardwareTypeEthernet 6 0 (XID req) 0 (Flags req)
    AInvalid AInvalid AInvalid (GIAddr req) (CHAddr req) [] [] [].

Definition configOptions (cfg : InterfaceConfig) : outcome Options :=
  mask ← NewAddr OptSubnetMask (subnetMask (pbits (Subnet cfg)));
  router ← NewAddr OptRouter (ServerIP cfg);
  last ← lastAddr (Masked (Subnet cfg));
  bcast ← NewAddr OptBroadcastAddr last;
  dns ← (if 0 <? zlen (DNSServers cfg)
         then d ← NewAddrs OptDNSServers (DNSServers cfg); Ret [d] else Ret []);
  Ret ([mask; router; bcast] ++ dns
       ++ (if MTU cfg =? 0 then [] else [NewMTU (MTU cfg)])).

Definition with_reply (m : Message) (yi ci : Addr) (flags : Z) (opts : Options) : Message :=
  mkMessage (Op m) (HType m) (HLen m) (Hops m) (XID m) (Secs m) flags
    ci yi (SIAddr m) (GIAddr m) (CHAddr m) (SName m) (File m) opts.

(** T1 is half the lease and T2 seven eighths, in 64-bit integer arithmetic. *)
Definition renewalTime (d : Z) : Z := Z.quot d 2.
Definition rebindingTime (d : Z) : Z := Z.quot (i64 (d * 7)) 8.

Definition buildReply (cfg : InterfaceConfig) (pool : Pool) (req : Message) (mt : Z) (yip : Addr)
  : outcome Message :=
  let m := baseReply req in
  sid ← NewAddr OptServerID (ServerIP cfg);
  conf ← configOptions cfg;
  let d := duration pool in
  Ret (with_reply m yip (CIAddr m) (Flags m)
    ([NewMessageType mt; sid; NewSeconds OptLeaseTime d;
      NewSeconds OptRenewalTime (renewalTime d);
      NewSeconds OptRebindingTime (rebindingTime d)] ++ conf)).

Definition buildInformAck (cfg : InterfaceConfig) (req : Message) : outcome Message :=
  let m := baseReply req in
  sid ← NewAddr OptServerID (ServerIP cfg);
  conf ← configOptions cfg;
  Ret (with_reply m (YIAddr m) (CIAddr req) (Flags m) ([NewMessageType ACK; sid] ++ conf)).

Definition buildNAK (cfg : InterfaceConfig) (req : Message) : outcome Message :=
  let m := baseReply req in
  sid ← NewAddr OptServerID (ServerIP cfg);
  Ret (with_reply m (YIAddr m) (CIAddr m) (Z.lor (Flags m) flagBroadcast)
         [NewMessageType NAK; sid]).

(** A pool and a built reply. *)
Definition reply_with (p : Pool) (m : outcome Message) : outcome (Pool * option Message) :=
  r ← m; Ret (p, Some r).
Definition silent (p : Pool) : outcome (Pool * option Message) := Ret (p, None).

Definition handleRequest (cfg : InterfaceConfig) (pool : Pool) (req : Message)
    (clientID : client) (now : Z) : outcome (Pool * option Message) :=
  let reqIP := Options_RequestedIP (Opts req) in
  match Options_ServerID (Opts req) with
  | Some sid => (* SELECTING *)
    if negb (bool_decide (sid = ServerIP cfg)) then silent (CancelOffer pool clientID)
    else
      match reqIP with
      | None => silent pool
      | Some reqIP =>
        if bool_decide (Binding pool clientID now = Some reqIP)
        then let pool := Commit pool clientID reqIP now in
             reply_with pool (buildReply cfg pool req ACK reqIP)
        else reply_with pool (buildNAK cfg req)
      end
  | None => (* INIT-REBOOT, RENEWING, REBINDING *)
    let target := default (CIAddr req) reqIP in
    if negb (IsValid target) || IsUnspecified target then silent pool
    else
      match Binding pool clientID now with
      | None => silent pool
      | Some bound =>
        if negb (bool_decide (bound = target)) then reply_with pool (buildNAK cfg req)
        else let pool := Commit pool clientID target now in
             reply_with pool (buildReply cfg pool req ACK target)
      end
  end.

Definition Handle (cfg : InterfaceConfig) (pool : Pool) (req : Message) (now : Z)
  : outcome (Pool * option Message) :=
  if negb (Op req =? OpBootRequest) then silent pool
  else if IsValid (GIAddr req) && negb (IsUnspecified (GIAddr req)) then silent pool
  else
    match Options_MessageType (Opts req) with
    | None => silent pool
    | Some mt =>
      let clientID := Options_ClientID (Opts req) (CHAddr req) in
      if mt =? Discover then
        match Pool_Offer pool clientID (default AInvalid (Options_RequestedIP (Opts req))) now with
        | (None, pool) => silent pool
        | (Some ip, pool) => reply_with pool (buildReply cfg pool req Offer ip)
        end
      else if mt =? Request then handleRequest cfg pool req clientID now
      else if mt =? Release then
        match Options_ServerID (Opts req) with
        | Some sid =>
          if bool_decide (sid = ServerIP cfg)
          then silent (Pool_Release pool clientID (CIAddr req)) else silent pool
        | None => silent (Pool_Release pool clientID (CIAddr req))
        end
      else if mt =? Decline then
        match Options_ServerID (Opts req) with
        | Some sid =>
          if bool_decide (sid = ServerIP cfg) then
            match Options_RequestedIP (Opts req) with
            | Some a => silent (Pool_Decline pool clientID a now)
            | None => silent pool
            end
          else silent pool
        | None => silent pool
        end
      else if mt =? Inform then reply_with pool (buildInformAck cfg req)
      else silent pool
    end.

(** ** Building replies never panics for a validated configuration *)

(** The configuration of the interface a pool serves (both come from the same
    [InterfaceConfig] through NewPool), with IPv4 DNS servers. *)
Record cfg_ok (cfg : InterfaceConfig) (p : Pool) : Prop := {
  ok_server : ServerIP cfg = serverIP p;
  ok_subnet : Masked (Subnet cfg) = subnet p;
  ok_dns : Forall (fun a => Is4 a = true) (DNSServers cfg) }.

Lemma cfg_ok_config cfg p q : same_config p q -> cfg_ok cfg p -> cfg_ok cfg q.
Proof. intros (Hs & Hv & _) [? ? ?]. split; congruence. Qed.

Lemma NewAddrs_data_ok addrs : Forall (fun a => Is4 a = true) addrs ->
  exists d, NewAddrs_data addrs = Ret d.
Proof.
  induction 1 as [|a addrs Ha _ [d Hd]]; [by eexists|]. cbn [NewAddrs_data].
  destruct (As4_ok a Ha) as [b ->]. rewrite bind_ret, Hd. by eexists.
Qed.

Section Replies.
Context (cfg : InterfaceConfig) (p : Pool) (n bits : Z).
Context (Hsub : subnet_is p n bits) (Hcfg : cfg_ok cfg p).

Lemma server_option : exists s, NewAddr OptServerID (ServerIP cfg) = Ret (mkOption OptServerID (be 4 s))
  /\ ServerIP cfg = A4 s.
Proof using Hsub Hcfg.
  destruct (sn_server _ _ _ Hsub) as (s & Hs & _). exists s.
  rewrite (ok_server _ _ Hcfg), Hs. done.
Qed.

Lemma configOptions_ok : exists o, configOptions cfg = Ret o.
Proof using Hsub Hcfg.
  unfold configOptions. destruct server_option as (s & _ & ->).
  rewrite (ok_subnet _ _ Hcfg), (sn_subnet _ _ _ Hsub).
  pose proof (sn_range _ _ _ Hsub). pose proof (sn_bits _ _ _ Hsub) as Hb.
  pose proof (Z.pow_pos_nonneg 2 (32 - bits)).
  destruct (lastAddr_spec n bits Hb ltac:(lia) (sn_aligned _ _ _ Hsub)) as [Hl _].
  unfold NewAddr, subnetMask, AddrFrom4. cbn [As4]. rewrite !bind_ret, Hl, bind_ret.
  cbn [As4]. rewrite bind_ret. destruct (0 <? zlen (DNSServers cfg)).
  - destruct (NewAddrs_data_ok _ (ok_dns _ _ Hcfg)) as [d Hd]. unfold NewAddrs.
    rewrite Hd. eexists. reflexivity.
  - eexists. reflexivity.
Qed.

(** The reply granting [yip]: its address fields and its leading options. *)
Lemma buildReply_ok req mt yip : exists conf,
  configOptions cfg = Ret conf /\
  buildReply cfg p req mt yip = Ret (with_reply (baseReply req) yip AInvalid (Flags req)
    ([NewMessageType mt; mkOption OptServerID (be 4 (addr_val (ServerIP cfg)));
      NewSeconds OptLeaseTime (duration p);
      NewSeconds OptRenewalTime (renewalTime (duration p));
      NewSeconds OptRebindingTime (rebindingTime (duration p))] ++ conf)).
Proof using Hsub Hcfg.
  destruct configOptions_ok as [conf Hc]. destruct server_option as (s & Hs & Hv).
  exists conf. split; [done|]. unfold buildReply. by rewrite Hs, Hc, Hv, !bind_ret.
Qed.

Lemma buildNAK_ok req : exists m, buildNAK cfg req = Ret m
  /\ Options_MessageType (Opts m) = Some NAK /\ Broadcast m = true /\ YIAddr m = AInvalid.
Proof using Hsub Hcfg.
  destruct server_option as (s & Hs & Hv). unfold buildNAK. rewrite Hs, bind_ret.
  eexists. split; [reflexivity|]. split; [done|]. split; [|done].
  unfold Broadcast, with_reply. cbn [Flags]. apply negb_true_iff, Z.eqb_neq. intros H0.
  assert (Z.testbit (Z.land (Z.lor (Flags (baseReply req)) flagBroadcast) flagBroadcast) 15 = false) as Hbit
    by (by rewrite H0).
  rewrite Z.land_spec, Z.lor_spec in Hbit. by rewrite orb_true_r in Hbit.
Qed.

Lemma buildInformAck_ok req : exists m, buildInformAck cfg req = Ret m /\ YIAddr m = AInvalid.
Proof using Hsub Hcfg.
  destruct configOptions_ok as [conf Hc]. destruct server_option as (s & Hs & Hv).
  unfold buildInformAck. rewrite Hs, Hc, !bind_ret. by eexists.
Qed.
End Replies.

(** ** What a request can do to the pool *)

Inductive pool_change (p : Pool) (c : client) (now : Z) : Pool -> Prop :=
| chg_none : pool_change p c now p
| chg_offer req : pool_change p c now (snd (Pool_Offer p c req now))
| chg_commit a : Binding p c now = Some a -> pool_change p c now (Commit p c a now)
| chg_cancel : pool_change p c now (CancelOffer p c)
| chg_release a : pool_change p c now (Pool_Release p c a)
| chg_decline a : pool_change p c now (Pool_Decline p c a now).

#[export] Hint Constructors pool_change : wire.

Lemma change_config_hold p c a now st n bits : subnet_is p n bits -> subnet_is (hold p c a now st) n bits.
Proof. apply subnet_is_config, hold_config. Qed.

Lemma pool_change_inv p n bits c now q : pool_inv p -> subnet_is p n bits ->
  pool_change p c now q -> pool_inv q /\ same_config p q.
Proof.
  intros Hi Hp. destruct 1 as [|req|a Hb| |a|a].
  - done.
  - by eapply Offer_inv.
  - by apply Commit_bound_inv.
  - by apply CancelOffer_inv.
  - by apply Release_inv.
  - by apply Decline_inv.
Qed.

Lemma clear_other p c c' : c' <> c -> byClient (clear p c) !! c' = byClient p !! c'.
Proof. intros. rewrite clear_byClient. by apply lookup_delete_ne. Qed.

(** No request touches the live lease of another client. *)
Lemma pool_change_other p n bits c now q c' l : pool_inv p -> subnet_is p n bits ->
  pool_change p c now q -> c' <> c -> live p c' l now -> byClient q !! c' = Some l.
Proof.
  intros Hi Hp Hchg Hc Hl. destruct Hchg as [|req|a Hb| |a|a].
  - apply Hl.
  - pose proof (Offer_spec p n bits c req now Hi Hp) as H.
    destruct (Pool_Offer p c req now) as [[a|] q']; cbn [snd].
    + destruct H as (q & st & Hq & -> & Ha & Hd & _). unfold available in Ha.
      rewrite !andb_true_iff in Ha. destruct Ha as [[Hu _] Hf].
      by apply (hold_grant p q c a now st Hi Hq Hu Hd Hf).
    + destruct H as [Hq _]. rewrite (proj1 (proj2 (proj1 Hq))). apply Hl.
  - unfold Binding in Hb. destruct (byClient p !! c) as [lc|] eqn:Ec; [|done].
    destruct (expired lc now); [done|]. injection Hb as <-.
    apply hold_other; [done|done|apply Hl|]. intros Ha. apply Hc.
    eapply inv_owner_unique; [done|apply Hl|done|done].
  - unfold CancelOffer. destruct (byClient p !! c) as [lc|]; [|apply Hl].
    destruct (state lc); [rewrite clear_other by done|]; apply Hl.
  - unfold Pool_Release. destruct (byIP p !! a) as [o|]; [|apply Hl].
    case_decide; [rewrite clear_other by done|]; apply Hl.
  - unfold Pool_Decline. destruct (byIP p !! a) as [o|]; [|apply Hl].
    case_decide; [rewrite clear_other by done|]; apply Hl.
Qed.

(** Handle returns, and its effect on the pool is one of the above for the
    request's client. *)
Lemma Handle_change cfg p n bits req now : pool_inv p -> subnet_is p n bits -> cfg_ok cfg p ->
  exists q r, Handle cfg p req now = Ret (q, r)
    /\ pool_change p (Options_ClientID (Opts req) (CHAddr req)) now q.
Proof.
  intros Hi Hp Hcfg. set (c := Options_ClientID _ _).
  assert (forall q m, same_config p q -> pool_change p c now q ->
    (exists conf, configOptions cfg = Ret conf /\ m = conf) ->
    forall mt yip, exists q' r, reply_with q (buildReply cfg q req mt yip) = Ret (q', r) /\ pool_change p c now q') as Hrep.
  { intros q m Hq Hchg _ mt yip.
    destruct (buildReply_ok cfg q n bits (subnet_is_config _ _ _ _ Hq Hp) (cfg_ok_config _ _ _ Hq Hcfg) req mt yip)
      as (conf & _ & ->). unfold reply_with. rewrite bind_ret. by do 2 eexists. }
  destruct (configOptions_ok cfg p n bits Hp Hcfg) as [conf Hconf].
  assert (forall q, pool_change p c now q -> forall mt yip, exists q' r,
    reply_with q (buildReply cfg q req mt yip) = Ret (q', r) /\ pool_change p c now q') as Hreply.
  { intros q Hchg. apply (Hrep q conf); [|done|by exists conf].
    by apply (pool_change_inv p n bits c now q). }
  assert (exists q r, reply_with p (buildNAK cfg req) = Ret (q, r) /\ pool_change p c now q) as Hnak.
  { destruct (buildNAK_ok cfg p n bits Hp Hcfg req) as (m & -> & _).
    unfold reply_with. rewrite bind_ret. do 2 eexists. split; [done|constructor]. }
  assert (forall q, pool_change p c now q -> exists q' r, silent q = Ret (q', r) /\ pool_change p c now q') as Hsil
    by (intros q Hq; by do 2 eexists).
  unfold Handle. fold c.
  destruct (negb (Op req =? OpBootRequest)); [auto with wire|].
  destruct (IsValid (GIAddr req) && _); [auto with wire|].
  destruct (Options_MessageType (Opts req)) as [mt|]; [|auto with wire].
  destruct (mt =? Discover).
  { pose proof (chg_offer p c now (default AInvalid (Options_RequestedIP (Opts req)))) as Hchg.
    destruct (Pool_Offer p c _ now) as [[ip|] q]; cbn [snd] in Hchg; auto. }
  destruct (mt =? Request).
  { unfold handleRequest. destruct (Options_ServerID (Opts req)) as [sid|].
    - destruct (negb _); [auto with wire|]. destruct (Options_RequestedIP (Opts req)) as [a|]; [|auto with wire].
      case_bool_decide as Hb; [|done]. apply Hreply. by constructor.
    - destruct (_ || _); [auto with wire|]. destruct (Binding p c now) as [b|] eqn:Hb; [|auto with wire].
      case_bool_decide as Hbt; cbn [negb]; [|done]. subst b. apply Hreply. by constructor. }
  destruct (mt =? Release).
  { destruct (Options_ServerID (Opts req)) as [sid|]; [case_bool_decide|]; auto with wire. }
  destruct (mt =? Decline).
  { destruct (Options_ServerID (Opts req)) as [sid|]; [case_bool_decide|]; auto with wire.
    destruct (Options_RequestedIP (Opts req)); auto with wire. }
  destruct (mt =? Inform); [|auto with wire].
  destruct (buildInformAck_ok cfg p n bits Hp Hcfg req) as (m & -> & _).
  unfold reply_with. rewrite bind_ret. do 2 eexists. split; [done|constructor].
Qed.

(** ** Reachable pools *)

(** The pool a server starts with: NewPool of its configuration, then the kept
    leases put back at one instant (internal/dhcpv4server, restore). *)
Inductive starting (cfg : InterfaceConfig) (now : Z) : Pool -> Prop :=
| start_new p : NewPool (Subnet cfg) (ServerIP cfg) (LeaseTime cfg) = Ret p -> starting cfg now p
| start_restore p c l : starting cfg now p -> starting cfg now (snd (Pool_Restore p c l now)).

Inductive reachable (cfg : InterfaceConfig) : Pool -> Prop :=
| reach_start now p : starting cfg now p -> reachable cfg p
| reach_handle p req now q r : reachable cfg p -> Handle cfg p req now = Ret (q, r) -> reachable cfg q.

(** The requests served one after the other, each at its own time. *)
Fixpoint serve (cfg : InterfaceConfig) (p : Pool) (reqs : list (Z * Message))
  : outcome (Pool * list (option Message)) :=
  match reqs with
  | [] => Ret (p, [])
  | (now, req) :: reqs' =>
    '(q, r) ← Handle cfg p req now;
    '(q', rs) ← serve cfg q reqs';
    Ret (q', r :: rs)
  end.

(** What holds of every reachable pool. *)
Definition good (cfg : InterfaceConfig) (p : Pool) : Prop :=
  pool_inv p /\ cfg_ok cfg p /\ exists n bits, subnet_is p n bits.

Section Reachable.
Context (cfg : InterfaceConfig).
Context (Hwf : prefix_wf (Subnet cfg)).
Context (Hdns : Forall (fun a => Is4 a = true) (DNSServers cfg)).

Lemma NewPool_good p : NewPool (Subnet cfg) (ServerIP cfg) (LeaseTime cfg) = Ret p ->
  good cfg p /\ byClient p = ∅.
Proof using Hwf Hdns.
  intros HN. assert (exists v bits, Subnet cfg = mkPrefix (A4 v) bits /\ 0 <= v < 2 ^ 32 /\ -1 <= bits <= 32)
    as (v & bits & Hs & Hv & Hb).
  { destruct Hwf as (Ha & Hz & Hb). destruct (Subnet cfg) as [[|v|v z] bits] eqn:Hs; cbn in *.
    - exfalso. unfold NewPool, Masked, prefix_IsValid in HN. rewrite ?Hs in HN. cbn in HN.
      by destruct (0 <=? bits).
    - by exists v, bits.
    - exfalso. unfold NewPool, Masked, prefix_IsValid in HN. cbn in HN. by destruct (0 <=? bits). }
  pose proof (NewPool_spec v bits (ServerIP cfg) (LeaseTime cfg) Hv Hb) as HS. cbv zeta in HS.
  rewrite <- Hs, HN in HS. destruct (_ && _ && _); [|by destruct HS].
  destruct HS as (p' & [= <-] & Hsub & Hi & Hbc & _ & _ & _ & Hsv). split; [|done].
  split; [done|]. split; [|by do 2 eexists]. split; [done| |done].
  unfold NewPool in HN. destruct (negb _); [done|]. destruct (_ || _); [done|].
  destruct (_ || _); [done|]. bind_inv HN. by injection HN as <-.
Qed.

Lemma starting_good now p : starting cfg now p ->
  good cfg p /\ forall c l, byClient p !! c = Some l -> expired l now = false.
Proof using Hwf Hdns.
  induction 1 as [p HN|p c l _ [(Hi & Hc & n & bits & Hs) IH]].
  { apply NewPool_good in HN as [? Hb]. split; [done|]. intros c l. by rewrite Hb, lookup_empty. }
  assert (same_leases p (snd (Pool_Restore p c l now)) \/
          ((forall o, byIP p !! IP l = Some o -> o = c) /\ expired (mkLease (IP l) (Expiry l) bindingCommitted) now = false)) as Hcase.
  { unfold Pool_Restore, expired. cbn [expiry].
    destruct (now <? Expiry l) eqn:Ex; cbn [negb]; [|by left].
    destruct (allocatable p (IP l) now) as [b q] eqn:E. apply allocatable_spec in E as (_ & [Hq _] & _).
    destruct (negb b || negb (isFree q (IP l) c now)) eqn:Ef; [by left|].
    apply orb_false_iff in Ef as [_ Ef%negb_false_iff]. rewrite (isFree_leases p q) in Ef by done.
    right. split; [|done]. intros o Ho. unfold isFree in Ef. rewrite Ho in Ef.
    apply (inv_bwd p Hi) in Ho as (lo & Hlo & _). rewrite Hlo in Ef. cbn in Ef.
    rewrite (IH _ _ Hlo), orb_false_r in Ef. by apply bool_decide_eq_true in Ef. }
  destruct Hcase as [Hq|[Ho Hx]].
  - split; [|intros c' l'; rewrite (proj1 (proj2 Hq)); apply IH].
    split; [by eapply pool_inv_leases|]. split; [by eapply cfg_ok_config; [apply Hq|]|].
    exists n, bits. by eapply subnet_is_config; [apply Hq|].
  - destruct (Restore_inv p c l now Hi Ho) as [Hi' Hc']. split.
    + split; [done|]. split; [by eapply cfg_ok_config|]. exists n, bits. by eapply subnet_is_config.
    + intros c' l'. unfold Pool_Restore. destruct (negb _); [apply IH|].
      destruct (allocatable p (IP l) now) as [b q] eqn:E. apply allocatable_spec in E as (_ & [Hq _] & _).
      destruct (_ || _); cbn [snd].
      { rewrite (proj1 (proj2 Hq)). apply IH. }
      cbn [byClient with_maps]. rewrite clear_byClient, (proj1 (proj2 Hq)).
      intros [[<- <-]|[Hne [_ Hl']%lookup_delete_Some]]%lookup_insert_Some; [done|by eapply IH].
Qed.

Lemma Handle_good p req now q r : good cfg p -> Handle cfg p req now = Ret (q, r) ->
  good cfg q /\ pool_change p (Options_ClientID (Opts req) (CHAddr req)) now q.
Proof using Hwf Hdns.
  intros (Hi & Hc & n & bits & Hs) HH.
  destruct (Handle_change cfg p n bits req now Hi Hs Hc) as (q' & r' & HH' & Hchg).
  rewrite HH in HH'. injection HH' as <- <-. split; [|done].
  destruct (pool_change_inv p n bits _ now q Hi Hs Hchg) as [Hi' Hc'].
  split; [done|]. split; [by eapply cfg_ok_config|]. exists n, bits. by eapply subnet_is_config.
Qed.

Lemma reachable_good p : reachable cfg p -> good cfg p.
Proof using Hwf Hdns.
  induction 1 as [now p Hst|p req now q r _ IH HH]; [by apply (starting_good now)|].
  by apply (Handle_good p req now q r).
Qed.
End Reachable.

(** ** Granting requests *)

(** The address a DHCPREQUEST asks this server for: the requested address of a
    SELECTING client that selected this server; otherwise the requested address
    or ciaddr of a rebooting or renewing one. *)
Definition asked (cfg : InterfaceConfig) (req : Message) : option Addr :=
  match Options_ServerID (Opts req) with
  | Some sid => if bool_decide (sid = ServerIP cfg) then Options_RequestedIP (Opts req) else None
  | None =>
    let t := default (CIAddr req) (Options_RequestedIP (Opts req)) in
    if IsValid t && negb (IsUnspecified t) then Some t else None
  end.

Definition is_request (req : Message) : Prop :=
  Op req = OpBootRequest /\ (IsValid (GIAddr req) && negb (IsUnspecified (GIAddr req))) = false
  /\ Options_MessageType (Opts req) = Some Request.

Lemma Handle_is_request cfg p req now : is_request req ->
  Handle cfg p req now = handleRequest cfg p req (Options_ClientID (Opts req) (CHAddr req)) now.
Proof. intros (Ho & Hg & Ht). unfold Handle. by rewrite Ho, Hg, Ht. Qed.

(** The reply carrying a given type and address. *)
Definition replies (r : option Message) (mt : Z) (a : Addr) : Prop :=
  exists m, r = Some m /\ Options_MessageType (Opts m) = Some mt /\ YIAddr m = a.

Lemma Commit_committed p c a now : 0 < duration p ->
  Committed (Commit p c a now) c now = Some (mkKept a (now + duration p)).
Proof.
  intros Hd. unfold Committed, Commit, hold. cbn [byClient with_maps].
  rewrite lookup_insert_eq. unfold expired. cbn [state ip expiry].
  destruct (clear_config p c) as (_ & _ & _ & _ & ->).
  replace (now <? now + duration p) with true by (symmetry; apply Z.ltb_lt; lia). done.
Qed.

(** Handle's answer to a DHCPREQUEST by what is asked and what is bound. *)
Lemma Request_cases cfg p n bits req now c :
  subnet_is p n bits -> cfg_ok cfg p -> is_request req ->
  c = Options_ClientID (Opts req) (CHAddr req) ->
  exists q r, Handle cfg p req now = Ret (q, r) /\
  match asked cfg req with
  | Some a =>
    if bool_decide (Binding p c now = Some a)
    then q = Commit p c a now /\ replies r ACK a
    else q = p /\ (r = None \/ replies r NAK AInvalid)
  | None => r = None /\ (q = p \/ q = CancelOffer p c)
  end.
Proof.
  intros Hs Hc Hreq ->. rewrite Handle_is_request by done. unfold handleRequest, asked.
  set (c := Options_ClientID _ _).
  destruct (buildNAK_ok cfg p n bits Hs Hc req) as (nak & Hnak & Ht & _ & Hy).
  assert (replies (Some nak) NAK AInvalid) as Hrn by (by exists nak).
  assert (forall a, exists m, buildReply cfg (Commit p c a now) req ACK a = Ret m
    /\ replies (Some m) ACK a) as Hack.
  { intros a. destruct (buildReply_ok cfg (Commit p c a now) n bits
      (subnet_is_config _ _ _ _ (hold_config p c a now bindingCommitted) Hs)
      (cfg_ok_config _ _ _ (hold_config p c a now bindingCommitted) Hc) req ACK a) as (conf & _ & ->).
    eexists. split; [done|]. eexists. split; [done|]. done. }
  unfold reply_with, silent. rewrite Hnak, bind_ret.
  destruct (Options_ServerID (Opts req)) as [sid|].
  - case_bool_decide as Hsid; cbn [negb]; [|do 2 eexists; split; [done|auto]].
    destruct (Options_RequestedIP (Opts req)) as [a|]; [|do 2 eexists; split; [done|auto]].
    case_bool_decide.
    + destruct (Hack a) as (m & -> & Hm). rewrite bind_ret. by do 2 eexists.
    + do 2 eexists. split; [done|auto].
  - set (t := default _ _). destruct (IsValid t && negb (IsUnspecified t)) eqn:Ev.
    + replace (negb (IsValid t) || IsUnspecified t) with false by (by destruct (IsValid t), (IsUnspecified t)).
      destruct (Binding p c now) as [b|] eqn:Eb.
      * case_bool_decide as Hb; cbn [negb].
        -- subst b. destruct (Hack t) as (m & -> & Hm). rewrite bind_ret, bool_decide_eq_true_2 by done.
           by do 2 eexists.
        -- rewrite bool_decide_eq_false_2 by congruence. do 2 eexists. split; [done|auto].
      * rewrite bool_decide_eq_false_2 by done. do 2 eexists. split; [done|auto].
    + replace (negb (IsValid t) || IsUnspecified t) with true by (by destruct (IsValid t), (IsUnspecified t)).
      do 2 eexists. split; [done|auto].
Qed.

(** ** Quarantine across requests *)

(** An address in quarantine until [u] stays so through every earlier request,
    and is not offered. *)
Lemma pool_change_quarantine p n bits c now q a u : pool_inv p -> subnet_is p n bits ->
  pool_change p c now q -> declined p !! a = Some u -> now < u -> declined q !! a = Some u.
Proof.
  intros Hi Hp Hchg Hd Hu.
  assert (forall r, same_from now p r -> declined r !! a = Some u) as Hfrom.
  { intros r [(_ & _ & _ & Hsub) Hq]. specialize (Hq a now ltac:(lia)). unfold quarantined in Hq.
    rewrite Hd in Hq. destruct (declined r !! a) as [u'|] eqn:E.
    - rewrite (lookup_weaken _ _ _ _ E Hsub) in Hd. by injection Hd as ->.
    - symmetry in Hq. apply Z.ltb_ge in Hq. lia. }
  destruct Hchg as [|req|b Hb| |b|b].
  - done.
  - pose proof (Offer_spec p n bits c req now Hi Hp) as H.
    destruct (Pool_Offer p c req now) as [[b|] q']; cbn [snd].
    + destruct H as (r & st & Hr & -> & _). rewrite hold_declined. by apply Hfrom.
    + apply Hfrom, H.
  - unfold Commit. by rewrite hold_declined.
  - unfold CancelOffer. destruct (byClient p !! c) as [l|]; [|done].
    destruct (state l); [by rewrite clear_declined|done].
  - unfold Pool_Release. destruct (byIP p !! b) as [o|]; [|done].
    case_decide; [by rewrite clear_declined|done].
  - unfold Pool_Decline. destruct (byIP p !! b) as [o|] eqn:Eb; [|done]. case_decide; [|done].
    rewrite clear_declined. cbn. rewrite lookup_insert_ne; [done|]. intros <-.
    apply (inv_bwd p Hi) in Eb as (l & Hl & Hla). pose proof (inv_declined p Hi _ _ Hl). congruence.
Qed.

(** The address a reply grants is the one the request's client then holds. *)
Lemma Handle_grant cfg p n bits req now q r m : pool_inv p -> subnet_is p n bits -> cfg_ok cfg p ->
  Handle cfg p req now = Ret (q, r) -> r = Some m -> YIAddr m <> AInvalid ->
  exists l, byClient q !! Options_ClientID (Opts req) (CHAddr req) = Some l /\ ip l = YIAddr m.
Proof.
  intros Hi Hs Hc HH -> Hy. set (c := Options_ClientID _ _).
  assert (forall q' mt yip, same_config p q' -> reply_with q' (buildReply cfg q' req mt yip) = Ret (q, Some m) ->
    q = q' /\ YIAddr m = yip) as Hrep.
  { intros q' mt yip Hq'. destruct (buildReply_ok cfg q' n bits (subnet_is_config _ _ _ _ Hq' Hs)
      (cfg_ok_config _ _ _ Hq' Hc) req mt yip) as (conf & _ & ->).
    unfold reply_with. rewrite bind_ret. by intros [= -> <-]. }
  unfold Handle in HH. fold c in HH. unfold silent in HH.
  destruct (negb (Op req =? _)); [done|]. destruct (_ && _); [done|].
  destruct (Options_MessageType (Opts req)) as [mt|] eqn:Emt; [|done].
  destruct (mt =? Discover).
  { pose proof (Offer_spec p n bits c (default AInvalid (Options_RequestedIP (Opts req))) now Hi Hs) as HO.
    destruct (Pool_Offer p c _ now) as [[a|] q']; [|done].
    destruct HO as (q0 & st & [[Hq0 _] _] & -> & _). apply Hrep in HH as [-> ->].
    - eexists. unfold hold. cbn [byClient with_maps]. by rewrite lookup_insert_eq.
    - etrans; [apply Hq0|apply hold_config]. }
  destruct (mt =? Request) eqn:Er.
  { destruct (buildNAK_ok cfg p n bits Hs Hc req) as (nak & Hnak & _ & _ & Hny).
    assert (forall a, reply_with (Commit p c a now) (buildReply cfg (Commit p c a now) req ACK a) = Ret (q, Some m) ->
      exists l, byClient q !! c = Some l /\ ip l = YIAddr m) as Hcom.
    { intros a Ha. apply Hrep in Ha as [-> ->]; [|apply hold_config].
      eexists. unfold Commit, hold. cbn [byClient with_maps]. by rewrite lookup_insert_eq. }
    unfold handleRequest in HH. rewrite Hnak in HH.
    change (reply_with p (Ret nak)) with (@Ret (Pool * option Message) (p, Some nak)) in HH.
    destruct (Options_ServerID (Opts req)) as [sid|].
    - destruct (negb _); [done|]. destruct (Options_RequestedIP (Opts req)) as [a|]; [|done].
      case_bool_decide; [by eapply Hcom|]. congruence.
    - destruct (_ || _); [done|]. destruct (Binding p c now) as [b|]; [|done].
      destruct (negb _); [congruence|by eapply Hcom]. }
  destruct (mt =? Release); [destruct (Options_ServerID (Opts req)) as [sid|]; [case_bool_decide|]; done|].
  destruct (mt =? Decline).
  { destruct (Options_ServerID (Opts req)) as [sid|]; [case_bool_decide|]; [|done..].
    by destruct (Options_RequestedIP (Opts req)). }
  destruct (mt =? Inform); [|done].
  destruct (buildInformAck_ok cfg p n bits Hs Hc req) as (im & Him & Hiy). rewrite Him in HH.
  unfold reply_with in HH. rewrite bind_ret in HH. congruence.
Qed.

(** Through any requests before [u], an address quarantined until [u] stays out
    of every reply. *)
Lemma serve_quarantine cfg p reqs q rs a u : prefix_wf (Subnet cfg) ->
  Forall (fun d => Is4 d = true) (DNSServers cfg) ->
  good cfg p -> declined p !! a = Some u -> a <> AInvalid ->
  Forall (fun x => fst x < u) reqs -> serve cfg p reqs = Ret (q, rs) ->
  Forall (fun r => forall m, r = Some m -> YIAddr m <> a) rs.
Proof.
  intros Hwf Hdns Hg Hd Ha Ht. revert p q rs Hg Hd.
  induction Ht as [|[now req] reqs Hnow Ht IH]; intros p q rs Hg Hd; cbn [serve].
  { by intros [= <- <-]. }
  intros HS. bind_inv HS. destruct a0 as [p1 r]. bind_inv HS. destruct a0 as [p2 rs'].
  injection HS as <- <-. pose proof (Handle_good cfg Hwf Hdns p req now p1 r Hg E) as [Hg1 Hchg].
  destruct Hg as (Hi & Hc & n & bits & Hs).
  assert (declined p1 !! a = Some u) as Hd1 by (by eapply pool_change_quarantine).
  constructor; [|by eapply IH]. intros m -> Hy.
  destruct (Handle_grant cfg p n bits req now p1 (Some m) m Hi Hs Hc E eq_refl) as (l & Hl & Hla); [congruence|].
  pose proof (inv_declined p1 (proj1 Hg1) _ _ Hl). congruence.
Qed.

(** ** The timers of a grant *)

(** A duration below 2^63/7 nanoseconds (about 41.7 years) does not wrap in
    [d * 7]. *)
Lemma rebindingTime_exact d : 0 <= d -> d * 7 < 2 ^ 63 -> rebindingTime d = d * 7 / 8.
Proof. intros H0 Hd. unfold rebindingTime. rewrite i64_id by lia. by apply Z.quot_div_nonneg; lia. Qed.

Lemma NewSeconds_value code d : 0 <= d ->
  get 4 (Data (NewSeconds code d)) = Ret (Z.min (d / Second) 0xffffffff).
Proof.
  intros Hd. unfold NewSeconds. cbn [Data]. rewrite Z.quot_div_nonneg by (unfold Second; lia).
  pose proof (Z.div_pos d Second Hd ltac:(unfold Second; lia)).
  rewrite Z.max_l, Z.mod_small by lia.
  rewrite <- (app_nil_r (be 4 _)). apply get_be. change (256 ^ Z.of_nat 4) with (2 ^ 32). lia.
Qed.

(** ** Properties *)

(** C32: Handle never panics on a validated configuration, keeps the pool's
    invariant, and no request, of any type and from any client, touches the live
    lease of another client. *)
Theorem Handle_safe cfg p req now : good cfg p ->
  exists q r, Handle cfg p req now = Ret (q, r) /\ good cfg q
    /\ forall c l, c <> Options_ClientID (Opts req) (CHAddr req) -> live p c l now ->
         byClient q !! c = Some l.
Proof.
  intros (Hi & Hc & n & bits & Hs).
  destruct (Handle_change cfg p n bits req now Hi Hs Hc) as (q & r & HH & Hchg).
  destruct (pool_change_inv p n bits _ now q Hi Hs Hchg) as [Hi' Hc'].
  exists q, r. split; [done|]. split.
  - split; [done|]. split; [by eapply cfg_ok_config|]. exists n, bits. by eapply subnet_is_config.
  - intros c l Hne Hl. exact (pool_change_other p n bits _ now q c l Hi Hs Hchg Hne Hl).
Qed.

(** C25: in every pool a server can reach, from NewPool and the leases kept on
    disk through any sequence of requests, no address is held by two clients, and
    every address held is a host address of the subnet: not the network, the
    broadcast or the server address. *)
Theorem reachable_exclusive cfg p : prefix_wf (Subnet cfg) ->
  Forall (fun a => Is4 a = true) (DNSServers cfg) -> reachable cfg p ->
  (forall c c' l l', byClient p !! c = Some l -> byClient p !! c' = Some l' ->
     ip l = ip l' -> c = c')
  /\ forall c l, byClient p !! c = Some l -> exists n v, Masked (Subnet cfg) = mkPrefix (A4 n) (pbits (Subnet cfg))
       /\ ip l = A4 v /\ n < v < n + 2 ^ (32 - pbits (Subnet cfg)) - 1 /\ ip l <> ServerIP cfg.
Proof.
  intros Hwf Hdns Hr. destruct (reachable_good cfg Hwf Hdns p Hr) as (Hi & Hc & n & bits & Hs).
  split; [intros c c' l l' H H' E; by eapply inv_owner_unique|].
  intros c l Hl. apply (inv_usable p Hi), (usable_spec p n bits) in Hl as (v & Hv & Hb & Hsv); [|done].
  assert (Masked (Subnet cfg) = mkPrefix (A4 n) bits) as Hm
    by (rewrite (ok_subnet _ _ Hc); apply Hs).
  rewrite (Masked_pbits _ _ _ Hm).
  exists n, v. rewrite (ok_server _ _ Hc). done.
Qed.

(** A DHCPREQUEST is acknowledged for an address exactly when the client asks
    this server for the address of its own unexpired binding, and an
    acknowledged address is then committed to the client for the full lease. *)
Lemma Request_ack cfg p req now a : good cfg p -> is_request req -> 0 < duration p ->
  let c := Options_ClientID (Opts req) (CHAddr req) in
  exists q r, Handle cfg p req now = Ret (q, r)
  /\ (replies r ACK a <-> asked cfg req = Some a /\ Binding p c now = Some a)
  /\ (replies r ACK a -> Committed q c now = Some (mkKept a (now + duration p)))
  /\ (replies r NAK AInvalid -> q = p).
Proof.
  intros (Hi & Hc & n & bits & Hs) Hreq Hd c.
  destruct (Request_cases cfg p n bits req now c Hs Hc Hreq eq_refl) as (q & r & -> & Hcase).
  exists q, r. split; [done|].
  assert (forall mt mt' b b', replies r mt b -> replies r mt' b' -> mt = mt' /\ b = b') as Hfun.
  { intros mt mt' b b' (m & -> & Ht & Hy) (m' & [= <-] & Ht' & Hy'). split; congruence. }
  destruct (asked cfg req) as [b|].
  2: { destruct Hcase as [-> Hq]. split; [split; [by intros (m & ? & _)|by intros [? _]]|].
       split; by intros (m & ? & _). }
  case_bool_decide as Hb.
  - destruct Hcase as [-> Hr]. split; [split|].
    + intros Ha. destruct (Hfun _ _ _ _ Ha Hr) as [_ ->]. done.
    + by intros [[= ->] _].
    + split; [|intros Hn; by destruct (Hfun _ _ _ _ Hn Hr)].
      intros Ha. destruct (Hfun _ _ _ _ Ha Hr) as [_ ->]. by apply Commit_committed.
  - destruct Hcase as [-> [->|Hr]].
    + split; [split; [by intros (m & ? & _)|intros [[= ->] ?]; done]|]. split; by intros (m & ? & _).
    + split; [split; [|intros [[= ->] ?]; done]|].
      * intros Ha. by destruct (Hfun _ _ _ _ Ha Hr).
      * split; [|done]. intros Ha. by destruct (Hfun _ _ _ _ Ha Hr).
Qed.

(** A DISCOVER is answered with an offer whenever the client holds a live
    lease (and then for that very address) or some address of the subnet is
    available; the address offered was available, and is then bound to the
    client: a committed lease stays committed, for the full lease again. *)
Lemma Discover_offers p n bits c requested now r q :
  pool_inv p -> subnet_is p n bits -> 0 < duration p ->
  Pool_Offer p c requested now = (r, q) ->
  (forall l, live p c l now -> r = Some (ip l))
  /\ (r = None <-> forall a, available p c now a = false)
  /\ (forall b, r = Some b -> available p c now b = true /\ Binding q c now = Some b
        /\ (is_Some (Committed p c now) -> Committed q c now = Some (mkKept b (now + duration p)))
        /\ (Committed p c now = None -> Committed q c now = None)).
Proof.
  intros Hi Hs Hdur HP. pose proof (Offer_spec p n bits c requested now Hi Hs) as HO.
  rewrite HP in HO. destruct r as [b|].
  2: { destruct HO as (Hq & Hn & Hnl). split_and!; [by intros l ?%Hnl|done|done]. }
  destruct HO as (q0 & st & Hq & -> & Ha & Hd & Hst & Hl). split; [|split].
  - intros l Hll. by destruct (Hl l Hll) as [-> _].
  - split; [done|]. intros Hn. by rewrite Hn in Ha.
  - intros b' [= <-]. split; [done|].
    assert (duration (clear q0 c) = duration p) as Hdq.
    { destruct (clear_config q0 c) as (_ & _ & _ & _ & ->). apply (proj1 (proj1 Hq)). }
    unfold Binding, Committed at 2 4, hold. cbn [byClient with_maps]. rewrite lookup_insert_eq, Hdq.
    unfold expired. cbn [expiry ip state].
    assert (forall d, 0 < d -> (now <? now + d) = true) as Hlt by (intros; apply Z.ltb_lt; lia).
    assert (forall l, live p c l now <-> byClient p !! c = Some l /\ (now <? expiry l) = true) as Hlive
      by (intros l; unfold live, expired; by rewrite negb_false_iff).
    split; [destruct st; by rewrite Hlt|].
    unfold Committed. destruct (byClient p !! c) as [l|] eqn:El.
    2: { split; [by intros []|]. intros _. destruct Hst as [->|(l & [? _] & _)]; [done|congruence]. }
    destruct (expired l now) eqn:Ex.
    { split; [destruct (state l); by intros []|]. intros _.
      destruct Hst as [->|(l' & [? ?] & _)]; [done|congruence]. }
    destruct (Hl l (conj El Ex)) as [-> ->]. destruct (state l); [by split; [intros []|]|].
    split; [|done]. intros _. by rewrite Hlt.
Qed.

(** After a client declines an address it holds, no reply to any request
    served within the quarantine (one hour) grants that address, to that client or
    any other; a decline of an address the client does not hold changes nothing. *)
Lemma Decline_quarantines cfg p now c a reqs q rs : prefix_wf (Subnet cfg) ->
  Forall (fun d => Is4 d = true) (DNSServers cfg) -> good cfg p -> a <> AInvalid ->
  Forall (fun x => fst x < now + declineQuarantine) reqs ->
  serve cfg (Pool_Decline p c a now) reqs = Ret (q, rs) ->
  if bool_decide (byIP p !! a = Some c)
  then Forall (fun r => forall m, r = Some m -> YIAddr m <> a) rs
  else Pool_Decline p c a now = p.
Proof.
  intros Hwf Hdns Hg Ha Ht HS. case_bool_decide as Ho.
  - eapply serve_quarantine; [done|done| | |done|done|done].
    + destruct Hg as (Hi & Hc & n & bits & Hs). destruct (Decline_inv p c a now Hi) as [Hi' Hc'].
      split; [done|]. split; [by eapply cfg_ok_config|]. exists n, bits. by eapply subnet_is_config.
    + unfold Pool_Decline. rewrite Ho, decide_True by done. rewrite clear_declined. cbn.
      apply lookup_insert_eq.
  - unfold Pool_Decline. destruct (byIP p !! a) as [o|]; [|done].
    rewrite decide_False; [done|]. intros ->. done.
Qed.

(** For a lease below 2^63/7 ns (about 41.7 years) the timers a grant carries
    are ordered, T1 <= T2 <= lease, whole seconds rounded down and saturated at 32
    bits. *)
Lemma reply_timers_ordered d : 0 <= d -> d * 7 < 2 ^ 63 ->
  exists t1 t2 l,
    get 4 (Data (NewSeconds OptRenewalTime (renewalTime d))) = Ret t1
    /\ get 4 (Data (NewSeconds OptRebindingTime (rebindingTime d))) = Ret t2
    /\ get 4 (Data (NewSeconds OptLeaseTime d)) = Ret l
    /\ t1 <= t2 <= l /\ l = Z.min (d / Second) 0xffffffff.
Proof.
  intros H0 Hd. assert (0 <= d / 2) by (apply Z.div_pos; lia).
  assert (0 <= d * 7 / 8) by (apply Z.div_pos; lia).
  unfold renewalTime. rewrite Z.quot_div_nonneg by lia.
  rewrite rebindingTime_exact, !NewSeconds_value by done. do 3 eexists. split_and!; try done.
  - apply Z.min_le_compat_r, Z.div_le_mono; [done|].
    apply Z.div_le_lower_bound; [lia|]. pose proof (Z.mul_div_le d 2). lia.
  - apply Z.min_le_compat_r, Z.div_le_mono; [done|]. apply Z.div_le_upper_bound; lia.
Qed.

(** A longer lease wraps: a 50-year lease is sent with T2 = 0, below its T1. *)
Lemma rebinding_overflow : let d := 50 * 365 * 24 * Hour in
  d < 2 ^ 63 /\ get 4 (Data (NewSeconds OptRebindingTime (rebindingTime d))) = Ret 0
  /\ get 4 (Data (NewSeconds OptRenewalTime (renewalTime d))) = Ret 788400000.
Proof. by vm_compute. Qed.

(** A lease restored over the expired lease of another client leaves that
    client's lease behind, holding the same address. *)
Lemma Restore_over_expired : exists p q c c' a now,
  NewPool (mkPrefix (A4 0xc0a80100) 24) (A4 0xc0a80101) Hour = Ret p
  /\ Pool_Restore (Commit p c a 0) c' (mkKept a (now + Hour)) now = (true, q)
  /\ c <> c' /\ ip <$> byClient q !! c = Some a /\ ip <$> byClient q !! c' = Some a.
Proof.
  do 2 eexists. exists [1], [2], (A4 0xc0a80132), (2 * Hour). split; [reflexivity|].
  split; [vm_compute; reflexivity|]. by vm_compute.
Qed.

(** ** Witnesses: a /24 LAN *)

Definition lan_cfg : InterfaceConfig :=
  mkConfig "lan0" (A4 0xc0a80101) (mkPrefix (A4 0xc0a80101) 24) [A4 0xc0a80101] 1460 (12 * Hour).

Definition lan_pool : Pool :=
  match NewPool (Subnet lan_cfg) (ServerIP lan_cfg) (LeaseTime lan_cfg) with
  | Ret p => p | _ => mkPool (Subnet lan_cfg) AInvalid AInvalid AInvalid 0 ∅ ∅ ∅ end.

Lemma lan_wf : prefix_wf (Subnet lan_cfg).
Proof. by_eval. Qed.

Lemma lan_dns : Forall (fun a => Is4 a = true) (DNSServers lan_cfg).
Proof. by_eval. Qed.

Lemma lan_new : NewPool (Subnet lan_cfg) (ServerIP lan_cfg) (LeaseTime lan_cfg) = Ret lan_pool.
Proof. vm_compute. reflexivity. Qed.

Lemma lan_good : good lan_cfg lan_pool.
Proof. exact (proj1 (NewPool_good lan_cfg lan_wf lan_dns lan_pool lan_new)). Qed.

Lemma lan_subnet : subnet_is lan_pool 0xc0a80100 24.
Proof.
  split; [by vm_compute|lia|lia|by vm_compute|by vm_compute|by vm_compute|].
  exists 0xc0a80101. split; [by vm_compute|lia].
Qed.

(** The address .50 committed to client [7]. *)
Definition lan_bound : Pool := hold lan_pool [7] (A4 0xc0a80132) 0 bindingCommitted.

Lemma lan_bound_good : good lan_cfg lan_bound.
Proof.
  destruct lan_good as (Hi & Hc & _). split; [|split].
  - apply hold_inv; [done|by vm_compute|by vm_compute].
  - by eapply cfg_ok_config; [apply hold_config|].
  - exists 0xc0a80100, 24. apply change_config_hold, lan_subnet.
Qed.

Definition lan_request : Message :=
  mkMessage OpBootRequest 1 6 0 1 0 0 (A4 0) (A4 0) (A4 0) (A4 0) [7] [] []
    [NewMessageType Request; mkOption OptRequestedIP [192; 168; 1; 50]].

Lemma Handle_safe_witness : exists q r, Handle lan_cfg lan_bound sample_discover 5 = Ret (q, r)
  /\ (live lan_bound [7] (mkLease (A4 0xc0a80132) (12 * Hour) bindingCommitted) 5 ->
      byClient q !! [7] = Some (mkLease (A4 0xc0a80132) (12 * Hour) bindingCommitted)).
Proof.
  destruct (Handle_safe lan_cfg lan_bound sample_discover 5 lan_bound_good) as (q & r & HH & _ & Ho).
  exists q, r. split; [exact HH|]. apply Ho. by vm_compute.
Defined.

(** Two clients ask for the address .50 in turn; the first asks for what it was offered. *)
Definition second_discover : Message :=
  mkMessage OpBootRequest 1 6 0 0x12345679 0 flagBroadcast (A4 0) (A4 0) (A4 0) (A4 0) [2; 0; 0; 0; 0; 2] [] []
    [NewMessageType Discover; mkOption OptRequestedIP [192; 168; 1; 50]].
Definition first_request : Message :=
  mkMessage OpBootRequest 1 6 0 0x12345678 0 flagBroadcast (A4 0) (A4 0) (A4 0) (A4 0) [2; 0; 0; 0; 0; 1] [] []
    [NewMessageType Request; mkOption OptRequestedIP [192; 168; 1; 50]; mkOption OptServerID [192; 168; 1; 1]].

Definition handled (p : Pool) (req : Message) (now : Z) : Pool :=
  match Handle lan_cfg p req now with Ret (q, _) => q | _ => p end.

Definition lan_two : Pool := handled (handled (handled lan_pool sample_discover 10) first_request 20) second_discover 30.

Lemma handled_reachable p req now : reachable lan_cfg p -> reachable lan_cfg (handled p req now).
Proof.
  intros Hp. unfold handled. destruct (Handle lan_cfg p req now) as [[q r]| |] eqn:E; [|done..]. by eapply reach_handle.
Qed.

Lemma lan_two_leases :
  let a := Options_ClientID (Opts sample_discover) (CHAddr sample_discover) in
  let b := Options_ClientID (Opts second_discover) (CHAddr second_discover) in
  a <> b /\ byClient lan_two !! a = Some (mkLease (A4 0xc0a80132) (20 + 12 * Hour) bindingCommitted)
  /\ is_Some (byClient lan_two !! b).
Proof. split; [by_eval|]. split; [vm_compute; reflexivity|]. by_eval. Qed.

(** Both hold an address, the second one another than .50, in the subnet. *)
Lemma reachable_exclusive_witness : exists c lb v, c <> [] /\ byClient lan_two !! c = Some lb
  /\ ip lb <> A4 0xc0a80132 /\ ip lb = A4 v /\ 0xc0a80100 < v < 0xc0a801ff.
Proof.
  destruct lan_two_leases as (Hne & Ha & [lb Hb]).
  assert (reachable lan_cfg lan_two) as Hr by (do 3 apply handled_reachable; eapply (reach_start _ 0), start_new, lan_new).
  destruct (reachable_exclusive lan_cfg lan_two lan_wf lan_dns Hr) as [Hex Hhost].
  destruct (Hhost _ lb Hb) as (n & v & Hm & Hv & Hrange & _). exists (Options_ClientID (Opts second_discover) (CHAddr second_discover)), lb, v.
  split; [by_eval|]. split; [exact Hb|]. split; [|split; [exact Hv|]].
  - intros E. apply Hne. exact (Hex _ _ _ lb Ha Hb (eq_sym E)).
  - assert (Masked (Subnet lan_cfg) = mkPrefix (A4 0xc0a80100) 24) as Hm' by (vm_compute; reflexivity).
    change (pbits (Subnet lan_cfg)) with 24 in *. rewrite Hm' in Hm. assert (n = 0xc0a80100) as -> by congruence.
    change (2 ^ (32 - 24)) with 256 in Hrange. lia.
Defined.

Lemma Request_ack_witness : exists q r, Handle lan_cfg lan_bound lan_request 100 = Ret (q, r)
  /\ (replies r ACK (A4 0xc0a80132) <-> asked lan_cfg lan_request = Some (A4 0xc0a80132)
        /\ Binding lan_bound [7] 100 = Some (A4 0xc0a80132)).
Proof.
  destruct (Request_ack lan_cfg lan_bound lan_request 100 (A4 0xc0a80132) lan_bound_good) as (q & r & HH & Ha & _).
  - split_and!; by vm_compute.
  - by vm_compute.
  - exists q, r. split; [exact HH|exact Ha].
Defined.

Lemma Discover_offers_witness : exists r q, Pool_Offer lan_pool [9] AInvalid 0 = (r, q)
  /\ (r = None <-> forall a, available lan_pool [9] 0 a = false).
Proof.
  destruct (Pool_Offer lan_pool [9] AInvalid 0) as [r q] eqn:HP. exists r, q. split; [reflexivity|].
  apply (Discover_offers lan_pool 0xc0a80100 24 [9] AInvalid 0 r q (proj1 lan_good) lan_subnet
           ltac:(by vm_compute) HP).
Defined.

Definition lan_later : list (Z * Message) := [(20, lan_request); (30, sample_discover)].

Lemma Decline_quarantines_witness : exists q rs,
  serve lan_cfg (Pool_Decline lan_bound [7] (A4 0xc0a80132) 10) lan_later = Ret (q, rs)
  /\ Forall (fun r => forall m, r = Some m -> YIAddr m <> A4 0xc0a80132) rs.
Proof.
  assert (ok (serve lan_cfg (Pool_Decline lan_bound [7] (A4 0xc0a80132) 10) lan_later) = true) as Hok
    by (vm_compute; reflexivity).
  destruct (serve lan_cfg _ lan_later) as [[q rs]| |] eqn:HS; [|discriminate..].
  exists q, rs. split; [reflexivity|].
  assert (byIP lan_bound !! A4 0xc0a80132 = Some [7]) as Ho by (vm_compute; reflexivity).
  assert (Forall (fun x : Z * Message => fst x < 10 + declineQuarantine) lan_later) as Ht by (repeat constructor).
  pose proof (Decline_quarantines lan_cfg lan_bound 10 [7] (A4 0xc0a80132) _ q rs lan_wf lan_dns
                lan_bound_good ltac:(discriminate) Ht HS) as H.
  rewrite bool_decide_eq_true_2 in H by exact Ho. exact H.
Defined.

Lemma reply_timers_ordered_witness : exists t1 t2 l,
    get 4 (Data (NewSeconds OptRenewalTime (renewalTime (12 * Hour)))) = Ret t1
    /\ get 4 (Data (NewSeconds OptRebindingTime (rebindingTime (12 * Hour)))) = Ret t2
    /\ get 4 (Data (NewSeconds OptLeaseTime (12 * Hour))) = Ret l
    /\ t1 <= t2 <= l /\ l = Z.min (12 * Hour / Second) 0xffffffff.
Proof. apply (reply_timers_ordered (12 * Hour)); by_eval. Defined.
