(* ===== verification/Dhcpv4Server.v ===== *)
(** The DHCPv4 server process: src/internal/dhcpv4server/server.go.  It serves one
    interface's pool and keeps the committed leases in a table on disk, so that a
    restart gives clients the addresses they were granted.

    The table (molecule/kvs), the socket and the timers belong to a library that is
    not under src; they appear as the effects the server asks for.  The table does its
    writes one after the other, after they are asked for, and reports each: a write
    reported as done is on disk, one reported as failed may or may not be.  What the table
    has been asked to hold and what the disk holds are therefore two maps, with the writes
    under way between them. *)

From S2P Require Import Prelude Wire Netip Dhcpv4Message Dhcpv4Packet Dhcpv4Pool Dhcpv4Handler.

Local Open Scope Z_scope.

Abbreviation Leases := (gmap client Lease).

(** ** The process *)

Record server : Type := mkServer { cfg : InterfaceConfig; sifindex : Z; haveLeases : bool }.

(** A link-layer destination: the interface and the hardware address. *)
Record Sockaddr : Type := mkSockaddr { Ifindex : Z; Halen : Z; SAddr : bytes }.

(** A reply held until the lease it grants is on disk. *)
Record held : Type := mkHeld { to : Sockaddr; frame : bytes }.

Inductive effect : Type :=
| SetActive
| Send (h : held)
| SendActive (h : held)
| Put (id : client) (l : Lease) (tag : option held)
| Delete (id : client)
| ExpireTable (now : Z)
| StartExpire (after : Z)
| Stop.

Inductive msg : Type :=
| DataMsg (b : bytes)
| Durable (tag : held) (err : bool)
| expire
| SendErrorMsg
| ErrorMsg
| ClosedMsg
| OtherMsg.

Definition expireEvery : Z := 60 * 1000000000.

Definition nextExpire : effect := StartExpire expireEvery.

Definition Init (s : server) (pool : Pool) : Pool * list effect :=
  if haveLeases s then (pool, [nextExpire]) else (pool, []).

(** [answer]: the pool after the packet, the framed reply and where it goes, and
    the client's identifier. *)
Definition answer (s : server) (pool : Pool) (packet : bytes) (now : Z)
    : outcome (Pool * option held * client) :=
  r ← ParseRequest packet;
  match r with
  | None => Ret (pool, None, [])
  | Some req =>
    let id := Options_ClientID (Opts req) (CHAddr req) in
    '(next, reply) ← Handle (cfg s) pool req now;
    match reply with
    | None => Ret (next, None, id)
    | Some m =>
      '(fr, mac) ← Frame (ServerIP (cfg s)) m;
      Ret (next, Some (mkHeld (mkSockaddr (sifindex s) (u8 (zlen mac)) (field 8 mac)) fr), id)
    end
  end.

Inductive kept : Type := KeepPut (l : Lease) | KeepDelete | KeepNothing.

(** What to write of the change a request made to its client's committed lease. *)
Definition keep (s : server) (pool next : Pool) (id : client) (now : Z) : kept :=
  if negb (haveLeases s) || bool_decide (id = []) then KeepNothing
  else
    match Committed pool id now, Committed next id now with
    | Some was, Some is_ => if bool_decide (is_ = was) then KeepNothing else KeepPut is_
    | None, Some is_ => KeepPut is_
    | Some _, None => KeepDelete
    | None, None => KeepNothing
    end.

Definition reply (h : option held) (effs : list effect) : list effect :=
  effs ++ [match h with None => SetActive | Some h => SendActive h end].

(** [now]: the clock read by [answer]; [now']: by [keep], or on the expiry
    timer. *)
Definition HandleInfo (s : server) (pool : Pool) (m : msg) (now now' : Z) : outcome (Pool * list effect) :=
  match m with
  | DataMsg b =>
    '(next, h, id) ← answer s pool b now;
    match keep s pool next id now', h with
    | KeepPut l, Some h => Ret (next, [SetActive; Put id l (Some h)])
    | KeepPut l, None => Ret (next, reply None [Put id l None])
    | KeepDelete, h => Ret (next, reply h [Delete id])
    | KeepNothing, h => Ret (next, reply h [])
    end
  | Durable h _ => Ret (pool, [Send h])
  | expire => Ret (pool, [ExpireTable now'; nextExpire])
  | SendErrorMsg => Ret (pool, [])
  | ErrorMsg | ClosedMsg => Ret (pool, [Stop])
  | OtherMsg => Ret (pool, [])
  end.

(** ** Starting *)

(** The leases a restart puts back, in the order the table gives them; those not
    taken are deleted from it. *)
Fixpoint restore_loop (pool : Pool) (ls : list (client * Lease)) (now : Z) : Pool * list client :=
  match ls with
  | [] => (pool, [])
  | (id, l) :: ls' =>
    let '(taken, pool) := Pool_Restore pool id l now in
    let '(pool, gone) := restore_loop pool ls' now in
    (pool, if taken : bool then gone else id :: gone)
  end.

(** [fails]: the deletions the table refuses; the first ends the start. *)
Fixpoint delete_gone (fails : client -> bool) (gone : list client) (leases : Leases) : outcome Leases :=
  match gone with
  | [] => Ret leases
  | id :: gone' =>
    if fails id then Fail "deleting a lease" else delete_gone fails gone' (delete id leases)
  end.

Definition restore (fails : client -> bool) (pool : Pool) (ls : list (client * Lease)) (leases : Leases) (now : Z)
    : outcome (Pool * Leases) :=
  let '(pool, gone) := restore_loop pool ls now in
  leases ← delete_gone fails gone leases;
  Ret (pool, leases).

(** The pool and table an interface's server starts with; [ls] is the table read
    in the order All gives. *)
Definition starter (fails : client -> bool) (s : server) (ls : list (client * Lease)) (leases : Leases) (now : Z)
    : outcome (Pool * Leases) :=
  pool ← NewPool (Subnet (cfg s)) (ServerIP (cfg s)) (LeaseTime (cfg s));
  if haveLeases s then restore fails pool ls leases now else Ret (pool, leases).

(** ** The server running *)

Inductive write : Type := WPut (id : client) (l : Lease) | WDelete (id : client) | WExpire (now : Z).

(** The client whose entry a write is about; an expiry is about no one's. *)
Definition write_client (w : write) : option client :=
  match w with WPut id _ | WDelete id => Some id | WExpire _ => None end.

(** The pool, what the table was asked to hold, what is on disk, the writes under way,
    oldest first, each with the reply it holds, the clients whose last write reported
    failed, and an instant no clock reading precedes. *)
Record running : Type := mkRunning {
  rpool : Pool; table : Leases; disk : Leases; writes : list (write * option held); failed : gset client; clk : Z }.

Section Running.
(** The entries ExpireEffect deletes: only expired ones. *)
Variable expires : Z -> Lease -> bool.
Variable s : server.

Definition apply_write (w : write) (T : Leases) : Leases :=
  match w with
  | WPut id l => <[id := l]> T
  | WDelete id => delete id T
  | WExpire now => filter (fun kv => expires now kv.2 = false) T
  end.

Definition write_of (e : effect) : option (write * option held) :=
  match e with
  | Put id l tag => Some (WPut id l, tag)
  | Delete id => Some (WDelete id, None)
  | ExpireTable now => Some (WExpire now, None)
  | _ => None
  end.

(** An effect on the table is a write under way. *)
Definition apply_effect (r : running) (e : effect) : running :=
  match write_of e with
  | Some (w, tag) => mkRunning (rpool r) (apply_write w (table r)) (disk r) (writes r ++ [(w, tag)]) (failed r) (clk r)
  | None => r
  end.

Definition mark (err : bool) (w : write) (f : gset client) : gset client :=
  match write_client w with
  | Some c => if err then {[c]} ∪ f else f ∖ {[c]}
  | None => f
  end.

(** The oldest write reported: if it was tagged, the process gets the report. *)
Definition reported (p : Pool) (tag : option held) (err : bool) (now now' : Z) : outcome (Pool * list effect) :=
  match tag with Some h => HandleInfo s p (Durable h err) now now' | None => Ret (p, []) end.

(** One message, at instants the clock does not go back to, or one write of the table's
    done or failed. *)
Inductive step : running -> running -> Prop :=
| step_msg r m now now' p es : clk r <= now <= now' -> (forall h err, m <> Durable h err) ->
    HandleInfo s (rpool r) m now now' = Ret (p, es) ->
    step r (fold_left apply_effect es (mkRunning p (table r) (disk r) (writes r) (failed r) now'))
| step_write r w tag ws (err : bool) D now now' p es : writes r = (w, tag) :: ws -> clk r <= now <= now' ->
    (D = apply_write w (disk r) \/ err = true /\ D = disk r) ->
    reported (rpool r) tag err now now' = Ret (p, es) ->
    step r (fold_left apply_effect es (mkRunning p (table r) D ws (mark err w (failed r)) now')).

Definition under_way (r : running) (c : client) : Prop := exists w tag, (w, tag) ∈ writes r /\ write_client w = Some c.

(** The writes a server stopped leaves under way report to no one; then come the
    deletions of the start. *)
Definition left_under_way (r : running) (T T' : Leases) : list (write * option held) :=
  ((fun w => (w.1, None)) <$> writes r) ++ ((fun c => (WDelete c, None)) <$> elements (dom T ∖ dom T')).

(** A server's life.  The program starts it with whatever table is on disk, in any order;
    its supervisor starts it again over the table still open, which holds what it was
    asked to, but for the clients whose last write failed.  (The server writes no entry
    under the empty identifier.) *)
Inductive life : running -> Prop :=
| life_start fails ls T now p T' : T !! [] = None -> ls ≡ₚ map_to_list T -> starter fails s ls T now = Ret (p, T') ->
    life (mkRunning p T' T' [] ∅ now)
| life_step r r' : life r -> step r r' -> life r'
| life_again r fails ls T now p T' : life r -> clk r <= now -> T !! [] = None ->
    (forall c, c ∉ failed r \/ under_way r c -> T !! c = table r !! c) -> ls ≡ₚ map_to_list T ->
    starter fails s ls T now = Ret (p, T') ->
    life (mkRunning p T' (disk r) (left_under_way r T T') (failed r) now).

(** A client whose last write, if any, is on disk. *)
Definition settled (r : running) (c : client) : Prop :=
  (c ∉ failed r) /\ ~ under_way r c.

#[export] Instance under_way_dec r c : Decision (under_way r c).
Proof.
  destruct (decide (Exists (fun w => write_client w.1 = Some c) (writes r))) as [H|H]; [left|right].
  - apply Exists_exists in H as ([w tag] & ? & ?). by exists w, tag.
  - intros (w & tag & ? & ?). apply H, Exists_exists. by exists (w, tag).
Defined.

#[export] Instance settled_dec r c : Decision (settled r c).
Proof. unfold settled. apply _. Defined.
End Running.

(** ** The table mirrors the pool *)

(** What a lease of the table is worth at [t]. *)
Definition live_at (t : Z) (l : option Lease) : option Lease :=
  match l with Some l => if t <? Expiry l then Some l else None | None => None end.

(** From its clock on, every client with an identifier has the same lease in the
    pool and in the table. *)
Definition mirrored (r : running) : Prop :=
  forall c t, c <> [] -> clk r <= t -> Committed (rpool r) c t = live_at t (table r !! c).

Lemma Committed_later p c t t' : t <= t' -> Committed p c t = None \/
  (exists l, Committed p c t = Some l /\ Committed p c t' = if t' <? Expiry l then Some l else None).
Proof.
  intros Ht. unfold Committed. destruct (byClient p !! c) as [l|]; [|by left].
  destruct (state l); [by left|]. unfold expired. destruct (Z.ltb_spec t (expiry l)); cbn; [|by left].
  right. eexists. split; [done|]. cbn. by destruct (t' <? expiry l).
Qed.

Lemma Committed_gone p c t t' : t <= t' -> Committed p c t = None -> Committed p c t' = None.
Proof.
  intros Ht. unfold Committed. destruct (byClient p !! c) as [l|]; [|done]. destruct (state l); [done|].
  unfold expired. destruct (Z.ltb_spec t (expiry l)), (Z.ltb_spec t' (expiry l)); cbn; try done; lia.
Qed.

(** A request gives no lease to another client. *)
Lemma pool_change_back p c now q c' l : pool_inv p -> forall n bits, subnet_is p n bits ->
  pool_change p c now q -> c' <> c -> byClient q !! c' = Some l -> byClient p !! c' = Some l.
Proof.
  intros Hi n bits Hp Hchg Hc.
  assert (forall p0 a st, pool_inv p0 -> byClient (hold p0 c a now st) !! c' = Some l -> byClient p0 !! c' = Some l) as Hhold.
  { intros p0 a st Hi0. rewrite hold_byClient by done. rewrite decide_False by done.
    destruct (byClient p0 !! c'); [|done]. by case_decide. }
  assert (forall p0, byClient (clear p0 c) !! c' = Some l -> byClient p0 !! c' = Some l) as Hclear.
  { intros p0. by rewrite clear_other. }
  destruct Hchg as [|req|a Hb| |a|a]; [done|..].
  - pose proof (Offer_spec p n bits c req now Hi Hp) as H. destruct (Pool_Offer p c req now) as [[a|] q']; cbn [snd].
    + destruct H as (q & st & [Hq _] & -> & _). intros Hl. apply Hhold in Hl; [|by eapply pool_inv_leases].
      by rewrite (proj1 (proj2 Hq)) in Hl.
    + destruct H as [[Hq _] _]. by rewrite (proj1 (proj2 Hq)).
  - by apply Hhold.
  - unfold CancelOffer. destruct (byClient p !! c) as [lc|]; [|done]. destruct (state lc); [apply Hclear|done].
  - unfold Pool_Release. destruct (byIP p !! a) as [o|]; [|done]. case_decide; [apply Hclear|done].
  - unfold Pool_Decline. destruct (byIP p !! a) as [o|]; [|done]. case_decide; [|done].
    intros Hl. apply Hclear in Hl. exact Hl.
Qed.

Lemma Committed_other p c now q c' t n bits : pool_inv p -> subnet_is p n bits ->
  pool_change p c now q -> c' <> c -> now <= t -> Committed q c' t = Committed p c' t.
Proof.
  intros Hi Hp Hchg Hc Ht. unfold Committed.
  destruct (byClient p !! c') as [l|] eqn:El.
  - destruct (expired l now) eqn:Ex.
    + assert (expired l t = true) as -> by (unfold expired in *; apply negb_true_iff, Z.ltb_ge; apply negb_true_iff, Z.ltb_ge in Ex; lia).
      destruct (byClient q !! c') as [l'|] eqn:El'; [|by destruct (state l)].
      pose proof (pool_change_back p c now q c' l' Hi n bits Hp Hchg Hc El') as H. rewrite El in H. injection H as <-.
      destruct (state l); [done|].
      assert (expired l t = true) as -> by (unfold expired in *; apply negb_true_iff, Z.ltb_ge; apply negb_true_iff, Z.ltb_ge in Ex; lia).
      done.
    + by rewrite (pool_change_other p n bits c now q c' l Hi Hp Hchg Hc (conj El Ex)).
  - destruct (byClient q !! c') as [l'|] eqn:El'; [|done].
    by rewrite (pool_change_back p c now q c' l' Hi n bits Hp Hchg Hc El') in El.
Qed.

(** ** One message *)

Section Serve.
Context (expires : Z -> Lease -> bool).
Hypothesis expires_late : forall now l, expires now l = true -> Expiry l <= now.
Context (s : server).
Hypothesis Hleases : haveLeases s = true.
Hypothesis Hwf : prefix_wf (Subnet (cfg s)).
Hypothesis Hdns : Forall (fun a => Is4 a = true) (DNSServers (cfg s)).

Lemma answer_change p b now q h id : good (cfg s) p -> answer s p b now = Ret (q, h, id) ->
  good (cfg s) q /\ pool_change p id now q.
Proof using Hwf Hdns.
  intros Hg H. unfold answer in H. bind_inv H. destruct a as [req|]; [|injection H as <- <- <-; split; [done|constructor]].
  bind_inv H. destruct a as [next reply]. destruct (Handle_good (cfg s) Hwf Hdns p req now next reply Hg E0) as [Hg' Hchg].
  destruct reply as [m|]; [|injection H as <- <- <-; done].
  bind_inv H. destruct a as [fr mac]. by injection H as <- <- <-.
Qed.

Lemma live_at_later t t' l : t <= t' -> live_at t (Some l) = None -> live_at t' (Some l) = None.
Proof. cbn. intros. destruct (Z.ltb_spec t (Expiry l)), (Z.ltb_spec t' (Expiry l)); try done; lia. Qed.

(** What keep writes is what has changed. *)
Lemma keep_mirrors (p q : Pool) (id : client) (now now' : Z) (T : Leases) (c : client) (t : Z) : id <> [] -> c = id -> now <= now' <= t ->
  (forall t, now <= t -> Committed p id t = live_at t (T !! id)) ->
  Committed q c t = live_at t ((match keep s p q id now' with
    | KeepPut l => <[id := l]> T | KeepDelete => delete id T | KeepNothing => T end) !! c).
Proof using Hleases.
  intros Hid -> Ht HT. unfold keep. rewrite Hleases, bool_decide_false by done. cbn [negb orb].
  pose proof (HT now' ltac:(lia)) as Hnow. pose proof (Committed_later q id now' t ltac:(lia)) as Hq.
  destruct (Committed q id now') as [is_|] eqn:Eq.
  - destruct Hq as [?|(l & [= <-] & ->)]; [done|].
    assert (forall T' : Leases, T' !! id = Some is_ ->
      (if t <? Expiry is_ then Some is_ else None) = live_at t (T' !! id)) as Hgo by (by intros T' ->).
    destruct (Committed p id now') as [was|]; [case_bool_decide as Hw|]; apply Hgo;
      [|apply lookup_insert_eq|apply lookup_insert_eq].
    subst was. destruct (T !! id) as [l|]; [|done]. cbn in Hnow. destruct (now' <? Expiry l); [congruence|done].
  - rewrite (Committed_gone q id now' t) by (done || lia).
    destruct (Committed p id now') as [was|]; [by rewrite lookup_delete_eq|].
    destruct (T !! id) as [l|]; [|done]. symmetry. apply (live_at_later now'); [lia|done].
Qed.

(** What a list of effects writes. *)
Lemma effects_write es : forall r, fold_left (apply_effect expires) es r =
  mkRunning (rpool r) (fold_left (fun T w => apply_write expires w T) (omap write_of es).*1 (table r)) (disk r)
    (writes r ++ omap write_of es) (failed r) (clk r).
Proof.
  induction es as [|e es IH]; intros r; [by destruct r; cbn; rewrite app_nil_r|]. cbn [fold_left]. rewrite IH. unfold apply_effect.
  cbn [omap list_omap]. destruct (write_of e) as [[w tag]|]; [|done]. cbn. by rewrite <- app_assoc.
Qed.

(** What a message changes: nothing, what is expired, or what [keep] says of a packet. *)
Lemma HandleInfo_cases p m now now' q es : HandleInfo s p m now now' = Ret (q, es) ->
  (q = p /\ omap write_of es = []) \/ (q = p /\ omap write_of es = [(WExpire now', None)]) \/
  exists b h id, answer s p b now = Ret (q, h, id) /\
    omap write_of es = match keep s p q id now' with
      | KeepPut l => [(WPut id l, h)] | KeepDelete => [(WDelete id, None)] | KeepNothing => [] end.
Proof.
  intros HH. destruct m as [b|h err| | | | |]; cbn [HandleInfo] in HH; try (injection HH as <- <-; by eauto).
  bind_inv HH. destruct a as [[next h] id]. right. right. exists b, h, id.
  destruct (keep s p next id now') as [l| |] eqn:Ek, h as [h|]; injection HH as <- <-; by rewrite Ek.
Qed.

(** A write of another client's entry, or an expiry, changes nothing of a client's lease. *)
Lemma write_other (w : write) (T : Leases) c t : write_client w <> Some c -> (forall n, w = WExpire n -> n <= t) ->
  live_at t (apply_write expires w T !! c) = live_at t (T !! c).
Proof using expires_late.
  intros Hc Hn. destruct w as [id l|id|n]; cbn in *; [by rewrite lookup_insert_ne by congruence|by rewrite lookup_delete_ne by congruence|].
  specialize (Hn n eq_refl). destruct (T !! c) as [l|] eqn:El; [|by rewrite map_lookup_filter_None_2 by by left].
  destruct (expires n l) eqn:Ex; [|by rewrite (map_lookup_filter_Some_2 _ _ _ l El)].
  rewrite map_lookup_filter_None_2 by (right; intros l'; rewrite El; intros [= <-]; cbn; congruence).
  apply expires_late in Ex. cbn. by rewrite (proj2 (Z.ltb_ge _ _)) by lia.
Qed.

Lemma step_mirrors r r' : good (cfg s) (rpool r) -> mirrored r -> step expires s r r' ->
  good (cfg s) (rpool r') /\ mirrored r' /\ clk r <= clk r'.
Proof using Hleases Hwf Hdns expires_late.
  intros Hg Hm Hstep. destruct Hstep as [r m now now' p es Hclk _ HH|r w tag ws err D now now' p es Hw Hclk HD HH].
  2: { assert (p = rpool r /\ omap write_of es = []) as [-> Hes].
       { destruct tag as [h|]; cbn [reported HandleInfo] in HH; by injection HH as <- <-. }
       rewrite effects_write, Hes. cbn [rpool clk table]. split; [done|]. split; [|lia]. intros c t Hc Ht. apply Hm; [done|]. cbn in Ht. lia. }
  rewrite effects_write. cbn [rpool clk table writes].
  destruct (HandleInfo_cases _ _ _ _ _ _ HH) as [[-> ->]|[[-> ->]|(b & h & id & Ha & ->)]].
  - split; [done|]. split; [|lia]. intros c t Hc Ht. apply Hm; [done|]. cbn in Ht. lia.
  - split; [done|]. split; [|lia]. intros c t Hc Ht. cbn [fmap list_fmap fst fold_left table rpool clk] in *.
    rewrite write_other by (done || (intros ? [= <-]; lia)). apply Hm; [done|lia].
  - destruct (answer_change _ _ _ _ _ _ Hg Ha) as [Hg' Hchg]. split; [done|]. split; [|lia].
    intros c t Hc Ht. cbn [rpool table clk] in *. destruct Hg as (Hi & _ & n & bits & Hs). destruct (decide (c = id)) as [->|Hne].
    + pose proof (keep_mirrors (rpool r) p id now now' (table r) id t) as Hk. rewrite Hk; [|done|done|lia|intros t' Ht'; apply Hm; [done|lia]].
      by destruct (keep s (rpool r) p id now').
    + rewrite (Committed_other (rpool r) id now p c t n bits Hi Hs Hchg Hne) by lia.
      rewrite Hm by (done || lia). f_equal.
      destruct (keep s (rpool r) p id now'); cbn; [by rewrite lookup_insert_ne|by rewrite lookup_delete_ne|done].
Qed.

(** ** The disk follows *)

Definition replay (ws : list (write * option held)) (T : Leases) : Leases := fold_left (fun T w => apply_write expires w T) ws.*1 T.

Definition dated (t : Z) (ws : list (write * option held)) : Prop := forall n tag, (WExpire n, tag) ∈ ws -> n <= t.

Lemma write_congr (w : write) (T T' : Leases) c t : (forall n, w = WExpire n -> n <= t) -> live_at t (T !! c) = live_at t (T' !! c) ->
  live_at t (apply_write expires w T !! c) = live_at t (apply_write expires w T' !! c).
Proof using expires_late.
  intros Hn HT. destruct (decide (write_client w = Some c)) as [Hc|Hc]; [|by rewrite !write_other].
  destruct w; cbn in *; simplify_eq; by rewrite ?lookup_insert_eq, ?lookup_delete_eq.
Qed.

Lemma dated_cons t (w : write) tag ws : dated t ((w, tag) :: ws) -> (forall n, w = WExpire n -> n <= t) /\ dated t ws.
Proof. intros Hd. split; [intros n ->; apply (Hd n tag); left|intros n tag' Hn; apply (Hd n tag'); by right]. Qed.

Lemma dated_app t ws ws' : dated t (ws ++ ws') <-> dated t ws /\ dated t ws'.
Proof. unfold dated. setoid_rewrite elem_of_app. naive_solver. Qed.

Lemma dated_later t t' ws : t <= t' -> dated t ws -> dated t' ws.
Proof. intros Ht Hd n tag Hn. specialize (Hd n tag Hn). lia. Qed.

Lemma replay_congr ws c t : dated t ws -> forall T T' : Leases, live_at t (T !! c) = live_at t (T' !! c) ->
  live_at t (replay ws T !! c) = live_at t (replay ws T' !! c).
Proof using expires_late.
  unfold replay. induction ws as [|[w tag] ws IH]; intros Hd T T' HT; [done|]. apply dated_cons in Hd as [Hn Hd].
  cbn. apply IH; [done|]. by apply write_congr.
Qed.

(** The last write of a client decides its entry, whatever was there. *)
Lemma replay_under_way ws c t : dated t ws -> (exists w tag, (w, tag) ∈ ws /\ write_client w = Some c) ->
  forall T T' : Leases, live_at t (replay ws T !! c) = live_at t (replay ws T' !! c).
Proof using expires_late.
  unfold replay. induction ws as [|[w tag] ws IH]; intros Hd (w' & tag' & Hin & Hc) T T'; [by apply not_elem_of_nil in Hin|].
  apply dated_cons in Hd as [Hn Hd]. cbn. apply elem_of_cons in Hin as [[= -> ->]|Hin]; [|apply IH; eauto].
  apply (replay_congr ws c t Hd). destruct w; cbn in *; simplify_eq; by rewrite ?lookup_insert_eq, ?lookup_delete_eq.
Qed.

Lemma replay_untouched ws c t : dated t ws -> (forall w tag, (w, tag) ∈ ws -> write_client w <> Some c) ->
  forall T : Leases, live_at t (replay ws T !! c) = live_at t (T !! c).
Proof using expires_late.
  unfold replay. induction ws as [|[w tag] ws IH]; intros Hd Hc T; [done|]. apply dated_cons in Hd as [Hn Hd]. cbn.
  rewrite IH by (done || (intros w' tag' Hin; apply (Hc w' tag'); by right)). apply write_other; [|done]. apply (Hc w tag). left.
Qed.

Lemma replay_app ws ws' T : replay (ws ++ ws') T = replay ws' (replay ws T).
Proof. unfold replay. by rewrite fmap_app, fold_left_app. Qed.

(** Once the writes under way are done, the disk holds what the table was asked to, of
    every client whose last write has not failed. *)
Definition catches_up (r : running) : Prop :=
  dated (clk r) (writes r) /\
  forall c t, clk r <= t -> c ∉ failed r \/ under_way r c -> live_at t (replay (writes r) (disk r) !! c) = live_at t (table r !! c).

(** Asking for more writes keeps it so. *)
Lemma catches_up_ask r p ws now : catches_up r -> clk r <= now -> dated now ws ->
  catches_up (mkRunning p (replay ws (table r)) (disk r) (writes r ++ ws) (failed r) now).
Proof using expires_late.
  intros [Hd Hc] Hnow Hws. split; cbn [clk writes failed disk table]; [apply dated_app; split; [by eapply dated_later|done]|].
  intros c t Ht Hk. rewrite replay_app. assert (dated t ws) as Hwst by by eapply dated_later.
  destruct (decide (Exists (fun w => write_client w.1 = Some c) ws)) as [[[w tag] [Hin Hw]]%Exists_exists|Hno];
    [by apply (replay_under_way ws c t); eauto|].
  apply (replay_congr ws c t Hwst), Hc; [lia|]. destruct Hk as [?|(w & tag & Hin & Hw)]; [by left|right]. cbn [writes] in Hin.
  apply elem_of_app in Hin as [Hin|Hin]; [by exists w, tag|]. destruct Hno. apply Exists_exists. by exists (w, tag).
Qed.

Lemma step_catches_up r r' : catches_up r -> step expires s r r' -> catches_up r'.
Proof using All.
  intros Hr Hstep. destruct Hstep as [r m now now' p es Hclk _ HH|r w tag ws err D now now' p es Hw Hclk HD HH]; rewrite effects_write;
    cbn [rpool clk table writes disk failed].
  - apply (catches_up_ask r p (omap write_of es) now'); [done|lia|].
    destruct (HandleInfo_cases _ _ _ _ _ _ HH) as [[_ ->]|[[_ ->]|(b & h & id & _ & ->)]].
    + by intros n tag ?%not_elem_of_nil.
    + intros n tag Hin%list_elem_of_singleton. assert (n = now') by congruence. lia.
    + intros n tag. by destruct (keep _ _ _ _ _); [intros ?%list_elem_of_singleton|intros ?%list_elem_of_singleton|intros ?%not_elem_of_nil].
  - assert (omap write_of es = []) as -> by (destruct tag as [h|]; cbn [reported HandleInfo] in HH; by injection HH as <- <-).
    cbn [fmap list_fmap fold_left]. rewrite app_nil_r. destruct Hr as [Hd Hc]. rewrite Hw in Hd. destruct (dated_cons _ _ _ _ Hd) as [Hn Hdw].
    split; cbn [clk writes failed disk table]; [by apply (dated_later (clk r)); [lia|]|].
    intros c t Ht Hk. assert (dated t ws) as Hdt by (apply (dated_later (clk r)); [lia|done]).
    assert (c ∉ failed r \/ under_way r c -> live_at t (replay ws (apply_write expires w (disk r)) !! c) = live_at t (table r !! c)) as Hc'.
    { intros Hk'. specialize (Hc c t ltac:(lia) Hk'). by rewrite Hw in Hc. }
    assert (under_way (mkRunning (rpool r) (table r) D ws (failed r) now') c -> live_at t (replay ws D !! c) = live_at t (table r !! c)) as Hlater.
    { intros (w' & tag' & Hin & Hw'). cbn [writes] in Hin. rewrite <- Hc'; [apply (replay_under_way ws c t Hdt); eauto|].
      right. exists w', tag'. split; [rewrite Hw; by right|done]. }
    destruct Hk as [Hk|Hk]; [|by apply Hlater]. destruct (decide (write_client w = Some c)) as [Hwc|Hwc].
    + assert (err = false) as -> by (unfold mark in Hk; rewrite Hwc in Hk; destruct err; [set_solver|done]).
      destruct HD as [->|[? _]]; [|done]. apply Hc'. right. exists w, tag. split; [rewrite Hw; left|done].
    + assert (c ∉ failed r) as Hf by (unfold mark in Hk; destruct (write_client w), err; set_solver).
      rewrite <- Hc' by by left. destruct HD as [->|[_ ->]]; [done|]. apply (replay_congr ws c t Hdt). symmetry. apply write_other; [done|].
      intros n ->. specialize (Hn n eq_refl). lia.
Qed.

End Serve.

(** ** Starting again *)

(** A pool being restored: every lease of it is one restored, live at the start. *)
Definition restoring (p : Pool) (now : Z) : Prop :=
  pool_inv p /\ declined p = ∅ /\ forall c l, byClient p !! c = Some l -> now < expiry l.

(** A lease is taken if it is live, the pool hands out its address, and no lease already
    taken has it. *)
Definition takes (p : Pool) (l : Lease) (now : Z) : bool :=
  (now <? Expiry l) && usable p (IP l) && bool_decide (byIP p !! IP l = None).

Lemma Restore_takes p c l now : restoring p now -> byClient p !! c = None ->
  Pool_Restore p c l now = if takes p l now
    then (true, with_maps p (<[c := mkLease (IP l) (Expiry l) bindingCommitted]> (byClient p)) (<[IP l := c]> (byIP p)))
    else (false, p).
Proof.
  intros (Hi & Hd & Hl) Hc. unfold Pool_Restore, takes. destruct (now <? Expiry l); [|done]. cbn [negb andb].
  unfold allocatable. rewrite Hd, lookup_empty. destruct (usable p (IP l)); [|done]. cbn [negb orb andb].
  unfold isFree. destruct (byIP p !! IP l) as [o|] eqn:Eo.
  - rewrite (bool_decide_false (Some o = None)) by done. destruct (inv_bwd p Hi _ _ Eo) as (lo & Hlo & _).
    rewrite bool_decide_false by congruence. rewrite Hlo. cbn [default from_option id orb]. unfold expired.
    by rewrite (proj2 (Z.ltb_lt _ _) (Hl o lo Hlo)).
  - rewrite (bool_decide_true (None = None)) by done. cbn [negb]. unfold clear. by rewrite Hc.
Qed.

Lemma Restore_restoring p c l now : restoring p now -> byClient p !! c = None ->
  restoring (Pool_Restore p c l now).2 now /\ same_config p (Pool_Restore p c l now).2
  /\ forall c', c' <> c -> byClient (Pool_Restore p c l now).2 !! c' = byClient p !! c'.
Proof.
  intros Hp Hc. pose proof Hp as (Hi & Hd & Hl). rewrite (Restore_takes p c l now Hp Hc).
  destruct (takes p l now) eqn:Et; [|by split_and!]. unfold takes in Et.
  apply andb_true_iff in Et as [Et Hf%bool_decide_eq_true]. apply andb_true_iff in Et as [He%Z.ltb_lt Hu].
  pose proof (Restore_inv p c l now Hi) as Hinv. rewrite (Restore_takes p c l now Hp Hc) in Hinv.
  assert (takes p l now = true) as Et' by (unfold takes; by rewrite (proj2 (Z.ltb_lt _ _) He), Hu, bool_decide_true).
  rewrite Et' in Hinv. cbn [snd] in *. destruct Hinv as [Hi' Hs]; [intros o; by rewrite Hf|].
  split; [split; [done|split; [exact Hd|]]|split; [done|]].
  - intros c' l'. change (<[c := mkLease (IP l) (Expiry l) bindingCommitted]> (byClient p) !! c' = Some l' -> now < expiry l').
    rewrite lookup_insert_Some. intros [[<- <-]|[_ H]]; [done|by eapply Hl].
  - intros c' Hne. by apply lookup_insert_ne.
Qed.

Lemma restore_loop_spec now ls : forall p, restoring p now -> NoDup ls.*1 -> (forall c, c ∈ ls.*1 -> byClient p !! c = None) ->
  exists q gone, restore_loop p ls now = (q, gone) /\ restoring q now /\ same_config p q
    /\ (forall c, c ∉ ls.*1 -> byClient q !! c = byClient p !! c /\ (c ∉ gone))
    /\ (forall c l, (c, l) ∈ ls -> ((c ∈ gone) /\ byClient q !! c = None) \/
          ((c ∉ gone) /\ byClient q !! c = Some (mkLease (IP l) (Expiry l) bindingCommitted)))
    /\ (forall c l, (c, l) ∈ ls -> now < Expiry l -> usable p (IP l) = true -> byIP p !! IP l = None ->
          (forall c' l', (c', l') ∈ ls -> now < Expiry l' -> IP l' = IP l -> c' = c) -> c ∉ gone).
Proof.
  induction ls as [|[c l] ls IH]; intros p Hp Hn Hfree.
  { exists p, []. split_and!; try done; by intros c l ?%not_elem_of_nil. }
  cbn in Hn. apply NoDup_cons in Hn as [Hc Hn]. assert (byClient p !! c = None) as Hpc by (apply Hfree; by left).
  destruct (Restore_restoring p c l now Hp Hpc) as (Hp1 & Hs1 & Ho1). pose proof (Restore_takes p c l now Hp Hpc) as Hr.
  cbn [restore_loop]. destruct (Pool_Restore p c l now) as [taken p1] eqn:Ep. cbn [snd] in *.
  destruct (IH p1 Hp1 Hn) as (q & gone & -> & Hq & Hs & Hout & Hin & Hkeep).
  { intros c' Hc'. rewrite Ho1 by (intros ->; done). apply Hfree. by right. }
  assert (forall c' l', (c', l') ∈ ls -> c' <> c) as Hne by (intros c' l' H E; subst c'; apply Hc, list_elem_of_fmap; by exists (c, l')).
  destruct (Hout c Hc) as [Hqc Hgc]. exists q, (if taken then gone else c :: gone). split; [done|]. split; [done|].
  split; [by etrans|]. split; [|split].
  - intros c' [Hc1 Hc2]%not_elem_of_cons. destruct (Hout c' Hc2) as [-> Hg]. split; [by apply Ho1|]. destruct taken; set_solver.
  - intros c' l' [[= -> ->]|H]%elem_of_cons.
    + rewrite Hqc. destruct (takes p l now); injection Hr as -> ->; [right|left].
      * split; [done|]. apply lookup_insert_eq.
      * split; [left|done].
    + pose proof (Hne c' l' H). destruct (Hin c' l' H) as [[? ?]|[? ?]]; [left|right]; (split; [|done]); destruct taken; set_solver.
  - intros c' l' H Hl Hu Hip Hone. apply elem_of_cons in H as [[= -> ->]|H].
    + assert (takes p l now = true) as Et by (unfold takes; by rewrite (proj2 (Z.ltb_lt _ _) Hl), Hu, bool_decide_true).
      rewrite Et in Hr. by injection Hr as -> ->.
    + pose proof (Hne c' l' H) as Hcc. assert (c' ∉ gone); [|destruct taken; set_solver]. apply (Hkeep c' l' H Hl).
      * by rewrite (usable_config p p1).
      * destruct (takes p l now) eqn:Et; injection Hr as -> ->; [|done].
        change (<[IP l := c]> (byIP p) !! IP l' = None). rewrite lookup_insert_ne; [done|]. intros E. destruct Hcc.
        symmetry. apply (Hone c l); [left| |done]. unfold takes in Et. apply andb_true_iff in Et as [Et _].
        apply andb_true_iff in Et as [Et _]. by apply Z.ltb_lt.
      * intros c2 l2 H2. apply (Hone c2 l2). by right.
Qed.

Lemma delete_gone_all fails gone : (forall id, fails id = false) -> forall T : Leases,
  exists T', delete_gone fails gone T = Ret T' /\
    forall c, T' !! c = if bool_decide (c ∈ gone) then None else T !! c.
Proof.
  intros Hf. induction gone as [|id gone IH]; intros T; [by exists T|].
  cbn [delete_gone]. rewrite Hf. destruct (IH (delete id T)) as (T' & -> & HT). exists T'. split; [done|].
  intros c. rewrite HT. destruct (decide (c = id)) as [->|Hne].
  - rewrite lookup_delete_eq. case_bool_decide; (rewrite bool_decide_true by by left); done.
  - rewrite lookup_delete_ne by done. erewrite bool_decide_ext; [done|]. rewrite elem_of_cons. naive_solver.
Qed.

(** When deletions fail, starter ends with an error, never with a wrong pool. *)
Lemma delete_gone_ret fails gone : forall T T' : Leases, delete_gone fails gone T = Ret T' ->
  forall c, T' !! c = if bool_decide (c ∈ gone) then None else T !! c.
Proof.
  induction gone as [|id gone IH]; intros T T'; cbn [delete_gone]; [by intros [= ->]|].
  destruct (fails id); [done|]. intros H c. rewrite (IH _ _ H). destruct (decide (c = id)) as [->|Hne].
  - rewrite lookup_delete_eq. case_bool_decide; (rewrite bool_decide_true by by left); done.
  - rewrite lookup_delete_ne by done. erewrite bool_decide_ext; [done|]. rewrite elem_of_cons. naive_solver.
Qed.

Lemma NewPool_empty sub server dur p : NewPool sub server dur = Ret p ->
  byClient p = ∅ /\ byIP p = ∅ /\ declined p = ∅.
Proof.
  unfold NewPool. intros H. repeat (case_match; try done). bind_inv H. by injection H as <-.
Qed.

(** ** The server's life *)

Section Life.
Context (expires : Z -> Lease -> bool).
Hypothesis expires_late : forall now l, expires now l = true -> Expiry l <= now.
Context (s : server).
Hypothesis Hleases : haveLeases s = true.
Hypothesis Hwf : prefix_wf (Subnet (cfg s)).
Hypothesis Hdns : Forall (fun a => Is4 a = true) (DNSServers (cfg s)).

(** A start with any table, whatever the order it is read in: the pool has the leases of
    the table that are left, and a lease nothing stands in the way of is left. *)
Lemma starter_spec (ls : list (client * Lease)) (T : Leases) now p : ls ≡ₚ map_to_list T -> NewPool (Subnet (cfg s)) (ServerIP (cfg s)) (LeaseTime (cfg s)) = Ret p ->
  exists q gone, (forall fails, starter fails s ls T now = (leases ← delete_gone fails gone T; Ret (q, leases)))
    /\ good (cfg s) q /\ same_config p q
    /\ (forall c t, now <= t -> Committed q c t = live_at t (if bool_decide (c ∈ gone) then None else T !! c))
    /\ (forall c l, T !! c = Some l -> now < Expiry l -> usable p (IP l) = true ->
          (forall c' l', T !! c' = Some l' -> now < Expiry l' -> IP l' = IP l -> c' = c) -> c ∉ gone).
Proof using Hleases Hwf Hdns.
  intros Hls HN. destruct (NewPool_empty _ _ _ _ HN) as (Hbc & Hbi & Hd).
  destruct (NewPool_good (cfg s) Hwf Hdns p HN) as [(Hip & Hc & n & bits & Hs) _].
  assert (forall c l, (c, l) ∈ ls <-> T !! c = Some l) as Hin by (intros c l; rewrite Hls; apply elem_of_map_to_list).
  destruct (restore_loop_spec now ls p) as (q & gone & HR & (Hiq & _) & Hq & Hout & Hcase & Hkeep).
  { split; [done|]. split; [done|]. intros c l. by rewrite Hbc, lookup_empty. }
  { rewrite Hls. apply NoDup_fst_map_to_list. }
  { intros c _. by rewrite Hbc, lookup_empty. }
  exists q, gone. split; [|split; [|split; [done|split]]].
  - intros fails. unfold starter. rewrite HN, bind_ret, Hleases. unfold restore. by rewrite HR.
  - split; [done|]. split; [by eapply cfg_ok_config|]. exists n, bits. by eapply subnet_is_config.
  - intros c t Ht. unfold Committed. destruct (T !! c) as [l|] eqn:Hcl.
    + destruct (Hcase c l ltac:(by apply Hin)) as [[Hg ->]|[Hg ->]]; [by rewrite bool_decide_true|]. rewrite bool_decide_false by done.
      cbn. unfold expired. cbn. destruct l as [a e]. cbn. by destruct (t <? e).
    + destruct (Hout c) as [-> Hg]; [intros [[c' l] [-> Hl]]%list_elem_of_fmap; cbn in Hcl; apply Hin in Hl; congruence|].
      rewrite bool_decide_false by done. by rewrite Hbc, lookup_empty.
  - intros c l Hl%Hin He Hu Hone. apply (Hkeep c l Hl He Hu); [by rewrite Hbi, lookup_empty|].
    intros c' l' Hl'%Hin. by apply Hone.
Qed.

Lemma starter_ret (fails : client -> bool) (ls : list (client * Lease)) (T T' : Leases) now q : ls ≡ₚ map_to_list T -> starter fails s ls T now = Ret (q, T') ->
  good (cfg s) q /\ (exists p, NewPool (Subnet (cfg s)) (ServerIP (cfg s)) (LeaseTime (cfg s)) = Ret p /\ same_config p q)
  /\ (forall c t, now <= t -> Committed q c t = live_at t (T' !! c)) /\ T' ⊆ T.
Proof using Hleases Hwf Hdns.
  intros Hls HS. assert (exists p, NewPool (Subnet (cfg s)) (ServerIP (cfg s)) (LeaseTime (cfg s)) = Ret p) as [p HN].
  { unfold starter in HS. destruct (NewPool _ _ _) as [p| |]; [by exists p|done..]. }
  destruct (starter_spec ls T now p Hls HN) as (q' & gone & HS' & Hg & Hq & Hc & _). rewrite HS' in HS. bind_inv HS.
  injection HS as <- <-. pose proof (delete_gone_ret fails gone _ _ E) as HT. split; [done|]. split; [by exists p|]. split.
  - intros c t Ht. by rewrite HT, Hc.
  - apply map_subseteq_spec. intros c l. rewrite HT. by case_bool_decide.
Qed.

Definition life_inv (r : running) : Prop :=
  good (cfg s) (rpool r) /\ mirrored r /\ catches_up expires r /\
  exists p, NewPool (Subnet (cfg s)) (ServerIP (cfg s)) (LeaseTime (cfg s)) = Ret p /\ same_config p (rpool r).

Lemma step_life_inv r r' : life_inv r -> step expires s r r' -> life_inv r' /\ clk r <= clk r'.
Proof using Hleases Hwf Hdns expires_late.
  intros (Hg & Hm & Hc & p & HN & Hp) Hstep.
  destruct (step_mirrors expires expires_late s Hleases Hwf Hdns r r' Hg Hm Hstep) as (Hg' & Hm' & Hk).
  split; [|done]. split; [done|]. split; [done|]. split; [by apply (step_catches_up expires expires_late s Hleases Hwf Hdns r r')|].
  exists p. split; [done|]. etrans; [exact Hp|]. clear Hg' Hm' Hk Hm Hc.
  destruct Hstep as [r m now now' q es _ _ HH|r w tag ws err D now now' q es _ _ _ HH]; rewrite effects_write; cbn [rpool].
  - destruct (HandleInfo_cases s _ _ _ _ _ _ HH) as [[-> _]|[[-> _]|(b & h & id & Ha & _)]]; [done..|].
    destruct (answer_change s Hwf Hdns _ _ _ _ _ _ Hg Ha) as [_ Hchg].
    destruct Hg as (Hi & _ & n & bits & Hs). by destruct (pool_change_inv _ n bits _ _ _ Hi Hs Hchg) as [_ Hcfg].
  - destruct tag as [h|]; cbn [reported HandleInfo] in HH; by injection HH as <- <-.
Qed.

(** The deletions of a start over an open table are writes of its own. *)
Lemma again_catches_up (r : running) (T T' : Leases) p now : catches_up expires r -> clk r <= now ->
  (forall c, c ∉ failed r \/ under_way r c -> T !! c = table r !! c) -> T' ⊆ T ->
  catches_up expires (mkRunning p T' (disk r) (left_under_way r T T') (failed r) now).
Proof using All.
  intros [Hd Hc] Hnow HT Hsub. unfold left_under_way. set (old := _ <$> writes r). set (dels := _ <$> elements _).
  assert (replay expires old (disk r) = replay expires (writes r) (disk r)) as Hold.
  { unfold replay, old. by rewrite <- list_fmap_compose. }
  assert (forall w tag, (w, tag) ∈ old -> exists tag', (w, tag') ∈ writes r) as Hin.
  { intros w tag [[w' tag'] [[= -> ->] H]]%list_elem_of_fmap. by exists tag'. }
  assert (forall w tag, (w, tag) ∈ dels -> exists c, w = WDelete c /\ c ∈ dom T ∖ dom T') as Hdels.
  { intros w tag [c [[= -> ->] H%elem_of_elements]]%list_elem_of_fmap. by exists c. }
  assert (dated now old) as Hdo by (intros n tag Hn; destruct (Hin _ _ Hn) as [tag' Hn']; specialize (Hd n tag' Hn'); lia).
  assert (dated now dels) as Hdd by (intros n tag Hn; by destruct (Hdels _ _ Hn) as (c & ? & _)).
  split; cbn [clk writes failed disk table]; [by apply dated_app|]. intros c t Ht Hk. rewrite replay_app, Hold.
  destruct (decide (c ∈ dom T ∖ dom T')) as [Hcd|Hcd].
  - assert ((WDelete c, None) ∈ dels) as Hcw by (apply list_elem_of_fmap; exists c; split; [done|by apply elem_of_elements]).
    assert (T' !! c = None) as -> by (apply not_elem_of_dom; set_solver).
    rewrite (replay_under_way expires expires_late dels c t ltac:(by eapply dated_later; [|exact Hdd]) ltac:(by eexists _, _) _ ∅).
    assert (forall ws (D : Leases), D !! c = None -> (forall w tag, (w, tag) ∈ ws -> exists c, w = WDelete c) -> replay expires ws D !! c = None) as Hnone.
    { unfold replay. induction ws as [|[w tag] ws IH]; intros D HD Hw; [done|]. cbn. apply IH; [|intros w' tag' ?; apply (Hw w' tag'); by right].
      destruct (Hw w tag ltac:(left)) as [c' ->]. cbn. destruct (decide (c' = c)) as [->|]; [by rewrite lookup_delete_eq|by rewrite lookup_delete_ne]. }
    rewrite Hnone; [done|done|]. intros w tag Hw. destruct (Hdels w tag Hw) as (c' & -> & _). by exists c'.
  - rewrite (replay_untouched expires expires_late dels c t ltac:(by eapply dated_later; [|exact Hdd])).
    2: { intros w tag Hw. destruct (Hdels w tag Hw) as (c' & -> & Hc'). cbn. intros [= ->]. done. }
    assert (c ∉ failed r \/ under_way r c) as Hk'.
    { destruct Hk as [?|(w & tag & Hw & Hwc)]; [by left|right]. cbn [writes] in Hw. apply elem_of_app in Hw as [Hw|Hw].
      - destruct (Hin w tag Hw) as [tag' ?]. by exists w, tag'.
      - destruct (Hdels w tag Hw) as (c' & -> & Hc'). cbn in Hwc. congruence. }
    rewrite Hc by (done || lia). rewrite <- HT by done. f_equal. destruct (T' !! c) as [l|] eqn:El.
    + by eapply lookup_weaken.
    + destruct (T !! c) as [l|] eqn:El2; [|done]. destruct Hcd. apply elem_of_difference. split; [by apply elem_of_dom_2 in El2|by apply not_elem_of_dom].
Qed.

Lemma life_has_inv r : life expires s r -> life_inv r.
Proof using Hleases Hwf Hdns expires_late.
  induction 1 as [fails ls T now p T' He Hls HS|r r' _ IH Hstep|r fails ls T now p T' _ IH Hclk He HT Hls HS].
  - destruct (starter_ret _ _ _ _ _ _ Hls HS) as (Hg & HN & Hc & _). split; [done|]. split; [|split; [|done]].
    + intros c t _ Ht. by apply Hc.
    + split; [intros n tag ?%not_elem_of_nil; done|]. done.
  - by apply (step_life_inv r r').
  - destruct (starter_ret _ _ _ _ _ _ Hls HS) as (Hg & HN & Hc & Hsub). destruct IH as (_ & _ & Hcu & _).
    split; [done|]. split; [|split; [|done]].
    + intros c t _ Ht. by apply Hc.
    + by apply again_catches_up.
Qed.

Lemma settled_disk r c t : life_inv r -> settled r c -> clk r <= t -> live_at t (disk r !! c) = live_at t (table r !! c).
Proof using All.
  intros (_ & _ & [Hd Hc] & _) [Hf Hu] Ht. rewrite <- Hc by (done || by left). symmetry. apply replay_untouched; [done| |].
  - by eapply dated_later; [|exact Hd].
  - intros w tag Hw Hwc. apply Hu. by exists w, tag.
Qed.
End Life.

(** ** Properties *)

(** C7: The pool, the table and the disk.  Through a server's life, restarts of it and
    of the whole program included, whatever the table's writes do: the pool and what the
    table has been asked to hold agree on every client's committed lease, now and at any
    later time; and the disk agrees with them for every client none of whose writes is
    under way, and whose last has not failed. *)
Theorem table_mirrors_pool expires s r :
  (forall now l, expires now l = true -> Expiry l <= now) ->
  haveLeases s = true -> prefix_wf (Subnet (cfg s)) -> Forall (fun a => Is4 a = true) (DNSServers (cfg s)) ->
  life expires s r ->
  forall c t, c <> [] -> clk r <= t -> Committed (rpool r) c t = live_at t (table r !! c)
    /\ (settled r c -> Committed (rpool r) c t = live_at t (disk r !! c)).
Proof.
  intros Hx Hl Hwf Hdns Hr c t Hc Ht. pose proof (life_has_inv expires Hx s Hl Hwf Hdns r Hr) as Hinv.
  destruct Hinv as (Hg & Hm & Hrest). split; [by apply Hm|]. intros Hset.
  rewrite (settled_disk expires Hx s Hl Hwf Hdns r c t); [by apply Hm|by split|done..].
Qed.

(** C6: A restart loses and invents no lease that was on disk.  From any moment of a
    server's life, starting again with the table it left -- what is on disk, the entries
    of the clients whose last write had failed or was under way being anything -- in
    whatever order it is read, succeeds (the table's deletions succeeding); every client
    then has exactly the lease the table is left with, one it had; and every other client
    has the committed lease it had, with the expiry it had, unless such an entry has its
    address. *)
Theorem restart_keeps_leases expires s r T ls now fails :
  (forall now l, expires now l = true -> Expiry l <= now) ->
  haveLeases s = true -> prefix_wf (Subnet (cfg s)) -> Forall (fun a => Is4 a = true) (DNSServers (cfg s)) ->
  life expires s r -> clk r <= now -> T !! [] = None ->
  (forall c t, settled r c -> now <= t -> live_at t (T !! c) = live_at t (disk r !! c)) ->
  ls ≡ₚ map_to_list T -> (forall id, fails id = false) ->
  exists pool leases, starter fails s ls T now = Ret (pool, leases) /\ pool_inv pool /\ leases ⊆ T
    /\ (forall c t, now <= t -> Committed pool c t = live_at t (leases !! c))
    /\ forall c t, c <> [] -> settled r c -> now <= t ->
         (forall c' l l', T !! c = Some l -> T !! c' = Some l' -> ~ settled r c' -> IP l' = IP l -> Expiry l' <= now) ->
         Committed pool c t = Committed (rpool r) c t.
Proof.
  intros Hx Hl Hwf Hdns Hr Hclk He HT Hls Hf. pose proof (life_has_inv expires Hx s Hl Hwf Hdns r Hr) as Hinv.
  pose proof Hinv as (Hg & Hm & _ & p & HN & Hp).
  destruct (starter_spec s Hl Hwf Hdns ls T now p Hls HN) as (q & gone & HS & Hgq & Hq & Hc & Hkeep).
  destruct (delete_gone_all fails gone Hf T) as (T' & HT' & HTl). exists q, T'. rewrite HS, HT'.
  split; [done|]. split; [apply Hgq|]. split; [apply map_subseteq_spec; intros c l; rewrite HTl; by case_bool_decide|].
  split; [intros c t Ht; by rewrite HTl, Hc|]. intros c t Hne Hset Ht Hapart.
  assert (forall c t, c <> [] -> settled r c -> now <= t -> Committed (rpool r) c t = live_at t (T !! c)) as Hsame.
  { intros c1 t1 H1 H2 H3. rewrite (HT c1 t1 H2 H3), (settled_disk expires Hx s Hl Hwf Hdns r c1 t1 Hinv H2) by lia. apply Hm; [done|lia]. }
  rewrite (Hsame c t Hne Hset Ht), Hc by done. destruct (T !! c) as [l|] eqn:El; [|by case_bool_decide].
  destruct (Z.ltb_spec now (Expiry l)) as [Hlive|Hlate].
  2: { case_bool_decide; [|done]. cbn. by rewrite (proj2 (Z.ltb_ge _ _)) by lia. }
  assert (forall c l, c <> [] -> settled r c -> T !! c = Some l -> now < Expiry l ->
    exists lp, byClient (rpool r) !! c = Some lp /\ ip lp = IP l) as Hheld.
  { intros c1 l1 H1 H2 H3 H4. pose proof (Hsame c1 now H1 H2 ltac:(lia)) as E. rewrite H3 in E. cbn in E.
    rewrite (proj2 (Z.ltb_lt _ _) H4) in E. unfold Committed in E. destruct (byClient (rpool r) !! c1) as [lp|]; [|done].
    exists lp. split; [done|]. destruct (state lp); [done|]. destruct (expired lp now); [done|]. by injection E as <-. }
  destruct (Hheld c l Hne Hset El Hlive) as (lp & Hlp & Hip).
  rewrite bool_decide_false; [done|]. apply (Hkeep c l El Hlive).
  - rewrite <- (usable_config p (rpool r)), <- Hip by done. by eapply inv_usable; [apply Hg|].
  - intros c' l' El' Hlive' Heq. destruct (decide (settled r c')) as [Hs'|Hs']; [|specialize (Hapart c' l l' eq_refl El' Hs' Heq); lia].
    destruct (Hheld c' l' ltac:(congruence) Hs' El' Hlive') as (lp' & Hlp' & Hip').
    eapply inv_owner_unique; [apply Hg|done|done|congruence].
Qed.

(** C9: A frame sent while a packet is handled grants nothing new: every committed
    lease of the pool after it was committed before it.  A reply that comes with a
    new or changed lease is not sent; it goes to the table with the lease, and the
    table's confirmation sends it. *)
Theorem reply_waits_for_disk s p b now now' q es :
  haveLeases s = true -> prefix_wf (Subnet (cfg s)) -> Forall (fun a => Is4 a = true) (DNSServers (cfg s)) ->
  good (cfg s) p -> now <= now' -> HandleInfo s p (DataMsg b) now now' = Ret (q, es) ->
  ((exists h, Send h ∈ es \/ SendActive h ∈ es) ->
     forall c l, c <> [] -> Committed q c now' = Some l -> Committed p c now' = Some l)
  /\ (forall id l h, Put id l (Some h) ∈ es ->
        es = [SetActive; Put id l (Some h)] /\ Committed q id now' = Some l
        /\ (forall p' t t' err, HandleInfo s p' (Durable h err) t t' = Ret (p', [Send h]))).
Proof.
  intros Hl Hwf Hdns Hg Hnow HH. cbn [HandleInfo] in HH. bind_inv HH. destruct a as [[next h] id].
  destruct (answer_change s Hwf Hdns p b now next h id Hg E) as [_ Hchg].
  destruct Hg as (Hi & _ & n & bits & Hs).
  assert (forall c, c <> id -> Committed next c now' = Committed p c now') as Hother
    by (intros c Hc; by eapply (Committed_other p id now next c now')).
  destruct (keep s p next id now') as [l| |] eqn:Ek.
  - assert (Committed next id now' = Some l) as Hc.
    { unfold keep in Ek. destruct (negb _ || _); [done|]. repeat case_match; try done; congruence. }
    destruct h as [h|]; injection HH as <- <-.
    + split; [intros (h' & Hh'); set_solver|]. intros id' l' h' Hin.
      assert (id' = id /\ l' = l /\ h' = h) as (-> & -> & ->) by set_solver. done.
    + split; [intros (h' & Hh'); set_solver|]. intros id' l' h' Hin. set_solver.
  - injection HH as <- <-. split; [|intros id' l' h' Hin; destruct h; set_solver].
    intros _ c l Hne. destruct (decide (c = id)) as [->|Hd]; [|by rewrite Hother].
    unfold keep in Ek. destruct (negb _ || _); [done|]. repeat case_match; done.
  - injection HH as <- <-. split; [|intros id' l' h' Hin; destruct h; set_solver].
    intros _ c l Hne. destruct (decide (c = id)) as [->|Hd]; [|by rewrite Hother].
    unfold keep in Ek. rewrite Hl, bool_decide_false in Ek by done. cbn in Ek.
    destruct (Committed next id now'), (Committed p id now'); try done. case_bool_decide; congruence.
Qed.

(** ** Witnesses *)

Definition lan_server : server := mkServer lan_cfg 3 true.
Definition late (now : Z) (l : Lease) : bool := Expiry l <=? now.

(** A request as the socket delivers it. *)
Definition packet (m : Message) : bytes :=
  ((0x45 :: zeros 8 ++ 17 :: zeros 10) ++ be 2 68 ++ be 2 67
    ++ be 2 (8 + zlen (Message_Marshal m)) ++ zeros 2) ++ Message_Marshal m.

Definition sample_request : Message :=
  mkMessage OpBootRequest 1 6 0 0x12345678 3 flagBroadcast
    (A4 0) (A4 0) (A4 0) (A4 0) [2; 0; 0; 0; 0; 1] [] []
    [NewMessageType Request; mkOption OptRequestedIP [192; 168; 1; 50]; mkOption OptServerID [192; 168; 1; 1]].

Definition lan_id : client := Options_ClientID (Opts sample_request) (CHAddr sample_request).

Definition served (r : running) (m : msg) (now : Z) : running :=
  match HandleInfo lan_server (rpool r) m now now with
  | Ret (p, es) => fold_left (apply_effect late) es (mkRunning p (table r) (disk r) (writes r) (failed r) now)
  | _ => r
  end.

(** The oldest write, done or failed (the disk as it was). *)
Definition written (err : bool) (r : running) : running :=
  match writes r with
  | (w, tag) :: ws =>
    mkRunning (rpool r) (table r) (if err then disk r else apply_write late w (disk r)) ws (mark err w (failed r)) (clk r)
  | [] => r
  end.

Lemma late_late now l : late now l = true -> Expiry l <= now.
Proof. apply Z.leb_le. Qed.

Lemma served_life r m now : life late lan_server r -> clk r <= now -> (forall h err, m <> Durable h err) ->
  ok (HandleInfo lan_server (rpool r) m now now) = true -> life late lan_server (served r m now).
Proof.
  intros Hr Hk Hm Hok. unfold served. destruct (HandleInfo _ _ _ _ _) as [[p es]| |] eqn:HH; [|done..].
  eapply life_step; [exact Hr|]. apply (step_msg _ _ r m now now p es); [lia|exact Hm|exact HH].
Qed.

Lemma written_life err r : life late lan_server r -> life late lan_server (written err r).
Proof.
  intros Hr. unfold written. destruct (writes r) as [|[w tag] ws] eqn:Hw; [exact Hr|]. eapply life_step; [exact Hr|].
  assert (exists es, reported lan_server (rpool r) tag err (clk r) (clk r) = Ret (rpool r, es) /\ (es = [] \/ exists h, es = [Send h])) as (es & HR & Hes).
  { destruct tag as [h|]; [exists [Send h]; split; [done|right; by exists h]|exists []; split; [done|by left]]. }
  pose proof (step_write late lan_server r w tag ws err (if err then disk r else apply_write late w (disk r)) (clk r) (clk r) _ es Hw
    ltac:(lia) ltac:(by destruct err; [right|left]) HR) as Hs.
  destruct Hes as [->|[h ->]]; exact Hs.
Qed.

Definition lan_started : running := mkRunning lan_pool ∅ ∅ [] ∅ 10.
Definition lan_offered : running := served lan_started (DataMsg (packet sample_discover)) 20.
Definition lan_granted : running := served lan_offered (DataMsg (packet sample_request)) 30.
Definition lan_kept : running := written false lan_granted.

Lemma lan_started_life : life late lan_server lan_started.
Proof. apply (life_start _ _ (fun _ => false) [] ∅ 10); [done|done|]. vm_compute. reflexivity. Qed.

Lemma lan_granted_life : life late lan_server lan_granted.
Proof.
  apply served_life; [apply served_life; [apply lan_started_life|by vm_compute|done|by vm_compute]|by vm_compute|done|by vm_compute].
Qed.

Lemma lan_kept_life : life late lan_server lan_kept.
Proof. apply written_life, lan_granted_life. Qed.

(** The lease granted is on disk once its write is done, and is not if it failed. *)
Lemma lan_kept_lease : disk lan_kept !! lan_id = Some (mkKept (A4 0xc0a80132) (30 + 12 * Hour))
  /\ settled lan_kept lan_id.
Proof. split; [vm_compute; reflexivity|]. apply (bool_decide_unpack _). vm_compute. exact I. Qed.

Example lan_lost : let r := written true lan_granted in
  Committed (rpool r) lan_id 40 = Some (mkKept (A4 0xc0a80132) (30 + 12 * Hour)) /\ disk r !! lan_id = None
  /\ bool_decide (settled r lan_id) = false.
Proof. vm_compute. repeat split. Qed.

Lemma lan_kept_clk : clk lan_kept = 30.
Proof. vm_compute. reflexivity. Qed.

Lemma lan_id_some : lan_id <> [].
Proof. vm_compute. discriminate. Qed.

Lemma table_mirrors_pool_witness : Committed (rpool lan_kept) lan_id 40 = Some (mkKept (A4 0xc0a80132) (30 + 12 * Hour)).
Proof.
  assert (clk lan_kept <= 40) as Hk by (rewrite lan_kept_clk; discriminate). destruct lan_kept_lease as [Hd Hs].
  destruct (table_mirrors_pool late lan_server lan_kept late_late eq_refl lan_wf lan_dns lan_kept_life lan_id 40 lan_id_some Hk) as [_ Hdisk].
  rewrite (Hdisk Hs), Hd. reflexivity.
Defined.

Lemma restart_keeps_leases_witness :
  exists pool leases, starter (fun _ => false) lan_server (map_to_list (disk lan_kept)) (disk lan_kept) 1000 = Ret (pool, leases)
    /\ Committed pool lan_id 1000 = Committed (rpool lan_kept) lan_id 1000.
Proof.
  assert (clk lan_kept <= 1000) as Hk by (rewrite lan_kept_clk; discriminate). destruct lan_kept_lease as [_ Hs].
  assert (disk lan_kept !! [] = None) as He by (vm_compute; reflexivity).
  assert (map_Forall (fun c' _ => bool_decide (settled lan_kept c') = true) (disk lan_kept)) as Hall
    by (apply (bool_decide_unpack _); vm_compute; exact I).
  destruct (restart_keeps_leases late lan_server lan_kept (disk lan_kept) (map_to_list (disk lan_kept)) 1000 (fun _ => false)
    late_late eq_refl lan_wf lan_dns lan_kept_life Hk He (fun _ _ _ _ => eq_refl) (Permutation_refl _) (fun _ => eq_refl))
    as (pool & leases & HS & _ & _ & _ & HC).
  exists pool, leases. split; [exact HS|]. apply (HC lan_id 1000 lan_id_some Hs ltac:(discriminate)).
  intros c' l l' _ Hl' Hns _. destruct Hns. exact (bool_decide_eq_true_1 _ (Hall c' l' Hl')).
Defined.

Lemma lan_offered_good : good lan_cfg (rpool lan_offered).
Proof.
  apply (life_has_inv late late_late lan_server eq_refl lan_wf lan_dns lan_offered).
  apply served_life; [apply lan_started_life|by vm_compute|done|by vm_compute].
Qed.

Lemma lan_grant_held : exists q h, HandleInfo lan_server (rpool lan_offered) (DataMsg (packet sample_request)) 30 30
  = Ret (q, [SetActive; Put lan_id (mkKept (A4 0xc0a80132) (30 + 12 * Hour)) (Some h)]).
Proof. eexists _, _. vm_compute. reflexivity. Qed.

Lemma reply_waits_for_disk_witness : exists q h,
  HandleInfo lan_server (rpool lan_offered) (DataMsg (packet sample_request)) 30 30
    = Ret (q, [SetActive; Put lan_id (mkKept (A4 0xc0a80132) (30 + 12 * Hour)) (Some h)])
  /\ Committed q lan_id 30 = Some (mkKept (A4 0xc0a80132) (30 + 12 * Hour)).
Proof.
  destruct lan_grant_held as (q & h & HH). exists q, h. split; [exact HH|].
  destruct (reply_waits_for_disk lan_server (rpool lan_offered) (packet sample_request) 30 30 q _
    eq_refl lan_wf lan_dns lan_offered_good ltac:(discriminate) HH) as [_ Hput].
  destruct (Hput lan_id (mkKept (A4 0xc0a80132) (30 + 12 * Hour)) h) as (_ & HC & _); [right; left|exact HC].
Defined.
