(* ===== verification/Datapath.v ===== *)
(** The userspace side of the datapath: src/pkg/datapath.  The control word and
    the migration transitions (migration.go), the next-hop slots and the
    configuration (config.go), the path MTU of a softwire (pmtu.go), the fragment
    size (frag.go) and the MSS clamp (mss.go).

    The eBPF maps live in the kernel.  They are represented by their contents and
    by a schedule [faults] telling which of the next map operations fail; every
    theorem holds for every schedule, so an operation may be interrupted at any
    map access.  [hist] records, newest first, what the packet programs could read
    after each write: the control word and the slots. *)

From S2P Require Import Prelude Wire Netip.

Local Open Scope Z_scope.

(** ** The control word (migration.go) *)

Definition migSteady : Z := 0.
Definition migPriming : Z := 1.
Definition migDraining : Z := 2.

Record migrationCtrl : Type := mkCtrl {
  activeSlot : Z; oldSlot : Z; mstate : Z; epoch : Z }.

#[export] Instance migrationCtrl_eq_dec : EqDecision migrationCtrl.
Proof. solve_decision. Defined.

Definition pack (c : migrationCtrl) : Z :=
  Z.lor (Z.lor (Z.lor (Z.land (activeSlot c) 0xff) (Z.shiftl (Z.land (oldSlot c) 0xff) 8))
               (Z.shiftl (Z.land (mstate c) 0xff) 16))
        (Z.shiftl (Z.land (epoch c) 0xff) 24).

Definition unpackMigrationCtrl (v : Z) : migrationCtrl :=
  mkCtrl (Z.land v 0xff) (Z.land (Z.shiftr v 8) 0xff)
         (Z.land (Z.shiftr v 16) 0xff) (Z.land (Z.shiftr v 24) 0xff).

(** ** The maps *)

Record NextHop : Type := mkNextHop { Valid : Z; B4Addr : bytes; AftrAddr : bytes }.
Definition zeroNextHop : NextHop := mkNextHop 0 (zeros 16) (zeros 16).

Record TunnelPmtu : Type := mkPmtu { UpdatedNs : Z; Mtu : Z }.
Definition zeroPmtu : TunnelPmtu := mkPmtu 0 0.

(** struct flow_key and struct flow_affinity of bpf/datapath.bpf.c. *)
Record FlowKey : Type := mkFlowKey { fk_src : Z; fk_dst : Z; fk_sport : Z; fk_dport : Z; Proto : Z }.
Record FlowAffinity : Type := mkAffinity { LastSeenNs : Z; Epoch : Z }.

Record B4ConfigVal : Type := mkB4Val {
  SrcMac : bytes; DstMac : bytes; WanIfindex : Z; FragUnit : Z; FragMaxInner : Z; MssClamp : Z }.
Definition zeroB4Val : B4ConfigVal := mkB4Val (zeros 6) (zeros 6) 0 0 0 0.

Record LanVal : Type := mkLanVal { GatewayIp : Z; InnerMtu : Z }.

#[export] Instance NextHop_eq_dec : EqDecision NextHop.
Proof. solve_decision. Defined.
#[export] Instance FlowKey_eq_dec : EqDecision FlowKey.
Proof. solve_decision. Defined.
#[export] Instance FlowKey_countable : Countable FlowKey.
Proof.
  refine (inj_countable' (fun k => (fk_src k, fk_dst k, fk_sport k, fk_dport k, Proto k))
    (fun '(a, b, c, d, e) => mkFlowKey a b c d e) _). by intros [].
Defined.

Abbreviation slots := (gmap Z NextHop).

Record world : Type := mkWorld {
  ctrl : Z;                            (* migration_ctrl *)
  hops : slots;                        (* next_hops; absent = zero *)
  pmtus : gmap Z TunnelPmtu;           (* tunnel_pmtus *)
  affinity : gmap FlowKey FlowAffinity; (* flow_affinity_map *)
  b4cfg : B4ConfigVal;                 (* b4_config_map *)
  lans : gmap Z LanVal;                (* lan_configs *)
  txports : gmap Z Z;                  (* tx_ports *)
  mssClampAuto : bool;                 (* the Loader's own field *)
  faults : list bool;
  hist : list (Z * slots) }.

(** The maps as the kernel creates them. *)
Definition zero_world (fs : list bool) : world :=
  mkWorld 0 ∅ ∅ ∅ zeroB4Val ∅ ∅ false fs [(0, ∅)].

Definition hop (h : slots) (s : Z) : NextHop := default zeroNextHop (h !! s).

Definition with_faults (w : world) (fs : list bool) : world :=
  mkWorld (ctrl w) (hops w) (pmtus w) (affinity w) (b4cfg w) (lans w) (txports w) (mssClampAuto w) fs (hist w).
Definition with_ctrl (w : world) (v : Z) : world :=
  mkWorld v (hops w) (pmtus w) (affinity w) (b4cfg w) (lans w) (txports w) (mssClampAuto w) (faults w)
    ((v, hops w) :: hist w).
Definition with_hop (w : world) (s : Z) (nh : NextHop) : world :=
  mkWorld (ctrl w) (<[s := nh]> (hops w)) (pmtus w) (affinity w) (b4cfg w) (lans w) (txports w)
    (mssClampAuto w) (faults w) ((ctrl w, <[s := nh]> (hops w)) :: hist w).
Definition with_pmtus (w : world) (m : gmap Z TunnelPmtu) : world :=
  mkWorld (ctrl w) (hops w) m (affinity w) (b4cfg w) (lans w) (txports w) (mssClampAuto w) (faults w) (hist w).
Definition with_affinity (w : world) (m : gmap FlowKey FlowAffinity) : world :=
  mkWorld (ctrl w) (hops w) (pmtus w) m (b4cfg w) (lans w) (txports w) (mssClampAuto w) (faults w) (hist w).
Definition with_b4cfg (w : world) (v : B4ConfigVal) (auto : bool) : world :=
  mkWorld (ctrl w) (hops w) (pmtus w) (affinity w) v (lans w) (txports w) auto (faults w) (hist w).
Definition with_lans (w : world) (m : gmap Z LanVal) : world :=
  mkWorld (ctrl w) (hops w) (pmtus w) (affinity w) (b4cfg w) m (txports w) (mssClampAuto w) (faults w) (hist w).
Definition with_txports (w : world) (m : gmap Z Z) : world :=
  mkWorld (ctrl w) (hops w) (pmtus w) (affinity w) (b4cfg w) (lans w) m (mssClampAuto w) (faults w) (hist w).

(** ** Fallible map operations *)

(** A Loader method: it changes the maps and returns or fails; what it did
    before failing stays. *)
Definition DP (A : Type) : Type := world -> outcome A * world.

#[export] Instance DP_ret : MRet DP := fun A a w => (Ret a, w).
#[export] Instance DP_bind : MBind DP := fun A B f m w =>
  match m w with
  | (Ret a, w') => f a w'
  | (Fail e, w') => (Fail e, w')
  | (Panic, w') => (Panic, w')
  end.

Definition fail {A} (e : string) : DP A := fun w => (Fail e, w).

(** One map operation, failing when the schedule says so. *)
Definition mapop {A} (e : string) (f : world -> A * world) : DP A := fun w =>
  let w' := with_faults w (tail (faults w)) in
  if default false (head (faults w)) then (Fail e, w')
  else let '(a, w'') := f w' in (Ret a, w'').

Definition readCtrl : DP migrationCtrl :=
  mapop "reading migration control" (fun w => (unpackMigrationCtrl (ctrl w), w)).
Definition writeCtrl (c : migrationCtrl) : DP unit :=
  mapop "writing migration control" (fun w => (tt, with_ctrl w (pack c))).

(** ** Slots (config.go) *)

Definition numNextHops : Z := 2.

Definition other (s : Z) : Z := u32 (s + 1) mod numNextHops.

Definition validateSoftwireAddrs (b4 aftr : Addr) : outcome unit :=
  if negb (Is6 b4) || Is4In6 b4 then Fail "B4 address must be IPv6"
  else if negb (Is6 aftr) || Is4In6 aftr then Fail "AFTR address must be IPv6"
  else Ret tt.

Definition lift {A} (m : outcome A) : DP A := fun w => (m, w).

Definition clearTunnelPMTU (slot : Z) : DP unit :=
  mapop "clearing tunnel PMTU slot" (fun w => (tt, with_pmtus w (<[slot := zeroPmtu]> (pmtus w)))).

Definition putNextHop (e : string) (slot : Z) (nh : NextHop) : DP unit :=
  mapop e (fun w => (tt, with_hop w slot nh)).

Definition slotIsLive (c : migrationCtrl) (slot : Z) : DP bool :=
  let resolvable := (slot =? activeSlot c) || ((mstate c =? migDraining) && (slot =? oldSlot c)) in
  if negb resolvable then mret false
  else
    nh ← mapop "reading next-hop slot" (fun w => (hop (hops w) slot, w));
    mret (negb (Valid nh =? 0)).

Definition writeNextHop (slot : Z) (b4 aftr : Addr) : DP unit :=
  c ← readCtrl;
  live ← slotIsLive c slot;
  if (live : bool) then fail "refusing to write next-hop slot: the datapath is resolving it"
  else
    clearTunnelPMTU slot ≫= fun _ =>
    putNextHop "setting next-hop slot" slot (mkNextHop 1 (As16 b4) (As16 aftr)).

Definition clearNextHop (slot : Z) : DP unit :=
  putNextHop "clearing next-hop slot" slot zeroNextHop ≫= fun _ => clearTunnelPMTU slot.

(** ** Migration (migration.go) *)

Definition BeginMigration (b4 aftr : Addr) : DP unit :=
  lift (validateSoftwireAddrs b4 aftr) ≫= fun _ =>
  c ← readCtrl;
  if negb (mstate c =? migSteady) then fail "migration already in progress"
  else
    writeNextHop (other (activeSlot c)) b4 aftr ≫= fun _ =>
    writeCtrl (mkCtrl (activeSlot c) (activeSlot c) migPriming (Z.land (epoch c + 1) 0xff)).

Definition Cutover : DP unit :=
  c ← readCtrl;
  if negb (mstate c =? migPriming) then fail "cutover requires PRIMING"
  else writeCtrl (mkCtrl (other (activeSlot c)) (activeSlot c) migDraining (epoch c)).

Definition CompleteMigration : DP unit :=
  c ← readCtrl;
  if negb (mstate c =? migDraining) then fail "completing requires DRAINING"
  else
    writeCtrl (mkCtrl (activeSlot c) (activeSlot c) migSteady (epoch c)) ≫= fun _ =>
    clearNextHop (oldSlot c).

Definition AbortMigration : DP unit :=
  c ← readCtrl;
  if negb (mstate c =? migPriming) then fail "abort requires PRIMING"
  else
    writeCtrl (mkCtrl (activeSlot c) (activeSlot c) migSteady (epoch c)) ≫= fun _ =>
    clearNextHop (other (activeSlot c)).

Definition SwitchAFTR (b4 aftr : Addr) : DP unit :=
  lift (validateSoftwireAddrs b4 aftr) ≫= fun _ =>
  c ← readCtrl;
  (if mstate c =? migPriming then AbortMigration
   else if mstate c =? migDraining then CompleteMigration
   else mret tt) ≫= fun _ =>
  c ← readCtrl;
  let free := other (activeSlot c) in
  writeNextHop free b4 aftr ≫= fun _ =>
  writeCtrl (mkCtrl free free migSteady (epoch c)).

(** ** Reclaiming flow affinity (migration.go) *)

Record FlowIdleTimeouts : Type := mkIdle { idleTCP : Z; idleOther : Z }.

Definition IPPROTO_TCP : Z := 6.

(** What the walk does with one entry: [true] deletes it. *)
Definition gc_stale (c : migrationCtrl) (t : FlowIdleTimeouts) (now : Z)
    (k : FlowKey) (v : FlowAffinity) : bool :=
  if negb (Epoch v =? epoch c) then true
  else if mstate c =? migPriming then false
  else
    let idle := if Proto k =? IPPROTO_TCP then idleTCP t else idleOther t in
    idle <? i64 (i64 now - i64 (LastSeenNs v)).

(** The walk fails as a whole or sees every entry; the deletions follow it, a
    failed one being skipped. [clock] is the reading of CLOCK_MONOTONIC, if there is
    one. *)
Fixpoint gc_delete (stale : list FlowKey) (w : world) : world :=
  match stale with
  | [] => w
  | k :: stale' =>
    gc_delete stale'
      (snd (mapop "deleting" (fun w => (tt, with_affinity w (delete k (affinity w)))) w))
  end.

Definition deleteStale (stale : list FlowKey) : DP unit := fun w => (Ret tt, gc_delete stale w).

Definition iterate : DP (list (FlowKey * FlowAffinity)) :=
  mapop "iterating flow affinity" (fun w => (map_to_list (affinity w), w)).

Definition monotonicNanos (clock : option Z) : DP Z :=
  match clock with Some now => mret now | None => fail "reading CLOCK_MONOTONIC" end.

Definition GCFlowAffinity (t : FlowIdleTimeouts) (clock : option Z) : DP Z :=
  c ← readCtrl;
  now ← monotonicNanos clock;
  entries ← iterate;
  let stale := filter (fun kv => gc_stale c t now kv.1 kv.2 = true) entries in
  let kept := filter (fun kv => gc_stale c t now kv.1 kv.2 = false) entries in
  deleteStale (fst <$> stale) ≫= fun _ => mret (zlen kept).

(** ** Configuration (config.go, frag.go, mss.go, pmtu.go) *)

Record B4Config : Type := mkB4Config {
  cB4Addr : Addr; AFTRAddr : Addr; SrcMAC : bytes; DstMAC : bytes; WANIfindex : Z;
  WANMTU : Z; FragMaxInner' : Z; TCPMSSClamp : Z }.

Definition softwireFragOverhead : Z := 48.

Definition softwireFragUnit (wanMTU : Z) : Z :=
  if wanMTU <=? softwireFragOverhead + 8 then 0
  else Z.ldiff (u32 (i64 (wanMTU - softwireFragOverhead))) 7.

Definition TCPMSSClampAuto : Z := -1.
Definition softwireEncapOverhead : Z := 40.
Definition tcpMSSOverhead : Z := 40.
Definition minTCPMSSClamp : Z := 536.

Definition autoTCPMSSClamp (softwireMTU : Z) : Z :=
  let mss := i64 (i64 (softwireMTU - softwireEncapOverhead) - tcpMSSOverhead) in
  if mss <? minTCPMSSClamp then 0 else u32 mss.

(** The clamp and the policy remembered on the Loader. *)
Definition resolveMSSClamp (policy softwireMTU : Z) : Z * bool :=
  let auto := policy =? TCPMSSClampAuto in
  (if auto then autoTCPMSSClamp softwireMTU
   else if policy <=? 0 then 0 else u32 policy, auto).

Definition registerTxPort (ifindex : Z) : DP unit :=
  mapop "registering tx port" (fun w => (tt, with_txports w (<[ifindex := ifindex]> (txports w)))).

Definition setAuto (auto : bool) : DP unit := fun w => (Ret tt, with_b4cfg w (b4cfg w) auto).
Definition putB4 (e : string) (v : B4ConfigVal) : DP unit :=
  mapop e (fun w => (tt, with_b4cfg w v (mssClampAuto w))).

Definition b4_value (cfg : B4Config) : B4ConfigVal :=
  mkB4Val (field 6 (SrcMAC cfg)) (field 6 (DstMAC cfg)) (WANIfindex cfg)
    (softwireFragUnit (WANMTU cfg))
    (if 0 <? FragMaxInner' cfg then u32 (FragMaxInner' cfg) else 0)
    (resolveMSSClamp (TCPMSSClamp cfg) (WANMTU cfg)).1.

Definition SetB4Config (cfg : B4Config) : DP unit :=
  lift (validateSoftwireAddrs (cB4Addr cfg) (AFTRAddr cfg)) ≫= fun _ =>
  setAuto (resolveMSSClamp (TCPMSSClamp cfg) (WANMTU cfg)).2 ≫= fun _ =>
  putB4 "setting B4 config" (b4_value cfg) ≫= fun _ =>
  writeNextHop 0 (cB4Addr cfg) (AFTRAddr cfg) ≫= fun _ =>
  writeCtrl (mkCtrl 0 0 migSteady 0) ≫= fun _ =>
  registerTxPort (WANIfindex cfg).

Record LANConfig : Type := mkLANConfig { GatewayIP : Addr; cInnerMTU : Z }.

Definition SetLANConfig (ifindex : Z) (cfg : LANConfig) : DP unit :=
  if negb (Is4 (GatewayIP cfg)) then fail "GatewayIP must be an IPv4 address"
  else
    mapop "setting LAN config" (fun w =>
      (tt, with_lans w (<[ifindex := mkLanVal (addr_val (GatewayIP cfg)) (cInnerMTU cfg)]> (lans w))))
    ≫= fun _ => registerTxPort ifindex.

(** 10 minutes, in nanoseconds. *)
Definition TunnelPMTUExpiry : Z := 10 * 60 * 1000000000.

(** One slot of TunnelPMTU's loop: a failed lookup skips the slot. *)
Definition pmtu_slot (now slot : Z) (acc : option Z) (w : world) : option Z * world :=
  match mapop "tunnel pmtu" (fun w => (default zeroPmtu (pmtus w !! slot), w)) w with
  | (Ret v, w') =>
    (if (UpdatedNs v =? 0) || (Mtu v =? 0) then acc
     else if TunnelPMTUExpiry <? u64 (now - UpdatedNs v) then acc
     else match acc with
          | None => Some (Mtu v)
          | Some mtu => if Mtu v <? mtu then Some (Mtu v) else acc
          end, w')
  | (_, w') => (acc, w')
  end.

Fixpoint pmtu_loop (now : Z) (slots : list Z) (acc : option Z) (w : world) : option Z * world :=
  match slots with
  | [] => (acc, w)
  | s :: slots' => let '(acc', w') := pmtu_slot now s acc w in pmtu_loop now slots' acc' w'
  end.

Definition TunnelPMTU (clock : option Z) (w : world) : option Z * world :=
  match clock with
  | Some now => pmtu_loop now (seqZ 0 numNextHops) None w
  | None => (None, w)
  end.

Definition SetSoftwireMTU (mtu : Z) : DP unit :=
  va ← mapop "reading B4 config" (fun w => ((b4cfg w, mssClampAuto w), w));
  let v := va.1 in
  putB4 "setting softwire MTU"
    (mkB4Val (SrcMac v) (DstMac v) (WanIfindex v) (softwireFragUnit mtu) (FragMaxInner v)
       (if va.2 : bool then autoTCPMSSClamp mtu else MssClamp v)).

(** ** The control word *)

Definition ctrl_range (c : migrationCtrl) : Prop :=
  (0 <= activeSlot c < 256 /\ 0 <= oldSlot c < 256) /\ 0 <= mstate c < 256 /\ 0 <= epoch c < 256.

Lemma land_ff x : Z.land x 255 = x mod 256.
Proof. change 255 with (Z.ones 8). by rewrite Z.land_ones. Qed.

Lemma unpack_range v : ctrl_range (unpackMigrationCtrl v).
Proof.
  unfold ctrl_range, unpackMigrationCtrl. cbn. rewrite !land_ff.
  assert (forall x, 0 <= x mod 256 < 256) as H by (intros; by apply Z.mod_pos_bound). auto.
Qed.

Lemma pack_sum c : ctrl_range c ->
  pack c = activeSlot c + 256 * oldSlot c + 65536 * mstate c + 16777216 * epoch c.
Proof.
  intros ((? & ?) & ? & ?). unfold pack. rewrite !land_ff, !(Z.mod_small _ 256) by lia.
  rewrite (Z.lor_comm (activeSlot c)), (lor_shiftl_add (oldSlot c)) by lia.
  rewrite (Z.lor_comm (_ + activeSlot c)), (lor_shiftl_add (mstate c)) by lia.
  rewrite (Z.lor_comm (_ + _)), (lor_shiftl_add (epoch c)) by lia. lia.
Qed.

Lemma unpack_pack c : ctrl_range c -> unpackMigrationCtrl (pack c) = c.
Proof.
  intros H. rewrite pack_sum by done. destruct H as ((? & ?) & ? & ?).
  unfold unpackMigrationCtrl. rewrite !land_ff, !Z.shiftr_div_pow2 by lia.
  change (2 ^ 8) with 256. change (2 ^ 16) with 65536. change (2 ^ 24) with 16777216.
  destruct c as [a o s e]; cbn in *. f_equal; Z.to_euclidean_division_equations; lia.
Qed.

Lemma pack_unpack v : 0 <= v < 2 ^ 32 -> pack (unpackMigrationCtrl v) = v.
Proof.
  intros H. rewrite pack_sum by apply unpack_range.
  unfold unpackMigrationCtrl. cbn [activeSlot oldSlot mstate epoch].
  rewrite !land_ff, !Z.shiftr_div_pow2 by lia.
  change (2 ^ 8) with 256. change (2 ^ 16) with 65536. change (2 ^ 24) with 16777216.
  change (2 ^ 32) with 4294967296 in H. Z.to_euclidean_division_equations; lia.
Qed.

(** ** Reasoning on Loader methods *)

(** What holds of the result and the maps after [m], whatever failed. *)
Definition wp {A} (m : DP A) (Q : outcome A -> world -> Prop) (w : world) : Prop :=
  Q (m w).1 (m w).2.

Lemma wp_ret {A} (a : A) Q w : Q (Ret a) w -> wp (mret a) Q w.
Proof. done. Qed.

Lemma wp_fail {A} e (Q : outcome A -> world -> Prop) w : Q (Fail e) w -> wp (fail e) Q w.
Proof. done. Qed.

Lemma wp_lift {A} (o : outcome A) Q w : Q o w -> wp (lift o) Q w.
Proof. done. Qed.

Lemma wp_bind {A B} (m : DP A) (f : A -> DP B) Q w :
  wp m (fun r w' => match r with
                    | Ret a => wp (f a) Q w'
                    | Fail e => Q (Fail e) w'
                    | Panic => Q Panic w'
                    end) w -> wp (m ≫= f) Q w.
Proof. unfold wp, mbind, DP_bind. by destruct (m w) as [[] ?]. Qed.

(** No map operation fails from here on. *)
Definition calm (w : world) : Prop := faults w = [].

Lemma wp_mapop {A} e (f : world -> A * world) Q w :
  (~ calm w -> Q (Fail e) (with_faults w (tail (faults w)))) ->
  Q (Ret (f (with_faults w (tail (faults w)))).1) (f (with_faults w (tail (faults w)))).2 ->
  wp (mapop e f) Q w.
Proof.
  unfold wp, mapop, calm. intros HF HR. destruct (faults w) as [|[] fs]; cbn in *.
  - by destruct (f _) as [a w'].
  - by apply HF.
  - by destruct (f _) as [a w'].
Qed.

Lemma wp_mono {A} (m : DP A) (P Q : outcome A -> world -> Prop) w :
  wp m P w -> (forall r w', P r w' -> Q r w') -> wp m Q w.
Proof. unfold wp. auto. Qed.
