(* ===== verification/Migration.v ===== *)
(** What the AFTR migration promises: src/pkg/datapath/migration.go and the
    flow pinning of src/bpf/datapath.bpf.c that it drives.

    Under every schedule of map failures the packet programs only ever see a
    control word pointing at complete slots, and a slot they may be reading is
    never written.  The transitions implement a three-phase machine, each
    interrupted call stopping at a named intermediate phase.  A flow recorded
    while PRIMING stays on the old AFTR through the drain as long as it is not
    idle, and a flow that was not goes to the new one. *)

From S2P Require Import Prelude Wire Netip Datapath.

Local Open Scope Z_scope.

(** ** What a packet program can see *)

Abbreviation snapshot := (Z * slots)%type.

Definition now_seen (w : world) : snapshot := (ctrl w, hops w).

(** A slot holding a complete, validated endpoint pair. *)
Definition endpoint (h : slots) (s : Z) : Prop :=
  exists b4 aftr, validateSoftwireAddrs b4 aftr = Ret tt /\
    hop h s = mkNextHop 1 (As16 b4) (As16 aftr).

Definition phase_ok (c : migrationCtrl) (h : slots) : Prop :=
  (mstate c = migSteady /\ oldSlot c = activeSlot c) \/
  (mstate c = migPriming /\ oldSlot c = activeSlot c /\ endpoint h (other (activeSlot c))) \/
  (mstate c = migDraining /\ oldSlot c = other (activeSlot c) /\ endpoint h (oldSlot c)).

Definition ctl_ok (c : migrationCtrl) (h : slots) : Prop :=
  (activeSlot c = 0 \/ activeSlot c = 1) /\ 0 <= epoch c < 256 /\
  endpoint h (activeSlot c) /\ phase_ok c h.

Definition snap_ok (s : snapshot) : Prop :=
  exists c, s.1 = pack c /\ ctl_ok c s.2.

(** The packet programs may be resolving the slot (resolve_softwire). *)
Definition resolving (s : snapshot) (slot : Z) : Prop :=
  let c := unpackMigrationCtrl s.1 in
  (slot = activeSlot c \/ (mstate c = migDraining /\ slot = oldSlot c)) /\
  Valid (hop s.2 slot) <> 0.

(** One store of the control plane: a whole control word, or a slot nobody is
    resolving. *)
Inductive store : snapshot -> snapshot -> Prop :=
| store_ctrl v v' h : store (v, h) (v', h)
| store_slot v h slot nh : ~ resolving (v, h) slot -> store (v, h) (v, <[slot := nh]> h).

(** Everything the packet programs have seen since the maps were created, newest
    first. *)
Inductive safe_hist : list snapshot -> Prop :=
| safe_created : safe_hist [(0, ∅)]
| safe_store s s' l :
    safe_hist (s :: l) -> store s s' -> snap_ok s' -> safe_hist (s' :: s :: l).

Definition Inv (w : world) : Prop :=
  snap_ok (now_seen w) /\ exists l, hist w = now_seen w :: l /\ safe_hist (hist w).

(** ** The control plane's calls *)

Inductive transition : Type :=
| Begin (b4 aftr : Addr)
| Cut
| Complete
| Abort
| Switch (b4 aftr : Addr).

Inductive call : Type :=
| Migrate (t : transition)
| SetB4 (cfg : B4Config)
| SetLAN (ifindex : Z) (cfg : LANConfig)
| GC (t : FlowIdleTimeouts) (clock : option Z)
| SetMTU (mtu : Z)
| ReadPMTU (clock : option Z).

Definition migrate (t : transition) : DP unit :=
  match t with
  | Begin b4 aftr => BeginMigration b4 aftr
  | Cut => Cutover
  | Complete => CompleteMigration
  | Abort => AbortMigration
  | Switch b4 aftr => SwitchAFTR b4 aftr
  end.

Definition run (c : call) : DP unit :=
  match c with
  | Migrate t => migrate t
  | SetB4 cfg => SetB4Config cfg
  | SetLAN i cfg => SetLANConfig i cfg
  | GC t clock => GCFlowAffinity t clock ≫= fun _ => mret tt
  | SetMTU m => SetSoftwireMTU m
  | ReadPMTU clock => fun w => (Ret tt, (TunnelPMTU clock w).2)
  end.

(** A failed call is followed by the next one all the same. *)
Fixpoint runs (cs : list call) (w : world) : world :=
  match cs with
  | [] => w
  | c :: cs' => runs cs' (run c w).2
  end.

(** ** Slots *)

Lemma hop_insert h s nh : hop (<[s := nh]> h) s = nh.
Proof. unfold hop. by rewrite lookup_insert_eq. Qed.

Lemma hop_insert_ne h s s' nh : s <> s' -> hop (<[s := nh]> h) s' = hop h s'.
Proof. intros. unfold hop. by rewrite lookup_insert_ne. Qed.

Lemma endpoint_insert h s b4 aftr : validateSoftwireAddrs b4 aftr = Ret tt ->
  endpoint (<[s := mkNextHop 1 (As16 b4) (As16 aftr)]> h) s.
Proof. intros. exists b4, aftr. by rewrite hop_insert. Qed.

Lemma endpoint_insert_ne h s s' nh : s <> s' -> endpoint h s' -> endpoint (<[s := nh]> h) s'.
Proof. intros Hne (b4 & aftr & ? & ?). exists b4, aftr. by rewrite hop_insert_ne. Qed.

Lemma endpoint_valid h s : endpoint h s -> Valid (hop h s) <> 0.
Proof. intros (b4 & aftr & _ & Hh). rewrite Hh. done. Qed.

Lemma other_slot s : s = 0 \/ s = 1 -> (other s = 0 \/ other s = 1) /\ other s <> s /\ other (other s) = s.
Proof. intros [-> | ->]; (split; [|split]); try done; [by right | by left]. Qed.

Lemma ctl_ok_range c h : ctl_ok c h -> ctrl_range c.
Proof.
  intros (Ha & He & _ & Hp). pose proof (other_slot _ Ha) as (? & _).
  unfold ctrl_range, phase_ok, migSteady, migPriming, migDraining in *. intuition lia.
Qed.

Lemma snap_ok_unpack v h : snap_ok (v, h) -> ctl_ok (unpackMigrationCtrl v) h.
Proof. intros (c & Hv & Hc). cbn in *. rewrite Hv, unpack_pack; eauto using ctl_ok_range. Qed.

Lemma snap_ok_pack c h : ctl_ok c h -> snap_ok (pack c, h).
Proof. by exists c. Qed.

Lemma unpack_now c h : ctl_ok c h -> unpackMigrationCtrl (pack c) = c.
Proof. eauto using unpack_pack, ctl_ok_range. Qed.

(** ** Every call keeps the invariant *)

Lemma Inv_ctrl w c : Inv w -> ctl_ok c (hops w) -> Inv (with_ctrl w (pack c)).
Proof.
  intros (_ & l & Hl & Hs) Hc. split; [by apply snap_ok_pack|].
  eexists. split; [done|]. cbn. rewrite Hl in *.
  apply safe_store; [done | apply store_ctrl | by apply snap_ok_pack].
Qed.

Lemma Inv_hop w s nh c : Inv w -> ctrl w = pack c -> ctl_ok c (<[s := nh]> (hops w)) ->
  ~ resolving (now_seen w) s -> Inv (with_hop w s nh).
Proof.
  intros (_ & l & Hl & Hs) Hv Hc Hr.
  assert (snap_ok (ctrl w, <[s := nh]> (hops w))) as Ho by (rewrite Hv; by apply snap_ok_pack).
  split; [done|]. eexists. split; [done|]. cbn. rewrite Hl in *.
  apply safe_store; [done | by apply store_slot | done].
Qed.

(** [at_ctl w c]: the maps are well-formed and the control word reads [c]. *)
Definition at_ctl (w : world) (c : migrationCtrl) : Prop :=
  Inv w /\ ctrl w = pack c /\ ctl_ok c (hops w).

Lemma Inv_at w : Inv w -> exists c, at_ctl w c.
Proof. intros HI. pose proof HI as ((c & Hv & Hc) & _). by exists c. Qed.

(** What a call that ended well or badly leaves: the invariant, and no fault that
    was not there. *)
Definition stays (w w' : world) : Prop := Inv w' /\ (calm w -> calm w').

Lemma stays_faults w : Inv w -> stays w (with_faults w (tail (faults w))).
Proof. intros HI. split; [done|]. unfold calm. cbn. by intros ->. Qed.

Lemma stays_trans w w' w'' : stays w w' -> stays w' w'' -> stays w w''.
Proof. intros [] []. split; auto. Qed.

Lemma wp_readCtrl Q w c : at_ctl w c ->
  (~ calm w -> Q (Fail "reading migration control") (with_faults w (tail (faults w)))) ->
  Q (Ret c) (with_faults w (tail (faults w))) -> wp readCtrl Q w.
Proof.
  intros (_ & Hv & Hc) HF HR. apply wp_mapop; [done|]. cbn. rewrite Hv.
  by erewrite unpack_now.
Qed.

(** Storing a control word: it fails and nothing changes, or the packet programs
    see it whole. *)
Lemma wp_writeCtrl Q c w : Inv w -> ctl_ok c (hops w) ->
  (forall w', stays w w' -> ~ calm w -> now_seen w' = now_seen w ->
    Q (Fail "writing migration control") w') ->
  (forall w', stays w w' -> now_seen w' = (pack c, hops w) -> Q (Ret tt) w') ->
  wp (writeCtrl c) Q w.
Proof.
  intros HI Hc HF HR. pose proof (stays_faults w HI) as Hs. apply wp_mapop; cbn.
  - intros. by apply HF.
  - apply HR; [|done]. split; [by apply (Inv_ctrl (with_faults _ _))|apply Hs].
Qed.

Lemma resolving_iff w c s : at_ctl w c ->
  resolving (now_seen w) s <->
  (s = activeSlot c \/ (mstate c = migDraining /\ s = oldSlot c)) /\ Valid (hop (hops w) s) <> 0.
Proof.
  intros (_ & Hv & Hc). unfold resolving. cbn [now_seen fst snd]. by rewrite Hv, (unpack_now c _ Hc).
Qed.

(** slotIsLive is the reading of [resolving]. *)
Lemma wp_slotIsLive Q c slot w : at_ctl w c ->
  (forall w', stays w w' -> ~ calm w -> now_seen w' = now_seen w ->
    Q (Fail "reading next-hop slot") w') ->
  (forall b w', stays w w' -> now_seen w' = now_seen w -> b = true <-> resolving (now_seen w) slot ->
    Q (Ret b) w') ->
  wp (slotIsLive c slot) Q w.
Proof.
  intros Hat HF HR. pose proof (stays_faults w (proj1 Hat)) as Hs. pose proof (resolving_iff w c slot Hat) as Hr.
  unfold slotIsLive. destruct (_ || _) eqn:Hb; cbn [negb].
  - apply wp_bind, wp_mapop; [intros; by apply HF|]. cbn [fst snd]. apply wp_ret, HR; [done..|].
    rewrite Hr, negb_true_iff, Z.eqb_neq. rewrite orb_true_iff, andb_true_iff, !Z.eqb_eq in Hb.
    cbn. tauto.
  - apply wp_ret, HR; [split; [apply Hat|done]|done|]. split; [done|]. rewrite Hr.
    rewrite orb_false_iff, andb_false_iff, !Z.eqb_neq in Hb. tauto.
Qed.

(** The slot a call may write: outside what the packet programs resolve, inside
    the array. *)
Lemma ctl_ok_write w c s b4 aftr : at_ctl w c -> ~ resolving (now_seen w) s ->
  validateSoftwireAddrs b4 aftr = Ret tt ->
  ctl_ok c (<[s := mkNextHop 1 (As16 b4) (As16 aftr)]> (hops w)).
Proof.
  intros Hat Hr Ha. rewrite (resolving_iff _ _ _ Hat) in Hr. destruct Hat as (_ & _ & H1 & H2 & H3 & H4).
  pose proof (endpoint_valid _ _ H3).
  assert (s <> activeSlot c) as Hne by naive_solver.
  assert (forall s', endpoint (hops w) s' ->
    endpoint (<[s := mkNextHop 1 (As16 b4) (As16 aftr)]> (hops w)) s') as Hk.
  { intros s' ?. destruct (decide (s = s')) as [->|]; [by apply endpoint_insert|by apply endpoint_insert_ne]. }
  split; [done|]. split; [done|]. split; [by apply Hk|].
  destruct H4 as [?|[(? & ? & ?)|(? & ? & ?)]]; [left|right; left|right; right]; auto.
Qed.

Lemma wp_writeNextHop Q c slot b4 aftr w : at_ctl w c ->
  validateSoftwireAddrs b4 aftr = Ret tt ->
  (forall e w', stays w w' -> now_seen w' = now_seen w ->
    (calm w -> resolving (now_seen w) slot) -> Q (Fail e) w') ->
  (forall w', stays w w' -> ~ resolving (now_seen w) slot ->
    now_seen w' = (pack c, <[slot := mkNextHop 1 (As16 b4) (As16 aftr)]> (hops w)) ->
    ctl_ok c (hops w') -> Q (Ret tt) w') ->
  wp (writeNextHop slot b4 aftr) Q w.
Proof.
  intros Hat Ha HF HR. pose proof (stays_faults w (proj1 Hat)) as Hs.
  apply wp_bind, (wp_readCtrl _ _ c); [done|intros; by apply HF|].
  apply wp_bind, wp_slotIsLive; [by destruct Hat as (? & ? & ?)|..].
  - intros w' Hs' Hn Hw. apply HF; [by eapply stays_trans|done|]. intros Hc. by destruct Hn; apply Hs.
  - intros live w' Hs' Hw Hl. pose proof (stays_trans _ _ _ Hs Hs') as Hs2.
    destruct live; [apply HF; [done..|]; intros; by apply Hl|].
    assert (~ resolving (now_seen w) slot) as Hr by (intros ?; assert (false = true) by (by apply Hl); done).
    assert (stays w (with_faults w' (tail (faults w')))) as Hs3.
    { eapply stays_trans; [done|]. apply stays_faults, Hs2. }
    pose proof (ctl_ok_write _ _ _ _ _ Hat Hr Ha) as Hc'. destruct Hat as (HI & Hv & Hc).
    injection Hw as Hw1 Hw2.
    apply wp_bind, wp_mapop.
    { intros Hn. apply HF; [done|unfold now_seen; cbn; congruence|]. intros ?. by destruct Hn; apply Hs2. }
    cbn [fst snd]. apply wp_mapop.
    { intros Hn. apply HF; [|unfold now_seen; cbn; congruence|].
      - split; [apply Hs3|]. intros HH. apply Hs3 in HH. unfold calm in *. cbn in *. by rewrite HH.
      - intros HH. destruct Hn. apply Hs3 in HH. done. }
    cbn [fst snd]. apply HR; [|done|unfold now_seen; cbn; congruence|cbn; congruence].
    split.
    + apply (Inv_hop _ _ _ c); cbn; [apply Hs3|congruence..|].
      intros HH. apply Hr. unfold now_seen in *. cbn in *. congruence.
    + intros HH. apply Hs3 in HH. unfold calm in *. cbn in *. by rewrite HH.
Qed.

Lemma stays_calm_tail w w' : stays w w' -> stays w (with_faults w' (tail (faults w'))).
Proof. intros H. eapply stays_trans; [done|]. apply stays_faults, H. Qed.

(** Retiring the slot a steady control word does not point at.  It may fail with
    the slot untouched, or with the slot already cleared. *)
Lemma wp_clearNextHop Q c w : at_ctl w c -> mstate c = migSteady ->
  (forall e w', stays w w' -> ~ calm w -> ctrl w' = ctrl w ->
    hops w' = hops w \/ hops w' = <[other (activeSlot c) := zeroNextHop]> (hops w) -> Q (Fail e) w') ->
  (forall w', stays w w' ->
    now_seen w' = (ctrl w, <[other (activeSlot c) := zeroNextHop]> (hops w)) -> Q (Ret tt) w') ->
  wp (clearNextHop (other (activeSlot c))) Q w.
Proof.
  intros Hat Hst HF HR. pose proof Hat as (HI & Hv & Hc). pose proof (stays_faults w HI) as Hs.
  pose proof Hc as (Ha & He & H3 & Hp). pose proof (other_slot _ Ha) as (_ & Hne & _).
  apply wp_bind, wp_mapop; [intros; apply HF; auto|]. cbn [fst snd].
  set (w1 := with_hop _ _ _).
  assert (stays w w1) as Hs1.
  { split; [|intros HH; apply Hs in HH; done]. apply (Inv_hop _ _ _ c); [apply Hs|done|..].
    - cbn. split; [done|]. split; [done|]. split; [by apply endpoint_insert_ne|]. left.
      destruct Hp as [?|[(? & _)|(? & _)]]; [done|by rewrite Hst in *..].
    - change (~ resolving (now_seen w) (other (activeSlot c))). rewrite (resolving_iff _ _ _ Hat), Hst. naive_solver. }
  apply wp_mapop; intros.
  - apply HF; [by apply stays_calm_tail| |done|by right]. intros HH. apply Hs1 in HH. done.
  - apply HR; [|done]. by apply stays_calm_tail in Hs1.
Qed.

(** ** The migration as the AFTR operator sees it *)

(** The pair new flows use, and the pair that decap still accepts or that pinned
    flows use. *)
Inductive phase : Type :=
| Steady (e : Z) (cur prev : NextHop)
| Priming (e : Z) (cur next : NextHop)
| Draining (e : Z) (cur old : NextHop).

Definition phase_of (s : snapshot) : phase :=
  let c := unpackMigrationCtrl s.1 in
  let here := hop s.2 (activeSlot c) in
  let there := hop s.2 (other (activeSlot c)) in
  if mstate c =? migSteady then Steady (epoch c) here there
  else if mstate c =? migPriming then Priming (epoch c) here there
  else Draining (epoch c) here there.

Definition pair (b4 aftr : Addr) : NextHop := mkNextHop 1 (As16 b4) (As16 aftr).
Definition acceptable (b4 aftr : Addr) : bool := ok (validateSoftwireAddrs b4 aftr).

(** What a transition does when nothing fails; [None] is a refusal. *)
Definition next (t : transition) (p : phase) : option phase :=
  match t, p with
  | Begin b4 aftr, Steady e cur _ =>
    if acceptable b4 aftr then Some (Priming ((e + 1) mod 256) cur (pair b4 aftr)) else None
  | Cut, Priming e cur new => Some (Draining e new cur)
  | Complete, Draining e cur _ => Some (Steady e cur zeroNextHop)
  | Abort, Priming e cur _ => Some (Steady e cur zeroNextHop)
  | Switch b4 aftr, (Steady e cur _ | Priming e cur _ | Draining e cur _) =>
    if acceptable b4 aftr then Some (Steady e (pair b4 aftr) cur) else None
  | _, _ => None
  end.

(** Where a transition that fails half-way may leave the datapath. *)
Definition stopped (t : transition) (p : phase) : list phase :=
  p ::
  match t, p with
  | Begin b4 aftr, Steady e cur _ => [Steady e cur (pair b4 aftr)]
  | Complete, Draining e cur old => [Steady e cur old; Steady e cur zeroNextHop]
  | Abort, Priming e cur new => [Steady e cur new; Steady e cur zeroNextHop]
  | Switch b4 aftr, Steady e cur _ => [Steady e cur (pair b4 aftr)]
  | Switch b4 aftr, (Priming e cur new | Draining e cur new) =>
    [Steady e cur new; Steady e cur zeroNextHop; Steady e cur (pair b4 aftr)]
  | _, _ => []
  end.

(** A control word with the state of the phase [mk], and what it shows. *)
Definition shows (m : Z) (mk : Z -> NextHop -> NextHop -> phase) : Prop :=
  (m, mk) = (migSteady, Steady) \/ (m, mk) = (migPriming, Priming) \/ (m, mk) = (migDraining, Draining).

Lemma phase_of_pack c h mk : ctl_ok c h -> shows (mstate c) mk ->
  phase_of (pack c, h) = mk (epoch c) (hop h (activeSlot c)) (hop h (other (activeSlot c))).
Proof.
  intros Hc Hm. unfold phase_of. cbn [fst snd]. rewrite (unpack_now c h) by done.
  destruct Hm as [H|[H|H]]; injection H as Hm ->; by rewrite Hm.
Qed.

Lemma ctl_ok_shows c h : ctl_ok c h -> exists mk, shows (mstate c) mk.
Proof. intros (_ & _ & _ & [[-> _]|[[-> _]|[-> _]]]); eexists; unfold shows; eauto. Qed.

Lemma phase_of_at w c mk : at_ctl w c -> shows (mstate c) mk ->
  phase_of (now_seen w) = mk (epoch c) (hop (hops w) (activeSlot c)) (hop (hops w) (other (activeSlot c))).
Proof. intros (_ & Hv & Hc). unfold now_seen. rewrite Hv. by apply phase_of_pack. Qed.

Lemma shows_steady : shows migSteady Steady.
Proof. by left. Qed.
Lemma shows_priming : shows migPriming Priming.
Proof. by right; left. Qed.
Lemma shows_draining : shows migDraining Draining.
Proof. by right; right. Qed.
#[local] Hint Resolve shows_steady shows_priming shows_draining : core.

(** A transition's contract with the machine above. *)
Definition carried (t : transition) (w : world) (r : outcome unit) (w' : world) : Prop :=
  stays w w' /\
  match r with
  | Ret _ => next t (phase_of (now_seen w)) = Some (phase_of (now_seen w'))
  | Fail _ => phase_of (now_seen w') ∈ stopped t (phase_of (now_seen w)) /\
              (calm w -> next t (phase_of (now_seen w)) = None /\ now_seen w' = now_seen w)
  | Panic => False
  end.

Lemma carried_none t w w' e : stays w w' -> now_seen w' = now_seen w ->
  (calm w -> next t (phase_of (now_seen w)) = None) -> carried t w (Fail e) w'.
Proof. intros Hs Hn Hc. split; [done|]. rewrite Hn. split; [by left|auto]. Qed.

Lemma validate_ok b4 aftr : acceptable b4 aftr = true -> validateSoftwireAddrs b4 aftr = Ret tt.
Proof. unfold acceptable. by destruct (validateSoftwireAddrs b4 aftr) as [[]| |]. Qed.

Lemma at_faults w c : at_ctl w c -> at_ctl (with_faults w (tail (faults w))) c.
Proof. done. Qed.

Lemma at_seen w w' c : at_ctl w c -> stays w w' -> now_seen w' = now_seen w -> at_ctl w' c.
Proof.
  intros (_ & Hv & Hc) Hs Hn. injection Hn as Hn1 Hn2.
  split; [apply Hs|]. split; [by rewrite Hn1|by rewrite Hn2].
Qed.

Lemma not_resolving_other w c : at_ctl w c -> mstate c <> migDraining ->
  ~ resolving (now_seen w) (other (activeSlot c)).
Proof.
  intros Hat Hm. rewrite (resolving_iff _ _ _ Hat). destruct Hat as (_ & _ & Ha & _).
  pose proof (other_slot _ Ha) as (_ & ? & _). naive_solver.
Qed.

Lemma validate_fails b4 aftr r : validateSoftwireAddrs b4 aftr = r -> r <> Ret tt ->
  (exists e, r = Fail e) /\ acceptable b4 aftr = false.
Proof.
  intros <-. unfold acceptable, validateSoftwireAddrs.
  repeat case_match; intros; split; try done; eauto.
Qed.

Lemma next_invalid t b4 aftr p : acceptable b4 aftr = false ->
  t = Begin b4 aftr \/ t = Switch b4 aftr -> next t p = None.
Proof. intros H [-> | ->]; destruct p; cbn; by rewrite ?H. Qed.

(** Begin and Switch look at the addresses first. *)
Lemma wp_validate t b4 aftr (f : unit -> DP unit) w : Inv w ->
  t = Begin b4 aftr \/ t = Switch b4 aftr ->
  (validateSoftwireAddrs b4 aftr = Ret tt -> wp (f tt) (carried t w) w) ->
  wp (lift (validateSoftwireAddrs b4 aftr) ≫= f) (carried t w) w.
Proof.
  intros HI Ht HR. apply wp_bind, wp_lift.
  destruct (validateSoftwireAddrs b4 aftr) as [[]|e|] eqn:Ha; [by apply HR|..];
    (apply validate_fails in Ha as ((? & ?) & Hb); [|done]); simplify_eq;
    apply carried_none; [split; auto|done|intros _; by eapply next_invalid].
Qed.

(** Refusing what the state does not allow. *)
Lemma refused t w c e : at_ctl w c ->
  (forall mk cur new, shows (mstate c) mk -> next t (mk (epoch c) cur new) = None) ->
  carried t w (Fail e) (with_faults w (tail (faults w))).
Proof.
  intros Hat Hn. pose proof Hat as (HI & _ & Hc). destruct (ctl_ok_shows _ _ Hc) as (mk & Hm).
  apply carried_none; [by apply stays_faults|done|]. intros _.
  rewrite (phase_of_at _ _ _ Hat Hm). by apply Hn.
Qed.

Lemma ctl_ok_priming c h : ctl_ok c h -> endpoint h (other (activeSlot c)) ->
  ctl_ok (mkCtrl (activeSlot c) (activeSlot c) migPriming (Z.land (epoch c + 1) 0xff)) h.
Proof.
  intros (H1 & H2 & H3 & _) He. rewrite land_ff. split; [done|].
  split; [by apply Z.mod_pos_bound|]. split; [done|]. right; left. auto.
Qed.

Lemma wp_Begin b4 aftr w : Inv w ->
  wp (BeginMigration b4 aftr) (carried (Begin b4 aftr) w) w.
Proof.
  intros HI. apply wp_validate; [done|by left|]. intros Ha. destruct (Inv_at w HI) as (c & Hat).
  pose proof (stays_faults w HI) as Hs. pose proof Hat as (_ & Hv & Hc).
  assert (acceptable b4 aftr = true) as Ha' by (unfold acceptable; by rewrite Ha).
  apply wp_bind, (wp_readCtrl _ _ c); [done|intros; by apply carried_none|].
  destruct (Z.eqb_spec (mstate c) migSteady) as [Hm|Hm]; cbn [negb].
  2: { apply wp_fail, (refused _ _ c); [done|]. intros mk cur new [?|[?|?]]; by simplify_eq. }
  assert (phase_of (now_seen w) = Steady (epoch c) (hop (hops w) (activeSlot c)) (hop (hops w) (other (activeSlot c))))
    as Hp by (apply phase_of_at; [done|by rewrite Hm]).
  apply wp_bind, (wp_writeNextHop _ c); [done..| |].
  - intros e w' Hs' Hn Hr. apply carried_none; [by eapply stays_trans|done|].
    intros HH. destruct (not_resolving_other w c Hat); [by rewrite Hm|by apply Hr, Hs].
  - intros w' Hs' _ Hn Hc'. pose proof (stays_trans _ _ _ Hs Hs') as Hs2.
    injection Hn as Hn1 Hn2. pose proof (other_slot _ (proj1 Hc)) as (? & Hne & _).
    assert (hop (hops w') (activeSlot c) = hop (hops w) (activeSlot c) /\
            hop (hops w') (other (activeSlot c)) = pair b4 aftr) as [Hh1 Hh2].
    { rewrite Hn2. split; [by apply hop_insert_ne|by apply hop_insert]. }
    assert (ctl_ok (mkCtrl (activeSlot c) (activeSlot c) migPriming (Z.land (epoch c + 1) 0xff)) (hops w')) as Hc2.
    { apply ctl_ok_priming; [done|]. rewrite Hn2. by apply endpoint_insert. }
    apply wp_writeCtrl; [apply Hs2|done|..].
    + intros w2 Hs3 Hw Hn. split; [by eapply stays_trans|]. rewrite Hn, Hp. split.
      * unfold now_seen. rewrite Hn1, (phase_of_pack _ _ Steady), Hh1, Hh2 by (rewrite ?Hm; done).
        by right; left.
      * intros HH. destruct Hw. by apply Hs2.
    + intros w2 Hs3 Hn. split; [by eapply stays_trans|].
      rewrite Hn, Hp, (phase_of_pack _ _ Priming) by done. cbn. by rewrite Ha', Hh1, Hh2, land_ff.
Qed.

(** A call that is a check of the state and one store of the control word. *)
Lemma wp_one_store t c c' mk cur new w w' : at_ctl w c -> stays w w' -> now_seen w' = now_seen w ->
  ctl_ok c' (hops w) -> shows (mstate c') mk ->
  cur = hop (hops w) (activeSlot c') -> new = hop (hops w) (other (activeSlot c')) ->
  next t (phase_of (now_seen w)) = Some (mk (epoch c') cur new) ->
  wp (writeCtrl c') (carried t w) w'.
Proof.
  intros Hat Hs Hn Hc' Hm -> -> Ht. pose proof Hn as Hn'. injection Hn' as Hn1 Hn2.
  apply wp_writeCtrl; [apply Hs|by rewrite Hn2|..].
  - intros w2 Hs2 Hw Hn3. apply carried_none; [by eapply stays_trans|congruence|].
    intros HH. destruct Hw. by apply Hs.
  - intros w2 Hs2 Hn3. split; [by eapply stays_trans|]. rewrite Ht, Hn3, Hn2. f_equal. symmetry.
    by apply phase_of_pack.
Qed.

Lemma ctl_ok_draining c h : ctl_ok c h -> mstate c = migPriming ->
  ctl_ok (mkCtrl (other (activeSlot c)) (activeSlot c) migDraining (epoch c)) h.
Proof.
  intros (H1 & H2 & H3 & H4) Hm. pose proof (other_slot _ H1) as (H5 & _ & H6).
  destruct H4 as [[H _]|[(_ & _ & ?)|[H _]]]; [rewrite Hm in H; discriminate| |rewrite Hm in H; discriminate].
  split; [done|]. split; [done|]. split; [done|]. right; right. cbn. by rewrite H6.
Qed.

Lemma ctl_ok_steady c h : ctl_ok c h ->
  ctl_ok (mkCtrl (activeSlot c) (activeSlot c) migSteady (epoch c)) h.
Proof. intros (H1 & H2 & H3 & _). split; [done|]. split; [done|]. split; [done|]. by left. Qed.

Lemma wp_Cut w : Inv w -> wp Cutover (carried Cut w) w.
Proof.
  intros HI. destruct (Inv_at w HI) as (c & Hat). pose proof (stays_faults w HI) as Hs.
  pose proof Hat as (_ & Hv & Hc). pose proof (other_slot _ (proj1 Hc)) as (_ & _ & Ho).
  apply wp_bind, (wp_readCtrl _ _ c); [done|intros; by apply carried_none|].
  destruct (Z.eqb_spec (mstate c) migPriming) as [Hm|Hm]; cbn [negb].
  2: { apply wp_fail, (refused _ _ c); [done|]. intros mk cur new [?|[?|?]]; by simplify_eq. }
  eapply (wp_one_store _ c _ Draining); [done..|by apply ctl_ok_draining|done|done|done|].
  rewrite (phase_of_at _ _ Priming Hat) by (by rewrite Hm). cbn. by rewrite Ho.
Qed.

(** Returning to steady and retiring the other slot: what completing a drain and
    aborting a preparation have in common. *)
Lemma wp_retire t c mk w w' : at_ctl w c -> stays w w' -> now_seen w' = now_seen w ->
  shows (mstate c) mk ->
  (forall cur new, next t (mk (epoch c) cur new) = Some (Steady (epoch c) cur zeroNextHop)) ->
  (forall cur new, stopped t (mk (epoch c) cur new) =
     [mk (epoch c) cur new; Steady (epoch c) cur new; Steady (epoch c) cur zeroNextHop]) ->
  wp (writeCtrl (mkCtrl (activeSlot c) (activeSlot c) migSteady (epoch c)) ≫= fun _ =>
      clearNextHop (other (activeSlot c))) (carried t w) w'.
Proof.
  intros Hat Hs Hn Hm Hnext Hstop. pose proof Hat as (_ & _ & Hc).
  pose proof (phase_of_at _ _ _ Hat Hm) as Hp. pose proof Hn as Hn'. injection Hn' as Hn1 Hn2.
  pose proof (ctl_ok_steady _ _ Hc) as Hc'. set (c' := mkCtrl _ _ _ _) in *.
  pose proof (other_slot _ (proj1 Hc)) as (_ & Hne & _).
  assert (forall h, endpoint h (activeSlot c) -> phase_of (pack c', h) =
    Steady (epoch c) (hop h (activeSlot c)) (hop h (other (activeSlot c)))) as Hph.
  { intros h He. by apply (phase_of_pack c' h Steady); [destruct Hc' as (? & ? & _); split; [|split; [|split; [|left]]]|]. }
  destruct Hc as (_ & _ & He & _). apply wp_bind, wp_writeCtrl; [apply Hs|by rewrite Hn2|..].
  - intros w2 Hs2 Hw Hn3. split; [by eapply stays_trans|]. rewrite Hn3, Hn, Hp, Hstop. split; [by left|].
    intros HH. destruct Hw. by apply Hs.
  - intros w2 Hs2 Hn3. pose proof Hn3 as Hn3'. injection Hn3' as Hv3 Hh3. rewrite Hn2 in Hh3, Hn3.
    apply (wp_clearNextHop _ c'); [split; [apply Hs2|by rewrite Hh3]|done|..].
    + intros e w3 Hs3 Hw Hv4 Hh4. split; [eauto using stays_trans|]. rewrite Hp, Hstop. split.
      * unfold now_seen. rewrite Hv4, Hv3.
        destruct Hh4 as [-> | ->]; rewrite Hh3, Hph by (done || by apply endpoint_insert_ne).
        -- by right; left.
        -- rewrite hop_insert, hop_insert_ne by done. by right; right; left.
      * intros HH. destruct Hw. apply Hs2, Hs, HH.
    + intros w3 Hs3 Hn4. split; [eauto using stays_trans|]. rewrite Hp, Hnext, Hn4, Hv3, Hh3.
      rewrite Hph by (by apply endpoint_insert_ne). cbn.
      by rewrite hop_insert, hop_insert_ne.
Qed.

Lemma wp_Complete w : Inv w -> wp CompleteMigration (carried Complete w) w.
Proof.
  intros HI. destruct (Inv_at w HI) as (c & Hat). pose proof (stays_faults w HI) as Hs.
  apply wp_bind, (wp_readCtrl _ _ c); [done|intros; by apply carried_none|].
  destruct (Z.eqb_spec (mstate c) migDraining) as [Hm|Hm]; cbn [negb].
  2: { apply wp_fail, (refused _ _ c); [done|]. intros mk cur new [?|[?|?]]; by simplify_eq. }
  assert (oldSlot c = other (activeSlot c)) as ->.
  { destruct Hat as (_ & _ & _ & _ & _ & [[H _]|[[H _]|(_ & -> & _)]]); [rewrite Hm in H; discriminate..|done]. }
  by apply (wp_retire _ c Draining); rewrite ?Hm.
Qed.

Lemma wp_Abort w : Inv w -> wp AbortMigration (carried Abort w) w.
Proof.
  intros HI. destruct (Inv_at w HI) as (c & Hat). pose proof (stays_faults w HI) as Hs.
  apply wp_bind, (wp_readCtrl _ _ c); [done|intros; by apply carried_none|].
  destruct (Z.eqb_spec (mstate c) migPriming) as [Hm|Hm]; cbn [negb].
  2: { apply wp_fail, (refused _ _ c); [done|]. intros mk cur new [?|[?|?]]; by simplify_eq. }
  by apply (wp_retire _ c Priming); rewrite ?Hm.
Qed.

(** The second half of a hard switch, from a steady datapath. *)
Definition settle (b4 aftr : Addr) : DP unit :=
  c ← readCtrl;
  writeNextHop (other (activeSlot c)) b4 aftr ≫= fun _ =>
  writeCtrl (mkCtrl (other (activeSlot c)) (other (activeSlot c)) migSteady (epoch c)).

Lemma wp_settle b4 aftr w e cur prev : Inv w -> validateSoftwireAddrs b4 aftr = Ret tt ->
  phase_of (now_seen w) = Steady e cur prev ->
  wp (settle b4 aftr) (fun r w' => stays w w' /\
    match r with
    | Ret _ => phase_of (now_seen w') = Steady e (pair b4 aftr) cur
    | Fail _ => ~ calm w /\ (phase_of (now_seen w') = Steady e cur prev \/
                             phase_of (now_seen w') = Steady e cur (pair b4 aftr))
    | Panic => False
    end) w.
Proof.
  intros HI Ha Hp. destruct (Inv_at w HI) as (c & Hat). pose proof (stays_faults w HI) as Hs.
  pose proof Hat as (_ & Hv & Hc). destruct (ctl_ok_shows _ _ Hc) as (mk & Hmk).
  pose proof Hp as Hp0. rewrite (phase_of_at _ _ _ Hat Hmk) in Hp.
  destruct Hmk as [H|[H|H]]; injection H as Hm ->; [|discriminate..]. injection Hp as <- <- <-.
  assert (forall h, ctl_ok c h -> phase_of (pack c, h) =
    Steady (epoch c) (hop h (activeSlot c)) (hop h (other (activeSlot c)))) as Hph
    by (intros; apply phase_of_pack; by rewrite ?Hm).
  pose proof (other_slot _ (proj1 Hc)) as (Ho1 & Hne & Ho2).
  apply wp_bind, (wp_readCtrl _ _ c); [done|intros; split; [done|split; [done|by left]]|].
  apply wp_bind, (wp_writeNextHop _ c); [done..| |].
  - intros e' w' Hs' Hn Hr. split; [eauto using stays_trans|]. split.
    + intros HH. destruct (not_resolving_other w c Hat); [by rewrite Hm|by apply Hr, Hs].
    + left. by rewrite Hn.
  - intros w' Hs' _ Hn Hc'. pose proof (stays_trans _ _ _ Hs Hs') as Hs2. injection Hn as Hn1 Hn2.
    assert (hop (hops w') (activeSlot c) = hop (hops w) (activeSlot c) /\
            hop (hops w') (other (activeSlot c)) = pair b4 aftr) as [Hh1 Hh2].
    { rewrite Hn2. split; [by apply hop_insert_ne|by apply hop_insert]. }
    assert (ctl_ok (mkCtrl (other (activeSlot c)) (other (activeSlot c)) migSteady (epoch c)) (hops w')) as Hc2.
    { destruct Hc' as (? & ? & _). split; [done|]. split; [done|].
      split; [rewrite Hn2; by apply endpoint_insert|by left]. }
    apply wp_writeCtrl; [apply Hs2|done|..].
    + intros w2 Hs3 Hw Hn3. split; [eauto using stays_trans|]. split; [intros HH; by apply Hw, Hs2|].
      right. rewrite Hn3. unfold now_seen. by rewrite Hn1, Hph, Hh1, Hh2.
    + intros w2 Hs3 Hn3. split; [eauto using stays_trans|].
      rewrite Hn3, (phase_of_pack _ _ Steady) by done. cbn. by rewrite Ho2, Hh1, Hh2.
Qed.

Lemma wp_calm_chain {A B} (m : DP A) (f : A -> DP B) P Q w : wp m P w ->
  (forall r w', P r w' -> match r with
                          | Ret a => wp (f a) Q w'
                          | Fail e => Q (Fail e) w'
                          | Panic => Q Panic w'
                          end) -> wp (m ≫= f) Q w.
Proof. intros Hm Hf. apply wp_bind. by apply (wp_mono _ P). Qed.

(** A hard switch once the migration in progress, if any, is over. *)
Lemma wp_switch_end b4 aftr (m : DP unit) t w e cur new prev : Inv w ->
  validateSoftwireAddrs b4 aftr = Ret tt -> wp m (carried t w) w ->
  next t (phase_of (now_seen w)) = Some (Steady e cur prev) ->
  next (Switch b4 aftr) (phase_of (now_seen w)) = Some (Steady e (pair b4 aftr) cur) ->
  phase_of (now_seen w) = new ->
  stopped t new ++ [Steady e cur prev; Steady e cur (pair b4 aftr)] ⊆ stopped (Switch b4 aftr) new ->
  wp (m ≫= fun _ => settle b4 aftr) (carried (Switch b4 aftr) w) w.
Proof.
  intros HI Ha Hm Hn Hsw <- Hsub. eapply wp_calm_chain; [done|]. intros [[]|e'|] w' (Hs & Hr); [| |done].
  - rewrite Hn in Hr. injection Hr as Hr. eapply wp_mono; [apply (wp_settle b4 aftr w' e cur prev); [apply Hs|done|done]|].
    intros [[]|e'|] w2 (Hs2 & Hr2); [| |done]; (split; [by eapply stays_trans|]); [by rewrite Hsw, Hr2|].
    destruct Hr2 as (Hc & Hr2). split; [|intros HH; destruct Hc; by apply Hs].
    apply Hsub. apply elem_of_app. right. destruct Hr2 as [-> | ->]; [by left|by right; left].
  - destruct Hr as (Hr & Hc). split; [done|]. split; [apply Hsub, elem_of_app; by left|].
    intros HH. destruct (Hc HH) as [Hc' _]. by rewrite Hc' in Hn.
Qed.

Lemma carried_from t w w0 r w' : stays w w0 -> now_seen w0 = now_seen w ->
  carried t w0 r w' -> carried t w r w'.
Proof.
  intros Hs Hn (Hs' & Hr). split; [by eapply stays_trans|]. rewrite Hn in Hr.
  destruct r as [a|e|]; [done| |done]. destruct Hr as (? & Hc). split; [done|].
  intros HH. by apply Hc, Hs.
Qed.

(** A hard switch of a steady datapath. *)
Lemma wp_switch_steady b4 aftr w e cur prev : Inv w -> validateSoftwireAddrs b4 aftr = Ret tt ->
  phase_of (now_seen w) = Steady e cur prev ->
  wp (settle b4 aftr) (carried (Switch b4 aftr) w) w.
Proof.
  intros HI Ha Hp. eapply wp_mono; [by apply wp_settle|].
  intros [[]|e'|] w' (Hs & Hr); [| |done]; (split; [done|]); rewrite Hp; cbn.
  - unfold acceptable. by rewrite Ha, Hr.
  - destruct Hr as (Hc & Hr). split; [|done]. destruct Hr as [-> | ->]; [by left|by right; left].
Qed.

Lemma wp_Switch b4 aftr w : Inv w -> wp (SwitchAFTR b4 aftr) (carried (Switch b4 aftr) w) w.
Proof.
  intros HI. apply wp_validate; [done|by right|]. intros Ha. destruct (Inv_at w HI) as (c & Hat).
  pose proof (stays_faults w HI) as Hs. pose proof Hat as (_ & Hv & Hc).
  assert (acceptable b4 aftr = true) as Ha' by (unfold acceptable; by rewrite Ha).
  apply wp_bind, (wp_readCtrl _ _ c); [done|intros; by apply carried_none|].
  destruct (ctl_ok_shows _ _ Hc) as (mk & Hmk). pose proof (phase_of_at _ _ _ Hat Hmk) as Hp.
  set (w0 := with_faults _ _) in *. assert (phase_of (now_seen w0) = _) as Hp0 by exact Hp.
  eapply (wp_mono _ (carried (Switch b4 aftr) w0)); [|intros r w' Hr; by eapply carried_from].
  assert (Inv w0) as HI0 by apply Hs.
  destruct Hmk as [H|[H|H]]; injection H as -> ->; cbn [Z.eqb migSteady migPriming migDraining].
  - by eapply wp_switch_steady.
  - eapply (wp_switch_end _ _ _ Abort);
      [done|done|by apply wp_Abort|by rewrite Hp0|rewrite Hp0; cbn; by rewrite Ha'|exact Hp0|].
    cbn. set_solver.
  - eapply (wp_switch_end _ _ _ Complete);
      [done|done|by apply wp_Complete|by rewrite Hp0|rewrite Hp0; cbn; by rewrite Ha'|exact Hp0|].
    cbn. set_solver.
Qed.

Lemma wp_migrate t w : Inv w -> wp (migrate t) (carried t w) w.
Proof. destruct t; cbn [migrate]; auto using wp_Begin, wp_Cut, wp_Complete, wp_Abort, wp_Switch. Qed.

(** ** The calls that leave the slots alone *)

Definition aside {A} (m : DP A) : Prop :=
  forall w, now_seen (m w).2 = now_seen w /\ hist (m w).2 = hist w.

Lemma aside_bind {A B} (m : DP A) (f : A -> DP B) : aside m -> (forall a, aside (f a)) -> aside (m ≫= f).
Proof.
  intros Hm Hf w. specialize (Hm w). unfold mbind, DP_bind. destruct (m w) as [[a| |] w'] eqn:?; [|done..].
  cbn in Hm. specialize (Hf a w'). destruct Hf, Hm. split; congruence.
Qed.

Lemma aside_mapop {A} e (f : world -> A * world) :
  (forall w, now_seen (f w).2 = now_seen w /\ hist (f w).2 = hist w) -> aside (mapop e f).
Proof.
  intros Hf w. unfold mapop. specialize (Hf (with_faults w (tail (faults w)))).
  destruct (default _ _); [done|]. by destruct (f _).
Qed.

Lemma aside_ret {A} (a : A) : aside (mret a).
Proof. done. Qed.
Lemma aside_fail {A} e : aside (@fail A e).
Proof. done. Qed.

Lemma aside_delete stale : aside (deleteStale stale).
Proof.
  intros w. unfold deleteStale. cbn. revert w. induction stale as [|k l IH]; intros w; [done|]. cbn.
  destruct (IH (mapop "deleting" (fun w => (tt, with_affinity w (delete k (affinity w)))) w).2) as [-> ->].
  by apply aside_mapop.
Qed.

#[local] Hint Resolve aside_bind aside_mapop aside_ret aside_fail aside_delete : core.

Lemma aside_slot now s acc w :
  now_seen (pmtu_slot now s acc w).2 = now_seen w /\ hist (pmtu_slot now s acc w).2 = hist w.
Proof.
  unfold pmtu_slot, mapop. by destruct (default false _).
Qed.

Lemma aside_pmtu now l acc w :
  now_seen (pmtu_loop now l acc w).2 = now_seen w /\ hist (pmtu_loop now l acc w).2 = hist w.
Proof.
  revert acc w. induction l as [|s l IH]; intros acc w; [done|]. cbn.
  destruct (aside_slot now s acc w) as [H1 H2]. destruct (pmtu_slot now s acc w) as [acc' w'].
  destruct (IH acc' w') as [H3 H4]. cbn in *. split; congruence.
Qed.

Definition quiet (c : call) : Prop :=
  match c with Migrate _ | SetB4 _ => False | _ => True end.

Lemma aside_run c : quiet c -> aside (run c).
Proof.
  destruct c as [t|cfg|i cfg|t clock|m|clock]; intros Hq; [done..| | | |]; cbn [run].
  - unfold SetLANConfig. case_match; [auto|]. apply aside_bind; unfold registerTxPort; auto.
  - apply aside_bind; [|auto]. unfold GCFlowAffinity, readCtrl, iterate, monotonicNanos.
    apply aside_bind; [auto|]. intros c. apply aside_bind; [case_match; auto|]. intros now.
    apply aside_bind; auto.
  - unfold SetSoftwireMTU, putB4. apply aside_bind; auto.
  - intros w. unfold TunnelPMTU. destruct clock; [apply aside_pmtu|done].
Qed.

Lemma aside_Inv {A} (m : DP A) w : aside m -> Inv w -> Inv (m w).2.
Proof. intros Hm HI. destruct (Hm w) as [Hn Hh]. unfold Inv. by rewrite Hn, Hh. Qed.

(** ** Installing the first pair *)

Lemma mctl0 h : endpoint h 0 -> ctl_ok (mkCtrl 0 0 migSteady 0) h.
Proof. intros. split; [by left|]. split; [done|]. split; [done|]. by left. Qed.

(** From maps just created: nothing is resolvable, so slot 0 is written and
    pointed at. *)
Lemma SetB4_created cfg fs w : SetB4Config cfg (zero_world fs) = (Ret tt, w) -> Inv w.
Proof.
  intros H. cut (wp (SetB4Config cfg) (fun r w' => r = Ret tt -> Inv w') (zero_world fs)).
  { unfold wp. rewrite H. auto. }
  apply wp_bind, wp_lift. destruct (validateSoftwireAddrs _ _) as [[]| |] eqn:Ha; [|done..].
  apply wp_bind. unfold wp at 1, setAuto. cbn -[wp writeNextHop].
  apply wp_bind, wp_mapop; [done|]. intros. cbn -[wp writeNextHop].
  apply wp_bind, wp_bind, wp_mapop; [done|]. cbn -[wp].
  apply wp_bind. unfold slotIsLive. cbn -[wp]. apply wp_bind, wp_mapop; [done|]. cbn -[wp].
  apply wp_ret. apply wp_bind, wp_mapop; [done|]. cbn -[wp As16]. apply wp_mapop; [done|]. cbn -[wp As16].
  apply wp_bind, wp_mapop; [done|]. cbn -[wp As16]. apply wp_mapop; [done|]. cbn -[As16]. intros _.
  match goal with |- Inv ?w =>
    assert (ctl_ok (mkCtrl 0 0 migSteady 0) (hops w)) as Hc by (apply mctl0, endpoint_insert; done) end.
  split; [exists (mkCtrl 0 0 migSteady 0); done|]. eexists. split; [done|]. cbn -[As16].
  apply safe_store; [apply safe_store; [apply safe_created|..]|apply store_ctrl|].
  - apply store_slot. by intros [_ []].
  - by apply (snap_ok_pack (mkCtrl 0 0 migSteady 0)).
  - by apply (snap_ok_pack (mkCtrl 0 0 migSteady 0)).
Qed.

Lemma wp_SetB4 cfg w : Inv w -> wp (SetB4Config cfg) (fun _ w' => Inv w') w.
Proof.
  intros HI. apply wp_bind, wp_lift. destruct (validateSoftwireAddrs _ _) as [[]| |] eqn:Ha; [|done..].
  apply wp_bind. unfold wp at 1, setAuto. cbn [fst snd].
  apply wp_bind, wp_mapop; [done|]. cbn [fst snd]. set (w1 := with_b4cfg _ _ _).
  assert (Inv w1) as HI1 by exact HI. clearbody w1. destruct (Inv_at w1 HI1) as (c & Hat).
  apply wp_bind, (wp_writeNextHop _ c); [done..|by intros ? ? [? _]|].
  intros w2 [HI2 _] _ Hn Hc. injection Hn as Hn1 Hn2.
  apply wp_bind, wp_writeCtrl; [done|apply mctl0; rewrite Hn2; by apply endpoint_insert|by intros ? [? _]|].
  intros w3 [HI3 _] _. apply wp_mapop; done.
Qed.

Lemma Inv_run c w : Inv w -> Inv (run c w).2.
Proof.
  intros HI. destruct c as [t|cfg| | | |]; [|by apply wp_SetB4|by apply aside_Inv; [apply aside_run|]..].
  exact (proj1 (proj1 (wp_migrate t w HI))).
Qed.

Lemma Inv_runs cs w : Inv w -> Inv (runs cs w).
Proof. revert w. induction cs; cbn; auto using Inv_run. Qed.

(** ** The packet path (bpf/datapath.bpf.c) *)

(** What one packet of flow [key] at instant [now] does to the affinity table;
    [full]: the insertion, if there is one, fails.  The booleans: the entry
    carries the current epoch; an insertion failed. *)
Definition touch_flow_affinity (v : Z) (key : FlowKey) (now : Z) (full : bool)
    (aff : gmap FlowKey FlowAffinity) : bool * bool * gmap FlowKey FlowAffinity :=
  let c := unpackMigrationCtrl v in
  match aff !! key with
  | Some fa =>
    let fa := if mstate c =? migPriming then mkAffinity (LastSeenNs fa) (epoch c) else fa in
    if negb (Epoch fa =? epoch c) then (false, false, <[key := fa]> aff)
    else (true, false, <[key := mkAffinity now (Epoch fa)]> aff)
  | None =>
    if negb (mstate c =? migPriming) then (false, false, aff)
    else if full then (false, true, aff)
    else (false, false, <[key := mkAffinity now (epoch c)]> aff)
  end.

(** The slot a packet of [key] is encapsulated with. *)
Definition pick_softwire_slot (v : Z) (key : FlowKey) (now : Z) (full : bool)
    (aff : gmap FlowKey FlowAffinity) : Z * bool * gmap FlowKey FlowAffinity :=
  let c := unpackMigrationCtrl v in
  if mstate c =? migSteady then (activeSlot c, false, aff)
  else
    let '(hit, failed, aff') := touch_flow_affinity v key now full aff in
    if (mstate c =? migDraining) && hit then (oldSlot c, failed, aff')
    else (activeSlot c, failed, aff').

(** The slot a packet is sent through, and whether it went unrecorded. *)
Definition picked (v : Z) (key : FlowKey) (now : Z) (full : bool) (aff : gmap FlowKey FlowAffinity) : Z :=
  (pick_softwire_slot v key now full aff).1.1.

Lemma picked_cases v key now full aff :
  picked v key now full aff = activeSlot (unpackMigrationCtrl v) \/
  mstate (unpackMigrationCtrl v) = migDraining /\ picked v key now full aff = oldSlot (unpackMigrationCtrl v).
Proof.
  unfold picked, pick_softwire_slot. destruct (_ =? migSteady); [by left|].
  destruct (touch_flow_affinity _ _ _ _ _) as [[hit failed] aff'].
  destruct (Z.eqb_spec (mstate (unpackMigrationCtrl v)) migDraining), hit; auto.
Qed.

Lemma picked_endpoint s key now full aff : snap_ok s -> endpoint s.2 (picked s.1 key now full aff).
Proof.
  intros Hs. destruct s as [v h]. pose proof (snap_ok_unpack v h Hs) as (_ & _ & Ha & Hp). cbn.
  destruct (picked_cases v key now full aff) as [-> | [Hm ->]]; [done|].
  destruct Hp as [[H _]|[[H _]|(_ & _ & ?)]]; [rewrite Hm in H; discriminate..|done].
Qed.

Lemma Inv_after t w r w' : Inv w -> migrate t w = (r, w') -> Inv w'.
Proof. intros HI H. pose proof (Inv_run (Migrate t) w HI) as Hw. cbn [run] in Hw. by rewrite H in Hw. Qed.

(** ** The theorems *)

(** C2: Once the first endpoint pair is installed, whatever calls follow and
    whichever map operations fail, a packet never resolves a torn slot: every
    control word the packet programs ever saw selects, for every flow and every
    content of the affinity table, a slot holding a complete validated pair, and
    each store in the whole history was either a whole control word or a slot
    no packet could be resolving at that moment. *)
Theorem slots_never_torn cfg fs w0 cs :
  SetB4Config cfg (zero_world fs) = (Ret tt, w0) ->
  safe_hist (hist (runs cs w0)) /\
  head (hist (runs cs w0)) = Some (now_seen (runs cs w0)) /\
  forall key now full aff,
    endpoint (hops (runs cs w0)) (picked (ctrl (runs cs w0)) key now full aff).
Proof.
  intros H. pose proof (Inv_runs cs w0 (SetB4_created _ _ _ H)) as HI.
  destruct HI as (Hs & l & Hl & Hh). split; [done|]. split; [by rewrite Hl|].
  intros. by apply (picked_endpoint (now_seen (runs cs w0))).
Qed.

(** C11: Begin, Cutover, Complete, Abort and SwitchAFTR implement the three-phase
    machine [next] from every well-formed datapath: a call that returns made
    exactly the machine's transition, a call that fails left the datapath in one
    of the phases [stopped] lists (the machine's phases only), a call the machine
    refuses changes nothing, none panics, and when no map operation fails a call
    is refused only where the machine refuses it. *)
Theorem migration_refines t w r w' : Inv w -> migrate t w = (r, w') ->
  Inv w' /\
  match r with
  | Ret _ => next t (phase_of (now_seen w)) = Some (phase_of (now_seen w'))
  | Fail _ => phase_of (now_seen w') ∈ stopped t (phase_of (now_seen w)) /\
              (calm w -> next t (phase_of (now_seen w)) = None /\ now_seen w' = now_seen w)
  | Panic => False
  end.
Proof.
  intros HI H. pose proof (wp_migrate t w HI) as Hw. unfold wp in Hw. rewrite H in Hw.
  destruct Hw as ((? & _) & ?). by split.
Qed.

(** The control word holds the four fields exactly: unpacking a packed word
    gives the fields back, whatever 32-bit word is read packs to itself, and the
    four fields are always bytes. *)
Lemma ctrl_roundtrip :
  (forall c, ctrl_range c -> unpackMigrationCtrl (pack c) = c /\ 0 <= pack c < 2 ^ 32) /\
  (forall v, 0 <= v < 2 ^ 32 -> pack (unpackMigrationCtrl v) = v) /\
  (forall v, ctrl_range (unpackMigrationCtrl v)).
Proof.
  split; [|split; [apply pack_unpack|apply unpack_range]]. intros c Hc.
  split; [by apply unpack_pack|]. rewrite (pack_sum c Hc). destruct Hc as ((? & ?) & ? & ?). lia.
Qed.

(** ** At concrete inputs *)

Definition b4_1 : Addr := A6 0x20010db8000000000000000000000001 "".
Definition aftr_1 : Addr := A6 0x20010db8000000000000000000000002 "".
Definition aftr_2 : Addr := A6 0x20010db8000000000000000000000003 "".
Definition cfg_1 : B4Config := mkB4Config b4_1 aftr_1 [2;0;0;0;0;1] [2;0;0;0;0;2] 3 1500 0 (-1).
Definition w_1 : world := (SetB4Config cfg_1 (zero_world [])).2.

Lemma w_1_eq : SetB4Config cfg_1 (zero_world []) = (Ret tt, w_1).
Proof. vm_compute. reflexivity. Qed.

(** A migration followed through, and a hard switch after it. *)
Definition calls_1 : list call :=
  [Migrate (Begin b4_1 aftr_2); Migrate Cut; Migrate Complete; Migrate (Switch b4_1 aftr_1)].

Lemma slots_never_torn_witness :
  SetB4Config cfg_1 (zero_world []) = (Ret tt, w_1) /\ safe_hist (hist (runs calls_1 w_1)).
Proof. exact (conj w_1_eq (proj1 (slots_never_torn cfg_1 [] w_1 calls_1 w_1_eq))). Defined.

Lemma w_1_Inv : Inv w_1.
Proof. exact (SetB4_created cfg_1 [] w_1 w_1_eq). Qed.

Definition w_2 : world := (BeginMigration b4_1 aftr_2 w_1).2.

Lemma w_2_eq : migrate (Begin b4_1 aftr_2) w_1 = (Ret tt, w_2).
Proof. vm_compute. reflexivity. Qed.

Lemma migration_refines_witness :
  next (Begin b4_1 aftr_2) (phase_of (now_seen w_1)) = Some (phase_of (now_seen w_2)).
Proof. exact (proj2 (migration_refines (Begin b4_1 aftr_2) w_1 (Ret tt) w_2 w_1_Inv w_2_eq)). Defined.

Lemma w_2_Inv : Inv w_2.
Proof. exact (Inv_after _ _ _ _ w_1_Inv w_2_eq). Qed.

Lemma ctrl_roundtrip_witness :
  unpackMigrationCtrl (pack (mkCtrl 1 0 migDraining 255)) = mkCtrl 1 0 migDraining 255.
Proof.
  apply (proj1 ctrl_roundtrip (mkCtrl 1 0 migDraining 255)). repeat split; discriminate.
Defined.

(** Retiring the old slot can fail after the control word is written; the datapath
    is then STEADY, where completing is refused for good. *)
Definition w_drain : world := with_faults (runs [Migrate Cut] w_2) [false; false; true].

Lemma complete_half_way :
  exists w, CompleteMigration w_drain = (Fail "clearing next-hop slot", w) /\ calm w /\
    mstate (unpackMigrationCtrl (ctrl w)) = migSteady /\
    (CompleteMigration w).1 = Fail "completing requires DRAINING".
Proof. eexists. split; [vm_compute; reflexivity|]. repeat split. Qed.
