(* ===== verification/Affinity.v ===== *)
(** Which AFTR a flow's packets reach across a migration: the recording of
    PRIMING, the pinning of DRAINING (src/bpf/datapath.bpf.c) and the reclaiming
    of idle entries (GCFlowAffinity in src/pkg/datapath/migration.go), run
    together in any order. *)

From S2P Require Import Prelude Wire Netip Datapath Migration.

Local Open Scope Z_scope.

(** ** Events *)

Inductive event : Type :=
| Packet (key : FlowKey) (now : Z) (full : bool)
| Collect (t : FlowIdleTimeouts) (clock : option Z).

Definition step (e : event) (w : world) : world :=
  match e with
  | Packet k now full => with_affinity w (pick_softwire_slot (ctrl w) k now full (affinity w)).2
  | Collect t clock => (GCFlowAffinity t clock w).2
  end.

Definition steps (es : list event) (w : world) : world := fold_left (fun w e => step e w) es w.

Definition idle_of (t : FlowIdleTimeouts) (k : FlowKey) : Z :=
  if Proto k =? IPPROTO_TCP then idleTCP t else idleOther t.

(** The instant of [k]'s last packet, [last] before [es]. *)
Fixpoint last_packet (k : FlowKey) (last : Z) (es : list event) : Z :=
  match es with
  | [] => last
  | Packet k' now _ :: es' => last_packet k (if decide (k' = k) then now else last) es'
  | Collect _ _ :: es' => last_packet k last es'
  end.

(** No collection during [es] finds [k] idle; instants are readings of a 63-bit
    clock. *)
Fixpoint active (k : FlowKey) (last : Z) (es : list event) : Prop :=
  match es with
  | [] => True
  | Packet k' now _ :: es' => 0 <= now < 2 ^ 63 /\ active k (if decide (k' = k) then now else last) es'
  | Collect t (Some now) :: es' => 0 <= now < 2 ^ 63 /\ now - last <= idle_of t k /\ active k last es'
  | Collect t None :: es' => active k last es'
  end.

(** [k] is recorded in the generation [e], last seen at [t]. *)
Definition recorded (w : world) (e : Z) (k : FlowKey) (t : Z) : Prop :=
  affinity w !! k = Some (mkAffinity t e).

(** ** Collecting *)

Lemma step_seen e w : now_seen (step e w) = now_seen w /\ hist (step e w) = hist w.
Proof.
  destruct e as [k now full|t clock]; [done|]. destruct (aside_run (GC t clock) I w) as [Hn Hh].
  cbn [run] in *. unfold mbind, DP_bind in *. cbn [step].
  destruct (GCFlowAffinity t clock w) as [[] ?]; done.
Qed.

Lemma step_ctrl e w : ctrl (step e w) = ctrl w.
Proof. exact (f_equal fst (proj1 (step_seen e w))). Qed.

Lemma steps_seen es w : now_seen (steps es w) = now_seen w /\ hist (steps es w) = hist w.
Proof.
  revert w. induction es as [|e es IH]; intros w; [done|]. change (steps (e :: es) w) with (steps es (step e w)).
  destruct (IH (step e w)) as [-> ->]. apply step_seen.
Qed.

Lemma steps_ctrl es w : ctrl (steps es w) = ctrl w.
Proof. exact (f_equal fst (proj1 (steps_seen es w))). Qed.

(** A deletion that fails leaves its entry; the others go. *)
Lemma gc_delete_spec l w : ctrl (gc_delete l w) = ctrl w /\
  (forall k, k ∉ l -> affinity (gc_delete l w) !! k = affinity w !! k) /\
  (forall k, affinity (gc_delete l w) !! k = None \/ affinity (gc_delete l w) !! k = affinity w !! k) /\
  (calm w -> calm (gc_delete l w) /\ forall k, k ∈ l -> affinity (gc_delete l w) !! k = None).
Proof.
  revert w. induction l as [|k0 l IH]; intros w; cbn [gc_delete].
  { split; [done|]. split; [done|]. split; [by right|]. intros Hw. split; [done|].
    intros k Hk. by apply elem_of_nil in Hk. }
  set (w1 := (mapop _ _ w).2).
  assert (ctrl w1 = ctrl w /\ (affinity w1 = affinity w \/ affinity w1 = delete k0 (affinity w)) /\
    (calm w -> calm w1 /\ affinity w1 = delete k0 (affinity w))) as (Hc & Ha & Hq).
  { unfold w1, mapop, calm. destruct (faults w) as [|[] fs]; cbn; (split; [done|]); (split; [by auto|]); try done; auto. }
  destruct (IH w1) as (IHc & IH1 & IH2 & IH3). split; [congruence|].
  split; [|split].
  - intros k Hk. apply not_elem_of_cons in Hk as [Hk Hl]. rewrite (IH1 k Hl).
    destruct Ha as [-> | ->]; [done|by apply lookup_delete_ne].
  - intros k. destruct (IH2 k) as [?|Hk]; [by left|]. rewrite Hk.
    destruct Ha as [-> | ->]; [by right|]. destruct (decide (k0 = k)) as [->|].
    + left. apply lookup_delete_eq.
    + right. by apply lookup_delete_ne.
  - intros Hw. destruct (Hq Hw) as [Hq1 Hq2]. destruct (IH3 Hq1) as [Hq3 Hq4]. split; [done|].
    intros k Hk. destruct (decide (k ∈ l)) as [?|Hl]; [by apply Hq4|].
    rewrite (IH1 k Hl), Hq2. apply elem_of_cons in Hk as [->|?]; [apply lookup_delete_eq|done].
Qed.

(** What a collection at instant [now] does, whatever fails. *)
Definition gc_post (t : FlowIdleTimeouts) (now : Z) (w : world) (r : outcome Z) (w' : world) : Prop :=
  let c := unpackMigrationCtrl (ctrl w) in
  (calm w -> calm w' /\ exists n, r = Ret n) /\
  (forall k, affinity w' !! k = None \/ affinity w' !! k = affinity w !! k) /\
  (forall k fa, affinity w !! k = Some fa -> gc_stale c t now k fa = false -> affinity w' !! k = Some fa) /\
  (forall n, r = Ret n -> calm w ->
    affinity w' = filter (fun kv => gc_stale c t now kv.1 kv.2 = false) (affinity w) /\
    n = Z.of_nat (size (affinity w'))).

Lemma stale_keys (m : gmap FlowKey FlowAffinity) (P : FlowKey * FlowAffinity -> bool) k fa :
  m !! k = Some fa ->
  (k ∈ (filter (fun kv => P kv = true) (map_to_list m)).*1 <-> P (k, fa) = true).
Proof.
  intros Hk. rewrite list_elem_of_fmap. split.
  - intros ([k' fa'] & -> & Hin). apply list_elem_of_filter in Hin as [HP Hin].
    apply elem_of_map_to_list in Hin. cbn in *. by simplify_eq.
  - intros HP. exists (k, fa). split; [done|]. apply list_elem_of_filter. split; [done|].
    by apply elem_of_map_to_list.
Qed.

Lemma wp_GC t now w : wp (GCFlowAffinity t (Some now)) (gc_post t now w) w.
Proof.
  assert (forall e w', affinity w' = affinity w -> ~ calm w -> gc_post t now w (Fail e) w') as HF.
  { intros e w' Ha Hn. unfold gc_post. rewrite Ha. split; [done|]. split; [by right|]. by split. }
  unfold GCFlowAffinity. apply wp_bind, wp_mapop; [intros; by apply HF|]. cbn [fst snd].
  apply wp_bind, wp_ret. apply wp_bind, wp_mapop.
  { intros Hn. apply HF; [done|]. intros HH. apply Hn. unfold calm in *. cbn. by rewrite HH. }
  cbn [fst snd]. set (w1 := with_faults (with_faults _ _) _). set (c := unpackMigrationCtrl _).
  set (stale := fst <$> _). apply wp_bind. unfold wp at 1, deleteStale. cbn [fst snd]. apply wp_ret.
  destruct (gc_delete_spec stale w1) as (_ & H1 & H2 & H3).
  assert (affinity w1 = affinity w) as Hw1 by done. rewrite Hw1 in H1, H2.
  assert (forall k fa, affinity w !! k = Some fa -> k ∈ stale <-> gc_stale c t now k fa = true) as Hst.
  { intros k fa Hk. apply (stale_keys (affinity w) (fun kv => gc_stale c t now kv.1 kv.2) k fa Hk). }
  assert (calm w -> calm w1) as Hcalm by (unfold calm; cbn; by intros ->).
  split; [|split; [exact H2|split]].
  - intros HH. split; [by apply H3, Hcalm|by eexists].
  - intros k fa Hk Hf. change (gc_stale c t now k fa = false) in Hf.
    rewrite H1; [done|]. rewrite (Hst _ _ Hk). congruence.
  - intros n [= <-] HH.
    assert (affinity (gc_delete stale w1) = filter (fun kv => gc_stale c t now kv.1 kv.2 = false) (affinity w)) as Ha'.
    { apply map_eq. intros k. destruct (affinity w !! k) as [fa|] eqn:Hk.
      * destruct (gc_stale c t now k fa) eqn:Hf.
        -- rewrite (proj2 (H3 (Hcalm HH))) by (by apply (Hst _ _ Hk)). symmetry.
           apply map_lookup_filter_None. right. intros fa' Hk' Hf'. cbn in Hf'. simplify_eq. change (gc_stale c t now k fa = false) in Hf'. congruence.
        -- rewrite H1, Hk; [|rewrite (Hst _ _ Hk); congruence]. symmetry.
           apply map_lookup_filter_Some. done.
      * destruct (H2 k) as [->| ->]; rewrite ?Hk; symmetry; apply map_lookup_filter_None; by left. }
    split; [exact Ha'|]. cbn -[map_filter]. rewrite Ha', map_filter_alt, map_size_list_to_map; [done|].
    apply (sublist_NoDup _ ((map_to_list (affinity w)).*1)); [apply NoDup_fst_map_to_list|].
    apply fmap_sublist, sublist_filter.
Qed.

(** ** One flow across events *)

Lemma GC_none t w : affinity (GCFlowAffinity t None w).2 = affinity w.
Proof. unfold GCFlowAffinity, readCtrl, mapop, mbind, DP_bind. by destruct (default false _). Qed.

Lemma recorded_collect t now w e k last : recorded w e k last ->
  epoch (unpackMigrationCtrl (ctrl w)) = e ->
  mstate (unpackMigrationCtrl (ctrl w)) = migPriming \/
  (0 <= now < 2 ^ 63 /\ 0 <= last < 2 ^ 63 /\ now - last <= idle_of t k) ->
  recorded (step (Collect t (Some now)) w) e k last.
Proof.
  intros Hr He Hm. destruct (wp_GC t now w) as (_ & _ & Hk & _). unfold recorded in *. cbn [step].
  apply Hk; [done|]. unfold gc_stale. cbn [Epoch LastSeenNs]. rewrite He, Z.eqb_refl. cbn [negb].
  destruct (Z.eqb_spec (mstate (unpackMigrationCtrl (ctrl w))) migPriming); [done|].
  destruct Hm as [?|(H1 & H2 & H3)]; [done|]. unfold idle_of in H3.
  rewrite (i64_id now), (i64_id last), (i64_id (now - last)) by lia. by apply Z.ltb_ge.
Qed.

Lemma packet_affinity k now full w :
  affinity (step (Packet k now full) w) =
  if mstate (unpackMigrationCtrl (ctrl w)) =? migSteady then affinity w
  else (touch_flow_affinity (ctrl w) k now full (affinity w)).2.
Proof.
  cbn [step affinity with_affinity]. unfold pick_softwire_slot. destruct (_ =? migSteady); [done|].
  destruct (touch_flow_affinity _ _ _ _ _) as [[hit failed] aff']. by destruct (_ && hit).
Qed.

Lemma touch_other v k k' now full aff : k <> k' ->
  (touch_flow_affinity v k now full aff).2 !! k' = aff !! k'.
Proof.
  intros Hne. unfold touch_flow_affinity. destruct (aff !! k) as [fa|].
  - destruct (negb _); cbn; by apply lookup_insert_ne.
  - destruct (negb _); [done|]. destruct full; [done|]. by apply lookup_insert_ne.
Qed.

(** A packet refreshes its own entry and leaves the others alone. *)
Lemma recorded_packet w e k last k' now full : recorded w e k last ->
  epoch (unpackMigrationCtrl (ctrl w)) = e ->
  mstate (unpackMigrationCtrl (ctrl w)) <> migSteady ->
  recorded (step (Packet k' now full) w) e k (if decide (k' = k) then now else last).
Proof.
  unfold recorded. intros Hr He Hm. rewrite packet_affinity, (proj2 (Z.eqb_neq _ _) Hm).
  destruct (decide (k' = k)) as [->|Hne]; [|by rewrite touch_other].
  unfold touch_flow_affinity. rewrite Hr.
  destruct (_ =? migPriming); cbn [Epoch LastSeenNs]; rewrite He, Z.eqb_refl; apply lookup_insert_eq.
Qed.

Lemma recorded_steps es w e k last : recorded w e k last ->
  epoch (unpackMigrationCtrl (ctrl w)) = e ->
  mstate (unpackMigrationCtrl (ctrl w)) = migPriming \/
  (mstate (unpackMigrationCtrl (ctrl w)) = migDraining /\ 0 <= last < 2 ^ 63 /\ active k last es) ->
  recorded (steps es w) e k (last_packet k last es).
Proof.
  revert w last. induction es as [|ev es IH]; intros w last Hr He Hm; [done|].
  change (steps (ev :: es) w) with (steps es (step ev w)).
  pose proof (step_ctrl ev w) as Hc. destruct ev as [k' now full|t [now|]]; cbn [last_packet active] in *.
  - apply IH; [apply recorded_packet; [done..|]|by rewrite Hc|rewrite Hc].
    + destruct Hm as [->|[-> _]]; done.
    + destruct Hm as [?|(? & ? & ? & ?)]; [by left|right]. split; [done|]. split; [|done]. by case_decide.
  - apply IH; [apply recorded_collect; [done..|]|by rewrite Hc|rewrite Hc].
    + destruct Hm as [?|(? & ? & ? & ? & ?)]; [by left|by right].
    + destruct Hm as [?|(? & ? & ? & ? & ?)]; [by left|by right].
  - apply IH; [unfold recorded; cbn [step]; by rewrite GC_none|by rewrite Hc|by rewrite Hc].
Qed.

(** Outside PRIMING nothing enters the table: a flow without an entry of the
    current generation stays without one. *)
Definition absent (w : world) (e : Z) (k : FlowKey) : Prop :=
  forall fa, affinity w !! k = Some fa -> Epoch fa <> e.

Lemma absent_step ev w e k : absent w e k -> epoch (unpackMigrationCtrl (ctrl w)) = e ->
  mstate (unpackMigrationCtrl (ctrl w)) <> migPriming -> absent (step ev w) e k.
Proof.
  intros Ha He Hm fa Hk. destruct ev as [k' now full|t [now|]].
  - rewrite packet_affinity in Hk. destruct (_ =? migSteady); [by apply Ha|].
    destruct (decide (k' = k)) as [->|Hne]; [|rewrite touch_other in Hk by done; by apply Ha].
    unfold touch_flow_affinity in Hk. rewrite (proj2 (Z.eqb_neq _ _) Hm) in Hk.
    destruct (affinity w !! k) as [fa'|] eqn:Hk'; [|cbn in Hk; congruence].
    specialize (Ha _ Hk'). rewrite He, (proj2 (Z.eqb_neq _ _) Ha) in Hk. cbn in Hk.
    rewrite lookup_insert_eq in Hk. by injection Hk as <-.
  - cbn [step] in Hk. destruct (wp_GC t now w) as (_ & H & _). destruct (H k) as [Hn|Hn]; rewrite Hn in Hk; [done|by apply Ha].
  - cbn [step] in Hk. rewrite GC_none in Hk. by apply Ha.
Qed.

Lemma absent_steps es w e k : absent w e k -> epoch (unpackMigrationCtrl (ctrl w)) = e ->
  mstate (unpackMigrationCtrl (ctrl w)) <> migPriming -> absent (steps es w) e k.
Proof.
  revert w. induction es as [|ev es IH]; intros w Ha He Hm; [done|].
  change (steps (ev :: es) w) with (steps es (step ev w)).
  apply IH; rewrite ?step_ctrl; [by apply absent_step|done..].
Qed.

Lemma picked_recorded w e k last now full : recorded w e k last ->
  epoch (unpackMigrationCtrl (ctrl w)) = e -> mstate (unpackMigrationCtrl (ctrl w)) = migDraining ->
  picked (ctrl w) k now full (affinity w) = oldSlot (unpackMigrationCtrl (ctrl w)).
Proof.
  unfold recorded, picked, pick_softwire_slot, touch_flow_affinity. intros -> He ->.
  cbn [Z.eqb migSteady migPriming migDraining Epoch]. by rewrite He, Z.eqb_refl.
Qed.

Lemma picked_absent w k now full : absent w (epoch (unpackMigrationCtrl (ctrl w))) k ->
  mstate (unpackMigrationCtrl (ctrl w)) = migDraining ->
  picked (ctrl w) k now full (affinity w) = activeSlot (unpackMigrationCtrl (ctrl w)).
Proof.
  unfold absent, picked, pick_softwire_slot, touch_flow_affinity. intros Ha ->.
  destruct (affinity w !! k) as [fa|] eqn:Hk; [|done].
  specialize (Ha fa eq_refl). change (migDraining =? migSteady) with false.
  change (migDraining =? migPriming) with false. cbv iota.
  by rewrite (proj2 (Z.eqb_neq _ _) Ha).
Qed.

(** What Cutover leaves when it succeeds. *)
Lemma Cutover_ret w w' : Cutover w = (Ret tt, w') ->
  let c := unpackMigrationCtrl (ctrl w) in
  mstate c = migPriming /\ hops w' = hops w /\ affinity w' = affinity w /\
  ctrl w' = pack (mkCtrl (other (activeSlot c)) (activeSlot c) migDraining (epoch c)).
Proof.
  unfold Cutover, readCtrl, writeCtrl, mapop, mbind, DP_bind.
  destruct (default false (head (faults w))); [done|]. cbn [fst snd ctrl with_faults].
  destruct (Z.eqb_spec (mstate (unpackMigrationCtrl (ctrl w))) migPriming) as [Hm|]; [|done]. cbn [negb].
  destruct (default false _); [done|]. by intros [= <-].
Qed.

Lemma Cutover_draining w w' : Inv w -> Cutover w = (Ret tt, w') ->
  let c := unpackMigrationCtrl (ctrl w) in
  unpackMigrationCtrl (ctrl w') = mkCtrl (other (activeSlot c)) (activeSlot c) migDraining (epoch c).
Proof.
  intros HI H. apply Cutover_ret in H as (Hm & _ & _ & ->).
  pose proof HI as (Hs & _). apply (snap_ok_unpack _ _) in Hs. apply (unpack_now _ (hops w)).
  by apply ctl_ok_draining.
Qed.

Lemma Inv_step e w : Inv w -> Inv (step e w).
Proof. destruct (step_seen e w) as [Hn Hh]. unfold Inv. by rewrite Hn, Hh. Qed.

Lemma Inv_steps es w : Inv w -> Inv (steps es w).
Proof. destruct (steps_seen es w) as [Hn Hh]. unfold Inv. by rewrite Hn, Hh. Qed.

Lemma steps_hops es w : hops (steps es w) = hops w.
Proof. exact (f_equal snd (proj1 (steps_seen es w))). Qed.

(** Recording a packet while PRIMING. *)
Lemma touch_records w k t0 : mstate (unpackMigrationCtrl (ctrl w)) = migPriming ->
  recorded (step (Packet k t0 false) w) (epoch (unpackMigrationCtrl (ctrl w))) k t0.
Proof.
  intros Hm. unfold recorded. rewrite packet_affinity, Hm. unfold touch_flow_affinity. rewrite Hm. cbn [Z.eqb migSteady migPriming].
  change (migPriming =? migSteady) with false. cbv iota.
  destruct (affinity w !! k); cbn; rewrite ?Z.eqb_refl; cbn; apply lookup_insert_eq.
Qed.

(** ** The theorems *)

(** C12: A flow seen while PRIMING keeps its AFTR.  Whatever packets and
    collections run (in any order, with any map failures) between the packet that
    records it and the cutover, and after the cutover, as long as no collection
    of the drain finds it idle for longer than its timeout, its packets are
    encapsulated with the endpoint pair that was active before the migration. *)
Theorem flow_stays_pinned w k t0 es1 w3 es2 w4 now full :
  Inv w -> mstate (unpackMigrationCtrl (ctrl w)) = migPriming ->
  Cutover (steps es1 (step (Packet k t0 false) w)) = (Ret tt, w3) ->
  0 <= last_packet k t0 es1 < 2 ^ 63 -> active k (last_packet k t0 es1) es2 ->
  steps es2 w3 = w4 ->
  hop (hops w4) (picked (ctrl w4) k now full (affinity w4))
  = hop (hops w) (activeSlot (unpackMigrationCtrl (ctrl w))).
Proof.
  intros HI Hm Hcut Hlast Hact <-. set (c := unpackMigrationCtrl (ctrl w)) in *.
  change (steps es1 (step (Packet k t0 false) w)) with (steps (Packet k t0 false :: es1) w) in Hcut.
  assert (Inv (steps (Packet k t0 false :: es1) w)) as HI2 by by apply Inv_steps.
  pose proof (Cutover_draining _ _ HI2 Hcut) as Hc3. pose proof (Cutover_ret _ _ Hcut) as (_ & Hh & Ha & _).
  rewrite steps_ctrl in Hc3. cbn zeta in Hc3. fold c in Hc3.
  assert (recorded w3 (epoch c) k (last_packet k t0 es1)) as Hr.
  { unfold recorded. rewrite Ha. apply (recorded_steps es1 (step (Packet k t0 false) w)).
    - by apply touch_records.
    - by rewrite step_ctrl.
    - left. by rewrite step_ctrl. }
  assert (recorded (steps es2 w3) (epoch c) k (last_packet k (last_packet k t0 es1) es2)) as Hr4.
  { apply recorded_steps; rewrite ?Hc3; [done..|]. by right. }
  erewrite picked_recorded; [|done|by rewrite steps_ctrl, Hc3|by rewrite steps_ctrl, Hc3].
  by rewrite steps_ctrl, Hc3, steps_hops, Hh, steps_hops.
Qed.

(** A flow the preparation did not record goes to the new AFTR from its first
    packet after the cutover on, and nothing that happens during the drain pins
    it to the old one. *)
Lemma new_flow_moves w k w3 es w4 now full :
  Inv w -> Cutover w = (Ret tt, w3) ->
  (forall fa, affinity w !! k = Some fa -> Epoch fa <> epoch (unpackMigrationCtrl (ctrl w))) ->
  steps es w3 = w4 ->
  hop (hops w4) (picked (ctrl w4) k now full (affinity w4))
  = hop (hops w) (other (activeSlot (unpackMigrationCtrl (ctrl w)))).
Proof.
  intros HI Hcut Habs <-. pose proof (Cutover_draining _ _ HI Hcut) as Hc3.
  pose proof (Cutover_ret _ _ Hcut) as (_ & Hh & Ha & _). cbn zeta in Hc3.
  assert (absent (steps es w3) (epoch (unpackMigrationCtrl (ctrl w))) k) as Habs4.
  { apply absent_steps; rewrite ?Hc3; [|done..]. unfold absent. by rewrite Ha. }
  rewrite picked_absent; rewrite ?steps_ctrl, ?Hc3; [|done..]. by rewrite steps_hops, Hh.
Qed.

(** GCFlowAffinity removes entries only: it keeps every entry of the current
    generation while PRIMING and every one that is not idle beyond its timeout
    afterwards; when no map operation fails it returns, leaves exactly the
    entries that are neither stale nor idle, and reports how many there are. *)
Lemma GCFlowAffinity_spec t now w r w' :
  GCFlowAffinity t (Some now) w = (r, w') ->
  (forall k, affinity w' !! k = None \/ affinity w' !! k = affinity w !! k) /\
  (forall k fa, affinity w !! k = Some fa -> Epoch fa = epoch (unpackMigrationCtrl (ctrl w)) ->
     mstate (unpackMigrationCtrl (ctrl w)) = migPriming \/
     (0 <= now < 2 ^ 63 /\ 0 <= LastSeenNs fa < 2 ^ 63 /\ now - LastSeenNs fa <= idle_of t k) ->
     affinity w' !! k = Some fa) /\
  (calm w -> exists n, r = Ret n /\ n = Z.of_nat (size (affinity w')) /\
     affinity w' = filter (fun kv => gc_stale (unpackMigrationCtrl (ctrl w)) t now kv.1 kv.2 = false) (affinity w)).
Proof.
  intros H. pose proof (wp_GC t now w) as Hw. unfold wp in Hw. pose proof H as H'. rewrite H in Hw. cbn [fst snd] in Hw.
  destruct Hw as (H1 & H2 & H3 & H4). split; [done|]. split.
  - intros k [last e] Hk He Hm. cbn [Epoch LastSeenNs] in *.
    pose proof (recorded_collect t now w e k last Hk (eq_sym He) Hm) as Hr.
    unfold recorded in Hr. cbn [step] in Hr. by rewrite H' in Hr.
  - intros Hc. destruct (H1 Hc) as (_ & n & ->). exists n. split; [done|].
    destruct (H4 n eq_refl Hc). done.
Qed.

(** C13: The drain's completion signal is right: when a collection of a DRAINING
    datapath, no map operation failing, reports that no flow is left, every packet
    from then on is encapsulated with the new AFTR, so retiring the old slot moves
    nobody. *)
Theorem drain_complete t now w w' es w4 k now' full :
  GCFlowAffinity t (Some now) w = (Ret 0, w') -> calm w ->
  mstate (unpackMigrationCtrl (ctrl w)) = migDraining -> steps es w' = w4 ->
  picked (ctrl w4) k now' full (affinity w4) = activeSlot (unpackMigrationCtrl (ctrl w)).
Proof.
  intros H Hc Hm <-. pose proof (wp_GC t now w) as Hw. unfold wp in Hw. rewrite H in Hw. cbn [fst snd] in Hw.
  destruct Hw as (_ & _ & _ & H4). destruct (H4 0 eq_refl Hc) as [_ Hz].
  assert (affinity w' = ∅) as He by (apply map_size_empty_inv; cbn in Hz; lia).
  assert (ctrl w' = ctrl w) as Hctrl.
  { pose proof (step_ctrl (Collect t (Some now)) w) as Hs. cbn [step] in Hs. by rewrite H in Hs. }
  rewrite picked_absent; rewrite ?steps_ctrl, ?Hctrl; [done| |done].
  apply absent_steps; rewrite ?Hctrl, ?Hm; [|done..]. unfold absent. rewrite He. intros fa.
  by rewrite lookup_empty.
Qed.

(** ** At concrete inputs: a download that goes on through the drain, a flow that
    starts in it *)

Definition k_1 : FlowKey := mkFlowKey 0xc0a80102 0x08080808 1000 443 6.
Definition k_2 : FlowKey := mkFlowKey 0xc0a80103 0x08080808 1001 53 17.
Definition idle_1 : FlowIdleTimeouts := mkIdle 1000 500.
Definition es_1 : list event := [Collect idle_1 (Some 90000); Packet k_1 2000 true].
Definition es_2 : list event :=
  [Collect idle_1 (Some 3000); Packet k_1 3500 false; Packet k_2 3600 false; Collect idle_1 (Some 4500)].
Definition w_rec : world := steps es_1 (step (Packet k_1 1000 false) w_2).
Definition w_3 : world := (Cutover w_rec).2.

Lemma w_3_eq : Cutover w_rec = (Ret tt, w_3).
Proof. vm_compute. reflexivity. Qed.

Lemma w_2_priming : mstate (unpackMigrationCtrl (ctrl w_2)) = migPriming.
Proof. vm_compute. reflexivity. Qed.

Lemma flow_stays_pinned_witness :
  hop (hops (steps es_2 w_3)) (picked (ctrl (steps es_2 w_3)) k_1 4600 false (affinity (steps es_2 w_3)))
  = hop (hops w_2) (activeSlot (unpackMigrationCtrl (ctrl w_2))).
Proof.
  apply (flow_stays_pinned w_2 k_1 1000 es_1 w_3 es_2 (steps es_2 w_3) 4600 false w_2_Inv w_2_priming w_3_eq).
  - split; [discriminate|reflexivity].
  - vm_compute. repeat split; discriminate.
  - reflexivity.
Defined.

Lemma w_rec_Inv : Inv w_rec.
Proof. exact (Inv_steps es_1 _ (Inv_step (Packet k_1 1000 false) w_2 w_2_Inv)). Qed.

Lemma k_2_absent fa : affinity w_rec !! k_2 = Some fa -> Epoch fa <> epoch (unpackMigrationCtrl (ctrl w_rec)).
Proof. vm_compute. discriminate. Qed.

Lemma new_flow_moves_witness :
  hop (hops (steps es_2 w_3)) (picked (ctrl (steps es_2 w_3)) k_2 4600 false (affinity (steps es_2 w_3)))
  = hop (hops w_rec) (other (activeSlot (unpackMigrationCtrl (ctrl w_rec)))).
Proof. apply (new_flow_moves w_rec k_2 w_3 es_2 _ 4600 false w_rec_Inv w_3_eq k_2_absent). reflexivity. Defined.

Definition w_4 : world := (GCFlowAffinity idle_1 (Some 9000) (steps es_2 w_3)).2.

Lemma w_4_eq : GCFlowAffinity idle_1 (Some 9000) (steps es_2 w_3) = (Ret 0, w_4).
Proof. vm_compute. reflexivity. Qed.

Lemma w_3_calm : calm (steps es_2 w_3).
Proof. vm_compute. reflexivity. Qed.

Lemma w_3_draining : mstate (unpackMigrationCtrl (ctrl (steps es_2 w_3))) = migDraining.
Proof. vm_compute. reflexivity. Qed.

Lemma GCFlowAffinity_spec_witness :
  exists n, Ret 0 = Ret n /\ n = Z.of_nat (size (affinity w_4)) /\
    affinity w_4 = filter (fun kv => gc_stale (unpackMigrationCtrl (ctrl (steps es_2 w_3))) idle_1 9000 kv.1 kv.2 = false)
                     (affinity (steps es_2 w_3)).
Proof.
  exact (proj2 (proj2 (GCFlowAffinity_spec idle_1 9000 (steps es_2 w_3) (Ret 0) w_4 w_4_eq)) w_3_calm).
Defined.

Lemma drain_complete_witness :
  picked (ctrl (steps [Packet k_1 9001 false] w_4)) k_1 9002 false (affinity (steps [Packet k_1 9001 false] w_4))
  = activeSlot (unpackMigrationCtrl (ctrl (steps es_2 w_3))).
Proof.
  apply (drain_complete idle_1 9000 (steps es_2 w_3) w_4 [Packet k_1 9001 false] _ k_1 9002 false
           w_4_eq w_3_calm w_3_draining).
  reflexivity.
Defined.
