(* ===== verification/Tcpmss.v ===== *)
(** The TCP MSS clamp of the packet programs (clamp_tcp_mss of
    src/bpf/datapath_helpers.h): the walk over the options of a SYN, the rewrite
    of the MSS and of the checksum that covers it.

    The walk is compared with [find_mss], which reads the option area as the list
    of options it is.  The incremental checksum update is right when the MSS
    value starts on an even offset of the segment and wrong otherwise; the
    theorem says exactly when the segment still verifies. *)

From S2P Require Import Prelude Wire Checksum Packet Datapath.

Local Open Scope Z_scope.

Definition TCP_OPT_EOL : Z := 0.
Definition TCP_OPT_NOP : Z := 1.
Definition TCP_OPT_MSS : Z := 2.
Definition TCP_OPT_MSS_LEN : Z := 4.
Definition MAX_TCP_OPTIONS : nat := 10.

Section Clamp.
Context `{Host}.

(** One turn of the walk per unit of [n]; [th]: where the TCP header starts. *)
Fixpoint clamp_loop (n : nat) (p : bytes) (th doff off clamp : Z) : bool * bytes :=
  match n with
  | O => (false, p)
  | S n' =>
    if doff <=? off then (false, p)
    else
      let opt := th + off in
      if zlen p <? opt + 1 then (false, p)
      else
        let kind := at8 p opt in
        if kind =? TCP_OPT_EOL then (false, p)
        else if kind =? TCP_OPT_NOP then clamp_loop n' p th doff (off + 1) clamp
        else if (doff <? off + 2) || (zlen p <? opt + 2) then (false, p)
        else
          let optlen := at8 p (opt + 1) in
          if (optlen <? 2) || (doff <? off + optlen) then (false, p)
          else if (kind =? TCP_OPT_MSS) && (optlen =? TCP_OPT_MSS_LEN) then
            if zlen p <? opt + TCP_OPT_MSS_LEN then (false, p)
            else if ld16 p (opt + 2) <=? clamp then (false, p)
            else
              let clamped := bpf_htons clamp in
              (true, st16 (csum_replace16 p (th + 16) (raw16 p (opt + 2)) clamped) (opt + 2) clamped)
          else clamp_loop n' p th doff (off + optlen) clamp
  end.

(** [o]: where the IPv4 header starts. *)
Definition clamp_tcp_mss (p : bytes) (o clamp : Z) : bool * bytes :=
  if negb (at8 p (o + 9) =? IPPROTO_TCP) || negb (Z.land (at8 p o) 0xf =? 5) then (false, p)
  else if negb (Z.land (ld16 p (o + 6)) 0x1fff =? 0) then (false, p)
  else
    let th := o + 20 in
    if zlen p <? th + 20 then (false, p)
    else if negb (Z.testbit (at8 p (th + 13)) 1) || Z.testbit (at8 p (th + 13)) 2 then (false, p)
    else
      let doff := Z.shiftr (at8 p (th + 12)) 4 * 4 in
      if (doff <=? 20) || (60 <? doff) then (false, p)
      else clamp_loop MAX_TCP_OPTIONS p th doff 20 clamp.

(** ** The reference *)

(** Where the first MSS option starts among the first [n] options of an option
    area; an end-of-list or a malformed option ends the list. *)
Fixpoint find_mss (n : nat) (opts : bytes) : option Z :=
  match n, opts with
  | O, _ | _, [] => None
  | S n', kind :: rest =>
    if kind =? 0 then None
    else if kind =? 1 then (fun i => 1 + i) <$> find_mss n' rest
    else match rest with
         | [] => None
         | len :: _ =>
           if (len <? 2) || (zlen opts <? len) then None
           else if (kind =? 2) && (len =? 4) then Some 0
           else (fun i => len + i) <$> find_mss n' (drop (Z.to_nat len) opts)
         end
  end.

(** The first fragment of a TCP segment that opens a connection, its header
    whole; [Some i]: its MSS option is at offset [i] of the TCP header. *)
Definition mss_option (p : bytes) (o : Z) : option Z :=
  let th := o + 20 in
  let doff := Z.shiftr (at8 p (th + 12)) 4 * 4 in
  if (at8 p (o + 9) =? 6) && (Z.land (at8 p o) 0xf =? 5) && (Z.land (ld16 p (o + 6)) 0x1fff =? 0) &&
     (th + 20 <=? zlen p) && Z.testbit (at8 p (th + 13)) 1 && negb (Z.testbit (at8 p (th + 13)) 2) &&
     (20 <? doff) && (doff <=? 60)
  then (fun i => 20 + i) <$> find_mss 10 (sub p (th + 20) (doff - 20))
  else None.

(** ** The walk finds what the reference finds *)

(** What the program does once the option is known. *)
Definition rewritten (p : bytes) (th i clamp : Z) : bool * bytes :=
  if ld16 p (th + i + 2) <=? clamp then (false, p)
  else (true, st16 (csum_replace16 p (th + 16) (raw16 p (th + i + 2)) (bpf_htons clamp)) (th + i + 2) (bpf_htons clamp)).

Lemma sub_cons p i n : 0 <= i -> 0 < n -> i + n <= zlen p -> sub p i n = at8 p i :: sub p (i + 1) (n - 1).
Proof.
  intros. replace n with (1 + (n - 1)) at 1 by lia. rewrite sub_split by lia.
  assert (sub p i 1 = [at8 p i]) as ->; [|done].
  unfold sub, at8. change (Z.to_nat 1) with 1%nat.
  destruct (p !! Z.to_nat i) as [x|] eqn:E; [|apply lookup_ge_None in E; unfold zlen in *; lia].
  by rewrite (drop_S _ _ _ E).
Qed.

Lemma clamp_loop_finds n p th doff off clamp : is_bytes p -> 0 <= th -> 0 <= off <= doff -> th + doff <= zlen p ->
  clamp_loop n p th doff off clamp =
  match find_mss n (sub p (th + off) (doff - off)) with
  | Some i => rewritten p th (off + i) clamp
  | None => (false, p)
  end.
Proof.
  intros Hp Ht Ho Hl. revert off Ho. induction n as [|n IH]; intros off Ho; [done|]. cbn [clamp_loop].
  destruct (Z.leb_spec doff off).
  { assert (doff - off = 0) as -> by lia. done. }
  rewrite sub_cons by lia. cbn [find_mss]. rewrite (proj2 (Z.ltb_ge (zlen p) _)) by lia.
  unfold TCP_OPT_EOL, TCP_OPT_NOP, TCP_OPT_MSS, TCP_OPT_MSS_LEN. set (kind := at8 p (th + off)).
  destruct (kind =? 0); [done|]. destruct (kind =? 1).
  { replace (th + off + 1) with (th + (off + 1)) by lia. replace (doff - off - 1) with (doff - (off + 1)) by lia.
    rewrite IH by lia. destruct (find_mss _ _) as [i|]; [|done]. cbn. by replace (off + 1 + i) with (off + (1 + i)) by lia. }
  destruct (Z.ltb_spec doff (off + 2)) as [Hd|Hd].
  { assert (doff - off - 1 = 0) as -> by lia. done. }
  rewrite (proj2 (Z.ltb_ge (zlen p) _)), (sub_cons p (th + off + 1)) by lia. cbn [orb].
  rewrite <- (sub_cons p (th + off + 1)), <- (sub_cons p (th + off)), zlen_sub by lia.
  set (len := at8 p (th + off + 1)).
  destruct (Z.ltb_spec len 2); [done|]. cbn [orb].
  destruct (Z.ltb_spec doff (off + len)), (Z.ltb_spec (doff - off) len); try lia; [done|].
  destruct ((kind =? 2) && (len =? 4)) eqn:Em.
  { rewrite (proj2 (Z.ltb_ge (zlen p) _)) by lia. unfold rewritten. by rewrite Z.add_0_r. }
  rewrite IH by lia.
  assert (drop (Z.to_nat len) (sub p (th + off) (doff - off)) = sub p (th + (off + len)) (doff - (off + len))) as ->.
  { replace (doff - off) with (len + (doff - (off + len))) by lia. rewrite sub_split by lia.
    rewrite drop_app_length'; [by rewrite Z.add_assoc|].
    pose proof (zlen_sub p (th + off) len ltac:(lia) ltac:(lia) ltac:(lia)) as E. unfold zlen in E. lia. }
  destruct (find_mss _ _) as [i|]; [|done]. cbn. by rewrite Z.add_assoc.
Qed.

Lemma find_mss_bound n opts i : is_bytes opts -> find_mss n opts = Some i -> 0 <= i /\ i + 4 <= zlen opts.
Proof.
  revert opts i. induction n as [|n IH]; intros opts i Hb E; [done|]. cbn [find_mss] in E.
  destruct opts as [|kind rest]; [done|]. destruct (kind =? 0); [done|].
  inversion Hb as [|? ? _ Hr]; subst. destruct (kind =? 1).
  { apply fmap_Some in E as (j & E & ->). apply IH in E as [? ?]; [|done]. rewrite zlen_cons. lia. }
  destruct rest as [|len rest]; [done|]. destruct (Z.ltb_spec len 2); [done|]. cbn [orb] in E.
  set (opts := kind :: len :: rest) in *. destruct (Z.ltb_spec (zlen opts) len); [done|].
  destruct (_ && (len =? 4)) eqn:Em.
  { apply andb_true_iff in Em as [_ Em%Z.eqb_eq]. simplify_eq. lia. }
  apply fmap_Some in E as (j & E & ->). apply IH in E as [? ?]; [|by apply is_bytes_drop].
  rewrite zlen_drop in *. lia.
Qed.

(** The whole function against the reference. *)
Lemma clamp_tcp_mss_finds p o clamp : is_bytes p -> 0 <= o ->
  o + 20 + Z.shiftr (at8 p (o + 32)) 4 * 4 <= zlen p ->
  clamp_tcp_mss p o clamp =
  match mss_option p o with Some i => rewritten p (o + 20) i clamp | None => (false, p) end.
Proof.
  intros Hp Ho Hl. unfold clamp_tcp_mss, mss_option, IPPROTO_TCP, MAX_TCP_OPTIONS.
  replace (o + 20 + 12) with (o + 32) by lia. set (doff := Z.shiftr (at8 p (o + 32)) 4 * 4) in *.
  destruct (at8 p (o + 9) =? 6), (Z.land (at8 p o) 0xf =? 5); cbn [negb orb andb]; try done.
  destruct (Z.land (ld16 p (o + 6)) 0x1fff =? 0); cbn [negb andb]; [|done].
  destruct (Z.ltb_spec (zlen p) (o + 20 + 20)), (Z.leb_spec (o + 20 + 20) (zlen p)); try lia; cbn [andb]; [done|].
  destruct (Z.testbit _ 1), (Z.testbit _ 2); cbn [negb orb andb]; try done.
  destruct (Z.leb_spec doff 20), (Z.ltb_spec 20 doff); try lia; cbn [orb andb]; [done|].
  destruct (Z.ltb_spec 60 doff), (Z.leb_spec doff 60); try lia; [done|].
  rewrite clamp_loop_finds by (done || lia). destruct (find_mss _ _); done.
Qed.

(** ** What the rewrite does to the bytes and to the checksum *)

(** The segment of [n] bytes at [th] verifies under the pseudo-header [ph]. *)
Definition tcp_ok (ph p : bytes) (th n : Z) : Prop := checksum (ph ++ sub p th n) = 0.

Lemma tcp_ok_iff ph p th n : is_bytes ph -> is_bytes p -> Z.even (zlen ph) = true -> 0 < wsum ph ->
  0 <= th -> 0 <= n -> th + n <= zlen p -> zlen ph + n <= 131000 ->
  tcp_ok ph p th n <-> wsum ph + wsum (sub p th n) ≡c 0.
Proof.
  intros Hh Hp He Hpos Ht Hn Hl Hz. unfold tcp_ok.
  assert (is_bytes (ph ++ sub p th n)) as Hb by (apply is_bytes_app; auto with packet).
  pose proof (wsum_bound _ Hb) as Hw. rewrite zlen_app, zlen_sub in Hw by lia.
  pose proof (wsum_nonneg (sub p th n) ltac:(auto with packet)).
  rewrite checksum_zero by (done || lia). rewrite wsum_app in * by done. split; [tauto|]. intros. split; [lia|done].
Qed.

Lemma eqc_255 d : 255 * d ≡c 0 <-> (257 | d).
Proof.
  unfold eqc. change (0 mod 65535) with 0. rewrite Z.mod_divide by done. split; intros [q Hq]; exists q; lia.
Qed.

Lemma rewritten_sum p th i clamp n : is_bytes p -> 0 <= th -> 20 <= i -> i + 4 <= n -> th + n <= zlen p ->
  0 <= clamp < 2 ^ 16 -> clamp < ld16 p (th + i + 2) ->
  let r := rewritten p th i clamp in
  r.1 = true /\ zlen r.2 = zlen p /\ is_bytes r.2 /\ ld16 r.2 (th + i + 2) = clamp /\
  (forall j, 0 <= j -> j <> th + 16 -> j <> th + 17 -> j <> th + i + 2 -> j <> th + i + 3 -> at8 r.2 j = at8 p j) /\
  wsum (sub r.2 th n) ≡c
    wsum (sub p th n) + (if Z.even i then 0 else 255) * (clamp - ld16 p (th + i + 2)).
Proof.
  intros Hp Ht Hi Hn Hl Hc Hlt. unfold rewritten. rewrite (proj2 (Z.leb_gt _ _)) by done. cbn [fst snd].
  destruct (csum_replace16_eqc p (th + 16) (raw16 p (th + i + 2)) (bpf_htons clamp)) as (v & Hv & -> & Ev);
    [done|lia|lia|by apply raw16_range|by apply bpf_htons_range|].
  set (q := st16 p (th + 16) v). assert (zlen q = zlen p) as Hq by (apply st16_length; lia).
  assert (is_bytes q) as Hqb by by apply is_bytes_st16.
  split; [done|]. split; [rewrite st16_length; lia|]. split; [by apply is_bytes_st16|]. split; [|split].
  - rewrite st16_htons by done. unfold ld16. rewrite sub_put_same by (rewrite ?zlen_be; lia).
    by rewrite unbe_be_id.
  - intros j Hj H1 H2 H3 H4. rewrite at8_st16 by lia. unfold q. by rewrite at8_st16 by lia.
  - replace (th + i + 2) with (th + (i + 2)) in * by lia.
    rewrite st16_in by lia. unfold q at 1. rewrite st16_in by lia. fold q.
    pose proof (is_bytes_sub p th n Hp) as Hs.
    assert (zlen (sub p th n) = n) as Hsl by (apply zlen_sub; lia).
    assert (ld16 (st16 (sub p th n) 16 v) (i + 2) = ld16 p (th + (i + 2))) as El.
    { rewrite <- (ld16_sub p th n) by lia. unfold ld16, st16.
      by rewrite sub_put_ne by (destruct little_endian; change (zlen [_; _]) with 2; lia). }
    rewrite wsum_st16, El, wsum_st16, Ev, ld16_sub by
      first [done|by apply bpf_htons_range|by apply is_bytes_st16|rewrite ?st16_length; lia].
    rewrite <- (ld16_raw p (th + (i + 2))), (bpf_htons_eqc clamp), !Z.mul_assoc, order_order by first [done|lia].
    change (weight (16 + 1)) with 1. replace (i + 2 + 1) with (i + 1 + 2 * 1) by lia.
    unfold weight. rewrite Z.even_add_mul_2, Z.even_add. destruct (Z.even i); apply (eqc_shift _ _ 0); cbn [Bool.eqb Z.even]; lia.
Qed.

(** C16: The clamp lowers exactly the MSS options that are above it: it rewrites
    the first MSS option of a SYN's header when its value exceeds the clamp,
    changing that value and the checksum and no other byte, and leaves the
    packet alone otherwise.  On hosts of either byte order a segment that
    verified still verifies when the option starts on an even offset of the
    header, and on an odd one only when the difference is a multiple of 257. *)
Theorem clamp_tcp_mss_spec p o clamp : is_bytes p -> 0 <= o -> 0 <= clamp < 2 ^ 16 ->
  o + 20 + Z.shiftr (at8 p (o + 32)) 4 * 4 <= zlen p ->
  let th := o + 20 in
  let '(changed, p') := clamp_tcp_mss p o clamp in
  match mss_option p o with
  | Some i =>
    let mss := ld16 p (th + i + 2) in
    changed = (clamp <? mss) /\ (changed = false -> p' = p) /\
    (changed = true ->
       zlen p' = zlen p /\ ld16 p' (th + i + 2) = clamp /\
       (forall j, 0 <= j -> j <> th + 16 -> j <> th + 17 -> j <> th + i + 2 -> j <> th + i + 3 -> at8 p' j = at8 p j) /\
       (forall ph n, is_bytes ph -> Z.even (zlen ph) = true -> 0 < wsum ph -> zlen ph + n <= 131000 ->
          i + 4 <= n -> th + n <= zlen p -> tcp_ok ph p th n ->
          (tcp_ok ph p' th n <-> Z.even i = true \/ (257 | mss - clamp))))
  | None => changed = false /\ p' = p
  end.
Proof.
  intros Hp Ho Hc Hl th. rewrite clamp_tcp_mss_finds by done. fold th in Hl |- *.
  destruct (mss_option p o) as [i|] eqn:Em; [|done].
  assert (20 <= i /\ th + i + 4 <= zlen p) as [Hi Hil].
  { unfold mss_option in Em. fold th in Em. destruct (_ && _) eqn:Eg; [|done].
    apply fmap_Some in Em as (j & Em & ->). apply find_mss_bound in Em as [? Hb]; [|auto with packet].
    rewrite !andb_true_iff, Z.ltb_lt in Eg. replace (th + 12) with (o + 32) in * by lia.
    rewrite zlen_sub in Hb; lia. }
  cbv zeta. set (mss := ld16 p (th + i + 2)). destruct (Z.leb_spec mss clamp) as [Hle|Hlt].
  { unfold rewritten. fold mss. rewrite (proj2 (Z.leb_le _ _) Hle), (proj2 (Z.ltb_ge _ _) Hle). done. }
  pose proof (fun n Hn Hln => rewritten_sum p th i clamp n Hp ltac:(lia) Hi Hn Hln Hc Hlt) as Hr. cbn zeta in Hr.
  destruct (rewritten p th i clamp) as [changed p'] eqn:Er. cbn [fst snd] in Hr.
  destruct (Hr (i + 4) ltac:(lia) ltac:(lia)) as (-> & Hz & Hb & Hm & Hj & _).
  rewrite (proj2 (Z.ltb_lt _ _) Hlt). split; [done|split; [done|intros _]]. split; [done|split; [done|split; [done|]]].
  intros ph n Hph He Hpos Hz' Hn Hln Hok. destruct (Hr n Hn Hln) as (_ & _ & _ & _ & _ & Hs).
  apply tcp_ok_iff in Hok; [|done||lia..]. rewrite tcp_ok_iff by (done || lia).
  rewrite Hs, Z.add_assoc, Hok, Z.add_0_l. destruct (Z.even i); [split; [by left|done]|].
  rewrite eqc_255. replace (clamp - ld16 p (th + i + 2)) with (- (mss - clamp)) by (unfold mss; lia).
  rewrite Z.divide_opp_r. split; [by right|by intros [|]].
Qed.

End Clamp.

(** ** At concrete inputs *)

(** 192.168.1.2 to 8.8.8.8, a TCP segment of 28 bytes. *)
Definition pseudo_1 : bytes := [192; 168; 1; 2; 8; 8; 8; 8; 0; 6; 0; 28].

(** A SYN with the given eight bytes of options, on Ethernet. *)
Definition syn_segment (check : Z) (opts : bytes) : bytes :=
  [3; 232; 1; 187; 0; 0; 0; 1; 0; 0; 0; 0; 112; 2; 255; 255] ++ be 2 check ++ [0; 0] ++ opts.
Definition syn_1 (opts : bytes) : bytes :=
  [2; 0; 0; 0; 0; 2; 2; 0; 0; 0; 0; 1; 8; 0] ++
  [69; 0; 0; 48; 0; 1; 0; 0; 64; 6; 169; 24; 192; 168; 1; 2; 8; 8; 8; 8] ++
  syn_segment (checksum (pseudo_1 ++ syn_segment 0 opts)) opts.

(** MSS 1460 first, and after a NOP. *)
Definition syn_even : bytes := syn_1 [2; 4; 5; 180; 0; 0; 0; 0].
Definition syn_odd : bytes := syn_1 [1; 2; 4; 5; 180; 0; 0; 0].

#[local] Instance little : Host := true.

Lemma syn_odd_clamped : clamp_tcp_mss syn_odd 14 1420 = (true, (clamp_tcp_mss syn_odd 14 1420).2) /\
  mss_option syn_odd 14 = Some 21 /\ ld16 syn_odd 57 = 1460.
Proof. by vm_compute. Qed.

(** A SYN the clamp breaks: it verified, and no longer does. *)
Lemma clamp_tcp_mss_spec_witness : tcp_ok pseudo_1 syn_odd 34 28 /\
  (tcp_ok pseudo_1 (clamp_tcp_mss syn_odd 14 1420).2 34 28 <-> Z.even 21 = true \/ (257 | 1460 - 1420)).
Proof.
  assert (tcp_ok pseudo_1 syn_odd 34 28) as Hok by (vm_compute; reflexivity). split; [exact Hok|].
  assert (is_bytes syn_odd) as Hb by (apply (bool_decide_unpack _); vm_compute; exact I).
  pose proof (clamp_tcp_mss_spec syn_odd 14 1420 Hb ltac:(lia) ltac:(lia) ltac:(vm_compute; discriminate)) as H.
  cbv zeta in H. destruct syn_odd_clamped as (Ec & Em & El). rewrite Ec, Em in H.
  change (14 + 20 + 21 + 2) with 57 in H. rewrite El in H.
  destruct H as (_ & _ & H). destruct (H eq_refl) as (_ & _ & _ & H').
  apply (H' pseudo_1 28); [apply (bool_decide_unpack _); vm_compute; exact I|reflexivity|vm_compute; reflexivity|
    vm_compute; discriminate|vm_compute; discriminate|vm_compute; discriminate|exact Hok].
Defined.
