(* ===== verification/Stats.v ===== *)
(** The datapath's counters: src/pkg/datapath/stats.go, the Stats struct of
    types.go and the text printed by `minuteman stats` (src/cmd/minuteman/stats.go,
    printStats). *)

From S2P Require Import Prelude.

Local Open Scope Z_scope.

(** ** The counters *)

(** In the order of the eBPF program's enum stat_id. *)
Inductive statID : Type :=
  | statPass | statDrop | statAbort | statEncap | statDecap | statMTUDrop | statNoConfig
  | statNoLANConfig | statBypass | statFIBSuccess | statFIBNoNeigh | statFIBFail
  | statFIBWrongIf | statDecapPass | statDecapNotDSLite | statDecapBadPacket
  | statDecapSlow | statRedirectWAN | statRedirectLAN | statICMPFragNeeded | statIPv6Fwd
  | statIPv6Pass | statIPv6RSSRedirect | statICMPRateLimited | statAffinityInsert
  | statAffinityInsertFail | statAffinityPinned | statEncapFragSlow | statDecapFragSlow
  | statDecapReasmPass | statDecapMartian | statEncapFragXDP | statEncapFragSeg
  | statICMPTimeExceeded | statTunnelICMPRelay | statTunnelICMPPass | statTunnelICMPDrop
  | statTunnelPMTU | statMSSClamped.

#[export] Instance statID_eq_dec : EqDecision statID.
Proof. solve_decision. Defined.

Definition statIDs : list statID :=
  [statPass; statDrop; statAbort; statEncap; statDecap; statMTUDrop; statNoConfig;
   statNoLANConfig; statBypass; statFIBSuccess; statFIBNoNeigh; statFIBFail;
   statFIBWrongIf; statDecapPass; statDecapNotDSLite; statDecapBadPacket; statDecapSlow;
   statRedirectWAN; statRedirectLAN; statICMPFragNeeded; statIPv6Fwd; statIPv6Pass;
   statIPv6RSSRedirect; statICMPRateLimited; statAffinityInsert; statAffinityInsertFail;
   statAffinityPinned; statEncapFragSlow; statDecapFragSlow; statDecapReasmPass;
   statDecapMartian; statEncapFragXDP; statEncapFragSeg; statICMPTimeExceeded;
   statTunnelICMPRelay; statTunnelICMPPass; statTunnelICMPDrop; statTunnelPMTU;
   statMSSClamped].

Definition statMax : Z := zlen statIDs.

(** iota: a counter's number is its place in the enumeration. *)
Definition statID_number (s : statID) : Z :=
  match list_find (fun x => x = s) statIDs with Some (i, _) => Z.of_nat i | None => statMax end.

Record Stats : Type := mkStats {
  Pass : Z; Drop : Z; Abort : Z; Encap : Z; Decap : Z; MTUDrop : Z; NoConfig : Z;
  NoLANConfig : Z; Bypass : Z; FIBSuccess : Z; FIBNoNeigh : Z; FIBFail : Z; FIBWrongIf : Z;
  DecapPass : Z; DecapNotDSLite : Z; DecapBadPacket : Z; DecapSlow : Z; RedirectWAN : Z;
  RedirectLAN : Z; ICMPFragNeeded : Z; IPv6Fwd : Z; IPv6Pass : Z; IPv6RSSRedirect : Z;
  ICMPRateLimited : Z; AffinityInsert : Z; AffinityInsertFail : Z; AffinityPinned : Z;
  EncapFragSlow : Z; DecapFragSlow : Z; DecapReasmPass : Z; DecapMartian : Z;
  EncapFragXDP : Z; EncapFragSeg : Z; ICMPTimeExceeded : Z; TunnelICMPRelay : Z;
  TunnelICMPPass : Z; TunnelICMPDrop : Z; TunnelPMTU : Z; MSSClamped : Z }.

(** ** Reading them *)

(** [*dst += v] over the CPUs, in 64 bits. *)
Definition sumCPUs (perCPU : list Z) : Z := fold_left (fun acc v => u64 (acc + v)) perCPU 0.

(** [lookup]: the map's value for a key, one number per CPU. *)
Definition sumStats (lookup : Z -> outcome (list Z)) : outcome Stats :=
  sums ← mapM (fun id => perCPU ← lookup id; Ret (sumCPUs perCPU)) (seqZ 0 statMax);
  let total (s : statID) := default 0 (sums !! Z.to_nat (statID_number s)) in
  Ret (mkStats
    (total statPass) (total statDrop) (total statAbort) (total statEncap) (total statDecap)
    (total statMTUDrop) (total statNoConfig) (total statNoLANConfig) (total statBypass)
    (total statFIBSuccess) (total statFIBNoNeigh) (total statFIBFail) (total statFIBWrongIf)
    (total statDecapPass) (total statDecapNotDSLite) (total statDecapBadPacket) (total statDecapSlow)
    (total statRedirectWAN) (total statRedirectLAN) (total statICMPFragNeeded) (total statIPv6Fwd)
    (total statIPv6Pass) (total statIPv6RSSRedirect) (total statICMPRateLimited)
    (total statAffinityInsert) (total statAffinityInsertFail) (total statAffinityPinned)
    (total statEncapFragSlow) (total statDecapFragSlow) (total statDecapReasmPass)
    (total statDecapMartian) (total statEncapFragXDP) (total statEncapFragSeg)
    (total statICMPTimeExceeded) (total statTunnelICMPRelay) (total statTunnelICMPPass)
    (total statTunnelICMPDrop) (total statTunnelPMTU) (total statMSSClamped)).

(** The struct field of each counter. *)
Definition stat_field (s : statID) : Stats -> Z :=
  match s with
  | statPass => Pass
  | statDrop => Drop
  | statAbort => Abort
  | statEncap => Encap
  | statDecap => Decap
  | statMTUDrop => MTUDrop
  | statNoConfig => NoConfig
  | statNoLANConfig => NoLANConfig
  | statBypass => Bypass
  | statFIBSuccess => FIBSuccess
  | statFIBNoNeigh => FIBNoNeigh
  | statFIBFail => FIBFail
  | statFIBWrongIf => FIBWrongIf
  | statDecapPass => DecapPass
  | statDecapNotDSLite => DecapNotDSLite
  | statDecapBadPacket => DecapBadPacket
  | statDecapSlow => DecapSlow
  | statRedirectWAN => RedirectWAN
  | statRedirectLAN => RedirectLAN
  | statICMPFragNeeded => ICMPFragNeeded
  | statIPv6Fwd => IPv6Fwd
  | statIPv6Pass => IPv6Pass
  | statIPv6RSSRedirect => IPv6RSSRedirect
  | statICMPRateLimited => ICMPRateLimited
  | statAffinityInsert => AffinityInsert
  | statAffinityInsertFail => AffinityInsertFail
  | statAffinityPinned => AffinityPinned
  | statEncapFragSlow => EncapFragSlow
  | statDecapFragSlow => DecapFragSlow
  | statDecapReasmPass => DecapReasmPass
  | statDecapMartian => DecapMartian
  | statEncapFragXDP => EncapFragXDP
  | statEncapFragSeg => EncapFragSeg
  | statICMPTimeExceeded => ICMPTimeExceeded
  | statTunnelICMPRelay => TunnelICMPRelay
  | statTunnelICMPPass => TunnelICMPPass
  | statTunnelICMPDrop => TunnelICMPDrop
  | statTunnelPMTU => TunnelPMTU
  | statMSSClamped => MSSClamped
  end.

(** ** Printing them *)

Definition printed (stats : Stats) : list (string * Z) :=
  [("Pass", Pass stats); ("Drop", Drop stats); ("Abort", Abort stats);
   ("Encap", Encap stats); ("Decap", Decap stats); ("MTUDrop", MTUDrop stats);
   ("NoConfig", NoConfig stats); ("NoLANConfig", NoLANConfig stats);
   ("Bypass", Bypass stats); ("FIBSuccess", FIBSuccess stats);
   ("FIBNoNeigh", FIBNoNeigh stats); ("FIBFail", FIBFail stats);
   ("FIBWrongIf", FIBWrongIf stats); ("DecapPass", DecapPass stats);
   ("DecapNotDSLite", DecapNotDSLite stats); ("DecapBadPacket", DecapBadPacket stats);
   ("DecapSlow", DecapSlow stats); ("RedirectWAN", RedirectWAN stats);
   ("RedirectLAN", RedirectLAN stats); ("ICMPFragNeeded", ICMPFragNeeded stats);
   ("ICMPTimeExceeded", ICMPTimeExceeded stats); ("IPv6Fwd", IPv6Fwd stats);
   ("IPv6Pass", IPv6Pass stats); ("IPv6RSSRedirect", IPv6RSSRedirect stats);
   ("ICMPRateLimited", ICMPRateLimited stats); ("AffinityInsert", AffinityInsert stats);
   ("AffinityInsertFail", AffinityInsertFail stats);
   ("AffinityPinned", AffinityPinned stats); ("EncapFragSlow", EncapFragSlow stats);
   ("DecapFragSlow", DecapFragSlow stats); ("DecapReasmPass", DecapReasmPass stats);
   ("DecapMartian", DecapMartian stats); ("EncapFragXDP", EncapFragXDP stats);
   ("EncapFragSeg", EncapFragSeg stats); ("TunnelICMPRelay", TunnelICMPRelay stats);
   ("TunnelICMPPass", TunnelICMPPass stats); ("TunnelICMPDrop", TunnelICMPDrop stats);
   ("TunnelPMTU", TunnelPMTU stats); ("MSSClamped", MSSClamped stats)]%string.

(** The name of each field, in the struct's order. *)
Definition field_names : list (string * (Stats -> Z)) :=
  [("Pass", Pass); ("Drop", Drop); ("Abort", Abort); ("Encap", Encap); ("Decap", Decap);
   ("MTUDrop", MTUDrop); ("NoConfig", NoConfig); ("NoLANConfig", NoLANConfig);
   ("Bypass", Bypass); ("FIBSuccess", FIBSuccess); ("FIBNoNeigh", FIBNoNeigh);
   ("FIBFail", FIBFail); ("FIBWrongIf", FIBWrongIf); ("DecapPass", DecapPass);
   ("DecapNotDSLite", DecapNotDSLite); ("DecapBadPacket", DecapBadPacket);
   ("DecapSlow", DecapSlow); ("RedirectWAN", RedirectWAN); ("RedirectLAN", RedirectLAN);
   ("ICMPFragNeeded", ICMPFragNeeded); ("IPv6Fwd", IPv6Fwd); ("IPv6Pass", IPv6Pass);
   ("IPv6RSSRedirect", IPv6RSSRedirect); ("ICMPRateLimited", ICMPRateLimited);
   ("AffinityInsert", AffinityInsert); ("AffinityInsertFail", AffinityInsertFail);
   ("AffinityPinned", AffinityPinned); ("EncapFragSlow", EncapFragSlow);
   ("DecapFragSlow", DecapFragSlow); ("DecapReasmPass", DecapReasmPass);
   ("DecapMartian", DecapMartian); ("EncapFragXDP", EncapFragXDP);
   ("EncapFragSeg", EncapFragSeg); ("ICMPTimeExceeded", ICMPTimeExceeded);
   ("TunnelICMPRelay", TunnelICMPRelay); ("TunnelICMPPass", TunnelICMPPass);
   ("TunnelICMPDrop", TunnelICMPDrop); ("TunnelPMTU", TunnelPMTU);
   ("MSSClamped", MSSClamped)]%string.

(** ** What they mean *)

Lemma sumCPUs_acc l acc : fold_left (fun acc v => u64 (acc + v)) l (u64 acc) = u64 (acc + foldr Z.add 0 l).
Proof.
  revert acc. induction l as [|v l IH]; intros acc; cbn; [by rewrite Z.add_0_r|].
  rewrite Zplus_mod_idemp_l, IH. f_equal. lia.
Qed.

Lemma sumCPUs_sum l : sumCPUs l = u64 (foldr Z.add 0 l).
Proof. exact (sumCPUs_acc l 0). Qed.

Lemma sumStats_mapM lookup sums : mapM (fun id => perCPU ← lookup id; Ret (sumCPUs perCPU)) (seqZ 0 statMax) = Ret sums ->
  exists s, sumStats lookup = Ret s /\
    forall c, stat_field c s = default 0 (sums !! Z.to_nat (statID_number c)).
Proof. intros H. unfold sumStats. rewrite H. eexists. split; [reflexivity|]. by intros []. Qed.

Lemma statID_number_range c : 0 <= statID_number c < statMax.
Proof. destruct c; vm_compute; split; discriminate || reflexivity. Qed.

(** [mapM] in the outcome monad: every call answers, or the first that does not
    decides. *)
Lemma mapM_Ret {A B} (f : A -> outcome B) (g : A -> B) l :
  (forall x, x ∈ l -> f x = Ret (g x)) -> mapM f l = Ret (g <$> l).
Proof.
  induction l as [|x l IH]; intros Hf; [done|]. cbn. rewrite Hf by (by left).
  cbn. change (mapM f l) with (mapM f l) in IH. rewrite IH; [done|]. intros; apply Hf; by right.
Qed.

Lemma mapM_Fail {A B} (f : A -> outcome B) l1 x l2 e :
  (forall y, y ∈ l1 -> exists b, f y = Ret b) -> f x = Fail e -> mapM f (l1 ++ x :: l2) = Fail e.
Proof.
  intros H1 Hx. induction l1 as [|y l1 IH]; cbn; [by rewrite Hx|].
  destruct (H1 y) as [b ->]; [by left|]. cbn. rewrite IH; [done|]. intros; apply H1; by right.
Qed.

Lemma seqZ_split id n : 0 <= id < n -> seqZ 0 n = seqZ 0 id ++ id :: seqZ (id + 1) (n - id - 1).
Proof.
  intros H. replace n with (id + (n - id)) at 1 by lia. rewrite seqZ_app by lia.
  f_equal. rewrite seqZ_cons by lia. by f_equal; f_equal; lia.
Qed.

(** Reading the counters gives each field of Stats the total over the CPUs of
    the counter of its own number, modulo 2^64, and the first counter that cannot
    be read makes the whole reading fail. *)
Lemma sumStats_spec lookup :
  (forall per, (forall id, 0 <= id < statMax -> lookup id = Ret (per id)) ->
     exists s, sumStats lookup = Ret s /\
       forall c, stat_field c s = u64 (foldr Z.add 0 (per (statID_number c)))) /\
  (forall id e, 0 <= id < statMax -> lookup id = Fail e ->
     (forall id', 0 <= id' < id -> exists per, lookup id' = Ret per) -> sumStats lookup = Fail e).
Proof.
  split.
  - intros per Hl. destruct (sumStats_mapM lookup ((fun id => sumCPUs (per id)) <$> seqZ 0 statMax)) as (s & Hs & Hf).
    + apply mapM_Ret. intros id Hid. apply elem_of_seqZ in Hid. by rewrite Hl by lia.
    + exists s. split; [done|]. intros c. pose proof (statID_number_range c) as Hr.
      rewrite Hf, list_lookup_fmap, lookup_seqZ_lt by lia. cbn. rewrite sumCPUs_sum.
      by rewrite Z.add_0_l, Z2Nat.id by lia.
  - intros id e Hid He Hbefore. unfold sumStats.
    rewrite (seqZ_split id statMax) by done. erewrite (mapM_Fail _ _ _ _ e); [done| |by rewrite He].
    intros y Hy. apply elem_of_seqZ in Hy. destruct (Hbefore y) as [per ->]; [lia|]. by eexists.
Qed.

(** The printed text has one line per counter of the struct, each under its own
    name with its own value. *)
Lemma printed_complete stats :
  printed stats ≡ₚ ((fun nf => (nf.1, nf.2 stats)) <$> field_names) /\ NoDup (printed stats).*1.
Proof.
  split.
  - unfold printed, field_names. cbn [fmap list_fmap fst snd]. solve_Permutation.
  - apply (bool_decide_unpack _). vm_compute. exact I.
Qed.

(** The lines do not come in the struct's order: ICMPTimeExceeded has moved. *)
Lemma printed_out_of_order :
  (printed (mkStats 0 0 0 0 0 0 0 0 0 0 0 0 0 0 0 0 0 0 0 0 0 0 0 0 0 0 0 0 0 0 0 0 0 0 0 0 0 0 0)).*1
  <> field_names.*1.
Proof. intros H. vm_compute in H. discriminate H. Qed.

Lemma sumStats_spec_witness :
  exists s, sumStats (fun id => Ret [id; 2 ^ 64 - 1; 1]) = Ret s /\
    forall c, stat_field c s = u64 (foldr Z.add 0 [statID_number c; 2 ^ 64 - 1; 1]).
Proof. apply (proj1 (sumStats_spec (fun id => Ret [id; 2 ^ 64 - 1; 1])) (fun id => [id; 2 ^ 64 - 1; 1])). reflexivity. Defined.
