(* ===== verification/Xdp.v ===== *)
(** What the packet programs of src/bpf/datapath.bpf.c work in: the frame, the
    maps, the counters, the kernel's helpers, and the lookups and parsers the
    programs share.

    A program is a function from a state to the action it returns and the state
    it leaves.  The maps are those the control plane writes ([Datapath.world]),
    the counters are the running CPU's.  The kernel's helpers are parameters
    ([Kernel]) with what their documentation promises as laws ([KernelLaws]). *)

From S2P Require Import Prelude Wire Netip Checksum Packet Stats Datapath Migration.

Local Open Scope Z_scope.

(** ** The kernel *)

(** struct bpf_fib_lookup: what is asked and what is answered.  An IPv4 address
    is 4 bytes, an IPv6 address 16. *)
Record fib_query : Type := mkFibQuery {
  q_family : Z; q_tos : Z; q_l4_protocol : Z; q_tot_len : Z; q_src : bytes; q_dst : bytes; q_ifindex : Z }.
Record fib_result : Type := mkFib {
  f_ret : Z; f_ifindex : Z; f_dmac : bytes; f_smac : bytes; f_mtu_result : Z }.

Definition AF_INET : Z := 2.
Definition AF_INET6 : Z := 10.
Definition BPF_FIB_LKUP_RET_SUCCESS : Z := 0.
Definition BPF_FIB_LKUP_RET_NO_NEIGH : Z := 7.
Definition BPF_FIB_LKUP_RET_FRAG_NEEDED : Z := 8.
Definition BPF_FIB_LOOKUP_SKIP_NEIGH : Z := 4.
Definition BPF_MTU_CHK_RET_FRAG_NEEDED : Z := 1.

Class Kernel : Type := {
  kernel_host :: Host;
  bpf_xdp_adjust_head : bytes -> Z -> option bytes;
  bpf_xdp_adjust_tail : bytes -> Z -> option bytes;
  bpf_fib_lookup : fib_query -> Z -> fib_result;
  bpf_check_mtu : Z -> Z -> Z * Z;          (* device, L3 length: answer, the device's MTU *)
  bpf_get_prandom_u32 : Z -> Z;             (* the n-th draw *)
  cpu_present : Z -> bool;                  (* cpu_map holds the CPU *)
  cpu_v6_present : Z -> bool;               (* cpu_map_v6 holds the CPU *)
  frag_port : Z -> bool;                    (* frag_ports holds the entry *)
  affinity_full : gmap FlowKey FlowAffinity -> bool  (* no room for a new flow *)
}.

Class KernelLaws `{Kernel} : Prop := {
  head_grows p d p' : d <= 0 -> bpf_xdp_adjust_head p d = Some p' ->
    exists h, zlen h = - d /\ is_bytes h /\ p' = h ++ p;
  head_shrinks p d p' : 0 <= d -> bpf_xdp_adjust_head p d = Some p' ->
    d <= zlen p /\ p' = drop (Z.to_nat d) p;
  tail_shrinks p d p' : d <= 0 -> bpf_xdp_adjust_tail p d = Some p' ->
    - d <= zlen p /\ p' = take (Z.to_nat (zlen p + d)) p;
  fib_macs q fl : zlen (f_dmac (bpf_fib_lookup q fl)) = 6 /\ is_bytes (f_dmac (bpf_fib_lookup q fl)) /\
    zlen (f_smac (bpf_fib_lookup q fl)) = 6 /\ is_bytes (f_smac (bpf_fib_lookup q fl));
  mtu_checked ifi len m : bpf_check_mtu ifi len = (0, m) -> len <= m;
  prandom_u32 n : 0 <= bpf_get_prandom_u32 n < 2 ^ 32
}.

(** ** State, counters, actions *)

(** A CPU's token bucket for the ICMP errors it originates (icmp_error_rate). *)
Record bucket : Type := mkBucket { last_refill_ns : Z; tokens : Z }.

(** fanout_config and fanout_cpus, and their IPv6 counterparts. *)
Record fanout : Type := mkFanout { fan_enabled : Z; fan_cpu_count : Z; fan_cpus : gmap Z Z }.

Record X : Type := mkX {
  pkt : bytes;                 (* data .. data_end *)
  ingress : Z;                 (* ctx->ingress_ifindex *)
  maps : world;
  counters : gmap Z Z;         (* this CPU's stats *)
  rate : bucket;
  fan : fanout;
  fan_v6 : fanout;
  draws : Z;                   (* calls of bpf_get_prandom_u32 so far *)
  clock : list Z }.            (* what bpf_ktime_get_ns will read *)

Definition with_pkt (x : X) (p : bytes) : X :=
  mkX p (ingress x) (maps x) (counters x) (rate x) (fan x) (fan_v6 x) (draws x) (clock x).
Definition with_maps (x : X) (w : world) : X :=
  mkX (pkt x) (ingress x) w (counters x) (rate x) (fan x) (fan_v6 x) (draws x) (clock x).
Definition with_rate (x : X) (b : bucket) : X :=
  mkX (pkt x) (ingress x) (maps x) (counters x) b (fan x) (fan_v6 x) (draws x) (clock x).

Definition bpf_ktime_get_ns (x : X) : Z * X :=
  (default 0 (head (clock x)),
   mkX (pkt x) (ingress x) (maps x) (counters x) (rate x) (fan x) (fan_v6 x) (draws x) (tail (clock x))).

Definition draw `{Kernel} (x : X) : Z * X :=
  (bpf_get_prandom_u32 (draws x),
   mkX (pkt x) (ingress x) (maps x) (counters x) (rate x) (fan x) (fan_v6 x) (draws x + 1) (clock x)).

Definition increase_stats_count (s : statID) (x : X) : X :=
  let k := statID_number s in
  mkX (pkt x) (ingress x) (maps x) (<[k := u64 (default 0 (counters x !! k) + 1)]> (counters x))
    (rate x) (fan x) (fan_v6 x) (draws x) (clock x).

(** What a program returns: an XDP action, or the map and the key
    bpf_redirect_map was given. *)
Inductive action : Type :=
| XDP_ABORTED
| XDP_DROP
| XDP_PASS
| tx_port (ifindex : Z)    (* tx_ports *)
| frag_clones              (* frag_ports, BPF_F_BROADCAST *)
| cpu_port (cpu : Z)       (* cpu_map *)
| cpu_port_v6 (cpu : Z).   (* cpu_map_v6 *)

#[export] Instance action_eq_dec : EqDecision action.
Proof. solve_decision. Defined.

(** Count one thing and return. *)
Definition leave (s : statID) (a : action) (x : X) : action * X := (a, increase_stats_count s x).

Definition redirect_to_ifindex (ifindex : Z) (s : statID) (x : X) : action * X :=
  leave s (tx_port ifindex) x.

(** ** The frame *)

Definition ETH_P_IP : Z := 0x0800.
Definition ETH_P_IPV6 : Z := 0x86dd.
Definition ETH_P_8021Q : Z := 0x8100.
Definition ETH_P_8021AD : Z := 0x88a8.
Definition IPPROTO_ICMP : Z := 1.
Definition IPPROTO_IPIP : Z := 4.
Definition IPPROTO_UDP : Z := 17.
Definition IPPROTO_FRAGMENT : Z := 44.
Definition IPPROTO_ICMPV6 : Z := 58.
Definition OUTER_ETH_LEN : Z := 14.
Definition OUTER_IPV6_LEN : Z := 40.
Definition OUTER_HDR_LEN : Z := OUTER_ETH_LEN + OUTER_IPV6_LEN.
Definition TUNNEL_L3_OVERHEAD : Z := OUTER_IPV6_LEN.
Definition FRAG_HDR_LEN : Z := 8.

(** -1, 0, and 1 with the offset of the IP header. *)
Inductive parsed : Type := Malformed | Untouched | Parsed (o : Z).

#[export] Instance parsed_eq_dec : EqDecision parsed.
Proof. solve_decision. Defined.

(** Up to [n] VLAN tags. *)
Fixpoint skip_vlans (n : nat) (p : bytes) (proto off : Z) : option (Z * Z) :=
  match n with
  | O => Some (proto, off)
  | S n' =>
    if (proto =? ETH_P_8021Q) || (proto =? ETH_P_8021AD) then
      if zlen p <? off + 4 then None else skip_vlans n' p (ld16 p (off + 2)) (off + 4)
    else skip_vlans n' p proto off
  end.

Definition parse_l2_ipv4 (p : bytes) : parsed :=
  if zlen p <? 14 then Malformed
  else match skip_vlans 2 p (ld16 p 12) 14 with
  | None => Malformed
  | Some (proto, o) =>
    if negb (proto =? ETH_P_IP) then Untouched
    else if zlen p <? o + 20 then Malformed
    else if negb (Z.shiftr (at8 p o) 4 =? 4) || negb (Z.land (at8 p o) 0xf =? 5) then Untouched
    else if ld16 p (o + 2) <? 20 then Malformed
    else if zlen p <? o + ld16 p (o + 2) then Malformed
    else Parsed o
  end.

Definition parse_l2_ipv6 (p : bytes) : parsed :=
  if zlen p <? 14 then Malformed
  else if negb (ld16 p 12 =? ETH_P_IPV6) then Untouched
  else if zlen p <? 14 + 40 then Malformed
  else if negb (Z.shiftr (at8 p 14) 4 =? 6) then Untouched
  else if zlen p <? 14 + 40 + ld16 p (14 + 4) then Malformed
  else Parsed 14.

(** struct ethhdr and struct ipv6hdr as they are written. *)
Definition ethhdr (dst src : bytes) (proto : Z) : bytes := dst ++ src ++ be 2 proto.
Definition ipv6hdr (saddr daddr : bytes) (nexthdr payload_len : Z) : bytes :=
  [0x60; 0; 0; 0] ++ be 2 payload_len ++ [nexthdr; 64] ++ saddr ++ daddr.

Definition write_outer_ipv6 (p : bytes) (o : Z) (saddr daddr : bytes) (nexthdr payload_len : Z) : bytes :=
  put p o (ipv6hdr saddr daddr nexthdr (u16 payload_len)).

(** The fields of an IPv6 header at [o]. *)
Definition saddr6 (p : bytes) (o : Z) : bytes := sub p (o + 8) 16.
Definition daddr6 (p : bytes) (o : Z) : bytes := sub p (o + 24) 16.
Definition nexthdr6 (p : bytes) (o : Z) : Z := at8 p (o + 6).

(** ** Configuration *)

(** The effective configuration of a packet: b4_config_map with a slot's pair. *)
Record b4_config : Type := mkB4 { b4_addr : bytes; aftr_addr : bytes; global : B4ConfigVal }.

Definition get_next_hop (x : X) (slot : Z) : option NextHop :=
  if (0 <=? slot) && (slot <? numNextHops) then Some (hop (hops (maps x)) slot) else None.

Definition resolve_softwire (x : X) (nh : option NextHop) : option b4_config :=
  match nh with
  | Some nh => if Valid nh =? 0 then None else Some (mkB4 (B4Addr nh) (AftrAddr nh) (b4cfg (maps x)))
  | None => None
  end.

Definition get_migration_ctrl (x : X) : Z := ctrl (maps x).

Definition resolve_active_softwire (x : X) : option b4_config :=
  resolve_softwire x (get_next_hop x (activeSlot (unpackMigrationCtrl (get_migration_ctrl x)))).

(** The slot whose pair a packet from the network carries. *)
Definition find_dslite_peer_nh (x : X) (o : Z) : option NextHop :=
  let fits slot :=
    let nh := hop (hops (maps x)) slot in
    negb (Valid nh =? 0) && bool_decide (daddr6 (pkt x) o = B4Addr nh) &&
    bool_decide (saddr6 (pkt x) o = AftrAddr nh) in
  if fits 0 then Some (hop (hops (maps x)) 0)
  else if fits 1 then Some (hop (hops (maps x)) 1)
  else None.

Definition get_lan_config (x : X) (ifindex : Z) : option LanVal := lans (maps x) !! ifindex.

(** ** Flows *)

Definition build_flow_key (p : bytes) (o : Z) (reverse : bool) : FlowKey :=
  let proto := at8 p (o + 9) in
  let fragmented := negb (Z.land (ld16 p (o + 6)) 0x3fff =? 0) in
  let '(sport, dport) :=
    if negb fragmented && (Z.land (at8 p o) 0xf =? 5) && ((proto =? IPPROTO_TCP) || (proto =? IPPROTO_UDP)) then
      if zlen p <? o + 24 then (0, 0) else (ld16 p (o + 20), ld16 p (o + 22))
    else (0, 0) in
  let saddr := ld32 p (o + 12) in
  let daddr := ld32 p (o + 16) in
  if reverse then mkFlowKey daddr saddr dport sport proto else mkFlowKey saddr daddr sport dport proto.

Section Programs.
Context `{Kernel}.

(** touch_flow_affinity, the table's part of which is in Migration.v. *)
Definition touch_affinity (c : Z) (o : Z) (reverse : bool) (x : X) : bool * X :=
  let key := build_flow_key (pkt x) o reverse in
  let '(now, x) := bpf_ktime_get_ns x in
  let aff := affinity (maps x) in
  let '(hit, failed, aff') := touch_flow_affinity c key now (affinity_full aff) aff in
  let x := with_maps x (with_affinity (maps x) aff') in
  if failed then (hit, increase_stats_count statAffinityInsertFail x)
  else if bool_decide (aff !! key = None) && (mstate (unpackMigrationCtrl c) =? migPriming)
  then (hit, increase_stats_count statAffinityInsert x)
  else (hit, x).

Definition pick_slot (c : Z) (o : Z) (x : X) : Z * X :=
  let m := unpackMigrationCtrl c in
  if mstate m =? migSteady then (activeSlot m, x)
  else
    let '(hit, x) := touch_affinity c o false x in
    if (mstate m =? migDraining) && hit then (oldSlot m, increase_stats_count statAffinityPinned x)
    else (activeSlot m, x).

(** ** Asking the kernel *)

Definition check_dev_mtu (ifindex l3_len : Z) (x : X) : Z * Z * X :=
  let '(ret, mtu) := bpf_check_mtu ifindex l3_len in
  if (ret =? 0) || (ret =? BPF_MTU_CHK_RET_FRAG_NEEDED) then (ret, mtu, x)
  else (ret, mtu, increase_stats_count statAbort x).

(** [Some] when the next hop towards the AFTR is known, out the WAN. *)
Definition lookup_aftr_nexthop (cfg : b4_config) (inner_len : Z) (x : X) : option fib_result * X :=
  let fib := bpf_fib_lookup (mkFibQuery AF_INET6 0 IPPROTO_IPIP (u16 (OUTER_IPV6_LEN + inner_len))
                               (b4_addr cfg) (aftr_addr cfg) (ingress x)) 0 in
  if (f_ret fib =? BPF_FIB_LKUP_RET_SUCCESS) || (f_ret fib =? BPF_FIB_LKUP_RET_FRAG_NEEDED) then
    if negb (WanIfindex (global cfg) =? 0) && negb (f_ifindex fib =? WanIfindex (global cfg))
    then (None, increase_stats_count statFIBWrongIf x)
    else if f_ret fib =? BPF_FIB_LKUP_RET_SUCCESS
    then (Some fib, increase_stats_count statFIBSuccess x)
    else (Some fib, x)
  else if f_ret fib =? BPF_FIB_LKUP_RET_NO_NEIGH
  then (None, increase_stats_count statFIBNoNeigh x)
  else (None, increase_stats_count statFIBFail x).

Definition write_outer_eth6 (p : bytes) (fib : fib_result) : bytes :=
  put p 0 (ethhdr (f_dmac fib) (f_smac fib) ETH_P_IPV6).

(** 10 minutes. *)
Definition TUNNEL_PMTU_EXPIRY_NS : Z := 600 * 1000000000.

Definition tunnel_pmtu_for (slot : Z) (x : X) : Z * X :=
  if negb ((0 <=? slot) && (slot <? numNextHops)) then (0, x)
  else
    let e := default zeroPmtu (pmtus (maps x) !! slot) in
    if UpdatedNs e =? 0 then (0, x)
    else
      let '(now, x) := bpf_ktime_get_ns x in
      if TUNNEL_PMTU_EXPIRY_NS <? u64 (now - UpdatedNs e) then (0, x) else (Mtu e, x).

End Programs.

(** ** At concrete inputs *)

(** A little-endian kernel: a WAN (device 3, MTU 1280) towards every IPv6
    address, a LAN (device 5) that holds 192.x.x.x. *)
Definition kernel_1 : Kernel := {|
  kernel_host := true;
  bpf_xdp_adjust_head p d :=
    if d <=? 0 then Some (zeros (- d) ++ p)
    else if zlen p <? d + 14 then None else Some (drop (Z.to_nat d) p);
  bpf_xdp_adjust_tail p d :=
    if (d <=? 0) && (14 <=? zlen p + d) then Some (take (Z.to_nat (zlen p + d)) p) else None;
  bpf_fib_lookup q fl :=
    if q_family q =? AF_INET6 then mkFib 0 3 [2; 0; 0; 0; 0; 9] [2; 0; 0; 0; 0; 3] 0
    else mkFib (if at8 (q_dst q) 0 =? 192 then 0 else 4) 5 [2; 0; 0; 0; 0; 8] [2; 0; 0; 0; 0; 5] 0;
  bpf_check_mtu ifi len :=
    let mtu := if ifi =? 3 then 1280 else 1500 in (if len <=? mtu then 0 else BPF_MTU_CHK_RET_FRAG_NEEDED, mtu);
  bpf_get_prandom_u32 n := u32 (n * 0x9e3779b9);
  cpu_present _ := false;
  cpu_v6_present _ := false;
  frag_port i := i <? 4;
  affinity_full _ := false |}.

Lemma kernel_1_laws : @KernelLaws kernel_1.
Proof.
  split; cbn.
  - intros p d p' Hd. rewrite (proj2 (Z.leb_le _ _)) by done. intros [= <-]. exists (zeros (- d)).
    split; [unfold zeros, zlen; rewrite length_replicate; lia|]. split; [apply is_bytes_zeros|done].
  - intros p d p' Hd. destruct (Z.leb_spec d 0).
    + assert (d = 0) as -> by lia. intros [= <-]. split; [unfold zlen; lia|done].
    + destruct (Z.ltb_spec (zlen p) (d + 14)); [done|]. intros [= <-]. split; [lia|done].
  - intros p d p' Hd. destruct (_ && _) eqn:E; [|done]. intros [= <-]. apply andb_prop in E as [_ E%Z.leb_le]. split; [lia|done].
  - intros q fl. destruct (_ =? _); cbn; repeat split; (done || (apply (bool_decide_unpack _); done)).
  - intros ifi len m. destruct (Z.leb_spec len (if ifi =? 3 then 1280 else 1500)); intros [= <-]; done.
  - intros n. apply Z.mod_pos_bound. done.
Qed.

Definition cfg_x : B4Config := mkB4Config b4_1 aftr_1 [2;0;0;0;0;3] [2;0;0;0;0;9] 3 1280 9000 0.
Definition lan_x : LANConfig := mkLANConfig (A4 0xc0a80101) 1500.

(** The maps of a softwire just set up, with its LAN. *)
Definition w_x : world := runs [SetLAN 5 lan_x] (SetB4Config cfg_x (zero_world [])).2.

Lemma w_x_ok : snap_ok (now_seen w_x).
Proof.
  assert (SetB4Config cfg_x (zero_world []) = (Ret tt, (SetB4Config cfg_x (zero_world [])).2)) as E by (vm_compute; reflexivity).
  apply (Inv_runs [SetLAN 5 lan_x] _ (SetB4_created _ _ _ E)).
Qed.

(** A packet of device [i]. *)
Definition arrives (p : bytes) (i : Z) : X :=
  mkX p i w_x ∅ (mkBucket 0 0) (mkFanout 0 0 ∅) (mkFanout 0 0 ∅) 0 [1000000000; 1000000001; 1000000002].

(** UDP from [src] to [dst], TTL 64, [n] bytes of payload. *)
Definition udp_x (src dst : bytes) (n : Z) : bytes :=
  let ip s := [0x45; 0] ++ be 2 (28 + n) ++ [0; 1; 0x40; 0; 64; 17] ++ s ++ src ++ dst in
  ip (be 2 (checksum (ip [0; 0]))) ++ be 2 5000 ++ be 2 53 ++ be 2 (8 + n) ++ [0; 0] ++ replicate (Z.to_nat n) 7.

Definition lan_host : bytes := [192; 168; 1; 10].
Definition far_host : bytes := [8; 8; 8; 8].

(** From the LAN, and from the AFTR. *)
Definition x_up (n : Z) : X := arrives (ethhdr [2;0;0;0;0;5] [2;0;0;0;0;8] ETH_P_IP ++ udp_x lan_host far_host n) 5.
Definition softwire_frame (n : Z) : bytes :=
  ethhdr [2;0;0;0;0;3] [2;0;0;0;0;9] ETH_P_IPV6 ++ ipv6hdr (As16 aftr_1) (As16 b4_1) IPPROTO_IPIP (28 + n) ++ udp_x far_host lan_host n.
Definition x_down : X := arrives (softwire_frame 8) 3.

(** A Packet Too Big from a router of the provider, quoting a softwire packet. *)
Definition x_too_big : X := arrives (
  ethhdr [2;0;0;0;0;3] [2;0;0;0;0;9] ETH_P_IPV6 ++
  ipv6hdr (As16 aftr_2) (As16 b4_1) IPPROTO_ICMPV6 84 ++ [2; 0; 0; 0] ++ be 4 1400 ++
  ipv6hdr (As16 b4_1) (As16 aftr_1) IPPROTO_IPIP 36 ++ udp_x lan_host far_host 8) 3.

(** A native IPv6 packet of the LAN. *)
Definition x_native : X := arrives (
  ethhdr [2;0;0;0;0;5] [2;0;0;0;0;8] ETH_P_IPV6 ++ ipv6hdr (As16 aftr_2) (As16 aftr_1) IPPROTO_UDP 8 ++
  be 2 5000 ++ be 2 53 ++ be 2 8 ++ [0; 0]) 5.
Definition cfg_1x : b4_config := mkB4 (As16 b4_1) (As16 aftr_1) (b4cfg w_x).
