(* ===== verification/Icmp.v ===== *)
(** The ICMP errors the packet programs originate (src/bpf/datapath_helpers.h and
    the send_* functions of src/bpf/datapath.bpf.c): which packets may be
    answered with one, how many per second, and what the answers are.

    An answer's IPv4 header, ICMPv4 message and ICMPv6 message all verify under
    the Internet checksum of Checksum.v, on hosts of either byte order; a CPU
    originates at most a burst of errors plus one for every refill interval. *)

From S2P Require Import Prelude Wire Checksum Packet Stats Datapath Xdp.

Local Open Scope Z_scope.

Definition ICMP_DEST_UNREACH : Z := 3.
Definition ICMP_SOURCE_QUENCH : Z := 4.
Definition ICMP_REDIRECT : Z := 5.
Definition ICMP_TIME_EXCEEDED : Z := 11.
Definition ICMP_PARAMETERPROB : Z := 12.
Definition ICMP_HOST_UNREACH : Z := 1.
Definition ICMP_FRAG_NEEDED : Z := 4.
Definition ICMP_HOST_ANO : Z := 10.
Definition ICMP_EXC_TTL : Z := 0.
Definition ICMP_EXC_FRAGTIME : Z := 1.
Definition ICMPV6_PKT_TOOBIG : Z := 2.

Definition B4_WELL_KNOWN_IPV4 : Z := 0xc0000002.
Definition IPV6_MIN_MTU : Z := 1280.
Definition ICMPV4_MIN_MTU : Z := 68.

(** struct ipv4_quote and the IPv4 packet around an error of 8 bytes and a quote;
    all three ICMPv4 replies have this length. *)
Definition ICMP_FRAG_QUOTE_LEN : Z := 28.
Definition ICMPV4_ERROR_L3_LEN : Z := 20 + 8 + ICMP_FRAG_QUOTE_LEN.
Definition ICMPV4_ERROR_FRAME_LEN : Z := OUTER_ETH_LEN + ICMPV4_ERROR_L3_LEN.
Definition ICMPV6_PTB_QUOTE_LEN : Z := 48.
Definition ICMPV6_PTB_REPLY_L3_LEN : Z := 40 + 8 + ICMPV6_PTB_QUOTE_LEN.

Definition icmpv4_type_is_error (type : Z) : bool :=
  (type =? ICMP_DEST_UNREACH) || (type =? ICMP_SOURCE_QUENCH) || (type =? ICMP_REDIRECT) ||
  (type =? ICMP_TIME_EXCEEDED) || (type =? ICMP_PARAMETERPROB).

(** [quote]: the offending packet's IPv4 header and the 8 bytes after it. *)
Definition icmp_error_eligible (quote : bytes) : bool :=
  if negb (Z.land (ld16 quote 6) 0x1fff =? 0) then false
  else
    let saddr := ld32 quote 12 in
    if (saddr =? 0) || (saddr =? 0xffffffff) then false
    else if (Z.shiftr saddr 24 =? 127) || (Z.shiftr saddr 28 =? 0xe) then false
    else if (at8 quote 9 =? IPPROTO_ICMP) && icmpv4_type_is_error (at8 quote 20) then false
    else true.

(** ** The rate *)

Definition ICMP_ERROR_RATE_PER_SEC : Z := 100.
Definition ICMP_ERROR_BURST : Z := 20.
Definition ICMP_ERROR_REFILL_INTERVAL_NS : Z := 1000000000 / ICMP_ERROR_RATE_PER_SEC.

(** The bucket at instant [now]. *)
Definition take_token (now : Z) (b : bucket) : bool * bucket :=
  let refill := u64 (now - last_refill_ns b) / ICMP_ERROR_REFILL_INTERVAL_NS in
  let b :=
    if 0 <? refill then
      let tokens := u64 (tokens b + refill) in
      mkBucket (u64 (last_refill_ns b + u64 (refill * ICMP_ERROR_REFILL_INTERVAL_NS)))
        (if ICMP_ERROR_BURST <? tokens then ICMP_ERROR_BURST else tokens)
    else b in
  if tokens b =? 0 then (false, b) else (true, mkBucket (last_refill_ns b) (u64 (tokens b - 1))).

Definition icmp_error_allowed (x : X) : bool * X :=
  let '(now, x) := bpf_ktime_get_ns x in
  let '(allowed, b) := take_token now (rate x) in (allowed, with_rate x b).

Section Messages.
Context `{Kernel}.

(** ** The messages *)

(** struct icmp_frag_needed, icmp_time_exceeded and icmpv4_error with their
    checksum (icmp_frag_needed_checksum and its two siblings): [word] is the
    type-specific 32 bits. *)
Definition icmpv4_error_msg (type code word : Z) (quote : bytes) : bytes :=
  let msg := [type; code; 0; 0] ++ be 4 word ++ quote in
  st16 msg 2 (checksum_fold32 (sum_words 18 msg 0 0)).

Definition build_icmp_frag_needed (quote : bytes) (next_mtu : Z) : bytes :=
  let msg := [ICMP_DEST_UNREACH; ICMP_FRAG_NEEDED; 0; 0] ++ be 2 0 ++ be 2 next_mtu ++ quote in
  st16 msg 2 (checksum_fold32 (sum_words 18 msg 0 0)).

Definition build_icmp_time_exceeded (quote : bytes) : bytes :=
  icmpv4_error_msg ICMP_TIME_EXCEEDED ICMP_EXC_TTL 0 quote.

(** write_dslite_inner_icmp_iph and the two statements after each of its uses. *)
Definition write_icmp_iph (p : bytes) (o : Z) (quote : bytes) (tot_len : Z) : bytes :=
  ipv4_checksum
    (put p o ([0x45; 0] ++ be 2 tot_len ++ [0; 0; 0; 0; 64; IPPROTO_ICMP; 0; 0] ++
              be 4 B4_WELL_KNOWN_IPV4 ++ sub quote 12 4)) o.

Definition write_dslite_icmp (p : bytes) (quote : bytes) (cfg : b4_config) (msg : bytes) : bytes :=
  let p := put p 12 (be 2 ETH_P_IPV6) in
  let p := write_outer_ipv6 p OUTER_ETH_LEN (b4_addr cfg) (aftr_addr cfg) IPPROTO_IPIP ICMPV4_ERROR_L3_LEN in
  let p := write_icmp_iph p OUTER_HDR_LEN quote ICMPV4_ERROR_L3_LEN in
  put p (OUTER_HDR_LEN + 20) msg.

Definition write_lan_icmpv4_error (p : bytes) (quote : bytes) (fib : fib_result) (type code extra : Z) : bytes :=
  let p := put p 0 (ethhdr (f_dmac fib) (f_smac fib) ETH_P_IP) in
  let p := write_icmp_iph p OUTER_ETH_LEN quote ICMPV4_ERROR_L3_LEN in
  put p (OUTER_ETH_LEN + 20) (icmpv4_error_msg type code extra quote).

(** struct icmpv6_pkt_too_big; the pseudo-header is summed before the message. *)
Definition icmpv6_checksum (saddr daddr msg : bytes) : Z :=
  let csum := sum_words 8 daddr 0 (sum_words 8 saddr 0 0) in
  let csum := u32 (csum + bpf_htons 0) in
  let csum := u32 (csum + bpf_htons 56) in
  let csum := u32 (csum + bpf_htons IPPROTO_ICMPV6) in
  checksum_fold32 (sum_words 28 msg 0 csum).

Definition icmpv6_ptb_msg (saddr daddr : bytes) (mtu : Z) (quote : bytes) : bytes :=
  let msg := [ICMPV6_PKT_TOOBIG; 0; 0; 0] ++ be 4 mtu ++ quote in
  st16 msg 2 (icmpv6_checksum saddr daddr msg).

Definition swap_eth_addrs (p : bytes) : bytes := put p 0 (sub p 6 6 ++ sub p 0 6).

(** [l2]: where the IPv6 header is. *)
Definition write_icmpv6_pkt_too_big (p : bytes) (l2 : Z) (quote src6 : bytes) (mtu : Z) : bytes :=
  let p := put (swap_eth_addrs p) 12 (be 2 ETH_P_IPV6) in
  let daddr := sub quote 8 16 in
  let p := put p l2 (ipv6hdr src6 daddr IPPROTO_ICMPV6 56) in
  put p (l2 + 40) (icmpv6_ptb_msg src6 daddr mtu quote).

(** ** Sending them *)

(** [o]: where the offending inner packet is. *)
Definition send_dslite_icmp_frag_needed (cfg : b4_config) (o next_mtu : Z) (x : X) : action * X :=
  if negb (Z.land (at8 (pkt x) o) 0xf =? 5) then leave statMTUDrop XDP_DROP x
  else
    let '(allowed, x) := icmp_error_allowed x in
    if negb allowed then leave statICMPRateLimited XDP_DROP (increase_stats_count statMTUDrop x)
    else if (ld16 (pkt x) (o + 2) <? ICMP_FRAG_QUOTE_LEN) || (zlen (pkt x) <? o + ICMP_FRAG_QUOTE_LEN)
    then leave statAbort XDP_ABORTED x
    else
      let quote := sub (pkt x) o ICMP_FRAG_QUOTE_LEN in
      if negb (icmp_error_eligible quote) then leave statMTUDrop XDP_DROP x
      else
        match lookup_aftr_nexthop cfg ICMPV4_ERROR_L3_LEN x with
        | (None, x) => (XDP_DROP, x)
        | (Some fib, x) =>
          let new_len := OUTER_HDR_LEN + ICMPV4_ERROR_L3_LEN in
          if zlen (pkt x) <? new_len then leave statAbort XDP_ABORTED x
          else
            match bpf_xdp_adjust_tail (pkt x) (new_len - zlen (pkt x)) with
            | None => leave statAbort XDP_ABORTED x
            | Some p =>
              if zlen p <? new_len then leave statAbort XDP_ABORTED (with_pkt x p)
              else
                let p := write_dslite_icmp p quote cfg (build_icmp_frag_needed quote next_mtu) in
                let x := with_pkt x (write_outer_eth6 p fib) in
                redirect_to_ifindex (WanIfindex (global cfg)) statRedirectWAN
                  (increase_stats_count statICMPFragNeeded (increase_stats_count statMTUDrop x))
            end
        end.

Definition send_dslite_icmp_time_exceeded (cfg : b4_config) (o : Z) (x : X) : action * X :=
  if negb (Z.land (at8 (pkt x) o) 0xf =? 5) then leave statDecapPass XDP_PASS x
  else if (ld16 (pkt x) (o + 2) <? ICMP_FRAG_QUOTE_LEN) || (zlen (pkt x) <? o + ICMP_FRAG_QUOTE_LEN)
  then leave statDecapPass XDP_PASS x
  else
    let quote := sub (pkt x) o ICMP_FRAG_QUOTE_LEN in
    if negb (icmp_error_eligible quote) then leave statDecapPass XDP_PASS x
    else
      let new_len := OUTER_HDR_LEN + ICMPV4_ERROR_L3_LEN in
      if zlen (pkt x) <? new_len then leave statDecapPass XDP_PASS x
      else
        let '(allowed, x) := icmp_error_allowed x in
        if negb allowed then leave statICMPRateLimited XDP_DROP x
        else
          match lookup_aftr_nexthop cfg ICMPV4_ERROR_L3_LEN x with
          | (None, x) => (XDP_DROP, x)
          | (Some fib, x) =>
            match bpf_xdp_adjust_tail (pkt x) (new_len - zlen (pkt x)) with
            | None => leave statAbort XDP_ABORTED x
            | Some p =>
              if zlen p <? new_len then leave statAbort XDP_ABORTED (with_pkt x p)
              else
                let p := write_dslite_icmp p quote cfg (build_icmp_time_exceeded quote) in
                let x := with_pkt x (write_outer_eth6 p fib) in
                redirect_to_ifindex (WanIfindex (global cfg)) statRedirectWAN
                  (increase_stats_count statICMPTimeExceeded x)
            end
          end.

(** [l2]: where the offending IPv6 packet is. *)
Definition send_icmpv6_pkt_too_big (l2 : Z) (src6 : bytes) (mtu : Z) (x : X) : action * X :=
  if bool_decide (src6 = zeros 16) then leave statIPv6Pass XDP_PASS x
  else
    let '(allowed, x) := icmp_error_allowed x in
    if negb allowed then leave statICMPRateLimited XDP_DROP (increase_stats_count statMTUDrop x)
    else if (l2 <? 14) || (64 <? l2) then leave statAbort XDP_ABORTED x
    else if zlen (pkt x) <? l2 + ICMPV6_PTB_QUOTE_LEN then leave statAbort XDP_ABORTED x
    else
      let quote := sub (pkt x) l2 ICMPV6_PTB_QUOTE_LEN in
      let mtu := if mtu <? IPV6_MIN_MTU then IPV6_MIN_MTU else mtu in
      let new_len := l2 + ICMPV6_PTB_REPLY_L3_LEN in
      if zlen (pkt x) <? new_len then leave statAbort XDP_ABORTED x
      else
        match bpf_xdp_adjust_tail (pkt x) (new_len - zlen (pkt x)) with
        | None => leave statAbort XDP_ABORTED x
        | Some p =>
          if zlen p <? new_len then leave statAbort XDP_ABORTED (with_pkt x p)
          else
            let x := with_pkt x (write_icmpv6_pkt_too_big p l2 quote src6 mtu) in
            let x := increase_stats_count statICMPFragNeeded (increase_stats_count statMTUDrop x) in
            (tx_port (ingress x), x)
        end.

End Messages.

(** ** What the replies are *)

Section Replies.
Context `{Kernel}.

Lemma icmpv4_error_msg_ok type code word quote : 0 < type < 256 -> is_byte code -> is_bytes quote -> zlen quote = 28 ->
  let m := icmpv4_error_msg type code word quote in
  zlen m = 36 /\ is_bytes m /\ checksum m = 0 /\ at8 m 0 = type /\ at8 m 1 = code /\
  sub m 4 4 = be 4 word /\ sub m 8 28 = quote.
Proof.
  intros Ht Hc Hq Hz m. set (m0 := [type; code; 0; 0] ++ be 4 word ++ quote).
  assert (is_bytes m0) as Hb.
  { unfold m0. rewrite !is_bytes_app. split; [|auto with packet].
    do 4 (apply Forall_cons; split; [try exact Hc; unfold is_byte; lia|]). constructor. }
  assert (zlen m0 = 36) as Hl by (unfold m0; rewrite !zlen_app, zlen_be, Hz; done).
  unfold m, icmpv4_error_msg. fold m0. set (v := checksum_fold32 _).
  split; [by rewrite st16_length by lia|]. split; [auto with packet|].
  assert (at8 (st16 m0 2 v) 0 = type) as H0 by by rewrite at8_st16 by lia.
  split; [|split; [done|split; [by rewrite at8_st16 by lia|split]]].
  - assert (is_bytes (st16 m0 2 v)) as Hb' by auto with packet. pose proof (wsum_bound _ Hb') as Hw.
    rewrite st16_length in Hw by lia. apply checksum_zero; [done|lia|]. split; [apply wsum_pos; [done|lia]|].
    pose proof (filled_eqc 18 m0 2 0 Hb ltac:(lia) ltac:(lia) ltac:(lia) eq_refl eq_refl ltac:(lia) ltac:(lia)) as Hf.
    by rewrite Z.mul_0_r in Hf.
  - rewrite sub_st16_ne by lia. unfold m0. rewrite (sub_app_r [type; code; 0; 0]) by done.
    change (4 - zlen [type; code; 0; 0]) with 0. rewrite sub_app_l by (rewrite ?zlen_be; lia). by apply sub_all.
  - rewrite sub_st16_ne by lia. unfold m0. rewrite app_assoc.
    rewrite sub_app_r by (rewrite zlen_app, zlen_be; done). rewrite zlen_app, zlen_be. by apply sub_all.
Qed.

Lemma build_icmp_frag_needed_msg quote next_mtu : 0 <= next_mtu < 2 ^ 16 ->
  build_icmp_frag_needed quote next_mtu = icmpv4_error_msg ICMP_DEST_UNREACH ICMP_FRAG_NEEDED next_mtu quote.
Proof.
  intros Hm. unfold build_icmp_frag_needed, icmpv4_error_msg.
  assert (be 4 next_mtu = be 2 0 ++ be 2 next_mtu) as ->.
  { rewrite (be_split 2 2). f_equal. change (8 * Z.of_nat 2) with 16. rewrite Z.shiftr_div_pow2, Z.div_small by lia. done. }
  by rewrite <- app_assoc.
Qed.

(** An ICMPv4 error from 192.0.0.2 at [o], both checksums right. *)
Definition icmpv4_reply (p : bytes) (o type code word : Z) (dst quote : bytes) : Prop :=
  header_ok p o /\ sub p o 10 = [0x45; 0] ++ be 2 ICMPV4_ERROR_L3_LEN ++ [0; 0; 0; 0; 64; IPPROTO_ICMP] /\
  sub p (o + 12) 8 = be 4 B4_WELL_KNOWN_IPV4 ++ dst /\
  checksum (sub p (o + 20) 36) = 0 /\ at8 p (o + 20) = type /\ at8 p (o + 21) = code /\
  sub p (o + 24) 4 = be 4 word /\ sub p (o + 28) 28 = quote.

(** The 20 bytes before the checksum is filled. *)
Lemma icmp_iph_parts a dst : zlen dst = 4 ->
  let h := [0x45; 0] ++ be 2 a ++ [0; 0; 0; 0; 64; IPPROTO_ICMP; 0; 0] ++ be 4 B4_WELL_KNOWN_IPV4 ++ dst in
  zlen h = 20 /\ sub h 0 10 = [0x45; 0] ++ be 2 a ++ [0; 0; 0; 0; 64; IPPROTO_ICMP] /\
  sub h 12 8 = be 4 B4_WELL_KNOWN_IPV4 ++ dst.
Proof.
  intros Hd h. change (be 2 a) with [u8 (Z.shiftr a 8); u8 (Z.shiftr a 0)] in *. unfold h.
  split; [rewrite !zlen_app, Hd; done|]. split; [done|].
  rewrite (app_assoc [0x45; 0]), (app_assoc (_ ++ _) [0; 0; 0; 0; 64; IPPROTO_ICMP; 0; 0]), sub_app_r by done.
  apply sub_all. rewrite zlen_app, Hd. done.
Qed.

Lemma icmpv4_reply_written p o type code word quote : is_bytes p -> 0 <= o -> o + ICMPV4_ERROR_L3_LEN <= zlen p ->
  0 < type < 256 -> is_byte code -> is_bytes quote -> zlen quote = 28 ->
  let p' := put (write_icmp_iph p o quote ICMPV4_ERROR_L3_LEN) (o + 20) (icmpv4_error_msg type code word quote) in
  zlen p' = zlen p /\ is_bytes p' /\ icmpv4_reply p' o type code word (sub quote 12 4) quote /\
  (forall i n, 0 <= i -> i + n <= o \/ o + ICMPV4_ERROR_L3_LEN <= i -> sub p' i n = sub p i n).
Proof.
  change ICMPV4_ERROR_L3_LEN with 56. intros Hp Ho Hl Ht Hc Hq Hz p'.
  destruct (icmpv4_error_msg_ok type code word quote) as (Hm & Hmb & Hmc & Hm0 & Hm1 & Hm4 & Hm8); [done..|].
  unfold p', write_icmp_iph. set (m := icmpv4_error_msg _ _ _ _) in *.
  assert (zlen (sub quote 12 4) = 4) as Hd by (rewrite zlen_sub; lia).
  destruct (icmp_iph_parts 56 (sub quote 12 4) Hd) as (Hhl & Hh0 & Hh12).
  set (h := [0x45; 0] ++ _) in *.
  assert (is_bytes h) as Hhb.
  { unfold h. rewrite !is_bytes_app. repeat split; auto with packet; apply (bool_decide_unpack _); exact I. }
  set (q := put p o h) in *. assert (zlen q = zlen p) as Hql by (apply zlen_put; lia).
  assert (is_bytes q) as Hqb by (unfold q; auto with packet).
  set (c := ipv4_checksum q o) in *. assert (zlen c = zlen p) as Hcl by (unfold c; rewrite zlen_ipv4_checksum; lia).
  assert (is_bytes c) as Hcb by (unfold c; auto with packet).
  assert (sub q o 20 = h) as Hqh by (unfold q; apply sub_put_same; lia).
  assert (at8 q o = 0x45) as H45.
  { unfold q. rewrite at8_put_in, Z.sub_diag by lia. done. }
  assert (forall i n, 0 <= i -> i + n <= o + 20 -> sub (put c (o + 20) m) i n = sub c i n) as Hlow
    by (intros; apply sub_put_ne; lia).
  assert (forall i n, 0 <= i -> i + n <= 36 -> sub (put c (o + 20) m) (o + 20 + i) n = sub m i n) as Hmsg.
  { intros. rewrite <- (sub_sub _ (o + 20) 36 i n), sub_put_same by lia. done. }
  assert (forall i, 0 <= i < 36 -> at8 (put c (o + 20) m) (o + 20 + i) = at8 m i) as Hmsg8.
  { intros. rewrite at8_put_in by lia. f_equal. lia. }
  split; [rewrite zlen_put; lia|]. split; [auto with packet|]. split; [split; [|split; [|split; [|split; [|split; [|split; [|split]]]]]]|].
  - unfold header_ok. rewrite Hlow by lia. apply ipv4_checksum_ok; [done|done|lia|lia].
  - rewrite Hlow by lia. unfold c. rewrite sub_ipv4_checksum_ne by lia.
    replace o with (o + 0) at 1 by lia. rewrite <- (sub_sub _ o 20 0 10), Hqh by lia. exact Hh0.
  - rewrite Hlow by lia. unfold c. rewrite sub_ipv4_checksum_ne by lia.
    rewrite <- (sub_sub _ o 20 12 8), Hqh by lia. exact Hh12.
  - replace (o + 20) with (o + 20 + 0) at 2 by lia. rewrite Hmsg, sub_all by lia. done.
  - replace (o + 20) with (o + 20 + 0) at 2 by lia. rewrite Hmsg8 by lia. done.
  - replace (o + 21) with (o + 20 + 1) by lia. rewrite Hmsg8 by lia. done.
  - replace (o + 24) with (o + 20 + 4) by lia. rewrite Hmsg by lia. done.
  - replace (o + 28) with (o + 20 + 8) by lia. rewrite Hmsg by lia. done.
  - intros i n Hi Hin. rewrite sub_put_ne by lia. unfold c. rewrite sub_ipv4_checksum_ne by lia.
    unfold q. rewrite sub_put_ne by lia. done.
Qed.

Lemma icmpv4_reply_ext p q o type code word dst quote : 0 <= o -> sub p o 56 = sub q o 56 ->
  icmpv4_reply p o type code word dst quote -> icmpv4_reply q o type code word dst quote.
Proof.
  intros Ho E.
  assert (forall i n, 0 <= i -> i + n <= 56 -> sub p (o + i) n = sub q (o + i) n) as Hs.
  { intros. by rewrite <- !(sub_sub _ o 56), E by lia. }
  assert (forall i, 0 <= i < 56 -> at8 p (o + i) = at8 q (o + i)) as H8.
  { intros. by rewrite <- !(at8_sub _ o 56), E by lia. }
  pose proof (Hs 0 20 ltac:(lia) ltac:(lia)) as E20. pose proof (Hs 0 10 ltac:(lia) ltac:(lia)) as E10.
  rewrite Z.add_0_r in E20, E10. unfold icmpv4_reply, header_ok. by rewrite E20, E10, !Hs, !H8 by lia.
Qed.

Lemma zlen_ipv6hdr s d nh len : zlen s = 16 -> zlen d = 16 -> zlen (ipv6hdr s d nh len) = 40.
Proof. intros Hs Hd. unfold ipv6hdr. rewrite !zlen_app, zlen_be, Hs, Hd. done. Qed.

Lemma is_bytes_ipv6hdr s d nh len : is_bytes s -> is_bytes d -> is_byte nh -> is_bytes (ipv6hdr s d nh len).
Proof.
  intros Hs Hd Hn. unfold ipv6hdr. rewrite !is_bytes_app. repeat split; auto with packet;
    [apply (bool_decide_unpack _); exact I|]. constructor; [done|]. by apply Forall_singleton.
Qed.

Lemma zlen_ethhdr d s proto : zlen d = 6 -> zlen s = 6 -> zlen (ethhdr d s proto) = 14.
Proof. intros Hd Hs. unfold ethhdr. rewrite !zlen_app, zlen_be, Hs, Hd. done. Qed.

Lemma is_bytes_ethhdr d s proto : is_bytes d -> is_bytes s -> is_bytes (ethhdr d s proto).
Proof. intros. unfold ethhdr. rewrite !is_bytes_app. auto with packet. Qed.

(** The addresses of a configuration are whole. *)
Definition cfg_ok (cfg : b4_config) : Prop :=
  zlen (b4_addr cfg) = 16 /\ is_bytes (b4_addr cfg) /\ zlen (aftr_addr cfg) = 16 /\ is_bytes (aftr_addr cfg).

(** An ICMPv4 error in the softwire, on its way to the AFTR. *)
Definition dslite_reply (p : bytes) (cfg : b4_config) (fib : fib_result) (type code word : Z) (quote : bytes) : Prop :=
  zlen p = OUTER_HDR_LEN + ICMPV4_ERROR_L3_LEN /\
  sub p 0 OUTER_ETH_LEN = ethhdr (f_dmac fib) (f_smac fib) ETH_P_IPV6 /\
  sub p OUTER_ETH_LEN OUTER_IPV6_LEN = ipv6hdr (b4_addr cfg) (aftr_addr cfg) IPPROTO_IPIP ICMPV4_ERROR_L3_LEN /\
  icmpv4_reply p OUTER_HDR_LEN type code word (sub quote 12 4) quote.

Lemma dslite_reply_written `{!KernelLaws} p quote cfg q fl type code word : is_bytes p -> zlen p = 110 -> cfg_ok cfg ->
  is_bytes quote -> zlen quote = 28 -> 0 < type < 256 -> is_byte code ->
  let fib := bpf_fib_lookup q fl in
  dslite_reply (write_outer_eth6 (write_dslite_icmp p quote cfg (icmpv4_error_msg type code word quote)) fib)
    cfg fib type code word quote.
Proof.
  intros Hp Hl (Hb & Hbb & Ha & Hab) Hq Hqz Ht Hc fib.
  destruct (fib_macs q fl) as (Hd & Hdb & Hs & Hsb). fold fib in Hd, Hdb, Hs, Hsb.
  pose proof (zlen_ethhdr _ _ ETH_P_IPV6 Hd Hs) as He.
  pose proof (zlen_ipv6hdr _ _ IPPROTO_IPIP (u16 ICMPV4_ERROR_L3_LEN) Hb Ha) as H6.
  unfold write_outer_eth6, write_dslite_icmp, write_outer_ipv6, dslite_reply.
  change (OUTER_HDR_LEN + ICMPV4_ERROR_L3_LEN) with 110. change OUTER_HDR_LEN with 54 in *. change OUTER_ETH_LEN with 14 in *. change OUTER_IPV6_LEN with 40 in *.
  set (h6 := ipv6hdr _ _ _ _) in *. set (he := ethhdr _ _ _) in *.
  set (p1 := put p 12 _). assert (zlen p1 = 110) as H1 by (unfold p1; rewrite zlen_put; rewrite ?zlen_be; lia).
  set (p2 := put p1 14 h6). assert (zlen p2 = 110) as H2 by (unfold p2; rewrite zlen_put; lia).
  assert (is_bytes p2) as Hp2.
  { unfold p2, p1, h6. apply is_bytes_put; [auto with packet|]. by apply is_bytes_ipv6hdr. }
  destruct (icmpv4_reply_written p2 54 type code word quote) as (H4 & Hp4 & Hr & Hn);
    [done|lia|rewrite H2; done|done..|].
  set (p4 := put (write_icmp_iph _ _ _ _) _ _) in *. change (54 + 20) with 74 in *.
  split; [rewrite zlen_put; lia|]. split; [apply sub_put_same; lia|]. split.
  - rewrite sub_put_ne, Hn by lia. unfold p2. rewrite sub_put_same by lia. done.
  - eapply icmpv4_reply_ext; [lia| |exact Hr]. by rewrite sub_put_ne by lia.
Qed.

(** The pseudo-header of an ICMPv6 message of 56 bytes. *)
Definition icmpv6_pseudo (saddr daddr : bytes) : bytes := saddr ++ daddr ++ be 4 56 ++ [0; 0; 0; IPPROTO_ICMPV6].

Lemma icmpv6_ptb_msg_ok saddr daddr mtu quote : zlen saddr = 16 -> is_bytes saddr -> zlen daddr = 16 -> is_bytes daddr ->
  is_bytes quote -> zlen quote = 48 ->
  let m := icmpv6_ptb_msg saddr daddr mtu quote in
  zlen m = 56 /\ is_bytes m /\ checksum (icmpv6_pseudo saddr daddr ++ m) = 0 /\
  sub m 0 2 = [ICMPV6_PKT_TOOBIG; 0] /\ sub m 4 52 = be 4 mtu ++ quote.
Proof.
  intros Hs Hsb Hd Hdb Hq Hqz m. set (m0 := [ICMPV6_PKT_TOOBIG; 0; 0; 0] ++ be 4 mtu ++ quote).
  assert (is_bytes m0) as Hb.
  { unfold m0. rewrite !is_bytes_app. split; [|auto with packet]. apply (bool_decide_unpack _). exact I. }
  assert (zlen m0 = 56) as Hl by (unfold m0; rewrite !zlen_app, zlen_be, Hqz; done).
  unfold m, icmpv6_ptb_msg. fold m0. set (v := icmpv6_checksum _ _ _).
  split; [by rewrite st16_length by lia|]. split; [auto with packet|]. split; [|split].
  - unfold v, icmpv6_checksum.
    destruct (sum_words_eqc 8 saddr 0 0 Hsb) as [R1 E1]; [lia..|]. set (c1 := sum_words 8 saddr 0 0) in *.
    assert (c1 <= 65535 * 8) as B1 by (unfold c1; by apply sum_words_bound).
    destruct (sum_words_eqc 8 daddr 0 c1 Hdb) as [R2 E2]; [lia..|]. set (c2 := sum_words 8 daddr 0 c1) in *.
    assert (c2 <= c1 + 65535 * 8) as B2 by (unfold c2; apply sum_words_bound; [done|lia..]).
    change (2 * Z.of_nat 8) with 16 in *. rewrite sub_all in E1, E2 by done. rewrite Z.add_0_l in E1.
    pose proof (bpf_htons_range 0 ltac:(lia)). pose proof (bpf_htons_range 56 ltac:(lia)).
    pose proof (bpf_htons_range IPPROTO_ICMPV6 ltac:(unfold IPPROTO_ICMPV6; lia)).
    rewrite (Z.mod_small (c2 + bpf_htons 0)), (Z.mod_small (c2 + bpf_htons 0 + bpf_htons 56)), (Z.mod_small (_ + bpf_htons IPPROTO_ICMPV6)) by lia.
    set (acc := c2 + _ + _ + _).
    pose proof (filled_eqc 28 m0 2 acc Hb ltac:(lia) ltac:(lia) ltac:(lia) eq_refl eq_refl ltac:(lia) ltac:(lia)) as Hf.
    assert (order * acc ≡c wsum (icmpv6_pseudo saddr daddr)) as Ha.
    { unfold acc. rewrite (bpf_htons_eqc 0), (bpf_htons_eqc 56), (bpf_htons_eqc IPPROTO_ICMPV6), E2, E1 by (unfold IPPROTO_ICMPV6; lia).
      unfold icmpv6_pseudo. rewrite !wsum_app by (by rewrite ?Hs, ?Hd).
      change (wsum [0; 0; 0; IPPROTO_ICMPV6]) with 58. change (wsum (be 4 56)) with 56. unfold IPPROTO_ICMPV6.
      replace (order * (order * wsum saddr + order * wsum daddr + order * 0 + order * 56 + order * 58))
        with (order * order * (wsum saddr + (wsum daddr + (56 + 58)))) by lia.
      by rewrite order_order, Z.mul_1_l. }
    rewrite Ha in Hf. set (fm := st16 m0 2 _) in *.
    assert (is_bytes fm) as Hfb by (unfold fm; auto with packet).
    assert (is_bytes (icmpv6_pseudo saddr daddr)) as Hpb.
    { unfold icmpv6_pseudo. rewrite !is_bytes_app. repeat split; auto with packet. apply (bool_decide_unpack _). exact I. }
    assert (zlen (icmpv6_pseudo saddr daddr) = 40) as Hpl by (unfold icmpv6_pseudo; rewrite !zlen_app, Hs, Hd; done).
    assert (is_bytes (icmpv6_pseudo saddr daddr ++ fm)) as Hall by by apply is_bytes_app.
    assert (zlen fm = 56) as Hfl by (unfold fm; by rewrite st16_length by lia).
    pose proof (wsum_bound _ Hall) as Hw. rewrite zlen_app, Hpl, Hfl in Hw.
    apply checksum_zero; [done|lia|]. rewrite wsum_app by by rewrite Hpl. split; [|done].
    assert (0 < wsum fm) by (apply wsum_pos; [done|]; unfold fm; by rewrite at8_st16 by lia).
    pose proof (wsum_nonneg _ Hpb). lia.
  - rewrite sub_st16_ne by lia. done.
  - rewrite sub_st16_ne by lia. unfold m0. rewrite sub_app_r by done.
    apply sub_all. rewrite zlen_app, zlen_be, Hqz. done.
Qed.

(** The state after the lookup of the next hop differs in the counters only. *)
Lemma lookup_aftr_nexthop_inv cfg n x r x' : lookup_aftr_nexthop cfg n x = (r, x') ->
  pkt x' = pkt x /\ maps x' = maps x /\ rate x' = rate x /\ clock x' = clock x /\ ingress x' = ingress x /\ draws x' = draws x /\
  (forall fib, r = Some fib -> exists q, fib = bpf_fib_lookup q 0 /\
     (WanIfindex (global cfg) <> 0 -> f_ifindex fib = WanIfindex (global cfg))).
Proof.
  unfold lookup_aftr_nexthop. set (q := mkFibQuery _ _ _ _ _ _ _). set (fib := bpf_fib_lookup q 0). cbv zeta.
  destruct (_ || _).
  - destruct (negb _ && negb _) eqn:E2; [intros [= <- <-]; split_and!; done|].
    assert (WanIfindex (global cfg) <> 0 -> f_ifindex fib = WanIfindex (global cfg)) as Hw.
    { apply andb_false_iff in E2 as [E2|E2]; apply negb_false_iff, Z.eqb_eq in E2; [by intros []|done]. }
    destruct (_ =? BPF_FIB_LKUP_RET_SUCCESS); intros [= <- <-]; split_and!; try done; intros ? [= <-]; eauto.
  - destruct (_ =? BPF_FIB_LKUP_RET_NO_NEIGH); intros [= <- <-]; split_and!; done.
Qed.

(** The next error asked for now would be let out. *)
Definition token_left (x : X) : bool := (take_token (default 0 (head (clock x))) (rate x)).1.

Lemma icmp_error_allowed_inv x allowed x' : icmp_error_allowed x = (allowed, x') ->
  allowed = token_left x /\ pkt x' = pkt x /\ maps x' = maps x /\ ingress x' = ingress x.
Proof.
  unfold icmp_error_allowed, token_left. cbn. destruct (take_token _ _) as [al b]. by intros [= <- <-].
Qed.

(** The frame is cut to the reply's length. *)
Lemma cut_frame `{!KernelLaws} p n q : is_bytes p -> 0 <= n <= zlen p ->
  bpf_xdp_adjust_tail p (n - zlen p) = Some q -> is_bytes q /\ zlen q = n.
Proof.
  intros Hp Hn Hq. apply tail_shrinks in Hq as [_ ->]; [|lia]. split; [by apply is_bytes_take|].
  rewrite zlen_take. lia.
Qed.

(** What a send function promises: [sent] describes the reply. *)
Definition sends (cfg : b4_config) (o : Z) (x : X) (sent : bytes -> fib_result -> bytes -> Prop) (r : action * X) : Prop :=
  match r.1 with
  | tx_port i =>
    let quote := sub (pkt x) o ICMP_FRAG_QUOTE_LEN in
    i = WanIfindex (global cfg) /\ icmp_error_eligible quote = true /\ token_left x = true /\
    exists fib, (WanIfindex (global cfg) <> 0 -> f_ifindex fib = WanIfindex (global cfg)) /\ sent (pkt r.2) fib quote
  | XDP_PASS => pkt r.2 = pkt x /\ rate r.2 = rate x
  | XDP_DROP => pkt r.2 = pkt x
  | XDP_ABORTED => True
  | _ => False
  end.

(** Both functions end alike once the token is taken. *)
Lemma reply_sent `{!KernelLaws} cfg o x y r xf p code type word st : is_bytes (pkt x) -> 0 <= o -> cfg_ok cfg ->
  pkt y = pkt x -> token_left x = true ->
  icmp_error_eligible (sub (pkt x) o ICMP_FRAG_QUOTE_LEN) = true -> o + ICMP_FRAG_QUOTE_LEN <= zlen (pkt x) ->
  0 < type < 256 -> is_byte code ->
  lookup_aftr_nexthop cfg ICMPV4_ERROR_L3_LEN y = (Some r, xf) ->
  OUTER_HDR_LEN + ICMPV4_ERROR_L3_LEN <= zlen (pkt xf) ->
  bpf_xdp_adjust_tail (pkt xf) (OUTER_HDR_LEN + ICMPV4_ERROR_L3_LEN - zlen (pkt xf)) = Some p ->
  let quote := sub (pkt x) o ICMP_FRAG_QUOTE_LEN in
  pkt st = write_outer_eth6 (write_dslite_icmp p quote cfg (icmpv4_error_msg type code word quote)) r ->
  sends cfg o x (fun p' fib quote => dslite_reply p' cfg fib type code word quote)
    (tx_port (WanIfindex (global cfg)), st).
Proof.
  intros Hp Ho Hc Hy Htok He Hl Ht Hcode Hr Hlen Hcut quote Hst.
  apply lookup_aftr_nexthop_inv in Hr as (Hpk & _ & _ & _ & _ & _ & Hf).
  destruct (Hf r eq_refl) as (q & -> & Hw). rewrite Hpk, Hy in *.
  apply cut_frame in Hcut as [Hpb Hpl]; [|done|change (OUTER_HDR_LEN + ICMPV4_ERROR_L3_LEN) with 110 in *; lia].
  unfold sends. cbn [fst snd]. split; [done|split; [done|split; [done|]]]. exists (bpf_fib_lookup q 0). split; [done|].
  rewrite Hst. apply dslite_reply_written; try done; [by apply is_bytes_sub|].
  unfold quote. change ICMP_FRAG_QUOTE_LEN with 28 in *. apply zlen_sub; lia.
Qed.

(** The ICMPv4 errors sent into the softwire are right: Fragmentation Needed
    with the next-hop MTU and Time Exceeded go out the WAN only for a packet
    that may be answered (RFC 1812) and with a token, as a frame of exactly the
    outer headers to the AFTR, an IPv4 header from 192.0.0.2 to the packet's
    source and the error quoting it, both checksums verifying on hosts of either
    byte order; otherwise the packet is left as it was. *)
Lemma dslite_errors_sound `{!KernelLaws} cfg o next_mtu x : is_bytes (pkt x) -> 0 <= o -> cfg_ok cfg ->
  0 <= next_mtu < 2 ^ 16 ->
  sends cfg o x (fun p fib quote => dslite_reply p cfg fib ICMP_DEST_UNREACH ICMP_FRAG_NEEDED next_mtu quote)
    (send_dslite_icmp_frag_needed cfg o next_mtu x) /\
  sends cfg o x (fun p fib quote => dslite_reply p cfg fib ICMP_TIME_EXCEEDED ICMP_EXC_TTL 0 quote)
    (send_dslite_icmp_time_exceeded cfg o x).
Proof.
  intros Hp Ho Hc Hm. split.
  - unfold send_dslite_icmp_frag_needed. destruct (negb _); [done|].
    destruct (icmp_error_allowed x) as [allowed y] eqn:Ea. apply icmp_error_allowed_inv in Ea as (-> & Hy & _ & _).
    destruct (token_left x) eqn:Htok; cbn [negb]; [|exact Hy]. destruct (_ || _) eqn:Hb; [done|].
    rewrite Hy in *. apply orb_false_iff in Hb as [_ Hb%Z.ltb_ge].
    destruct (negb (icmp_error_eligible _)) eqn:He; [exact Hy|apply negb_false_iff in He].
    destruct (lookup_aftr_nexthop _ _ _) as [[fib|] xf] eqn:Ef.
    2: { apply lookup_aftr_nexthop_inv in Ef as (E & _). exact (eq_trans E Hy). }
    destruct (Z.ltb_spec (zlen (pkt xf)) (OUTER_HDR_LEN + ICMPV4_ERROR_L3_LEN)); [done|].
    destruct (bpf_xdp_adjust_tail _ _) as [p|] eqn:Ecut; [|done]. destruct (_ <? _); [done|].
    eapply reply_sent; try done. by rewrite build_icmp_frag_needed_msg.
  - unfold send_dslite_icmp_time_exceeded. destruct (negb _); [done|]. destruct (_ || _) eqn:Hb; [done|].
    apply orb_false_iff in Hb as [_ Hb%Z.ltb_ge].
    destruct (negb (icmp_error_eligible _)) eqn:He; [done|apply negb_false_iff in He].
    destruct (Z.ltb_spec (zlen (pkt x)) (OUTER_HDR_LEN + ICMPV4_ERROR_L3_LEN)) as [|Hlen]; [done|].
    destruct (icmp_error_allowed x) as [allowed y] eqn:Ea. apply icmp_error_allowed_inv in Ea as (-> & Hy & _ & _).
    destruct (token_left x) eqn:Htok; cbn [negb]; [|exact Hy].
    destruct (lookup_aftr_nexthop _ _ _) as [[fib|] xf] eqn:Ef;
      pose proof (lookup_aftr_nexthop_inv _ _ _ _ _ Ef) as (E & _); [|exact (eq_trans E Hy)].
    destruct (bpf_xdp_adjust_tail _ _) as [p|] eqn:Ecut; [|done]. destruct (_ <? _); [done|].
    eapply reply_sent; try done. by rewrite E, Hy.
Qed.

End Replies.

(** ** The rate, over any run of a CPU *)

(** How many of the errors asked for at [nows] the bucket lets out. *)
Fixpoint let_out (nows : list Z) (b : bucket) : Z :=
  match nows with
  | [] => 0
  | now :: nows' => let '(allowed, b') := take_token now b in (if allowed then 1 else 0) + let_out nows' b'
  end.

(** Instants of one clock, from [t] on. *)
Fixpoint instants (t : Z) (nows : list Z) : Prop :=
  match nows with
  | [] => True
  | now :: nows' => t <= now < 2 ^ 64 /\ instants now nows'
  end.

Lemma take_token_spec now b : 0 <= last_refill_ns b <= now -> now < 2 ^ 64 -> 0 <= tokens b <= ICMP_ERROR_BURST ->
  let r := (now - last_refill_ns b) / ICMP_ERROR_REFILL_INTERVAL_NS in
  let n := Z.min ICMP_ERROR_BURST (tokens b + r) in
  let last := last_refill_ns b + r * ICMP_ERROR_REFILL_INTERVAL_NS in
  last <= now < last + ICMP_ERROR_REFILL_INTERVAL_NS /\
  take_token now b = if n =? 0 then (false, mkBucket last n) else (true, mkBucket last (n - 1)).
Proof.
  unfold take_token. change ICMP_ERROR_REFILL_INTERVAL_NS with 10000000. unfold ICMP_ERROR_BURST.
  destruct b as [last tok]. cbn [last_refill_ns tokens]. intros Hl Hn Ht.
  rewrite (Z.mod_small (now - last)) by lia. set (r := (now - last) / 10000000).
  assert (0 <= r) by (apply Z.div_pos; lia).
  pose proof (Z.div_mod (now - last) 10000000 ltac:(lia)) as Hd. fold r in Hd.
  pose proof (Z.mod_pos_bound (now - last) 10000000 eq_refl). split; [lia|].
  destruct (Z.ltb_spec 0 r) as [Hr|Hr].
  - rewrite (Z.mod_small (r * 10000000)), (Z.mod_small (last + _)), (Z.mod_small (tok + r)) by lia. destruct (Z.ltb_spec 20 (tok + r)); cbn [tokens last_refill_ns];
      [rewrite Z.min_l by lia|rewrite Z.min_r by lia]; [done|].
    destruct (Z.eqb_spec (tok + r) 0); [done|]. by rewrite Z.mod_small by lia.
  - assert (r = 0) as -> by lia. cbn [tokens last_refill_ns]. rewrite Z.mul_0_l, !Z.add_0_r, Z.min_r by lia.
    destruct (Z.eqb_spec tok 0); [done|]. by rewrite Z.mod_small by lia.
Qed.

Lemma let_out_bound nows t b : 0 <= last_refill_ns b <= t -> t < last_refill_ns b + ICMP_ERROR_REFILL_INTERVAL_NS ->
  0 <= tokens b <= ICMP_ERROR_BURST -> instants t nows ->
  let_out nows b <= tokens b + (List.last nows t - last_refill_ns b) / ICMP_ERROR_REFILL_INTERVAL_NS.
Proof.
  revert t b. induction nows as [|now nows IH]; intros t b Hl Ht Hk Hi.
  - cbn [let_out List.last]. assert (0 <= (t - last_refill_ns b) / ICMP_ERROR_REFILL_INTERVAL_NS) by (apply Z.div_pos; [lia|done]). lia.
  - destruct Hi as [Hn Hi]. rewrite last_cons_default. cbn [let_out].
    destruct (take_token_spec now b ltac:(lia) ltac:(lia) Hk) as [Hb E]. cbv zeta in Hb, E. rewrite E. clear E.
    change ICMP_ERROR_REFILL_INTERVAL_NS with 10000000 in *. unfold ICMP_ERROR_BURST in *.
    set (r := (now - last_refill_ns b) / 10000000) in *. assert (0 <= r) by (apply Z.div_pos; lia).
    set (n := Z.min 20 (tokens b + r)) in *.
    set (m := List.last nows now).
    assert ((m - (last_refill_ns b + r * 10000000)) / 10000000 = (m - last_refill_ns b) / 10000000 - r) as Hq.
    { replace (m - (last_refill_ns b + r * 10000000)) with (m - last_refill_ns b + (- r) * 10000000) by lia.
      rewrite Z.div_add; lia. }
    destruct (Z.eqb_spec n 0).
    + pose proof (IH now (mkBucket (last_refill_ns b + r * 10000000) n)) as Hih. cbn [last_refill_ns tokens] in Hih.
      specialize (Hih ltac:(lia) ltac:(lia) ltac:(lia) Hi). fold m in Hih. rewrite Hq in Hih. lia.
    + pose proof (IH now (mkBucket (last_refill_ns b + r * 10000000) (n - 1))) as Hih. cbn [last_refill_ns tokens] in Hih.
      specialize (Hih ltac:(lia) ltac:(lia) ltac:(lia) Hi). fold m in Hih. rewrite Hq in Hih. lia.
Qed.

(** C17: Whatever a CPU's bucket holds, the errors it lets out at any instants
    t1 <= ... <= tn are at most the burst of 20 plus one for every 10 ms between
    the first and the last of them and one more; and a CPU that has not been
    asked for 10 ms lets the next one out. *)
Theorem icmp_errors_limited t nows b : 0 <= last_refill_ns b <= t -> t < 2 ^ 64 ->
  0 <= tokens b <= ICMP_ERROR_BURST -> instants t nows ->
  let_out (t :: nows) b <= ICMP_ERROR_BURST + (List.last nows t - t) / ICMP_ERROR_REFILL_INTERVAL_NS + 1 /\
  (last_refill_ns b + ICMP_ERROR_REFILL_INTERVAL_NS <= t -> (take_token t b).1 = true).
Proof.
  intros Hl Ht Hk Hi. destruct (take_token_spec t b Hl Ht Hk) as [Hb E]. cbv zeta in Hb, E.
  change ICMP_ERROR_REFILL_INTERVAL_NS with 10000000 in *.
  set (r := (t - last_refill_ns b) / 10000000) in *. assert (0 <= r) by (apply Z.div_pos; lia). split.
  - cbn [let_out]. rewrite E. clear E. unfold ICMP_ERROR_BURST in *. set (n := Z.min 20 (tokens b + r)) in *.
    assert (0 <= n <= 20) by lia. set (last := last_refill_ns b + r * 10000000) in *.
    assert (forall k, 0 <= k <= 20 ->
      let_out nows (mkBucket last k) <= k + (List.last nows t - last) / 10000000) as Hg.
    { intros k Hk'. pose proof (let_out_bound nows t (mkBucket last k)) as Hg. cbn [last_refill_ns tokens] in Hg.
      change ICMP_ERROR_REFILL_INTERVAL_NS with 10000000 in Hg. apply Hg; [lia|lia|exact Hk'|exact Hi]. }
    assert ((List.last nows t - last) / 10000000 <= (List.last nows t - t) / 10000000 + 1) as Hd.
    { rewrite <- Z.div_add by lia. apply Z.div_le_mono; lia. }
    destruct (Z.eqb_spec n 0); [specialize (Hg n ltac:(lia))|specialize (Hg (n - 1) ltac:(lia))]; lia.
  - intros Hw. rewrite E. assert (1 <= r) by (apply Z.div_le_lower_bound; lia). unfold ICMP_ERROR_BURST in *.
    destruct (Z.eqb_spec (Z.min 20 (tokens b + r)) 0); [lia|done].
Qed.

(** A bucket as the map is created, asked 25 times in a millisecond, then later. *)
Lemma icmp_errors_limited_witness :
  let_out (1000000000 :: replicate 24 1001000000) (mkBucket 0 0) <= 20 + (1001000000 - 1000000000) / 10000000 + 1 /\
  (0 + 10000000 <= 1000000000 -> (take_token 1000000000 (mkBucket 0 0)).1 = true).
Proof.
  apply (icmp_errors_limited 1000000000 (replicate 24 1001000000) (mkBucket 0 0));
    [cbn; lia|reflexivity|cbn; unfold ICMP_ERROR_BURST; lia|repeat (split; [lia|]); exact I].
Defined.
