(* ===== verification/Ipv6fwd.v ===== *)
(** Native IPv6 through the packet programs (handle_ipv6_forward of
    src/bpf/datapath.bpf.c and what it uses), and the optional fan-out of packets
    to other CPUs (maybe_redirect_to_cpu, maybe_redirect_ipv6_to_cpu).

    A packet is forwarded only if a router may forward it, out a managed device
    other than the one it came in by, with nothing changed but the link-layer
    addresses and the hop limit. *)

From S2P Require Import Prelude Wire Checksum Packet Stats Datapath Migration Xdp Icmp.

Local Open Scope Z_scope.

(** ** Fan-out *)

Definition MAX_CPUS : Z := 256.

Definition murmur_mix (x : Z) : Z :=
  let x := Z.lxor x (Z.shiftr x 16) in
  let x := u32 (x * 0x7feb352d) in
  let x := Z.lxor x (Z.shiftr x 15) in
  let x := u32 (x * 0x846ca68b) in
  Z.lxor x (Z.shiftr x 16).

(** The ports at [l4], when the frame holds them and the protocol has them. *)
Definition hash_ports (p : bytes) (l4 proto h : Z) : Z :=
  if zlen p <? l4 + 4 then h
  else if (proto =? IPPROTO_TCP) || (proto =? IPPROTO_UDP)
  then Z.lxor (Z.lxor h (Z.shiftl (ld16 p l4) 16)) (ld16 p (l4 + 2))
  else h.

Definition inner_ip4_hash (p : bytes) (o : Z) : Z :=
  let h := Z.lxor (Z.lxor (ld32 p (o + 12)) (ld32 p (o + 16))) (Z.shiftl (at8 p (o + 9)) 16) in
  if negb (Z.land (at8 p o) 0xf =? 5) then murmur_mix h
  else murmur_mix (hash_ports p (o + 20) (at8 p (o + 9)) h).

Definition inner_ip6_hash (p : bytes) (o : Z) : Z :=
  let h := fold_left (fun h i => Z.lxor (Z.lxor h (ld32 p (o + 8 + 4 * i))) (ld32 p (o + 24 + 4 * i))) [0; 1; 2; 3] 0 in
  let h := Z.lxor h (Z.shiftl (nexthdr6 p o) 16) in
  murmur_mix (hash_ports p (o + 40) (nexthdr6 p o) h).

(** The CPU the table gives for a hash, if the fan-out is on. *)
Definition fanned (f : fanout) (h : Z) : option Z :=
  if (fan_enabled f =? 0) || (fan_cpu_count f =? 0) then None
  else
    let i := h mod fan_cpu_count f in
    if MAX_CPUS <=? i then None else Some (default 0 (fan_cpus f !! i)).

Section Forward.
Context `{Kernel}.

(** [None] where the C returns 0, which is also what a missing CPU makes
    bpf_redirect_map return. *)
Definition maybe_redirect_to_cpu (o : Z) (x : X) : option action :=
  cpu ← fanned (fan x) (inner_ip4_hash (pkt x) o);
  if cpu_present cpu then Some (cpu_port cpu) else None.

Definition maybe_redirect_ipv6_to_cpu (o : Z) (x : X) : option action * X :=
  match fanned (fan_v6 x) (inner_ip6_hash (pkt x) o) with
  | None => (None, x)
  | Some cpu =>
    (if cpu_v6_present cpu then Some (cpu_port_v6 cpu) else None, increase_stats_count statIPv6RSSRedirect x)
  end.

(** ** Forwarding *)

Definition ipv6_addr_is_loopback (a : bytes) : bool := bool_decide (a = zeros 15 ++ [1]).
Definition ipv6_addr_is_unspecified (a : bytes) : bool := bool_decide (a = zeros 16).

Definition IPPROTO_HOPOPTS : Z := 0.
Definition IPPROTO_ROUTING : Z := 43.
Definition IPPROTO_DSTOPTS : Z := 60.

Definition ipv6_is_forwardable (p : bytes) (o : Z) : bool :=
  let d := daddr6 p o in
  let s := saddr6 p o in
  let d0 := at8 d 0 in
  let s0 := at8 s 0 in
  if d0 =? 0xff then false
  else if (d0 =? 0xfe) && (Z.land (at8 d 1) 0xc0 =? 0x80) then false
  else if ipv6_addr_is_loopback d then false
  else if ipv6_addr_is_unspecified d then false
  else if ipv6_addr_is_unspecified s then false
  else if s0 =? 0xff then false
  else if (s0 =? 0xfe) && (Z.land (at8 s 1) 0xc0 =? 0x80) then false
  else if ipv6_addr_is_loopback s then false
  else
    let nh := nexthdr6 p o in
    negb ((nh =? IPPROTO_HOPOPTS) || (nh =? IPPROTO_ROUTING) || (nh =? IPPROTO_FRAGMENT) || (nh =? IPPROTO_DSTOPTS)).

Definition decrease_ipv6_hoplimit (p : bytes) (o : Z) : bytes := put p (o + 7) [u8 (at8 p (o + 7) - 1)].

Definition handle_ipv6_forward (cfg : b4_config) (l2 : Z) (x : X) : action * X :=
  if negb (ipv6_is_forwardable (pkt x) l2) then leave statIPv6Pass XDP_PASS x
  else if at8 (pkt x) (l2 + 7) <=? 1 then leave statIPv6Pass XDP_PASS x
  else
    let fib := bpf_fib_lookup (mkFibQuery AF_INET6 0 (nexthdr6 (pkt x) l2) (u16 (40 + ld16 (pkt x) (l2 + 4)))
                                 (saddr6 (pkt x) l2) (daddr6 (pkt x) l2) (ingress x)) 0 in
    if f_ret fib =? BPF_FIB_LKUP_RET_FRAG_NEEDED
    then send_icmpv6_pkt_too_big l2 (b4_addr cfg) (f_mtu_result fib) x
    else if negb (f_ret fib =? BPF_FIB_LKUP_RET_SUCCESS) then
      leave (if f_ret fib =? BPF_FIB_LKUP_RET_NO_NEIGH then statFIBNoNeigh else statIPv6Pass) XDP_PASS x
    else if f_ifindex fib =? ingress x then leave statIPv6Pass XDP_PASS x
    else if negb (f_ifindex fib =? WanIfindex (global cfg)) && bool_decide (get_lan_config x (f_ifindex fib) = None)
    then leave statFIBWrongIf XDP_PASS x
    else
      let x := increase_stats_count statFIBSuccess x in
      if (zlen (pkt x) <? 14) || (zlen (pkt x) <? l2 + 40) then leave statAbort XDP_ABORTED x
      else
        let p := put (put (pkt x) 0 (f_dmac fib)) 6 (f_smac fib) in
        let x := with_pkt x (decrease_ipv6_hoplimit p l2) in
        redirect_to_ifindex (f_ifindex fib) statIPv6Fwd x.

(** The cpumap stage. *)
Definition do_xdp_ipv6_fwd_cpu (x : X) : action * X :=
  match parse_l2_ipv6 (pkt x) with
  | Parsed l2 =>
    match resolve_active_softwire x with
    | Some cfg => handle_ipv6_forward cfg l2 x
    | None => leave statNoConfig XDP_PASS x
    end
  | _ => leave statIPv6Pass XDP_PASS x
  end.

End Forward.

(** ** What leaves *)

Section ForwardFacts.
Context `{Kernel, !KernelLaws}.

(** A Packet Too Big on plain Ethernet, back to where the packet came from. *)
Definition ptb_reply (p' p : bytes) (src6 : bytes) (mtu : Z) : Prop :=
  let dst := saddr6 p 14 in
  zlen p' = 14 + ICMPV6_PTB_REPLY_L3_LEN /\
  sub p' 0 14 = sub p 6 6 ++ sub p 0 6 ++ be 2 ETH_P_IPV6 /\
  sub p' 14 40 = ipv6hdr src6 dst IPPROTO_ICMPV6 56 /\
  checksum (icmpv6_pseudo src6 dst ++ sub p' 54 56) = 0 /\
  sub p' 54 2 = [ICMPV6_PKT_TOOBIG; 0] /\
  sub p' 58 52 = be 4 mtu ++ sub p 14 ICMPV6_PTB_QUOTE_LEN.

Lemma ptb_written p q src6 mtu : is_bytes p -> is_bytes q -> zlen q = 14 + ICMPV6_PTB_REPLY_L3_LEN ->
  14 + ICMPV6_PTB_QUOTE_LEN <= zlen p -> sub q 0 14 = sub p 0 14 ->
  zlen src6 = 16 -> is_bytes src6 ->
  ptb_reply (write_icmpv6_pkt_too_big q 14 (sub p 14 ICMPV6_PTB_QUOTE_LEN) src6 mtu) p src6 mtu.
Proof.
  unfold ptb_reply. change (14 + ICMPV6_PTB_REPLY_L3_LEN) with 110. change ICMPV6_PTB_QUOTE_LEN with 48.
  change (14 + 48) with 62. intros Hp Hq Hl Hpl He Hs Hsb. set (quote := sub p 14 48).
  assert (zlen quote = 48) as Hz by (apply zlen_sub; lia). assert (is_bytes quote) as Hzb by (unfold quote; auto with packet).
  assert (sub quote 8 16 = saddr6 p 14) as Hd by (unfold quote, saddr6; by rewrite sub_sub by lia).
  assert (zlen (saddr6 p 14) = 16) as Hdl by (apply zlen_sub; lia).
  assert (is_bytes (saddr6 p 14)) as Hdb by (unfold saddr6; auto with packet).
  destruct (icmpv6_ptb_msg_ok src6 (saddr6 p 14) mtu quote) as (Hm & Hmb & Hmc & Hm0 & Hm4); [done..|].
  unfold write_icmpv6_pkt_too_big, swap_eth_addrs. rewrite Hd. set (m := icmpv6_ptb_msg _ _ _ _) in *.
  assert (zlen (sub q 6 6) = 6 /\ zlen (sub q 0 6) = 6) as [Ha Hb] by (rewrite !zlen_sub by lia; done).
  set (sw := sub q 6 6 ++ sub q 0 6). assert (zlen sw = 12) as Hsw by (unfold sw; rewrite zlen_app; lia).
  set (q1 := put q 0 sw). assert (zlen q1 = 110) as H1 by (unfold q1; rewrite zlen_put; lia).
  set (q2 := put q1 12 (be 2 ETH_P_IPV6)).
  assert (zlen q2 = 110) as H2 by (unfold q2; rewrite zlen_put; rewrite ?zlen_be; lia).
  pose proof (zlen_ipv6hdr src6 (saddr6 p 14) IPPROTO_ICMPV6 56 Hs Hdl) as Hh. set (h := ipv6hdr _ _ _ _) in *.
  set (q3 := put q2 14 h). assert (zlen q3 = 110) as H3 by (unfold q3; rewrite zlen_put; lia).
  change (14 + 40) with 54.
  assert (forall i n, 0 <= i -> i + n <= 56 -> sub (put q3 54 m) (54 + i) n = sub m i n) as Hmsg.
  { intros. rewrite <- (sub_sub _ 54 56 i n), sub_put_same by lia. done. }
  split; [rewrite zlen_put; lia|]. split; [|split; [|split; [|split]]].
  - rewrite sub_put_ne by lia. unfold q3. rewrite sub_put_ne by lia.
    change 14 with (12 + 2) at 1. rewrite sub_split by lia. change (0 + 12) with 12.
    unfold q2 at 1. rewrite sub_put_ne by (rewrite ?zlen_be; lia). unfold q1 at 1. rewrite sub_put_same by lia.
    unfold q2. rewrite sub_put_same by (rewrite ?zlen_be; lia). unfold sw. rewrite <- app_assoc.
    assert (forall i n, 0 <= i -> i + n <= 14 -> sub q i n = sub p i n) as Heth.
    { intros i n Hi Hn. pose proof (sub_sub q 0 14 i n ltac:(lia) Hi Hn) as E. rewrite Z.add_0_l in E.
      rewrite <- E, He, sub_sub, Z.add_0_l by lia. done. }
    by rewrite !Heth by lia.
  - rewrite sub_put_ne by lia. unfold q3. by rewrite sub_put_same by lia.
  - rewrite (sub_put_same q3 54 m 56) by lia. exact Hmc.
  - change 54 with (54 + 0) at 2. rewrite Hmsg by lia. exact Hm0.
  - change 58 with (54 + 4). rewrite Hmsg by lia. exact Hm4.
Qed.

(** The same frame but for the link-layer addresses and the hop limit. *)
Definition forwarded (p' p : bytes) (fib : fib_result) : Prop :=
  zlen p' = zlen p /\ sub p' 0 12 = f_dmac fib ++ f_smac fib /\ at8 p' 21 = at8 p 21 - 1 /\ 1 < at8 p 21 /\
  (forall j, 12 <= j -> j <> 21 -> at8 p' j = at8 p j).

(** C15: A native IPv6 packet leaves the forwarding step in one of two ways: out a
    managed device (the WAN or a LAN) that is not the one it came in by, the same
    packet but for its link-layer addresses and a hop limit one lower; or,
    when the way out is too narrow and a token is left, as a Packet Too Big
    sent back where it came from, its checksum verifying on hosts of either byte
    order, quoting the packet and announcing at least 1280.  Either only if a router
    may forward the packet; any other packet goes to the kernel untouched, is
    dropped or aborted. *)
Theorem ipv6_forwarding_sound cfg x : is_bytes (pkt x) -> 54 <= zlen (pkt x) -> cfg_ok cfg ->
  let r := handle_ipv6_forward cfg 14 x in
  match r.1 with
  | tx_port i =>
    ipv6_is_forwardable (pkt x) 14 = true /\
    ((i <> ingress x /\ (i = WanIfindex (global cfg) \/ is_Some (lans (maps x) !! i)) /\
      exists q, f_ifindex (bpf_fib_lookup q 0) = i /\ forwarded (pkt r.2) (pkt x) (bpf_fib_lookup q 0)) \/
     (i = ingress x /\ token_left x = true /\
      exists mtu, IPV6_MIN_MTU <= mtu /\ ptb_reply (pkt r.2) (pkt x) (b4_addr cfg) mtu))
  | XDP_PASS => pkt r.2 = pkt x
  | XDP_DROP | XDP_ABORTED => True
  | _ => False
  end.
Proof.
  intros Hp Hl (Hb & Hbb & _ & _). cbv zeta. unfold handle_ipv6_forward.
  destruct (ipv6_is_forwardable _ _) eqn:Hf; cbn [negb]; [|done].
  destruct (Z.leb_spec (at8 (pkt x) (14 + 7)) 1) as [|Hhop]; [done|]. set (q := mkFibQuery _ _ _ _ _ _ _).
  set (fib := bpf_fib_lookup q 0). cbv zeta. destruct (_ =? BPF_FIB_LKUP_RET_FRAG_NEEDED).
  { unfold send_icmpv6_pkt_too_big. destruct (bool_decide _); [done|].
    destruct (icmp_error_allowed x) as [allowed y] eqn:Ea. apply icmp_error_allowed_inv in Ea as (-> & Hy & _ & Hi).
    destruct (token_left x) eqn:Htok; cbn [negb]; [|done]. destruct (_ || _); [done|].
    destruct (Z.ltb_spec (zlen (pkt y)) (14 + ICMPV6_PTB_QUOTE_LEN)); [done|].
    destruct (Z.ltb_spec (zlen (pkt y)) (14 + ICMPV6_PTB_REPLY_L3_LEN)) as [|Hn]; [done|]. rewrite Hy in *.
    set (n := 14 + ICMPV6_PTB_REPLY_L3_LEN) in *. assert (n = 110) as En by done.
    destruct (bpf_xdp_adjust_tail _ _) as [p|] eqn:Ecut; [|done].
    pose proof (tail_shrinks (pkt x) (n - zlen (pkt x)) p ltac:(lia) Ecut) as [_ Hcut].
    destruct (cut_frame (pkt x) n p Hp ltac:(lia) Ecut) as [Hpb Hpl]. destruct (_ <? _); [done|].
    cbn [fst snd redirect_to_ifindex leave]. split; [done|]. right.
    split; [exact Hi|]. split; [done|]. eexists. split; [|apply ptb_written; try done].
    - destruct (Z.ltb_spec (f_mtu_result fib) IPV6_MIN_MTU); lia.
    - rewrite Hcut. unfold sub. rewrite !drop_0, take_take. f_equal. lia. }
  destruct (negb (f_ret fib =? _)); [done|]. destruct (Z.eqb_spec (f_ifindex fib) (ingress x)) as [|Hne]; [done|].
  destruct (negb _ && _) eqn:Hm; [done|]. destruct (_ || _); [done|]. cbn [fst snd redirect_to_ifindex leave].
  split; [done|]. left. split; [exact Hne|]. split.
  { apply andb_false_iff in Hm as [Hm|Hm]; [left; by apply negb_false_iff, Z.eqb_eq in Hm|right].
    apply bool_decide_eq_false in Hm. unfold get_lan_config in Hm. by destruct (_ !! _). }
  exists q. split; [done|]. fold fib. cbn [pkt with_pkt increase_stats_count].
  destruct (fib_macs q 0) as (Hd & _ & Hs & _). fold fib in Hd, Hs. unfold forwarded, decrease_ipv6_hoplimit.
  pose proof (at8_byte (pkt x) 21 Hp) as H21. unfold is_byte in H21. change (14 + 7) with 21 in *.
  set (p1 := put (pkt x) 0 (f_dmac fib)). assert (zlen p1 = zlen (pkt x)) as H1 by (apply zlen_put; lia).
  set (p2 := put p1 6 (f_smac fib)). assert (zlen p2 = zlen (pkt x)) as H2 by (unfold p2; rewrite zlen_put; lia).
  assert (forall j, 12 <= j -> at8 p2 j = at8 (pkt x) j) as Hj.
  { intros j Hj. unfold p2. rewrite at8_put_ne by lia. unfold p1. by rewrite at8_put_ne by lia. }
  set (h := [u8 (at8 p2 21 - 1)]). assert (zlen h = 1) as Hh by done.
  split; [rewrite zlen_put; lia|]. split; [|split; [|split; [done|]]].
  - rewrite sub_put_ne by lia. change 12 with (6 + 6). rewrite sub_split by lia.
    unfold p2. rewrite sub_put_ne, sub_put_same by lia. unfold p1. rewrite sub_put_same by lia. done.
  - rewrite at8_put_in by lia. unfold h. rewrite Hj, Z.sub_diag by lia. change (u8 (at8 (pkt x) 21 - 1) = at8 (pkt x) 21 - 1). apply Z.mod_small. lia.
  - intros j Hj12 Hj21. rewrite at8_put_ne by lia. by apply Hj.
Qed.

End ForwardFacts.

(** ** At concrete inputs *)

Lemma ipv6_forwarding_sound_witness :
  exists q, @f_ifindex (@bpf_fib_lookup kernel_1 q 0) = 3 /\
    forwarded (pkt (@handle_ipv6_forward kernel_1 cfg_1x 14 x_native).2) (pkt x_native) (@bpf_fib_lookup kernel_1 q 0).
Proof.
  assert ((@handle_ipv6_forward kernel_1 cfg_1x 14 x_native).1 = tx_port 3) as E by (vm_compute; reflexivity).
  pose proof (@ipv6_forwarding_sound kernel_1 kernel_1_laws cfg_1x x_native) as Hw. cbv zeta in Hw. rewrite E in Hw.
  destruct Hw as (_ & [(_ & _ & Hw)|(Hi & _)]).
  - apply (bool_decide_unpack _). vm_compute. reflexivity.
  - vm_compute. discriminate.
  - repeat split; (reflexivity || (apply (bool_decide_unpack _); vm_compute; reflexivity)).
  - exact Hw.
  - discriminate.
Defined.
