(* ===== verification/Encap.v ===== *)
(** From the LAN into the softwire: do_xdp_dslite_encap, encap_fragment_outer and
    emit_softwire_fragment of src/bpf/datapath.bpf.c. *)

From S2P Require Import Prelude Wire Netip Checksum Packet Stats Datapath Tcpmss Migration Xdp Icmp Ipv6fwd.

Local Open Scope Z_scope.

Definition MAX_SOFTWIRE_FRAGS : Z := 4.

(** ** Which packets enter *)

Definition is_non_unicast_dst (p : bytes) (o : Z) : bool :=
  let daddr := ld32 p (o + 16) in
  (daddr =? 0xffffffff) || (Z.land daddr 0xf0000000 =? 0xe0000000).

Definition is_local_gateway_dst (lan : LanVal) (p : bytes) (o : Z) : bool :=
  negb (GatewayIp lan =? 0) && (ld32 p (o + 16) =? GatewayIp lan).

(** bpf_fib_lookup's question about the IPv4 packet at [o]. *)
Definition ipv4_query (p : bytes) (o tot_len ifindex : Z) : fib_query :=
  mkFibQuery AF_INET (at8 p (o + 1)) (at8 p (o + 9)) tot_len (sub p (o + 12) 4) (sub p (o + 16) 4) ifindex.

Section Encap.
Context `{Kernel}.

Definition is_local_lan_route (o : Z) (x : X) : bool :=
  let fib := bpf_fib_lookup (ipv4_query (pkt x) o (ld16 (pkt x) (o + 2)) (ingress x)) 0 in
  if negb (f_ret fib =? BPF_FIB_LKUP_RET_SUCCESS) then false
  else negb (bool_decide (get_lan_config x (f_ifindex fib) = None)).

(** ** Too big for the softwire *)

(** A 32-bit word stored as the host has it. *)
Definition raw32 (v : Z) : bytes := if little_endian then rev (be 4 v) else be 4 v.

(** struct frag_hdr; [frag_off] carries the offset and the M bit. *)
Definition frag_hdr (nexthdr frag_off : Z) (identification : bytes) : bytes :=
  [nexthdr; 0] ++ be 2 frag_off ++ identification.

(** [l2]: where the packet starts, of [inner_len] bytes. *)
Definition encap_fragment_outer (l2 inner_len : Z) (cfg : b4_config) (wan_mtu : Z) (x : X) : action * X :=
  if at8 (pkt x) (l2 + 8) <=? 1 then leave statPass XDP_PASS x
  else
    let unit := Z.ldiff (FragUnit (global cfg)) 7 in
    if (unit =? 0) || (u32 (MAX_SOFTWIRE_FRAGS * unit) <? inner_len) || (FragMaxInner (global cfg) <? inner_len) ||
       (wan_mtu <? unit + OUTER_IPV6_LEN + FRAG_HDR_LEN) || negb (frag_port 0)
    then leave statEncapFragSlow XDP_PASS x
    else
      match lookup_aftr_nexthop cfg (u16 (unit + FRAG_HDR_LEN)) x with
      | (None, x) => (XDP_PASS, x)
      | (Some fib, x) =>
        match bpf_xdp_adjust_head (pkt x) (l2 - (OUTER_HDR_LEN + FRAG_HDR_LEN)) with
        | None => leave statAbort XDP_ABORTED x
        | Some p =>
          let o := OUTER_HDR_LEN + FRAG_HDR_LEN in
          if (zlen p <? o + 20) || (zlen p <? o + inner_len) then leave statAbort XDP_ABORTED (with_pkt x p)
          else
            let p := write_outer_eth6 p fib in
            let p := write_outer_ipv6 p OUTER_ETH_LEN (b4_addr cfg) (aftr_addr cfg) IPPROTO_FRAGMENT
                       (inner_len + FRAG_HDR_LEN) in
            let p := put p (OUTER_ETH_LEN + 2) [u8 (Z.shiftr unit 8)] in
            let p := put p (OUTER_ETH_LEN + 3) [u8 unit] in
            let '(id, x) := draw x in
            let p := put p OUTER_HDR_LEN (frag_hdr IPPROTO_IPIP 1 (raw32 id)) in
            let x := with_pkt x (decrease_ipv4_ttl p o) in
            leave statEncapFragXDP frag_clones x
        end
      end.

(** ** Encapsulation *)

(** From the check of the WAN's MTU on. *)
Definition encapsulate (o : Z) (slot : Z) (cfg : b4_config) (x : X) : action * X :=
  let inner_len := ld16 (pkt x) (o + 2) in
  let '(ret, wan_mtu, x) := check_dev_mtu (WanIfindex (global cfg)) (TUNNEL_L3_OVERHEAD + inner_len) x in
  if negb (ret =? 0) && negb (ret =? BPF_MTU_CHK_RET_FRAG_NEEDED) then (XDP_DROP, x)
  else
    let '(learned_mtu, x) := tunnel_pmtu_for slot x in
    let eff_mtu := if negb (learned_mtu =? 0) && (learned_mtu <? wan_mtu) then learned_mtu else wan_mtu in
    let x :=
      if MssClamp (global cfg) =? 0 then x
      else
        let '(changed, p) := clamp_tcp_mss (pkt x) o (u16 (MssClamp (global cfg))) in
        if changed : bool then increase_stats_count statMSSClamped (with_pkt x p) else with_pkt x p in
    if (ret =? BPF_MTU_CHK_RET_FRAG_NEEDED) || (eff_mtu <? TUNNEL_L3_OVERHEAD + inner_len)
    then encap_fragment_outer o inner_len cfg eff_mtu x
    else if at8 (pkt x) (o + 8) <=? 1 then leave statPass XDP_PASS x
    else
      match lookup_aftr_nexthop cfg inner_len x with
      | (None, x) => (XDP_PASS, x)
      | (Some fib, x) =>
        match bpf_xdp_adjust_head (pkt x) (o - OUTER_HDR_LEN) with
        | None => leave statAbort XDP_ABORTED x
        | Some p =>
          if (zlen p <? OUTER_HDR_LEN + 20) || (zlen p <? OUTER_HDR_LEN + inner_len)
          then leave statAbort XDP_ABORTED (with_pkt x p)
          else
            let p := write_outer_eth6 p fib in
            let p := write_outer_ipv6 p OUTER_ETH_LEN (b4_addr cfg) (aftr_addr cfg) IPPROTO_IPIP inner_len in
            let x := with_pkt x (decrease_ipv4_ttl p OUTER_HDR_LEN) in
            redirect_to_ifindex (WanIfindex (global cfg)) statRedirectWAN (increase_stats_count statEncap x)
        end
      end.

Definition do_xdp_dslite_encap (x : X) : action * X :=
  match parse_l2_ipv4 (pkt x) with
  | Malformed => leave statDrop XDP_DROP x
  | Untouched =>
    match parse_l2_ipv6 (pkt x) with
    | Parsed l2 =>
      match resolve_active_softwire x with
      | None => leave statNoConfig XDP_PASS x
      | Some cfg6 =>
        match maybe_redirect_ipv6_to_cpu l2 x with
        | (Some a, x) => (a, x)
        | (None, x) => handle_ipv6_forward cfg6 l2 x
        end
      end
    | _ => leave statPass XDP_PASS x
    end
  | Parsed o =>
    match get_lan_config x (ingress x) with
    | None => leave statNoLANConfig XDP_PASS x
    | Some lan =>
      if is_non_unicast_dst (pkt x) o || is_local_gateway_dst lan (pkt x) o || is_local_lan_route o x
      then leave statBypass XDP_PASS x
      else
        let '(slot, x) := pick_slot (get_migration_ctrl x) o x in
        match resolve_softwire x (get_next_hop x slot) with
        | None => leave statNoConfig XDP_PASS x
        | Some cfg => encapsulate o slot cfg x
        end
    end
  end.

(** ** One clone, one fragment *)

(** The companion pair [idx]'s program. *)
Definition emit_softwire_fragment (idx : Z) (x : X) : action * X :=
  let p := pkt x in
  if negb (bool_decide (parse_l2_ipv6 p = Parsed OUTER_ETH_LEN)) || negb (nexthdr6 p OUTER_ETH_LEN =? IPPROTO_FRAGMENT)
  then leave statDrop XDP_DROP x
  else if zlen p <? OUTER_HDR_LEN + FRAG_HDR_LEN then leave statDrop XDP_DROP x
  else
    let plen := ld16 p (OUTER_ETH_LEN + 4) in
    if plen <? FRAG_HDR_LEN + 20 then leave statAbort XDP_ABORTED x
    else
      let total := plen - FRAG_HDR_LEN in
      let g := b4cfg (maps x) in
      if WanIfindex g =? 0 then leave statNoConfig XDP_DROP x
      else
        let unit := Z.ldiff (Z.lor (Z.shiftl (at8 p (OUTER_ETH_LEN + 2)) 8) (at8 p (OUTER_ETH_LEN + 3))) 7 in
        if (unit <? 8) || (0xffff <? unit) then leave statAbort XDP_ABORTED x
        else
          let start := u32 (idx * unit) in
          if total <=? start then (XDP_DROP, x)
          else
            let len := if unit <? total - start then unit else total - start in
            let last := negb (unit <? total - start) in
            let eth_copy := sub p 0 OUTER_ETH_LEN in
            let ip6_copy := sub p OUTER_ETH_LEN OUTER_IPV6_LEN in
            let fh_copy := sub p OUTER_HDR_LEN FRAG_HDR_LEN in
            match (if 0 <? start then bpf_xdp_adjust_head p start else Some p) with
            | None => leave statAbort XDP_ABORTED x
            | Some p =>
              let tail_trim := total - start - len in
              match (if 0 <? tail_trim then bpf_xdp_adjust_tail p (- tail_trim) else Some p) with
              | None => leave statAbort XDP_ABORTED (with_pkt x p)
              | Some p =>
                if zlen p <? OUTER_HDR_LEN + FRAG_HDR_LEN then leave statAbort XDP_ABORTED (with_pkt x p)
                else
                  let ip6_copy := put (put ip6_copy 1 [0; 0; 0]) 4 (be 2 (u16 (len + FRAG_HDR_LEN))) in
                  let fh_copy := put fh_copy 2 (be 2 (u16 (Z.lor start (if last then 0 else 1)))) in
                  let p := put p 0 eth_copy in
                  let p := put p OUTER_ETH_LEN ip6_copy in
                  let p := put p OUTER_HDR_LEN fh_copy in
                  redirect_to_ifindex (WanIfindex g) statRedirectWAN
                    (increase_stats_count statEncapFragSeg (with_pkt x p))
              end
            end.

End Encap.

(** ** What enters the softwire *)

Section EncapFacts.
Context `{Kernel, !KernelLaws}.

(** What the parser promises of an IPv4 packet. *)
Definition ipv4_at (p : bytes) (o : Z) : Prop :=
  14 <= o <= 22 /\ 20 <= ld16 p (o + 2) /\ o + ld16 p (o + 2) <= zlen p /\ at8 p o = 0x45.

Lemma skip_vlans_off n p proto off proto' off' : skip_vlans n p proto off = Some (proto', off') ->
  off <= off' <= off + 4 * Z.of_nat n.
Proof.
  revert proto off. induction n as [|n IH]; intros proto off E; cbn [skip_vlans] in E; [simplify_eq; lia|].
  destruct (_ || _); [destruct (_ <? _); [done|]|]; apply IH in E; lia.
Qed.

Lemma parse_l2_ipv4_at p o : is_bytes p -> parse_l2_ipv4 p = Parsed o -> ipv4_at p o.
Proof.
  intros Hp. unfold parse_l2_ipv4, ipv4_at. destruct (_ <? 14); [done|].
  destruct (skip_vlans _ _ _ _) as [[proto q]|] eqn:E; [|done]. apply skip_vlans_off in E.
  destruct (negb (proto =? ETH_P_IP)); [done|]. destruct (Z.ltb_spec (zlen p) (q + 20)); [done|].
  destruct (Z.eqb_spec (Z.shiftr (at8 p q) 4) 4) as [H4|], (Z.eqb_spec (Z.land (at8 p q) 0xf) 5) as [H5|]; cbn [negb orb]; try done.
  destruct (Z.ltb_spec (ld16 p (q + 2)) 20), (Z.ltb_spec (zlen p) (q + ld16 p (q + 2))); try done.
  intros [= <-]. split; [lia|split; [done|split; [done|]]].
  change 0xf with (Z.ones 4) in H5. rewrite Z.land_ones in H5 by lia. rewrite Z.shiftr_div_pow2 in H4 by lia.
  pose proof (Z.div_mod (at8 p q) (2 ^ 4) ltac:(lia)). lia.
Qed.

(** The packet after the clamp. *)
Definition clamped (cfg : b4_config) (o : Z) (p : bytes) : bytes :=
  if MssClamp (global cfg) =? 0 then p else (clamp_tcp_mss p o (u16 (MssClamp (global cfg)))).2.

Lemma clamp_loop_bytes n p th doff off c : is_bytes p -> 0 <= th -> 0 <= off -> th + 20 <= zlen p ->
  let r := clamp_loop n p th doff off c in
  is_bytes r.2 /\ zlen r.2 = zlen p /\ (forall j, 0 <= j < th -> at8 r.2 j = at8 p j).
Proof.
  revert off. induction n as [|n IH]; intros off Hp Ht Ho Hl; cbn [clamp_loop]; [done|].
  pose proof (at8_byte p (th + off + 1) Hp) as Hb. unfold is_byte in Hb.
  repeat case_match; try done; try (apply IH; (done || lia)).
  cbn [snd]. unfold csum_replace16. unfold TCP_OPT_MSS_LEN in *.
  repeat match goal with E : (_ <? _) = false |- _ => apply Z.ltb_ge in E end.
  assert (th + off + 4 <= zlen p) by lia.
  split; [auto with packet|]. split; [rewrite !st16_length; rewrite ?st16_length; lia|].
  intros j Hj. rewrite !at8_st16; rewrite ?st16_length; try done; lia.
Qed.

Lemma clamped_spec cfg o p : is_bytes p -> 0 <= o -> o + 20 <= zlen p ->
  is_bytes (clamped cfg o p) /\ zlen (clamped cfg o p) = zlen p /\
  (forall j, 0 <= j < o + 20 -> at8 (clamped cfg o p) j = at8 p j).
Proof.
  intros Hp Ho Hl. unfold clamped. destruct (_ =? 0); [done|]. unfold clamp_tcp_mss.
  do 2 (destruct (_ : bool); [done|]). destruct (Z.ltb_spec (zlen p) (o + 20 + 20)); [done|].
  do 2 (destruct (_ : bool); [done|]). apply clamp_loop_bytes; (done || lia).
Qed.

(** The outer headers, written over the first 54 bytes. *)
Lemma outer_written p cfg nh len q fl : 54 <= zlen p -> cfg_ok cfg ->
  let fib := bpf_fib_lookup q fl in
  write_outer_ipv6 (write_outer_eth6 p fib) OUTER_ETH_LEN (b4_addr cfg) (aftr_addr cfg) nh len =
  ethhdr (f_dmac fib) (f_smac fib) ETH_P_IPV6 ++ ipv6hdr (b4_addr cfg) (aftr_addr cfg) nh (u16 len) ++ drop 54 p.
Proof.
  intros Hl (H6 & _ & Hd6 & _) fib. destruct (fib_macs q fl) as (Hd & _ & Hs & _). fold fib in Hd, Hs.
  pose proof (zlen_ethhdr (f_dmac fib) (f_smac fib) ETH_P_IPV6 Hd Hs) as He.
  pose proof (zlen_ipv6hdr _ _ nh (u16 len) H6 Hd6) as Hh.
  unfold write_outer_ipv6, write_outer_eth6. rewrite put_0, put_end by done.
  do 2 f_equal. rewrite drop_drop. f_equal. unfold zlen in He, Hh. lia.
Qed.

Lemma header_ok_clamped cfg o p : is_bytes p -> 0 <= o -> o + 20 <= zlen p ->
  header_ok (clamped cfg o p) o <-> header_ok p o.
Proof.
  intros Hp Ho Hl. destruct (clamped_spec cfg o p Hp Ho Hl) as (_ & Hz & Hj). unfold header_ok.
  by rewrite (sub_ext (clamped cfg o p) p o 20) by (try done; try lia; intros; apply Hj; lia).
Qed.

(** The slot is the one Migration.v speaks of. *)
Lemma pick_slot_picked o x s y : pick_slot (get_migration_ctrl x) o x = (s, y) ->
  s = picked (ctrl (maps x)) (build_flow_key (pkt x) o false) (default 0 (head (clock x)))
        (affinity_full (affinity (maps x))) (affinity (maps x)) /\
  pkt y = pkt x /\ ingress y = ingress x /\ hops (maps y) = hops (maps x) /\ b4cfg (maps y) = b4cfg (maps x) /\
  pmtus (maps y) = pmtus (maps x) /\ lans (maps y) = lans (maps x).
Proof.
  unfold pick_slot, picked, pick_softwire_slot, get_migration_ctrl. destruct (_ =? migSteady); [by intros [= <- <-]|].
  unfold touch_affinity. cbn [bpf_ktime_get_ns pkt clock].
  destruct (touch_flow_affinity _ _ _ _ _) as [[hit failed] aff'].
  destruct failed; [|destruct (_ && (mstate _ =? migPriming))]; destruct (_ && hit); by intros [= <- <-].
Qed.

Lemma slot_in_range s key now full aff : snap_ok s -> picked s.1 key now full aff = 0 \/ picked s.1 key now full aff = 1.
Proof.
  destruct s as [v h]. intros Hs. pose proof (snap_ok_unpack v h Hs) as (Ha & _ & _ & Hp). cbn [fst].
  destruct (picked_cases v key now full aff) as [-> | [Hm ->]]; [done|].
  destruct Hp as [[Hm' _]|[[Hm' _]|(_ & -> & _)]]; [rewrite Hm in Hm'; discriminate..|].
  by destruct (other_slot _ Ha).
Qed.

Lemma endpoint_cfg x slot : endpoint (hops (maps x)) slot -> slot = 0 \/ slot = 1 ->
  exists cfg, resolve_softwire x (get_next_hop x slot) = Some cfg /\ cfg_ok cfg /\
    b4_addr cfg = B4Addr (hop (hops (maps x)) slot) /\ aftr_addr cfg = AftrAddr (hop (hops (maps x)) slot) /\
    global cfg = b4cfg (maps x).
Proof.
  intros (b4 & aftr & _ & Hh) Hs. unfold get_next_hop, numNextHops.
  rewrite (proj2 (Z.leb_le _ _)), (proj2 (Z.ltb_lt _ _)) by lia. cbn [andb resolve_softwire]. rewrite Hh. cbn.
  eexists. split; [done|]. unfold cfg_ok. cbn. split_and!; try done; apply zlen_As16 || apply is_bytes_As16.
Qed.

(** The packet [p1] of [o] on, its TTL one lower, inside the softwire. *)
Definition encapsulated (cfg : b4_config) (fib : fib_result) (p1 : bytes) (o : Z) : bytes :=
  ethhdr (f_dmac fib) (f_smac fib) ETH_P_IPV6 ++
  ipv6hdr (b4_addr cfg) (aftr_addr cfg) IPPROTO_IPIP (ld16 p1 (o + 2)) ++
  drop (Z.to_nat o) (decrease_ipv4_ttl p1 o).

(** What [encapsulate] promises of a packet that goes out. *)
Definition enters (o slot : Z) (cfg : b4_config) (x : X) (i : Z) (p' : bytes) : Prop :=
  let p1 := clamped cfg o (pkt x) in
  let len := ld16 (pkt x) (o + 2) in
  i = WanIfindex (global cfg) /\ 1 < at8 (pkt x) (o + 8) /\
  (exists m, bpf_check_mtu i (TUNNEL_L3_OVERHEAD + len) = (0, m) /\ TUNNEL_L3_OVERHEAD + len <= m) /\
  ((tunnel_pmtu_for slot x).1 = 0 \/ TUNNEL_L3_OVERHEAD + len <= (tunnel_pmtu_for slot x).1) /\
  exists q, (i <> 0 -> f_ifindex (bpf_fib_lookup q 0) = i) /\
    p' = encapsulated cfg (bpf_fib_lookup q 0) p1 o.

Lemma decrease_in_place (h p : bytes) o : 0 <= o -> o + 20 <= zlen p -> zlen h = 54 - o ->
  drop 54 (h ++ p) = drop (Z.to_nat o) p.
Proof.
  intros Ho Hl Hh. unfold zlen in Hh. replace 54%nat with (length h + Z.to_nat o)%nat by lia. apply drop_app_add.
Qed.

Lemma tunnel_pmtu_for_same slot x r y : tunnel_pmtu_for slot x = (r, y) ->
  pkt y = pkt x /\ ingress y = ingress x /\ maps y = maps x.
Proof.
  unfold tunnel_pmtu_for, bpf_ktime_get_ns. destruct (negb _); [by intros [= <- <-]|].
  destruct (_ =? 0); [by intros [= <- <-]|]. destruct (_ <? _); by intros [= <- <-].
Qed.

Lemma encap_fragment_outer_actions o len cfg mtu x :
  let r := encap_fragment_outer o len cfg mtu x in
  match r.1 with XDP_PASS => pkt r.2 = pkt x | XDP_ABORTED | frag_clones => True | _ => False end.
Proof.
  cbv zeta. unfold encap_fragment_outer. destruct (_ <=? 1); [done|]. destruct (_ || _); [done|].
  destruct (lookup_aftr_nexthop _ _ _) as [[fib|] w] eqn:Ef; [|by apply lookup_aftr_nexthop_inv in Ef as (Hw & _)].
  destruct (bpf_xdp_adjust_head _ _); [|done]. by destruct (_ || _).
Qed.

(** Either the fragmenter, with the packet clamped, or the softwire, or no
    further. *)
Lemma encapsulate_spec o slot cfg x : is_bytes (pkt x) -> ipv4_at (pkt x) o -> cfg_ok cfg ->
  let r := encapsulate o slot cfg x in
  match r.1 with
  | tx_port i => enters o slot cfg x i (pkt r.2)
  | frag_clones => exists mtu y, r = encap_fragment_outer o (ld16 (pkt x) (o + 2)) cfg mtu y /\
      pkt y = clamped cfg o (pkt x) /\ maps y = maps x /\ ingress y = ingress x /\
      mtu <= (bpf_check_mtu (WanIfindex (global cfg)) (TUNNEL_L3_OVERHEAD + ld16 (pkt x) (o + 2))).2 /\
      ((tunnel_pmtu_for slot x).1 = 0 \/ mtu <= (tunnel_pmtu_for slot x).1)
  | XDP_PASS => pkt r.2 = clamped cfg o (pkt x)
  | XDP_DROP => pkt r.2 = pkt x
  | XDP_ABORTED => True
  | _ => False
  end.
Proof.
  intros Hp (Ho & Hlen & Hl & H45) Hc. cbv zeta. unfold encapsulate, check_dev_mtu, enters.
  set (len := ld16 (pkt x) (o + 2)) in *.
  destruct (bpf_check_mtu _ _) as [ret mtu] eqn:Hchk. cbn [snd]. unfold BPF_MTU_CHK_RET_FRAG_NEEDED.
  destruct ((ret =? 0) || (ret =? 1)) eqn:Hret; cbv beta iota; rewrite <- negb_orb, Hret; cbn [negb]; [|done].
  destruct (tunnel_pmtu_for slot x) as [learned y] eqn:El. destruct (tunnel_pmtu_for_same _ _ _ _ El) as (Hy & Hyi & Hym).
  cbn [fst]. set (eff := if _ && _ then _ else _).
  assert (eff <= mtu /\ (learned = 0 \/ eff <= learned)) as [Hem Hel]
    by (unfold eff; destruct (Z.eqb_spec learned 0), (Z.ltb_spec learned mtu); cbn [negb andb]; lia).
  set (z := if MssClamp _ =? 0 then y else _).
  assert (pkt z = clamped cfg o (pkt x) /\ maps z = maps x /\ ingress z = ingress x) as (Hz & Hzm & Hzi).
  { rewrite <- Hym, <- Hyi. unfold z, clamped. rewrite Hy. destruct (MssClamp _ =? 0); [done|].
    destruct (clamp_tcp_mss (pkt x) o (u16 (MssClamp (global cfg)))) as [[|] p]; cbn; split_and!; done. }
  clearbody z. destruct (clamped_spec cfg o (pkt x) Hp ltac:(lia) ltac:(lia)) as (Hb & Hzl & Hj).
  set (p1 := clamped cfg o (pkt x)) in *.
  destruct ((ret =? 1) || (eff <? _)) eqn:Hbig.
  { destruct (encap_fragment_outer _ _ _ _ _) as [a w] eqn:Ef. cbn [fst snd].
    pose proof (encap_fragment_outer_actions o len cfg eff z) as Ha. rewrite Ef in Ha. cbn [fst snd] in Ha.
    destruct a; try done; [by rewrite Ha|]. exists eff, z. done. }
  apply orb_false_iff in Hbig as [Hr1 Hfit%Z.ltb_ge]. rewrite Hr1, orb_false_r in Hret. apply Z.eqb_eq in Hret as Hr0.
  rewrite Hz, (Hj (o + 8)) by lia. destruct (Z.leb_spec (at8 (pkt x) (o + 8)) 1) as [|Httl]; [done|].
  destruct (lookup_aftr_nexthop cfg len z) as [[fib|] w] eqn:Ef;
    apply lookup_aftr_nexthop_inv in Ef as (Hw & _ & _ & _ & _ & _ & Hf); [|by cbn; rewrite Hw].
  destruct (Hf fib eq_refl) as (q & -> & Hwan). rewrite Hw, Hz. change OUTER_HDR_LEN with 54.
  destruct (bpf_xdp_adjust_head _ _) as [p|] eqn:Eh; [|done]. apply head_grows in Eh as (h & Hh & _ & ->); [|lia].
  destruct (_ || _) eqn:Hbd; [done|]. apply orb_false_iff in Hbd as [Hbd _]. apply Z.ltb_ge in Hbd.
  cbn [fst snd redirect_to_ifindex leave pkt with_pkt increase_stats_count].
  split; [done|split; [done|split; [|split; [lia|]]]].
  { exists mtu. rewrite Hr0 in Hchk. split; [done|]. unfold len. lia. }
  exists q. split; [exact Hwan|]. unfold encapsulated. rewrite outer_written by (done || lia).
  destruct (fib_macs q 0) as (Hd & _ & Hs & _). destruct Hc as (H6 & _ & Hd6 & _).
  pose proof (ld16_range (pkt x) (o + 2) Hp) as Hr. fold len in Hr. rewrite (Z.mod_small len) by lia.
  set (fib := bpf_fib_lookup q 0) in *. set (he := ethhdr _ _ _). set (h6 := ipv6hdr _ _ _ _).
  assert (zlen (he ++ h6) = 54) as H54.
  { unfold he, h6. rewrite zlen_app, zlen_ethhdr, zlen_ipv6hdr by done. done. }
  assert (ld16 p1 (o + 2) = len) as Elen.
  { unfold ld16, len, ld16. f_equal. apply sub_ext; try lia. intros. apply Hj. lia. }
  rewrite Elen, (decrease_in_place h p1 o) by lia.
  rewrite !app_assoc.
  by rewrite decrease_ipv4_ttl_behind by (done || lia).
Qed.

Lemma encapsulated_header cfg q fl p o : cfg_ok cfg -> is_bytes p -> 0 <= o -> o + 20 <= zlen p -> 0 < at8 p o ->
  1 <= at8 p (o + 8) -> header_ok p o -> header_ok (encapsulated cfg (bpf_fib_lookup q fl) p o) 54.
Proof.
  intros (H6 & _ & Hd6 & _) Hp Ho Hl H45 Ht Hok. destruct (fib_macs q fl) as (Hd & _ & Hs & _).
  unfold encapsulated, header_ok. rewrite app_assoc, sub_app_r;
    rewrite zlen_app, zlen_ethhdr, zlen_ipv6hdr by done; [|done].
  rewrite sub_drop by lia. rewrite Z.add_comm. apply decrease_ipv4_ttl_ok; done.
Qed.

(** The configuration of the slot Migration.v picks. *)
Definition slot_of (o : Z) (x : X) : Z :=
  picked (ctrl (maps x)) (build_flow_key (pkt x) o false) (default 0 (head (clock x)))
    (affinity_full (affinity (maps x))) (affinity (maps x)).
Definition cfg_of (slot : Z) (x : X) : b4_config :=
  mkB4 (B4Addr (hop (hops (maps x)) slot)) (AftrAddr (hop (hops (maps x)) slot)) (b4cfg (maps x)).

(** A packet either stays out of the softwire or is encapsulated for its slot. *)
Lemma do_encap_cases x o : is_bytes (pkt x) -> parse_l2_ipv4 (pkt x) = Parsed o -> snap_ok (now_seen (maps x)) ->
  let slot := slot_of o x in
  let cfg := cfg_of slot x in
  let y := (pick_slot (get_migration_ctrl x) o x).2 in
  let r := do_xdp_dslite_encap x in
  (r.1 = XDP_PASS /\ pkt r.2 = pkt x) \/
  (is_Some (lans (maps x) !! ingress x) /\ is_non_unicast_dst (pkt x) o = false /\ is_local_lan_route o x = false /\
   endpoint (hops (maps x)) slot /\ cfg_ok cfg /\ pkt y = pkt x /\ r = encapsulate o slot cfg y).
Proof.
  intros Hp Hparse Hs. cbv zeta. unfold do_xdp_dslite_encap. rewrite Hparse. unfold get_lan_config.
  destruct (lans (maps x) !! ingress x) as [lan|] eqn:El; [|by left].
  destruct (is_non_unicast_dst _ _) eqn:Hu; cbn [orb]; [by left|].
  destruct (is_local_gateway_dst _ _ _); cbn [orb]; [by left|].
  destruct (is_local_lan_route o x) eqn:Hr; [by left|]. right.
  destruct (pick_slot _ _ _) as [slot y] eqn:Hpick. apply pick_slot_picked in Hpick as (Hslot & Hy & Hyi & Hyh & Hyb & _ & Hyl).
  fold (slot_of o x) in Hslot. subst slot.
  pose proof (picked_endpoint (now_seen (maps x)) (build_flow_key (pkt x) o false) (default 0 (head (clock x)))
    (affinity_full (affinity (maps x))) (affinity (maps x)) Hs) as He.
  change (endpoint (hops (maps x)) (slot_of o x)) in He.
  destruct (endpoint_cfg y (slot_of o x)) as (cfg & Hcfg & Hok & H6 & Ha & Hg);
    [by rewrite Hyh|by apply (slot_in_range (now_seen (maps x)))|].
  rewrite Hcfg. assert (cfg = cfg_of (slot_of o x) x) as ->.
  { destruct cfg. unfold cfg_of. cbn in *. congruence. }
  split_and!; done.
Qed.

(** C3: An IPv4 packet from the LAN goes into the softwire exactly once and
    right: what leaves out of the WAN is the Ethernet header to the resolved next hop,
    the IPv6 header from the B4 to the AFTR of the slot the migration picks for
    its flow, and the packet itself with its TTL one lower, its header checksum
    still verifying, link-layer and VLAN headers gone; and it fits both the
    WAN's MTU and the path MTU learned for that slot.  Packets for the LAN, for
    groups or from no managed LAN never enter, and a packet handed to the kernel
    is unchanged but for the MSS clamp. *)
Theorem encapsulation_sound x o : is_bytes (pkt x) -> parse_l2_ipv4 (pkt x) = Parsed o -> snap_ok (now_seen (maps x)) ->
  let slot := slot_of o x in
  let cfg := cfg_of slot x in
  let r := do_xdp_dslite_encap x in
  match r.1 with
  | tx_port i =>
    is_Some (lans (maps x) !! ingress x) /\ is_non_unicast_dst (pkt x) o = false /\ is_local_lan_route o x = false /\
    endpoint (hops (maps x)) slot /\
    enters o slot cfg (pick_slot (get_migration_ctrl x) o x).2 i (pkt r.2) /\
    (header_ok (pkt x) o -> header_ok (pkt r.2) 54)
  | frag_clones | XDP_ABORTED => True
  | XDP_PASS => pkt r.2 = pkt x \/ pkt r.2 = clamped cfg o (pkt x)
  | XDP_DROP => pkt r.2 = pkt x
  | _ => False
  end.
Proof.
  intros Hp Hparse Hs. cbv zeta. pose proof (parse_l2_ipv4_at _ _ Hp Hparse) as Hat.
  destruct (do_encap_cases x o Hp Hparse Hs) as [[Ea Hpk]|(Hlan & Hu & Hr & He & Hok & Hy & ->)]; [rewrite Ea; by left|].
  set (cfg := cfg_of _ _) in *. set (y := (pick_slot _ _ _).2) in *.
  pose proof (encapsulate_spec o (slot_of o x) cfg y) as Hsp. cbv zeta in Hsp. rewrite Hy in Hsp.
  specialize (Hsp Hp Hat Hok). destruct (encapsulate _ _ _ _) as [a w]. cbn [fst snd] in *.
  destruct a; try done; [by right|]. split_and!; try done.
  intros Hhok. destruct Hsp as (_ & Httl & _ & _ & q & _ & ->). rewrite Hy in *. destruct Hat as (Ho & Hlen & Hl & H45).
  destruct (clamped_spec cfg o (pkt x) Hp ltac:(lia) ltac:(lia)) as (Hb & Hzl & Hj).
  apply encapsulated_header; try done; rewrite ?Hj by lia; try lia. apply header_ok_clamped; (done || lia).
Qed.

End EncapFacts.

(** ** At concrete inputs *)

Lemma encapsulation_sound_witness :
  (@do_xdp_dslite_encap kernel_1 (x_up 8)).1 = tx_port 3 /\ header_ok (pkt (@do_xdp_dslite_encap kernel_1 (x_up 8)).2) 54.
Proof.
  assert ((@do_xdp_dslite_encap kernel_1 (x_up 8)).1 = tx_port 3) as E by (vm_compute; reflexivity).
  pose proof (@encapsulation_sound kernel_1 kernel_1_laws (x_up 8) 14) as Hw. cbv zeta in Hw. rewrite E in Hw.
  split; [exact E|]. apply Hw.
  - apply (bool_decide_unpack _). vm_compute. reflexivity.
  - vm_compute. reflexivity.
  - exact w_x_ok.
  - vm_compute. reflexivity.
Defined.
