(* ===== verification/Fragment.v ===== *)
(** The softwire's fragmentation (RFC 6333 section 5.3): encap_fragment_outer makes one
    oversized frame, each companion pair's program (emit_softwire_fragment) cuts
    one outer-IPv6 fragment out of its clone.  What a receiver reassembles from
    the fragments (RFC 8200 section 4.5, [reassemble]), in whatever order they arrive,
    is exactly the packet encapsulated whole. *)

From S2P Require Import Prelude Wire Netip Checksum Packet Stats Datapath Tcpmss Migration Xdp Icmp Ipv6fwd Encap.

Local Open Scope Z_scope.

(** ** The receiver *)

(** A fragment as its receiver reads it in a frame. *)
Record fragment : Type := mkFragment {
  fr_header : bytes;   (* the IPv6 header *)
  fr_next : Z;
  fr_id : bytes;
  fr_off : Z;          (* in bytes *)
  fr_more : bool;
  fr_data : bytes }.

Definition read_fragment (f : bytes) : option fragment :=
  let plen := ld16 f (14 + 4) in
  if negb (ld16 f 12 =? ETH_P_IPV6) || negb (nexthdr6 f 14 =? IPPROTO_FRAGMENT) || (plen <? 8) || (zlen f <? 54 + plen)
  then None
  else Some (mkFragment (sub f 14 40) (at8 f 54) (sub f 58 4) (Z.land (ld16 f 56) 0xfff8) (Z.testbit (ld16 f 56) 0)
               (sub f 62 (plen - 8))).

(** The data from [off] on, fragment after fragment up to the last. *)
Fixpoint collect (n : nat) (off : Z) (fs : list fragment) : option bytes :=
  match n with
  | O => None
  | S n' =>
    match list_find (fun f => fr_off f = off) fs with
    | None => None
    | Some (_, f) =>
      if fr_more f then (app (fr_data f)) <$> collect n' (off + zlen (fr_data f)) fs else Some (fr_data f)
    end
  end.

(** The packet the fragments of one identification make, if they are whole: the
    first one's header with its next header and its length put right, and the
    data. *)
Definition reassemble (frames : list bytes) : option bytes :=
  fs ← mapM read_fragment frames;
  match list_find (fun f => fr_off f = 0) fs with
  | None => None
  | Some (_, f0) =>
    if negb (forallb (fun f => bool_decide (fr_id f = fr_id f0) && bool_decide (sub (fr_header f) 8 32 = sub (fr_header f0) 8 32)) fs)
    then None
    else
      data ← collect (length fs) 0 fs;
      Some (put (put (fr_header f0) 4 (be 2 (zlen data))) 6 [fr_next f0] ++ data)
  end.

(** ** The frames *)

(** An IPv6 header with its flow label and payload length. *)
Definition ipv6hdr_flow (saddr daddr flow : bytes) (payload_len : Z) : bytes :=
  [0x60] ++ flow ++ be 2 payload_len ++ [IPPROTO_FRAGMENT; 64] ++ saddr ++ daddr.

(** The clone of a packet [d] of [total] bytes (anything after them is padding of
    the frame), and the frame of its fragment from [start] on. *)
Definition clone (eth s6 d6 id : bytes) (unit total : Z) (d : bytes) : bytes :=
  eth ++ ipv6hdr_flow s6 d6 [0; u8 (Z.shiftr unit 8); u8 unit] (total + 8) ++ frag_hdr IPPROTO_IPIP 1 id ++ d.
Definition fragment_frame (eth s6 d6 id : bytes) (len frag_off : Z) (d : bytes) : bytes :=
  eth ++ ipv6hdr_flow s6 d6 [0; 0; 0] (len + 8) ++ frag_hdr IPPROTO_IPIP frag_off id ++ d.

(** Where the parts of a frame are. *)
Section Parts.
Context (a b c d : bytes) (Ha : zlen a = 14) (Hb : zlen b = 40) (Hc : zlen c = 8).

Lemma part_a i n : 0 <= i -> i + n <= 14 -> sub (a ++ b ++ c ++ d) i n = sub a i n.
Proof using Ha. intros. apply sub_app_l; lia. Qed.
Lemma part_b i n : 14 <= i -> i + n <= 54 -> sub (a ++ b ++ c ++ d) i n = sub b (i - 14) n.
Proof using Ha Hb. intros. rewrite sub_app_r, Ha by lia. apply sub_app_l; lia. Qed.
Lemma part_c i n : 54 <= i -> i + n <= 62 -> sub (a ++ b ++ c ++ d) i n = sub c (i - 54) n.
Proof using Ha Hb Hc.
  intros. rewrite sub_app_r, Ha, sub_app_r, Hb by lia. replace (i - 14 - 40) with (i - 54) by lia. apply sub_app_l; lia.
Qed.
Lemma part_d i n : 62 <= i -> sub (a ++ b ++ c ++ d) i n = sub d (i - 62) n.
Proof using Ha Hb Hc.
  intros. rewrite sub_app_r, Ha, sub_app_r, Hb, sub_app_r, Hc by lia. f_equal. lia.
Qed.
Lemma part_b8 i : 14 <= i < 54 -> at8 (a ++ b ++ c ++ d) i = at8 b (i - 14).
Proof using Ha Hb.
  intros. replace i with (zlen a + (i - 14)) at 1 by lia. rewrite at8_app_r, at8_app_l by lia. done.
Qed.
Lemma part_c8 i : 54 <= i < 62 -> at8 (a ++ b ++ c ++ d) i = at8 c (i - 54).
Proof using Ha Hb Hc.
  intros. replace i with (zlen a + (zlen b + (i - 54))) at 1 by lia. rewrite !at8_app_r, at8_app_l by lia. done.
Qed.
Lemma part_b16 i : 14 <= i -> i + 2 <= 54 -> ld16 (a ++ b ++ c ++ d) i = ld16 b (i - 14).
Proof using Ha Hb. intros. unfold ld16. by rewrite part_b by lia. Qed.
Lemma part_c16 i : 54 <= i -> i + 2 <= 62 -> ld16 (a ++ b ++ c ++ d) i = ld16 c (i - 54).
Proof using Ha Hb Hc. intros. unfold ld16. by rewrite part_c by lia. Qed.
Lemma part_len : zlen (a ++ b ++ c ++ d) = 62 + zlen d.
Proof using Ha Hb Hc. rewrite !zlen_app. lia. Qed.

(** The three headers over another frame's first 62 bytes. *)
Lemma parts_written q : 62 <= zlen q ->
  put (put (put q 0 a) 14 b) 54 c = a ++ b ++ c ++ drop 62 q.
Proof using Ha Hb Hc.
  intros Hq. rewrite put_0, put_end by done. rewrite app_assoc, put_end by (rewrite zlen_app; lia).
  rewrite <- !app_assoc. do 3 f_equal. rewrite !drop_drop. f_equal. unfold zlen in *. lia.
Qed.
End Parts.

(** The fields of the two headers. *)
Lemma ipv6hdr_flow_parts s6 d6 f0 f1 f2 len : zlen s6 = 16 -> zlen d6 = 16 -> 0 <= len < 2 ^ 16 ->
  let h := ipv6hdr_flow s6 d6 [f0; f1; f2] len in
  zlen h = 40 /\ at8 h 0 = 0x60 /\ at8 h 2 = f1 /\ at8 h 3 = f2 /\ ld16 h 4 = len /\ at8 h 6 = IPPROTO_FRAGMENT /\
  sub h 8 32 = s6 ++ d6.
Proof.
  intros Hs Hd Hl h. unfold h, ipv6hdr_flow.
  split; [rewrite !zlen_app, zlen_be, Hs, Hd; done|].
  split; [done|split; [done|split; [done|split; [|split; [done|]]]]].
  - change (ld16 _ 4) with (unbe (be 2 len)). by apply unbe_be_id.
  - change (be 2 len) with [u8 (Z.shiftr len 8); u8 (Z.shiftr len 0)].
    rewrite (app_assoc [96]), (app_assoc (_ ++ _) [_; _]), (app_assoc ((_ ++ _) ++ _) [_; _]), sub_app_r by done.
    apply sub_all. rewrite zlen_app, Hs, Hd. done.
Qed.

Lemma frag_hdr_parts nh off id : zlen id = 4 -> 0 <= off < 2 ^ 16 ->
  let h := frag_hdr nh off id in zlen h = 8 /\ at8 h 0 = nh /\ ld16 h 2 = off /\ sub h 4 4 = id.
Proof.
  intros Hi Ho h. unfold h, frag_hdr. split; [by rewrite !zlen_app, zlen_be, Hi|].
  split; [done|split].
  - change (ld16 _ 2) with (unbe (be 2 off)). by apply unbe_be_id.
  - change (be 2 off) with [u8 (Z.shiftr off 8); u8 (Z.shiftr off 0)].
    rewrite (app_assoc [nh; 0]), sub_app_r by done. by apply sub_all.
Qed.

(** ** One clone *)

Section Emit.
Context `{Kernel, !KernelLaws}.

(** The clone as encap_fragment_outer leaves it. *)
Record clone_ok (eth s6 d6 id : bytes) (unit total : Z) (d : bytes) : Prop := mkCloneOk {
  ck_eth : zlen eth = 14; ck_proto : ld16 eth 12 = ETH_P_IPV6;
  ck_s6 : zlen s6 = 16; ck_d6 : zlen d6 = 16; ck_id : zlen id = 4;
  ck_unit : 8 <= unit <= 0xffff; ck_mod : unit mod 8 = 0;
  ck_total : 20 <= total <= 65527; ck_data : total <= zlen d }.

(** The fragment from [start] on: how long, and whether more follow. *)
Definition frag_len (unit total start : Z) : Z := Z.min unit (total - start).
Definition frag_more (unit total start : Z) : bool := unit <? total - start.
Definition frag_word (unit total start : Z) : Z := start + (if frag_more unit total start then 1 else 0).

Lemma unit_label unit : 8 <= unit <= 0xffff -> unit mod 8 = 0 ->
  Z.ldiff (Z.lor (Z.shiftl (u8 (Z.shiftr unit 8)) 8) (u8 unit)) 7 = unit.
Proof.
  intros Hu Hm. pose proof (split16 unit ltac:(lia)) as (_ & Hb & E). unfold is_byte in Hb.
  pose proof (is_byte_u8 unit) as Hu8. unfold is_byte in Hu8.
  rewrite lor_shiftl_add by lia. replace (_ * 2 ^ 8 + _) with unit by lia. rewrite ldiff_7 by lia.
  pose proof (Z.div_mod unit 8 ltac:(lia)). lia.
Qed.

Lemma start_word start (last : bool) : start mod 8 = 0 -> 0 <= start ->
  Z.lor start (if last then 0 else 1) = start + (if last then 0 else 1).
Proof.
  intros Hm Hs. destruct last; [by rewrite Z.lor_0_r, Z.add_0_r|].
  replace start with (Z.shiftl (start / 2) 1).
  2: { rewrite Z.shiftl_mul_pow2 by lia. change (2 ^ 1) with 2. Z.div_mod_to_equations. lia. }
  rewrite lor_shiftl_add by lia. rewrite Z.shiftl_mul_pow2 by lia. done.
Qed.

Lemma emit_clone idx x eth s6 d6 id unit total d : clone_ok eth s6 d6 id unit total d ->
  0 <= idx < MAX_SOFTWIRE_FRAGS -> pkt x = clone eth s6 d6 id unit total d -> WanIfindex (b4cfg (maps x)) <> 0 ->
  let r := emit_softwire_fragment idx x in
  let start := idx * unit in
  r.1 <> XDP_ABORTED ->
  if total <=? start then r.1 = XDP_DROP
  else r.1 = tx_port (WanIfindex (b4cfg (maps x))) /\
    exists rest, pkt r.2 = fragment_frame eth s6 d6 id (frag_len unit total start) (frag_word unit total start)
                             (sub d start (frag_len unit total start) ++ rest).
Proof.
  intros [He Hpr Hs6 Hd6 Hid Hu Hm Ht Hd] Hi Hp Hw. unfold MAX_SOFTWIRE_FRAGS in Hi. cbv zeta. unfold emit_softwire_fragment.
  destruct (ipv6hdr_flow_parts s6 d6 0 (u8 (Z.shiftr unit 8)) (u8 unit) (total + 8) Hs6 Hd6 ltac:(lia))
    as (Hb & Hb0 & Hb2 & Hb3 & Hb4 & Hb6 & Hb8).
  destruct (frag_hdr_parts IPPROTO_IPIP 1 id Hid ltac:(lia)) as (Hc & Hc0 & Hc2 & Hc4).
  unfold clone in Hp. set (b := ipv6hdr_flow _ _ _ _) in *. set (c := frag_hdr _ _ _) in *.
  set (p := eth ++ b ++ c ++ d) in *. assert (zlen p = 62 + zlen d) as Hl by (unfold p; by apply part_len).
  change OUTER_HDR_LEN with 54. change OUTER_ETH_LEN with 14. change OUTER_IPV6_LEN with 40. change FRAG_HDR_LEN with 8. rewrite Hp.
  assert (ld16 p (14 + 4) = total + 8) as Hplen by (unfold p; by rewrite part_b16 by lia).
  assert (parse_l2_ipv6 p = Parsed 14) as ->.
  { unfold parse_l2_ipv6. rewrite (proj2 (Z.ltb_ge _ 14)) by lia.
    assert (ld16 p 12 = ETH_P_IPV6) as -> by (unfold p; unfold ld16; by rewrite part_a by lia). cbn [negb Z.eqb].
    assert (at8 p 14 = 0x60) as -> by (unfold p; by rewrite part_b8 by lia).
    rewrite (proj2 (Z.ltb_ge _ (14 + 40))), Hplen, (proj2 (Z.ltb_ge _ (14 + 40 + _))) by lia. done. }
  rewrite bool_decide_true by done. unfold nexthdr6.
  assert (at8 p (14 + 6) = IPPROTO_FRAGMENT) as -> by (unfold p; by rewrite part_b8 by lia). cbn [negb orb Z.eqb].
  change (negb (IPPROTO_FRAGMENT =? IPPROTO_FRAGMENT)) with false. cbn [orb].
  rewrite (proj2 (Z.ltb_ge (zlen p) _)), Hplen, (proj2 (Z.ltb_ge (total + 8) _)) by lia.
  rewrite (proj2 (Z.eqb_neq _ _) Hw).
  assert (at8 p (14 + 2) = u8 (Z.shiftr unit 8)) as -> by (unfold p; by rewrite part_b8 by lia).
  assert (at8 p (14 + 3) = u8 unit) as -> by (unfold p; by rewrite part_b8 by lia).
  rewrite unit_label, (proj2 (Z.ltb_ge unit 8)), (proj2 (Z.ltb_ge 0xffff unit)) by (done || lia). cbn [orb].
  rewrite (Z.mod_small (idx * unit)) by nia. replace (total + 8 - 8) with total by lia.
  set (start := idx * unit) in *. assert (0 <= start) by (unfold start; nia).
  assert (start mod 8 = 0) as Hsm by (unfold start; by rewrite Z.mul_mod, Hm, Z.mul_0_r by lia).
  destruct (Z.leb_spec total start) as [|Hst]; [done|].
  replace (if unit <? total - start then unit else total - start) with (frag_len unit total start)
    by (unfold frag_len; destruct (Z.ltb_spec unit (total - start)); lia).
  set (len := frag_len unit total start). assert (0 < len <= total - start) as Hlen by (unfold len, frag_len; lia).
  assert (start + len <= total) by lia.
  destruct (if 0 <? start then _ else _) as [p1|] eqn:E1; [|done].
  assert (p1 = drop (Z.to_nat start) p /\ start <= zlen p) as [-> Hsl].
  { destruct (Z.ltb_spec 0 start); [by apply head_shrinks in E1 as [? ->]; [|lia]|].
    assert (start = 0) as -> by lia. simplify_eq. split; [by rewrite drop_0|lia]. }
  clear E1. set (trim := total - start - len). assert (0 <= trim) as Htr by (unfold trim; lia).
  destruct (if 0 <? trim then _ else _) as [p2|] eqn:E2; [|done].
  assert (p2 = take (Z.to_nat (zlen p - start - trim)) (drop (Z.to_nat start) p)) as ->.
  { assert (zlen (drop (Z.to_nat start) p) = zlen p - start) as Hz by (rewrite zlen_drop; lia).
    destruct (Z.ltb_spec 0 trim).
    - apply tail_shrinks in E2 as [_ ->]; [|lia]. rewrite Hz. done.
    - simplify_eq. rewrite take_ge; [done|]. unfold zlen in *. lia. }
  clear E2. set (q := take _ _). assert (zlen q = zlen p - start - trim) as Hq.
  { unfold q. rewrite zlen_take, zlen_drop. lia. }
  rewrite (proj2 (Z.ltb_ge (zlen q) _)) by (unfold trim in *; lia). intros _.
  cbn [fst snd redirect_to_ifindex leave pkt with_pkt increase_stats_count]. split; [done|].
  assert (sub p 0 14 = eth) as -> by (unfold p; rewrite part_a by lia; by apply sub_all).
  assert (sub p 14 40 = b) as -> by (unfold p; rewrite part_b by lia; by apply sub_all).
  assert (sub p 54 8 = c) as -> by (unfold p; rewrite part_c by lia; by apply sub_all).
  assert (frag_word unit total start = Z.lor start (if negb (unit <? total - start) then 0 else 1)) as Hword.
  { rewrite start_word by done. unfold frag_word, frag_more. by destruct (unit <? total - start). }
  rewrite <- Hword, (Z.mod_small (len + 8)), (Z.mod_small (frag_word unit total start))
    by (unfold frag_word, frag_more; try destruct (unit <? total - start); lia).
  assert (put (put b 1 [0; 0; 0]) 4 (be 2 (len + 8)) = ipv6hdr_flow s6 d6 [0; 0; 0] (len + 8)) as ->.
  { unfold b, ipv6hdr_flow. change (be 2 (total + 8)) with [u8 (Z.shiftr (total + 8) 8); u8 (Z.shiftr (total + 8) 0)].
    change (be 2 (len + 8)) with [u8 (Z.shiftr (len + 8) 8); u8 (Z.shiftr (len + 8) 0)]. done. }
  assert (put c 2 (be 2 (frag_word unit total start)) = frag_hdr IPPROTO_IPIP (frag_word unit total start) id) as ->.
  { unfold c, frag_hdr. change (be 2 (frag_word unit total start)) with
      [u8 (Z.shiftr (frag_word unit total start) 8); u8 (Z.shiftr (frag_word unit total start) 0)]. done. }
  destruct (ipv6hdr_flow_parts s6 d6 0 0 0 (len + 8) Hs6 Hd6 ltac:(lia)) as (Hb' & _).
  destruct (frag_hdr_parts IPPROTO_IPIP (frag_word unit total start) id Hid) as (Hc' & _).
  { unfold frag_word. destruct (frag_more _ _ _); lia. }
  rewrite parts_written by (done || (unfold trim in *; lia)). unfold fragment_frame.
  exists (drop (Z.to_nat len) (drop 62 q)). do 3 f_equal. rewrite <- (take_drop (Z.to_nat len) (drop 62 q)) at 1. f_equal.
  assert (drop 62 p = d) as Hd62.
  { unfold p. rewrite !app_assoc. replace 62%nat with (length ((eth ++ b) ++ c)).
    - by rewrite drop_app_length.
    - pose proof (eq_refl : zlen ((eth ++ b) ++ c) = zlen ((eth ++ b) ++ c)) as Ez. unfold zlen in *. rewrite !length_app. lia. }
  unfold q, sub. rewrite take_drop_commute, take_take, Nat.min_l by (unfold trim; lia).
  rewrite <- take_drop_commute, <- Hd62, !drop_drop. do 2 f_equal. lia.
Qed.

(** The frame all the clones are copies of. *)
Lemma encap_fragment_clone o len cfg mtu x y : encap_fragment_outer o len cfg mtu x = (frag_clones, y) ->
  14 <= o <= 22 -> 20 <= len -> o + len <= zlen (pkt x) -> cfg_ok cfg -> FragMaxInner (global cfg) <= 65527 ->
  0 <= FragUnit (global cfg) -> mtu <= 65535 ->
  let unit := Z.ldiff (FragUnit (global cfg)) 7 in
  maps y = maps x /\ 1 < at8 (pkt x) (o + 8) /\ unit + 48 <= mtu /\ len <= MAX_SOFTWIRE_FRAGS * unit /\
  exists q id, pkt y = clone (ethhdr (f_dmac (bpf_fib_lookup q 0)) (f_smac (bpf_fib_lookup q 0)) ETH_P_IPV6)
                         (b4_addr cfg) (aftr_addr cfg) id unit len (drop (Z.to_nat o) (decrease_ipv4_ttl (pkt x) o)) /\
    clone_ok (ethhdr (f_dmac (bpf_fib_lookup q 0)) (f_smac (bpf_fib_lookup q 0)) ETH_P_IPV6)
      (b4_addr cfg) (aftr_addr cfg) id unit len (drop (Z.to_nat o) (decrease_ipv4_ttl (pkt x) o)).
Proof.
  intros E Ho Hlen Hl Hc Hmax Hunit Hmtu. cbv zeta. unfold encap_fragment_outer in E.
  destruct (Z.leb_spec (at8 (pkt x) (o + 8)) 1) as [|Httl]; [done|]. set (unit := Z.ldiff (FragUnit (global cfg)) 7) in *.
  unfold MAX_SOFTWIRE_FRAGS, OUTER_IPV6_LEN, FRAG_HDR_LEN in *. destruct (_ || negb (frag_port 0)) eqn:Eg; [done|].
  rewrite !orb_false_iff, Z.eqb_neq, !Z.ltb_ge in Eg. destruct Eg as ((((Hu0 & Hu4) & Hum) & Hufit) & _).
  assert (unit = FragUnit (global cfg) / 8 * 8) as Hu by (unfold unit; by apply ldiff_7).
  assert (0 <= FragUnit (global cfg) / 8) by (apply Z.div_pos; lia). rewrite (Z.mod_small (4 * unit)) in Hu4 by lia.
  assert (unit mod 8 = 0) as Hum8 by (rewrite Hu; by apply Z.mod_mul).
  destruct (lookup_aftr_nexthop _ _ _) as [[fib|] w] eqn:Ef; [|done].
  apply lookup_aftr_nexthop_inv in Ef as (Hw & Hwm & _ & _ & _ & _ & Hf). destruct (Hf fib eq_refl) as (q & -> & _).
  change OUTER_HDR_LEN with 54 in E. change OUTER_ETH_LEN with 14 in E. change (54 + 8) with 62 in E. rewrite Hw in E.
  destruct (bpf_xdp_adjust_head _ _) as [p|] eqn:Eh; [|done]. apply head_grows in Eh as (h & Hh & _ & ->); [|lia].
  destruct (_ || _) eqn:Hbd; [done|]. cbn [draw] in E. injection E as <-. cbn [maps pkt with_pkt leave increase_stats_count].
  split; [done|]. split; [done|]. split; [lia|]. split; [lia|].
  destruct (fib_macs q 0) as (Hd & _ & Hs & _). destruct Hc as (H6 & H6b & Hd6 & Hd6b).
  exists q, (raw32 (bpf_get_prandom_u32 (draws w))). set (id := raw32 _).
  assert (zlen id = 4) as Hid.
  { unfold id, raw32, zlen. destruct little_endian; [rewrite length_rev|]; by rewrite length_be. }
  pose proof (zlen_ethhdr _ _ ETH_P_IPV6 Hd Hs) as He. set (eth := ethhdr _ _ _) in *.
  split.
  - change 14 with OUTER_ETH_LEN at 3. rewrite outer_written by (rewrite ?zlen_app; done || lia). fold eth.
    rewrite (Z.mod_small (len + 8)) by lia. set (h6 := ipv6hdr _ _ _ _).
    assert (zlen h6 = 40) as Hh6 by (unfold h6; by apply zlen_ipv6hdr).
    set (v1 := [u8 (Z.shiftr unit 8)]). set (v2 := [u8 unit]). assert (zlen v1 = 1 /\ zlen v2 = 1) as [Hv1 Hv2] by done.
    assert (zlen (put h6 2 v1) = 40) as Hh6' by (rewrite zlen_put; lia).
    change OUTER_ETH_LEN with 14. rewrite <- He, !put_app_r, (put_app_l h6), (put_app_l (put h6 2 v1)) by lia.
    assert (put (put h6 2 v1) 3 v2 =
      ipv6hdr_flow (b4_addr cfg) (aftr_addr cfg) [0; u8 (Z.shiftr unit 8); u8 unit] (len + 8)) as ->.
    { unfold h6, ipv6hdr, ipv6hdr_flow. change (be 2 (len + 8)) with [u8 (Z.shiftr (len + 8) 8); u8 (Z.shiftr (len + 8) 0)]. done. }
    destruct (ipv6hdr_flow_parts (b4_addr cfg) (aftr_addr cfg) 0 (u8 (Z.shiftr unit 8)) (u8 unit) (len + 8) H6 Hd6 ltac:(lia)) as (Hb & _).
    set (b := ipv6hdr_flow _ _ _ _) in *. rewrite app_assoc, put_end by (rewrite zlen_app; lia).
    destruct (frag_hdr_parts IPPROTO_IPIP 1 id Hid ltac:(lia)) as (Hc & _). set (c := frag_hdr _ _ _) in *.
    assert (drop (length c) (drop 54 (h ++ pkt x)) = drop (Z.to_nat o) (pkt x)) as ->.
    { rewrite drop_drop. unfold zlen in *. replace (54 + length c)%nat with (length h + Z.to_nat o)%nat by lia. apply drop_app_add. }
    rewrite (app_assoc (eth ++ b)), decrease_ipv4_ttl_behind by (rewrite ?zlen_app; lia).
    unfold clone. fold b c. by rewrite <- !app_assoc.
  - split; try done; try lia.
    + unfold eth, ethhdr, ld16. rewrite app_assoc, sub_app_r by (rewrite zlen_app; lia).
      rewrite zlen_app, Hd, Hs. done.
    + rewrite zlen_drop, zlen_decrease_ipv4_ttl by lia. lia.
Qed.

End Emit.

(** ** Reassembly *)

Section Reassembly.
Context (eth s6 d6 id : bytes) (unit total : Z) (d : bytes) (Hok : clone_ok eth s6 d6 id unit total d).

(** The fragment from [start] on, as it is read. *)
Definition frag_at (start : Z) : fragment :=
  mkFragment (ipv6hdr_flow s6 d6 [0; 0; 0] (frag_len unit total start + 8)) IPPROTO_IPIP id start
    (frag_more unit total start) (sub d start (frag_len unit total start)).

Lemma read_frame start rest : start mod 8 = 0 -> 0 <= start < total ->
  read_fragment (fragment_frame eth s6 d6 id (frag_len unit total start) (frag_word unit total start)
                   (sub d start (frag_len unit total start) ++ rest)) = Some (frag_at start).
Proof using Hok.
  destruct Hok as [He Hpr Hs6 Hd6 Hid Hu Hm Ht Hd]. intros Hsm Hs. unfold read_fragment, frag_at, fragment_frame.
  assert (0 < frag_len unit total start /\ start + frag_len unit total start <= total) as [Hl0 Hl] by (unfold frag_len; lia).
  set (len := frag_len unit total start) in *. set (w := frag_word unit total start).
  assert (w = start + (if frag_more unit total start then 1 else 0)) as Hw by done.
  assert (0 <= w < 2 ^ 16) as Hwr by (rewrite Hw; destruct (frag_more _ _ _); lia).
  destruct (ipv6hdr_flow_parts s6 d6 0 0 0 (len + 8) Hs6 Hd6 ltac:(lia)) as (Hb & _ & _ & _ & Hb4 & Hb6 & _).
  destruct (frag_hdr_parts IPPROTO_IPIP w id Hid Hwr) as (Hc & Hc0 & Hc2 & Hc4).
  set (b := ipv6hdr_flow _ _ _ _) in *. set (c := frag_hdr _ _ _) in *. set (da := sub d start len ++ rest).
  assert (zlen (sub d start len) = len) as Hsl by (apply zlen_sub; lia).
  assert (len <= zlen da) as Hda by (unfold da; rewrite zlen_app; pose proof (zlen_nonneg rest); lia).
  assert (ld16 (eth ++ b ++ c ++ da) 12 = ETH_P_IPV6) as -> by (unfold ld16; by rewrite part_a by lia).
  rewrite part_b16 by (done || lia). change (14 + 4 - 14) with 4. rewrite Hb4. unfold nexthdr6.
  rewrite part_b8 by (done || lia). change (14 + 6 - 14) with 6. rewrite Hb6.
  rewrite part_len, !Z.eqb_refl, (proj2 (Z.ltb_ge (len + 8) 8)), (proj2 (Z.ltb_ge (62 + zlen da) _)) by (done || lia).
  cbn [negb orb]. rewrite part_b, part_c8, part_c, part_c16, part_d by (done || lia).
  change (14 - 14) with 0. change (54 - 54) with 0. change (58 - 54) with 4. change (56 - 54) with 2. change (62 - 62) with 0.
  rewrite Hc0, Hc4, Hc2. replace (len + 8 - 8) with len by lia. rewrite (sub_all b) by done.
  assert (Z.land w 0xfff8 = start /\ Z.testbit w 0 = frag_more unit total start) as [-> ->].
  { assert (Z.land w 0xfff8 = Z.ldiff w 7) as ->.
    { apply Z.bits_inj'. intros n Hn. rewrite Z.land_spec, Z.ldiff_spec. change 0xfff8 with (Z.ldiff (Z.ones 16) 7).
      rewrite Z.ldiff_spec. destruct (decide (n < 16)).
      - rewrite Z.ones_spec_low by lia. done.
      - rewrite Z.ones_spec_high, (testbit_above w 16 n) by lia. done. }
    rewrite ldiff_7, Hw by lia. pose proof (Z.div_mod start 8 ltac:(lia)) as Hdm.
    destruct (frag_more _ _ _).
    - split; [|rewrite Z.bit0_odd, Z.odd_add, <- Z.bit0_odd].
      + rewrite <- (Z.div_unique (start + 1) 8 (start / 8) 1); lia.
      + replace start with (2 * (4 * (start / 8))) by lia. by rewrite Z.testbit_even_0.
    - rewrite Z.add_0_r. split; [lia|]. replace start with (2 * (4 * (start / 8))) by lia. by rewrite Z.testbit_even_0. }
  unfold da. rewrite sub_app_l, (sub_all (sub d start len)) by lia. done.
Qed.

(** A list of fragments of this packet, all of them there. *)
Definition whole (fs : list fragment) : Prop :=
  (forall i, 0 <= i -> i * unit < total -> frag_at (i * unit) ∈ fs) /\
  (forall f, f ∈ fs -> exists i, 0 <= i /\ i * unit < total /\ f = frag_at (i * unit)).

Lemma whole_find fs i : whole fs -> 0 <= i -> i * unit < total ->
  exists j, list_find (fun f => fr_off f = i * unit) fs = Some (j, frag_at (i * unit)).
Proof using Hok.
  intros [Hin Hall] Hi Ht.
  destruct (list_find_elem_of (fun f => fr_off f = i * unit) fs _ (Hin i Hi Ht) eq_refl) as [[j f] Ef].
  exists j. rewrite Ef. apply list_find_Some in Ef as (Hf & Hoff & _). apply list_elem_of_lookup_2, Hall in Hf as (k & _ & _ & ->).
  cbn in Hoff. by rewrite Hoff.
Qed.

Lemma collect_whole fs n i : whole fs -> 0 <= i -> i * unit < total -> total - i * unit <= Z.of_nat n * unit ->
  collect n (i * unit) fs = Some (sub d (i * unit) (total - i * unit)).
Proof using Hok.
  intros Hw. pose proof (ck_data _ _ _ _ _ _ _ Hok) as Hd. pose proof (ck_unit _ _ _ _ _ _ _ Hok) as Hu.
  revert i. induction n as [|n IH]; intros i Hi Ht Hn; [lia|]. cbn [collect].
  destruct (whole_find fs i Hw Hi Ht) as [j ->]. cbn [frag_at fr_more fr_data]. unfold frag_more, frag_len.
  destruct (Z.ltb_spec unit (total - i * unit)) as [Hlt|Hge].
  - rewrite Z.min_l, zlen_sub by lia. replace (i * unit + unit) with ((i + 1) * unit) by lia.
    rewrite IH by lia. cbn [fmap option_fmap option_map]. f_equal.
    replace (total - i * unit) with (unit + (total - (i + 1) * unit)) by lia.
    rewrite sub_split by lia. do 2 f_equal. lia.
  - rewrite Z.min_r by lia. done.
Qed.

Lemma reassemble_whole frames fs : whole fs -> mapM read_fragment frames = Some fs ->
  total <= Z.of_nat (length fs) * unit ->
  reassemble frames = Some (ipv6hdr s6 d6 IPPROTO_IPIP total ++ sub d 0 total).
Proof using Hok.
  intros Hw Hfs Hlen. pose proof (ck_unit _ _ _ _ _ _ _ Hok) as Hu. pose proof (ck_total _ _ _ _ _ _ _ Hok) as Ht.
  pose proof (ck_data _ _ _ _ _ _ _ Hok) as Hd.
  unfold reassemble. rewrite Hfs. cbn [mbind option_bind].
  destruct (whole_find fs 0 Hw ltac:(lia) ltac:(lia)) as [j Hj]. rewrite Z.mul_0_l in Hj. rewrite Hj.
  assert (forallb (fun f => bool_decide (fr_id f = fr_id (frag_at 0)) &&
    bool_decide (sub (fr_header f) 8 32 = sub (fr_header (frag_at 0)) 8 32)) fs = true) as ->.
  { apply forallb_forall. intros f Hf%list_elem_of_In. apply (proj2 Hw) in Hf as (k & Hk & Hkt & ->). cbn [frag_at fr_id fr_header].
    rewrite bool_decide_true by done. cbn [andb]. apply bool_decide_eq_true.
    pose proof (ck_s6 _ _ _ _ _ _ _ Hok) as H6. pose proof (ck_d6 _ _ _ _ _ _ _ Hok) as Hd6.
    destruct (ipv6hdr_flow_parts s6 d6 0 0 0 (frag_len unit total (k * unit) + 8) H6 Hd6) as (_ & _ & _ & _ & _ & _ & ->);
      [unfold frag_len; lia|].
    destruct (ipv6hdr_flow_parts s6 d6 0 0 0 (frag_len unit total 0 + 8) H6 Hd6) as (_ & _ & _ & _ & _ & _ & ->);
      [unfold frag_len; lia|]. done. }
  cbn [negb]. pose proof (collect_whole fs (length fs) 0 Hw ltac:(lia) ltac:(lia) ltac:(lia)) as Hc.
  rewrite Z.mul_0_l, Z.sub_0_r in Hc. rewrite Hc. cbn [frag_at fr_header fr_next mbind option_bind].
  rewrite zlen_sub by lia. unfold ipv6hdr_flow, ipv6hdr.
  change (be 2 (frag_len unit total 0 + 8)) with
    [u8 (Z.shiftr (frag_len unit total 0 + 8) 8); u8 (Z.shiftr (frag_len unit total 0 + 8) 0)].
  change (be 2 total) with [u8 (Z.shiftr total 8); u8 (Z.shiftr total 0)]. done.
Qed.

End Reassembly.

(** ** The fragments of one packet *)

Section Fragments.
Context `{Kernel, !KernelLaws}.

(** What a program put on the wire. *)
Definition sent_frame (r : action * X) : option bytes :=
  match r.1 with tx_port _ => Some (pkt r.2) | _ => None end.

(** The four companions' programs, each at its own state. *)
Definition companions (xs : Z -> X) : list (action * X) :=
  (fun i => emit_softwire_fragment i (xs i)) <$> [0; 1; 2; 3].

Lemma mapM_all {A B} (f : A -> option B) (g : A -> B) l : (forall a, a ∈ l -> f a = Some (g a)) -> mapM f l = Some (g <$> l).
Proof.
  induction l as [|a l IH]; intros Hf; [done|]. cbn [mapM].
  rewrite (Hf a) by by left. cbn. rewrite IH; [done|]. intros b Hb. apply Hf. by right.
Qed.

(** The indices that yield a fragment. *)
Lemma cloned xs eth s6 d6 id unit total d wan : clone_ok eth s6 d6 id unit total d -> wan <> 0 -> total <= 4 * unit ->
  (forall i, 0 <= i < MAX_SOFTWIRE_FRAGS -> pkt (xs i) = clone eth s6 d6 id unit total d /\
     WanIfindex (b4cfg (maps (xs i))) = wan /\ (emit_softwire_fragment i (xs i)).1 <> XDP_ABORTED) ->
  (forall r, r ∈ companions xs -> r.1 = XDP_DROP \/ r.1 = tx_port wan) /\
  (forall f, f ∈ omap sent_frame (companions xs) -> exists i, 0 <= i /\ i * unit < total /\
     read_fragment f = Some (frag_at s6 d6 id unit total d (i * unit))) /\
  (forall i, 0 <= i -> i * unit < total -> exists f, f ∈ omap sent_frame (companions xs) /\
     read_fragment f = Some (frag_at s6 d6 id unit total d (i * unit))) /\
  total <= Z.of_nat (length (omap sent_frame (companions xs))) * unit.
Proof.
  intros Hok Hwan Htot Hxs. pose proof (ck_unit _ _ _ _ _ _ _ Hok) as Hu. pose proof (ck_mod _ _ _ _ _ _ _ Hok) as Hm.
  unfold MAX_SOFTWIRE_FRAGS in Hxs.
  assert (forall i, 0 <= i < 4 ->
    if total <=? i * unit then (emit_softwire_fragment i (xs i)).1 = XDP_DROP
    else (emit_softwire_fragment i (xs i)).1 = tx_port wan /\
      read_fragment (pkt (emit_softwire_fragment i (xs i)).2) = Some (frag_at s6 d6 id unit total d (i * unit))) as He.
  { intros i Hi. destruct (Hxs i Hi) as (Hp & Hw & Hna).
    pose proof (emit_clone i (xs i) _ _ _ _ _ _ _ Hok ltac:(unfold MAX_SOFTWIRE_FRAGS; lia) Hp ltac:(by rewrite Hw) Hna) as He.
    cbv zeta in He. destruct (Z.leb_spec total (i * unit)); [done|]. destruct He as [-> [rest ->]].
    split; [by rewrite Hw|]. eapply read_frame; [exact Hok|by rewrite Z.mul_mod, Hm, Z.mul_0_r by lia|nia]. }
  assert (forall i, 0 <= i < 4 -> sent_frame (emit_softwire_fragment i (xs i)) =
    if total <=? i * unit then None else Some (pkt (emit_softwire_fragment i (xs i)).2)) as Hs.
  { intros i Hi. specialize (He i Hi). unfold sent_frame. destruct (_ <=? _); [by rewrite He|by destruct He as [-> _]]. }
  assert (omap sent_frame (companions xs) =
    (fun i => pkt (emit_softwire_fragment i (xs i)).2) <$> filter (fun i => i * unit < total) [0; 1; 2; 3]) as ->.
  { unfold companions. cbn [fmap list_fmap]. cbn [omap list_omap].
    rewrite !Hs by lia. rewrite !filter_cons, filter_nil.
    repeat match goal with |- context [total <=? ?a] => destruct (Z.leb_spec total a) end;
      repeat case_decide; try lia; done. }
  split_and!.
  - intros r Hr. unfold companions in Hr. apply list_elem_of_fmap in Hr as (i & -> & Hi).
    assert (0 <= i < 4) as Hi4 by (rewrite !elem_of_cons, elem_of_nil in Hi; lia). specialize (He i Hi4).
    destruct (_ <=? _); [by left|right; by destruct He].
  - intros f Hf. apply list_elem_of_fmap in Hf as (i & -> & [Ht Hi]%list_elem_of_filter).
    assert (0 <= i < 4) as Hi4 by (rewrite !elem_of_cons, elem_of_nil in Hi; lia). specialize (He i Hi4).
    rewrite (proj2 (Z.leb_gt _ _) Ht) in He. exists i. destruct He. split_and!; try done; lia.
  - intros i Hi Ht. assert (0 <= i < 4) as Hi4 by nia. specialize (He i Hi4). rewrite (proj2 (Z.leb_gt _ _) Ht) in He.
    eexists. split; [|exact (proj2 He)]. apply list_elem_of_fmap. exists i. split; [done|].
    apply list_elem_of_filter. split; [done|]. rewrite !elem_of_cons, elem_of_nil. lia.
  - rewrite length_fmap, !filter_cons, filter_nil. repeat case_decide; cbn [length]; lia.
Qed.

(** C5: Fragmenting the softwire loses nothing: when an oversized packet is
    handed to the four companions and none of the kernel's adjustments is
    refused, each clone either goes out the WAN or is dropped, every frame sent
    fits the WAN's MTU and the path MTU learned for the slot, and a receiver
    that gets them in any order reassembles exactly the outer header and the
    packet (its TTL one lower) that encapsulating it whole would have sent. *)
Theorem fragments_reassemble x o xs : is_bytes (pkt x) -> parse_l2_ipv4 (pkt x) = Parsed o -> snap_ok (now_seen (maps x)) ->
  let slot := slot_of o x in
  let cfg := cfg_of slot x in
  let wan := WanIfindex (global cfg) in
  let len := ld16 (pkt x) (o + 2) in
  let r := do_xdp_dslite_encap x in
  let pmtu := (tunnel_pmtu_for slot (pick_slot (get_migration_ctrl x) o x).2).1 in
  let mtu := (bpf_check_mtu wan (TUNNEL_L3_OVERHEAD + len)).2 in
  r.1 = frag_clones -> wan <> 0 -> 0 <= FragUnit (global cfg) -> FragMaxInner (global cfg) <= 65527 -> mtu <= 65535 ->
  (forall i, 0 <= i < MAX_SOFTWIRE_FRAGS -> pkt (xs i) = pkt r.2 /\ WanIfindex (b4cfg (maps (xs i))) = wan /\
     (emit_softwire_fragment i (xs i)).1 <> XDP_ABORTED) ->
  (forall out, out ∈ companions xs -> out.1 = XDP_DROP \/ out.1 = tx_port wan) /\
  (forall f, f ∈ omap sent_frame (companions xs) -> exists fr, read_fragment f = Some fr /\
     48 + zlen (fr_data fr) <= mtu /\ (pmtu = 0 \/ 48 + zlen (fr_data fr) <= pmtu)) /\
  (forall frames, frames ≡ₚ omap sent_frame (companions xs) ->
     reassemble frames = Some (ipv6hdr (b4_addr cfg) (aftr_addr cfg) IPPROTO_IPIP len ++
                                 sub (decrease_ipv4_ttl (clamped cfg o (pkt x)) o) o len)).
Proof.
  intros Hp Hparse Hs. cbv zeta. pose proof (parse_l2_ipv4_at _ _ Hp Hparse) as Hat.
  destruct (do_encap_cases x o Hp Hparse Hs) as [[Ea _]|(_ & _ & _ & _ & Hok & Hy & ->)]; [by rewrite Ea|].
  set (slot := slot_of o x) in *. set (cfg := cfg_of _ _) in *. set (y := (pick_slot _ _ _).2) in *.
  pose proof (encapsulate_spec o slot cfg y) as Hsp. cbv zeta in Hsp. rewrite Hy in Hsp. specialize (Hsp Hp Hat Hok).
  set (len := ld16 (pkt x) (o + 2)) in *. intros Hr Hwan Hunit Hmax Hmtu Hxs. rewrite Hr in Hsp.
  destruct Hsp as (m & z & Er & Hz & _ & _ & Hm & Hlearn). rewrite Er in *. destruct Hat as (Ho & Hlen & Hl & H45).
  destruct (clamped_spec cfg o (pkt x) Hp ltac:(lia) ltac:(lia)) as (Hb & Hzl & Hj).
  destruct (encap_fragment_outer o len cfg m z) as [a w] eqn:Ew. cbn [fst snd] in *. subst a.
  destruct (encap_fragment_clone o len cfg m z w Ew Ho Hlen ltac:(rewrite Hz; lia) Hok Hmax Hunit ltac:(lia))
    as (_ & _ & Hfit & Htot & q & id & Hw & Hck). rewrite Hz in *.
  set (unit := Z.ldiff (FragUnit (global cfg)) 7) in *. set (eth := ethhdr _ _ _) in *. set (d := drop _ _) in *.
  rewrite Hw in Hxs. destruct (cloned xs _ _ _ _ _ _ _ _ Hck Hwan Htot Hxs) as (H1 & H2 & H3 & H4).
  split; [done|split].
  - intros f Hf. apply H2 in Hf as (i & Hi & Hit & Hf). eexists. split; [exact Hf|].
    assert (zlen (fr_data (frag_at (b4_addr cfg) (aftr_addr cfg) id unit len d (i * unit))) <= unit) as Hd.
    { cbn [frag_at fr_data]. unfold zlen, sub. rewrite length_take. unfold frag_len. destruct Hck. lia. }
    lia.
  - intros frames Hperm. set (g := fun f => default (frag_at (b4_addr cfg) (aftr_addr cfg) id unit len d 0) (read_fragment f)).
    assert (mapM read_fragment frames = Some (g <$> frames)) as Hmap.
    { apply mapM_all. intros f Hf. rewrite Hperm in Hf. apply H2 in Hf as (i & _ & _ & Hf). unfold g. by rewrite Hf. }
    erewrite reassemble_whole; [|exact Hck| |exact Hmap|].
    + unfold d. rewrite sub_drop, Z.add_0_r by lia. done.
    + split.
      * intros i Hi Hit. destruct (H3 i Hi Hit) as (f & Hf & Ef). apply list_elem_of_fmap. exists f.
        split; [unfold g; by rewrite Ef|by rewrite Hperm].
      * intros fr Hfr. apply list_elem_of_fmap in Hfr as (f & -> & Hf). rewrite Hperm in Hf.
        apply H2 in Hf as (i & Hi & Hit & Ef). exists i. split_and!; try done. unfold g. by rewrite Ef.
    + rewrite length_fmap, Hperm. done.
Qed.

End Fragments.

(** ** At concrete inputs *)

(** The redirected frame, as each companion gets it. *)
Definition xs_1 (i : Z) : X := arrives (pkt (@do_xdp_dslite_encap kernel_1 (x_up 1260)).2) 3.

Lemma xs_1_ok i : 0 <= i < MAX_SOFTWIRE_FRAGS -> (@emit_softwire_fragment kernel_1 i (xs_1 i)).1 <> XDP_ABORTED.
Proof.
  intros Hi. assert (i = 0 \/ i = 1 \/ i = 2 \/ i = 3) as Hc by (unfold MAX_SOFTWIRE_FRAGS in Hi; lia).
  destruct Hc as [-> | [-> | [-> | ->]]]; vm_compute; discriminate.
Qed.

Lemma fragments_reassemble_witness :
  is_Some (reassemble (omap sent_frame (@companions kernel_1 xs_1))).
Proof.
  destruct (@fragments_reassemble kernel_1 kernel_1_laws (x_up 1260) 14 xs_1) as (_ & _ & Hw);
    [apply (bool_decide_unpack _)|..| |exact (mk_is_Some _ _ (Hw _ (Permutation_refl _)))].
  - vm_compute. reflexivity.
  - vm_compute. reflexivity.
  - exact w_x_ok.
  - vm_compute. reflexivity.
  - vm_compute. discriminate.
  - vm_compute. discriminate.
  - vm_compute. discriminate.
  - vm_compute. discriminate.
  - intros i Hi. split; [reflexivity|]. split; [vm_compute; reflexivity|by apply xs_1_ok].
Defined.
