(* ===== verification/Decap.v ===== *)
(** From the softwire to the LAN: handle_tunnel_icmpv6, learn_tunnel_pmtu,
    handle_xdp_dslite_decap and do_xdp_dslite_decap of src/bpf/datapath.bpf.c. *)

From S2P Require Import Prelude Wire Netip Checksum Packet Stats Datapath Tcpmss Migration Xdp Icmp Ipv6fwd Encap.

Local Open Scope Z_scope.

Definition ICMPV6_DEST_UNREACH : Z := 1.
Definition ICMPV6_TIME_EXCEED : Z := 3.
Definition ICMPV6_NOROUTE : Z := 0.
Definition ICMPV6_ADM_PROHIBITED : Z := 1.
Definition ICMPV6_ADDR_UNREACH : Z := 3.
Definition ICMPV6_POLICY_FAIL : Z := 5.

(** ** The path MTU an ICMPv6 error reports *)

(** At instant [now], when the slot is in the array. *)
Definition learn_tunnel_pmtu (slot mtu : Z) (x : X) : X :=
  let mtu := if mtu <? IPV6_MIN_MTU then IPV6_MIN_MTU else mtu in
  if negb ((0 <=? slot) && (slot <? numNextHops)) then x
  else
    let e := default zeroPmtu (pmtus (maps x) !! slot) in
    let '(now, x) := bpf_ktime_get_ns x in
    if negb (UpdatedNs e =? 0) && (Mtu e <=? mtu) && (u64 (now - UpdatedNs e) <? TUNNEL_PMTU_EXPIRY_NS) then x
    else increase_stats_count statTunnelPMTU (with_maps x (with_pmtus (maps x) (<[slot := mkPmtu now mtu]> (pmtus (maps x))))).

(** [q]: where the quoted header is; [error_dst]: whom the error is addressed to. *)
Definition find_dslite_local_slot (x : X) (q : Z) (error_dst : bytes) : option Z :=
  let fits slot :=
    let nh := hop (hops (maps x)) slot in
    negb (Valid nh =? 0) && bool_decide (saddr6 (pkt x) q = B4Addr nh) &&
    bool_decide (daddr6 (pkt x) q = AftrAddr nh) && bool_decide (error_dst = B4Addr nh) in
  if fits 0 then Some 0 else if fits 1 then Some 1 else None.

(** The IPv4 packet a quoted softwire packet carries; [None]: it carries none. *)
Definition quoted_inner (p : bytes) (q : Z) : option Z :=
  if nexthdr6 p q =? IPPROTO_IPIP then Some (q + 40)
  else if nexthdr6 p q =? IPPROTO_FRAGMENT then
    if zlen p <? q + 48 then None
    else if negb (Z.land (ld16 p (q + 42)) 0xfff8 =? 0) || negb (at8 p (q + 40) =? IPPROTO_IPIP) then None
    else Some (q + 48)
  else None.

(** What is relayed for an ICMPv6 error: the ICMPv4 type, code and word. *)
Definition next_hop_mtu (mtu : Z) : Z :=
  let mtu := if mtu <? ICMPV4_MIN_MTU then ICMPV4_MIN_MTU else mtu in
  if 0xffff <? mtu then 0xffff else mtu.

Definition relayed_error (type code ptb_mtu : Z) : option (Z * Z * Z) :=
  if type =? ICMPV6_PKT_TOOBIG then
    Some (ICMP_DEST_UNREACH, ICMP_FRAG_NEEDED,
          next_hop_mtu (if TUNNEL_L3_OVERHEAD <? ptb_mtu then ptb_mtu - TUNNEL_L3_OVERHEAD else 0))
  else if type =? ICMPV6_TIME_EXCEED then
    Some (ICMP_TIME_EXCEEDED, if code =? 1 then ICMP_EXC_FRAGTIME else ICMP_EXC_TTL, 0)
  else if type =? ICMPV6_DEST_UNREACH then
    if (code =? ICMPV6_NOROUTE) || (code =? ICMPV6_ADDR_UNREACH) then Some (ICMP_DEST_UNREACH, ICMP_HOST_UNREACH, 0)
    else if (code =? ICMPV6_ADM_PROHIBITED) || (code =? ICMPV6_POLICY_FAIL) then Some (ICMP_DEST_UNREACH, ICMP_HOST_ANO, 0)
    else None
  else None.

Section Decap.
Context `{Kernel}.

(** The last part of handle_tunnel_icmpv6, from the relay's eligibility on. *)
Definition relay_lan_error (quote : bytes) (err : Z * Z * Z) (l2 : Z) (x : X) : action * X :=
  let '(type, code, extra) := err in
  if negb (icmp_error_eligible quote) then leave statTunnelICMPDrop XDP_DROP x
  else
    let fib := bpf_fib_lookup (mkFibQuery AF_INET 0 IPPROTO_ICMP ICMPV4_ERROR_L3_LEN (zeros 4) (sub quote 12 4) (ingress x)) 0 in
    if negb (f_ret fib =? BPF_FIB_LKUP_RET_SUCCESS) || (f_ifindex fib =? WanIfindex (b4cfg (maps x))) ||
       bool_decide (get_lan_config x (f_ifindex fib) = None)
    then leave statTunnelICMPPass XDP_PASS x
    else if negb (l2 =? OUTER_ETH_LEN) || (zlen (pkt x) <? ICMPV4_ERROR_FRAME_LEN) then leave statTunnelICMPPass XDP_PASS x
    else
      let '(allowed, x) := icmp_error_allowed x in
      if negb allowed then leave statICMPRateLimited XDP_DROP x
      else
        match (if ICMPV4_ERROR_FRAME_LEN <? zlen (pkt x)
               then bpf_xdp_adjust_tail (pkt x) (ICMPV4_ERROR_FRAME_LEN - zlen (pkt x)) else Some (pkt x)) with
        | None => leave statAbort XDP_ABORTED x
        | Some p =>
          if zlen p <? ICMPV4_ERROR_FRAME_LEN then leave statAbort XDP_ABORTED (with_pkt x p)
          else
            let x := with_pkt x (write_lan_icmpv4_error p quote fib type code extra) in
            redirect_to_ifindex (f_ifindex fib) statRedirectLAN (increase_stats_count statTunnelICMPRelay x)
        end.

(** [None]: TUNNEL_ICMP_NOT_MINE. *)
Definition handle_tunnel_icmpv6 (l2 : Z) (x : X) : option (action * X) :=
  let p := pkt x in
  let icmp6 := l2 + 40 in
  let type := at8 p icmp6 in
  if zlen p <? icmp6 + 8 then None
  else if negb (type =? ICMPV6_DEST_UNREACH) && negb (type =? ICMPV6_PKT_TOOBIG) && negb (type =? ICMPV6_TIME_EXCEED) then None
  else
    let q := icmp6 + 8 in
    if zlen p <? q + 40 then None
    else
      slot ← find_dslite_local_slot x q (daddr6 p l2);
      Some match quoted_inner p q with
      | None => leave statTunnelICMPPass XDP_PASS x
      | Some inner =>
        if (zlen p <? inner + ICMP_FRAG_QUOTE_LEN) || negb (Z.shiftr (at8 p inner) 4 =? 4) || negb (Z.land (at8 p inner) 0xf =? 5)
        then leave statTunnelICMPPass XDP_PASS x
        else
          let quote := sub p inner ICMP_FRAG_QUOTE_LEN in
          let source_fib := bpf_fib_lookup (mkFibQuery AF_INET 0 0 20 (zeros 4) (sub quote 12 4) (ingress x)) BPF_FIB_LOOKUP_SKIP_NEIGH in
          if negb (f_ret source_fib =? BPF_FIB_LKUP_RET_SUCCESS) || (f_ifindex source_fib =? WanIfindex (b4cfg (maps x))) ||
             bool_decide (get_lan_config x (f_ifindex source_fib) = None)
          then leave statTunnelICMPDrop XDP_DROP x
          else
            let ptb_mtu := ld32 p (icmp6 + 4) in
            let x := if type =? ICMPV6_PKT_TOOBIG then learn_tunnel_pmtu slot ptb_mtu x else x in
            if (type =? ICMPV6_PKT_TOOBIG) && negb (ipv4_has_df quote 0) then leave statTunnelICMPDrop XDP_DROP x
            else
              match relayed_error type (at8 p (icmp6 + 1)) ptb_mtu with
              | None => leave statTunnelICMPPass XDP_PASS x
              | Some err => relay_lan_error quote err l2 x
              end
      end.

(** ** Decapsulation *)

(** The inner packet's length, or where the packet goes instead; [o]: where the
    outer header is. *)
Definition validate_dslite_ipv6 (o : Z) (x : X) : (action * X) + Z :=
  let inner := o + 40 in
  let p := pkt x in
  if zlen p <? inner + 20 then inl (leave statDecapBadPacket XDP_DROP x)
  else if negb (Z.shiftr (at8 p inner) 4 =? 4) || negb (Z.land (at8 p inner) 0xf =? 5)
  then inl (leave statDecapBadPacket XDP_PASS x)
  else
    let inner_len := ld16 p (inner + 2) in
    if inner_len <? 20 then inl (leave statDecapBadPacket XDP_DROP x)
    else if zlen p <? inner + inner_len then inl (leave statDecapBadPacket XDP_DROP x)
    else inr inner_len.

Inductive lan_lookup_result : Type :=
| LAN_LOOKUP_FAIL
| LAN_LOOKUP_OK (fib : fib_result)
| LAN_LOOKUP_FRAG_NEEDED (mtu : Z)
| LAN_LOOKUP_DROP.

(** The struct is filled twice when the route is too narrow; the second answer's
    device decides. *)
Definition lookup_lan_nexthop (cfg : b4_config) (o inner_len : Z) (x : X) : lan_lookup_result * X :=
  let fib := bpf_fib_lookup (ipv4_query (pkt x) o inner_len (ingress x)) 0 in
  let too_big := f_ret fib =? BPF_FIB_LKUP_RET_FRAG_NEEDED in
  let route_mtu := if too_big then f_mtu_result fib else 0 in
  let fib := if too_big then bpf_fib_lookup (ipv4_query (pkt x) o 20 (ingress x)) BPF_FIB_LOOKUP_SKIP_NEIGH else fib in
  if f_ret fib =? BPF_FIB_LKUP_RET_SUCCESS then
    if f_ifindex fib =? WanIfindex (global cfg) then (LAN_LOOKUP_FAIL, increase_stats_count statFIBWrongIf x)
    else if bool_decide (get_lan_config x (f_ifindex fib) = None) then (LAN_LOOKUP_DROP, increase_stats_count statDecapMartian x)
    else if negb too_big then (LAN_LOOKUP_OK fib, increase_stats_count statFIBSuccess x)
    else (LAN_LOOKUP_FRAG_NEEDED route_mtu, x)
  else if f_ret fib =? BPF_FIB_LKUP_RET_NO_NEIGH then
    if negb (f_ifindex fib =? WanIfindex (global cfg)) && negb (bool_decide (get_lan_config x (f_ifindex fib) = None))
    then (LAN_LOOKUP_FAIL, increase_stats_count statFIBNoNeigh x)
    else (LAN_LOOKUP_DROP, increase_stats_count statDecapMartian x)
  else (LAN_LOOKUP_FAIL, increase_stats_count statFIBFail x).

Definition finish_decap_slow_path (old_eth : bytes) (x : X) : action * X :=
  let p := put (put (pkt x) 0 old_eth) 12 (be 2 ETH_P_IP) in
  leave statDecapSlow XDP_PASS (with_pkt x p).

(** A packet too big for the LAN device. *)
Definition too_big_for_lan (cfg : b4_config) (o mtu : Z) (x : X) : action * X :=
  if ipv4_has_df (pkt x) o then send_dslite_icmp_frag_needed cfg o (next_hop_mtu mtu) x
  else leave statDecapFragSlow XDP_PASS x.

(** From bpf_xdp_adjust_head on; [fast]: the next hop, if it is known. *)
Definition strip_outer (fast : option fib_result) (old_eth : bytes) (inner_len : Z) (x : X) : action * X :=
  match bpf_xdp_adjust_head (pkt x) OUTER_IPV6_LEN with
  | None => leave statAbort XDP_ABORTED x
  | Some p =>
    if (zlen p <? 14) || (zlen p <? OUTER_ETH_LEN + 20) || (zlen p <? OUTER_ETH_LEN + inner_len)
    then leave statAbort XDP_ABORTED (with_pkt x p)
    else
      match fast with
      | None => finish_decap_slow_path old_eth (with_pkt x p)
      | Some fib =>
        let p := put p 0 (ethhdr (f_dmac fib) (f_smac fib) ETH_P_IP) in
        if at8 p (OUTER_ETH_LEN + 8) <=? 1 then leave statPass XDP_PASS (with_pkt x p)
        else
          redirect_to_ifindex (f_ifindex fib) statRedirectLAN (with_pkt x (decrease_ipv4_ttl p OUTER_ETH_LEN))
      end
  end.

(** From the lookup of the LAN host on; the inner packet is at 54. *)
Definition deliver (cfg : b4_config) (inner_len : Z) (x : X) : action * X :=
  let o := OUTER_HDR_LEN in
  let old_eth := sub (pkt x) 0 OUTER_ETH_LEN in
  let '(lookup, x) := lookup_lan_nexthop cfg o inner_len x in
  match lookup with
  | LAN_LOOKUP_DROP => (XDP_DROP, x)
  | LAN_LOOKUP_FRAG_NEEDED mtu =>
    if at8 (pkt x) (o + 8) <=? 1 then send_dslite_icmp_time_exceeded cfg o x
    else too_big_for_lan cfg o mtu x
  | LAN_LOOKUP_OK fib =>
    if at8 (pkt x) (o + 8) <=? 1 then send_dslite_icmp_time_exceeded cfg o x
    else
      let '(ret, lan_mtu, x) := check_dev_mtu (f_ifindex fib) inner_len x in
      if ret =? BPF_MTU_CHK_RET_FRAG_NEEDED then too_big_for_lan cfg o lan_mtu x
      else if negb (ret =? 0) then (XDP_DROP, x)
      else strip_outer (Some fib) old_eth inner_len x
  | LAN_LOOKUP_FAIL => strip_outer None old_eth inner_len x
  end.

Definition handle_xdp_dslite_decap (x : X) : action * X :=
  let x := increase_stats_count statDecap x in
  match parse_l2_ipv6 (pkt x) with
  | Malformed => leave statDrop XDP_DROP x
  | Untouched => leave statDecapPass XDP_PASS x
  | Parsed o =>
    if negb (nexthdr6 (pkt x) o =? IPPROTO_IPIP) then leave statDecapNotDSLite XDP_PASS x
    else
      match find_dslite_peer_nh x o with
      | None => leave statDecapPass XDP_PASS x
      | Some nh =>
        let ctrl_decap := get_migration_ctrl x in
        match resolve_softwire x (Some nh) with
        | None => leave statNoConfig XDP_PASS x
        | Some cfg =>
          match validate_dslite_ipv6 o x with
          | inl r => r
          | inr inner_len =>
            let inner := o + 40 in
            let x := if mstate (unpackMigrationCtrl ctrl_decap) =? migSteady then x
                     else (touch_affinity ctrl_decap inner true x).2 in
            let x :=
              if MssClamp (global cfg) =? 0 then x
              else
                let '(changed, p) := clamp_tcp_mss (pkt x) inner (u16 (MssClamp (global cfg))) in
                if changed : bool then increase_stats_count statMSSClamped (with_pkt x p) else with_pkt x p in
            deliver cfg inner_len x
          end
        end
      end
  end.

Definition do_xdp_dslite_decap (x : X) : action * X :=
  match parse_l2_ipv6 (pkt x) with
  | Malformed => leave statDrop XDP_DROP x
  | Untouched => leave statDecapPass XDP_PASS x
  | Parsed o =>
    if (nexthdr6 (pkt x) o =? IPPROTO_FRAGMENT) && negb (bool_decide (find_dslite_peer_nh x o = None))
    then leave statDecapReasmPass XDP_PASS x
    else
      match (if nexthdr6 (pkt x) o =? IPPROTO_ICMPV6 then handle_tunnel_icmpv6 o x else None) with
      | Some r => r
      | None =>
        if negb (nexthdr6 (pkt x) o =? IPPROTO_IPIP) then
          match resolve_active_softwire x with
          | None => (XDP_PASS, x)
          | Some cfg6 =>
            match maybe_redirect_ipv6_to_cpu o x with
            | (Some a, x) => (a, x)
            | (None, x) => handle_ipv6_forward cfg6 o x
            end
          end
        else if bool_decide (find_dslite_peer_nh x o = None) then (XDP_PASS, x)
        else
          match validate_dslite_ipv6 o x with
          | inl r => r
          | inr _ =>
            match maybe_redirect_to_cpu (o + 40) x with
            | Some a => (a, x)
            | None => handle_xdp_dslite_decap x
            end
          end
      end
  end.

End Decap.

(** ** What is delivered *)

Section DecapFacts.
Context `{Kernel, !KernelLaws}.

Lemma parse_l2_ipv6_at p o : is_bytes p -> parse_l2_ipv6 p = Parsed o -> o = 14 /\ 54 + ld16 p 18 <= zlen p.
Proof.
  intros Hp. unfold parse_l2_ipv6. destruct (_ <? 14); [done|]. destruct (negb _); [done|].
  destruct (_ <? 14 + 40); [done|]. destruct (negb _); [done|].
  destruct (Z.ltb_spec (zlen p) (14 + 40 + ld16 p (14 + 4))); [done|]. intros [= <-]. change (14 + 4) with 18 in *. lia.
Qed.

Lemma next_hop_mtu_range m : ICMPV4_MIN_MTU <= next_hop_mtu m <= 0xffff.
Proof.
  unfold next_hop_mtu, ICMPV4_MIN_MTU. destruct (Z.ltb_spec m 68); [done|]. destruct (Z.ltb_spec 0xffff m); lia.
Qed.

(** The inner packet [p] of [o] on, on Ethernet to its host, its TTL one lower. *)
Definition decapsulated (fib : fib_result) (p : bytes) (o : Z) : bytes :=
  ethhdr (f_dmac fib) (f_smac fib) ETH_P_IP ++ drop (Z.to_nat o) (decrease_ipv4_ttl p o).

(** An ICMPv4 error went back through the softwire instead. *)
Definition answered (cfg : b4_config) (p : bytes) (b : bucket) (i : Z) (p' : bytes) : Prop :=
  let quote := sub p OUTER_HDR_LEN ICMP_FRAG_QUOTE_LEN in
  i = WanIfindex (global cfg) /\ icmp_error_eligible quote = true /\ (exists now, (take_token now b).1 = true) /\
  exists fib, (i <> 0 -> f_ifindex fib = i) /\
    ((exists mtu, ICMPV4_MIN_MTU <= mtu <= 0xffff /\ ipv4_has_df p OUTER_HDR_LEN = true /\
        dslite_reply p' cfg fib ICMP_DEST_UNREACH ICMP_FRAG_NEEDED mtu quote) \/
     (at8 p (OUTER_HDR_LEN + 8) <= 1 /\ dslite_reply p' cfg fib ICMP_TIME_EXCEEDED ICMP_EXC_TTL 0 quote)).

(** The inner packet went to its LAN host. *)
Definition delivered (cfg : b4_config) (p : bytes) (len : Z) (lans : gmap Z LanVal) (i : Z) (p' : bytes) : Prop :=
  i <> WanIfindex (global cfg) /\ is_Some (lans !! i) /\ 1 < at8 p (OUTER_HDR_LEN + 8) /\
  (exists m, bpf_check_mtu i len = (0, m) /\ len <= m) /\
  exists q fl, f_ifindex (bpf_fib_lookup q fl) = i /\ q_dst q = sub p (OUTER_HDR_LEN + 16) 4 /\
    p' = decapsulated (bpf_fib_lookup q fl) p OUTER_HDR_LEN.

(** The frame handed to the kernel without its outer header. *)
Definition stripped (p : bytes) : bytes := sub p 0 12 ++ be 2 ETH_P_IP ++ drop 54 p.

Definition deliver_post (cfg : b4_config) (p : bytes) (len : Z) (y : X) (r : action * X) : Prop :=
  match r.1 with
  | tx_port i => delivered cfg p len (lans (maps y)) i (pkt r.2) \/ answered cfg p (rate y) i (pkt r.2)
  | XDP_PASS => pkt r.2 = p \/ pkt r.2 = stripped p
  | XDP_DROP => pkt r.2 = p
  | XDP_ABORTED => True
  | _ => False
  end.

Lemma lookup_lan_nexthop_inv cfg o len x r y : lookup_lan_nexthop cfg o len x = (r, y) ->
  pkt y = pkt x /\ maps y = maps x /\ rate y = rate x /\
  (forall fib, r = LAN_LOOKUP_OK fib -> exists q fl, fib = bpf_fib_lookup q fl /\ q_dst q = sub (pkt x) (o + 16) 4 /\
     f_ifindex fib <> WanIfindex (global cfg) /\ is_Some (lans (maps x) !! f_ifindex fib)).
Proof.
  unfold lookup_lan_nexthop. set (q1 := ipv4_query _ _ len _). set (q2 := ipv4_query _ _ 20 _).
  set (big := f_ret (bpf_fib_lookup q1 0) =? _). cbv zeta.
  set (fib := if big then bpf_fib_lookup q2 _ else _).
  assert (exists q fl, fib = bpf_fib_lookup q fl /\ q_dst q = sub (pkt x) (o + 16) 4) as Hq.
  { unfold fib. destruct big; [by exists q2, BPF_FIB_LOOKUP_SKIP_NEIGH|by exists q1, 0]. }
  destruct (_ =? BPF_FIB_LKUP_RET_SUCCESS).
  - destruct (Z.eqb_spec (f_ifindex fib) (WanIfindex (global cfg))); [by intros [= <- <-]|].
    destruct (bool_decide _) eqn:Hl; [by intros [= <- <-]|]. apply bool_decide_eq_false in Hl.
    destruct (negb big); intros [= <- <-]; (split; [done|split; [done|split; [done|]]]); [|done].
    intros ? [= <-]. destruct Hq as (q & fl & -> & Hd). exists q, fl. split_and!; try done.
    unfold get_lan_config in Hl. by destruct (_ !! _).
  - destruct (_ =? BPF_FIB_LKUP_RET_NO_NEIGH); [destruct (_ && _)|]; by intros [= <- <-].
Qed.

Lemma sends_answered cfg x sent r : sends cfg OUTER_HDR_LEN x sent r ->
  (forall p' fib, sent p' fib (sub (pkt x) OUTER_HDR_LEN ICMP_FRAG_QUOTE_LEN) ->
     (exists mtu, ICMPV4_MIN_MTU <= mtu <= 0xffff /\ ipv4_has_df (pkt x) OUTER_HDR_LEN = true /\
        dslite_reply p' cfg fib ICMP_DEST_UNREACH ICMP_FRAG_NEEDED mtu (sub (pkt x) OUTER_HDR_LEN ICMP_FRAG_QUOTE_LEN)) \/
     (at8 (pkt x) (OUTER_HDR_LEN + 8) <= 1 /\
      dslite_reply p' cfg fib ICMP_TIME_EXCEEDED ICMP_EXC_TTL 0 (sub (pkt x) OUTER_HDR_LEN ICMP_FRAG_QUOTE_LEN))) ->
  forall len y, rate y = rate x -> deliver_post cfg (pkt x) len y r.
Proof.
  intros Hs Hsent len y Hy. unfold sends, deliver_post in *. destruct r as [a z]. cbn [fst snd] in *.
  destruct a; try done; [left; by destruct Hs|]. right. destruct Hs as (Hi & He & Ht & fib & Hw & Hf).
  unfold answered. rewrite Hi, Hy. split; [done|split; [done|split; [by eexists|]]]. exists fib. auto.
Qed.

Lemma too_big_spec cfg mtu x len y : is_bytes (pkt x) -> cfg_ok cfg -> rate y = rate x ->
  deliver_post cfg (pkt x) len y (too_big_for_lan cfg OUTER_HDR_LEN mtu x).
Proof.
  intros Hp Hc Hy. unfold too_big_for_lan. destruct (ipv4_has_df _ _) eqn:Hdf; [|by left].
  pose proof (next_hop_mtu_range mtu) as Hm. unfold ICMPV4_MIN_MTU in Hm.
  destruct (dslite_errors_sound cfg OUTER_HDR_LEN (next_hop_mtu mtu) x Hp ltac:(done) Hc ltac:(lia)) as [Hs _].
  eapply sends_answered; [exact Hs| |done]. cbv beta. intros p' fib Hr. left. exists (next_hop_mtu mtu).
  unfold ICMPV4_MIN_MTU. by split_and!; [lia..| |].
Qed.

Lemma expired_spec cfg x len y : is_bytes (pkt x) -> cfg_ok cfg -> rate y = rate x -> at8 (pkt x) (OUTER_HDR_LEN + 8) <= 1 ->
  deliver_post cfg (pkt x) len y (send_dslite_icmp_time_exceeded cfg OUTER_HDR_LEN x).
Proof.
  intros Hp Hc Hy Ht. destruct (dslite_errors_sound cfg OUTER_HDR_LEN 0 x Hp ltac:(done) Hc ltac:(lia)) as [_ Hs].
  eapply sends_answered; [exact Hs| |done]. cbv beta. intros p' fib Hr. by right.
Qed.

Lemma strip_outer_spec cfg fast len x y : is_bytes (pkt x) -> 54 + len <= zlen (pkt x) -> 20 <= len ->
  maps y = maps x ->
  (forall fib, fast = Some fib -> 1 < at8 (pkt x) (OUTER_HDR_LEN + 8) /\ (exists m, bpf_check_mtu (f_ifindex fib) len = (0, m) /\ len <= m) /\
     exists q fl, fib = bpf_fib_lookup q fl /\ q_dst q = sub (pkt x) (OUTER_HDR_LEN + 16) 4 /\
     f_ifindex fib <> WanIfindex (global cfg) /\ is_Some (lans (maps x) !! f_ifindex fib)) ->
  deliver_post cfg (pkt x) len y (strip_outer fast (sub (pkt x) 0 OUTER_ETH_LEN) len x).
Proof.
  change OUTER_HDR_LEN with 54. change OUTER_ETH_LEN with 14. intros Hp Hl Hlen Hmaps Hf. unfold strip_outer.
  destruct (bpf_xdp_adjust_head _ _) as [p|] eqn:Eh; [|done]. apply head_shrinks in Eh as [_ ->]; [|done].
  change (Z.to_nat OUTER_IPV6_LEN) with 40%nat. set (p := drop 40 (pkt x)).
  assert (zlen p = zlen (pkt x) - 40) as Hpl by (unfold p; rewrite zlen_drop; lia).
  destruct (_ || _ || _); [done|].
  assert (forall h, zlen h = 14 -> put p 0 h = h ++ drop 54 (pkt x)) as Hput.
  { intros h Hh. rewrite put_0. unfold p. rewrite drop_drop. do 2 f_equal. unfold zlen in Hh. lia. }
  destruct fast as [fib|].
  - destruct (Hf fib eq_refl) as (Htt & Hm & q & fl & -> & Hd & Hwan & Hlan). set (fib := bpf_fib_lookup q fl) in *.
    destruct (fib_macs q fl) as (Hdm & _ & Hsm & _). fold fib in Hdm, Hsm.
    pose proof (zlen_ethhdr _ _ ETH_P_IP Hdm Hsm) as He. change OUTER_ETH_LEN with 14. rewrite Hput by done.
    destruct (Z.leb_spec (at8 (ethhdr (f_dmac fib) (f_smac fib) ETH_P_IP ++ drop 54 (pkt x)) (14 + 8)) 1) as [Hle|_].
    { exfalso. rewrite <- He, at8_app_r, (at8_drop _ 54) in Hle by done. change (54 + 8) with 62 in *. lia. }
    unfold deliver_post. cbn [fst snd redirect_to_ifindex leave pkt with_pkt increase_stats_count]. left.
    rewrite Hmaps. split_and!; try done. exists q, fl. split_and!; try done. unfold decapsulated. fold fib.
    change 54%nat with (Z.to_nat 54). by rewrite decrease_ipv4_ttl_behind by (done || lia).
  - unfold finish_decap_slow_path, deliver_post. cbn [fst snd leave pkt with_pkt increase_stats_count]. right.
    assert (zlen (sub (pkt x) 0 14) = 14) as H14 by (apply zlen_sub; lia). rewrite Hput by done.
    rewrite put_app_l by (rewrite ?zlen_be; lia). unfold stripped. rewrite app_assoc. f_equal.
    rewrite (sub_split (pkt x) 0 12 2) at 1 by lia.
    rewrite put_end by (rewrite zlen_sub; lia). f_equal. 
    assert (zlen (sub (pkt x) (0 + 12) 2) = 2) as Hz by (apply zlen_sub; lia). unfold zlen in Hz.
    rewrite drop_ge by (rewrite length_be; lia). by rewrite app_nil_r.
Qed.

Lemma deliver_spec cfg len x : is_bytes (pkt x) -> 54 + len <= zlen (pkt x) -> 20 <= len -> cfg_ok cfg ->
  deliver_post cfg (pkt x) len x (deliver cfg len x).
Proof.
  intros Hp Hl Hlen Hc. unfold deliver. destruct (lookup_lan_nexthop _ _ _ _) as [r y] eqn:El.
  apply lookup_lan_nexthop_inv in El as (Hy & Hym & Hyr & Hf). rewrite <- Hy.
  destruct r as [|fib|mtu|]; [|destruct (Z.leb_spec (at8 (pkt y) (OUTER_HDR_LEN + 8)) 1) as [Ht|Ht]
    |destruct (Z.leb_spec (at8 (pkt y) (OUTER_HDR_LEN + 8)) 1) as [Ht|Ht]|by unfold deliver_post; cbn].
  - apply strip_outer_spec; (done || by rewrite Hy).
  - apply expired_spec; (done || by rewrite Hy).
  - unfold check_dev_mtu. destruct (bpf_check_mtu _ _) as [ret m] eqn:Hchk. unfold BPF_MTU_CHK_RET_FRAG_NEEDED.
    destruct (decide (ret = 1)) as [->|H1]; [apply too_big_spec; (done || by rewrite Hy)|].
    apply Z.eqb_neq in H1. destruct (decide (ret = 0)) as [->|Hr0]; [cbn [Z.eqb orb negb]|].
    2: { apply Z.eqb_neq in Hr0. rewrite Hr0, H1. cbv beta iota zeta delta [orb]. by rewrite H1, Hr0. }
    destruct (Hf fib eq_refl) as (q & fl & Efib & Hd & Hwan & Hlan).
    apply strip_outer_spec; try (done || by rewrite Hy). intros ? [= <-]. split; [done|]. split.
    + exists m. split; [done|]. by eapply mtu_checked.
    + exists q, fl. by rewrite Hy, Hym.
  - apply expired_spec; (done || by rewrite Hy).
  - apply too_big_spec; (done || by rewrite Hy).
Qed.

Lemma find_dslite_peer_nh_inv x o nh : find_dslite_peer_nh x o = Some nh ->
  exists slot, (slot = 0 \/ slot = 1) /\ nh = hop (hops (maps x)) slot /\ Valid nh <> 0 /\
    daddr6 (pkt x) o = B4Addr nh /\ saddr6 (pkt x) o = AftrAddr nh.
Proof.
  unfold find_dslite_peer_nh.
  assert (forall slot, negb (Valid (hop (hops (maps x)) slot) =? 0) && bool_decide (daddr6 (pkt x) o = B4Addr (hop (hops (maps x)) slot)) &&
    bool_decide (saddr6 (pkt x) o = AftrAddr (hop (hops (maps x)) slot)) = true ->
    Valid (hop (hops (maps x)) slot) <> 0 /\ daddr6 (pkt x) o = B4Addr (hop (hops (maps x)) slot) /\
    saddr6 (pkt x) o = AftrAddr (hop (hops (maps x)) slot)) as Hfit.
  { intros slot Hs. rewrite !andb_true_iff, negb_true_iff, Z.eqb_neq, !bool_decide_eq_true in Hs. tauto. }
  destruct (_ && _) eqn:E0; [intros [= <-]; exists 0; apply Hfit in E0; tauto|].
  destruct (negb (Valid (hop (hops (maps x)) 1) =? 0) && _ && _) eqn:E1; [|done].
  intros [= <-]. exists 1. apply Hfit in E1. tauto.
Qed.

(** Whose softwire a packet came through. *)
Definition from_slot (x : X) (slot : Z) : Prop :=
  (slot = 0 \/ slot = 1) /\ Valid (hop (hops (maps x)) slot) <> 0 /\
  daddr6 (pkt x) 14 = b4_addr (cfg_of slot x) /\ saddr6 (pkt x) 14 = aftr_addr (cfg_of slot x).

Lemma from_slot_ok x slot : is_bytes (pkt x) -> 54 <= zlen (pkt x) -> from_slot x slot -> cfg_ok (cfg_of slot x).
Proof.
  intros Hp Hl (_ & _ & Hd & Hs). unfold cfg_ok. rewrite <- Hd, <- Hs. unfold daddr6, saddr6.
  rewrite !zlen_sub by lia. auto with packet.
Qed.

Lemma validate_dslite_ipv6_at x len : is_bytes (pkt x) -> validate_dslite_ipv6 14 x = inr len ->
  len = ld16 (pkt x) 56 /\ 20 <= len /\ 54 + len <= zlen (pkt x) /\ 0 < at8 (pkt x) 54.
Proof.
  intros Hp. unfold validate_dslite_ipv6. change (14 + 40 + 2) with 56. change (14 + 40) with 54.
  destruct (_ <? _); [done|].
  destruct (Z.eqb_spec (Z.shiftr (at8 (pkt x) 54) 4) 4) as [H4|]; [|done]. cbn [negb orb]. destruct (negb _); [done|].
  destruct (Z.ltb_spec (ld16 (pkt x) 56) 20), (Z.ltb_spec (zlen (pkt x)) (54 + ld16 (pkt x) 56)); try done.
  intros [= <-]. split_and!; try done. pose proof (at8_byte (pkt x) 54 Hp) as Hb. unfold is_byte in Hb.
  destruct (decide (at8 (pkt x) 54 = 0)) as [E|]; [by rewrite E in H4|lia].
Qed.

Lemma touch_affinity_same c o rev x : let y := (touch_affinity c o rev x).2 in
  pkt y = pkt x /\ rate y = rate x /\ lans (maps y) = lans (maps x) /\ ingress y = ingress x.
Proof.
  cbv zeta. unfold touch_affinity. cbn [bpf_ktime_get_ns].
  destruct (touch_flow_affinity _ _ _ _ _) as [[hit failed] aff']. destruct failed; [done|]. by destruct (_ && _).
Qed.

(** The second stage on a softwire packet. *)
Lemma handle_decap_cases x : is_bytes (pkt x) -> parse_l2_ipv6 (pkt x) = Parsed 14 ->
  let r := handle_xdp_dslite_decap x in
  let len := ld16 (pkt x) 56 in
  (pkt r.2 = pkt x /\ (r.1 = XDP_PASS \/ r.1 = XDP_DROP)) \/
  exists slot y, from_slot x slot /\ 20 <= len /\ 54 + len <= zlen (pkt x) /\ 0 < at8 (pkt x) 54 /\
    pkt y = clamped (cfg_of slot x) 54 (pkt x) /\ rate y = rate x /\ lans (maps y) = lans (maps x) /\
    r = deliver (cfg_of slot x) len y.
Proof.
  intros Hp Hparse. cbv zeta. unfold handle_xdp_dslite_decap.
  change (pkt (increase_stats_count statDecap x)) with (pkt x). rewrite Hparse.
  set (x1 := increase_stats_count statDecap x). destruct (negb _); [left; by auto|].
  destruct (find_dslite_peer_nh x1 14) as [nh|] eqn:Ef; [|left; by auto].
  apply find_dslite_peer_nh_inv in Ef as (slot & Hslot & -> & Hv & Hd & Hs). change (maps x1) with (maps x) in *. change (pkt x1) with (pkt x) in *.
  cbn [resolve_softwire]. rewrite (proj2 (Z.eqb_neq _ _) Hv). change (maps x1) with (maps x).
  destruct (validate_dslite_ipv6 14 x1) as [r|len] eqn:Ev.
  { left. unfold validate_dslite_ipv6 in Ev. repeat case_match; simplify_eq; by auto. }
  apply validate_dslite_ipv6_at in Ev as (-> & Hlen & Hl & H45); [|exact Hp]. right.
  exists slot. change (mkB4 _ _ _) with (cfg_of slot x). change (14 + 40) with 54. set (cfg := cfg_of slot x) in *.
  set (x2 := if mstate _ =? migSteady then x1 else _).
  assert (pkt x2 = pkt x /\ rate x2 = rate x /\ lans (maps x2) = lans (maps x)) as (H2 & H2r & H2l).
  { unfold x2. destruct (_ =? migSteady); [done|].
    destruct (touch_affinity_same (get_migration_ctrl x1) 54 true x1) as (-> & -> & -> & _). done. }
  set (y := if MssClamp _ =? 0 then x2 else _). exists y.
  assert (pkt y = clamped cfg 54 (pkt x) /\ rate y = rate x /\ lans (maps y) = lans (maps x)) as (Hy & Hyr & Hyl).
  { rewrite <- H2r, <- H2l. unfold y, clamped. rewrite H2. destruct (_ =? 0); [done|].
    destruct (clamp_tcp_mss (pkt x) 54 (u16 (MssClamp (global cfg)))) as [[|] p]; done. }
  change (pkt x1) with (pkt x) in *. split_and!; try done.
Qed.

Lemma decapsulated_header q fl p o : is_bytes p -> 0 <= o -> o + 20 <= zlen p -> 0 < at8 p o -> 1 <= at8 p (o + 8) ->
  header_ok p o -> header_ok (decapsulated (bpf_fib_lookup q fl) p o) 14.
Proof.
  intros Hp Ho Hl H45 Ht Hok. destruct (fib_macs q fl) as (Hd & _ & Hs & _). unfold decapsulated, header_ok.
  rewrite sub_app_r; rewrite zlen_ethhdr by done; [|done]. rewrite sub_drop by lia. change (14 - 14) with 0. rewrite Z.add_0_r.
  apply decrease_ipv4_ttl_ok; done.
Qed.

(** C4: A softwire packet from the network is taken only from the AFTR of a
    valid slot, addressed to that slot's B4.  What then goes out of a LAN device is
    the inner packet and nothing else: on Ethernet to its host, TTL one lower, its
    header checksum still verifying, and within the device's MTU, and never
    out of the WAN or an unmanaged device; what goes out of the WAN is a right
    ICMPv4 error to its sender through the same softwire; the kernel gets the
    packet as it came (but for the MSS clamp), or without its outer header. *)
Theorem decapsulation_sound x : is_bytes (pkt x) -> parse_l2_ipv6 (pkt x) = Parsed 14 -> nexthdr6 (pkt x) 14 = IPPROTO_IPIP ->
  let r := do_xdp_dslite_decap x in
  match r.1 with
  | tx_port i => exists slot, from_slot x slot /\
      let cfg := cfg_of slot x in
      let p1 := clamped cfg 54 (pkt x) in
      (delivered cfg p1 (ld16 (pkt x) 56) (lans (maps x)) i (pkt r.2) /\ (header_ok (pkt x) 54 -> header_ok (pkt r.2) 14)) \/
      answered cfg p1 (rate x) i (pkt r.2)
  | XDP_PASS | XDP_DROP => pkt r.2 = pkt x \/ exists slot, from_slot x slot /\
      (pkt r.2 = clamped (cfg_of slot x) 54 (pkt x) \/ (r.1 = XDP_PASS /\ pkt r.2 = stripped (clamped (cfg_of slot x) 54 (pkt x))))
  | cpu_port _ => pkt r.2 = pkt x
  | XDP_ABORTED => True
  | _ => False
  end.
Proof.
  intros Hp Hparse Hnh. cbv zeta. unfold do_xdp_dslite_decap. rewrite Hparse, Hnh. cbn [Z.eqb andb negb].
  change (IPPROTO_IPIP =? IPPROTO_FRAGMENT) with false. change (IPPROTO_IPIP =? IPPROTO_ICMPV6) with false.
  change (IPPROTO_IPIP =? IPPROTO_IPIP) with true. cbn [andb negb].
  destruct (bool_decide _); [by left|]. destruct (validate_dslite_ipv6 14 x) as [r|len] eqn:Ev.
  { unfold validate_dslite_ipv6 in Ev. repeat case_match; simplify_eq; by left. }
  clear Ev. destruct (maybe_redirect_to_cpu _ _) as [a|] eqn:Ea.
  { unfold maybe_redirect_to_cpu in Ea. destruct (fanned _ _) as [c|]; cbn in Ea; [|done].
    destruct (cpu_present c); simplify_eq. done. }
  destruct (handle_decap_cases x Hp Hparse) as [[Hpk [Ha|Ha]]|(slot & y & Hfrom & Hlen & Hl & H45 & Hy & Hyr & Hyl & ->)];
    [rewrite Ha; by left..|].
  set (cfg := cfg_of slot x) in *. set (p1 := clamped cfg 54 (pkt x)) in *.
  destruct (clamped_spec cfg 54 (pkt x) Hp ltac:(lia) ltac:(lia)) as (Hb & Hz & Hj). fold p1 in Hb, Hz, Hj.
  pose proof (deliver_spec cfg (ld16 (pkt x) 56) y) as Hd. rewrite Hy, Hz in Hd.
  specialize (Hd Hb Hl Hlen ltac:(apply from_slot_ok; (done || lia))). unfold deliver_post in Hd. rewrite Hyr, Hyl in Hd.
  destruct (deliver _ _ _) as [a w]. cbn [fst snd] in *.
  destruct a; try done.
  - right. exists slot. split; [done|by left].
  - right. exists slot. split; [done|]. destruct Hd as [Hd|Hd]; [by left|by right].
  - exists slot. split; [done|]. destruct Hd as [Hd|Hd]; [left|by right]. split; [exact Hd|]. intros Hok.
    destruct Hd as (_ & _ & Ht & _ & q & fl & _ & _ & ->).
    change OUTER_HDR_LEN with 54 in *. change (54 + 8) with 62 in Ht. rewrite Hj in Ht by lia.
    apply decapsulated_header; try done; [lia|by rewrite Hj by lia|change (54 + 8) with 62; rewrite Hj by lia; lia|].
    apply header_ok_clamped; (done || lia).
Qed.

(** ** What is relayed *)

(** An ICMPv6 error at 54 about a packet the B4 sent through a slot's softwire; the
    quoted packet is at 62. *)
Definition about_slot (x : X) (slot : Z) : Prop :=
  let nh := hop (hops (maps x)) slot in
  (slot = 0 \/ slot = 1) /\ Valid nh <> 0 /\ saddr6 (pkt x) 62 = B4Addr nh /\ daddr6 (pkt x) 62 = AftrAddr nh /\
  daddr6 (pkt x) 14 = B4Addr nh.

Lemma find_dslite_local_slot_inv x slot : find_dslite_local_slot x 62 (daddr6 (pkt x) 14) = Some slot -> about_slot x slot.
Proof.
  unfold find_dslite_local_slot, about_slot.
  assert (forall slot, negb (Valid (hop (hops (maps x)) slot) =? 0) && bool_decide (saddr6 (pkt x) 62 = B4Addr (hop (hops (maps x)) slot)) &&
    bool_decide (daddr6 (pkt x) 62 = AftrAddr (hop (hops (maps x)) slot)) &&
    bool_decide (daddr6 (pkt x) 14 = B4Addr (hop (hops (maps x)) slot)) = true ->
    Valid (hop (hops (maps x)) slot) <> 0 /\ saddr6 (pkt x) 62 = B4Addr (hop (hops (maps x)) slot) /\
    daddr6 (pkt x) 62 = AftrAddr (hop (hops (maps x)) slot) /\ daddr6 (pkt x) 14 = B4Addr (hop (hops (maps x)) slot)) as Hfit.
  { intros s Hs. rewrite !andb_true_iff, negb_true_iff, Z.eqb_neq, !bool_decide_eq_true in Hs. tauto. }
  cbv zeta. destruct (_ && _) eqn:E0; [intros [= <-]; apply Hfit in E0; tauto|].
  destruct (negb (Valid (hop (hops (maps x)) 1) =? 0) && _ && _ && _) eqn:E1; [|done].
  intros [= <-]. apply Hfit in E1. tauto.
Qed.

(** The relayed error, on plain Ethernet to the LAN host. *)
Definition lan_reply (p' : bytes) (fib : fib_result) (err : Z * Z * Z) (quote : bytes) : Prop :=
  zlen p' = ICMPV4_ERROR_FRAME_LEN /\ sub p' 0 OUTER_ETH_LEN = ethhdr (f_dmac fib) (f_smac fib) ETH_P_IP /\
  icmpv4_reply p' OUTER_ETH_LEN err.1.1 err.1.2 err.2 (sub quote 12 4) quote.

Lemma relayed_error_range type code m err : relayed_error type code m = Some err ->
  0 < err.1.1 < 256 /\ is_byte err.1.2 /\ (err.1 = (ICMP_DEST_UNREACH, ICMP_FRAG_NEEDED) -> type = ICMPV6_PKT_TOOBIG /\
    ICMPV4_MIN_MTU <= err.2 <= 0xffff).
Proof.
  unfold relayed_error, is_byte, ICMP_DEST_UNREACH, ICMP_FRAG_NEEDED, ICMP_TIME_EXCEEDED, ICMP_EXC_FRAGTIME, ICMP_EXC_TTL,
    ICMP_HOST_UNREACH, ICMP_HOST_ANO.
  repeat case_match; intros [= <-]; cbn; split_and!; try lia; intros [=];
    (split; [by apply Z.eqb_eq|first [apply next_hop_mtu_range|done]]).
Qed.

(** The relay proper. *)
Lemma relay_lan_error_spec quote err x : is_bytes (pkt x) -> is_bytes quote -> zlen quote = 28 ->
  0 < err.1.1 < 256 -> is_byte err.1.2 ->
  let r := relay_lan_error quote err 14 x in
  maps r.2 = maps x /\
  match r.1 with
  | tx_port i => i <> WanIfindex (b4cfg (maps x)) /\ is_Some (lans (maps x) !! i) /\ icmp_error_eligible quote = true /\
      token_left x = true /\ exists q, f_ifindex (bpf_fib_lookup q 0) = i /\ q_dst q = sub quote 12 4 /\
        lan_reply (pkt r.2) (bpf_fib_lookup q 0) err quote
  | XDP_PASS | XDP_DROP => pkt r.2 = pkt x
  | XDP_ABORTED => True
  | _ => False
  end.
Proof.
  intros Hp Hq Hqz Ht Hc. cbv zeta. unfold relay_lan_error. destruct err as [[type code] extra]. cbn [fst snd] in Ht, Hc.
  destruct (icmp_error_eligible quote) eqn:He; cbn [negb]; [|done]. set (q := mkFibQuery _ _ _ _ _ _ _).
  set (fib := bpf_fib_lookup q 0). destruct (_ || _) eqn:Hf; [done|]. rewrite !orb_false_iff in Hf.
  destruct Hf as ((_ & Hwan%Z.eqb_neq) & Hlan%bool_decide_eq_false).
  destruct (negb (14 =? OUTER_ETH_LEN) || _) eqn:Hlen; [done|]. apply orb_false_iff in Hlen as [_ Hlen%Z.ltb_ge].
  destruct (icmp_error_allowed x) as [allowed y] eqn:Ea. apply icmp_error_allowed_inv in Ea as (-> & Hy & Hym & _).
  destruct (token_left x) eqn:Htok; cbn [negb]; [|done]. rewrite Hy.
  change ICMPV4_ERROR_FRAME_LEN with 70 in *. change OUTER_ETH_LEN with 14.
  destruct (if 70 <? zlen (pkt x) then _ else _) as [p|] eqn:Ecut; [|done].
  assert (is_bytes p /\ zlen p = 70) as [Hpb Hpl].
  { destruct (Z.ltb_spec 70 (zlen (pkt x))); [by apply (cut_frame (pkt x) 70 p Hp ltac:(lia))|simplify_eq; split; [done|lia]]. }
  rewrite (proj2 (Z.ltb_ge (zlen p) 70)) by lia. cbn [fst snd redirect_to_ifindex leave pkt with_pkt increase_stats_count maps].
  split; [done|]. split_and!; try done.
  { unfold get_lan_config in Hlan. by destruct (_ !! _). }
  exists q. split; [done|split; [done|]]. fold fib. unfold write_lan_icmpv4_error, lan_reply. cbn [fst snd].
  change ICMPV4_ERROR_FRAME_LEN with 70. change OUTER_ETH_LEN with 14.
  destruct (fib_macs q 0) as (Hd & Hdb & Hs & Hsb). fold fib in Hd, Hdb, Hs, Hsb.
  pose proof (zlen_ethhdr _ _ ETH_P_IP Hd Hs) as Heth. set (eth := ethhdr _ _ _) in *.
  set (p1 := put p 0 eth). assert (zlen p1 = 70) as H1 by (unfold p1; rewrite zlen_put; lia).
  assert (is_bytes p1) as Hp1 by (unfold p1, eth; apply is_bytes_put; [done|by apply is_bytes_ethhdr]).
  destruct (icmpv4_reply_written p1 14 type code extra quote) as (H4 & _ & Hr & Hn);
    [done|lia|rewrite H1; done|done..|].
  split; [by rewrite H4|]. split; [|exact Hr]. rewrite Hn by lia. unfold p1. apply sub_put_same; lia.
Qed.

(** The quoted inner packet, at [inner], is one this datapath can answer, from a host
    behind a managed LAN. *)
Definition from_managed_lan (x : X) (inner : Z) : Prop :=
  inner + ICMP_FRAG_QUOTE_LEN <= zlen (pkt x) /\ Z.shiftr (at8 (pkt x) inner) 4 = 4 /\ Z.land (at8 (pkt x) inner) 0xf = 5 /\
  let source_fib := bpf_fib_lookup (mkFibQuery AF_INET 0 0 20 (zeros 4) (sub (sub (pkt x) inner ICMP_FRAG_QUOTE_LEN) 12 4) (ingress x))
    BPF_FIB_LOOKUP_SKIP_NEIGH in
  f_ret source_fib = BPF_FIB_LKUP_RET_SUCCESS /\ f_ifindex source_fib <> WanIfindex (b4cfg (maps x)) /\
  is_Some (lans (maps x) !! f_ifindex source_fib).

(** A Packet Too Big about a packet of a managed LAN. *)
Definition reports_mtu (x : X) : Prop :=
  at8 (pkt x) 54 = ICMPV6_PKT_TOOBIG /\ exists inner, quoted_inner (pkt x) 62 = Some inner /\ from_managed_lan x inner.

(** C14: An ICMPv6 error is taken as the softwire's only when it is addressed to the
    B4 of a valid slot and quotes a packet that B4 sent to that slot's AFTR.  The path MTU
    it reports is learned exactly when it is a Packet Too Big whose quoted packet carries
    an inner packet from a managed LAN, for that slot; and what goes out, then only for
    an inner packet from a managed LAN, is the ICMPv4 error of RFC 7915's
    table from 192.0.0.2 to the quoted packet's sender, out that sender's
    managed LAN device, when it may be answered and a token is left, checksums right,
    Fragmentation Needed only to a sender that set DF.  Otherwise the packet is left as it was. *)
Theorem tunnel_errors_relayed x r : is_bytes (pkt x) -> handle_tunnel_icmpv6 14 x = Some r ->
  let type := at8 (pkt x) 54 in
  exists slot, about_slot x slot /\
    (reports_mtu x -> pmtus (maps r.2) = pmtus (maps (learn_tunnel_pmtu slot (ld32 (pkt x) 58) x))) /\
    (~ reports_mtu x -> pmtus (maps r.2) = pmtus (maps x)) /\
    match r.1 with
    | tx_port i => exists inner q err,
        quoted_inner (pkt x) 62 = Some inner /\ from_managed_lan x inner /\
        relayed_error type (at8 (pkt x) 55) (ld32 (pkt x) 58) = Some err /\
        let quote := sub (pkt x) inner ICMP_FRAG_QUOTE_LEN in
        i <> WanIfindex (b4cfg (maps x)) /\ is_Some (lans (maps x) !! i) /\ f_ifindex (bpf_fib_lookup q 0) = i /\
        q_dst q = sub quote 12 4 /\ icmp_error_eligible quote = true /\
        (err.1 = (ICMP_DEST_UNREACH, ICMP_FRAG_NEEDED) -> ipv4_has_df quote 0 = true /\ ICMPV4_MIN_MTU <= err.2 <= 0xffff) /\
        (exists now, (take_token now (rate x)).1 = true) /\ lan_reply (pkt r.2) (bpf_fib_lookup q 0) err quote
    | XDP_PASS | XDP_DROP => pkt r.2 = pkt x
    | XDP_ABORTED => True
    | _ => False
    end.
Proof.
  intros Hp. unfold handle_tunnel_icmpv6. change (14 + 40 + 8) with 62. change (14 + 40 + 1) with 55. change (14 + 40 + 4) with 58.
  change (14 + 40) with 54. destruct (zlen (pkt x) <? 62); [done|]. destruct (_ && _ && _); [done|].
  destruct (_ <? 62 + 40); [done|]. destruct (find_dslite_local_slot _ _ _) as [slot|] eqn:Es; [|done].
  apply find_dslite_local_slot_inv in Es. cbn [mbind option_bind]. intros [= <-]. exists slot. split; [exact Es|].
  destruct (quoted_inner (pkt x) 62) as [inner|] eqn:Ei; [|split; [by intros (_ & inner & Ei' & _); congruence|done]].
  assert (reports_mtu x <-> at8 (pkt x) 54 = ICMPV6_PKT_TOOBIG /\ from_managed_lan x inner) as Hrep.
  { unfold reports_mtu. rewrite Ei. split; [intros (? & i & [= <-] & ?); done|intros [? ?]; eauto]. }
  destruct (_ || _) eqn:Hb.
  { split; [|done]. intros (_ & H1 & H2 & H3 & _)%Hrep. rewrite !orb_true_iff, !negb_true_iff, Z.ltb_lt, !Z.eqb_neq in Hb. lia. }
  rewrite !orb_false_iff, !negb_false_iff, !Z.eqb_eq in Hb. destruct Hb as ((Hb%Z.ltb_ge & H4) & H5).
  assert (0 <= inner) as Hin.
  { unfold quoted_inner in Ei. repeat case_match; simplify_eq; lia. }
  set (quote := sub (pkt x) inner ICMP_FRAG_QUOTE_LEN) in *.
  assert (zlen quote = 28) as Hqz by (change ICMP_FRAG_QUOTE_LEN with 28 in *; apply zlen_sub; lia).
  assert (is_bytes quote) as Hqb by (unfold quote; auto with packet).
  destruct (_ || _) eqn:Hsrc.
  { split; [|done]. intros (_ & _ & _ & _ & H1 & H2 & H3)%Hrep. fold quote in H1, H2, H3. exfalso. unfold get_lan_config in Hsrc.
    rewrite !orb_true_iff, negb_true_iff, Z.eqb_neq, Z.eqb_eq, bool_decide_eq_true in Hsrc.
    destruct H3 as [l Hl]. rewrite Hl in Hsrc. naive_solver. }
  assert (from_managed_lan x inner) as Hman.
  { unfold from_managed_lan. fold quote. unfold get_lan_config in Hsrc.
    rewrite !orb_false_iff, negb_false_iff, Z.eqb_eq, Z.eqb_neq, bool_decide_eq_false in Hsrc. destruct Hsrc as ((H1 & H2) & H3).
    do 5 (split; [done|]). destruct (lans (maps x) !! f_ifindex _) eqn:E in H3 |- *; [by eexists|done]. }
  set (type := at8 (pkt x) 54) in *. set (y := if type =? ICMPV6_PKT_TOOBIG then _ else x).
  assert ((reports_mtu x -> pmtus (maps y) = pmtus (maps (learn_tunnel_pmtu slot (ld32 (pkt x) 58) x))) /\
    (~ reports_mtu x -> pmtus (maps y) = pmtus (maps x))) as [Hl1 Hl2].
  { unfold y. rewrite Hrep. destruct (Z.eqb_spec type ICMPV6_PKT_TOOBIG); split; tauto. }
  assert (pkt y = pkt x /\ rate y = rate x /\ lans (maps y) = lans (maps x) /\ b4cfg (maps y) = b4cfg (maps x)) as (Hy & Hyr & Hyl & Hyb).
  { unfold y. destruct (type =? ICMPV6_PKT_TOOBIG); [|done]. unfold learn_tunnel_pmtu. destruct (negb ((0 <=? slot) && _)); [done|].
    cbn [bpf_ktime_get_ns]. by destruct (negb _ && _ && _). }
  destruct ((type =? ICMPV6_PKT_TOOBIG) && negb (ipv4_has_df quote 0)) eqn:Hdf; [split; [exact Hl1|split; [exact Hl2|exact Hy]]|].
  destruct (relayed_error _ _ _) as [err|] eqn:Eerr; [|split; [exact Hl1|split; [exact Hl2|exact Hy]]].
  destruct (relayed_error_range _ _ _ _ Eerr) as (Ht & Hc & Hfn).
  destruct (relay_lan_error_spec quote err y) as (Hmaps & Hrel); [by rewrite Hy|done..|].
  split; [by rewrite Hmaps|]. split; [by rewrite Hmaps|]. destruct (relay_lan_error _ _ _ _) as [a w]. cbn [fst snd] in *.
  destruct a; try done; [by rewrite Hrel|by rewrite Hrel|].
  destruct Hrel as (Hwan & Hlan & He & Htok & q & Hq & Hdst & Hreply). rewrite Hyl, Hyb in *.
  exists inner, q, err. split_and!; try done.
  - intros Herr. destruct (Hfn Herr) as [E Hr]. rewrite E in Hdf. cbn [Z.eqb andb] in Hdf.
    change (ICMPV6_PKT_TOOBIG =? ICMPV6_PKT_TOOBIG) with true in Hdf. apply negb_false_iff in Hdf. done.
  - unfold token_left in Htok. rewrite Hyr in Htok. by eexists.
Qed.

End DecapFacts.

(** ** At concrete inputs *)

Lemma decapsulation_sound_witness :
  (@do_xdp_dslite_decap kernel_1 x_down).1 = tx_port 5 /\ exists slot, from_slot x_down slot.
Proof.
  assert ((@do_xdp_dslite_decap kernel_1 x_down).1 = tx_port 5) as E by (vm_compute; reflexivity).
  pose proof (@decapsulation_sound kernel_1 kernel_1_laws x_down) as Hw. cbv zeta in Hw. rewrite E in Hw.
  split; [exact E|]. destruct Hw as (slot & Hs & _).
  - apply (bool_decide_unpack _). vm_compute. reflexivity.
  - vm_compute. reflexivity.
  - vm_compute. reflexivity.
  - by exists slot.
Defined.

Lemma x_too_big_reports : @reports_mtu kernel_1 x_too_big.
Proof.
  split; [vm_compute; reflexivity|]. exists 102. split; [vm_compute; reflexivity|].
  split; [vm_compute; discriminate|]. split; [vm_compute; reflexivity|]. split; [vm_compute; reflexivity|].
  split; [vm_compute; reflexivity|]. split; [vm_compute; discriminate|]. vm_compute. by eexists.
Qed.

Lemma tunnel_errors_relayed_witness : exists r slot, @handle_tunnel_icmpv6 kernel_1 14 x_too_big = Some r /\ r.1 = tx_port 5
  /\ about_slot x_too_big slot /\ pmtus (maps r.2) = pmtus (maps (learn_tunnel_pmtu slot (ld32 (pkt x_too_big) 58) x_too_big)).
Proof.
  destruct (@handle_tunnel_icmpv6 kernel_1 14 x_too_big) as [r|] eqn:E.
  - destruct (@tunnel_errors_relayed kernel_1 kernel_1_laws x_too_big r) as (slot & Hs & Hl & _);
      [apply (bool_decide_unpack _); vm_compute; reflexivity|exact E|].
    exists r, slot. split; [reflexivity|]. split; [|split; [exact Hs|exact (Hl x_too_big_reports)]].
    enough (option_map fst (@handle_tunnel_icmpv6 kernel_1 14 x_too_big) = Some (tx_port 5)) as Hr
      by (rewrite E in Hr; by injection Hr).
    vm_compute. reflexivity.
  - exfalso. revert E. vm_compute. discriminate.
Defined.
