(* ===== verification/Cliconfig.v ===== *)
(** The values of the command line's flags: src/internal/cliconfig (lan.go, addr.go,
    mac.go, mssclamp.go).  A flag's text is its bytes. *)

From S2P Require Import Prelude Stats Wire Netip Text Datapath.

Local Open Scope Z_scope.

(** ** -lan (lan.go) *)

Record LANSpec : Type := mkLANSpec { Iface : string; GatewayIP : Addr; Subnet : Prefix; MTU : Z }.

#[export] Instance LANSpec_eq_dec : EqDecision LANSpec.
Proof. solve_decision. Defined.

Definition ParseLANSpec (s : bytes) : outcome LANSpec :=
  let '(ifacePart, rest, found) := Cut3 0x3D s in
  if negb found then Fail "expected iface=gatewayIP[/prefixlen][,mtu]"
  else
    let '(ipPart, mtuPart, hasMTU) := Cut3 0x2C rest in
    let '(addrPart, maskPart, hasMask) := Cut3 0x2F ipPart in
    match ParseAddr addrPart with
    | None => Fail "parsing gateway IP"
    | Some ip =>
      subnet ← (if hasMask : bool then
                  match Atoi maskPart with
                  | None => Fail "parsing prefix length"
                  | Some bits =>
                    match addr_Prefix ip bits with
                    | None => Fail "invalid prefix length"
                    | Some subnet => Ret subnet
                    end
                  end
                else if Is4 ip then Ret (Masked (PrefixFrom ip 24))
                else Ret Prefix_invalid);
      mtu ← (if hasMTU : bool then
               match Atoi mtuPart with
               | None => Fail "parsing MTU"
               | Some mtu => if (mtu <? 68) || (65535 <? mtu) then Fail "MTU must be between 68 and 65535" else Ret mtu
               end
             else Ret 0);
      Ret (mkLANSpec (of_bytes ifacePart) ip subnet mtu)
    end.

Definition LANSpecList_Set (l : list LANSpec) (s : bytes) : outcome (list LANSpec) :=
  spec ← ParseLANSpec s; Ret (l ++ [spec]).

(** strings.Join with a comma. *)
Fixpoint join_with (sep : string) (l : list string) : string :=
  match l with
  | [] => ""
  | [s] => s
  | s :: l => s +:+ sep +:+ join_with sep l
  end.

Definition LANSpecList_String (l : list LANSpec) : string := join_with "," (map Iface l).

(** ** -dns-server, -dhcpv4-dns (addr.go) *)

Definition AddrList_Set (a : list Addr) (s : bytes) : outcome (list Addr) :=
  match ParseAddr s with
  | None => Fail "parsing address"
  | Some addr => Ret (a ++ [addr])
  end.

(** ** -wan-dst-mac (mac.go) *)

(** net.ParseMAC: pairs of hexadecimal digits, separated in ones by a colon or a dash
    or in twos by a dot, six, eight or twenty of them. *)
Definition xtoi2 (s : bytes) (e : Z) : option Z :=
  match s with
  | x :: y :: rest =>
    if match rest with [] => false | c :: _ => negb (c =? e) end then None
    else hi ← hex_val x; lo ← hex_val y; Some (hi * 16 + lo)
  | _ => None
  end.

Fixpoint mac_pairs (n : nat) (s : bytes) (sep : Z) : option bytes :=
  match n with
  | O => Some []
  | S n => b ← xtoi2 s sep; rest ← mac_pairs n (drop 3 s) sep; Some (b :: rest)
  end.

Fixpoint mac_quads (n : nat) (s : bytes) : option bytes :=
  match n with
  | O => Some []
  | S n =>
    b ← xtoi2 (take 2 s) 0; c ← xtoi2 (drop 2 s) 0x2E; rest ← mac_quads n (drop 5 s); Some (b :: c :: rest)
  end.

Definition hardware_lengths : list Z := [6; 8; 20].

Definition net_ParseMAC (s : bytes) : option bytes :=
  if zlen s <? 14 then None
  else if bool_decide (s !! 2%nat = Some 0x3A) || bool_decide (s !! 2%nat = Some 0x2D) then
    if negb ((zlen s + 1) mod 3 =? 0) then None
    else
      let n := (zlen s + 1) / 3 in
      if bool_decide (n ∈ hardware_lengths) then mac_pairs (Z.to_nat n) s (default 0 (s !! 2%nat)) else None
  else if bool_decide (s !! 4%nat = Some 0x2E) then
    if negb ((zlen s + 1) mod 5 =? 0) then None
    else
      let n := 2 * (zlen s + 1) / 5 in
      if bool_decide (n ∈ hardware_lengths) then mac_quads (Z.to_nat (n / 2)) s else None
  else None.

(** No address is given for an empty text. *)
Definition ParseMAC (s : bytes) : outcome (option bytes) :=
  if bool_decide (s = []) then Ret None
  else match net_ParseMAC s with Some mac => Ret (Some mac) | None => Fail "address: invalid MAC address" end.

(** ** -tcp-mss-clamp (mssclamp.go) *)

Definition minExplicitMSSClamp : Z := 536.
Definition maxExplicitMSSClamp : Z := 65495.

Definition ParseMSSClamp (s : bytes) : outcome Z :=
  if bool_decide (s ∈ [str "auto"; str ""]) then Ret TCPMSSClampAuto
  else if bool_decide (s ∈ [str "off"; str "none"; str "0"]) then Ret 0
  else match Atoi s with
       | None => Fail "must be auto, off, or an MSS in bytes"
       | Some mss =>
         if (mss <? minExplicitMSSClamp) || (maxExplicitMSSClamp <? mss) then Fail "MSS is out of range" else Ret mss
       end.

(** ** What a -lan flag holds *)

(** The specification is usable: an address, a subnet that is either none or the prefix
    the address is in, and an MTU that is one or is left to the interface. *)
Record spec_wf (spec : LANSpec) : Prop := {
  spec_addr : addr_wf (GatewayIP spec);
  spec_valid : IsValid (GatewayIP spec) = true;
  spec_subnet : Subnet spec = Prefix_invalid
    \/ exists bits, 0 <= bits <= BitLen (GatewayIP spec)
         /\ Subnet spec = Masked (mkPrefix (WithoutZone (GatewayIP spec)) bits) /\ prefix_wf (Subnet spec);
  spec_mtu : MTU spec = 0 \/ 68 <= MTU spec <= 65535 }.

Lemma clear_low_range v n k : 0 <= v < 2 ^ k -> 0 <= n -> 0 <= clear_low v n < 2 ^ k.
Proof.
  intros Hv Hn. rewrite clear_low_spec by done. pose proof (Z.pow_pos_nonneg 2 n ltac:(lia) Hn).
  pose proof (Z.mul_div_le v (2 ^ n) ltac:(lia)). pose proof (Z.div_pos v (2 ^ n)). nia.
Qed.

Lemma Masked_wf a bits : addr_wf a -> IsValid a = true -> 0 <= bits <= BitLen a ->
  prefix_wf (Masked (mkPrefix (WithoutZone a) bits)) /\ pbits (Masked (mkPrefix (WithoutZone a) bits)) = bits.
Proof.
  intros Ha Hv Hb. unfold Masked, prefix_IsValid. cbn [pbits paddr]. rewrite (proj2 (Z.leb_le _ _)) by lia.
  destruct a as [|v|v z]; [done|..]; cbn [WithoutZone addr_wf BitLen] in *; (split; [|done]);
    (split; [apply clear_low_range; [done|lia]|]); split; done || (cbn; lia).
Qed.

Lemma addr_Prefix_spec a bits : IsValid a = true ->
  addr_Prefix a bits = if decide (0 <= bits <= BitLen a) then Some (Masked (mkPrefix (WithoutZone a) bits)) else None.
Proof.
  intros Hv. unfold addr_Prefix. destruct (decide _) as [H|H].
  - rewrite (proj2 (Z.ltb_ge _ _)), (proj2 (Z.ltb_ge _ _)) by lia. cbn [orb]. unfold PrefixFrom.
    assert (IsValid (WithoutZone a) = true) as -> by (by destruct a).
    assert (BitLen (WithoutZone a) = BitLen a) as -> by (by destruct a).
    assert (WithoutZone (WithoutZone a) = WithoutZone a) as -> by (by destruct a).
    by rewrite (proj2 (Z.leb_le _ _)), (proj2 (Z.leb_le _ _)) by lia.
  - destruct (Z.ltb_spec bits 0); [done|]. destruct (Z.ltb_spec (BitLen a) bits); [done|]. lia.
Qed.

Lemma ParseLANSpec_wf s spec : ParseLANSpec s = Ret spec -> spec_wf spec.
Proof.
  unfold ParseLANSpec. destruct (Cut3 0x3D s) as [[iface rest] []]; cbn [negb]; [|done].
  destruct (Cut3 0x2C rest) as [[ipPart mtuPart] hasMTU], (Cut3 0x2F ipPart) as [[addrPart maskPart] hasMask].
  destruct (ParseAddr addrPart) as [ip|] eqn:Ea; [|done]. apply ParseAddr_ok in Ea as [Ha Hv].
  intros (subnet & Hs & H)%bind_inv. apply bind_inv in H as (mtu & Hm & [= <-]).
  split; cbn [GatewayIP Subnet MTU]; [done..| |].
  - assert (forall bits, 0 <= bits <= BitLen ip -> subnet = Masked (mkPrefix (WithoutZone ip) bits) ->
      exists bits, 0 <= bits <= BitLen ip /\ subnet = Masked (mkPrefix (WithoutZone ip) bits) /\ prefix_wf subnet) as Hok.
    { intros bits Hb ->. exists bits. split; [done|]. split; [done|]. by apply Masked_wf. }
    destruct hasMask.
    + destruct (Atoi maskPart) as [bits|]; [|done]. rewrite addr_Prefix_spec in Hs by done.
      destruct (decide _) as [Hb|]; [|done]. injection Hs as <-. right. by apply (Hok bits).
    + destruct (Is4 ip) eqn:E4; injection Hs as <-; [|by left]. right. apply (Hok 24); destruct ip; cbn in *; done || lia.
  - destruct hasMTU; [|injection Hm as <-; by left]. destruct (Atoi mtuPart) as [m|]; [|done].
    destruct (Z.ltb_spec m 68), (Z.ltb_spec 65535 m); try done. injection Hm as <-. lia.
Qed.

(** ** A -lan flag is read as it is written *)

Definition lan_flag (iface : bytes) (v : Z) (bits mtu : option Z) : bytes :=
  iface ++ 0x3D :: print4 v ++ from_option (fun n => 0x2F :: decimal n) [] bits ++ from_option (fun m => 0x2C :: decimal m) [] mtu.

Definition addr_char (c : Z) : Prop := decimal_digit c \/ c = 0x2E.

Lemma print4_chars v : 0 <= v < 2 ^ 32 -> Forall addr_char (print4 v).
Proof.
  intros Hv. assert (forall x, 0 <= x -> Forall addr_char (decimal x)) as Hd.
  { intros x Hx. eapply Forall_impl; [by apply (dec_digits 20)|]. intros c Hc. by left. }
  assert (Forall addr_char [0x2E]) as Hdot by (constructor; [by right|constructor]).
  assert (forall x, 0 <= x mod 256) as Hm by (intros x; by apply Z.mod_pos_bound).
  unfold print4. rewrite !Forall_app. split_and!; try exact Hdot; apply Hd; [apply Z.div_pos; lia|apply Hm..].
Qed.

Lemma Cut3_absent sep x y : Forall (fun c => c <> sep) x -> Cut3 sep (x ++ sep :: y) = (x, y, true).
Proof. intros H. unfold Cut3. by rewrite Cut_absent. Qed.

Lemma Cut3_none sep b : Forall (fun c => c <> sep) b -> Cut3 sep b = (b, [], false).
Proof. intros H. unfold Cut3. by rewrite Cut_none. Qed.

Lemma chars_differ (P : Z -> Prop) sep b : (forall c, P c -> c <> sep) -> Forall P b -> Forall (fun c => c <> sep) b.
Proof. intros HP Hb. by apply (Forall_impl P _ b Hb). Qed.

(** A -lan flag is read as it is written.  For any interface name without an equals
    sign, any IPv4 gateway, any prefix length from 0 to 32 and any MTU from 68 to 65535,
    each of the two left out or not, the flag's text is accepted, and gives that name,
    that gateway, the gateway's subnet of that length (24 if left out) and that MTU (0
    if left out). *)
Lemma lan_flag_read_back iface v bits mtu :
  is_bytes iface -> 0x3D ∉ iface -> 0 <= v < 2 ^ 32 ->
  (forall n, bits = Some n -> 0 <= n <= 32) -> (forall m, mtu = Some m -> 68 <= m <= 65535) ->
  exists spec, ParseLANSpec (lan_flag iface v bits mtu) = Ret spec
    /\ str (Iface spec) = iface /\ GatewayIP spec = A4 v
    /\ Subnet spec = Masked (mkPrefix (A4 v) (default 24 bits)) /\ MTU spec = default 0 mtu.
Proof.
  intros Hi Hne Hv Hbits Hmtu. pose proof (print4_chars v Hv) as Hp.
  assert (Forall (fun c => c <> 0x3D) iface) as Hie by (apply Forall_forall; by intros c Hc ->).
  assert (forall x, 0 <= x -> Forall decimal_digit (decimal x)) as Hd by (intros x; apply dec_digits).
  set (b := from_option (fun n => 0x2F :: decimal n) [] bits). set (m := from_option (fun m => 0x2C :: decimal m) [] mtu).
  assert (Cut3 0x2C ((print4 v ++ b) ++ m) = (print4 v ++ b, from_option decimal [] mtu, bool_decide (is_Some mtu))) as Em.
  { assert (Forall (fun c => c <> 0x2C) (print4 v ++ b)) as Hn.
    { apply Forall_app. split; [eapply chars_differ; [|exact Hp]; intros c [?|?]; unfold decimal_digit in *; lia|].
      subst b. destruct bits as [n|]; [|constructor]. specialize (Hbits n eq_refl). constructor; [done|].
      eapply chars_differ; [|apply Hd; lia]. unfold decimal_digit. intros c ? ->. lia. }
    subst m. destruct mtu as [x|]; [by apply Cut3_absent|]. cbn. rewrite app_nil_r. by apply Cut3_none. }
  assert (Cut3 0x2F (print4 v ++ b) = (print4 v, from_option decimal [] bits, bool_decide (is_Some bits))) as Eb.
  { assert (Forall (fun c => c <> 0x2F) (print4 v)) as Hn
      by (eapply chars_differ; [|exact Hp]; intros c [?|?]; unfold decimal_digit in *; lia).
    subst b. destruct bits as [x|]; [by apply Cut3_absent|]. cbn. rewrite app_nil_r. by apply Cut3_none. }
  unfold ParseLANSpec, lan_flag. rewrite Cut3_absent by done. cbn [negb]. fold b m. rewrite app_assoc, Em, Eb, ParseAddr_print4 by done.
  assert (forall n, 0 <= n <= 32 -> addr_Prefix (A4 v) n = Some (Masked (mkPrefix (A4 v) n))) as Epre.
  { intros n Hn. rewrite addr_Prefix_spec by done. by rewrite decide_True by done. }
  set (sub := if bool_decide (is_Some bits) then _ else _).
  assert (sub = Ret (Masked (mkPrefix (A4 v) (default 24 bits)))) as ->.
  { subst sub. destruct bits as [n|]; cbn [is_Some from_option default id]; [|done].
    rewrite bool_decide_eq_true_2 by done. specialize (Hbits n eq_refl). by rewrite Atoi_decimal, Epre by lia. }
  rewrite bind_ret. set (mt := if bool_decide (is_Some mtu) then _ else _).
  assert (mt = Ret (default 0 mtu)) as ->.
  { subst mt. destruct mtu as [x|]; cbn [is_Some from_option default id]; [|done].
    rewrite bool_decide_eq_true_2 by done. specialize (Hmtu x eq_refl).
    rewrite Atoi_decimal by lia. by rewrite (proj2 (Z.ltb_ge _ _)), (proj2 (Z.ltb_ge _ _)) by lia. }
  rewrite bind_ret. eexists. split; [reflexivity|]. cbn. split; [by apply str_of_bytes|]. done.
Qed.

(** The MSS policy is one the datapath takes: automatic, off, or an MSS in range. *)
Lemma ParseMSSClamp_range s policy : ParseMSSClamp s = Ret policy ->
  policy = TCPMSSClampAuto \/ policy = 0 \/ 536 <= policy <= 65495.
Proof.
  unfold ParseMSSClamp, minExplicitMSSClamp, maxExplicitMSSClamp. case_bool_decide; [intros [= <-]; by left|].
  case_bool_decide; [intros [= <-]; by right; left|]. destruct (Atoi s) as [m|]; [|done].
  destruct (Z.ltb_spec m 536), (Z.ltb_spec 65495 m); try done. intros [= <-]. lia.
Qed.

(** ** At concrete inputs *)

Lemma lan_flag_read_back_witness :
  lan_flag (str "eth1") 0xC0A80101 (Some 25) (Some 1400) = str "eth1=192.168.1.1/25,1400"
  /\ exists spec, ParseLANSpec (str "eth1=192.168.1.1/25,1400") = Ret spec /\ MTU spec = 1400.
Proof.
  split; [vm_compute; reflexivity|].
  destruct (lan_flag_read_back (str "eth1") 0xC0A80101 (Some 25) (Some 1400) ltac:(by_eval) ltac:(by_eval) ltac:(by_eval)
    ltac:(intros n [= <-]; by_eval) ltac:(intros m [= <-]; by_eval)) as (spec & H & _ & _ & _ & Hm).
  exists spec. split; [exact H|exact Hm].
Defined.

(** The examples of the tests (lan_test.go, mssclamp_test.go). *)
Lemma flag_samples :
  ParseLANSpec (str "eth1=192.168.1.1") = Ret (mkLANSpec "eth1" (A4 0xC0A80101) (mkPrefix (A4 0xC0A80100) 24) 0)
  /\ ParseLANSpec (str "lan0=10.0.0.1/25,1400") = Ret (mkLANSpec "lan0" (A4 0x0A000001) (mkPrefix (A4 0x0A000000) 25) 1400)
  /\ ParseLANSpec (str "eth1=fe80::1") = Ret (mkLANSpec "eth1" (A6 0xfe800000000000000000000000000001 "") Prefix_invalid 0)
  /\ existsb (fun s => ok (ParseLANSpec (str s))) ["noequals"; "eth1=not-an-ip"; "eth1=192.168.1.1/notanumber"; "eth1=192.168.1.1/99"; "eth1=192.168.1.1,notanumber";
        "eth1=192.168.1.1,67"; "eth1=192.168.1.1,70000"; "eth1=192.168.1.1,-1"]%string = false
  /\ map (fun s => ParseMSSClamp (str s)) ["auto"; ""; "off"; "none"; "0"; "1420"; "536"; "65495"]%string
     = map Ret [-1; -1; 0; 0; 0; 1420; 536; 65495]
  /\ existsb (fun s => ok (ParseMSSClamp (str s))) ["535"; "65496"; "-1"; "1420bytes"; "auto "]%string = false
  /\ ParseMAC (str "00:1a:2B:3c:4d:5e") = Ret (Some [0x00; 0x1a; 0x2b; 0x3c; 0x4d; 0x5e])
  /\ ParseMAC (str "001a.2b3c.4d5e") = Ret (Some [0x00; 0x1a; 0x2b; 0x3c; 0x4d; 0x5e])
  /\ ParseMAC [] = Ret None /\ ok (ParseMAC (str "00:1a:2B:3c:4d")) = false.
Proof. split_and!; vm_compute; reflexivity. Qed.
