(* ===== verification/Softwire.v ===== *)
(** The softwire server: src/internal/softwirectl/softwire.go.  It drives a
    datapath through the interface [Datapath] and remembers which endpoints carry
    traffic.  The theorems are proved against the interface's laws, which
    [Loader_laws] discharges for the Loader of Datapath.v from the machine of
    Migration.v. *)

From S2P Require Import Prelude Stats Wire Netip Datapath Migration.

Local Open Scope Z_scope.

Record Endpoints : Type := mkEndpoints { B4 : Addr; AFTR : Addr }.

#[export] Instance Endpoints_eq_dec : EqDecision Endpoints.
Proof. solve_decision. Defined.

(** The datapath's flow-affinity counters, cumulative. *)
Record Counts : Type := mkCounts { AffinityInsert : Z; AffinityInsertFail : Z }.
Definition zeroCounts : Counts := mkCounts 0 0.

(** ** The interface *)

Class Datapath (D : Type) : Type := {
  readStats : D -> outcome Stats * D;
  perform : transition -> D -> outcome unit * D;
  GCFlows : FlowIdleTimeouts -> D -> outcome Z * D;
}.

(** What the softwire relies on: the migration machine, whatever fails, and that
    the other calls do not touch it. *)
Class DatapathLaws (D : Type) `{Datapath D} : Type := {
  dp_ok : D -> Prop;
  dp_phase : D -> phase;
  perform_law t d r d' : dp_ok d -> perform t d = (r, d') -> dp_ok d' /\
    match r with
    | Ret _ => next t (dp_phase d) = Some (dp_phase d')
    | Fail _ => dp_phase d' ∈ stopped t (dp_phase d)
    | Panic => False
    end;
  readStats_law d r d' : dp_ok d -> readStats d = (r, d') -> dp_ok d' /\ dp_phase d' = dp_phase d;
  GC_law t d r d' : dp_ok d -> GCFlows t d = (r, d') -> dp_ok d' /\ dp_phase d' = dp_phase d;
}.

(** 30 and 5 minutes. *)
Definition flowIdle : FlowIdleTimeouts := mkIdle (30 * 60 * 1000000000) (5 * 60 * 1000000000).

(** ** State, requests, replies *)

Inductive request : Type :=
| recoverReq
| sourceReq (aftr : Addr)
| switchReq (to : Endpoints)
| beginReq (to : Endpoints)
| countsReq
| abortReq
| cutoverReq
| gcReq
| completeReq.

(** A reply's [Err] is [None] when the request was carried out. *)
Inductive value : Type :=
| recovered (ep : Endpoints) (err : option string)
| sourceRep (addr : Addr) (ok : bool) (err : option string)
| countsRep (c : Counts) (err : option string)
| gcRep (remaining : Z) (err : option string)
| doneRep (err : option string).

Definition zeroEndpoints : Endpoints := mkEndpoints AInvalid AInvalid.

Section Server.
Context {D : Type} `{Datapath D}.

(** [endpoints]: the calls made to the companion tunnel's SetEndpoints, newest
    first; they are best-effort, their failure is only logged. *)
Record Softwire : Type := mkSoftwire {
  dp : D; active : Endpoints; target : Endpoints; migrating : bool; endpoints : list Endpoints }.

Definition with_dp (sw : Softwire) (d : D) : Softwire :=
  mkSoftwire d (active sw) (target sw) (migrating sw) (endpoints sw).
Definition setTunnel (sw : Softwire) (ep : Endpoints) : Softwire :=
  mkSoftwire (dp sw) (active sw) (target sw) (migrating sw) (ep :: endpoints sw).

Definition NewSoftwire (d : D) (ep : Endpoints) : Softwire := mkSoftwire d ep zeroEndpoints false [].

Definition err_of {A} (m : outcome A) : option string :=
  match m with Ret _ => None | Fail e => Some e | Panic => Some "panic" end.

Definition counts (sw : Softwire) : outcome Counts * Softwire :=
  let '(r, d) := readStats (dp sw) in
  ((fun s => mkCounts (Stats.AffinityInsert s) (Stats.AffinityInsertFail s)) <$> r, with_dp sw d).

(** [nl]: the kernel's source selection, [None] for a static B4. *)
Definition handle (nl : option (Addr -> outcome (Addr * bool))) (req : request) (sw : Softwire)
    : value * Softwire :=
  match req with
  | recoverReq =>
    if migrating sw then
      match perform (Switch (B4 (active sw)) (AFTR (active sw))) (dp sw) with
      | (Ret _, d) =>
        (recovered (active sw) None,
         setTunnel (mkSoftwire d (active sw) (target sw) false (endpoints sw)) (active sw))
      | (r, d) => (recovered zeroEndpoints (err_of r), with_dp sw d)
      end
    else (recovered (active sw) None, sw)
  | sourceReq aftr =>
    match nl with
    | None => (sourceRep AInvalid false (Some "no netlink socket to select the B4 source with"), sw)
    | Some src =>
      match src aftr with
      | Ret (a, ok) => (sourceRep a ok None, sw)
      | r => (sourceRep AInvalid false (err_of r), sw)
      end
    end
  | switchReq to =>
    match perform (Switch (B4 to) (AFTR to)) (dp sw) with
    | (Ret _, d) => (doneRep None, setTunnel (mkSoftwire d to (target sw) false (endpoints sw)) to)
    | (r, d) => (doneRep (err_of r), with_dp sw d)
    end
  | beginReq to =>
    match counts sw with
    | (Ret c, sw) =>
      match perform (Begin (B4 to) (AFTR to)) (dp sw) with
      | (Ret _, d) => (countsRep c None, mkSoftwire d (active sw) to true (endpoints sw))
      | (r, d) => (countsRep zeroCounts (err_of r), with_dp sw d)
      end
    | (r, sw) => (countsRep zeroCounts (err_of r), sw)
    end
  | countsReq =>
    match counts sw with
    | (Ret c, sw) => (countsRep c None, sw)
    | (r, sw) => (countsRep zeroCounts (err_of r), sw)
    end
  | abortReq =>
    match perform Abort (dp sw) with
    | (Ret _, d) => (doneRep None, mkSoftwire d (active sw) (target sw) false (endpoints sw))
    | (r, d) => (doneRep (err_of r), with_dp sw d)
    end
  | cutoverReq =>
    match perform Cut (dp sw) with
    | (Ret _, d) =>
      (doneRep None,
       setTunnel (mkSoftwire d (target sw) (target sw) (migrating sw) (endpoints sw)) (target sw))
    | (r, d) => (doneRep (err_of r), with_dp sw d)
    end
  | gcReq =>
    match GCFlows flowIdle (dp sw) with
    | (Ret n, d) => (gcRep n None, with_dp sw d)
    | (r, d) => (gcRep 0 (err_of r), with_dp sw d)
    end
  | completeReq =>
    match perform Complete (dp sw) with
    | (Ret _, d) => (doneRep None, mkSoftwire d (active sw) (target sw) false (endpoints sw))
    | (r, d) => (doneRep (err_of r), with_dp sw d)
    end
  end.

End Server.
Arguments Softwire : clear implicits.


(** ** The softwire mirrors the datapath *)

Definition pair_of (ep : Endpoints) : NextHop := pair (B4 ep) (AFTR ep).

(** The pair new flows use. *)
Definition current (p : phase) : NextHop :=
  match p with Steady _ c _ | Priming _ c _ | Draining _ c _ => c end.

Section Laws.
Context {D : Type} `{HL : DatapathLaws D}.

(** [active] is the pair the datapath sends new flows to, [target] the pair a
    preparation holds ready, and [migrating] is set whenever the datapath is in
    the middle of a migration. *)
Definition mirrors (sw : Softwire D) : Prop :=
  dp_ok (dp sw) /\ current (dp_phase (dp sw)) = pair_of (active sw) /\
  match dp_phase (dp sw) with
  | Steady _ _ _ => True
  | Priming _ _ new => migrating sw = true /\ new = pair_of (target sw)
  | Draining _ _ _ => migrating sw = true
  end.

(** A call that fails leaves the datapath where the softwire still mirrors it. *)
Lemma mirrors_fail t (sw : Softwire D) e d : mirrors sw ->
  perform t (dp sw) = (Fail e, d) -> mirrors (with_dp sw d).
Proof.
  intros (Hok & Hc & Hp) Hr. destruct (perform_law _ _ _ _ Hok Hr) as (Hok' & Hl).
  split; [done|]. destruct t, (dp_phase (dp sw)) as [e0 c0 p0|e0 c0 n0|e0 c0 o0]; cbn in Hc, Hp;
    unfold stopped in Hl; rewrite ?elem_of_cons, ?elem_of_nil in Hl;
    destruct_or? Hl; try done; cbn; rewrite Hl; cbn; try done; by destruct Hp.
Qed.

Lemma perform_ret t (sw : Softwire D) u d : mirrors sw -> perform t (dp sw) = (Ret u, d) ->
  dp_ok d /\ next t (dp_phase (dp sw)) = Some (dp_phase d).
Proof. intros (Hok & _) Hr. by destruct (perform_law _ _ _ _ Hok Hr). Qed.

Lemma perform_panic t (sw : Softwire D) d : mirrors sw -> perform t (dp sw) <> (Panic, d).
Proof. intros (Hok & _) Hr. by destruct (perform_law _ _ _ _ Hok Hr). Qed.

Lemma Switch_ret (sw : Softwire D) b4 aftr u d : mirrors sw ->
  perform (Switch b4 aftr) (dp sw) = (Ret u, d) ->
  dp_ok d /\ exists e prev, dp_phase d = Steady e (pair b4 aftr) prev.
Proof.
  intros Hm Hr. destruct (perform_ret _ _ _ _ Hm Hr) as [Hok Hn]. split; [done|].
  destruct (dp_phase (dp sw)); cbn in Hn; destruct (acceptable b4 aftr); try done;
    injection Hn as <-; eauto.
Qed.

Lemma mirrors_aside (sw : Softwire D) d : mirrors sw -> dp_ok d -> dp_phase d = dp_phase (dp sw) ->
  mirrors (with_dp sw d).
Proof. intros (_ & Hc & Hp) Hok Hd. split; [done|]. cbn. by rewrite Hd. Qed.

Lemma mirrors_counts (sw : Softwire D) r sw' : mirrors sw -> counts sw = (r, sw') ->
  mirrors sw' /\ active sw' = active sw /\ target sw' = target sw /\ migrating sw' = migrating sw /\
  dp_phase (dp sw') = dp_phase (dp sw).
Proof.
  intros Hm. unfold counts. destruct (readStats (dp sw)) as [o d] eqn:Hs. intros [= <- <-].
  destruct (readStats_law _ _ _ (proj1 Hm) Hs) as [Hok Hph].
  split; [by apply mirrors_aside|done].
Qed.
(** Leaving the migration in the phase the transition reached. *)
Lemma mirrors_steady (sw : Softwire D) e prev ep : dp_ok (dp sw) -> active sw = ep ->
  dp_phase (dp sw) = Steady e (pair_of ep) prev -> mirrors sw.
Proof. intros Hok <- Hp. split; [done|]. by rewrite Hp. Qed.

Lemma mirrors_handle nl req (sw : Softwire D) : mirrors sw -> mirrors (handle nl req sw).2.
Proof.
  intros Hm. destruct req as [|aftr|to|to| | | | |]; cbn [handle].
  - destruct (migrating sw); [|done].
    destruct (perform _ _) as [[u|e|] d] eqn:Hr; [|by eapply mirrors_fail|by apply perform_panic in Hr].
    destruct (Switch_ret _ _ _ _ _ Hm Hr) as (Hok & e & prev & Hp).
    by eapply (mirrors_steady _ e prev (active sw)).
  - destruct nl as [src|]; [|done]. by destruct (src aftr) as [[]| |].
  - destruct (perform _ _) as [[u|e|] d] eqn:Hr; [|by eapply mirrors_fail|by apply perform_panic in Hr].
    destruct (Switch_ret _ _ _ _ _ Hm Hr) as (Hok & e & prev & Hp).
    by eapply (mirrors_steady _ e prev to).
  - destruct (counts sw) as [[c|e|] sw1] eqn:Hc; destruct (mirrors_counts _ _ _ Hm Hc) as (Hm1 & Ha & _);
      [|done..].
    destruct (perform _ _) as [[u|e|] d] eqn:Hr; [|by eapply mirrors_fail|by apply perform_panic in Hr].
    destruct (perform_ret _ _ _ _ Hm1 Hr) as [Hok Hn]. destruct Hm1 as (_ & Hcur & _).
    destruct (dp_phase (dp sw1)) as [e0 c0 p0| |]; cbn in Hn; try done.
    destruct (acceptable _ _); [|done]. injection Hn as Hn. split; [done|]. cbn. rewrite <- Hn. by cbn.
  - destruct (counts sw) as [[c|e|] sw1] eqn:Hc; by destruct (mirrors_counts _ _ _ Hm Hc) as (Hm1 & _).
  - destruct (perform _ _) as [[u|e|] d] eqn:Hr; [|by eapply mirrors_fail|by apply perform_panic in Hr].
    destruct (perform_ret _ _ _ _ Hm Hr) as [Hok Hn]. destruct Hm as (_ & Hcur & _).
    destruct (dp_phase (dp sw)) as [|e0 c0 n0|]; cbn in Hn; try done. injection Hn as Hn.
    eapply (mirrors_steady _ e0 zeroNextHop (active sw)); [done..|]. cbn. by rewrite <- Hn, <- Hcur.
  - destruct (perform _ _) as [[u|e|] d] eqn:Hr; [|by eapply mirrors_fail|by apply perform_panic in Hr].
    destruct (perform_ret _ _ _ _ Hm Hr) as [Hok Hn]. destruct Hm as (_ & Hcur & Hp).
    destruct (dp_phase (dp sw)) as [|e0 c0 n0|]; cbn in Hn; try done. injection Hn as Hn.
    destruct Hp as [Hmig Ht]. split; [done|]. cbn. rewrite <- Hn. by cbn.
  - destruct (GCFlows _ _) as [r d] eqn:Hr. destruct (GC_law _ _ _ _ (proj1 Hm) Hr) as [Hok Hp].
    destruct r; by apply mirrors_aside.
  - destruct (perform _ _) as [[u|e|] d] eqn:Hr; [|by eapply mirrors_fail|by apply perform_panic in Hr].
    destruct (perform_ret _ _ _ _ Hm Hr) as [Hok Hn]. destruct Hm as (_ & Hcur & _).
    destruct (dp_phase (dp sw)) as [| |e0 c0 o0]; cbn in Hn; try done. injection Hn as Hn.
    eapply (mirrors_steady _ e0 zeroNextHop (active sw)); [done..|]. cbn. by rewrite <- Hn, <- Hcur.
Qed.

Definition handles nl (reqs : list request) (sw : Softwire D) : Softwire D :=
  fold_left (fun sw r => (handle nl r sw).2) reqs sw.

Lemma mirrors_handles nl reqs sw : mirrors sw -> mirrors (handles nl reqs sw).
Proof.
  revert sw. induction reqs as [|r reqs IH]; intros sw Hm; [done|].
  exact (IH _ (mirrors_handle nl r sw Hm)).
Qed.

Lemma mirrors_new (d : D) ep e prev : dp_ok d -> dp_phase d = Steady e (pair_of ep) prev ->
  mirrors (NewSoftwire d ep).
Proof. intros. by eapply mirrors_steady. Qed.
End Laws.

(** ** The Loader as a datapath *)

(** The Loader's maps, the stats map's contents per counter, and the readings of
    the clock to come. *)
Record Loader : Type := mkLoader {
  maps : world; perCPU : Z -> outcome (list Z); clock : list (option Z) }.

#[export] Instance Loader_datapath : Datapath Loader := {|
  readStats l := (sumStats (perCPU l), l);
  perform t l := let '(r, w) := migrate t (maps l) in (r, mkLoader w (perCPU l) (clock l));
  GCFlows t l :=
    let '(r, w) := GCFlowAffinity t (default None (head (clock l))) (maps l) in
    (r, mkLoader w (perCPU l) (tail (clock l)))
|}.

#[export, refine] Instance Loader_laws : DatapathLaws Loader := {|
  dp_ok l := Inv (maps l);
  dp_phase l := phase_of (now_seen (maps l))
|}.
Proof.
  - intros t l r l' HI H. cbn in H. destruct (migrate t (maps l)) as [r0 w] eqn:Hm. injection H as <- <-.
    destruct (wp_migrate t (maps l) HI) as ((HI' & _) & Hc). rewrite Hm in *. split; [done|].
    destruct r0; [done|by destruct Hc|done].
  - by intros l r l' HI [= <- <-].
  - intros t l r l' HI H. cbn in H.
    destruct (GCFlowAffinity _ _ _) as [r0 w] eqn:Hm. injection H as <- <-. cbn.
    pose proof (aside_run (GC t (default None (head (clock l)))) I) as Ha.
    assert (w = (run (GC t (default None (head (clock l)))) (maps l)).2) as ->.
    { cbn [run]. unfold mbind, DP_bind. rewrite Hm. by destruct r0. }
    split; [by apply aside_Inv|]. by destruct (Ha (maps l)) as [-> _].
Defined.

(** ** The theorems *)

(** Whatever requests the softwire server handled since it was built on the
    endpoints the datapath carries, and whatever failed underneath, its [active]
    endpoints are the pair the datapath sends new flows to, its [target] the pair
    a preparation holds ready, and it knows that a migration is in progress
    whenever the datapath is in one. *)
Lemma softwire_mirrors `{DatapathLaws D} nl reqs (d : D) ep e prev sw :
  dp_ok d -> dp_phase d = Steady e (pair_of ep) prev ->
  handles nl reqs (NewSoftwire d ep) = sw ->
  current (dp_phase (dp sw)) = pair_of (active sw) /\
  (forall e c new, dp_phase (dp sw) = Priming e c new -> migrating sw = true /\ new = pair_of (target sw)) /\
  (forall e c old, dp_phase (dp sw) = Draining e c old -> migrating sw = true).
Proof.
  intros Hok Hp <-. destruct (mirrors_handles nl reqs _ (mirrors_new d ep e prev Hok Hp)) as (_ & Hc & Hph).
  split; [done|]. split; intros e' c x Hx; rewrite Hx in Hph; [by destruct Hph|done].
Qed.

(** A restarted controller is told the truth: a recovery that succeeds reports
    the pair new flows use, after ending the migration the previous controller left
    behind; one that fails leaves that pair and the server's knowledge as they
    were. *)
Lemma recover_truthful `{DatapathLaws D} nl (sw : Softwire D) v sw' :
  mirrors sw -> handle nl recoverReq sw = (v, sw') ->
  mirrors sw' /\ active sw' = active sw /\
  exists ep err, v = recovered ep err /\
    match err with
    | None => ep = active sw /\ migrating sw' = false /\
              exists e prev, dp_phase (dp sw') = Steady e (pair_of ep) prev
    | Some _ => migrating sw' = true
    end.
Proof.
  intros Hm H1. split; [pose proof (mirrors_handle nl recoverReq sw Hm) as H2; by rewrite H1 in H2|].
  cbn [handle] in H1. destruct (migrating sw) eqn:Hmig.
  - destruct (perform _ _) as [[u|e|] d] eqn:Hr; [| |by apply perform_panic in Hr];
      injection H1 as <- <-; (split; [done|]); eexists _, _; (split; [done|]); [|done].
    destruct (Switch_ret _ _ _ _ _ Hm Hr) as (Hok & e & prev & Hp). eauto.
  - injection H1 as <- <-. split; [done|]. eexists _, _. split; [done|]. split; [done|]. split; [done|].
    destruct Hm as (_ & Hc & Hp). destruct (dp_phase (dp sw)) as [e c p| |]; [|by destruct Hp; congruence|congruence].
    cbn in Hc. subst c. eauto.
Qed.

(** ** At concrete inputs *)

Definition ep_1 : Endpoints := mkEndpoints b4_1 aftr_1.
Definition ep_2 : Endpoints := mkEndpoints b4_1 aftr_2.
Definition loader_1 : Loader := mkLoader w_1 (fun _ => Ret [1; 2]) [Some 10; None].
Definition reqs_1 : list request := [countsReq; beginReq ep_2; gcReq; cutoverReq].
Definition sw_1 : Softwire Loader := handles None reqs_1 (NewSoftwire loader_1 ep_1).

Lemma loader_1_steady : dp_phase loader_1 = Steady 0 (pair_of ep_1) zeroNextHop.
Proof. vm_compute. reflexivity. Qed.

Lemma softwire_mirrors_witness : current (dp_phase (dp sw_1)) = pair_of (active sw_1).
Proof.
  exact (proj1 (softwire_mirrors None reqs_1 loader_1 ep_1 0 zeroNextHop sw_1 w_1_Inv loader_1_steady eq_refl)).
Defined.

Lemma sw_1_mirrors : mirrors sw_1.
Proof. exact (mirrors_handles None reqs_1 _ (mirrors_new loader_1 ep_1 0 zeroNextHop w_1_Inv loader_1_steady)). Qed.

(** The controller dies in the drain: the next one is told of the new AFTR. *)
Lemma recover_truthful_witness :
  migrating sw_1 = true /\ active (handle None recoverReq sw_1).2 = ep_2.
Proof.
  split; [vm_compute; reflexivity|].
  transitivity (active sw_1); [|vm_compute; reflexivity].
  exact (proj1 (proj2 (recover_truthful None sw_1 (handle None recoverReq sw_1).1 (handle None recoverReq sw_1).2
    sw_1_mirrors (surjective_pairing _)))).
Defined.
