(* ===== verification/Mtu.v ===== *)
(** The softwire's path MTU: what the datapath derives from it
    (src/pkg/datapath/frag.go, mss.go, pmtu.go), the companion tunnel's MTU
    (src/internal/slowpath/tunnel.go) and the process that keeps both in step with
    what has been learned (src/internal/tunnelpmtu/tunnelpmtu.go). *)

From S2P Require Import Prelude Packet Stats Wire Netip Datapath Migration Softwire.

Local Open Scope Z_scope.

(** ** The companion tunnel *)

Definition tunnelOverhead : Z := 40.
Definition minSoftwireMTU : Z := 1280.

Definition tunnelMTU (softwireMTU : Z) : Z := Z.max softwireMTU minSoftwireMTU - tunnelOverhead.

Record Tunnel : Type := mkTunnel { tmtu : Z; ifindex : Z }.

(** [setLink]: the kernel's answer to SetLinkMTU. *)
Definition Tunnel_SetSoftwireMTU (setLink : Z -> outcome unit) (t : Tunnel) (softwireMTU : Z)
    : outcome unit * Tunnel :=
  if ifindex t =? 0 then (Fail "slowpath: SetSoftwireMTU before Ensure", t)
  else
    let mtu := tunnelMTU softwireMTU in
    if mtu =? tmtu t then (Ret tt, t)
    else match setLink mtu with
         | Ret _ => (Ret tt, mkTunnel mtu (ifindex t))
         | r => (r, t)
         end.

(** ** The process *)

Class MtuDatapath (D : Type) : Type := {
  learnedPMTU : D -> option Z * D;
  setSoftwireMTU : Z -> D -> outcome unit * D }.
Class MtuTunnel (T : Type) : Type := {
  setTunnelMTU : Z -> T -> outcome unit * T }.

Definition PollInterval : Z := 2 * 1000000000.

Record state : Type := mkState { frag : Z; tunnel : Z; reported : Z }.

Definition Init (wanMTU : Z) : state := mkState 0 0 wanMTU.

(** [int(learned)]: a uint32 fits Go's 64-bit int. *)
Definition effective (wanMTU : Z) (learned : option Z) : Z :=
  match learned with
  | Some m => if m <? wanMTU then m else wanMTU
  | None => wanMTU
  end.

(** The Loader and the tunnel, with the kernel that answers SetLinkMTU. *)
#[export] Instance Loader_mtu : MtuDatapath Loader := {|
  learnedPMTU l :=
    let '(m, w) := TunnelPMTU (default None (head (clock l))) (maps l) in
    (m, mkLoader w (perCPU l) (tail (clock l)));
  setSoftwireMTU mtu l :=
    let '(r, w) := SetSoftwireMTU mtu (maps l) in (r, mkLoader w (perCPU l) (clock l)) |}.

Record Device : Type := mkDevice { device : Tunnel; setLinks : list (outcome unit) }.
#[export] Instance Device_mtu : MtuTunnel Device := {|
  setTunnelMTU mtu t :=
    let '(r, d) := Tunnel_SetSoftwireMTU (fun _ => default (Ret tt) (head (setLinks t))) (device t) mtu in
    (r, mkDevice d (tail (setLinks t))) |}.

Section Watcher.
Context {D T : Type} `{MtuDatapath D} `{MtuTunnel T}.

(** A tick: the state, the datapath and the tunnel after it, and whether a reading
    was logged.  The next tick is always started, [PollInterval] later. *)
Definition HandleTick (wanMTU : Z) (st : state) (d : D) (t : T) : state * D * T * bool :=
  let '(learned, d) := learnedPMTU d in
  let mtu := effective wanMTU learned in
  let '(st, d) :=
    if mtu =? frag st then (st, d)
    else match setSoftwireMTU mtu d with
         | (Ret _, d) => (mkState mtu (tunnel st) (reported st), d)
         | (_, d) => (st, d)
         end in
  let '(st, t) :=
    if mtu =? tunnel st then (st, t)
    else match setTunnelMTU mtu t with
         | (Ret _, t) => (mkState (frag st) mtu (reported st), t)
         | (_, t) => (st, t)
         end in
  if (frag st =? mtu) && negb (mtu =? reported st)
  then (mkState (frag st) (tunnel st) mtu, d, t, true) else (st, d, t, false).
End Watcher.

(** ** What the datapath derives *)

(** The fragment size the datapath is given is the largest multiple of 8 whose
    fragment, outer header and Fragment header included, fits the MTU, and the MSS
    it clamps to is exactly what fits one unfragmented packet, for every MTU up to
    2^31; an MTU too small for either switches the feature off. *)
Lemma mtu_budget m : m < 2 ^ 31 ->
  (56 < m -> softwireFragUnit m mod 8 = 0 /\ 0 < softwireFragUnit m /\
             softwireFragUnit m + softwireFragOverhead <= m < softwireFragUnit m + softwireFragOverhead + 8) /\
  (- 2 ^ 31 < m <= 56 -> softwireFragUnit m = 0) /\
  (616 <= m -> autoTCPMSSClamp m + tcpMSSOverhead + softwireEncapOverhead = m) /\
  (- 2 ^ 31 < m < 616 -> autoTCPMSSClamp m = 0).
Proof.
  intros Hm. unfold softwireFragUnit, autoTCPMSSClamp, softwireFragOverhead, softwireEncapOverhead,
    tcpMSSOverhead, minTCPMSSClamp.
  split; [|split; [|split]]; intros H.
  - rewrite (proj2 (Z.leb_gt _ _)), i64_id, (Z.mod_small (m - 48)), ldiff_7 by lia.
    pose proof (Z.mod_pos_bound (m - 48) 8 eq_refl). pose proof (Z.div_mod (m - 48) 8 ltac:(lia)).
    rewrite Z.mod_mul by lia. lia.
  - by rewrite (proj2 (Z.leb_le _ _)) by lia.
  - rewrite (i64_id (m - 40)), (i64_id (m - 40 - 40)), (proj2 (Z.ltb_ge _ _)), Z.mod_small by lia. lia.
  - by rewrite (i64_id (m - 40)), (i64_id (m - 40 - 40)), (proj2 (Z.ltb_lt _ _)) by lia.
Qed.

(** ** TunnelPMTU *)

(** A reading in force at [now]. *)
Definition in_force (now : Z) (v : TunnelPmtu) : bool :=
  negb (UpdatedNs v =? 0) && negb (Mtu v =? 0) && (u64 (now - UpdatedNs v) <=? TunnelPMTUExpiry).

Definition min_opt (a b : option Z) : option Z :=
  match a, b with
  | Some x, Some y => Some (Z.min x y)
  | Some x, None => Some x
  | None, _ => b
  end.

Lemma pmtu_slot_calm now s acc w : calm w ->
  exists w', pmtu_slot now s acc w =
    (let v := default zeroPmtu (pmtus w !! s) in min_opt acc (if in_force now v then Some (Mtu v) else None), w') /\
    calm w' /\ pmtus w' = pmtus w.
Proof.
  intros Hc. unfold pmtu_slot, mapop. rewrite Hc. cbn [head default tail].
  exists (with_faults w []). split; [|by split].
  cbv zeta. set (v := default _ _). unfold in_force, min_opt. rewrite Z.ltb_antisym.
  destruct (UpdatedNs v =? 0), (Mtu v =? 0), (u64 (now - UpdatedNs v) <=? TunnelPMTUExpiry);
    cbn [negb orb andb]; destruct acc as [a|]; try done.
  destruct (Z.ltb_spec (Mtu v) a); repeat f_equal; lia.
Qed.

(** The path MTU reported is the smallest of the readings that are in force
    over the two slots, and none when no slot has one: an empty slot, a reading of
    zero or one older than ten minutes never counts. *)
Lemma TunnelPMTU_min now w : calm w ->
  (TunnelPMTU (Some now) w).1 =
  min_opt
    (let v := default zeroPmtu (pmtus w !! 0) in if in_force now v then Some (Mtu v) else None)
    (let v := default zeroPmtu (pmtus w !! 1) in if in_force now v then Some (Mtu v) else None).
Proof.
  intros Hc. unfold TunnelPMTU. change (seqZ 0 numNextHops) with [0; 1]. cbn [pmtu_loop].
  destruct (pmtu_slot_calm now 0 None w Hc) as (w1 & -> & Hc1 & Hp1).
  destruct (pmtu_slot_calm now 1 (let v := default zeroPmtu (pmtus w !! 0) in
    min_opt None (if in_force now v then Some (Mtu v) else None)) w1 Hc1) as (w2 & -> & _ & _).
  by rewrite Hp1.
Qed.

(** ** The process keeps both in step *)

(** What the process believes it has applied is applied. *)
Definition in_step (st : state) (l : Loader) (t : Device) : Prop :=
  (frag st <> 0 ->
     FragUnit (b4cfg (maps l)) = softwireFragUnit (frag st) /\
     (mssClampAuto (maps l) = true -> MssClamp (b4cfg (maps l)) = autoTCPMSSClamp (frag st))) /\
  (tunnel st <> 0 -> tmtu (device t) = tunnelMTU (tunnel st)).

Lemma pmtu_loop_b4 now l acc w : b4cfg (pmtu_loop now l acc w).2 = b4cfg w /\
  mssClampAuto (pmtu_loop now l acc w).2 = mssClampAuto w /\ (calm w -> calm (pmtu_loop now l acc w).2).
Proof.
  revert acc w. induction l as [|s l IH]; intros acc w; [done|]. cbn.
  assert (b4cfg (pmtu_slot now s acc w).2 = b4cfg w /\ mssClampAuto (pmtu_slot now s acc w).2 = mssClampAuto w /\
    (calm w -> calm (pmtu_slot now s acc w).2)) as (H1 & H2 & H3).
  { unfold pmtu_slot, mapop, calm. destruct (faults w) as [|[] fs]; done. }
  destruct (pmtu_slot now s acc w) as [acc' w']. destruct (IH acc' w') as (H4 & H5 & H6). cbn in *.
  split; [congruence|]. split; [congruence|]. auto.
Qed.

Lemma learned_b4 (l : Loader) : b4cfg (maps (learnedPMTU l).2) = b4cfg (maps l) /\
  mssClampAuto (maps (learnedPMTU l).2) = mssClampAuto (maps l) /\ (calm (maps l) -> calm (maps (learnedPMTU l).2)).
Proof.
  cbn. destruct (default None (head (clock l))) as [now|]; cbn; [|done].
  pose proof (pmtu_loop_b4 now (seqZ 0 numNextHops) None (maps l)) as H.
  destruct (pmtu_loop _ _ _ _). exact H.
Qed.

(** SetSoftwireMTU: all or nothing, and the rest of the configuration kept. *)
Lemma SetSoftwireMTU_spec mtu w :
  let '(r, w') := SetSoftwireMTU mtu w in
  match r with
  | Ret _ => b4cfg w' = mkB4Val (SrcMac (b4cfg w)) (DstMac (b4cfg w)) (WanIfindex (b4cfg w)) (softwireFragUnit mtu)
               (FragMaxInner (b4cfg w)) (if mssClampAuto w then autoTCPMSSClamp mtu else MssClamp (b4cfg w)) /\
             mssClampAuto w' = mssClampAuto w
  | _ => b4cfg w' = b4cfg w /\ mssClampAuto w' = mssClampAuto w /\ ~ calm w
  end.
Proof.
  unfold SetSoftwireMTU, putB4, mapop, mbind, DP_bind, calm.
  destruct (faults w) as [|[] [|[] fs]]; cbn; try done; by split.
Qed.

Lemma tick_in_step wanMTU st l t : in_step st l t ->
  let '(st', l', t', _) := HandleTick wanMTU st l t in in_step st' l' t'.
Proof.
  intros [Hf Ht]. unfold HandleTick. destruct (learned_b4 l) as (Hb & Ha & _).
  destruct (learnedPMTU l) as [m l1]. cbn [snd] in Hb, Ha. set (mtu := effective _ _).
  set (q := if mtu =? frag st then (st, l1) else _).
  assert (in_step q.1 q.2 t /\ tunnel q.1 = tunnel st) as [Hq Hqt].
  { unfold q. destruct (Z.eqb_spec mtu (frag st)); [split; [|done]; split; [|done]; cbn; by rewrite Hb, Ha|].
    pose proof (SetSoftwireMTU_spec mtu (maps l1)) as Hs. cbn.
    destruct (SetSoftwireMTU mtu (maps l1)) as [r w]. destruct r as [u|e|].
    - destruct Hs as [Hs1 Hs2]. split; [|done]. split; [|done]. cbn. rewrite Hs1, Hs2. intros _. split; [done|].
      cbn. by intros ->.
    - destruct Hs as (Hs1 & Hs2 & _). split; [|done]. split; [|done]. cbn. by rewrite Hs1, Hs2, Hb, Ha.
    - destruct Hs as (Hs1 & Hs2 & _). split; [|done]. split; [|done]. cbn. by rewrite Hs1, Hs2, Hb, Ha. }
  destruct q as [st1 l2]. cbn in Hq, Hqt. destruct Hq as [Hq1 Hq2].
  set (q2 := if mtu =? tunnel st1 then (st1, t) else _).
  assert (in_step q2.1 l2 q2.2) as Hq3.
  { unfold q2. destruct (Z.eqb_spec mtu (tunnel st1)); [by split|]. cbn.
    unfold Tunnel_SetSoftwireMTU. destruct (ifindex (device t) =? 0); [by split|].
    destruct (Z.eqb_spec (tunnelMTU mtu) (tmtu (device t))); [split; [done|]; cbn; congruence|].
    destruct (default _ _); by split. }
  destruct q2 as [st2 t2]. cbn in Hq3. by destruct (_ && _).
Qed.

(** A tick on which nothing fails applies the path MTU in force to both. *)
Lemma tick_converges wanMTU st l t m l1 : calm (maps l) -> ifindex (device t) <> 0 -> setLinks t = [] ->
  learnedPMTU l = (m, l1) ->
  let '(st', _, _, _) := HandleTick wanMTU st l t in
  frag st' = effective wanMTU m /\ tunnel st' = effective wanMTU m /\ reported st' = effective wanMTU m.
Proof.
  intros Hc Hi Hs Hl. unfold HandleTick. pose proof (learned_b4 l) as (_ & _ & Hc1). rewrite Hl in *.
  cbn [snd] in Hc1. specialize (Hc1 Hc). set (mtu := effective _ _).
  set (q := if mtu =? frag st then (st, l1) else _).
  assert (frag q.1 = mtu) as Hq.
  { unfold q. destruct (Z.eqb_spec mtu (frag st)); [done|]. pose proof (SetSoftwireMTU_spec mtu (maps l1)) as Hsp.
    cbn. destruct (SetSoftwireMTU mtu (maps l1)) as [r w]. by destruct r as [u|e|]; [|destruct_and! Hsp..]. }
  destruct q as [st1 l2]. cbn in Hq. set (q2 := if mtu =? tunnel st1 then (st1, t) else _).
  assert (frag q2.1 = mtu /\ tunnel q2.1 = mtu) as [Hq2 Hq3].
  { unfold q2. destruct (Z.eqb_spec mtu (tunnel st1)); [done|]. cbn. unfold Tunnel_SetSoftwireMTU.
    rewrite (proj2 (Z.eqb_neq _ _) Hi), Hs. by destruct (_ =? _). }
  destruct q2 as [st2 t2]. cbn in Hq2, Hq3. rewrite Hq2, Z.eqb_refl. cbn [andb].
  destruct (Z.eqb_spec mtu (reported st2)); cbn; done.
Qed.

Definition ticks (wanMTU n : Z) (l : Loader) (t : Device) : state * Loader * Device :=
  Nat.iter (Z.to_nat n) (fun x => let '(st, l, t) := x in (HandleTick wanMTU st l t).1) (Init wanMTU, l, t).

(** After any number of ticks, whatever map updates and netlink requests failed
    in them, what the process takes as applied is applied: the datapath's fragment
    size and automatic MSS clamp are those of the MTU it recorded for the datapath,
    the tunnel device's MTU that of the one it recorded for the tunnel; and a tick
    on which nothing fails brings both to the path MTU then in force, the WAN's own
    or the smaller one learned. *)
Lemma pmtu_in_step wanMTU n l t st l' t' : ticks wanMTU n l t = (st, l', t') ->
  in_step st l' t' /\
  (forall m l1 st2 l2 t2 b, calm (maps l') -> ifindex (device t') <> 0 -> setLinks t' = [] ->
     learnedPMTU l' = (m, l1) -> HandleTick wanMTU st l' t' = (st2, l2, t2, b) ->
     in_step st2 l2 t2 /\ frag st2 = effective wanMTU m /\ tunnel st2 = effective wanMTU m).
Proof.
  intros H. assert (in_step st l' t') as Hst.
  { revert st l' t' H. unfold ticks. induction (Z.to_nat n) as [|k IH]; intros st l' t'.
    - intros [= <- <- <-]. by split.
    - rewrite Nat.iter_succ. destruct (Nat.iter k _ _) as [[st0 l0] t0] eqn:Hk. specialize (IH st0 l0 t0 eq_refl).
      pose proof (tick_in_step wanMTU st0 l0 t0 IH) as Hs. destruct (HandleTick wanMTU st0 l0 t0) as [[[st3 l3] t3] b3].
      cbn. by intros [= <- <- <-]. }
  split; [done|]. intros m l1 st2 l2 t2 b Hc Hi Hs Hl Ht.
  pose proof (tick_in_step wanMTU st l' t' Hst) as H1. pose proof (tick_converges wanMTU st l' t' m l1 Hc Hi Hs Hl) as H2.
  rewrite Ht in *. by destruct H2 as (? & ? & _).
Qed.

(** ** At concrete inputs *)

Lemma mtu_budget_witness : softwireFragUnit 1500 + softwireFragOverhead <= 1500 /\
  autoTCPMSSClamp 1460 + tcpMSSOverhead + softwireEncapOverhead = 1460.
Proof.
  split.
  - apply (proj1 (mtu_budget 1500 ltac:(reflexivity)) ltac:(reflexivity)).
  - apply (proj1 (proj2 (proj2 (mtu_budget 1460 ltac:(reflexivity))))). discriminate.
Defined.

(** A path MTU of 1400 learned on slot 1, nine minutes old. *)
Definition w_pmtu : world := with_pmtus w_1 (<[1 := mkPmtu 1000 1400]> (pmtus w_1)).

Lemma TunnelPMTU_min_witness : calm w_pmtu /\ (TunnelPMTU (Some (540 * 1000000000)) w_pmtu).1 = Some 1400.
Proof.
  split; [reflexivity|].
  etransitivity; [apply (TunnelPMTU_min (540 * 1000000000) w_pmtu eq_refl)|]. vm_compute. reflexivity.
Defined.

Definition l_pmtu : Loader := mkLoader w_pmtu (fun _ => Ret [0]) [Some 2000; Some 3000].
Definition t_1 : Device := mkDevice (mkTunnel 1460 7) [].

Definition after_2 : state * Loader * Device := ticks 1500 2 l_pmtu t_1.

Lemma pmtu_in_step_witness :
  frag after_2.1.1 = 1400 /\ tunnel after_2.1.1 = 1400 /\ in_step after_2.1.1 after_2.1.2 after_2.2.
Proof.
  split; [vm_compute; reflexivity|]. split; [vm_compute; reflexivity|].
  refine (proj1 (pmtu_in_step 1500 2 l_pmtu t_1 _ _ _ _)).
  unfold after_2. by destruct (ticks 1500 2 l_pmtu t_1) as [[? ?] ?].
Defined.
