(* ===== verification/Pathmtu.v ===== *)
(** The softwire's path MTU across the two halves of the program: the packet
    programs learn it from Packet Too Big errors (learn_tunnel_pmtu of
    src/bpf/datapath.bpf.c), the control plane reads it (TunnelPMTU of
    src/pkg/datapath/pmtu.go) and clears it when it writes a slot.

    Whatever packets arrive and whatever calls are made, neither half ever reads
    a path MTU below 1280; and while readings stay fresh the one in force is the
    smallest reported. *)

From S2P Require Import Prelude Wire Netip Checksum Packet Stats Datapath Tcpmss Migration Mtu Xdp Icmp Ipv6fwd Encap Decap.

Local Open Scope Z_scope.

(** ** One report *)

(** A reading [now] finds fresh. *)
Definition fresh (now : Z) (e : TunnelPmtu) : bool :=
  negb (UpdatedNs e =? 0) && (u64 (now - UpdatedNs e) <? TUNNEL_PMTU_EXPIRY_NS).

Definition entry (w : world) (slot : Z) : TunnelPmtu := default zeroPmtu (pmtus w !! slot).

Lemma learn_spec slot mtu x : slot = 0 \/ slot = 1 ->
  let now := default 0 (head (clock x)) in
  let m := Z.max mtu IPV6_MIN_MTU in
  let e := entry (maps x) slot in
  let w' := maps (learn_tunnel_pmtu slot mtu x) in
  entry w' slot = (if fresh now e && (Mtu e <=? m) then e else mkPmtu now m) /\
  (forall s, s <> slot -> pmtus w' !! s = pmtus (maps x) !! s).
Proof.
  intros Hs. cbv zeta. unfold learn_tunnel_pmtu, numNextHops.
  assert ((0 <=? slot) && (slot <? 2) = true) as -> by (destruct Hs as [-> | ->]; done). cbn [negb bpf_ktime_get_ns].
  replace (if mtu <? IPV6_MIN_MTU then IPV6_MIN_MTU else mtu) with (Z.max mtu IPV6_MIN_MTU)
    by (destruct (Z.ltb_spec mtu IPV6_MIN_MTU); lia).
  unfold fresh, entry. set (e := default zeroPmtu (pmtus (maps x) !! slot)). cbn [maps].
  replace (negb (UpdatedNs e =? 0) && (u64 (_ - UpdatedNs e) <? TUNNEL_PMTU_EXPIRY_NS) && (Mtu e <=? Z.max mtu IPV6_MIN_MTU))
    with (negb (UpdatedNs e =? 0) && (Mtu e <=? Z.max mtu IPV6_MIN_MTU) && (u64 (default 0 (head (clock x)) - UpdatedNs e) <? TUNNEL_PMTU_EXPIRY_NS))
    by (rewrite <- !andb_assoc; f_equal; apply andb_comm).
  destruct (_ && _ && _); [done|]. cbn [maps with_maps increase_stats_count pmtus with_pmtus].
  split; [by rewrite lookup_insert_eq|]. intros s Hne. by rewrite lookup_insert_ne.
Qed.

(** The entry after the reports [rs], each an instant and an MTU. *)
Definition report (e : TunnelPmtu) (r : Z * Z) : TunnelPmtu :=
  let m := Z.max r.2 IPV6_MIN_MTU in
  if fresh r.1 e && (Mtu e <=? m) then e else mkPmtu r.1 m.

Definition reported (e : TunnelPmtu) (rs : list (Z * Z)) : TunnelPmtu := fold_left report rs e.

Definition smallest (m0 : Z) (rs : list (Z * Z)) : Z := fold_left (fun m r => Z.min m (Z.max r.2 IPV6_MIN_MTU)) rs m0.

(** Instants in order, all before [last]. *)
Fixpoint in_order (t : Z) (rs : list (Z * Z)) (last : Z) : Prop :=
  match rs with
  | [] => t <= last
  | r :: rs' => t <= r.1 /\ in_order r.1 rs' last
  end.

Lemma in_order_last t rs last : in_order t rs last -> t <= last.
Proof. revert t. induction rs as [|r rs IH]; intros t Ho; [done|]. destruct Ho as [H1 H2]. apply IH in H2. lia. Qed.

Lemma reported_smallest rs t0 t m last : 0 < t0 <= t -> in_order t rs last -> last - t0 < TUNNEL_PMTU_EXPIRY_NS -> last < 2 ^ 64 ->
  forall u, t0 <= u <= t ->
  let e := reported (mkPmtu u m) rs in Mtu e = smallest m rs /\ t0 <= UpdatedNs e <= last.
Proof.
  unfold TUNNEL_PMTU_EXPIRY_NS. intros Ht. revert t m Ht. induction rs as [|[r mtu] rs IH]; intros t m Ht Ho Hl H64 u Hu; cbv zeta.
  - cbn in *. lia.
  - destruct Ho as [Hr Ho]. cbn [fst] in *. pose proof (in_order_last _ _ _ Ho) as Hrl.
    unfold reported, smallest. cbn [fold_left snd].
    assert (report (mkPmtu u m) (r, mtu) =
      if m <=? Z.max mtu IPV6_MIN_MTU then mkPmtu u m else mkPmtu r (Z.max mtu IPV6_MIN_MTU)) as ->.
    { unfold report, fresh. cbn [fst snd UpdatedNs Mtu]. rewrite (proj2 (Z.eqb_neq u 0)), Z.mod_small by lia. cbn [negb andb].
      by rewrite (proj2 (Z.ltb_lt _ TUNNEL_PMTU_EXPIRY_NS)) by (unfold TUNNEL_PMTU_EXPIRY_NS; lia). }
    destruct (Z.leb_spec m (Z.max mtu IPV6_MIN_MTU)).
    + rewrite Z.min_l by lia. apply (IH r m); (done || lia).
    + rewrite Z.min_r by lia. apply (IH r); (done || lia).
Qed.

(** ** Every packet, every call *)

(** No reading below the minimum. *)
Definition floor_ok (w : world) : Prop :=
  forall slot e, pmtus w !! slot = Some e -> UpdatedNs e = 0 \/ IPV6_MIN_MTU <= Mtu e.

Section Programs.
Context `{Kernel}.

Inductive program : Type :=
| xdp_dslite_encap | xdp_dslite_decap | xdp_dslite_decap_cpu | xdp_ipv6_fwd_cpu | xdp_softwire_frag (i : Z).

Definition run_program (pr : program) : X -> action * X :=
  match pr with
  | xdp_dslite_encap => do_xdp_dslite_encap
  | xdp_dslite_decap => do_xdp_dslite_decap
  | xdp_dslite_decap_cpu => handle_xdp_dslite_decap
  | xdp_ipv6_fwd_cpu => do_xdp_ipv6_fwd_cpu
  | xdp_softwire_frag i => emit_softwire_fragment i
  end.

(** What happens to the maps: a packet of some CPU, or a call of the control
    plane. *)
Inductive happening : Type :=
| Packet (pr : program) (x : X)
| Control (c : call).

Definition happen (h : happening) (w : world) : world :=
  match h with
  | Packet pr x => maps (run_program pr (with_maps x w)).2
  | Control c => (run c w).2
  end.

Definition unlearned (x : X) (r : action * X) : Prop := pmtus (maps r.2) = pmtus (maps x).

Lemma unlearned_lookup_aftr cfg n x : pmtus (maps (lookup_aftr_nexthop cfg n x).2) = pmtus (maps x).
Proof. destruct (lookup_aftr_nexthop cfg n x) as [r y] eqn:E. apply lookup_aftr_nexthop_inv in E as (_ & E & _). cbn. by rewrite E. Qed.

Lemma unlearned_allowed x : pmtus (maps (icmp_error_allowed x).2) = pmtus (maps x).
Proof. destruct (icmp_error_allowed x) as [r y] eqn:E. apply icmp_error_allowed_inv in E as (_ & _ & E & _). cbn. by rewrite E. Qed.

Lemma unlearned_touch c o rev x : pmtus (maps (touch_affinity c o rev x).2) = pmtus (maps x).
Proof.
  unfold touch_affinity. cbn [bpf_ktime_get_ns].
  destruct (touch_flow_affinity _ _ _ _ _) as [[hit failed] aff']. destruct failed; [done|]. by destruct (_ && _).
Qed.

Lemma unlearned_pick c o x : pmtus (maps (pick_slot c o x).2) = pmtus (maps x).
Proof.
  unfold pick_slot. destruct (_ =? _); [done|]. pose proof (unlearned_touch c o false x) as Ht.
  destruct (touch_affinity _ _ _ _) as [hit y]. by destruct (_ && _).
Qed.

Lemma unlearned_read slot x : pmtus (maps (tunnel_pmtu_for slot x).2) = pmtus (maps x).
Proof. destruct (tunnel_pmtu_for slot x) as [r y] eqn:E. apply tunnel_pmtu_for_same in E as (_ & _ & E). cbn. by rewrite E. Qed.

Lemma unlearned_lookup_lan cfg o n x : pmtus (maps (lookup_lan_nexthop cfg o n x).2) = pmtus (maps x).
Proof. unfold lookup_lan_nexthop. cbv zeta. repeat match goal with |- context [if ?b then _ else _] => destruct b end; done. Qed.

(** Through the branches of a program, the calls it makes already known. *)
Ltac known L t :=
  let E := fresh in pose proof L as E; destruct t as [? ?]; cbn [snd] in E.
Ltac quiet :=
  repeat first
    [ done
    | congruence
    | match goal with
      | |- context [match lookup_aftr_nexthop ?c ?n ?x with _ => _ end] =>
        known (unlearned_lookup_aftr c n x) (lookup_aftr_nexthop c n x)
      | |- context [match icmp_error_allowed ?x with _ => _ end] => known (unlearned_allowed x) (icmp_error_allowed x)
      | |- context [match pick_slot ?c ?o ?x with _ => _ end] => known (unlearned_pick c o x) (pick_slot c o x)
      | |- context [match tunnel_pmtu_for ?s ?x with _ => _ end] => known (unlearned_read s x) (tunnel_pmtu_for s x)
      | |- context [match lookup_lan_nexthop ?c ?o ?n ?x with _ => _ end] =>
        known (unlearned_lookup_lan c o n x) (lookup_lan_nexthop c o n x)
      | |- context [match ?b with _ => _ end] => destruct b
      end
    | progress cbn ].

Lemma unlearned_frag_needed cfg o m x : unlearned x (send_dslite_icmp_frag_needed cfg o m x).
Proof. unfold send_dslite_icmp_frag_needed, unlearned. quiet. Qed.

Lemma unlearned_time_exceeded cfg o x : unlearned x (send_dslite_icmp_time_exceeded cfg o x).
Proof. unfold send_dslite_icmp_time_exceeded, unlearned. quiet. Qed.

Lemma unlearned_forward cfg l2 x : unlearned x (handle_ipv6_forward cfg l2 x).
Proof. unfold handle_ipv6_forward, send_icmpv6_pkt_too_big, unlearned. cbv zeta. quiet. Qed.

Lemma unlearned_redirect o x : pmtus (maps (maybe_redirect_ipv6_to_cpu o x).2) = pmtus (maps x).
Proof. unfold maybe_redirect_ipv6_to_cpu. by destruct (fanned _ _). Qed.

Lemma unlearned_native cfg o x : unlearned x
  match maybe_redirect_ipv6_to_cpu o x with (Some a, x) => (a, x) | (None, x) => handle_ipv6_forward cfg o x end.
Proof.
  unfold unlearned. pose proof (unlearned_redirect o x) as Hr. destruct (maybe_redirect_ipv6_to_cpu o x) as [[a|] y]; [done|].
  cbn [snd] in Hr. rewrite <- Hr. apply unlearned_forward.
Qed.

Lemma unlearned_fragment o len cfg m x : unlearned x (encap_fragment_outer o len cfg m x).
Proof. unfold encap_fragment_outer, unlearned. cbv zeta. quiet. Qed.

Lemma unlearned_emit i x : unlearned x (emit_softwire_fragment i x).
Proof. unfold emit_softwire_fragment, unlearned. cbv zeta. quiet. Qed.

(** The clamp, as both directions apply it. *)
Lemma unlearned_clamp cfg o x : pmtus (maps
    (if MssClamp (global cfg) =? 0 then x
     else let '(changed, p) := clamp_tcp_mss (pkt x) o (u16 (MssClamp (global cfg))) in
          if changed : bool then increase_stats_count statMSSClamped (with_pkt x p) else with_pkt x p)) = pmtus (maps x).
Proof. destruct (_ =? 0); [done|]. by destruct (clamp_tcp_mss _ _ _) as [[|] p]. Qed.

Lemma unlearned_encapsulate o slot cfg x : unlearned x (encapsulate o slot cfg x).
Proof.
  unfold encapsulate, unlearned, check_dev_mtu. destruct (bpf_check_mtu _ _) as [ret mtu].
  set (y := if (ret =? 0) || _ then _ else _). assert (pmtus (maps y.2) = pmtus (maps x)) as Hy by (unfold y; by destruct (_ || _)).
  destruct y as [[ret' mtu'] y]. cbn [snd] in Hy. destruct (_ && _); [exact Hy|].
  pose proof (unlearned_read slot y) as Hr. destruct (tunnel_pmtu_for slot y) as [learned z]. cbn [snd] in Hr.
  pose proof (unlearned_clamp cfg o z) as Hc. cbv zeta. set (w := if MssClamp _ =? 0 then z else _) in *. clearbody w.
  destruct ((ret' =? _) || _); [etrans; [apply unlearned_fragment|congruence]|]. rewrite <- Hy, <- Hr, <- Hc. quiet.
Qed.

Lemma unlearned_encap x : unlearned x (do_xdp_dslite_encap x).
Proof.
  unfold do_xdp_dslite_encap, unlearned. destruct (parse_l2_ipv4 _) as [| |o]; [done| |].
  - destruct (parse_l2_ipv6 _) as [| |o]; [done..|]. destruct (resolve_active_softwire x) as [cfg|]; [|done].
    apply unlearned_native.
  - destruct (get_lan_config _ _); [|done]. destruct (_ || _ || _); [done|].
    pose proof (unlearned_pick (get_migration_ctrl x) o x) as Hp. destruct (pick_slot _ _ _) as [slot y]. cbn [snd] in Hp.
    destruct (resolve_softwire y _) as [cfg|]; [|exact Hp]. rewrite <- Hp. apply unlearned_encapsulate.
Qed.

Lemma unlearned_deliver cfg len x : unlearned x (deliver cfg len x).
Proof.
  unfold deliver, unlearned. pose proof (unlearned_lookup_lan cfg OUTER_HDR_LEN len x) as Hl.
  destruct (lookup_lan_nexthop _ _ _ _) as [r y]. cbn [snd] in Hl. rewrite <- Hl. clear Hl.
  assert (forall fast old z, pmtus (maps (strip_outer fast old len z).2) = pmtus (maps z)) as Hs.
  { intros. unfold strip_outer, finish_decap_slow_path. cbv zeta. quiet. }
  assert (forall m z, pmtus (maps (too_big_for_lan cfg OUTER_HDR_LEN m z).2) = pmtus (maps z)) as Hb.
  { intros. unfold too_big_for_lan. destruct (ipv4_has_df _ _); [apply unlearned_frag_needed|done]. }
  destruct r; [apply Hs|destruct (_ <=? _)|destruct (_ <=? _)|done].
  - apply unlearned_time_exceeded.
  - unfold check_dev_mtu. destruct (bpf_check_mtu _ _) as [ret m]. destruct ((ret =? 0) || _).
    + destruct (ret =? _); [apply Hb|]. destruct (negb _); [done|apply Hs].
    + destruct (ret =? _); [by rewrite Hb|]. destruct (negb _); [done|by rewrite Hs].
  - apply unlearned_time_exceeded.
  - apply Hb.
Qed.

Lemma unlearned_decap_cpu x : unlearned x (handle_xdp_dslite_decap x).
Proof.
  unfold handle_xdp_dslite_decap, unlearned. cbv zeta. set (x1 := increase_stats_count statDecap x).
  change (pmtus (maps x)) with (pmtus (maps x1)). generalize x1. clear x x1. intros x.
  destruct (parse_l2_ipv6 _) as [| |o]; [done..|]. destruct (negb _); [done|].
  destruct (find_dslite_peer_nh x o); [|done]. destruct (resolve_softwire _ _) as [cfg|]; [|done].
  destruct (validate_dslite_ipv6 o x) as [r|len] eqn:Ev.
  { unfold validate_dslite_ipv6 in Ev. repeat case_match; by simplify_eq. }
  set (y := if _ =? migSteady then x else _).
  assert (pmtus (maps y) = pmtus (maps x)) as Hy by (unfold y; destruct (_ =? _); [done|apply unlearned_touch]).
  clearbody y. rewrite <- Hy, <- (unlearned_clamp cfg (o + 40) y). apply unlearned_deliver.
Qed.

Lemma unlearned_relay quote err l2 x : unlearned x (relay_lan_error quote err l2 x).
Proof. unfold relay_lan_error, unlearned. destruct err as [[type code] extra]. cbv zeta. quiet. Qed.

(** The one place where something is learned. *)
Lemma learned_only l2 x r : handle_tunnel_icmpv6 l2 x = Some r ->
  pmtus (maps r.2) = pmtus (maps x) \/
  exists slot mtu, (slot = 0 \/ slot = 1) /\ pmtus (maps r.2) = pmtus (maps (learn_tunnel_pmtu slot mtu x)).
Proof.
  unfold handle_tunnel_icmpv6. cbv zeta. destruct (_ <? _); [done|]. destruct (_ && _ && _); [done|].
  destruct (_ <? _); [done|]. destruct (find_dslite_local_slot _ _ _) as [slot|] eqn:Es; [|done].
  assert (slot = 0 \/ slot = 1) as Hslot.
  { unfold find_dslite_local_slot in Es. repeat case_match; simplify_eq; auto. }
  cbn [mbind option_bind]. intros [= <-]. destruct (quoted_inner _ _); [|by left].
  destruct (_ || _ || _); [by left|]. destruct (_ || _ || _); [by left|].
  set (y := if _ =? ICMPV6_PKT_TOOBIG then _ else x).
  assert (pmtus (maps y) = pmtus (maps x) \/
    exists slot mtu, (slot = 0 \/ slot = 1) /\ pmtus (maps y) = pmtus (maps (learn_tunnel_pmtu slot mtu x))) as Hy.
  { unfold y. destruct (_ =? _); [right; by eexists _, _|by left]. }
  clearbody y. destruct (_ && _); [exact Hy|]. destruct (relayed_error _ _ _); [|exact Hy].
  match goal with |- context [relay_lan_error ?q ?e ?l y] =>
    pose proof (unlearned_relay q e l y) as Hr end.
  unfold unlearned in Hr. by rewrite Hr.
Qed.

Lemma decap_learns x : pmtus (maps (do_xdp_dslite_decap x).2) = pmtus (maps x) \/
  exists slot mtu, (slot = 0 \/ slot = 1) /\
    pmtus (maps (do_xdp_dslite_decap x).2) = pmtus (maps (learn_tunnel_pmtu slot mtu x)).
Proof.
  unfold do_xdp_dslite_decap. destruct (parse_l2_ipv6 _) as [| |o]; [by left..|]. destruct (_ && _); [by left|].
  destruct (if _ =? IPPROTO_ICMPV6 then _ else None) as [r|] eqn:Er.
  { destruct (_ =? IPPROTO_ICMPV6); [|done]. by eapply learned_only. }
  left. destruct (negb _).
  - destruct (resolve_active_softwire x); [apply unlearned_native|done].
  - destruct (bool_decide _); [done|]. destruct (validate_dslite_ipv6 o x) as [r|len] eqn:Ev.
    { unfold validate_dslite_ipv6 in Ev. repeat case_match; by simplify_eq. }
    destruct (maybe_redirect_to_cpu _ _); [done|apply unlearned_decap_cpu].
Qed.

Lemma floor_learn slot mtu x : slot = 0 \/ slot = 1 -> floor_ok (maps x) -> floor_ok (maps (learn_tunnel_pmtu slot mtu x)).
Proof.
  intros Hs Hf. unfold learn_tunnel_pmtu. destruct (negb _); [done|]. cbn [bpf_ktime_get_ns].
  destruct (_ && _); [exact Hf|]. cbn [maps with_maps increase_stats_count]. intros s e. cbn [pmtus with_pmtus].
  destruct (decide (slot = s)) as [<-|]; [|rewrite lookup_insert_ne by done; apply Hf].
  rewrite lookup_insert_eq. intros [= <-]. right. cbn [Mtu]. destruct (Z.ltb_spec mtu IPV6_MIN_MTU); lia.
Qed.

Lemma floor_packet pr x : floor_ok (maps x) -> floor_ok (maps (run_program pr x).2).
Proof.
  intros Hf. assert (forall w, pmtus w = pmtus (maps x) -> floor_ok w) as Hsame by (intros w E s e; rewrite E; apply Hf).
  destruct pr; cbn [run_program].
  - apply Hsame, unlearned_encap.
  - destruct (decap_learns x) as [E|(slot & mtu & Hs & E)]; [by apply Hsame|].
    intros s e. rewrite E. by apply floor_learn.
  - apply Hsame, unlearned_decap_cpu.
  - apply Hsame. unfold do_xdp_ipv6_fwd_cpu. destruct (parse_l2_ipv6 _); [done..|].
    destruct (resolve_active_softwire x); [apply unlearned_forward|done].
  - apply Hsame, unlearned_emit.
Qed.

End Programs.

(** ** The control plane's side *)

Definition keeps {A} (m : DP A) : Prop := forall w, floor_ok w -> floor_ok (m w).2.

Lemma keeps_bind {A B} (m : DP A) (f : A -> DP B) : keeps m -> (forall a, keeps (f a)) -> keeps (m ≫= f).
Proof.
  intros Hm Hf w Hw. specialize (Hm w Hw). unfold mbind, DP_bind. destruct (m w) as [[a| |] w']; [by apply Hf|done..].
Qed.

Lemma keeps_same {A} e (f : world -> A * world) : (forall w, pmtus (f w).2 = pmtus w) -> keeps (mapop e f).
Proof.
  intros Hf w Hw. unfold mapop. set (w1 := with_faults w _). specialize (Hf w1). destruct (default _ _); [done|].
  destruct (f w1) as [a w2]. cbn in *. intros s v. rewrite Hf. apply Hw.
Qed.

Lemma keeps_clear slot : keeps (clearTunnelPMTU slot).
Proof.
  intros w Hw. unfold clearTunnelPMTU, mapop. destruct (default _ _); [done|]. intros s e. cbn.
  destruct (decide (slot = s)) as [<-|]; [rewrite lookup_insert_eq|rewrite lookup_insert_ne by done; apply Hw].
  intros [= <-]. by left.
Qed.

Lemma keeps_ret {A} (a : A) : keeps (mret a). Proof. by intros w. Qed.
Lemma keeps_fail {A} e : keeps (@fail A e). Proof. by intros w. Qed.
Lemma keeps_lift {A} (m : outcome A) : keeps (lift m). Proof. by intros w. Qed.

Create HintDb keeps.
#[local] Hint Resolve keeps_same keeps_clear keeps_ret keeps_fail keeps_lift : keeps.
(** A Loader method, one map operation at a time. *)
Ltac walk := repeat first [ by auto with keeps | apply keeps_bind; [|intros ?] | case_match ].

Lemma keeps_write slot b4 aftr : keeps (writeNextHop slot b4 aftr).
Proof. unfold writeNextHop, readCtrl, slotIsLive, putNextHop. walk. Qed.
Lemma keeps_ctrl c : keeps (writeCtrl c). Proof. unfold writeCtrl. walk. Qed.
Lemma keeps_read : keeps readCtrl. Proof. unfold readCtrl. walk. Qed.
Lemma keeps_retire slot : keeps (clearNextHop slot). Proof. unfold clearNextHop, putNextHop. walk. Qed.
#[local] Hint Resolve keeps_write keeps_ctrl keeps_read keeps_retire : keeps.

Lemma keeps_delete stale : keeps (deleteStale stale).
Proof.
  intros w. unfold deleteStale. cbn. revert w. induction stale as [|k l IH]; intros w Hw; [done|].
  by apply IH, keeps_same.
Qed.

Lemma keeps_migrate t : keeps (migrate t).
Proof.
  destruct t; cbn [migrate]; unfold BeginMigration, Cutover, CompleteMigration, AbortMigration, SwitchAFTR; walk.
  all: unfold CompleteMigration, AbortMigration; walk.
Qed.

Lemma pmtu_slot_same now s acc w : pmtus (pmtu_slot now s acc w).2 = pmtus w.
Proof. unfold pmtu_slot, mapop. by destruct (default false _). Qed.

Lemma keeps_run c : keeps (run c).
Proof.
  destruct c as [t|cfg|i cfg|t clock|m|clock]; cbn [run].
  - apply keeps_migrate.
  - unfold SetB4Config, registerTxPort, putB4. walk. by intros w.
  - unfold SetLANConfig, registerTxPort. walk.
  - unfold GCFlowAffinity, monotonicNanos, iterate. walk. apply keeps_delete.
  - unfold SetSoftwireMTU, putB4. walk.
  - intros w Hw. unfold TunnelPMTU. destruct clock as [now|]; [|done]. cbn [snd].
    generalize (None : option Z) as acc. generalize (seqZ 0 numNextHops) as l.
    intros l. revert w Hw. induction l as [|s l IH]; intros w Hw acc; [done|]. cbn.
    pose proof (pmtu_slot_same now s acc w) as Hs. destruct (pmtu_slot now s acc w) as [acc' w'].
    apply IH. intros s' e. cbn in Hs. rewrite Hs. apply Hw.
Qed.

(** ** What is read *)

Lemma slot_read_floor now s acc w : floor_ok w -> (forall m, acc = Some m -> IPV6_MIN_MTU <= m) ->
  forall m, (pmtu_slot now s acc w).1 = Some m -> IPV6_MIN_MTU <= m.
Proof.
  intros Hf Ha m. unfold pmtu_slot, mapop. destruct (default false _); [apply Ha|]. cbn.
  destruct (pmtus w !! s) as [v|] eqn:Ev; cbn; [|apply Ha]. apply Hf in Ev.
  destruct (Z.eqb_spec (UpdatedNs v) 0); cbn; [apply Ha|]. destruct (_ =? 0); [apply Ha|]. destruct (_ <? _); [apply Ha|].
  destruct acc as [a|]; [destruct (_ <? _); [|apply Ha]|]; intros [= <-]; lia.
Qed.

Lemma loop_read_floor now l acc w : floor_ok w -> (forall m, acc = Some m -> IPV6_MIN_MTU <= m) ->
  forall m, (pmtu_loop now l acc w).1 = Some m -> IPV6_MIN_MTU <= m.
Proof.
  revert acc w. induction l as [|s l IH]; intros acc w Hf Ha m; [apply Ha|]. cbn.
  pose proof (pmtu_slot_same now s acc w) as Hs. pose proof (slot_read_floor now s acc w Hf Ha) as Hr.
  destruct (pmtu_slot now s acc w) as [acc' w']. cbn in *. apply IH; [|done]. intros s' e. rewrite Hs. apply Hf.
Qed.

Section Floor.
Context `{Kernel}.

Definition happens (hs : list happening) (w : world) : world := fold_left (fun w h => happen h w) hs w.

Lemma floor_happens hs w : floor_ok w -> floor_ok (happens hs w).
Proof.
  unfold happens. revert w. induction hs as [|h hs IH]; intros w Hf; [done|]. apply IH.
  destruct h as [pr x|c]; [by apply floor_packet|by apply keeps_run].
Qed.

(** C8: Whatever packets the programs handle, on whatever CPU, and whatever
    calls the control plane makes, in any order and with any of its map operations
    failing, no path MTU below 1280 is ever read: neither by the encapsulation of
    a packet, nor by the watcher that sizes the fragments and the tunnel device.
    A forged or broken Packet Too Big that announces less does not get below it. *)
Theorem path_mtu_floor hs fs :
  let w := happens hs (zero_world fs) in
  (forall clock m, (TunnelPMTU clock w).1 = Some m -> IPV6_MIN_MTU <= m) /\
  (forall slot x, maps x = w -> let m := (tunnel_pmtu_for slot x).1 in m = 0 \/ IPV6_MIN_MTU <= m).
Proof.
  cbv zeta. assert (floor_ok (happens hs (zero_world fs))) as Hf by (apply floor_happens; intros s e; cbn; by rewrite lookup_empty).
  split.
  - intros [now|] m; [|done]. by apply loop_read_floor.
  - intros slot x Ex. unfold tunnel_pmtu_for. destruct (negb _); [left; reflexivity|]. rewrite Ex.
    destruct (pmtus (happens hs (zero_world fs)) !! slot) as [e|] eqn:Ee; [|by left]. apply Hf in Ee. cbv zeta.
    change (default zeroPmtu (Some e)) with e.
    destruct (Z.eqb_spec (UpdatedNs e) 0); [by left|]. cbn. destruct (_ <? _); [by left|]. right. cbn. lia.
Qed.

End Floor.

(** ** The smallest report *)

(** The errors that arrive for a slot, each announcing an MTU. *)
Definition learn_all (slot : Z) (mtus : list Z) (x : X) : X := fold_left (fun x m => learn_tunnel_pmtu slot m x) mtus x.

Lemma learn_rest slot mtu x : slot = 0 \/ slot = 1 -> let x' := learn_tunnel_pmtu slot mtu x in
  clock x' = tail (clock x) /\ faults (maps x') = faults (maps x).
Proof.
  intros Hs. cbv zeta. unfold learn_tunnel_pmtu. assert (negb ((0 <=? slot) && (slot <? numNextHops)) = false) as ->
    by (destruct Hs as [-> | ->]; done). cbn [bpf_ktime_get_ns]. by destruct (_ && _).
Qed.

Lemma learn_all_spec slot rs x c : slot = 0 \/ slot = 1 -> clock x = (fst <$> rs) ++ c ->
  let x' := learn_all slot (snd <$> rs) x in
  entry (maps x') slot = reported (entry (maps x) slot) rs /\ clock x' = c /\ faults (maps x') = faults (maps x) /\
  (forall s, s <> slot -> pmtus (maps x') !! s = pmtus (maps x) !! s).
Proof.
  intros Hs. cbv zeta. revert x. induction rs as [|[t m] rs IH]; intros x Ec; [done|].
  cbn [fmap list_fmap fst snd app] in *. unfold learn_all, reported in *. cbn [fold_left].
  destruct (learn_spec slot m x Hs) as (He & Ho). destruct (learn_rest slot m x Hs) as (Ht & Hf).
  rewrite Ec in He, Ht. destruct (IH (learn_tunnel_pmtu slot m x) Ht) as (H1 & H2 & H3 & H4).
  rewrite H1, H2, H3, Hf, He. split; [done|]. split; [done|]. split; [done|]. intros s Hne. by rewrite H4, Ho.
Qed.

Lemma smallest_floor m rs : IPV6_MIN_MTU <= m -> IPV6_MIN_MTU <= smallest m rs.
Proof. unfold smallest. revert m. induction rs as [|r rs IH]; intros m Hm; [done|]. apply IH. lia. Qed.

(** C10: The path MTU of a softwire in force is the smallest its AFTR's network
    reported in the last ten minutes, and never below 1280: from a moment at which the
    slot's reading is cleared or older than ten minutes, after any number of
    Packet Too Big reports within ten minutes, in whatever order
    the values come, the next packet is encapsulated for the least of them, and
    the watcher of the control plane, its readings of the map working, reads that value,
    or a smaller one the other slot has in force. *)
Theorem path_mtu_smallest slot t m rs last rest x : slot = 0 \/ slot = 1 ->
  fresh t (entry (maps x) slot) = false -> calm (maps x) -> clock x = t :: (fst <$> rs) ++ last :: rest ->
  0 < t -> in_order t rs last -> last - t < TUNNEL_PMTU_EXPIRY_NS -> last < 2 ^ 64 ->
  let least := smallest (Z.max m IPV6_MIN_MTU) rs in
  let x' := learn_all slot (m :: (snd <$> rs)) x in
  (tunnel_pmtu_for slot x').1 = least /\
  exists m', (TunnelPMTU (Some last) (maps x')).1 = Some m' /\ m' <= least /\
    (in_force last (entry (maps x) (1 - slot)) = false -> m' = least).
Proof.
  intros Hs He0 Hc Ec Ht Ho Hl H64. cbv zeta.
  destruct (learn_all_spec slot ((t, m) :: rs) x (last :: rest) Hs Ec) as (He & Ec' & Hf & Hother).
  cbn [fmap list_fmap snd] in *. set (x' := learn_all _ _ _) in *. set (least := smallest _ _).
  assert (IPV6_MIN_MTU <= least) as Hleast by (apply smallest_floor; lia).
  assert (entry (maps x') slot = reported (mkPmtu t (Z.max m IPV6_MIN_MTU)) rs) as He'.
  { rewrite He. unfold reported. cbn [fold_left]. unfold report at 2. cbn [fst snd]. by rewrite He0. }
  pose proof (reported_smallest rs t t (Z.max m IPV6_MIN_MTU) last ltac:(lia) Ho Hl H64 t ltac:(lia)) as Hr.
  cbv zeta in Hr. rewrite <- He' in Hr. destruct Hr as [Hm Hu].
  assert (in_force last (entry (maps x') slot) = true) as Hin.
  { unfold in_force. fold least in Hm. unfold TUNNEL_PMTU_EXPIRY_NS, IPV6_MIN_MTU in *.
    rewrite Hm, (proj2 (Z.eqb_neq _ 0)), (proj2 (Z.eqb_neq least 0)), Z.mod_small by lia.
    apply Z.leb_le. change TunnelPMTUExpiry with (600 * 1000000000). lia. }
  assert (entry (maps x') (1 - slot) = entry (maps x) (1 - slot)) as Hne by (unfold entry; by rewrite Hother by (destruct Hs; lia)).
  split.
  - unfold tunnel_pmtu_for, numNextHops. assert (negb ((0 <=? slot) && (slot <? 2)) = false) as -> by (destruct Hs as [-> | ->]; done).
    fold (entry (maps x') slot). unfold in_force in Hin. apply andb_prop in Hin as [Hin Hle]. apply andb_prop in Hin as [Hz _].
    apply negb_true_iff in Hz. rewrite Hz. unfold bpf_ktime_get_ns. rewrite Ec'. cbn [head default from_option id].
    change TUNNEL_PMTU_EXPIRY_NS with TunnelPMTUExpiry. rewrite Z.ltb_antisym, Hle. done.
  - assert (calm (maps x')) as Hc' by (unfold calm; by rewrite Hf). rewrite (TunnelPMTU_min last (maps x') Hc'). cbv zeta.
    fold (entry (maps x') 0) (entry (maps x') 1). fold least in Hm.
    revert Hin Hm Hne. set (e := entry (maps x) (1 - slot)). clearbody x' e. intros Hin Hm Hne.
    destruct Hs as [-> | ->]; [change (1 - 0) with 1 in *|change (1 - 1) with 0 in *]; rewrite Hin, Hm, Hne;
      destruct (in_force last e); cbn [min_opt]; eexists; (split; [done|]); split; (lia || done).
Qed.

(** ** At concrete inputs *)

(** A call, a packet, and the reading of what the packet left. *)
Definition hs_x : list happening :=
  [Control (SetB4 cfg_x); Control (SetLAN 5 lan_x); Packet xdp_dslite_decap x_too_big].

Lemma path_mtu_floor_witness :
  (TunnelPMTU (Some 1000000100) (@happens kernel_1 hs_x (zero_world []))).1 = Some 1400 /\ IPV6_MIN_MTU <= 1400.
Proof.
  assert ((TunnelPMTU (Some 1000000100) (@happens kernel_1 hs_x (zero_world []))).1 = Some 1400) as E by (vm_compute; reflexivity).
  split; [exact E|]. exact (proj1 (@path_mtu_floor kernel_1 hs_x []) _ _ E).
Defined.

(** A reading of 1290, eleven minutes old, and three reports. *)
Definition x_pmtu : X :=
  mkX [] 3 (with_pmtus (zero_world []) (<[1 := mkPmtu 5 1290]> ∅)) ∅ (mkBucket 0 0) (mkFanout 0 0 ∅) (mkFanout 0 0 ∅) 0
    [660000001000; 660000002000; 660000003000; 660000004000].

Lemma path_mtu_smallest_witness :
  (tunnel_pmtu_for 1 (learn_all 1 [1400; 1300; 1350] x_pmtu)).1 = 1300.
Proof.
  apply (path_mtu_smallest 1 660000001000 1400 [(660000002000, 1300); (660000003000, 1350)] 660000004000 [] x_pmtu);
    [by right|reflexivity..|lia|cbn; lia|vm_compute; reflexivity|lia].
Defined.
