(* ===== verification/Companion.v ===== *)
(** The devices the packet programs hand packets to: the companion tunnel
    (src/internal/slowpath/tunnel.go), the veth pairs of the fragmenter
    (src/internal/fragpath/veth.go) and the programs attached to them
    (src/pkg/datapath/frag.go, EnableSoftwireFrag).

    The kernel's devices are an argument, the class [Links], with its documented
    behaviour ([LinksLaws]); Linknetlink.v discharges them for the requests that are
    sent. *)

From S2P Require Import Prelude Stats Wire Netip Text Datapath Migration Softwire Mtu.

Local Open Scope Z_scope.

(** ** The kernel's devices *)

(** A veth's other end, where it is in the same network namespace. *)
Inductive kind : Type := IP6Tnl (local remote : Addr) | Veth (peer : Z) | OtherKind.
Record Link : Type := mkLink { lname : string; lkind : kind; lmtu : Z; lup : bool }.

#[export] Instance kind_eq_dec : EqDecision kind.
Proof. solve_decision. Defined.
#[export] Instance Link_eq_dec : EqDecision Link.
Proof. solve_decision. Defined.

Definition with_kind (v : kind) (l : Link) : Link := mkLink (lname l) v (lmtu l) (lup l).
Definition with_mtu (v : Z) (l : Link) : Link := mkLink (lname l) (lkind l) v (lup l).
Definition with_up (l : Link) : Link := mkLink (lname l) (lkind l) (lmtu l) true.

(** Removing a veth removes its other end. *)
Definition remove (i : Z) (ls : gmap Z Link) : gmap Z Link :=
  match lkind <$> (ls !! i) with Some (Veth p) => delete p (delete i ls) | _ => delete i ls end.

Class Links (K : Type) : Type := {
  links : K -> gmap Z Link;
  (** The device of the IPv4 default route. *)
  default_route : K -> option Z;
  InterfaceByName : string -> K -> option Z;
  DelLink : Z -> K -> option string * K;
  AddIP6Tnl : string -> Addr -> Addr -> Z -> K -> option string * K;
  SetIP6TnlEndpoints : Z -> Addr -> Addr -> K -> option string * K;
  AddVeth : string -> string -> Z -> K -> option string * K;
  SetLinkUp : Z -> K -> option string * K;
  SetLinkMTU : Z -> Z -> K -> option string * K;
  AddRoute : Z -> Prefix -> K -> option string * K;
  (** Writing a sysctl, whether it worked. *)
  WriteFile : string -> string -> K -> bool * K }.

(** What a request leaves: [P] if it was accepted, everything as it was if not. *)
Definition leaves {K} `{Links K} (k : K) (r : option string * K) (P : K -> Prop) : Prop :=
  match r.1 with
  | None => P r.2
  | Some _ => links r.2 = links k /\ default_route r.2 = default_route k
  end.

(** An IPv6 address without a zone, and a name the kernel takes for an interface. *)
Definition plain6 (a : Addr) : Prop := exists v, a = A6 v "" /\ 0 <= v < 2 ^ 128.
Definition name_ok (n : string) : Prop := Forall (fun c => c <> 0) (str n) /\ zlen (str n) < 16.
Definition u32_ok (z : Z) : Prop := 0 <= z < 2 ^ 32.

#[export] Instance name_ok_dec n : Decision (name_ok n).
Proof. unfold name_ok. apply _. Defined.
#[export] Instance u32_ok_dec z : Decision (u32_ok z).
Proof. unfold u32_ok. apply _. Defined.

(** A tunnel pointed elsewhere: the kernel may set its MTU anew, from its new route. *)
Definition repoint (l r : Addr) (m : Z) (x : Link) : Link := with_mtu m (with_kind (IP6Tnl l r) x).

Class LinksLaws (K : Type) {L : Links K} : Prop := {
  by_name (k : K) n i : InterfaceByName n k = Some i <-> exists l, links k !! i = Some l /\ lname l = n;
  index_range (k : K) i l : links k !! i = Some l -> 0 < i < 2 ^ 32;
  veth_peer (k : K) i l p : links k !! i = Some l -> lkind l = Veth p ->
    p <> i /\ exists m, links k !! p = Some m /\ lkind m = Veth i;
  del_link i (k : K) : u32_ok i -> leaves k (DelLink i k) (fun k' => links k' = remove i (links k)
    /\ forall j, default_route k = Some j -> links k' !! j <> None -> default_route k' = Some j);
  add_tunnel n l r m (k : K) : name_ok n -> plain6 l -> plain6 r -> u32_ok m -> leaves k (AddIP6Tnl n l r m k) (fun k' => exists i, links k !! i = None
    /\ links k' = <[i := mkLink n (IP6Tnl l r) m false]> (links k) /\ default_route k' = default_route k);
  set_endpoints i l r (k : K) : 0 < i < 2 ^ 32 -> plain6 l -> plain6 r -> leaves k (SetIP6TnlEndpoints i l r k) (fun k' =>
    exists m, links k' = alter (repoint l r m) i (links k) /\ default_route k' = default_route k);
  add_veth a b m (k : K) : name_ok a -> name_ok b -> u32_ok m -> leaves k (AddVeth a b m k) (fun k' => exists i j, i <> j /\ links k !! i = None /\ links k !! j = None
    /\ links k' = <[i := mkLink a (Veth j) m false]> (<[j := mkLink b (Veth i) m false]> (links k))
    /\ default_route k' = default_route k);
  set_up i (k : K) : u32_ok i -> leaves k (SetLinkUp i k) (fun k' =>
    links k' = alter with_up i (links k) /\ default_route k' = default_route k);
  set_mtu i m (k : K) : u32_ok i -> u32_ok m -> leaves k (SetLinkMTU i m k) (fun k' =>
    links k' = alter (with_mtu m) i (links k) /\ default_route k' = default_route k);
  add_route i (k : K) : u32_ok i -> leaves k (AddRoute i (mkPrefix (A4 0) 0) k) (fun k' => links k' = links k /\ default_route k' = Some i);
  write_file p v (k : K) : links (WriteFile p v k).2 = links k /\ default_route (WriteFile p v k).2 = default_route k }.

(** A failed call's message. *)
Definition because (what : string) (r : option string) : option string := (fun _ => what) <$> r.

(** ** The companion tunnel (tunnel.go) *)

Module Slowpath.
Section Tunnel.
Context {K : Type} `{Links K}.

Definition deviceName : string := "mm-dslite0".
Definition defaultRoute : Prefix := PrefixFrom (A4 0) 0.

(** New: the socket opens or not. *)
Definition New (open : option string) (wanMTU : Z) : string + Tunnel :=
  match open with Some e => inl e | None => inr (mkTunnel (tunnelMTU wanMTU) 0) end.

(** What a method leaves: an error, the tunnel, the kernel. *)
Abbreviation result := (option string * Tunnel * K)%type.

Definition Ensure (b4 aftr : Addr) (t : Tunnel) (k : K) : result :=
  let '(stale, k) := match InterfaceByName deviceName k with Some i => DelLink i k | None => (None, k) end in
  match stale with
  | Some _ => (Some "slowpath: removing stale"%string, t, k)
  | None =>
    match AddIP6Tnl deviceName b4 aftr (tmtu t) k with
    | (Some _, k) => (Some "slowpath: creating"%string, t, k)
    | (None, k) =>
      match InterfaceByName deviceName k with
      | None => (Some "slowpath: resolving after create"%string, t, k)
      | Some i =>
        let t := mkTunnel (tmtu t) i in
        match SetLinkUp i k with
        | (Some _, k) => (Some "slowpath: bringing up"%string, t, k)
        | (None, k) => let '(e, k) := AddRoute i defaultRoute k in (because "slowpath: adding IPv4 default route" e, t, k)
        end
      end
    end
  end.

Definition SetEndpoints (b4 aftr : Addr) (t : Tunnel) (k : K) : result :=
  if ifindex t =? 0 then (Some "slowpath: SetEndpoints before Ensure"%string, t, k)
  else let '(e, k) := SetIP6TnlEndpoints (ifindex t) b4 aftr k in (because "slowpath: repointing" e, t, k).

Definition SetSoftwireMTU (softwireMTU : Z) (t : Tunnel) (k : K) : result :=
  if ifindex t =? 0 then (Some "slowpath: SetSoftwireMTU before Ensure"%string, t, k)
  else
    let mtu := tunnelMTU softwireMTU in
    if mtu =? tmtu t then (None, t, k)
    else match SetLinkMTU (ifindex t) mtu k with
         | (Some _, k) => (Some "slowpath: setting MTU"%string, t, k)
         | (None, k) => (None, mkTunnel mtu (ifindex t), k)
         end.

(** A refused deletion is logged; the socket is then closed. *)
Definition Close (t : Tunnel) (k : K) : K :=
  if ifindex t =? 0 then k else (DelLink (ifindex t) k).2.
End Tunnel.
End Slowpath.

(** ** The fragmenter's veth pairs (veth.go) *)

Module Fragpath.
Section Pairs.
Context {K : Type} `{Links K}.

Definition NumPairs : Z := 4.
Definition vethMTU : Z := 3456.
Definition MaxInnerLen : Z := vethMTU - 48.

Definition digit (i : Z) : string := String (Ascii.ascii_of_N (Z.to_N (0x30 + i))) EmptyString.
Definition redirectName (i : Z) : string := "mm-frag" +:+ digit i.
Definition fwdName (i : Z) : string := "mm-frag" +:+ digit i +:+ "p".

(** [redirectIfindexes], zero where a pair has none yet. *)
Abbreviation Pairs := (gmap Z Z).
Abbreviation result := (option string * Pairs * K)%type.

(** The removal of what an earlier run left under these names. *)
Fixpoint remove_stale (names : list string) (k : K) : option string * K :=
  match names with
  | [] => (None, k)
  | n :: names =>
    match InterfaceByName n k with
    | None => remove_stale names k
    | Some i => match DelLink i k with
                | (Some _, k) => (Some "fragpath: removing stale"%string, k)
                | (None, k) => remove_stale names k
                end
    end
  end.

Fixpoint bring_up (i : Z) (names : list string) (p : Pairs) (k : K) : result :=
  match names with
  | [] => (None, p, k)
  | n :: names =>
    match InterfaceByName n k with
    | None => (Some "fragpath: resolving after create"%string, p, k)
    | Some ifi =>
      let p := if String.eqb n (redirectName i) then <[i := u32 ifi]> p else p in
      let '(_, k) := WriteFile ("/proc/sys/net/ipv6/conf/" +:+ n +:+ "/disable_ipv6") "1" k in
      match SetLinkUp ifi k with
      | (Some _, k) => (Some "fragpath: bringing up"%string, p, k)
      | (None, k) => bring_up i names p k
      end
    end
  end.

Fixpoint Ensure_loop (slots : list Z) (p : Pairs) (k : K) : result :=
  match slots with
  | [] => (None, p, k)
  | i :: slots =>
    match remove_stale [redirectName i; fwdName i] k with
    | (Some e, k) => (Some e, p, k)
    | (None, k) =>
      match AddVeth (redirectName i) (fwdName i) vethMTU k with
      | (Some _, k) => (Some "fragpath: creating veth pair"%string, p, k)
      | (None, k) =>
        match bring_up i [redirectName i; fwdName i] p k with
        | (Some e, p, k) => (Some e, p, k)
        | (None, p, k) => Ensure_loop slots p k
        end
      end
    end
  end.

Definition Ensure (p : Pairs) (k : K) : result := Ensure_loop (seqZ 0 NumPairs) p k.

Definition RedirectIfindexes (p : Pairs) : list Z := map (fun i => default 0 (p !! i)) (seqZ 0 NumPairs).
Definition FwdNames : list string := map fwdName (seqZ 0 NumPairs).

Definition Close (p : Pairs) (k : K) : K :=
  fold_left (fun k ifindex => if ifindex =? 0 then k else (DelLink ifindex k).2) (RedirectIfindexes p) k.
End Pairs.
End Fragpath.

(** ** Their programs (frag.go) *)

(** The attachments of the fragment programs and the frag_ports map; attaching and
    writing the map can fail. *)
Record Frag : Type := mkFrag { attached : gmap Z Z (* device -> program *); frag_ports : gmap Z Z }.

Class Attach (K : Type) : Type := { can_attach : K -> Z -> Z -> bool; can_put : K -> Z -> bool }.

Section Enable.
Context {K : Type} `{Links K} `{Attach K}.

(** [progs]: the loaded programs, by slot; the array's elements are enumerated by hand,
    and a slot could stay nil. *)
Fixpoint Enable_loop (i : Z) (progs : list (option Z)) (ports : list Z) (ifaces : list string) (k : K) (f : Frag)
    : option string * Frag :=
  match progs, ports, ifaces with
  | prog :: progs, port :: ports, name :: ifaces =>
    match prog with
    | None => (Some "frag program slot is nil"%string, f)
    | Some prog =>
      match InterfaceByName name k with
      | None => (Some "looking up frag interface"%string, f)
      | Some ifi =>
        if can_attach k ifi prog then
          let f := mkFrag (<[ifi := prog]> (attached f)) (frag_ports f) in
          if can_put k i then Enable_loop (i + 1) progs ports ifaces k (mkFrag (attached f) (<[i := port]> (frag_ports f)))
          else (Some "populating frag_ports slot"%string, f)
        else (Some "attaching XDP frag program"%string, f)
      end
    end
  | _, _, _ => (None, f)
  end.

Definition EnableSoftwireFrag (progs : list (option Z)) (redirectIfindexes : list Z) (fwdIfaces : list string) (k : K) (f : Frag)
    : option string * Frag := Enable_loop 0 progs redirectIfindexes fwdIfaces k f.
End Enable.

(** ** Devices that are not ours *)

Section Devices.
Context {K : Type} {L : Links K} {Laws : LinksLaws K}.

Lemma name_unique (k : K) i j l m : links k !! i = Some l -> links k !! j = Some m -> lname l = lname m -> i = j.
Proof using Laws.
  intros Hi Hj E. assert (InterfaceByName (lname l) k = Some i) as H1 by (apply by_name; eauto).
  assert (InterfaceByName (lname l) k = Some j) as H2 by (apply by_name; eauto). congruence.
Qed.

Lemma name_of (k : K) n i l : InterfaceByName n k = Some i -> links k !! i = Some l -> lname l = n.
Proof using Laws. intros (l' & Hl & Hn)%by_name. congruence. Qed.

Lemma name_index (k : K) n i : InterfaceByName n k = Some i -> 0 < i < 2 ^ 32 /\ u32_ok i.
Proof using Laws. intros (l & Hl & _)%by_name. apply index_range in Hl. unfold u32_ok. lia. Qed.

(** The device of a name. *)
Lemma find_device (k : K) i l : links k !! i = Some l -> InterfaceByName (lname l) k = Some i.
Proof using Laws. intros Hl. apply by_name. by exists l. Qed.

(** Device [i] is [l], and neither it nor its other end has one of these names. *)
Definition apart (names : list string) (k : K) (i : Z) (l : Link) : Prop :=
  links k !! i = Some l /\ (lname l ∉ names) /\ forall p m, lkind l = Veth p -> links k !! p = Some m -> lname m ∉ names.

Lemma remove_apart names (k : K) n x i l : InterfaceByName n k = Some x -> n ∈ names -> apart names k i l ->
  remove x (links k) !! i = Some l.
Proof using Laws.
  intros (lx & Hx & <-)%by_name Hn (Hl & Hni & Hp). assert (i <> x) as Hne by (intros ->; by simplify_eq).
  unfold remove. rewrite Hx. cbn [fmap option_fmap option_map]. destruct (lkind lx) as [| p |] eqn:Ek.
  1, 3: by rewrite lookup_delete_ne by done.
  destruct (veth_peer k x lx p Hx Ek) as (Hpx & m & Hm & Hmk).
  destruct (decide (i = p)) as [->|]; [|by rewrite !lookup_delete_ne by done].
  simplify_eq. by destruct (Hp x lx Hmk Hx).
Qed.

(** The other end of a device apart is there too, after a removal. *)
Lemma apart_remove names (k : K) n x i l : InterfaceByName n k = Some x -> n ∈ names -> apart names k i l ->
  forall k', links k' = remove x (links k) -> apart names k' i l.
Proof using Laws.
  intros Hx Hn Ha k' E. pose proof Ha as (Hl & Hni & Hp). split; [rewrite E; by eapply remove_apart|]. split; [done|].
  intros p m Hk Hm. apply (Hp p m Hk). rewrite E in Hm. unfold remove in Hm.
  destruct (lkind <$> (links k !! x)) as [[| q |]|]; repeat apply lookup_delete_Some in Hm as [_ Hm]; done.
Qed.

Lemma apart_kept names (k k' : K) i l : links k' = links k -> apart names k i l -> apart names k' i l.
Proof. intros E (Hl & Hn & Hp). split; [by rewrite E|]. split; [done|]. intros p m. rewrite E. apply Hp. Qed.

Lemma apart_insert names (k k' : K) j x i l : links k !! j = None -> links k' = <[j := x]> (links k) ->
  (forall p, lkind l = Veth p -> is_Some (links k !! p)) -> apart names k i l -> apart names k' i l.
Proof.
  intros Hj E Hs (Hl & Hn & Hp). split; [rewrite E, lookup_insert_ne; congruence|]. split; [done|].
  intros p m Hk. rewrite E, lookup_insert_ne; [by apply Hp|]. intros ->. destruct (Hs _ Hk). congruence.
Qed.

Lemma peer_there (k : K) i l : links k !! i = Some l -> forall p, lkind l = Veth p -> is_Some (links k !! p).
Proof using Laws. intros Hl p Hk. destruct (veth_peer k i l p Hl Hk) as (_ & m & ? & _). by exists m. Qed.

(** Changing a device of ours keeps the others. *)
Lemma apart_alter names (k k' : K) f n x i l : InterfaceByName n k = Some x -> n ∈ names -> (forall l, lname (f l) = lname l) ->
  links k' = alter f x (links k) -> apart names k i l -> apart names k' i l.
Proof using Laws.
  intros (lx & Hx & <-)%by_name Hin Hf E (Hl & Hn & Hp). assert (i <> x) as Hne by (intros ->; by simplify_eq).
  split; [by rewrite E, lookup_alter_ne|]. split; [done|]. intros p m Hk. rewrite E.
  destruct (decide (p = x)) as [->|]; [|rewrite lookup_alter_ne by done; by apply Hp].
  rewrite lookup_alter_eq, Hx. cbn. intros [= <-]. rewrite Hf. by apply (Hp x).
Qed.
End Devices.

(** ** The tunnel is in place *)

Module SlowpathFacts.
Section Tunnel.
Context {K : Type} {L : Links K} {Laws : LinksLaws K}.
Import Slowpath.

(** The device, with the endpoints, an MTU, up, and the IPv4 default route through it; and
    with the MTU the tunnel has recorded. *)
Definition placed (b4 aftr : Addr) (m : Z) (t : Tunnel) (k : K) : Prop :=
  links k !! ifindex t = Some (mkLink deviceName (IP6Tnl b4 aftr) m true) /\ default_route k = Some (ifindex t).
Definition in_place (b4 aftr : Addr) (t : Tunnel) (k : K) : Prop := placed b4 aftr (tmtu t) t k.

Lemma deviceName_ok : name_ok deviceName.
Proof. by_eval. Qed.

Lemma stale_removed (k k1 : K) stale :
  match InterfaceByName deviceName k with Some i => DelLink i k | None => (None, k) end = (stale, k1) ->
  (forall i l, apart [deviceName] k i l -> apart [deviceName] k1 i l).
Proof using Laws.
  intros E. destruct (InterfaceByName deviceName k) as [x|] eqn:Ex; [|by injection E as <- <-].
  destruct (name_index _ _ _ Ex) as [_ Hx32]. pose proof (del_link x k Hx32) as Hd. rewrite E in Hd. destruct stale; cbn in Hd; destruct Hd as [Hd _]; intros i l.
  - by apply apart_kept.
  - intros Ha. eapply apart_remove; [done|set_solver|done..].
Qed.

(** A call's new value, if it succeeded. *)
Definition after {A} (e : option string) (old new : A) : A := match e with Some _ => old | None => new end.

(** Ensure's cases: what it leaves when it succeeds, and that it is never for want of
    finding the device it made. *)
Lemma Ensure_spec b4 aftr t k : plain6 b4 -> plain6 aftr -> u32_ok (tmtu t) -> let '(e, t', k') := Ensure b4 aftr t k in
  (e = None -> in_place b4 aftr t' k' /\ tmtu t' = tmtu t) /\ e <> Some "slowpath: resolving after create"%string
  /\ forall i l, apart [deviceName] k i l -> links k' !! i = Some l.
Proof using Laws.
  intros Pb Pa Pm. unfold Ensure. destruct (match InterfaceByName deviceName k with Some i => _ | None => _ end) as [stale k1] eqn:Est.
  pose proof (stale_removed _ _ _ Est) as H1. destruct stale; [split_and!; [done|done|]; intros i l Ha; apply H1, Ha|].
  pose proof (add_tunnel deviceName b4 aftr (tmtu t) k1 deviceName_ok Pb Pa Pm) as Ha. destruct (AddIP6Tnl _ _ _ _ k1) as [[e|] k2]; cbn in Ha.
  { split_and!; [done|done|]. intros i l Hi. rewrite (proj1 Ha). apply H1, Hi. }
  destruct Ha as (x & Hx & El & Er).
  assert (links k2 !! x = Some (mkLink deviceName (IP6Tnl b4 aftr) (tmtu t) false)) as Hx2 by (rewrite El; apply lookup_insert_eq).
  pose proof (find_device _ _ _ Hx2) as Hf. cbn [lname] in Hf. rewrite Hf. destruct (name_index _ _ _ Hf) as [_ Hx32].
  assert (forall i l, apart [deviceName] k i l -> apart [deviceName] k2 i l) as H2.
  { intros i l Hi. apply H1 in Hi. eapply apart_insert; [done..| |done]. by eapply peer_there, Hi. }
  pose proof (set_up x k2 Hx32) as Hu. destruct (SetLinkUp x k2) as [[e|] k3]; cbn in Hu; destruct Hu as [Hu Hr].
  { split_and!; [done|done|]. intros i l Hi. rewrite Hu. apply H2, Hi. }
  assert (forall i l, apart [deviceName] k i l -> links k3 !! i = Some l) as H3.
  { intros i l Hi. apply H2 in Hi.
    refine (proj1 (apart_alter [deviceName] k2 k3 with_up deviceName x i l Hf _ _ Hu Hi)); [set_solver|done]. }
  pose proof (add_route x k3 Hx32) as Hd. change (mkPrefix (A4 0) 0) with defaultRoute in Hd.
  destruct (AddRoute x defaultRoute k3) as [[e|] k4]; cbn in Hd; destruct Hd as [Hd Hd2]; cbn [because fmap option_fmap option_map];
    (split_and!; [|done|intros i l Hi; rewrite Hd; by apply H3]); [done|]. intros _. split; [|done]. split; [|done]. cbn.
  rewrite Hd, Hu, lookup_alter_eq, Hx2. done.
Qed.

Lemma placed_index b4 aftr m t k : placed b4 aftr m t k -> 0 < ifindex t < 2 ^ 32.
Proof using Laws. intros [Hl _]. by apply index_range in Hl. Qed.

Lemma SetEndpoints_spec b4 aftr m t k b4' aftr' : plain6 b4' -> plain6 aftr' -> placed b4 aftr m t k ->
  let '(e, t', k') := SetEndpoints b4' aftr' t k in
  t' = t /\ exists m', placed (after e b4 b4') (after e aftr aftr') m' t k' /\ (e <> None -> m' = m).
Proof using Laws.
  intros Pb Pa Hp. pose proof (placed_index _ _ _ _ _ Hp) as Hi. destruct Hp as [Hl Hr]. unfold SetEndpoints. rewrite (proj2 (Z.eqb_neq _ _)) by lia.
  pose proof (set_endpoints (ifindex t) b4' aftr' k Hi Pb Pa) as Hs. destruct (SetIP6TnlEndpoints _ _ _ k) as [[e|] k']; cbn in Hs; (split; [done|]).
  - destruct Hs as [Hs Hs2]. exists m. split; [|done]. split; by rewrite ?Hs, ?Hs2.
  - destruct Hs as (m' & Hs & Hs2). exists m'. split; [|done]. split; rewrite ?Hs2, ?Hs; [|done]. by rewrite lookup_alter_eq, Hl.
Qed.

Lemma tunnelMTU_floor m : 1240 <= tunnelMTU m.
Proof. unfold tunnelMTU, minSoftwireMTU, tunnelOverhead. lia. Qed.

Lemma tunnelMTU_u32 m : m < 2 ^ 32 -> u32_ok (tunnelMTU m).
Proof. unfold u32_ok, tunnelMTU, minSoftwireMTU, tunnelOverhead. lia. Qed.

(** A size that is sent is the device's, when it is accepted; one that is recorded
    already is not sent. *)
Lemma SetSoftwireMTU_sizes b4 aftr m t k s : s < 2 ^ 32 -> placed b4 aftr m t k -> let '(e, t', k') := SetSoftwireMTU s t k in
  ifindex t' = ifindex t /\ (e = None -> tmtu t' = tunnelMTU s) /\ (e <> None -> tmtu t' = tmtu t) /\
  placed b4 aftr (if tmtu t' =? tmtu t then m else tmtu t') t' k'.
Proof using Laws.
  intros Hm32 Hp. pose proof (placed_index _ _ _ _ _ Hp) as Hi. unfold SetSoftwireMTU. rewrite (proj2 (Z.eqb_neq _ _)) by lia.
  destruct (Z.eqb_spec (tunnelMTU s) (tmtu t)) as [Heq|Hne]; [by rewrite Z.eqb_refl|]. destruct Hp as [Hl Hr].
  pose proof (set_mtu (ifindex t) (tunnelMTU s) k ltac:(unfold u32_ok; lia) (tunnelMTU_u32 s Hm32)) as Hs.
  destruct (SetLinkMTU _ _ k) as [[e|] k']; cbn in Hs; destruct Hs as [Hs Hs2]; cbn [ifindex tmtu]; (split; [done|]; split; [done|]; split; [done|]).
  - rewrite Z.eqb_refl. split; by rewrite ?Hs, ?Hs2.
  - rewrite (proj2 (Z.eqb_neq _ _)) by done. split; cbn; [|by rewrite Hs2]. by rewrite Hs, lookup_alter_eq, Hl.
Qed.

(** The tunnel's life: from a successful Ensure, the endpoints and the MTU are set by
    two processes, calls failing or not, while everything else may happen to the other
    devices.  The first two are the endpoints of the last call that succeeded; the third,
    whether the size has been set since they were. *)
Inductive life : Addr -> Addr -> bool -> Tunnel -> K -> Prop :=
| life_start b4 aftr t0 k0 t k : plain6 b4 -> plain6 aftr -> 1240 <= tmtu t0 < 2 ^ 32 -> Ensure b4 aftr t0 k0 = (None, t, k) -> life b4 aftr true t k
| life_endpoints b4 aftr sized t k b4' aftr' e t' k' : plain6 b4' -> plain6 aftr' -> life b4 aftr sized t k -> SetEndpoints b4' aftr' t k = (e, t', k') ->
  life (after e b4 b4') (after e aftr aftr') (after e sized false) t' k'
| life_mtu b4 aftr sized t k m e t' k' : m < 2 ^ 32 -> life b4 aftr sized t k -> SetSoftwireMTU m t k = (e, t', k') ->
  life b4 aftr (sized || negb (tunnelMTU m =? tmtu t) && bool_decide (e = None)) t' k'
| life_other b4 aftr sized t k k' : life b4 aftr sized t k -> links k' !! ifindex t = links k !! ifindex t -> default_route k' = default_route k ->
  life b4 aftr sized t k'.

Lemma life_placed b4 aftr sized t k : life b4 aftr sized t k ->
  exists m, placed b4 aftr m t k /\ (sized = true -> m = tmtu t) /\ 1240 <= tmtu t.
Proof using Laws.
  induction 1 as [b4 aftr t0 k0 t k Pb Pa Hm E|b4 aftr sized t k b4' aftr' e t' k' Pb Pa _ (m & Hp & Hm & Hf) E|
    b4 aftr sized t k s e t' k' Hm32 _ (m & Hp & Hm & Hf) E|b4 aftr sized t k k' _ (m & [Hl Hr] & Hm & Hf) E1 E2].
  - pose proof (Ensure_spec b4 aftr t0 k0 Pb Pa ltac:(unfold u32_ok; lia)) as Hs. rewrite E in Hs. destruct Hs as (Hs & _).
    destruct (Hs eq_refl) as [Hp Ht]. exists (tmtu t). split; [done|]. split; [done|lia].
  - pose proof (SetEndpoints_spec b4 aftr m t k b4' aftr' Pb Pa Hp) as Hs. rewrite E in Hs. destruct Hs as (-> & m' & Hp' & Hm').
    exists m'. split; [done|]. split; [|done]. destruct e; cbn; [|done]. intros Hsz. rewrite Hm' by done. by apply Hm.
  - pose proof (SetSoftwireMTU_sizes b4 aftr m t k s Hm32 Hp) as Hs. rewrite E in Hs. destruct Hs as (_ & H1 & H2 & H3).
    exists (if tmtu t' =? tmtu t then m else tmtu t'). split; [done|]. destruct e as [e|].
    + rewrite H2, Z.eqb_refl by done. rewrite bool_decide_eq_false_2, andb_false_r, orb_false_r by done. by split.
    + rewrite H1 by done. split; [|apply tunnelMTU_floor]. rewrite bool_decide_eq_true_2, andb_true_r by done.
      destruct (Z.eqb_spec (tunnelMTU s) (tmtu t)) as [Heq|Hne]; cbn; [|done]. rewrite orb_false_r. intros Hsz. rewrite Heq. by apply Hm.
  - exists m. split; [|done]. split; congruence.
Qed.

(** C39: the companion tunnel is what the program takes it to be.  Whatever was there
    before, once Ensure has succeeded, and through any further calls, refused or not, of
    the two processes that drive it, the device mm-dslite0 is up with the endpoints last
    set and the IPv4 default route; its MTU is the one the tunnel has recorded (1240 at
    least) unless the endpoints have been set since the last size was (the kernel may then
    have set another); and Ensure, failing or not, never touches a device of another name.
    (The endpoints are IPv6 addresses without a zone.) *)
Theorem tunnel_in_place b4 aftr sized t k : life b4 aftr sized t k ->
  (exists m, placed b4 aftr m t k /\ (sized = true -> m = tmtu t)) /\ 1240 <= tmtu t
  /\ forall b4' aftr' t0 k0 i l, plain6 b4' -> plain6 aftr' -> u32_ok (tmtu t0) ->
       apart [deviceName] k0 i l -> links (Ensure b4' aftr' t0 k0).2 !! i = Some l.
Proof using Laws.
  intros H. destruct (life_placed _ _ _ _ _ H) as (m & Hp & Hm & Hf). split; [by exists m|]. split; [done|].
  intros b4' aftr' t0 k0 i l Pb Pa Pm Ha.
  pose proof (Ensure_spec b4' aftr' t0 k0 Pb Pa Pm) as Hs. destruct (Ensure b4' aftr' t0 k0) as [[e t'] k']. by apply Hs.
Qed.

(** Mtu.v's reading of SetSoftwireMTU: the same, with the kernel's answer. *)
Lemma SetSoftwireMTU_agrees m t k :
  let '(r, t') := Tunnel_SetSoftwireMTU (fun mtu => match (SetLinkMTU (ifindex t) mtu k).1 with None => Ret tt | Some e => Fail e end) t m in
  (ok r = true <-> (SetSoftwireMTU m t k).1.1 = None) /\ (SetSoftwireMTU m t k).1.2 = t'.
Proof.
  unfold Tunnel_SetSoftwireMTU, SetSoftwireMTU. destruct (ifindex t =? 0); [done|]. destruct (tunnelMTU m =? tmtu t); [done|].
  by destruct (SetLinkMTU (ifindex t) (tunnelMTU m) k) as [[e|] k'].
Qed.
End Tunnel.
End SlowpathFacts.

(** ** Each clone meets the program that trims it *)

Module FragpathFacts.
Section Pairs.
Context {K : Type} {L : Links K} {Laws : LinksLaws K}.
Import Fragpath.

(** Pair [j] is there, [a] its first end: both ends up and facing each other. *)
Definition ends (k : K) (up : bool) (j a b : Z) : Prop :=
  links k !! a = Some (mkLink (redirectName j) (Veth b) vethMTU up)
  /\ links k !! b = Some (mkLink (fwdName j) (Veth a) vethMTU up).

Definition pair_at (k : K) (j a : Z) : Prop := exists b, ends k true j a b.

Lemma slots_cases j : j ∈ seqZ 0 NumPairs -> j = 0 \/ j = 1 \/ j = 2 \/ j = 3.
Proof. rewrite elem_of_seqZ. unfold NumPairs. lia. Qed.

Definition names (j : Z) : list string := [redirectName j; fwdName j].

Lemma names_apart i j : i ∈ seqZ 0 NumPairs -> j ∈ seqZ 0 NumPairs -> i <> j ->
  (redirectName j ∉ names i) /\ (fwdName j ∉ names i).
Proof.
  intros Hi%slots_cases Hj%slots_cases Hne. destruct_or!; subst; try done; split; apply (bool_decide_unpack _); vm_compute; exact I.
Qed.

Lemma name_fwd j : j ∈ seqZ 0 NumPairs -> fwdName j <> redirectName j.
Proof. intros Hj%slots_cases. destruct_or!; subst; done. Qed.

Lemma pair_names_ok j : j ∈ seqZ 0 NumPairs -> name_ok (redirectName j) /\ name_ok (fwdName j).
Proof. intros Hj%slots_cases. destruct_or!; subst; split; by_eval. Qed.

(** A pair is apart from the names of another slot, at both ends. *)
Lemma ends_apart (k : K) ns up j a b : (redirectName j ∉ ns) -> (fwdName j ∉ ns) -> ends k up j a b ->
  apart ns k a (mkLink (redirectName j) (Veth b) vethMTU up) /\ apart ns k b (mkLink (fwdName j) (Veth a) vethMTU up).
Proof.
  intros H1 H2 [Ha Hb]. split; (split; [done|]; split; [done|]); intros p m [= <-] Hm; simplify_eq; done.
Qed.

Lemma remove_stale_keeps ns rest (k : K) i l : (forall n, n ∈ rest -> n ∈ ns) -> apart ns k i l ->
  apart ns (remove_stale rest k).2 i l.
Proof using Laws.
  revert k. induction rest as [|n rest IH]; intros k Hin Ha; cbn [remove_stale]; [done|].
  assert (forall n, n ∈ rest -> n ∈ ns) as Hin' by set_solver.
  destruct (InterfaceByName n k) as [x|] eqn:Ex; [|by apply IH]. destruct (name_index _ _ _ Ex) as [_ Hx32]. pose proof (del_link x k Hx32) as Hd.
  destruct (DelLink x k) as [[e|] k']; cbn in Hd; destruct Hd as [Hd _].
  - cbn [snd]. by eapply apart_kept.
  - apply IH; [done|]. eapply apart_remove; [done|set_solver|done..].
Qed.

Lemma bring_up_keeps ns i rest (p : gmap Z Z) (k : K) x l : (forall n, n ∈ rest -> n ∈ ns) -> apart ns k x l ->
  apart ns (bring_up i rest p k).2 x l.
Proof using Laws.
  revert p k. induction rest as [|n rest IH]; intros p k Hin Ha; cbn [bring_up]; [done|].
  assert (forall n, n ∈ rest -> n ∈ ns) as Hin' by set_solver.
  destruct (InterfaceByName n k) as [ifi|] eqn:Ei; [|done].
  pose proof (write_file ("/proc/sys/net/ipv6/conf/" +:+ n +:+ "/disable_ipv6") "1" k) as [Hw _].
  destruct (WriteFile _ _ k) as [ok k1]. cbn [snd] in Hw. apply (apart_kept _ _ _ _ _ Hw) in Ha.
  assert (InterfaceByName n k1 = Some ifi) as Ei1 by (apply by_name; rewrite Hw; by apply by_name).
  destruct (name_index _ _ _ Ei1) as [_ Hi32]. pose proof (set_up ifi k1 Hi32) as Hu. destruct (SetLinkUp ifi k1) as [[e|] k2]; cbn in Hu; destruct Hu as [Hu _].
  - cbn [snd]. by eapply apart_kept.
  - apply IH; [done|]. eapply (apart_alter ns k1 k2 with_up n); [done|set_solver|done..].
Qed.

(** Bringing an end up. *)
Lemma bring_up_one i n rest (p : gmap Z Z) (k : K) x l p' k' :
  links k !! x = Some l -> lname l = n -> bring_up i (n :: rest) p k = (None, p', k') ->
  exists k1, links k1 = alter with_up x (links k)
    /\ bring_up i rest (if String.eqb n (redirectName i) then <[i := x]> p else p) k1 = (None, p', k').
Proof using Laws.
  intros Hl <-. cbn [bring_up]. rewrite (find_device _ _ _ Hl). apply index_range in Hl as Hr.
  pose proof (write_file ("/proc/sys/net/ipv6/conf/" +:+ lname l +:+ "/disable_ipv6") "1" k) as [Hw _].
  destruct (WriteFile _ _ k) as [ok k1]. cbn [snd] in Hw. pose proof (set_up x k1 ltac:(unfold u32_ok; lia)) as Hu.
  destruct (SetLinkUp x k1) as [[e|] k2]; cbn in Hu; destruct Hu as [Hu _]; [done|].
  replace (u32 x) with x by (symmetry; apply Z.mod_small; lia). intros E. exists k2. by rewrite Hu, Hw.
Qed.

(** One slot: its pair is made, whatever else is apart from its names stays. *)
Lemma slot_made i (p : gmap Z Z) (k k1 k2 k3 : K) p3 : i ∈ seqZ 0 NumPairs ->
  remove_stale (names i) k = (None, k1) -> AddVeth (redirectName i) (fwdName i) vethMTU k1 = (None, k2) ->
  bring_up i (names i) p k2 = (None, p3, k3) ->
  (exists a, p3 = <[i := a]> p /\ pair_at k3 i a) /\ forall x l, apart (names i) k x l -> links k3 !! x = Some l.
Proof using Laws.
  intros Hi E1 E2 E3. destruct (pair_names_ok i Hi) as [N1 N2].
  pose proof (add_veth (redirectName i) (fwdName i) vethMTU k1 N1 N2 ltac:(by_eval)) as Ha. rewrite E2 in Ha. cbn in Ha.
  destruct Ha as (a & b & Hab & Hfa & Hfb & El & _).
  assert (links k2 !! a = Some (mkLink (redirectName i) (Veth b) vethMTU false)) as Hla by (rewrite El; apply lookup_insert_eq).
  assert (links k2 !! b = Some (mkLink (fwdName i) (Veth a) vethMTU false)) as Hlb by (by rewrite El, lookup_insert_ne, lookup_insert_eq).
  split.
  - destruct (bring_up_one _ _ _ _ _ _ _ _ _ Hla eq_refl E3) as (k4 & H4 & E4). rewrite String.eqb_refl in E4.
    assert (links k4 !! b = Some (mkLink (fwdName i) (Veth a) vethMTU false)) as Hlb4 by (by rewrite H4, lookup_alter_ne).
    destruct (bring_up_one _ _ _ _ _ _ _ _ _ Hlb4 eq_refl E4) as (k5 & H5 & E5).
    rewrite (proj2 (String.eqb_neq _ _)) in E5 by (by apply name_fwd). cbn in E5. injection E5 as <- <-.
    exists a. split; [done|]. exists b. split; rewrite H5.
    + rewrite lookup_alter_ne, H4, lookup_alter_eq, Hla by done. done.
    + by rewrite lookup_alter_eq, Hlb4.
  - intros x l Hx. pose proof (remove_stale_keeps (names i) (names i) k x l ltac:(done) Hx) as H1. rewrite E1 in H1. cbn [snd] in H1.
    assert (apart (names i) k2 x l) as H2.
    { destruct H1 as (Hxl & Hxn & Hxp). split; [|split; [done|]].
      - rewrite El, !lookup_insert_ne; congruence.
      - intros q m Hk. destruct (peer_there k1 x l Hxl q Hk) as [m' Hm']. rewrite El, !lookup_insert_ne by congruence. by apply Hxp. }
    pose proof (bring_up_keeps (names i) i (names i) p k2 x l ltac:(done) H2) as H3. rewrite E3 in H3. by destruct H3.
Qed.

(** Ensure: the pairs of the slots it has gone through. *)
Lemma Ensure_loop_spec slots : NoDup slots -> (forall i, i ∈ slots -> i ∈ seqZ 0 NumPairs) ->
  forall (p : gmap Z Z) (k : K) p' k', Ensure_loop slots p k = (None, p', k') ->
  (forall i, i ∈ slots -> exists a, p' !! i = Some a /\ pair_at k' i a)
  /\ forall j a, j ∈ seqZ 0 NumPairs -> j ∉ slots -> pair_at k j a -> pair_at k' j a /\ p' !! j = p !! j.
Proof using Laws.
  induction 1 as [|i slots Hni Hnd IH]; intros Hin p k p' k'; cbn [Ensure_loop].
  { intros [= <- <-]. split; [set_solver|done]. }
  change [redirectName i; fwdName i] with (names i).
  destruct (remove_stale (names i) k) as [[e|] k1] eqn:E1; [done|].
  destruct (AddVeth _ _ _ k1) as [[e|] k2] eqn:E2; [done|].
  destruct (bring_up i (names i) p k2) as [[[e|] p3] k3] eqn:E3; [done|]. intros E4.
  assert (i ∈ seqZ 0 NumPairs) as Hi by (apply Hin; left).
  destruct (slot_made i p k k1 k2 k3 p3 Hi E1 E2 E3) as [(a & -> & Ha) Hk].
  destruct (IH ltac:(set_solver) _ _ _ _ E4) as [IH1 IH2]. split.
  - intros j [->|Hj]%elem_of_cons; [|by apply IH1]. destruct (IH2 i a Hi Hni Ha) as [H1 H2]. exists a. split; [|done].
    by rewrite H2, lookup_insert_eq.
  - intros j b Hj Hnj (b' & Hb). assert (i <> j) as Hne by set_solver. destruct (names_apart i j Hi Hj Hne) as [H1 H2].
    destruct (ends_apart k (names i) true j b b' H1 H2 Hb) as [Ha1 Ha2].
    assert (pair_at k3 j b) as H3 by (exists b'; split; by apply Hk).
    destruct (IH2 j b Hj ltac:(set_solver) H3) as [? H4]. split; [done|]. by rewrite H4, lookup_insert_ne.
Qed.
End Pairs.
End FragpathFacts.

Section Programs.
Context {K : Type} {L : Links K} {Laws : LinksLaws K} {A : Attach K}.
Import Fragpath FragpathFacts.

(** Every populated slot's device faces, at the other end of its pair, the device the
    slot's program is attached to. *)
Definition served (progs : list (option Z)) (k : K) (f : Frag) : Prop :=
  forall i port, frag_ports f !! i = Some port ->
  exists peer prog, progs !! Z.to_nat i = Some (Some prog) /\ i ∈ seqZ 0 NumPairs
    /\ ends k true i port peer /\ attached f !! peer = Some prog.

Lemma fwd_inj i j : i ∈ seqZ 0 NumPairs -> j ∈ seqZ 0 NumPairs -> fwdName i = fwdName j -> i = j.
Proof.
  intros Hi Hj E. destruct (decide (i = j)) as [|Hne]; [done|]. destruct (names_apart i j Hi Hj Hne) as [_ Hn].
  exfalso. apply Hn. rewrite <- E. unfold names. set_solver.
Qed.

Lemma Enable_loop_spec progs (p : gmap Z Z) (k : K) :
  (forall i, i ∈ seqZ 0 NumPairs -> exists a, p !! i = Some a /\ pair_at k i a) ->
  forall n i rest f, 0 <= i -> i + Z.of_nat n = NumPairs -> drop (Z.to_nat i) progs = rest -> served progs k f ->
  let '(e, f') := Enable_loop i rest (map (fun i => default 0 (p !! i)) (seqZ i (Z.of_nat n))) (map fwdName (seqZ i (Z.of_nat n))) k f in
  served progs k f' /\ (forall j, is_Some (frag_ports f !! j) -> is_Some (frag_ports f' !! j))
  /\ (e = None -> length progs = Z.to_nat NumPairs -> forall j, i <= j < NumPairs -> is_Some (frag_ports f' !! j)).
Proof using Laws.
  intros Hp. induction n as [|n IH]; intros i rest f Hi Hn Hr Hf.
  { change (seqZ i (Z.of_nat 0)) with (@nil Z). cbn [map Enable_loop]. destruct rest as [|]; (split_and!; [done..|]); intros; lia. }
  rewrite seqZ_cons by lia. replace (Z.pred (Z.of_nat (S n))) with (Z.of_nat n) by lia. cbn [map].
  assert (i ∈ seqZ 0 NumPairs) as Hin by (apply elem_of_seqZ; lia).
  destruct rest as [|prog rest]; cbn [Enable_loop].
  { split_and!; [done..|]. intros _ Hlen. exfalso. assert (length (drop (Z.to_nat i) progs) = 0%nat) as E by (by rewrite Hr).
    rewrite length_drop in E. unfold NumPairs in *. lia. }
  destruct prog as [prog|]; [|done]. assert (progs !! Z.to_nat i = Some (Some prog)) as Hprog.
  { rewrite <- (Nat.add_0_r (Z.to_nat i)), <- lookup_drop, Hr. done. }
  destruct (Hp i Hin) as (port & Hport & peer & Hends). pose proof Hends as [_ Hpeer].
  pose proof (find_device _ _ _ Hpeer) as Hfi. cbn [lname] in Hfi. rewrite Hfi, Hport. cbn [default id from_option].
  destruct (can_attach k peer prog); [|done].
  assert (served progs k (mkFrag (<[peer := prog]> (attached f)) (frag_ports f))) as Hf1.
  { intros j pt Hj. destruct (Hf j pt Hj) as (q & pj & Hpj & Hjin & Hej & Hat). exists q, pj. split_and!; try done. cbn.
    destruct (decide (q = peer)) as [->|]; [|by rewrite lookup_insert_ne]. rewrite lookup_insert_eq.
    destruct Hej as [_ Hej]. assert (fwdName i = fwdName j) as ->%fwd_inj by congruence; [congruence|done..]. }
  destruct (can_put k i); [|done]. cbn [attached frag_ports].
  assert (served progs k (mkFrag (<[peer := prog]> (attached f)) (<[i := port]> (frag_ports f)))) as Hf2.
  { intros j pt Hj. cbn in *. destruct (decide (j = i)) as [->|].
    - rewrite lookup_insert_eq in Hj. injection Hj as <-. exists peer, prog. split_and!; try done. by rewrite lookup_insert_eq.
    - rewrite lookup_insert_ne in Hj by done. by apply Hf1. }
  specialize (IH (i + 1) rest (mkFrag (<[peer := prog]> (attached f)) (<[i := port]> (frag_ports f))) ltac:(lia) ltac:(lia)).
  replace (Z.succ i) with (i + 1) by lia. destruct (Enable_loop (i + 1) rest _ _ k _) as [e f'].
  destruct IH as (IH1 & IH2 & IH3); [|done|].
  { replace (Z.to_nat (i + 1)) with (Z.to_nat i + 1)%nat by lia. rewrite <- drop_drop, Hr. done. }
  assert (is_Some (frag_ports f' !! i)) as Hi' by (apply IH2; cbn; rewrite lookup_insert_eq; by eexists).
  split_and!; [done| |].
  - intros j Hj. destruct (decide (j = i)) as [->|]; [done|]. apply IH2. cbn. by rewrite lookup_insert_ne.
  - intros He Hlen j Hj. destruct (decide (j = i)) as [->|]; [done|]. apply IH3; [done..|lia].
Qed.

(** A clone of an oversized packet always meets the program that trims it.  Whatever
    an earlier run left behind, once the veth pairs have been made, every slot that
    EnableSoftwireFrag populates -- all four if it succeeds, the first few if it fails on
    the way, and so at every moment of it -- names the first end of that slot's pair, both
    ends up and admitting frames of the size the datapath is told, with that slot's
    program attached at the other end. *)
Lemma clones_meet_programs progs p k p' k' e f : Fragpath.Ensure p k = (None, p', k') ->
  EnableSoftwireFrag progs (RedirectIfindexes p') FwdNames k' (mkFrag ∅ ∅) = (e, f) ->
  served progs k' f
  /\ (e = None -> length progs = Z.to_nat NumPairs -> forall i, 0 <= i < NumPairs -> is_Some (frag_ports f !! i))
  /\ MaxInnerLen + 14 + 40 + 8 = vethMTU + 14.
Proof using Laws.
  intros Hens Hen. unfold Fragpath.Ensure in Hens.
  destruct (Ensure_loop_spec (seqZ 0 NumPairs) (NoDup_seqZ _ _) ltac:(done) p k p' k' Hens) as [Hp _].
  pose proof (Enable_loop_spec progs p' k' Hp 4 0 progs (mkFrag ∅ ∅) ltac:(lia) ltac:(done) ltac:(done)) as Hs.
  unfold EnableSoftwireFrag, RedirectIfindexes, FwdNames in Hen. change NumPairs with (Z.of_nat 4) in Hen at 1 2. rewrite Hen in Hs.
  destruct Hs as (H1 & _ & H3); [intros i port; cbn; by rewrite lookup_empty|]. done.
Qed.
End Programs.

(** ** Samples: a kernel that refuses what would leave it inconsistent *)

Record devices : Type := mkDevices { dlinks : gmap Z Link; droute : option Z }.

Definition consistent (ls : gmap Z Link) : Prop :=
  map_Forall (fun i l => 0 < i < 2 ^ 32
    /\ map_Forall (fun j m => lname m = lname l -> j = i) ls
    /\ match lkind l with Veth p => p <> i /\ lkind <$> (ls !! p) = Some (Veth i) | _ => True end) ls.

#[local] Instance consistent_dec ls : Decision (consistent ls).
Proof. unfold consistent. apply map_Forall_dec. intros i l. destruct (lkind l); apply _. Defined.

Definition sample_kernel : Type := { d : devices | bool_decide (consistent (dlinks d)) = true }.

Definition commit (d : devices) (k : sample_kernel) : option string * sample_kernel :=
  match Bool.bool_dec (bool_decide (consistent (dlinks d))) true with
  | left H => (None, exist _ d H)
  | right _ => (Some "refused"%string, k)
  end.

(** The first index free for two. *)
Definition fresh_index (ls : gmap Z Link) : Z := 1 + map_fold (fun i _ m => Z.max i m) 0 ls.

Definition find_name (n : string) (ls : gmap Z Link) : option Z :=
  (fun x => x.2.1) <$> list_find (fun x => lname x.2 = n) (map_to_list ls).

#[local] Instance sample_links : Links sample_kernel := {|
  links k := dlinks (proj1_sig k);
  default_route k := droute (proj1_sig k);
  InterfaceByName n k := find_name n (dlinks (proj1_sig k));
  DelLink i k :=
    let ls := remove i (dlinks (proj1_sig k)) in
    commit (mkDevices ls (j ← droute (proj1_sig k); _ ← ls !! j; Some j)) k;
  AddIP6Tnl n l r m k :=
    let ls := dlinks (proj1_sig k) in let i := fresh_index ls in
    if bool_decide (ls !! i = None) then commit (mkDevices (<[i := mkLink n (IP6Tnl l r) m false]> ls) (droute (proj1_sig k))) k
    else (Some "no index"%string, k);
  SetIP6TnlEndpoints i l r k :=
    commit (mkDevices (alter (repoint l r 1460) i (dlinks (proj1_sig k))) (droute (proj1_sig k))) k;
  AddVeth a b m k :=
    let ls := dlinks (proj1_sig k) in let i := fresh_index ls in let j := i + 1 in
    if bool_decide (ls !! i = None) && bool_decide (ls !! j = None)
    then commit (mkDevices (<[i := mkLink a (Veth j) m false]> (<[j := mkLink b (Veth i) m false]> ls)) (droute (proj1_sig k))) k
    else (Some "no index"%string, k);
  SetLinkUp i k := commit (mkDevices (alter with_up i (dlinks (proj1_sig k))) (droute (proj1_sig k))) k;
  SetLinkMTU i m k := commit (mkDevices (alter (with_mtu m) i (dlinks (proj1_sig k))) (droute (proj1_sig k))) k;
  AddRoute i p k := commit (mkDevices (dlinks (proj1_sig k)) (if bool_decide (p = mkPrefix (A4 0) 0) then Some i else droute (proj1_sig k))) k;
  WriteFile _ _ k := (false, k) |}.

Lemma commit_leaves d k (P : sample_kernel -> Prop) : (forall H, P (exist _ d H)) -> leaves k (commit d k) P.
Proof. intros HP. unfold commit, leaves. destruct (Bool.bool_dec _ _) as [H|H]; cbn; [apply HP|done]. Qed.

Lemma find_name_spec ls n i : consistent ls -> find_name n ls = Some i <-> exists l, ls !! i = Some l /\ lname l = n.
Proof.
  intros Hc. unfold find_name. split.
  - destruct (list_find _ _) as [[x [j l]]|] eqn:E; [|done]. intros [= <-]. apply list_find_Some in E as (Hx & Hn & _).
    exists l. split; [|done]. by apply list_elem_of_lookup_2, elem_of_map_to_list in Hx.
  - intros (l & Hl & Hn). destruct (list_find_elem_of (fun x => lname x.2 = n) (map_to_list ls) (i, l)) as [[x [j m]] E];
      [by apply elem_of_map_to_list|done|]. rewrite E. cbn. apply list_find_Some in E as (Hx & Hm & _).
    apply list_elem_of_lookup_2, elem_of_map_to_list in Hx. f_equal. destruct (Hc i l Hl) as (_ & Hu & _). apply (Hu j m Hx). cbn in *. congruence.
Qed.

#[local] Instance sample_links_laws : LinksLaws sample_kernel.
Proof.
  assert (forall k : sample_kernel, consistent (links k)) as Hc by (intros [d Hd]; exact (bool_decide_eq_true_1 _ Hd)).
  split.
  - intros k n i. by apply find_name_spec, (Hc k).
  - intros k i l Hl. by apply (Hc k i l Hl).
  - intros k i l p Hl Hk. destruct (Hc k i l Hl) as (_ & _ & Hp). rewrite Hk in Hp. destruct Hp as [? Hp]. split; [done|].
    by apply fmap_Some in Hp as (m & ? & ?); exists m.
  - intros i k _. apply commit_leaves. intros Hd. split; [done|]. intros j Hj. cbn in *. rewrite Hj. cbn.
    by destruct (remove i _ !! j).
  - intros n l r m k _ _ _ _. cbn. case_bool_decide; [|done]. apply commit_leaves. intros Hd. by eexists.
  - intros i l r k _ _ _. apply commit_leaves. intros Hd. by exists 1460.
  - intros a b m k _ _ _. cbn. case_bool_decide; [|done]. case_bool_decide; [|done]. apply commit_leaves. intros Hd.
    exists (fresh_index (dlinks (proj1_sig k))), (fresh_index (dlinks (proj1_sig k)) + 1). split; [lia|done].
  - intros i k _. by apply commit_leaves.
  - intros i m k _ _. by apply commit_leaves.
  - intros i k _. by apply commit_leaves.
  - done.
Qed.

#[local] Instance sample_attach : Attach sample_kernel := {| can_attach _ _ _ := true; can_put _ _ := true |}.

(** A WAN device and what a crashed run left: a tunnel, and one end of a pair. *)
Definition sample_devices : devices := mkDevices
  (list_to_map [(2, mkLink "wan0" OtherKind 1500 true); (7, mkLink "mm-dslite0" (IP6Tnl (A6 1 "") (A6 2 "")) 1460 true);
                (8, mkLink "mm-frag2p" OtherKind 1500 false)]) (Some 7).

Definition sample_start : sample_kernel := exist _ sample_devices eq_refl.

Definition sample_b4 : Addr := A6 0x20010db8000000000000000000000001 "".
Definition sample_aftr : Addr := A6 0x20010db8000000000000000000000002 "".
Definition sample_ensured : option string * Tunnel * sample_kernel :=
  Slowpath.Ensure sample_b4 sample_aftr (mkTunnel (tunnelMTU 1500) 0) sample_start.
Definition sample_narrowed : option string * Tunnel * sample_kernel :=
  Slowpath.SetSoftwireMTU 1400 sample_ensured.1.2 sample_ensured.2.

Lemma succeeded {A B} (x : option string * A * B) : x.1.1 = None -> x = (None, x.1.2, x.2).
Proof. destruct x as [[e a] b]. cbn. by intros ->. Qed.

Lemma sample_life : SlowpathFacts.life sample_b4 sample_aftr true sample_narrowed.1.2 sample_narrowed.2.
Proof.
  eapply (SlowpathFacts.life_mtu _ _ true); [|  |apply (succeeded sample_narrowed); vm_compute; reflexivity]; [reflexivity|].
  eapply SlowpathFacts.life_start; [| | |apply (succeeded sample_ensured); vm_compute; reflexivity];
    [by eexists|by eexists|split; [discriminate|reflexivity]].
Qed.

Lemma tunnel_in_place_witness :
  tmtu sample_narrowed.1.2 = 1360 /\ SlowpathFacts.in_place sample_b4 sample_aftr sample_narrowed.1.2 sample_narrowed.2.
Proof.
  split; [vm_compute; reflexivity|].
  destruct (SlowpathFacts.tunnel_in_place sample_b4 sample_aftr true sample_narrowed.1.2 sample_narrowed.2 sample_life) as ((m & Hp & Hm) & _).
  rewrite (Hm eq_refl) in Hp. exact Hp.
Defined.

(** A kernel that sets the MTU of a tunnel anew when it is repointed: the MTU learned is
    lost, and setting it again does nothing, since it is the one recorded. *)
Definition sample_repointed : option string * Tunnel * sample_kernel :=
  Slowpath.SetEndpoints sample_b4 (A6 2 "") sample_narrowed.1.2 sample_narrowed.2.
Example repointed_mtu_stays : let again := Slowpath.SetSoftwireMTU 1400 sample_repointed.1.2 sample_repointed.2 in
  sample_repointed.1.1 = None /\ again.1.1 = None /\ tmtu again.1.2 = 1360 /\
  lmtu <$> links again.2 !! ifindex again.1.2 = Some 1460.
Proof. vm_compute. done. Qed.

Definition sample_pairs : option string * gmap Z Z * sample_kernel := Fragpath.Ensure ∅ sample_start.
Definition sample_progs : list (option Z) := [Some 40; Some 41; Some 42; Some 43].
Definition sample_frag : option string * Frag :=
  EnableSoftwireFrag sample_progs (Fragpath.RedirectIfindexes sample_pairs.1.2) Fragpath.FwdNames sample_pairs.2 (mkFrag ∅ ∅).

Lemma clones_meet_programs_witness : is_Some (frag_ports sample_frag.2 !! 3) /\ served sample_progs sample_pairs.2 sample_frag.2.
Proof.
  assert (Fragpath.Ensure ∅ sample_start = (None, sample_pairs.1.2, sample_pairs.2)) as E1
    by (apply (succeeded sample_pairs); vm_compute; reflexivity).
  assert (sample_frag.1 = None) as E by (vm_compute; reflexivity).
  assert (sample_frag = (None, sample_frag.2)) as E2 by (rewrite <- E; apply surjective_pairing).
  destruct (clones_meet_programs sample_progs ∅ sample_start _ _ _ _ E1 E2) as (Hs & Ha & _).
  split; [|exact Hs]. apply (Ha eq_refl eq_refl 3). unfold Fragpath.NumPairs. lia.
Defined.
