(* ===== verification/Loading.v ===== *)
(** Loading the datapath and attaching it: src/pkg/datapath (loader.go, pin.go,
    sysctl.go, ipv6_rss.go, xdproles.go).  What the datapath's maps hold is Datapath.v's;
    here are the pins in bpffs, the attachments, the CPUs of the software RSS, and what
    an observer makes of the programs it finds on the interfaces.

    The kernel and the eBPF library are arguments: a file system with its pins (class
    [Bpffs]), and each attachment's answer. *)

From S2P Require Import Prelude Stats Wire Netip Datapath.

Local Open Scope Z_scope.

(** ** Pins (pin.go) *)

Definition bpffsDir : string := "/sys/fs/bpf/minuteman".
Definition statsPinPath : string := bpffsDir +:+ "/stats".
Definition XDPCapHookPinPath : string := bpffsDir +:+ "/xdpcap_hook".
Definition XDPCapHookCPUPinPath : string := bpffsDir +:+ "/xdpcap_hook_cpu".

(** A map to pin: its name, its path, its id in the kernel. *)
Record pinnedMap : Type := mkPinnedMap { pmName : string; pmPath : string; pmID : Z }.

Record Objects : Type := mkObjects { Stats : Z; XdpcapHook : Z; XdpcapHookCpu : Z }.

Definition pinnedMaps (o : Objects) : list pinnedMap :=
  [mkPinnedMap "stats" statsPinPath (Stats o); mkPinnedMap "xdpcap_hook" XDPCapHookPinPath (XdpcapHook o);
   mkPinnedMap "xdpcap_hook_cpu" XDPCapHookCPUPinPath (XdpcapHookCpu o)].

(** os.Remove: done, nothing there, or another error. *)
Inductive removal : Type := Removed | NotExist | RemoveError.

Class Bpffs (K : Type) : Type := {
  pins : K -> gmap string Z;
  MkdirAll : string -> K -> bool * K;
  Remove : string -> K -> removal * K;
  Pin : Z -> string -> K -> bool * K;
  (** Removing a pin the library has made. *)
  Unpin : string -> K -> K }.

Class BpffsLaws (K : Type) {B : Bpffs K} : Prop := {
  mkdir_pins d (k : K) : pins (MkdirAll d k).2 = pins k;
  remove_pins p (k : K) : let '(r, k') := Remove p k in
    match r with Removed => pins k' = delete p (pins k) | NotExist => pins k !! p = None /\ pins k' = pins k | RemoveError => pins k' = pins k end;
  pin_pins m p (k : K) : let '(ok, k') := Pin m p k in pins k' = if ok : bool then <[p := m]> (pins k) else pins k;
  unpin_pins p (k : K) : pins (Unpin p k) = delete p (pins k) }.

Section Pinning.
Context {K : Type} `{Bpffs K}.

Definition unpinAll (maps : list pinnedMap) (k : K) : K := fold_left (fun k p => Unpin (pmPath p) k) maps k.

Fixpoint pin_loop (maps pinned : list pinnedMap) (k : K) : outcome unit * K :=
  match maps with
  | [] => (Ret tt, k)
  | p :: maps =>
    match Remove (pmPath p) k with
    | (RemoveError, k) => (Fail "removing stale pin", unpinAll pinned k)
    | (_, k) =>
      match Pin (pmID p) (pmPath p) k with
      | (false, k) => (Fail "pinning map", unpinAll pinned k)
      | (true, k) => pin_loop maps (pinned ++ [p]) k
      end
    end
  end.

Definition pinMaps (o : Objects) (k : K) : outcome unit * K :=
  match MkdirAll bpffsDir k with
  | (false, k) => (Fail "creating bpffs directory", k)
  | (true, k) => pin_loop (pinnedMaps o) [] k
  end.

Definition unpinMaps (o : Objects) (k : K) : K := unpinAll (pinnedMaps o) k.
End Pinning.

(** ** Sysctls (sysctl.go) *)

Section Sysctls.
Context {K : Type} (write : string -> string -> K -> bool * K).

Definition writeSysctl (path value : string) (k : K) : outcome unit * K :=
  match write path value k with (true, k) => (Ret tt, k) | (false, k) => (Fail "writing", k) end.

(** In order: accept_ra is written before the forwarding that would suppress it. *)
Definition configureWANSysctls (wanIfaceName : string) (k : K) : outcome unit * K :=
  match writeSysctl ("/proc/sys/net/ipv6/conf/" +:+ wanIfaceName +:+ "/accept_ra") "2" k with
  | (Ret _, k) =>
    match writeSysctl "/proc/sys/net/ipv4/ip_forward" "1" k with
    | (Ret _, k) => writeSysctl "/proc/sys/net/ipv6/conf/all/forwarding" "1" k
    | r => r
    end
  | r => r
  end.
End Sysctls.

(** ** The loader and its attachments (loader.go) *)

(** The attachments open in the kernel: the next identifier, and which programs are on
    which interfaces. *)
Record Xdp : Type := mkXdp { next_link : Z; open_links : gmap Z (Z * string) (* device, program *) }.

(** link.AttachXDP: the answer of the kernel is an argument. *)
Definition AttachXDP (accepted : bool) (device : Z) (prog : string) (x : Xdp) : option Z * Xdp :=
  if accepted then (Some (next_link x), mkXdp (next_link x + 1) (<[next_link x := (device, prog)]> (open_links x))) else (None, x).

Definition close_link (lk : Z) (x : Xdp) : Xdp := mkXdp (next_link x) (delete lk (open_links x)).

(** The Loader's links ([objs], the maps, are Datapath.v's). *)
Record Attachments : Type := mkAttachments {
  wanLink : option Z; wanIfindex : Z; lanLinks : gmap Z Z; fragLinks : list Z }.

Definition no_attachment : Attachments := mkAttachments None 0 ∅ [].

Section Attaching.
(** net.InterfaceByName, the sysctls' outcome, and whether an attachment is accepted. *)
Context (InterfaceByName : string -> option Z) (sysctls : string -> bool) (accepts : Z -> string -> bool).

Definition AttachWAN (ifaceName : string) (l : Attachments) (x : Xdp) : outcome Z * Attachments * Xdp :=
  match InterfaceByName ifaceName with
  | None => (Fail "looking up WAN interface", l, x)
  | Some i =>
    if negb (sysctls ifaceName) then (Fail "configuring sysctls", l, x)
    else
      match AttachXDP (accepts i "xdp_dslite_decap") i "xdp_dslite_decap" x with
      | (None, x) => (Fail "attaching XDP decap program", l, x)
      | (Some lk, x) =>
        let x := match wanLink l with Some old => close_link old x | None => x end in
        (Ret (u32 i), mkAttachments (Some lk) (u32 i) (lanLinks l) (fragLinks l), x)
      end
  end.

Definition AttachLAN (ifaceName : string) (l : Attachments) (x : Xdp) : outcome Z * Attachments * Xdp :=
  match InterfaceByName ifaceName with
  | None => (Fail "looking up LAN interface", l, x)
  | Some i =>
    match AttachXDP (accepts i "xdp_dslite_encap") i "xdp_dslite_encap" x with
    | (None, x) => (Fail "attaching XDP encap program", l, x)
    | (Some lk, x) =>
      let x := match lanLinks l !! u32 i with Some old => close_link old x | None => x end in
      (Ret (u32 i), mkAttachments (wanLink l) (wanIfindex l) (<[u32 i := lk]> (lanLinks l)) (fragLinks l), x)
    end
  end.

(** The attachment of a fragment program (frag.go; Companion.v has the whole). *)
Definition attach_frag (device : Z) (prog : string) (l : Attachments) (x : Xdp) : outcome unit * Attachments * Xdp :=
  match AttachXDP (accepts device prog) device prog x with
  | (None, x) => (Fail "attaching XDP frag program", l, x)
  | (Some lk, x) => (Ret tt, mkAttachments (wanLink l) (wanIfindex l) (lanLinks l) (fragLinks l ++ [lk]), x)
  end.
End Attaching.

(** Every link the loader holds, in the order Close closes them. *)
Definition held (l : Attachments) : list Z := option_list (wanLink l) ++ fragLinks l ++ (map_to_list (lanLinks l)).*2.

Definition close_links (l : Attachments) (x : Xdp) : Xdp := fold_left (fun x lk => close_link lk x) (held l) x.

Section Loader.
Context {K : Type} `{Bpffs K}.

(** Load: the memory limit lifted, the objects loaded, the maps pinned; the objects are
    closed if pinning fails. *)
Inductive loaded : Type := Loaded (o : Objects) (l : Attachments) | LoadFailed (e : string) (objs_closed : bool).

Definition Load (memlock : bool) (objs : option Objects) (k : K) : loaded * K :=
  if negb memlock then (LoadFailed "removing memlock rlimit" false, k)
  else
    match objs with
    | None => (LoadFailed "loading BPF objects" false, k)
    | Some o =>
      match pinMaps o k with
      | (Ret _, k) => (Loaded o no_attachment, k)
      | (Fail e, k) => (LoadFailed e true, k)
      | (Panic, k) => (LoadFailed "" true, k)
      end
    end.

Definition Close (o : Objects) (l : Attachments) (x : Xdp) (k : K) : Xdp * K := (close_links l x, unpinMaps o k).
End Loader.

(** ** Software RSS (ipv6_rss.go) *)

Definition ipv6RSSQueueSize : Z := 2048.
Definition maxRSSCPUs : Z := 256.

(** The three maps; the configuration is (enabled, count). *)
Record Rss : Type := mkRss { cpu_map_v6 : gmap Z Z; ipv6_rss_cpus : gmap Z Z; ipv6_rss_config : Z * Z }.

Section Rss.
(** The updates the kernel refuses. *)
Context (refuse_cpu refuse_slot : Z -> bool) (refuse_config : bool).

Fixpoint rss_loop (slot : Z) (cpus : list Z) (r : Rss) : outcome unit * Rss :=
  match cpus with
  | [] => (Ret tt, r)
  | cpu :: cpus =>
    if maxRSSCPUs <=? cpu then (Fail "EnableIPv6SoftwareRSS: CPU id exceeds max", r)
    else if refuse_cpu cpu then (Fail "populating cpu_map_v6", r)
    else
      let r := mkRss (<[cpu := ipv6RSSQueueSize]> (cpu_map_v6 r)) (ipv6_rss_cpus r) (ipv6_rss_config r) in
      if refuse_slot slot then (Fail "populating ipv6_rss_cpus", r)
      else rss_loop (slot + 1) cpus (mkRss (cpu_map_v6 r) (<[slot := cpu]> (ipv6_rss_cpus r)) (ipv6_rss_config r))
  end.

Definition EnableIPv6SoftwareRSS (cpus : list Z) (r : Rss) : outcome unit * Rss :=
  if zlen cpus =? 0 then (Fail "EnableIPv6SoftwareRSS: no CPUs given", r)
  else if maxRSSCPUs <? zlen cpus then (Fail "EnableIPv6SoftwareRSS: CPUs exceed max", r)
  else
    match rss_loop 0 cpus r with
    | (Ret _, r) =>
      if refuse_config then (Fail "enabling ipv6_rss_config", r)
      else (Ret tt, mkRss (cpu_map_v6 r) (ipv6_rss_cpus r) (1, u32 (zlen cpus)))
    | e => e
    end.
End Rss.

(** ** What an observer sees (xdproles.go) *)

Inductive XDPRole : Type := XDPRoleWAN | XDPRoleLAN | XDPRoleFrag | XDPRoleUnknown.

#[export] Instance XDPRole_eq_dec : EqDecision XDPRole.
Proof. solve_decision. Defined.

Definition bpfObjNameLen : nat := 16.

Definition truncateProgramName (name : string) : string :=
  if (bpfObjNameLen - 1 <? String.length name)%nat then String.substring 0 (bpfObjNameLen - 1) name else name.

Definition roleForProgramName (name : string) : XDPRole :=
  let n := truncateProgramName name in
  if String.eqb n (truncateProgramName "xdp_dslite_decap") then XDPRoleWAN
  else if String.eqb n (truncateProgramName "xdp_dslite_encap") then XDPRoleLAN
  else if String.eqb n (truncateProgramName "xdp_softwire_frag0") then XDPRoleFrag
  else XDPRoleUnknown.

(** A program the kernel shows: its name and, if known, the maps it uses. *)
Record Program : Type := mkProgram { progName : string; MapIDs : option (list Z) }.

Section Roles.
(** Opening a program by its id, and the pinned stats map's id. *)
Context (NewProgramFromID : Z -> option Program) (pinnedStatsMapID : outcome Z).

Definition programRole (id statsID : Z) : option XDPRole :=
  prog ← NewProgramFromID id;
  mapIDs ← MapIDs prog;
  if bool_decide (statsID ∈ mapIDs) then Some (roleForProgramName (progName prog)) else None.

Definition XDPRoles (progIDs : list Z) : outcome (gmap Z XDPRole) :=
  statsID ← pinnedStatsMapID;
  Ret (fold_left (fun roles id => match programRole id statsID with Some role => <[id := role]> roles | None => roles end) progIDs ∅).
End Roles.

(** ** All the pins or none *)

Section PinLaws.
Context {K : Type} {B : Bpffs K} {Laws : BpffsLaws K}.

Lemma unpinAll_pins maps (k : K) q : pins (unpinAll maps k) !! q = if decide (q ∈ map pmPath maps) then None else pins k !! q.
Proof using Laws.
  unfold unpinAll. revert k. induction maps as [|p maps IH]; intros k; cbn [map fold_left].
  { rewrite decide_False by apply not_elem_of_nil. done. }
  rewrite IH, unpin_pins. destruct (decide (q ∈ map pmPath maps)) as [Hq|Hq].
  - by rewrite decide_True by (by right).
  - destruct (decide (q = pmPath p)) as [->|Hne].
    + rewrite decide_True by left. by rewrite lookup_delete_eq.
    + rewrite decide_False by (rewrite not_elem_of_cons; done). by rewrite lookup_delete_ne.
Qed.

(** A turn of the loop: a failure that leaves at most what was there, or a pin made. *)
Lemma pin_turn p maps pinned (k : K) :
  (exists e k1, pin_loop (p :: maps) pinned k = (Fail e, unpinAll pinned k1)
     /\ (forall q, q <> pmPath p -> pins k1 !! q = pins k !! q) /\ forall m, pins k1 !! pmPath p = Some m -> pins k !! pmPath p = Some m)
  \/ exists k2, pin_loop (p :: maps) pinned k = pin_loop maps (pinned ++ [p]) k2 /\ pins k2 = <[pmPath p := pmID p]> (pins k).
Proof using Laws.
  cbn [pin_loop]. pose proof (remove_pins (pmPath p) k) as Hr. destruct (Remove (pmPath p) k) as [r k1].
  assert (r <> RemoveError -> pins k1 = delete (pmPath p) (pins k)) as Hk1.
  { destruct r; intros Hne; [done| |done]. destruct Hr as [Hn ->]. by rewrite delete_id. }
  destruct r; [..|left; exists "removing stale pin"%string, k1; rewrite Hr; done].
  all: specialize (Hk1 ltac:(done)); pose proof (pin_pins (pmID p) (pmPath p) k1) as Hi; destruct (Pin _ _ k1) as [[] k2]; rewrite Hk1 in Hi.
  1, 3: right; exists k2; by rewrite Hi, insert_delete_eq.
  all: left; exists "pinning map"%string, k2; rewrite Hi; split; [done|]; split; [intros q Hq; by rewrite lookup_delete_ne|].
  all: intros m; by rewrite lookup_delete_eq.
Qed.

(** What the loop leaves, of the paths already pinned and of the rest. *)
Lemma pin_loop_spec maps pinned (k : K) : NoDup (map pmPath (pinned ++ maps)) ->
  (forall p, p ∈ pinned -> pins k !! pmPath p = Some (pmID p)) ->
  let '(r, k') := pin_loop maps pinned k in
  (forall q, q ∉ map pmPath (pinned ++ maps) -> pins k' !! q = pins k !! q)
  /\ match r with
     | Ret _ => forall p, p ∈ pinned ++ maps -> pins k' !! pmPath p = Some (pmID p)
     | _ => forall q m, q ∈ map pmPath (pinned ++ maps) -> pins k' !! q = Some m -> (q ∉ map pmPath pinned) /\ pins k !! q = Some m
     end.
Proof using Laws.
  revert pinned k. induction maps as [|p maps IH]; intros pinned k Hnd Hp.
  { cbn [pin_loop]. by rewrite app_nil_r. }
  destruct (pin_turn p maps pinned k) as [(e & k1 & -> & H1 & H2)|(k2 & -> & Hk2)].
  - split; [intros q Hq|intros q m Hq]; rewrite unpinAll_pins; rewrite map_app, elem_of_app in Hq.
    + rewrite decide_False by tauto. apply H1. intros ->. apply Hq. right. left.
    + destruct (decide (q ∈ map pmPath pinned)) as [|Hn]; [done|]. intros Hm. split; [done|].
      destruct (decide (q = pmPath p)) as [->|Hne]; [by apply H2|by rewrite <- H1].
  - assert (pmPath p ∉ map pmPath pinned) as Hn.
    { rewrite map_app in Hnd. apply NoDup_app in Hnd as (_ & Hd & _). intros Hin. apply (Hd _ Hin). left. }
    assert (forall x, x ∈ pinned ++ [p] -> pins k2 !! pmPath x = Some (pmID x)) as Hp2.
    { intros x [Hx|Hx]%elem_of_app; rewrite Hk2.
      - rewrite lookup_insert_ne; [by apply Hp|]. intros E. apply Hn. rewrite E. by apply list_elem_of_fmap_2.
      - apply list_elem_of_singleton in Hx as ->. apply lookup_insert_eq. }
    specialize (IH (pinned ++ [p]) k2). rewrite <- app_assoc in IH. specialize (IH Hnd Hp2).
    destruct (pin_loop maps (pinned ++ [p]) k2) as [r k3]. destruct IH as [IH1 IH2]. split.
    + intros q Hq. rewrite IH1, Hk2 by done. rewrite lookup_insert_ne; [done|]. intros <-. apply Hq. rewrite map_app. apply elem_of_app. right. left.
    + assert (forall q m, (q ∉ map pmPath (pinned ++ [p])) /\ pins k2 !! q = Some m -> (q ∉ map pmPath pinned) /\ pins k !! q = Some m) as Hx.
      { intros q m [Hq Hm]. rewrite map_app in Hq. rewrite not_elem_of_app in Hq. destruct Hq as [Hq1 Hq2]. split; [done|].
        rewrite Hk2, lookup_insert_ne in Hm; [done|]. intros <-. apply Hq2. left. }
      destruct r; [exact IH2|intros q m Hq Hm; apply Hx; by apply IH2..].
Qed.

Lemma paths_differ o : NoDup (map pmPath (pinnedMaps o)).
Proof. apply (bool_decide_unpack _). vm_compute. exact I. Qed.

(** Observers never reach a datapath that is not there.  Loading either pins the
    three maps of the objects it loaded, each at its path, whatever an earlier run left,
    or fails with the objects closed (if it had loaded them) and none of them pinned:
    what is left at a path is then what was there before.  Nothing else in the file
    system is touched, and closing leaves none of the three paths. *)
Lemma pins_all_or_none memlock objs (k : K) :
  let '(r, k') := Load memlock objs k in
  (forall o q, q ∉ map pmPath (pinnedMaps o) -> pins k' !! q = pins k !! q)
  /\ match r with
     | Loaded o l => objs = Some o /\ (forall p, p ∈ pinnedMaps o -> pins k' !! pmPath p = Some (pmID p))
         /\ forall x q, q ∈ map pmPath (pinnedMaps o) -> pins (Close o l x k').2 !! q = None
     | LoadFailed _ closed => (closed = true <-> memlock = true /\ is_Some objs)
         /\ forall q m, pins k' !! q = Some m -> pins k !! q = Some m
     end.
Proof using Laws.
  unfold Load. destruct memlock; cbn [negb]; [|split; [done|]; split; [|done]; split; [done|by intros [? _]]].
  destruct objs as [o|]; [|split; [done|]; split; [|done]; split; [done|]; by intros [_ [? ?]]].
  unfold pinMaps. pose proof (mkdir_pins bpffsDir k) as Hm. destruct (MkdirAll bpffsDir k) as [[] k0]; cbn [snd] in Hm.
  2: { split; [by rewrite Hm|]. split; [done|]. by rewrite Hm. }
  pose proof (pin_loop_spec (pinnedMaps o) [] k0 (paths_differ o) ltac:(intros p Hp; by apply not_elem_of_nil in Hp)) as Hl.
  destruct (pin_loop (pinnedMaps o) [] k0) as [r k1]. cbn [app] in Hl. rewrite Hm in Hl. destruct Hl as [H1 H2].
  assert (forall q m, (forall q m, q ∈ map pmPath (pinnedMaps o) -> pins k1 !! q = Some m -> (q ∉ map pmPath []) /\ pins k !! q = Some m) ->
    pins k1 !! q = Some m -> pins k !! q = Some m) as Hold.
  { intros q m Hf Hq. destruct (decide (q ∈ map pmPath (pinnedMaps o))) as [Hin|Hin]; [by apply (Hf q m)|by rewrite <- H1]. }
  destruct r; cbn [fst snd]; (split; [done|]).
  - split; [done|]. split; [done|]. intros x q Hq. cbn [Close snd]. unfold unpinMaps. by rewrite unpinAll_pins, decide_True.
  - split; [done|]. intros q m. by apply Hold.
  - split; [done|]. intros q m. by apply Hold.
Qed.
End PinLaws.

(** ** Every attachment is held *)

(** The kernel's open links are the loader's, each exactly once. *)
Definition links_held (l : Attachments) (x : Xdp) : Prop :=
  NoDup (held l) /\ (forall lk, lk ∈ held l <-> is_Some (open_links x !! lk)) /\ forall lk, is_Some (open_links x !! lk) -> lk < next_link x.

Lemma close_all ls x lk : open_links (fold_left (fun x lk => close_link lk x) ls x) !! lk
  = if decide (lk ∈ ls) then None else open_links x !! lk.
Proof.
  revert x. induction ls as [|a ls IH]; intros x; cbn [fold_left]; [by rewrite decide_False by apply not_elem_of_nil|].
  rewrite IH. cbn [close_link open_links]. destruct (decide (lk ∈ ls)); [by rewrite decide_True by (by right)|].
  destruct (decide (lk = a)) as [->|]; [rewrite decide_True by left; by rewrite lookup_delete_eq|].
  rewrite decide_False by (rewrite not_elem_of_cons; done). by rewrite lookup_delete_ne.
Qed.

(** A link is opened, and the one it replaces, if any, closed. *)
Lemma held_replaced l l' old rest x device prog :
  held l ≡ₚ option_list old ++ rest -> held l' ≡ₚ next_link x :: rest -> links_held l x ->
  let x1 := mkXdp (next_link x + 1) (<[next_link x := (device, prog)]> (open_links x)) in
  links_held l' (match old with Some o => close_link o x1 | None => x1 end).
Proof.
  intros Hl Hl' (Hnd & Hin & Hlt) x1. rewrite Hl in Hnd. apply NoDup_app in Hnd as (_ & Hd & Hnd).
  assert (forall lk, lk ∈ option_list old ++ rest <-> is_Some (open_links x !! lk)) as Hin2 by (intros lk; by rewrite <- Hin, Hl).
  assert (next_link x ∉ option_list old ++ rest) as Hfresh by (rewrite Hin2; intros Hs; apply Hlt in Hs; lia).
  rewrite not_elem_of_app in Hfresh. destruct Hfresh as [Hf1 Hf2].
  assert (forall lk, is_Some (open_links (match old with Some o => close_link o x1 | None => x1 end) !! lk)
    <-> lk = next_link x \/ lk ∈ rest) as Hopen.
  { intros lk. assert (is_Some (open_links x1 !! lk) <-> lk = next_link x \/ lk ∈ option_list old ++ rest) as H1.
    { rewrite Hin2. cbn. destruct (decide (lk = next_link x)) as [->|]; [rewrite lookup_insert_eq; naive_solver|rewrite lookup_insert_ne by done; naive_solver]. }
    destruct old as [o|]; [|by rewrite H1]. cbn [option_list app] in *. unfold close_link. cbn [open_links].
    destruct (decide (lk = o)) as [->|Hne].
    - rewrite lookup_delete_eq. split; [by intros [? ?]|]. intros [->|Hr]; [set_solver|]. by destruct (Hd o ltac:(left)).
    - rewrite lookup_delete_ne by done. rewrite H1. set_solver. }
  split; [|split].
  - rewrite Hl'. by constructor.
  - intros lk. rewrite Hl', Hopen. set_solver.
  - intros lk Hs%Hopen. assert (next_link (match old with Some o => close_link o x1 | None => x1 end) = next_link x + 1) as -> by (by destruct old).
    destruct Hs as [->|Hr]; [lia|]. assert (lk < next_link x); [|lia]. apply Hlt, Hin2. apply elem_of_app. by right.
Qed.

(** The attachments made, in any order, whatever the kernel answers each. *)
Inductive attaching : Attachments -> Xdp -> Prop :=
| attaching_start n : attaching no_attachment (mkXdp n ∅)
| attaching_wan byName sysctls accepts name l x r l' x' : attaching l x ->
  AttachWAN byName sysctls accepts name l x = (r, l', x') -> attaching l' x'
| attaching_lan byName accepts name l x r l' x' : attaching l x ->
  AttachLAN byName accepts name l x = (r, l', x') -> attaching l' x'
| attaching_frag accepts device prog l x r l' x' : attaching l x ->
  attach_frag accepts device prog l x = (r, l', x') -> attaching l' x'.

Lemma lan_links_insert (m : gmap Z Z) i lk : exists rest,
  (map_to_list m).*2 ≡ₚ option_list (m !! i) ++ rest /\ (map_to_list (<[i := lk]> m)).*2 ≡ₚ lk :: rest.
Proof.
  exists (map_to_list (delete i m)).*2. split.
  - destruct (m !! i) as [old|] eqn:E; cbn [option_list app]; [|by rewrite delete_id].
    by rewrite <- (map_to_list_delete m i old E).
  - rewrite <- insert_delete_eq, map_to_list_insert by apply lookup_delete_eq. done.
Qed.

Lemma attaching_held l x : attaching l x -> links_held l x.
Proof.
  induction 1 as [n|byName sysctls accepts name l x r l' x' _ IH E|byName accepts name l x r l' x' _ IH E|accepts device prog l x r l' x' _ IH E].
  - split; [constructor|]. split.
    + intros lk. cbn. rewrite lookup_empty. split; [by intros ?%not_elem_of_nil|by intros [? ?]].
    + intros lk. cbn. rewrite lookup_empty. by intros [? ?].
  - unfold AttachWAN in E. destruct (byName name) as [i|]; [|by injection E as <- <- <-].
    destruct (negb _); [by injection E as <- <- <-|]. unfold AttachXDP in E. destruct (accepts _ _); [|by injection E as <- <- <-].
    injection E as <- <- <-. by apply (held_replaced l _ (wanLink l) (fragLinks l ++ (map_to_list (lanLinks l)).*2)).
  - unfold AttachLAN in E. destruct (byName name) as [i|]; [|by injection E as <- <- <-].
    unfold AttachXDP in E. destruct (accepts _ _); [|by injection E as <- <- <-]. injection E as <- <- <-.
    destruct (lan_links_insert (lanLinks l) (u32 i) (next_link x)) as (rest & H1 & H2).
    apply (held_replaced l _ _ (option_list (wanLink l) ++ fragLinks l ++ rest)); [|unfold held; cbn [wanLink lanLinks fragLinks]; rewrite H2|done].
    + unfold held. rewrite H1. solve_Permutation.
    + solve_Permutation.
  - unfold attach_frag, AttachXDP in E. destruct (accepts _ _); [|by injection E as <- <- <-]. injection E as <- <- <-.
    apply (held_replaced l _ None (held l)); [done|unfold held; cbn [wanLink lanLinks fragLinks]; solve_Permutation|done].
Qed.

(** No program is left behind: closing after any attachments, refused or not, repeated
    or not, closes every one of them. *)
Lemma close_detaches l x : attaching l x -> open_links (close_links l x) = ∅.
Proof.
  intros (_ & Hin & _)%attaching_held. apply map_eq. intros lk. unfold close_links. rewrite close_all, lookup_empty.
  destruct (decide (lk ∈ held l)) as [|Hn]; [done|]. rewrite Hin in Hn. destruct (open_links x !! lk); [by destruct Hn; eexists|done].
Qed.

(** ** The software RSS is enabled when it is ready *)

Definition rss_ready (r : Rss) : Prop :=
  (ipv6_rss_config r).1 = 1 -> 0 < (ipv6_rss_config r).2 <= maxRSSCPUs
    /\ forall slot, 0 <= slot < (ipv6_rss_config r).2 ->
         exists cpu, ipv6_rss_cpus r !! slot = Some cpu /\ cpu < maxRSSCPUs /\ cpu_map_v6 r !! cpu = Some ipv6RSSQueueSize.

Lemma rss_loop_spec refuse_cpu refuse_slot slot cpus r : let '(e, r') := rss_loop refuse_cpu refuse_slot slot cpus r in
  ipv6_rss_config r' = ipv6_rss_config r
  /\ (forall cpu, cpu_map_v6 r !! cpu = Some ipv6RSSQueueSize -> cpu_map_v6 r' !! cpu = Some ipv6RSSQueueSize)
  /\ (forall s, s < slot -> ipv6_rss_cpus r' !! s = ipv6_rss_cpus r !! s)
  /\ (e = Ret tt -> forall i cpu, cpus !! i = Some cpu -> ipv6_rss_cpus r' !! (slot + Z.of_nat i) = Some cpu
        /\ cpu < maxRSSCPUs /\ cpu_map_v6 r' !! cpu = Some ipv6RSSQueueSize).
Proof.
  revert slot r. induction cpus as [|c cpus IH]; intros slot r; cbn [rss_loop]; [done|].
  destruct (Z.leb_spec maxRSSCPUs c); [done|]. destruct (refuse_cpu c); [done|].
  assert (forall cpu, cpu_map_v6 r !! cpu = Some ipv6RSSQueueSize -> (<[c := ipv6RSSQueueSize]> (cpu_map_v6 r)) !! cpu = Some ipv6RSSQueueSize) as Hc.
  { intros cpu Hcpu. destruct (decide (cpu = c)) as [->|]; [apply lookup_insert_eq|by rewrite lookup_insert_ne]. }
  destruct (refuse_slot slot); [by split_and!|]. cbn [cpu_map_v6 ipv6_rss_cpus ipv6_rss_config].
  specialize (IH (slot + 1) (mkRss (<[c := ipv6RSSQueueSize]> (cpu_map_v6 r)) (<[slot := c]> (ipv6_rss_cpus r)) (ipv6_rss_config r))).
  destruct (rss_loop _ _ _ _ _) as [e r']. cbn [cpu_map_v6 ipv6_rss_cpus ipv6_rss_config] in IH. destruct IH as (H1 & H2 & H3 & H4).
  split_and!; [done|by intros cpu ?%Hc%H2| |].
  - intros s Hs. rewrite H3 by lia. by rewrite lookup_insert_ne by lia.
  - intros -> [|i] cpu; [intros [= ->]|intros Hi].
    + rewrite Z.add_0_r, H3, lookup_insert_eq by lia. split_and!; [done|lia|]. apply H2, lookup_insert_eq.
    + replace (slot + Z.of_nat (S i)) with (slot + 1 + Z.of_nat i) by lia. by apply H4.
Qed.

(** Whatever update is refused, the stage is never on with a slot it would read missing. *)
Lemma rss_enabled_ready refuse_cpu refuse_slot refuse_config cpus r : (ipv6_rss_config r).1 <> 1 ->
  rss_ready (EnableIPv6SoftwareRSS refuse_cpu refuse_slot refuse_config cpus r).2.
Proof.
  intros Hoff. unfold EnableIPv6SoftwareRSS. assert (rss_ready r) as Hr by (by intros ?).
  destruct (Z.eqb_spec (zlen cpus) 0); [done|]. destruct (Z.ltb_spec maxRSSCPUs (zlen cpus)); [done|].
  pose proof (rss_loop_spec refuse_cpu refuse_slot 0 cpus r) as Hl. destruct (rss_loop _ _ _ _ _) as [e r']. destruct Hl as (H1 & _ & _ & H4).
  assert (rss_ready r') as Hr' by (intros ?; congruence). destruct e as [[]|e|]; [|done..]. destruct refuse_config; [done|].
  pose proof (zlen_nonneg cpus). assert (u32 (zlen cpus) = zlen cpus) as E by (apply Z.mod_small; unfold maxRSSCPUs in *; lia).
  intros _. cbn [snd ipv6_rss_config ipv6_rss_cpus cpu_map_v6]. rewrite E. split; [lia|]. intros slot Hs.
  destruct (lookup_lt_is_Some_2 cpus (Z.to_nat slot)) as [cpu Hcpu]; [unfold zlen in *; lia|]. exists cpu.
  destruct (H4 eq_refl _ _ Hcpu) as (Hc & ? & ?). by rewrite Z2Nat.id in Hc by lia.
Qed.

(** ** Roles *)

(** A name is classified the same whole and as the kernel's field cuts it. *)
Lemma truncate_idem name : truncateProgramName (truncateProgramName name) = truncateProgramName name.
Proof.
  unfold truncateProgramName. change (bpfObjNameLen - 1)%nat with 15%nat.
  destruct (Nat.ltb_spec 15 (String.length name)) as [Hl|Hl]; [|by rewrite (proj2 (Nat.ltb_ge _ _))].
  rewrite (proj2 (Nat.ltb_ge _ _)); [done|]. generalize 15%nat. clear. induction name as [|c name IH]; intros [|n]; cbn; try lia. specialize (IH n). lia.
Qed.

Lemma role_truncated name : roleForProgramName (truncateProgramName name) = roleForProgramName name.
Proof. unfold roleForProgramName. by rewrite truncate_idem. Qed.

Lemma XDPRoles_spec open statsID ids roles : XDPRoles open (Ret statsID) ids = Ret roles ->
  forall id, roles !! id = if decide (id ∈ ids) then programRole open id statsID else None.
Proof.
  unfold XDPRoles. rewrite bind_ret. intros [= <-].
  assert (forall (m : gmap Z XDPRole) id, fold_left (fun (roles : gmap Z XDPRole) id => match programRole open id statsID with Some role => <[id := role]> roles | None => roles end) ids m !! id
    = if decide (id ∈ ids) then match programRole open id statsID with Some r => Some r | None => m !! id end else m !! id) as Hf.
  { induction ids as [|a ids IH]; intros m id; cbn [fold_left]; [by rewrite decide_False by apply not_elem_of_nil|]. rewrite IH.
    destruct (decide (id ∈ ids)) as [Hi|Hi].
    - rewrite decide_True by (by right). destruct (programRole open id statsID) eqn:E; [done|]. destruct (programRole open a statsID) eqn:Ea; [|done].
      rewrite lookup_insert_ne; congruence.
    - destruct (decide (id = a)) as [->|Hne].
      + rewrite decide_True by left. destruct (programRole open a statsID); [apply lookup_insert_eq|done].
      + rewrite decide_False by (rewrite not_elem_of_cons; done). destruct (programRole open a statsID); [by rewrite lookup_insert_ne|done]. }
  intros id. rewrite Hf, lookup_empty. by destruct (decide _), (programRole open id statsID).
Qed.

(** An interface is labelled exactly when its program uses the running instance's
    statistics map, and the known programs by what they do, names cut short included. *)
Lemma roles_by_map open statsID ids roles : XDPRoles open (Ret statsID) ids = Ret roles -> forall id role,
  roles !! id = Some role <-> id ∈ ids /\ exists name maps, open id = Some (mkProgram name (Some maps)) /\ statsID ∈ maps
    /\ role = roleForProgramName name.
Proof.
  intros H id role. rewrite (XDPRoles_spec _ _ _ _ H). unfold programRole. destruct (decide (id ∈ ids)) as [Hi|Hi]; [|naive_solver].
  destruct (open id) as [[name [maps|]]|]; cbn; [|naive_solver..]. case_bool_decide; naive_solver.
Qed.

Lemma role_samples : map roleForProgramName ["xdp_dslite_decap"; "xdp_dslite_deca"; "xdp_dslite_enca"; "xdp_softwire_frag3"; "xdp_softwire_fr"; "other"]%string
  = [XDPRoleWAN; XDPRoleWAN; XDPRoleLAN; XDPRoleFrag; XDPRoleFrag; XDPRoleUnknown].
Proof. vm_compute. reflexivity. Qed.

(** ** Sample: a file system that refuses the second pin *)

#[local] Instance sample_bpffs : Bpffs (gmap string Z) := {|
  pins k := k; MkdirAll _ k := (true, k);
  Remove p k := (match k !! p with Some _ => Removed | None => NotExist end, delete p k);
  Pin m p k := if m =? 13 then (false, k) else (true, <[p := m]> k);
  Unpin p k := delete p k |}.

#[local] Instance sample_bpffs_laws : BpffsLaws (gmap string Z).
Proof.
  split; [done| | |done].
  - intros p k. cbn. destruct (k !! p) eqn:E; [done|]. split; [done|]. by rewrite delete_id.
  - intros m p k. cbn. by destruct (m =? 13).
Qed.

(** The second pin is refused over stale pins: the first, already replaced, is taken back. *)
Definition stale_pins : gmap string Z := <[statsPinPath := 5]> (<[XDPCapHookCPUPinPath := 6]> ∅).
Definition half_loaded : loaded * gmap string Z := Load true (Some (mkObjects 11 13 12)) stale_pins.

Lemma pins_all_or_none_witness : half_loaded.1 = LoadFailed "pinning map" true
  /\ half_loaded.2 !! statsPinPath = None /\ forall q m, half_loaded.2 !! q = Some m -> stale_pins !! q = Some m.
Proof.
  split; [vm_compute; reflexivity|]. split; [vm_compute; reflexivity|].
  assert (half_loaded = (LoadFailed "pinning map" true, half_loaded.2)) as E by (vm_compute; reflexivity).
  pose proof (pins_all_or_none true (Some (mkObjects 11 13 12)) stale_pins) as H. fold half_loaded in H. rewrite E in H.
  apply H.
Defined.
