(* ===== verification/Controller.v ===== *)
(** The softwire controller: src/internal/softwirectl/controller.go, a pure
    state machine that decides when to re-discover the AFTR, migrates the
    softwire to a new one and follows the WAN source.

    [HandleEvent] is the whole handler.  Logging is left out.  The actor library
    that runs it (molecule) is not under src; [turn] below states what the
    controller relies on: effects are carried out in order, a change of phase
    cancels the state timeout and calls the handler with Enter, a response comes
    at most once per request. *)

From S2P Require Import Prelude Stats Wire Netip Datapath Migration Softwire.

Local Open Scope Z_scope.

(** ** Policy *)

Definition Second : Z := 1000000000.
Definition primingDuration : Z := 60 * Second.
Definition drainInterval : Z := 30 * Second.
Definition maxDrainDuration : Z := 2 * 3600 * Second.
Definition switchRetry : Z := 5 * 60 * Second.
Definition b4PollInterval : Z := 30 * Second.

Definition nextRefreshWait (refresh : Z) : Z := if refresh <=? 0 then switchRetry else refresh.

Definition UsableB4 (addr : Addr) : bool := Is6 addr && IsGlobalUnicast addr.

Definition nextB4 (current queried : Addr) (ok : bool) : Addr * bool :=
  if negb ok || negb (UsableB4 queried) || bool_decide (queried = current)
  then (current, false) else (queried, true).

(** ** Phases and data *)

Inductive Phase : Type := Recovering | PSteady | Discovering | PPriming | PDraining | Switching.

#[export] Instance Phase_eq_dec : EqDecision Phase.
Proof. solve_decision. Defined.

Record Discovery : Type := mkDiscovery {
  dAFTR : Addr; DNSServers : list Addr; Refresh : Z; HB46PPToken : string }.
Definition zeroDiscovery : Discovery := mkDiscovery AInvalid [] 0 "".

Record Data : Type := mkData {
  Current : Discovery; dB4 : Addr; Wait : Z;
  Gen : Z;
  Next : Discovery; Migration : Z; Baseline : Counts; Recorded : Z;
  CapReached : bool; AbortWhy : string;
  SwitchB4 : Addr; SwitchTo : Discovery }.
Definition zeroData : Data :=
  mkData zeroDiscovery AInvalid 0 0 zeroDiscovery 0 zeroCounts 0 false "" AInvalid zeroDiscovery.

(** Field updates. *)
Definition set_Wait (d : Data) (v : Z) : Data :=
  mkData (Current d) (dB4 d) v (Gen d) (Next d) (Migration d) (Baseline d) (Recorded d)
    (CapReached d) (AbortWhy d) (SwitchB4 d) (SwitchTo d).
Definition set_Current (d : Data) (v : Discovery) : Data :=
  mkData v (dB4 d) (Wait d) (Gen d) (Next d) (Migration d) (Baseline d) (Recorded d)
    (CapReached d) (AbortWhy d) (SwitchB4 d) (SwitchTo d).
Definition set_B4 (d : Data) (v : Addr) : Data :=
  mkData (Current d) v (Wait d) (Gen d) (Next d) (Migration d) (Baseline d) (Recorded d)
    (CapReached d) (AbortWhy d) (SwitchB4 d) (SwitchTo d).
Definition set_Next (d : Data) (v : Discovery) : Data :=
  mkData (Current d) (dB4 d) (Wait d) (Gen d) v (Migration d) (Baseline d) (Recorded d)
    (CapReached d) (AbortWhy d) (SwitchB4 d) (SwitchTo d).
Definition set_Migration (d : Data) (v : Z) : Data :=
  mkData (Current d) (dB4 d) (Wait d) (Gen d) (Next d) v (Baseline d) (Recorded d)
    (CapReached d) (AbortWhy d) (SwitchB4 d) (SwitchTo d).
Definition set_Baseline (d : Data) (v : Counts) : Data :=
  mkData (Current d) (dB4 d) (Wait d) (Gen d) (Next d) (Migration d) v (Recorded d)
    (CapReached d) (AbortWhy d) (SwitchB4 d) (SwitchTo d).
Definition set_Recorded (d : Data) (v : Z) : Data :=
  mkData (Current d) (dB4 d) (Wait d) (Gen d) (Next d) (Migration d) (Baseline d) v
    (CapReached d) (AbortWhy d) (SwitchB4 d) (SwitchTo d).
Definition set_CapReached (d : Data) (v : bool) : Data :=
  mkData (Current d) (dB4 d) (Wait d) (Gen d) (Next d) (Migration d) (Baseline d) (Recorded d)
    v (AbortWhy d) (SwitchB4 d) (SwitchTo d).
Definition set_AbortWhy (d : Data) (v : string) : Data :=
  mkData (Current d) (dB4 d) (Wait d) (Gen d) (Next d) (Migration d) (Baseline d) (Recorded d)
    (CapReached d) v (SwitchB4 d) (SwitchTo d).
Definition set_Switch (d : Data) (gen : Z) (b4 : Addr) (to : Discovery) : Data :=
  mkData (Current d) (dB4 d) (Wait d) gen (Next d) (Migration d) (Baseline d) (Recorded d)
    (CapReached d) (AbortWhy d) b4 to.

(** ** Requests, messages, effects *)

Inductive op : Type :=
| opRecover | opSource | opSwitch | opDiscover | opBegin | opCounts | opAbort | opCutover
| opGC | opComplete.

#[export] Instance op_eq_dec : EqDecision op.
Proof. solve_decision. Defined.

Record tag : Type := mkTag { tOp : op; tGen : Z }.

#[export] Instance tag_eq_dec : EqDecision tag.
Proof. solve_decision. Defined.

(** Messages of the state timeouts. *)
Inductive stateMsg : Type := refresh | primed | drainTick.

(** Messages of the named timeouts b4-poll and drain-cap. *)
Inductive timerMsg : Type := b4Poll | drainCap (migration : Z).

Inductive effect : Type :=
| SendRequest (t : tag) (r : request)
| StartStateTimeout (after : Z) (m : stateMsg)
| StartTimeout (after : Z) (m : timerMsg)
| CancelDrainCap
| Async (token : string)
| CancelAsync
| Postpone
| Stop (reason : string).

(** The value of a response: of the softwire server, of a discovery attempt, or
    something else. *)
Inductive rvalue : Type :=
| Replied (v : value)
| discoverRep (disc : Discovery) (err : option string) (retryIn : Z)
| NoValue.

Record Response : Type := mkResponse { Value : rvalue; rErr : option string }.

Inductive event : Type :=
| Enter
| StateTimeout (m : stateMsg)
| Timeout (m : timerMsg)
| AsyncResult (v : rvalue) (err : option string)
| Responded (t : tag) (r : Response)
| OtherInfo.

Record Controller : Type := mkController {
  DynamicAFTR : bool; DynamicB4 : bool; Initial : Discovery }.

Definition softwire (o : op) (gen : Z) (r : request) : effect := SendRequest (mkTag o gen) r.

(** [reply]: the value if it is of the expected type, else its zero, and the
    response's error; then the value's own error. *)
Definition first_err (r : Response) (e : option string) : option string :=
  match rErr r with Some e' => Some e' | None => e end.

Definition reply_recovered (r : Response) : Endpoints * option string :=
  match Value r with
  | Replied (recovered ep e) => (ep, first_err r e) | _ => (zeroEndpoints, rErr r) end.
Definition reply_source (r : Response) : Addr * bool * option string :=
  match Value r with
  | Replied (sourceRep a ok e) => (a, ok, first_err r e) | _ => (AInvalid, false, rErr r) end.
Definition reply_counts (r : Response) : Counts * option string :=
  match Value r with
  | Replied (countsRep c e) => (c, first_err r e) | _ => (zeroCounts, rErr r) end.
Definition reply_gc (r : Response) : Z * option string :=
  match Value r with
  | Replied (gcRep n e) => (n, first_err r e) | _ => (0, rErr r) end.
Definition reply_discover (r : Response) : Discovery * Z * option string :=
  match Value r with
  | discoverRep disc e retry => (disc, retry, first_err r e) | _ => (zeroDiscovery, 0, rErr r) end.
Definition done_ (r : Response) : option string :=
  match rErr r with
  | Some e => Some e
  | None => match Value r with Replied (doneRep e) => e | _ => None end
  end.

(** ** The handlers *)

Abbreviation outcome3 := (Phase * Data * list effect)%type.

Definition migrationFailed (d : Data) : outcome3 :=
  (PSteady, set_Wait (set_Next d zeroDiscovery) switchRetry, []).

Definition abort (d : Data) (why : string) : outcome3 :=
  (PPriming, set_AbortWhy d why, [softwire opAbort (Gen d) abortReq]).

Definition hardSwitch (st : Phase) (d : Data) (b4 : Addr) : outcome3 :=
  let cancel := match st with Discovering => [CancelAsync] | _ => [] end in
  let to := match st with PDraining => Next d | _ => Current d end in
  let d := set_Next (set_Switch d (u64 (Gen d + 1)) b4 to) zeroDiscovery in
  (Switching, d, cancel ++ [softwire opSwitch (Gen d) (switchReq (mkEndpoints b4 (dAFTR to)))]).

Definition recovered_ (c : Controller) (d : Data) (ep : Endpoints) : outcome3 :=
  let d := set_B4 d (B4 ep) in
  let d := if bool_decide (AFTR ep = dAFTR (Initial c))
           then set_Wait (set_Current d (Initial c)) (nextRefreshWait (Refresh (Initial c)))
           else set_Wait (set_Current d (mkDiscovery (AFTR ep) [] 0 "")) 0 in
  (PSteady, d, if DynamicB4 c then [StartTimeout b4PollInterval b4Poll] else []).

Definition onRecover (c : Controller) (st : Phase) (d : Data) (r : Response) : outcome3 :=
  match reply_recovered r with
  | (_, Some e) => (st, d, [Stop e])
  | (ep, None) => recovered_ c d ep
  end.

Definition onSource (st : Phase) (d : Data) (r : Response) : outcome3 :=
  match reply_source r with
  | (_, _, Some _) => (st, d, [])
  | (a, ok, None) =>
    let '(b4, changed) := nextB4 (dB4 d) a ok in
    if changed : bool then hardSwitch st d b4 else (st, d, [])
  end.

Definition onSwitch (d : Data) (r : Response) : outcome3 :=
  match done_ r with
  | Some _ => (PSteady, set_Wait d switchRetry, [])
  | None => (PSteady, set_Wait (set_Current (set_B4 d (SwitchB4 d)) (SwitchTo d)) 0, [])
  end.

Definition onDiscover (d : Data) (r : Response) : outcome3 :=
  match reply_discover r with
  | (_, retry, Some _) =>
    let cur := Current d in
    (PSteady, set_Wait (set_Current d (mkDiscovery (dAFTR cur) (DNSServers cur) retry (HB46PPToken cur)))
                (nextRefreshWait retry), [])
  | (next, _, None) =>
    if bool_decide (dAFTR next = dAFTR (Current d))
    then (PSteady, set_Wait (set_Current d next) (nextRefreshWait (Refresh next)), [])
    else
      let d := set_Migration (set_Next d next) (u64 (Migration d + 1)) in
      (PPriming, d, [softwire opBegin (Gen d) (beginReq (mkEndpoints (dB4 d) (dAFTR next)))])
  end.

Definition onBegin (st : Phase) (d : Data) (r : Response) : outcome3 :=
  match reply_counts r with
  | (_, Some _) => migrationFailed d
  | (c, None) => (st, set_Baseline d c, [StartStateTimeout primingDuration primed])
  end.

Definition onCounts (st : Phase) (d : Data) (r : Response) : outcome3 :=
  match reply_counts r with
  | (_, Some e) => abort d ("reading datapath stats: " ++ e)
  | (c, None) =>
    if 0 <? u64 (AffinityInsertFail c - AffinityInsertFail (Baseline d)) then abort d ""
    else (st, set_Recorded d (u64 (AffinityInsert c - AffinityInsert (Baseline d))),
          [softwire opCutover (Gen d) cutoverReq])
  end.

Definition onCutover (d : Data) (r : Response) : outcome3 :=
  match done_ r with
  | Some e => abort d e
  | None => (PDraining, d, [])
  end.

Definition onAbort (d : Data) (r : Response) : outcome3 :=
  match done_ r with
  | Some _ => migrationFailed d
  | None => if String.eqb (AbortWhy d) "" then (PSteady, set_Wait d switchRetry, []) else migrationFailed d
  end.

Definition onGC (st : Phase) (d : Data) (r : Response) : outcome3 :=
  match reply_gc r with
  | (_, Some _) => (st, d, [StartStateTimeout drainInterval drainTick])
  | (n, None) =>
    if (0 <? n) && negb (CapReached d) then (st, d, [StartStateTimeout drainInterval drainTick])
    else (st, d, [softwire opComplete (Gen d) completeReq])
  end.

Definition onComplete (st : Phase) (d : Data) (r : Response) : outcome3 :=
  match done_ r with
  | Some _ => (st, d, [StartStateTimeout drainInterval drainTick])
  | None =>
    let d := set_Next (set_Current d (Next d)) zeroDiscovery in
    (PSteady, set_Wait d (nextRefreshWait (Refresh (Current d))), [CancelDrainCap])
  end.

Definition response (c : Controller) (st : Phase) (d : Data) (o : op) (r : Response) : outcome3 :=
  match o with
  | opRecover => onRecover c st d r
  | opSource => onSource st d r
  | opSwitch => onSwitch d r
  | opDiscover => onDiscover d r
  | opBegin => onBegin st d r
  | opCounts => onCounts st d r
  | opCutover => onCutover d r
  | opAbort => onAbort d r
  | opGC => onGC st d r
  | opComplete => onComplete st d r
  end.

Definition enter (c : Controller) (st : Phase) (d : Data) : outcome3 :=
  match st with
  | PSteady => (st, d, if DynamicAFTR c then [StartStateTimeout (Wait d) refresh] else [])
  | PDraining => (st, set_CapReached d false,
      [StartStateTimeout drainInterval drainTick; StartTimeout maxDrainDuration (drainCap (Migration d))])
  | _ => (st, d, [])
  end.

Definition HandleEvent (c : Controller) (st : Phase) (d : Data) (ev : event) : outcome3 :=
  match ev with
  | Enter => enter c st d
  | StateTimeout refresh => (Discovering, d, [Async (HB46PPToken (Current d))])
  | StateTimeout primed => (st, d, [softwire opCounts (Gen d) countsReq])
  | StateTimeout drainTick => (st, d, [softwire opGC (Gen d) gcReq])
  | Timeout b4Poll =>
    if bool_decide (st = Switching) then (st, d, [Postpone])
    else (st, d, [softwire opSource (Gen d) (sourceReq (dAFTR (Current d)));
                  StartTimeout b4PollInterval b4Poll])
  | Timeout (drainCap m) => (st, if m =? Migration d then set_CapReached d true else d, [])
  | AsyncResult v e => response c st d opDiscover (mkResponse v e)
  | Responded t r => if tGen t =? Gen d then response c st d (tOp t) r else (st, d, [])
  | OtherInfo => (st, d, [])
  end.

Definition Init : outcome3 := (Recovering, zeroData, [softwire opRecover 0 recoverReq]).

(** ** The controller running *)

(** What is outstanding on the controller's behalf: requests not yet answered, its
    state timeout, a discovery attempt, the b4-poll and drain-cap timers, a
    postponed b4-poll. *)
Record sys : Type := mkSys {
  ph : Phase; dat : Data;
  inflight : list (tag * request);
  timer : option stateMsg; attempt : bool; b4timer : bool; cap : option Z; postponed : bool;
  halted : bool }.

Definition apply_effect (s : sys) (e : effect) : sys :=
  match e with
  | SendRequest t r => mkSys (ph s) (dat s) ((t, r) :: inflight s) (timer s) (attempt s) (b4timer s) (cap s) (postponed s) (halted s)
  | StartStateTimeout _ m => mkSys (ph s) (dat s) (inflight s) (Some m) (attempt s) (b4timer s) (cap s) (postponed s) (halted s)
  | StartTimeout _ b4Poll => mkSys (ph s) (dat s) (inflight s) (timer s) (attempt s) true (cap s) (postponed s) (halted s)
  | StartTimeout _ (drainCap m) => mkSys (ph s) (dat s) (inflight s) (timer s) (attempt s) (b4timer s) (Some m) (postponed s) (halted s)
  | CancelDrainCap => mkSys (ph s) (dat s) (inflight s) (timer s) (attempt s) (b4timer s) None (postponed s) (halted s)
  | Async _ => mkSys (ph s) (dat s) (inflight s) (timer s) true (b4timer s) (cap s) (postponed s) (halted s)
  | CancelAsync => mkSys (ph s) (dat s) (inflight s) (timer s) false (b4timer s) (cap s) (postponed s) (halted s)
  | Postpone => mkSys (ph s) (dat s) (inflight s) (timer s) (attempt s) (b4timer s) (cap s) true (halted s)
  | Stop _ => mkSys (ph s) (dat s) (inflight s) (timer s) (attempt s) (b4timer s) (cap s) (postponed s) true
  end.

Definition apply_effects (s : sys) (es : list effect) : sys := fold_left apply_effect es s.

(** The phase and data after a callback, before its effects; a change of phase
    cancels the state timeout and delivers what was postponed. *)
Definition moved (s : sys) (st : Phase) (d : Data) : sys :=
  if decide (st = ph s)
  then mkSys st d (inflight s) (timer s) (attempt s) (b4timer s) (cap s) (postponed s) (halted s)
  else mkSys st d (inflight s) None (attempt s) (b4timer s || postponed s) (cap s) false (halted s).

(** One event: the handler, then, on a change of phase, Enter. *)
Definition turn (c : Controller) (s : sys) (ev : event) : sys :=
  let '(st, d, es) := HandleEvent c (ph s) (dat s) ev in
  let s1 := apply_effects (moved s st d) es in
  if decide (st = ph s) then s1
  else
    let '(st2, d2, es2) := HandleEvent c st d Enter in
    apply_effects (moved s1 st2 d2) es2.

Definition started : sys :=
  let '(st, d, es) := Init in
  apply_effects (mkSys st d [] None false false None false false) es.

(** An event the environment may deliver: the answer, any answer, to an
    outstanding request, a timeout that is running, the end of a discovery
    attempt that is, or a message the controller does not know. *)
Inductive deliver : sys -> sys -> event -> Prop :=
| d_response s l1 l2 t q r : inflight s = l1 ++ (t, q) :: l2 ->
    deliver s (mkSys (ph s) (dat s) (l1 ++ l2) (timer s) (attempt s) (b4timer s) (cap s) (postponed s) (halted s))
      (Responded t r)
| d_timer s m : timer s = Some m ->
    deliver s (mkSys (ph s) (dat s) (inflight s) None (attempt s) (b4timer s) (cap s) (postponed s) (halted s))
      (StateTimeout m)
| d_b4 s : b4timer s = true ->
    deliver s (mkSys (ph s) (dat s) (inflight s) (timer s) (attempt s) false (cap s) (postponed s) (halted s))
      (Timeout b4Poll)
| d_cap s m : cap s = Some m ->
    deliver s (mkSys (ph s) (dat s) (inflight s) (timer s) (attempt s) (b4timer s) None (postponed s) (halted s))
      (Timeout (drainCap m))
| d_attempt s v e : attempt s = true ->
    deliver s (mkSys (ph s) (dat s) (inflight s) (timer s) false (b4timer s) (cap s) (postponed s) (halted s))
      (AsyncResult v e)
| d_other s : deliver s s OtherInfo.

(** [reach c n s]: [s] after [n] events. *)
Inductive reach (c : Controller) : Z -> sys -> Prop :=
| reach_start : reach c 0 started
| reach_event n s s1 ev : reach c n s -> halted s = false -> deliver s s1 ev ->
    reach c (n + 1) (turn c s1 ev).

(** ** The invariant *)

(** The outstanding requests of the current generation, source queries apart. *)
Definition is_live (g : Z) (x : tag * request) : bool :=
  bool_decide (tOp x.1 <> opSource) && (tGen x.1 =? g).
Definition lives (g : Z) (l : list (tag * request)) : list (tag * request) :=
  filter (fun x => is_live g x = true) l.
#[global] Arguments lives : simpl never.
Definition live (s : sys) : list (tag * request) := lives (Gen (dat s)) (inflight s).

(** What drives each phase on: exactly one thing is pending. *)
Definition driven (c : Controller) (s : sys) : Prop :=
  let d := dat s in
  let g := Gen d in
  match ph s with
  | Recovering => inflight s = [(mkTag opRecover 0, recoverReq)] /\ g = 0 /\ timer s = None /\ attempt s = false
  | PSteady => live s = [] /\ attempt s = false /\ timer s = if DynamicAFTR c then Some refresh else None
  | Discovering => live s = [] /\ attempt s = true /\ timer s = None
  | PPriming => attempt s = false /\
      ((live s = [] /\ timer s = Some primed) \/
       (timer s = None /\ exists o q, live s = [(mkTag o g, q)] /\
          (o, q) ∈ [(opBegin, beginReq (mkEndpoints (dB4 d) (dAFTR (Next d)))); (opCounts, countsReq);
                    (opAbort, abortReq); (opCutover, cutoverReq)]))
  | PDraining => attempt s = false /\
      ((live s = [] /\ timer s = Some drainTick) \/
       (timer s = None /\ exists o q, live s = [(mkTag o g, q)] /\
          (o, q) ∈ [(opGC, gcReq); (opComplete, completeReq)]))
  | Switching => attempt s = false /\ timer s = None /\
      live s = [(mkTag opSwitch g, switchReq (mkEndpoints (SwitchB4 d) (dAFTR (SwitchTo d))))] /\
      (forall x, x ∈ inflight s -> tGen x.1 = g -> tOp x.1 = opSwitch) /\
      UsableB4 (SwitchB4 d) = true /\ SwitchB4 d <> dB4 d
  end.

Definition polled (c : Controller) (s : sys) : Prop :=
  (ph s = Recovering -> b4timer s = false /\ postponed s = false) /\
  (postponed s = true -> ph s = Switching) /\
  (DynamicB4 c = true -> ph s <> Recovering -> b4timer s = true \/ postponed s = true).

Definition inv (c : Controller) (n : Z) (s : sys) : Prop :=
  0 <= Gen (dat s) <= n /\
  Forall (fun x => 0 <= tGen x.1 <= Gen (dat s)) (inflight s) /\
  (halted s = false -> driven c s /\ polled c s).

Lemma lives_cons o g q l : o <> opSource -> lives g ((mkTag o g, q) :: l) = (mkTag o g, q) :: lives g l.
Proof.
  intros Ho. unfold lives. rewrite filter_cons_True; [done|]. unfold is_live. cbn.
  by rewrite bool_decide_true, Z.eqb_refl.
Qed.

Lemma lives_skip t g q l : is_live g (t, q) = false -> lives g ((t, q) :: l) = lives g l.
Proof. intros H. unfold lives. rewrite filter_cons_False; [done|]. by rewrite H. Qed.

Lemma lives_source g g' q l : lives g ((mkTag opSource g', q) :: l) = lives g l.
Proof. by apply lives_skip. Qed.

Lemma lives_remove g l1 x l2 : is_live g x = false -> lives g (l1 ++ l2) = lives g (l1 ++ x :: l2).
Proof.
  intros H. unfold lives. rewrite !filter_app, filter_cons_False; [done|]. by rewrite H.
Qed.

(** Answering the one live request leaves none. *)
Lemma lives_answer g l1 o q l2 y : o <> opSource -> lives g (l1 ++ (mkTag o g, q) :: l2) = [y] ->
  y = (mkTag o g, q) /\ lives g (l1 ++ l2) = [].
Proof.
  intros Ho. unfold lives. rewrite !filter_app, filter_cons_True
    by (unfold is_live; cbn; by rewrite bool_decide_true, Z.eqb_refl).
  destruct (filter _ l1) as [|z zs]; cbn; [by intros [= -> ->]|].
  intros [= _ H]. by destruct zs.
Qed.

Lemma lives_none g l1 o q l2 : o <> opSource -> lives g (l1 ++ (mkTag o g, q) :: l2) <> [].
Proof.
  intros Ho. unfold lives. rewrite filter_app, filter_cons_True
    by (unfold is_live; cbn; by rewrite bool_decide_true, Z.eqb_refl).
  by destruct (filter _ l1); cbn.
Qed.

(** A new generation finds nothing of its own in flight. *)
Lemma lives_new g l : Forall (fun x : tag * request => 0 <= tGen x.1 <= g) l -> lives (g + 1) l = [].
Proof.
  induction 1 as [|[t q] l Hx _ IH]; [done|]. rewrite lives_skip; [done|]. unfold is_live. cbn in *.
  rewrite (proj2 (Z.eqb_neq _ _)) by lia. apply andb_false_r.
Qed.

Lemma Forall_remove {A} (P : A -> Prop) l1 x l2 : Forall P (l1 ++ x :: l2) -> P x /\ Forall P (l1 ++ l2).
Proof. rewrite !Forall_app, Forall_cons. tauto. Qed.

Lemma ph_effects es s : ph (apply_effects s es) = ph s.
Proof.
  revert s. induction es as [|e es IH]; intros s; [done|].
  change (apply_effects s (e :: es)) with (apply_effects (apply_effect s e) es). rewrite IH.
  by destruct e as [| |? []| | | | |].
Qed.

Lemma dat_effects es s : dat (apply_effects s es) = dat s.
Proof.
  revert s. induction es as [|e es IH]; intros s; [done|].
  change (apply_effects s (e :: es)) with (apply_effects (apply_effect s e) es). rewrite IH.
  by destruct e as [| |? []| | | | |].
Qed.

(** A turn that stays in its phase, and one that leaves it. *)
Lemma turn_stay c s ev d es : HandleEvent c (ph s) (dat s) ev = (ph s, d, es) ->
  turn c s ev = apply_effects (mkSys (ph s) d (inflight s) (timer s) (attempt s) (b4timer s) (cap s) (postponed s) (halted s)) es.
Proof. intros H. unfold turn, moved. rewrite H. by rewrite !decide_True. Qed.

Lemma turn_move c s ev st d es : HandleEvent c (ph s) (dat s) ev = (st, d, es) -> st <> ph s ->
  turn c s ev =
  let '(_, d2, es2) := enter c st d in
  let s1 := apply_effects (mkSys st d (inflight s) None (attempt s) (b4timer s || postponed s) (cap s) false (halted s)) es in
  apply_effects (mkSys st d2 (inflight s1) (timer s1) (attempt s1) (b4timer s1) (cap s1) (postponed s1) (halted s1)) es2.
Proof.
  intros H Hne. unfold turn. rewrite H. destruct (decide (st = ph s)) as [?|_]; [done|]. cbn [HandleEvent].
  assert (moved s st d = mkSys st d (inflight s) None (attempt s) (b4timer s || postponed s) (cap s) false (halted s))
    as -> by (unfold moved; by rewrite decide_False).
  destruct (enter c st d) as [[st2 d2] es2] eqn:He.
  assert (st2 = st) as -> by (destruct st; cbn in He; by injection He).
  unfold moved at 1. by rewrite ph_effects, decide_True.
Qed.

(** Entering a phase with nothing to do on entry. *)
Lemma turn_enter c s ev st d es : HandleEvent c (ph s) (dat s) ev = (st, d, es) -> st <> ph s ->
  enter c st d = (st, d, []) ->
  turn c s ev = apply_effects (mkSys st d (inflight s) None (attempt s) (b4timer s || postponed s) (cap s) false (halted s)) es.
Proof.
  intros H Hne He. rewrite (turn_move _ _ _ _ _ _ H) by done. rewrite He. cbn zeta.
  set (s0 := mkSys st d (inflight s) None (attempt s) (b4timer s || postponed s) (cap s) false (halted s)).
  pose proof (ph_effects es s0) as Hp. pose proof (dat_effects es s0) as Hd.
  change (ph s0) with st in Hp. change (dat s0) with d in Hd.
  destruct (apply_effects s0 es) as [p1 d1]. cbn in Hp, Hd. rewrite Hp, Hd. reflexivity.
Qed.

(** ** Every event keeps the invariant *)

Lemma inv_later c n s : inv c n s -> inv c (n + 1) s.
Proof. intros (H1 & H2 & H3). split; [lia|done]. Qed.

(** The shape of a state that runs. *)
Lemma inv_intro c n s : halted s = false -> 0 <= Gen (dat s) <= n ->
  Forall (fun x : tag * request => 0 <= tGen x.1 <= Gen (dat s)) (inflight s) ->
  driven c s -> polled c s -> inv c n s.
Proof. intros H1 H2 H3 H4 H5. split; [done|]. split; [done|]. by intros _. Qed.

(** The generations stay in range when a request of the current one is sent. *)
Lemma gens_send g o q (l : list (tag * request)) : 0 <= g -> Forall (fun x : tag * request => 0 <= tGen x.1 <= g) l ->
  Forall (fun x : tag * request => 0 <= tGen x.1 <= g) ((mkTag o g, q) :: l).
Proof. intros Hg H. constructor; [cbn; lia|done]. Qed.

Lemma gens_weaken g g' (l : list (tag * request)) : g <= g' -> Forall (fun x : tag * request => 0 <= tGen x.1 <= g) l ->
  Forall (fun x : tag * request => 0 <= tGen x.1 <= g') l.
Proof. intros Hg H. eapply Forall_impl; [exact H|]. cbn. intros. lia. Qed.

(** The phase an answer of the current generation finds. *)
Inductive answers : Phase -> op -> Prop :=
| a_recover : answers Recovering opRecover
| a_switch : answers Switching opSwitch
| a_begin : answers PPriming opBegin
| a_counts : answers PPriming opCounts
| a_abort : answers PPriming opAbort
| a_cutover : answers PPriming opCutover
| a_gc : answers PDraining opGC
| a_complete : answers PDraining opComplete.
#[local] Hint Constructors answers : core.

Lemma answered c s l1 o q l2 : driven c s ->
  inflight s = l1 ++ (mkTag o (Gen (dat s)), q) :: l2 -> o <> opSource ->
  answers (ph s) o /\ lives (Gen (dat s)) (l1 ++ l2) = [] /\ attempt s = false /\ timer s = None.
Proof.
  unfold driven, live. intros Hd Hl Ho. rewrite Hl in Hd.
  assert (forall y, lives (Gen (dat s)) (l1 ++ (mkTag o (Gen (dat s)), q) :: l2) = [y] ->
    y = (mkTag o (Gen (dat s)), q) /\ lives (Gen (dat s)) (l1 ++ l2) = []) as Hone
    by (intros y; by apply lives_answer).
  pose proof (lives_none (Gen (dat s)) l1 o q l2 Ho) as Hnone.
  destruct (ph s); [| |by destruct Hd| | |]; cbn zeta in Hd.
  - destruct Hd as (Hi & _ & Ht & Ha). destruct l1 as [|? []]; cbn in Hi; try done.
    injection Hi as -> _ _ ->. done.
  - by destruct Hd.
  - destruct Hd as (Ha & [[? _]|(Ht & o' & q' & Hlv & Hin)]); [done|].
    destruct (Hone _ Hlv) as [[= -> ->] Hz]. rewrite !elem_of_cons, elem_of_nil in Hin.
    destruct_or! Hin; try done; injection Hin as -> _; auto.
  - destruct Hd as (Ha & [[? _]|(Ht & o' & q' & Hlv & Hin)]); [done|].
    destruct (Hone _ Hlv) as [[= -> ->] Hz]. rewrite !elem_of_cons, elem_of_nil in Hin.
    destruct_or! Hin; try done; injection Hin as -> _; auto.
  - destruct Hd as (Ha & Ht & Hlv & _). destruct (Hone _ Hlv) as [[= <- _] Hz]. auto.
Qed.

Section Steps.
Variable c : Controller.
Variable n : Z.
Hypothesis Hn : 0 <= n < 2 ^ 64 - 1.

(** Arriving in Steady, from any other phase, with nothing outstanding. *)
Lemma to_steady s ev d es : ph s <> PSteady -> halted s = false ->
  HandleEvent c (ph s) (dat s) ev = (PSteady, d, es) ->
  (es = [] \/ es = [CancelDrainCap] \/ es = [StartTimeout b4PollInterval b4Poll]) ->
  0 <= Gen d <= n -> Forall (fun x : tag * request => 0 <= tGen x.1 <= Gen d) (inflight s) ->
  lives (Gen d) (inflight s) = [] -> attempt s = false ->
  (DynamicB4 c = true -> b4timer s || postponed s = true \/ es = [StartTimeout b4PollInterval b4Poll]) ->
  inv c (n + 1) (turn c s ev).
Proof.
  intros Hne Hh He Hes Hg Hf Hl Ha Hb. rewrite (turn_move _ _ _ _ _ _ He) by done. cbn [enter].
  apply inv_intro; destruct Hes as [-> |[-> | ->]], (DynamicAFTR c) eqn:HD; unfold driven, polled, live; cbn;
    rewrite ?HD; try done; try lia;
    (split; [done|split; [done|]]); cbn; intros HB _; left; destruct (Hb HB) as [H|H]; done.
Qed.

(** The state a hard switch leaves. *)
Lemma switching_inv g d l a b4 cp b cancel : 0 <= g <= n -> Gen d = g + 1 ->
  Forall (fun x : tag * request => 0 <= tGen x.1 <= g) l ->
  UsableB4 (SwitchB4 d) = true -> SwitchB4 d <> dB4 d -> cancel = [] \/ cancel = [CancelAsync] ->
  (a = false \/ cancel = [CancelAsync]) -> (DynamicB4 c = true -> b4 = true) ->
  b = false ->
  inv c (n + 1) (apply_effects (mkSys Switching d l None a b4 cp b false)
    (cancel ++ [softwire opSwitch (Gen d) (switchReq (mkEndpoints (SwitchB4 d) (dAFTR (SwitchTo d))))])).
Proof.
  intros Hg Hgd Hf Hu Hb4 Hc Ha Hb ->.
  assert (Forall (fun x : tag * request => 0 <= tGen x.1 <= g + 1) l) as Hf' by (by apply (gens_weaken g); [lia|]).
  assert (lives (g + 1) l = []) as Hl by by apply lives_new.
  rewrite Forall_forall in Hf.
  apply inv_intro; destruct Hc as [-> | ->]; unfold driven, polled, live; cbn; rewrite ?Hgd; try done; try lia.
  1,2: apply gens_send; [lia|done].
  1,2: rewrite lives_cons, Hl by done; split; [by destruct Ha as [?|?]|]; split; [done|]; split; [done|];
    split; [|done]; intros x [->|Hx]%elem_of_cons Hx'; [done|]; specialize (Hf x Hx); lia.
  1,2: split; [done|]; split; [done|]; cbn; intros HB _; left; auto.
Qed.

(** Leaving for Switching: whatever was in flight becomes stale. *)
Lemma to_switching s ev b4 : ph s <> Switching -> halted s = false ->
  HandleEvent c (ph s) (dat s) ev = hardSwitch (ph s) (dat s) b4 ->
  UsableB4 b4 = true -> b4 <> dB4 (dat s) ->
  0 <= Gen (dat s) <= n -> Forall (fun x : tag * request => 0 <= tGen x.1 <= Gen (dat s)) (inflight s) ->
  (attempt s = true -> ph s = Discovering) ->
  (DynamicB4 c = true -> b4timer s || postponed s = true) ->
  inv c (n + 1) (turn c s ev).
Proof.
  intros Hne Hh He Hu Hb4 Hg Hf Ha Hb.
  rewrite (turn_enter _ _ _ _ _ _ He), Hh by done.
  assert (u64 (Gen (dat s) + 1) = Gen (dat s) + 1) as Hu64 by (apply Z.mod_small; lia).
  apply (switching_inv (Gen (dat s))
           (set_Next (set_Switch (dat s) (u64 (Gen (dat s) + 1)) b4
              match ph s with PDraining => Next (dat s) | _ => Current (dat s) end) zeroDiscovery)
           (inflight s) (attempt s) (b4timer s || postponed s) (cap s) false
           match ph s with Discovering => [CancelAsync] | _ => [] end); try done.
  - destruct (ph s); auto.
  - destruct (attempt s); [rewrite Ha by done; by right|by left].
Qed.

(** Staying in the phase. *)
Lemma stay s ev d es : halted s = false -> HandleEvent c (ph s) (dat s) ev = (ph s, d, es) ->
  inv c (n + 1) (apply_effects (mkSys (ph s) d (inflight s) (timer s) (attempt s) (b4timer s) (cap s) (postponed s) false) es) ->
  inv c (n + 1) (turn c s ev).
Proof. intros Hh He H. rewrite (turn_stay _ _ _ _ _ He). by rewrite Hh. Qed.

(** Staying, with the rest of the state as it was but for the request answered:
    what has to be shown is that something drives the phase on. *)
Lemma stay_driven s ev d es tm l : halted s = false -> polled c s ->
  HandleEvent c (ph s) (dat s) ev = (ph s, d, es) ->
  0 <= Gen d <= n -> Forall (fun x : tag * request => 0 <= tGen x.1 <= Gen d) l ->
  apply_effects (mkSys (ph s) d (inflight s) (timer s) (attempt s) (b4timer s) (cap s) (postponed s) false) es
    = mkSys (ph s) d l tm (attempt s) (b4timer s) (cap s) (postponed s) false ->
  driven c (mkSys (ph s) d l tm (attempt s) (b4timer s) (cap s) (postponed s) false) ->
  inv c (n + 1) (turn c s ev).
Proof.
  intros Hh Hp He Hg Hf Ha Hd. apply (stay _ _ _ _ Hh He). rewrite Ha.
  apply inv_intro; [done|cbn; lia|done..].
Qed.

(** A request of the current generation is sent while the phase stays. *)
Lemma stay_request s ev d o q : halted s = false -> polled c s ->
  HandleEvent c (ph s) (dat s) ev = (ph s, d, [softwire o (Gen d) q]) -> o <> opSource ->
  0 <= Gen d <= n -> Forall (fun x : tag * request => 0 <= tGen x.1 <= Gen d) (inflight s) ->
  lives (Gen d) (inflight s) = [] -> attempt s = false -> timer s = None ->
  (ph s = PPriming /\ (o, q) ∈ [(opCounts, countsReq); (opAbort, abortReq); (opCutover, cutoverReq)] \/
   ph s = PDraining /\ (o, q) ∈ [(opGC, gcReq); (opComplete, completeReq)]) ->
  inv c (n + 1) (turn c s ev).
Proof.
  intros Hh Hp He Ho Hg Hf Hl Ha Ht Hin.
  apply (stay_driven s ev d _ None ((mkTag o (Gen d), q) :: inflight s) Hh Hp He Hg).
  - apply gens_send; [lia|done].
  - cbn. by rewrite Ht.
  - unfold driven, live. cbn. rewrite lives_cons, Hl by done.
    destruct Hin as [[-> Hin]|[-> Hin]]; (split; [done|]); right; (split; [done|]); exists o, q; (split; [done|]);
      [by right|done].
Qed.

(** The state timeout is started while the phase stays. *)
Lemma stay_timer s ev d t m : halted s = false -> polled c s ->
  HandleEvent c (ph s) (dat s) ev = (ph s, d, [StartStateTimeout t m]) ->
  0 <= Gen d <= n -> Forall (fun x : tag * request => 0 <= tGen x.1 <= Gen d) (inflight s) ->
  lives (Gen d) (inflight s) = [] -> attempt s = false ->
  (ph s = PPriming /\ m = primed \/ ph s = PDraining /\ m = drainTick) ->
  inv c (n + 1) (turn c s ev).
Proof.
  intros Hh Hp He Hg Hf Hl Ha Hm.
  apply (stay_driven s ev d _ (Some m) (inflight s) Hh Hp He Hg); [done|done|].
  unfold driven, live. cbn. rewrite Hl. destruct Hm as [[-> ->]|[-> ->]]; (split; [done|]); by left.
Qed.

(** Cutting over: the drain starts with its tick and its cap. *)
Lemma to_draining s ev d : ph s = PPriming -> halted s = false -> polled c s ->
  HandleEvent c (ph s) (dat s) ev = (PDraining, d, []) ->
  0 <= Gen d <= n -> Forall (fun x : tag * request => 0 <= tGen x.1 <= Gen d) (inflight s) ->
  lives (Gen d) (inflight s) = [] -> attempt s = false ->
  inv c (n + 1) (turn c s ev).
Proof.
  intros Hp Hh (_ & Hpp & Hpol) He Hg Hf Hl Ha. rewrite (turn_move _ _ _ _ _ _ He) by (by rewrite Hp). cbn [enter].
  apply inv_intro; unfold driven, polled, live; cbn; try done; try lia; [split; [done|by left]|].
  split; [done|]. split; [done|]. intros HB _. left. rewrite Hp in Hpol. destruct (Hpol HB) as [-> | ->]; [done..|].
  apply orb_true_r.
Qed.

(** The state in which an answer of the current generation is handled. *)
Definition answering (s : sys) (o : op) : Prop :=
  answers (ph s) o /\ halted s = false /\ polled c s /\ lives (Gen (dat s)) (inflight s) = [] /\
  attempt s = false /\ timer s = None /\ 0 <= Gen (dat s) <= n /\
  Forall (fun x : tag * request => 0 <= tGen x.1 <= Gen (dat s)) (inflight s).

Lemma polled_b4 s : polled c s -> ph s <> Recovering -> DynamicB4 c = true -> b4timer s || postponed s = true.
Proof. intros (_ & _ & H) Hp HB. destruct (H HB Hp) as [-> | ->]; [done|apply orb_true_r]. Qed.

Lemma live_answer s o r : answering s o -> inv c (n + 1) (turn c s (Responded (mkTag o (Gen (dat s))) r)).
Proof.
  intros (Ha & Hh & Hp & Hl & Hat & Ht & Hg & Hf).
  assert (HandleEvent c (ph s) (dat s) (Responded (mkTag o (Gen (dat s))) r) = response c (ph s) (dat s) o r)
    as He by (cbn; by rewrite Z.eqb_refl).
  pose proof (polled_b4 s Hp) as Hb.
  destruct o; inversion Ha as [Hph|Hph|Hph|Hph|Hph|Hph|Hph|Hph]; symmetry in Hph; cbn [response] in He;
    try (assert (DynamicB4 c = true -> b4timer s || postponed s = true) as Hb' by (by apply Hb; rewrite Hph)).
  - (* recover *)
    unfold onRecover in He. destruct (reply_recovered r) as [ep [e|]].
    + apply (stay _ _ _ _ Hh He). split; [cbn; lia|]. by split.
    + unfold recovered_ in He. cbn zeta in He.
      destruct (bool_decide (AFTR ep = dAFTR (Initial c))), (DynamicB4 c) eqn:HB;
        apply (to_steady s _ _ _ ltac:(by rewrite Hph) Hh He); auto; by rewrite HB.
  - (* switch *)
    unfold onSwitch in He. destruct (done_ r);
      apply (to_steady s _ _ _ ltac:(by rewrite Hph) Hh He); auto.
  - (* begin *)
    unfold onBegin in He. destruct (reply_counts r) as [cts [e|]].
    + apply (to_steady s _ _ _ ltac:(by rewrite Hph) Hh He); auto.
    + apply (stay_timer s _ _ _ _ Hh Hp He); auto.
  - (* counts *)
    assert (forall d o' q, HandleEvent c (ph s) (dat s) (Responded (mkTag opCounts (Gen (dat s))) r)
        = (PPriming, d, [softwire o' (Gen d) q]) -> Gen d = Gen (dat s) -> o' <> opSource ->
        (o', q) ∈ [(opCounts, countsReq); (opAbort, abortReq); (opCutover, cutoverReq)] ->
        inv c (n + 1) (turn c s (Responded (mkTag opCounts (Gen (dat s))) r))) as Hgo.
    { intros d o' q Hd Hgd Ho Hin. rewrite <- Hph in Hd.
      apply (stay_request s _ d o' q Hh Hp Hd Ho); rewrite ?Hgd; auto. }
    unfold onCounts, abort in He. destruct (reply_counts r) as [cts [e|]]; [|destruct (0 <? _)].
    + apply (Hgo _ _ _ He); [done..|]. set_solver.
    + apply (Hgo _ _ _ He); [done..|]. set_solver.
    + rewrite Hph in He at 2. apply (Hgo _ _ _ He); [done..|]. set_solver.
  - (* abort *)
    unfold onAbort in He. destruct (done_ r); [|destruct (String.eqb _ _)];
      apply (to_steady s _ _ _ ltac:(by rewrite Hph) Hh He); auto.
  - (* cutover *)
    unfold onCutover, abort in He. destruct (done_ r) as [e|].
    + rewrite <- Hph in He. apply (stay_request s _ _ _ _ Hh Hp He); auto.
      left. split; [done|]. set_solver.
    + by apply (to_draining s _ _ Hph Hh Hp He).
  - (* gc *)
    unfold onGC in He. destruct (reply_gc r) as [k [e|]]; [|destruct (_ && _)].
    + apply (stay_timer s _ _ _ _ Hh Hp He); auto.
    + apply (stay_timer s _ _ _ _ Hh Hp He); auto.
    + apply (stay_request s _ _ _ _ Hh Hp He); auto. right. split; [done|]. set_solver.
  - (* complete *)
    unfold onComplete in He. destruct (done_ r) as [e|].
    + apply (stay_timer s _ _ _ _ Hh Hp He); auto.
    + apply (to_steady s _ _ _ ltac:(by rewrite Hph) Hh He); auto.
Qed.

(** Dropping a request that is not live changes nothing that drives a phase. *)
Lemma driven_drop s l : driven c s -> ph s <> Recovering ->
  lives (Gen (dat s)) l = live s -> (forall x, x ∈ l -> x ∈ inflight s) ->
  driven c (mkSys (ph s) (dat s) l (timer s) (attempt s) (b4timer s) (cap s) (postponed s) (halted s)).
Proof.
  unfold driven, live. cbn. intros Hd Hp -> Hsub. destruct (ph s); try done.
  destruct Hd as (? & ? & ? & Hall & ?). split; [done|]. split; [done|]. split; [done|]. split; [|done]. auto.
Qed.

(** An answer of an earlier generation, or to a source query that finds nothing
    new: nothing happens. *)
Lemma drop_answer s ev l : driven c s -> polled c s -> halted s = false -> ph s <> Recovering ->
  0 <= Gen (dat s) <= n -> Forall (fun x : tag * request => 0 <= tGen x.1 <= Gen (dat s)) l ->
  lives (Gen (dat s)) l = live s -> (forall x, x ∈ l -> x ∈ inflight s) ->
  HandleEvent c (ph s) (dat s) ev = (ph s, dat s, []) ->
  inv c (n + 1) (turn c (mkSys (ph s) (dat s) l (timer s) (attempt s) (b4timer s) (cap s) (postponed s) (halted s)) ev).
Proof.
  intros Hd Hp Hh Hr Hg Hf Hl Hsub He. rewrite (turn_stay _ _ _ (dat s) []) by exact He. cbn.
  apply inv_intro; [done|cbn; lia|done| |done]. by apply (driven_drop s).
Qed.

Lemma step_response s l1 l2 t q r : inv c n s -> halted s = false -> inflight s = l1 ++ (t, q) :: l2 ->
  inv c (n + 1) (turn c (mkSys (ph s) (dat s) (l1 ++ l2) (timer s) (attempt s) (b4timer s) (cap s) (postponed s) (halted s))
    (Responded t r)).
Proof.
  intros (Hg & Hf & Hdp) Hh Hi. destruct (Hdp Hh) as [Hd Hp]. destruct t as [o g].
  rewrite Hi in Hf. apply Forall_remove in Hf as [_ Hf].
  assert (forall x, x ∈ l1 ++ l2 -> x ∈ inflight s) as Hsub by (rewrite Hi; set_solver).
  assert (is_live (Gen (dat s)) (mkTag o g, q) = false -> ph s <> Recovering) as Hr.
  { intros Hlv Hp'. unfold driven in Hd. rewrite Hp', Hi in Hd. destruct Hd as (Hi' & Hg0 & _).
    destruct l1 as [|? []]; cbn in Hi'; try done. injection Hi' as -> -> _ _. by rewrite Hg0 in Hlv. }
  destruct (decide (o = opSource)) as [->|Ho].
  - specialize (Hr eq_refl).
    assert (lives (Gen (dat s)) (l1 ++ l2) = live s) as Hl by (unfold live; rewrite Hi; by apply lives_remove).
    destruct (decide (g = Gen (dat s))) as [->|Hne].
    2: { apply drop_answer; try done. cbn. by rewrite (proj2 (Z.eqb_neq _ _) Hne). }
    assert (ph s <> Switching) as Hsw.
    { intros Hp'. unfold driven in Hd. rewrite Hp', Hi in Hd. destruct Hd as (_ & _ & _ & Hall & _).
      specialize (Hall (mkTag opSource (Gen (dat s)), q)). assert (opSource = opSwitch); [|done].
      apply Hall; [set_solver|done]. }
    assert (HandleEvent c (ph s) (dat s) (Responded (mkTag opSource (Gen (dat s))) r) = onSource (ph s) (dat s) r) as He
      by (cbn; by rewrite Z.eqb_refl).
    unfold onSource in He. destruct (reply_source r) as [[a ok] [e|]]; [by apply drop_answer|].
    unfold nextB4 in He. destruct (negb ok || negb (UsableB4 a) || bool_decide (a = dB4 (dat s))) eqn:Hc;
      [by apply drop_answer|].
    rewrite !orb_false_iff, !negb_false_iff, bool_decide_eq_false in Hc. destruct Hc as [[_ Hu] Hne].
    apply (to_switching _ _ a); try done; [|by apply (polled_b4 s)].
    cbn. intros Hat. unfold driven in Hd. rewrite Hat in Hd. destruct (ph s); try done; by destruct_and! Hd.
  - destruct (decide (g = Gen (dat s))) as [->|Hne].
    + destruct (answered c s l1 o q l2 Hd Hi Ho) as (Ha & Hl & Hat & Ht).
      apply (live_answer (mkSys (ph s) (dat s) (l1 ++ l2) (timer s) (attempt s) (b4timer s) (cap s) (postponed s) (halted s))).
      repeat (split; [done|]). done.
    + assert (is_live (Gen (dat s)) (mkTag o g, q) = false) as Hlv
        by (unfold is_live; cbn; rewrite (proj2 (Z.eqb_neq _ _) Hne); apply andb_false_r).
      apply drop_answer; try done; [by apply Hr|unfold live; rewrite Hi; by apply lives_remove|].
      cbn. by rewrite (proj2 (Z.eqb_neq _ _) Hne).
Qed.

Lemma step_timer s m : inv c n s -> halted s = false -> timer s = Some m ->
  inv c (n + 1) (turn c (mkSys (ph s) (dat s) (inflight s) None (attempt s) (b4timer s) (cap s) (postponed s) (halted s))
    (StateTimeout m)).
Proof.
  intros (Hg & Hf & Hdp) Hh Ht. destruct (Hdp Hh) as [Hd Hp]. unfold driven, live in Hd. rewrite Ht in Hd.
  set (s1 := mkSys _ _ _ _ _ _ _ _ _). destruct (ph s) eqn:Hph; try (by destruct_and! Hd).
  - (* Steady: discover *)
    destruct Hd as (Hl & Ha & Htm). destruct (DynamicAFTR c); [injection Htm as ->|done].
    rewrite (turn_enter c s1 (StateTimeout refresh) Discovering (dat s) _ eq_refl ltac:(by cbn)) by done.
    apply inv_intro; unfold driven, polled, live; cbn; [done|lia|done|done|].
    destruct Hp as (_ & _ & Hpol). rewrite Hph in Hpol. split; [done|]. split; [done|]. intros HB _. left.
    destruct (Hpol HB) as [-> | ->]; [done..|apply orb_true_r].
  - (* Priming: count *)
    destruct Hd as (Ha & [[Hl Hm]|[? _]]); [injection Hm as ->|done].
    apply (stay_request s1 _ (dat s) opCounts countsReq); cbn; try done; try lia; [by unfold polled in *; cbn; rewrite Hph in Hp|].
    left. split; [done|]. set_solver.
  - (* Draining: collect *)
    destruct Hd as (Ha & [[Hl Hm]|[? _]]); [injection Hm as ->|done].
    apply (stay_request s1 _ (dat s) opGC gcReq); cbn; try done; try lia; [by unfold polled in *; cbn; rewrite Hph in Hp|].
    right. split; [done|]. set_solver.
Qed.

Lemma step_b4 s : inv c n s -> halted s = false -> b4timer s = true ->
  inv c (n + 1) (turn c (mkSys (ph s) (dat s) (inflight s) (timer s) (attempt s) false (cap s) (postponed s) (halted s))
    (Timeout b4Poll)).
Proof.
  intros (Hg & Hf & Hdp) Hh Hb. destruct (Hdp Hh) as [Hd (Hp1 & Hp2 & Hp3)].
  set (s1 := mkSys _ _ _ _ _ _ _ _ _).
  assert (ph s <> Recovering) as Hr by (intros Hp; destruct (Hp1 Hp); congruence).
  destruct (decide (ph s = Switching)) as [Hph|Hph].
  - rewrite (turn_stay c s1 (Timeout b4Poll) (dat s) [Postpone])
      by (cbn; by rewrite bool_decide_true).
    apply inv_intro; cbn; [done|lia|done|exact Hd|].
    split; [done|]. split; [done|]. by right.
  - rewrite (turn_stay c s1 (Timeout b4Poll) (dat s)
      [softwire opSource (Gen (dat s)) (sourceReq (dAFTR (Current (dat s)))); StartTimeout b4PollInterval b4Poll])
      by (cbn; by rewrite bool_decide_false).
    apply inv_intro; cbn; [done|lia|by apply gens_send; [lia|]| |].
    + unfold driven, live in *. cbn. rewrite lives_source. destruct (ph s); done.
    + split; [done|]. split; [exact Hp2|]. by left.
Qed.

Lemma step_cap s m : inv c n s -> halted s = false ->
  inv c (n + 1) (turn c (mkSys (ph s) (dat s) (inflight s) (timer s) (attempt s) (b4timer s) None (postponed s) (halted s))
    (Timeout (drainCap m))).
Proof.
  intros (Hg & Hf & Hdp) Hh. destruct (Hdp Hh) as [Hd Hp].
  erewrite turn_stay by reflexivity. cbn.
  apply inv_intro; cbn; destruct (m =? Migration (dat s)); try done; cbn; lia.
Qed.

Lemma step_attempt s v e : inv c n s -> halted s = false -> attempt s = true ->
  inv c (n + 1) (turn c (mkSys (ph s) (dat s) (inflight s) (timer s) false (b4timer s) (cap s) (postponed s) (halted s))
    (AsyncResult v e)).
Proof.
  intros (Hg & Hf & Hdp) Hh Hat. destruct (Hdp Hh) as [Hd Hp]. unfold driven in Hd. rewrite Hat in Hd.
  set (s1 := mkSys _ _ _ _ _ _ _ _ _).
  assert (ph s = Discovering /\ live s = []) as [Hph Hl] by (destruct (ph s); try done; by destruct_and! Hd).
  assert (DynamicB4 c = true -> b4timer s1 || postponed s1 = true) as Hb
    by (apply (polled_b4 s); [done|by rewrite Hph]).
  assert (HandleEvent c (ph s1) (dat s1) (AsyncResult v e) = onDiscover (dat s) (mkResponse v e)) as He by done.
  unfold onDiscover in He. destruct (reply_discover _) as [[next retry] [err|]].
  - apply (to_steady s1 _ _ _ ltac:(cbn; by rewrite Hph) Hh He); auto.
  - destruct (bool_decide _); [apply (to_steady s1 _ _ _ ltac:(cbn; by rewrite Hph) Hh He); auto|].
    rewrite (turn_enter c s1 _ _ _ _ He ltac:(cbn; by rewrite Hph)) by done.
    apply inv_intro; unfold driven, polled, live; cbn; [done|lia|by apply gens_send; [lia|]| |].
    + split; [done|]. right. split; [done|]. eexists opBegin, _. split; [|by left].
      rewrite lives_cons by done. unfold live in Hl. by rewrite Hl.
    + split; [done|]. split; [done|]. intros HB _. left. by apply Hb.
Qed.

Lemma inv_deliver s s1 ev : inv c n s -> halted s = false -> deliver s s1 ev -> inv c (n + 1) (turn c s1 ev).
Proof.
  intros HI Hh Hd. destruct Hd; [by eapply step_response|by apply step_timer|by apply step_b4|
    by apply step_cap|by apply step_attempt|].
  erewrite turn_stay by reflexivity. apply inv_later. by destruct s.
Qed.

End Steps.

Lemma reach_nonneg c n s : reach c n s -> 0 <= n.
Proof. induction 1; lia. Qed.

Lemma inv_reach c n s : reach c n s -> n < 2 ^ 64 -> inv c n s.
Proof.
  induction 1 as [|n s s1 ev Hr IH Hh Hd]; intros Hn.
  - apply inv_intro; cbn; try done; repeat constructor; done.
  - pose proof (reach_nonneg _ _ _ Hr). apply (inv_deliver c n) with (s := s); auto; [lia|]. apply IH. lia.
Qed.

(** ** The theorems *)

Lemma driven_owner c s t q : driven c s -> (t, q) ∈ inflight s -> tGen t = Gen (dat s) ->
  tOp t <> opSource -> answers (ph s) (tOp t).
Proof.
  intros Hd Hin Hg Ho. apply list_elem_of_split in Hin as (l1 & l2 & Hi). destruct t as [o g]. cbn in *. subst g.
  by destruct (answered c s l1 o q l2 Hd Hi Ho).
Qed.

Lemma driven_source c s t q : driven c s -> (t, q) ∈ inflight s -> tGen t = Gen (dat s) ->
  tOp t = opSource -> ph s <> Recovering /\ ph s <> Switching.
Proof.
  unfold driven. intros Hd Hin Hg Ho. split; intros Hp; rewrite Hp in Hd.
  - destruct Hd as (Hi & _). rewrite Hi, list_elem_of_singleton in Hin. injection Hin as -> ->. done.
  - destruct Hd as (_ & _ & _ & Hall & _). specialize (Hall _ Hin Hg). cbn in Hall. congruence.
Qed.

(** C20: A running controller is never stuck and never confused, whatever answers,
    failures and timeouts it gets in whatever order (for the first 2^64 events, the
    range of its generation counter).  An answer of the current generation finds the
    phase that asked for it; a source query's is the exception, which belongs to no
    phase: it may come in any but Recovering and Switching.  What moves the phase on
    is pending, exactly one request, state timeout or discovery; only Steady with a
    fixed AFTR waits for nothing.  And the poll of a dynamic B4 is never lost: once
    recovered, its timer runs, or it fell due in Switching and is postponed to the
    end of it. *)
Theorem controller_never_stuck c n s : reach c n s -> n < 2 ^ 64 -> halted s = false ->
  (forall t q, (t, q) ∈ inflight s -> tGen t = Gen (dat s) ->
     answers (ph s) (tOp t) \/ (tOp t = opSource /\ ph s <> Recovering /\ ph s <> Switching)) /\
  zlen (live s) + match timer s with Some _ => 1 | None => 0 end + (if attempt s then 1 else 0)
    = (if bool_decide (ph s = PSteady) && negb (DynamicAFTR c) then 0 else 1) /\
  (DynamicB4 c = true -> ph s <> Recovering -> b4timer s = true \/ (ph s = Switching /\ postponed s = true)).
Proof.
  intros Hr Hn Hh. destruct (inv_reach _ _ _ Hr Hn) as (_ & _ & Hdp). destruct (Hdp Hh) as [Hd (_ & Hpo & Hb)].
  split; [|split].
  - intros t q Hin Hg. destruct (decide (tOp t = opSource)) as [Ho|Ho]; [|left; by apply (driven_owner c s t q)].
    right. split; [done|]. by apply (driven_source c s t q).
  - clear Hpo Hb. unfold driven in Hd. destruct (ph s); cbn zeta in Hd; cbn.
    + destruct Hd as (Hi & Hg & -> & ->). unfold live. by rewrite Hi, Hg.
    + destruct Hd as (-> & -> & ->). by destruct (DynamicAFTR c).
    + by destruct Hd as (-> & -> & ->).
    + destruct Hd as (-> & [[-> ->]|(-> & ? & ? & -> & _)]); done.
    + destruct Hd as (-> & [[-> ->]|(-> & ? & ? & -> & _)]); done.
    + by destruct Hd as (-> & -> & -> & _).
  - intros Hdy Hp. destruct (Hb Hdy Hp) as [?|?]; auto.
Qed.

(** While a hard switch is in flight nothing else counts: the request in flight
    moves the softwire to the B4 about to be adopted, which is a usable global
    address other than the current one, and every other answer still to come is
    dropped without effect. *)
Lemma hard_switch_isolated c n s : reach c n s -> n < 2 ^ 64 -> halted s = false -> ph s = Switching ->
  (mkTag opSwitch (Gen (dat s)), switchReq (mkEndpoints (SwitchB4 (dat s)) (dAFTR (SwitchTo (dat s))))) ∈ inflight s /\
  UsableB4 (SwitchB4 (dat s)) = true /\ SwitchB4 (dat s) <> dB4 (dat s) /\
  (forall t q r, (t, q) ∈ inflight s -> t <> mkTag opSwitch (Gen (dat s)) ->
     HandleEvent c (ph s) (dat s) (Responded t r) = (ph s, dat s, [])).
Proof.
  intros Hr Hn Hh Hph. destruct (inv_reach _ _ _ Hr Hn) as (_ & _ & Hdp). destruct (Hdp Hh) as [Hd _].
  unfold driven in Hd. rewrite Hph in Hd. destruct Hd as (_ & _ & Hl & Hall & Hu & Hne).
  split; [|split; [done|split; [done|]]].
  - assert ((mkTag opSwitch (Gen (dat s)), switchReq (mkEndpoints (SwitchB4 (dat s)) (dAFTR (SwitchTo (dat s))))) ∈ live s)
      as Hin by (rewrite Hl; by left).
    unfold live, lives in Hin. by apply list_elem_of_filter in Hin as [_ ?].
  - intros t q r Hin Ht. cbn [HandleEvent]. destruct (Z.eqb_spec (tGen t) (Gen (dat s))) as [Hg|]; [|done].
    destruct Ht. specialize (Hall _ Hin Hg). destruct t. cbn in *. congruence.
Qed.

(** The cutover gate: in any state and on any event, the controller asks for a
    cutover only on an answer to its reading of the counters, and only if the
    counter of flows that could not be recorded is the one it read when priming
    began. *)
Lemma cutover_gate c st d ev st' d' es t : HandleEvent c st d ev = (st', d', es) ->
  SendRequest t cutoverReq ∈ es ->
  exists r cts, ev = Responded (mkTag opCounts (Gen d)) r /\ reply_counts r = (cts, None) /\
    u64 (AffinityInsertFail cts) = u64 (AffinityInsertFail (Baseline d)) /\ st' = st.
Proof.
  unfold HandleEvent, enter, response, onRecover, recovered_, onSource, hardSwitch, onSwitch, onDiscover,
    onBegin, onCounts, onCutover, onAbort, onGC, onComplete, migrationFailed, abort, softwire.
  intros H Hin. repeat (case_match; simplify_eq/=);
    rewrite ?elem_of_app, ?elem_of_cons, ?elem_of_nil in Hin; destruct_or? Hin; simplify_eq.
  destruct t0 as [o g]. cbn in *. rewrite Z.eqb_eq in H0. subst. exists r, c0.
  split; [done|]. split; [done|]. split; [|done]. apply Z.ltb_ge in H3. by apply u64_sub_zero.
Qed.

(** The handler's data before Enter and after a whole turn agree on the endpoints. *)
Lemma turn_dB4 c s ev : dB4 (dat (turn c s ev)) = dB4 (HandleEvent c (ph s) (dat s) ev).1.2.
Proof.
  destruct (HandleEvent c (ph s) (dat s) ev) as [[st d] es] eqn:He. cbn.
  destruct (decide (st = ph s)) as [->|Hne].
  - rewrite (turn_stay _ _ _ _ _ He), dat_effects. done.
  - rewrite (turn_move _ _ _ _ _ _ He Hne). destruct (enter c st d) as [[st2 d2] es2] eqn:Hen.
    cbn zeta. rewrite dat_effects. cbn. destruct st; cbn in Hen; by injection Hen as <- <- _.
Qed.

Lemma delivered_owner c s s1 t r : driven c s -> deliver s s1 (Responded t r) ->
  (tGen t =? Gen (dat s)) = true -> tOp t <> opSource -> answers (ph s) (tOp t).
Proof.
  intros Hd Hdel Hg Ho. apply Z.eqb_eq in Hg. inversion Hdel as [? ? ? ? q ? Hi| | | | |]; subst.
  apply (driven_owner c s t q); [done|rewrite Hi; set_solver|done..].
Qed.

(** The two answers that set the B4. *)
Ltac left_or_switch :=
  match goal with
  | Hdr : driven ?c ?s, Hd : deliver ?s _ (Responded ?t ?r), Hg : (tGen ?t =? _) = true, Ho : tOp ?t = _ |- _ =>
    let Ha := fresh in
    pose proof (delivered_owner c s _ t r Hdr Hd Hg ltac:(by rewrite Ho)) as Ha; rewrite Ho in Ha;
    inversion Ha as [Hph|Hph|Hph|Hph|Hph|Hph|Hph|Hph];
    first [by left
          | right; split; [done|]; split; [done|]; unfold driven in Hdr; rewrite <- Hph in Hdr;
            destruct Hdr as (_ & _ & _ & _ & Hu & _); split; [done|];
            exists r; split; [destruct t; cbn in *; apply Z.eqb_eq in Hg; by subst|done] ]
  end.

(** The B4 in use is only ever replaced by what the softwire reports at start
    and then by a usable global address the kernel selected, once the softwire has
    confirmed the switch to it; a query that fails, finds no source or finds an
    unusable or unchanged one never moves the softwire. *)
Lemma b4_adoption c n s s1 ev : reach c n s -> n < 2 ^ 64 -> halted s = false -> deliver s s1 ev ->
  dB4 (dat (turn c s1 ev)) <> dB4 (dat s) ->
  ph s = Recovering \/
  (ph s = Switching /\ dB4 (dat (turn c s1 ev)) = SwitchB4 (dat s) /\ UsableB4 (SwitchB4 (dat s)) = true /\
   exists r, ev = Responded (mkTag opSwitch (Gen (dat s))) r /\ done_ r = None).
Proof.
  intros Hr Hn Hh Hd Hne. destruct (inv_reach _ _ _ Hr Hn) as (_ & _ & Hdp). destruct (Hdp Hh) as [Hdr _].
  assert (ph s1 = ph s /\ dat s1 = dat s) as [Hp1 Hd1] by by destruct Hd.
  rewrite turn_dB4, Hp1, Hd1 in *.
  unfold HandleEvent, enter, response, onRecover, recovered_, onSource, hardSwitch, onSwitch, onDiscover,
    onBegin, onCounts, onCutover, onAbort, onGC, onComplete, migrationFailed, abort in Hne |- *.
  repeat (case_match; simplify_eq/=); try done; left_or_switch.
Qed.

(** No busy loop: the state timeout the controller waits on in Steady is
    positive after every discovery attempt, failed or not, and every migration,
    whatever interval the server asked for; it is zero (discover at once) only
    after a recovery onto endpoints the configuration does not know and after a
    confirmed hard switch. *)
Lemma refresh_wait_positive c st d ev d' es : HandleEvent c st d ev = (PSteady, d', es) ->
  st <> PSteady ->
  0 < Wait d' \/
  (Wait d' = 0 /\ exists t r, ev = Responded t r /\
     ((tOp t = opSwitch /\ done_ r = None) \/
      (tOp t = opRecover /\ exists ep, reply_recovered r = (ep, None) /\ AFTR ep <> dAFTR (Initial c)))).
Proof.
  intros H Hst.
  assert (forall x, 0 < nextRefreshWait x) as Hw.
  { intros x. unfold nextRefreshWait. destruct (Z.leb_spec x 0); [reflexivity|done]. }
  unfold HandleEvent, enter, response, onRecover, recovered_, onSource, hardSwitch, onSwitch, onDiscover,
    onBegin, onCounts, onCutover, onAbort, onGC, onComplete, migrationFailed, abort in H.
  repeat (case_match; simplify_eq/=); try done; try (left; apply Hw); try (by left); right; (split; [done|]);
    eexists _, _; (split; [reflexivity|]); [right|by left].
  split; [done|]. eexists. split; [done|]. by apply bool_decide_eq_false in H.
Qed.

(** A hard switch out of a drain goes to the new AFTR, where new flows already
    are; if it fails, the retry from Steady goes to the old one. *)
Lemma failed_switch_goes_back c d b4 r e : done_ r = Some e ->
  (hardSwitch PDraining d b4).2 = [softwire opSwitch (u64 (Gen d + 1)) (switchReq (mkEndpoints b4 (dAFTR (Next d))))] /\
  exists d', HandleEvent c Switching (hardSwitch PDraining d b4).1.2 (Responded (mkTag opSwitch (u64 (Gen d + 1))) r)
      = (PSteady, d', []) /\
    exists g, (hardSwitch PSteady d' b4).2 = [softwire opSwitch g (switchReq (mkEndpoints b4 (dAFTR (Current d))))].
Proof.
  intros Hr. split; [reflexivity|]. eexists. split.
  - cbn [HandleEvent tGen]. unfold hardSwitch. cbn [fst snd Gen set_Next set_Switch tGen tOp]. rewrite Z.eqb_refl.
    cbn [response]. unfold onSwitch. by rewrite Hr.
  - by eexists.
Qed.

(** ** At concrete inputs *)

Definition c_1 : Controller := mkController true true (mkDiscovery aftr_1 [] 0 "").
Definition ans (v : value) : Response := mkResponse (Replied v) None.
Definition b4_2 : Addr := A6 0x20010db8000000000000000000000099 "".

Definition s_steady : sys := turn c_1
  (mkSys Recovering zeroData [] None false false None false false) (Responded (mkTag opRecover 0) (ans (recovered ep_1 None))).

Lemma reach_steady : reach c_1 1 s_steady.
Proof.
  apply (reach_event c_1 0 started); [apply reach_start|reflexivity|].
  by apply (d_response started [] [] (mkTag opRecover 0) recoverReq).
Qed.

(** The refresh timer, a discovery of another AFTR: priming begins. *)
Definition s_discovering : sys := turn c_1
  (mkSys (ph s_steady) (dat s_steady) (inflight s_steady) None (attempt s_steady) (b4timer s_steady)
     (cap s_steady) (postponed s_steady) (halted s_steady)) (StateTimeout refresh).
Definition s_priming : sys := turn c_1
  (mkSys (ph s_discovering) (dat s_discovering) (inflight s_discovering) (timer s_discovering) false
     (b4timer s_discovering) (cap s_discovering) (postponed s_discovering) (halted s_discovering))
  (AsyncResult (discoverRep (mkDiscovery aftr_2 [] 0 "") None 0) None).

Lemma reach_priming : reach c_1 3 s_priming.
Proof.
  apply (reach_event c_1 2 s_discovering); [|reflexivity|by apply d_attempt].
  apply (reach_event c_1 1 s_steady); [apply reach_steady|reflexivity|by apply d_timer].
Qed.

(** The b4-poll timer, a source that has changed: a hard switch. *)
Definition s_polled : sys := turn c_1
  (mkSys (ph s_priming) (dat s_priming) (inflight s_priming) (timer s_priming) (attempt s_priming) false
     (cap s_priming) (postponed s_priming) (halted s_priming)) (Timeout b4Poll).
Definition q_begin : tag * request := (mkTag opBegin 0, beginReq (mkEndpoints b4_1 aftr_2)).
Definition s_switching : sys := turn c_1
  (mkSys (ph s_polled) (dat s_polled) [q_begin] (timer s_polled) (attempt s_polled) (b4timer s_polled)
     (cap s_polled) (postponed s_polled) (halted s_polled))
  (Responded (mkTag opSource 0) (ans (sourceRep b4_2 true None))).

Lemma reach_switching : reach c_1 5 s_switching.
Proof.
  apply (reach_event c_1 4 s_polled); [|reflexivity|].
  - apply (reach_event c_1 3 s_priming); [apply reach_priming|reflexivity|by apply d_b4].
  - by apply (d_response s_polled [] [q_begin] (mkTag opSource 0) (sourceReq aftr_1)).
Qed.

(** The poll falls due in the middle of the hard switch: it waits for the end. *)
Definition s_postponed : sys := turn c_1
  (mkSys (ph s_switching) (dat s_switching) (inflight s_switching) (timer s_switching) (attempt s_switching) false
     (cap s_switching) (postponed s_switching) (halted s_switching)) (Timeout b4Poll).

Lemma reach_postponed : reach c_1 6 s_postponed.
Proof. apply (reach_event c_1 5 s_switching); [apply reach_switching|reflexivity|by apply d_b4]. Qed.

Lemma controller_never_stuck_witness :
  ph s_postponed = Switching /\ b4timer s_postponed = false /\ postponed s_postponed = true /\
  (answers (ph s_postponed) opSwitch \/ (opSwitch = opSource /\ ph s_postponed <> Recovering /\ ph s_postponed <> Switching)) /\
  zlen (live s_postponed) + match timer s_postponed with Some _ => 1 | None => 0 end + (if attempt s_postponed then 1 else 0)
    = (if bool_decide (ph s_postponed = PSteady) && negb (DynamicAFTR c_1) then 0 else 1) /\
  (b4timer s_postponed = true \/ (ph s_postponed = Switching /\ postponed s_postponed = true)).
Proof.
  split; [reflexivity|]. split; [reflexivity|]. split; [reflexivity|].
  destruct (controller_never_stuck c_1 6 s_postponed reach_postponed eq_refl eq_refl) as (Ha & Hl & Hb).
  split; [|split; [exact Hl|apply Hb; [reflexivity|discriminate]]].
  apply (Ha (mkTag opSwitch 1) (switchReq (mkEndpoints b4_2 aftr_1))); [vm_compute; left|reflexivity].
Defined.

(** The answer to the migration's start, still to come, will be dropped. *)
Lemma hard_switch_isolated_witness :
  HandleEvent c_1 (ph s_switching) (dat s_switching) (Responded (mkTag opBegin 0) (ans (countsRep zeroCounts None)))
  = (ph s_switching, dat s_switching, []).
Proof.
  apply (proj2 (proj2 (proj2 (hard_switch_isolated c_1 5 s_switching reach_switching eq_refl eq_refl eq_refl)))
    (mkTag opBegin 0) (beginReq (mkEndpoints b4_1 aftr_2))); [|discriminate].
  vm_compute. right. left.
Defined.

Lemma cutover_gate_witness :
  exists r cts, Responded (mkTag opCounts 0) (ans (countsRep (mkCounts 7 3) None)) = Responded (mkTag opCounts 0) r /\
    reply_counts r = (cts, None) /\
    u64 (AffinityInsertFail cts) = u64 (AffinityInsertFail (Baseline (set_Baseline zeroData (mkCounts 1 3)))) /\
    PPriming = PPriming.
Proof.
  apply (cutover_gate c_1 PPriming (set_Baseline zeroData (mkCounts 1 3))
    (Responded (mkTag opCounts 0) (ans (countsRep (mkCounts 7 3) None))) PPriming
    (set_Recorded (set_Baseline zeroData (mkCounts 1 3)) 6) [softwire opCutover 0 cutoverReq] (mkTag opCutover 0) eq_refl).
  left.
Defined.

Lemma switching_delivered : deliver s_switching
  (mkSys (ph s_switching) (dat s_switching) [q_begin] (timer s_switching) (attempt s_switching) (b4timer s_switching)
     (cap s_switching) (postponed s_switching) (halted s_switching))
  (Responded (mkTag opSwitch 1) (ans (doneRep None))).
Proof. by apply (d_response s_switching [] [q_begin] (mkTag opSwitch 1) (switchReq (mkEndpoints b4_2 aftr_1))). Qed.

Lemma b4_adoption_witness :
  ph s_switching = Recovering \/
  (ph s_switching = Switching /\ dB4 (dat (turn c_1 (mkSys (ph s_switching) (dat s_switching) [q_begin] (timer s_switching)
       (attempt s_switching) (b4timer s_switching) (cap s_switching) (postponed s_switching) (halted s_switching))
       (Responded (mkTag opSwitch 1) (ans (doneRep None))))) = SwitchB4 (dat s_switching) /\
   UsableB4 (SwitchB4 (dat s_switching)) = true /\
   exists r, Responded (mkTag opSwitch 1) (ans (doneRep None)) = Responded (mkTag opSwitch (Gen (dat s_switching))) r /\
     done_ r = None).
Proof.
  apply (b4_adoption c_1 5 s_switching _ _ reach_switching eq_refl eq_refl switching_delivered).
  vm_compute. discriminate.
Defined.

Lemma refresh_wait_positive_witness :
  0 < 300 * Second \/ (300 * Second = 0 /\ exists t r, AsyncResult (discoverRep (mkDiscovery aftr_1 [] 0 "") None 0) None = Responded t r /\
     ((tOp t = opSwitch /\ done_ r = None) \/
      (tOp t = opRecover /\ exists ep, reply_recovered r = (ep, None) /\ AFTR ep <> dAFTR (Initial c_1)))).
Proof.
  apply (refresh_wait_positive c_1 Discovering (dat s_discovering)
    (AsyncResult (discoverRep (mkDiscovery aftr_1 [] 0 "") None 0) None) _ [] eq_refl). discriminate.
Defined.
