(* ===== verification/Softwirectl.v ===== *)
(** src/internal/softwirectl as a whole: the controller, the softwire server and the
    datapath under it, joined by the requests in flight between them (tree.go, Spec).

    Controller.v is about a controller that may get any answers, Softwire.v about a server
    that may get any requests; here the answers are the server's and the requests the
    controller's, delivered in the order they were sent.  Either process may be restarted
    at any moment: the softwire outlives them both.  The theorem says that what the
    controller takes the softwire to be is what the packets see. *)

From S2P Require Import Prelude Stats Wire Netip Datapath Migration Softwire Controller.

Local Open Scope Z_scope.

Section System.
Context {D : Type} `{HL : DatapathLaws D}.
Variables (c : Controller) (ep0 : Endpoints).

(** [replies]: for each request the controller has in flight, the server's answer if it
    has handled it.  [orphans]: what a controller that is no more left in the server's
    mailbox, oldest first.  [slipped]: since the endpoints were last settled (by a hard
    switch or the end of a migration), a hard switch has failed. *)
Record system : Type := mkSystem {
  ctl : sys; replies : list (option value); orphans : list request; server : Softwire D;
  slipped : bool }.

Definition slips (q : request) (v : value) (slipped : bool) : bool :=
  match q, v with
  | switchReq _, doneRep e => bool_decide (is_Some e)
  | completeReq, doneRep None => false
  | _, _ => slipped
  end.

(** The answers awaited after the controller has sent more requests. *)
Definition awaited (s : sys) (rs : list (option value)) : list (option value) :=
  replicate (length (inflight s) - length rs) None ++ rs.

Definition unserved (S : system) : list request :=
  omap (fun x : tag * request * option value => match x with (_, q, None) => Some q | _ => None end)
    (zip (inflight (ctl S)) (replies S)).

Definition delivered_to (s : sys) (l : list (tag * request)) : sys :=
  mkSys (ph s) (dat s) l (timer s) (attempt s) (b4timer s) (cap s) (postponed s) (halted s).

Definition booted (d : D) : system := mkSystem started [None] [] (NewSoftwire d ep0) false.

(** The steps: the server handles the oldest request, the controller gets the oldest
    answer or another event, the datapath is used by others, the controller is restarted,
    alone or, rest_for_one, with the server. *)
Inductive sstep (S : system) : system -> Prop :=
| s_orphan nl q qs : orphans S = q :: qs ->
    sstep S (mkSystem (ctl S) (replies S) qs (handle nl q (server S)).2 (slipped S))
| s_serve nl l1 t q l2 r1 r2 v sw : orphans S = [] ->
    inflight (ctl S) = l1 ++ (t, q) :: l2 -> replies S = r1 ++ None :: r2 ->
    length l1 = length r1 -> Forall is_Some r2 -> handle nl q (server S) = (v, sw) ->
    sstep S (mkSystem (ctl S) (r1 ++ Some v :: r2) [] sw (slips q v (slipped S)))
| s_answer l t q rs v : halted (ctl S) = false ->
    inflight (ctl S) = l ++ [(t, q)] -> replies S = rs ++ [Some v] ->
    let s' := turn c (delivered_to (ctl S) l) (Responded t (mkResponse (Replied v) None)) in
    sstep S (mkSystem s' (awaited s' rs) (orphans S) (server S) (slipped S))
| s_event s1 ev : halted (ctl S) = false -> deliver (ctl S) s1 ev -> (forall t r, ev <> Responded t r) ->
    sstep S (mkSystem (turn c s1 ev) (awaited (turn c s1 ev) (replies S)) (orphans S) (server S) (slipped S))
| s_traffic d : dp_ok d -> dp_phase d = dp_phase (dp (server S)) ->
    sstep S (mkSystem (ctl S) (replies S) (orphans S) (with_dp (server S) d) (slipped S))
| s_restart :
    sstep S (mkSystem started [None] (orphans S ++ rev (unserved S)) (server S) false)
| s_restart_all : sstep S (mkSystem started [None] [] (server S) false).

(** [sreach n S]: [S] after [n] steps from a start on the endpoints the datapath carries. *)
Inductive sreach : Z -> system -> Prop :=
| sreach_start d e prev : dp_ok d -> dp_phase d = Steady e (pair_of ep0) prev -> sreach 0 (booted d)
| sreach_step n S S' : sreach n S -> sstep S S' -> sreach (n + 1) S'.

(** ** The controller of a system is one of Controller.v *)

Lemma reach_later n m s : reach c n s -> n <= m -> m < 2 ^ 64 -> inv c m s.
Proof.
  intros Hr Hnm Hm. destruct (inv_reach c n s Hr) as (H1 & H2 & H3); [lia|].
  split; [lia|done].
Qed.

Lemma sreach_ctl n S : sreach n S -> exists m, m <= n /\ 0 <= n /\ reach c m (ctl S).
Proof.
  induction 1 as [d e prev|n S S' HS (m & Hm & Hn & Hr) Hst]; [exists 0; split; [lia|split; [lia|apply reach_start]]|].
  assert (forall s1 ev, halted (ctl S) = false -> deliver (ctl S) s1 ev ->
    exists m, m <= n + 1 /\ 0 <= n + 1 /\ reach c m (turn c s1 ev)) as Hev.
  { intros s1 ev Hh Hd. exists (m + 1). split; [lia|]. split; [lia|]. by eapply reach_event. }
  destruct Hst as [| |l t q rs v Hh Hl|s1 ev Hh Hd| | |]; cbn [ctl]; try (exists m; split; [lia|split; [lia|done]]);
    try (exists 0; split; [lia|split; [lia|apply reach_start]]).
  - apply Hev; [done|]. pose proof (d_response (ctl S) l [] t q (mkResponse (Replied v) None) Hl) as Hd.
    by rewrite app_nil_r in Hd.
  - by apply Hev.
Qed.

(** ** What a request does to the server *)

Lemma handle_spec nl q (sw : Softwire D) v sw' : handle nl q sw = (v, sw') ->
  match q with
  | recoverReq => active sw' = active sw /\ exists ep e, v = recovered ep e /\ (e = None -> ep = active sw)
  | switchReq to => exists e, v = doneRep e /\ active sw' = if e is Some _ then active sw else to
  | beginReq to => active sw' = active sw /\ exists n e, v = countsRep n e /\ (e = None -> target sw' = to)
  | cutoverReq => target sw' = target sw /\ exists e, v = doneRep e /\ active sw' = if e is Some _ then active sw else target sw
  | completeReq => (active sw' = active sw /\ target sw' = target sw) /\ exists e, v = doneRep e
  | _ => active sw' = active sw /\ target sw' = target sw
  end.
Proof.
  unfold handle, counts. destruct q; repeat case_match; intros; simplify_eq/=;
    repeat match goal with
    | |- _ /\ _ => split
    | |- exists e, doneRep _ = doneRep e /\ _ => eexists; split; [reflexivity|]
    | |- exists e, doneRep _ = doneRep e => by eexists
    | |- exists a b, _ = _ /\ _ => eexists _, _; split; [reflexivity|]
    end; done.
Qed.

(** No migration is half over: every flow uses the active pair. *)
Definition settled (sw : Softwire D) : Prop := forall e cur old, dp_phase (dp sw) <> Draining e cur old.

Lemma next_draining t p e cur old : next t p = Some (Draining e cur old) -> t = Cut /\ p = Priming e old cur.
Proof. destruct t, p; cbn; try destruct (acceptable _ _); intros Hn; by simplify_eq. Qed.

Lemma stopped_draining t p e cur old : Draining e cur old ∈ stopped t p -> p = Draining e cur old.
Proof.
  destruct t, p; unfold stopped; rewrite ?elem_of_cons, ?elem_of_nil; intros Hs; by destruct_or? Hs; simplify_eq.
Qed.

Lemma perform_draining t (sw : Softwire D) o d e cur old : mirrors sw -> perform t (dp sw) = (o, d) ->
  dp_phase d = Draining e cur old ->
  match o with
  | Ret _ => t = Cut /\ old = pair_of (active sw)
  | _ => dp_phase (dp sw) = Draining e cur old
  end.
Proof.
  intros (Hok & Hc & _) Hr Hd. destruct (perform_law _ _ _ _ Hok Hr) as [_ Hl]. rewrite Hd in Hl. destruct o; [| |done].
  - apply next_draining in Hl as [-> Hl]. split; [done|]. rewrite Hl in Hc. done.
  - by apply stopped_draining in Hl.
Qed.

Lemma counts_phase (sw : Softwire D) r sw' : mirrors sw -> counts sw = (r, sw') ->
  dp_phase (dp sw') = dp_phase (dp sw) /\ mirrors sw' /\ active sw' = active sw.
Proof. intros Hm Hc. by destruct (mirrors_counts sw r sw' Hm Hc) as (? & ? & _ & _ & ?). Qed.

(** What becomes of a migration half over: it stays as it is, or the cutover begins it, from
    the pair that was active. *)
Lemma handle_phase nl q (sw : Softwire D) v sw' : mirrors sw -> handle nl q sw = (v, sw') ->
  (forall e cur old, dp_phase (dp sw') = Draining e cur old ->
     dp_phase (dp sw) = Draining e cur old \/ (q = cutoverReq /\ v = doneRep None /\ old = pair_of (active sw))) /\
  match q, v with
  | recoverReq, recovered _ None | switchReq _, doneRep None | completeReq, doneRep None => settled sw'
  | cutoverReq, doneRep None => forall e cur old, dp_phase (dp sw') = Draining e cur old -> old = pair_of (active sw)
  | _, _ => True
  end.
Proof.
  intros Hm. assert (forall t o d, perform t (dp sw) = (o, d) -> o <> Panic) as Hpan
    by (intros t o d Hr ->; by eapply (perform_panic t sw)).
  assert (mirrors sw -> migrating sw = false -> settled sw) as Hquiet.
  { intros (_ & _ & Hp) Hq e cur old Hd. rewrite Hd in Hp. congruence. }
  unfold settled in *. destruct q; cbn [handle]; repeat case_match; intros; simplify_eq/=;
    repeat match goal with Hx : counts _ = _ |- _ => apply counts_phase in Hx as (? & ? & ?); [|done] end;
    repeat match goal with
    | Hx : readStats _ = _ |- _ => apply readStats_law in Hx as [_ Hx]; [|apply Hm]
    | Hx : GCFlows _ _ = _ |- _ => apply GC_law in Hx as [_ Hx]; [|apply Hm]
    end; try (split; [|done]); try split; intros e' cur' old' Hd; try (left; congruence).
  all: try (by eapply Hpan). all: try (by destruct (Hquiet Hm ltac:(done) e' cur' old')).
  all: try match goal with Hx : perform ?t (dp ?s) = (?o, ?d) |- _ =>
    pose proof (perform_draining t s o d _ _ _ ltac:(done) Hx Hd) as Hk end; cbn in Hk.
  all: try (destruct_and? Hk; by first [done|right; subst|subst]). all: try (left; congruence).
Qed.

Lemma handle_tunnel nl q (sw : Softwire D) : default ep0 (head (endpoints sw)) = active sw ->
  default ep0 (head (endpoints (handle nl q sw).2)) = active (handle nl q sw).2.
Proof. unfold handle, counts. intros Hx. destruct q; repeat case_match; simplify_eq/=; done. Qed.

(** ** The requests a turn sends *)

Definition sends (es : list effect) : list (tag * request) :=
  rev (omap (fun e => match e with SendRequest t q => Some (t, q) | _ => None end) es).

Lemma inflight_effects es s : inflight (apply_effects s es) = sends es ++ inflight s.
Proof.
  revert s. unfold sends. induction es as [|e es IH]; intros s; [done|].
  change (apply_effects s (e :: es)) with (apply_effects (apply_effect s e) es). rewrite IH.
  destruct e as [| |? []| | | | |]; try done. cbn. by rewrite <- app_assoc.
Qed.

(** A turn as its handler's result: entering a phase sends nothing and leaves the data
    as it is, the mark of an overlong drain apart. *)
Lemma turn_view s ev st d es : HandleEvent c (ph s) (dat s) ev = (st, d, es) ->
  ph (turn c s ev) = st /\ inflight (turn c s ev) = sends es ++ inflight s /\
  (dat (turn c s ev) = d \/ dat (turn c s ev) = set_CapReached d false).
Proof.
  intros He. destruct (decide (st = ph s)) as [->|Hne].
  - rewrite (turn_stay _ _ _ _ _ He), ph_effects, dat_effects, inflight_effects. eauto.
  - rewrite (turn_move _ _ _ _ _ _ He Hne). destruct (enter c st d) as [[st2 d2] es2] eqn:Hen. cbn zeta.
    rewrite ph_effects, dat_effects, !inflight_effects. cbn [ph dat inflight].
    destruct st; cbn in Hen; simplify_eq; try destruct (DynamicAFTR c); cbn; eauto.
Qed.
(** ** The invariant *)

(** The requests in flight that are not queries of the source, with their answers. *)
Definition ticket : Type := tag * request * option value.

Definition is_source (o : op) : bool := match o with opSource => true | _ => false end.

Definition tickets (l : list (tag * request)) (rs : list (option value)) : list ticket :=
  List.filter (fun x : ticket => negb (is_source (tOp x.1.1))) (zip l rs).

Definition moving (d : Data) : Endpoints := mkEndpoints (dB4 d) (dAFTR (Next d)).

(** Every flow goes from the B4 in use to [x]'s AFTR, or, after a hard switch that failed,
    new ones go from it. *)
Definition on (d : Data) (sw : Softwire D) (slip : bool) (x : Discovery) : Prop :=
  B4 (active sw) = dB4 d /\ (slip = false -> AFTR (active sw) = dAFTR x /\ settled sw).

(** New flows go to the AFTR being moved to, and those that stay behind are on the one in
    use. *)
Definition moved_on (d : Data) (sw : Softwire D) (slip : bool) : Prop :=
  active sw = moving d /\
  forall e cur old, dp_phase (dp sw) = Draining e cur old ->
    exists ep, old = pair_of ep /\ B4 ep = dB4 d /\ (slip = false -> AFTR ep = dAFTR (Current d)).

Lemma moved_on_next d sw slip : moved_on d sw slip -> AFTR (active sw) = dAFTR (Next d).
Proof. by intros [-> _]. Qed.

(** A request's answer after which nothing is half over. *)
Definition settles (sw : Softwire D) (r : option value) : Prop :=
  forall v, r = Some v -> exists e, v = doneRep e /\ (e = None -> settled sw).

(** Priming: the window, or one of its requests. *)
Inductive priming_on (d : Data) (sw : Softwire D) (slip : bool) : list ticket -> Prop :=
| p_window : on d sw slip (Current d) -> target sw = moving d -> priming_on d sw slip []
| p_begin r : on d sw slip (Current d) ->
    (forall v, r = Some v -> exists n e, v = countsRep n e /\ (e = None -> target sw = moving d)) ->
    priming_on d sw slip [((mkTag opBegin (Gen d), beginReq (moving d)), r)]
| p_counts r : on d sw slip (Current d) -> target sw = moving d ->
    priming_on d sw slip [((mkTag opCounts (Gen d), countsReq), r)]
| p_abort r : on d sw slip (Current d) -> priming_on d sw slip [((mkTag opAbort (Gen d), abortReq), r)]
| p_cutover r : target sw = moving d ->
    match r with
    | None => on d sw slip (Current d)
    | Some v => exists e, v = doneRep e /\ if e is Some _ then on d sw slip (Current d) else moved_on d sw slip
    end -> priming_on d sw slip [((mkTag opCutover (Gen d), cutoverReq), r)].

(** What a hard switch may find in flight, by which the B4 does not change. *)
Definition outrun (b4 : Addr) (sw : Softwire D) (x : ticket) : Prop :=
  match x with
  | (_, beginReq to, None) => B4 to = b4
  | (_, cutoverReq, None) => B4 (target sw) = b4
  | (_, (recoverReq | switchReq _ | sourceReq _), _) => False
  | _ => True
  end.

Definition switching_on (d : Data) (sw : Softwire D) (slip : bool) (T : list ticket) : Prop :=
  let to := mkEndpoints (SwitchB4 d) (dAFTR (SwitchTo d)) in
  exists r late, T = ((mkTag opSwitch (Gen d), switchReq to), r) :: late /\
    Forall (fun x : ticket => tGen x.1.1 <> Gen d) late /\ (length late <= 1)%nat /\
    match r with
    | None => B4 (active sw) = dB4 d /\ Forall (outrun (dB4 d) sw) late
    | Some v => Forall (fun x : ticket => is_Some x.2) late /\
        exists e, v = doneRep e /\
          if e is Some _ then B4 (active sw) = dB4 d /\ slip = true else active sw = to /\ settled sw
    end.

Definition tracks (p : Phase) (d : Data) (T : list ticket) (sw : Softwire D) (slip : bool) : Prop :=
  match p with
  | Recovering => T = [] \/ exists r, T = [((mkTag opRecover 0, recoverReq), r)] /\
      forall v, r = Some v -> exists ep e, v = recovered ep e /\ (e = None -> ep = active sw /\ settled sw)
  | PSteady | Discovering => T = [] /\ on d sw slip (Current d)
  | PPriming => priming_on d sw slip T
  | PDraining => moved_on d sw slip /\
      (T = [] \/ (exists r, T = [((mkTag opGC (Gen d), gcReq), r)]) \/
       exists r, T = [((mkTag opComplete (Gen d), completeReq), r)] /\ settles sw r)
  | Switching => switching_on d sw slip T
  end.

Lemma tracks_capped p d b T sw slip : tracks p d T sw slip -> tracks p (set_CapReached d b) T sw slip.
Proof.
  destruct p; [done..| |done|done]. set (d' := set_CapReached d b).
  intros [|r|r|r|r]; [by apply (p_window d')|by apply (p_begin d')|by apply (p_counts d')|by apply (p_abort d')|
    by apply (p_cutover d')].
Qed.

(** *** The server handles a request *)

Lemma on_kept d sw sw' slip x : on d sw slip x -> active sw' = active sw -> (settled sw -> settled sw') -> on d sw' slip x.
Proof. intros [Hb Ho] Ha Hs. unfold on. rewrite Ha. split; [done|]. intros Hsl. destruct (Ho Hsl). auto. Qed.

Lemma tracks_serve p d T1 t q T2 sw slip nl v sw' : mirrors sw ->
  tracks p d (T1 ++ (t, q, None) :: T2) sw slip -> Forall (fun x : ticket => is_Some x.2) T2 ->
  handle nl q sw = (v, sw') -> tracks p d (T1 ++ (t, q, Some v) :: T2) sw' (slips q v slip).
Proof.
  intros Hm HT H2 Hh0. pose proof (handle_spec _ _ _ _ _ Hh0) as Hh. destruct (handle_phase _ _ _ _ _ Hm Hh0) as [Hd Hset].
  assert ((q = cutoverReq -> v <> doneRep None) -> settled sw -> settled sw') as Hkept.
  { intros Hq Hs e cur old Hx. apply Hd in Hx as [Hx|(Hx & Hv & _)]; [by eapply Hs|by apply (Hq Hx)]. }
  assert (forall x r, T1 ++ (t, q, None) :: T2 = [(x, r)] -> T1 = [] /\ T2 = [] /\ x = (t, q) /\ r = None) as Hone.
  { intros x r Hx. destruct T1 as [|? [|]]; [|done..]. by destruct T2; simplify_eq/=. }
  destruct p; cbn [tracks] in *.
  - destruct HT as [HT|(r & HT & Hr)]; [by destruct T1|]. apply Hone in HT as (-> & -> & Ht & ->). simplify_eq.
    destruct Hh as (Ha & ep & e & -> & He). right. eexists. split; [done|]. intros v [= <-]. rewrite Ha.
    eexists _, _. split; [done|]. intros ->. auto.
  - destruct HT as [HT _]. by destruct T1.
  - destruct HT as [HT _]. by destruct T1.
  - remember (T1 ++ (t, q, None) :: T2) as T eqn:HeT in HT.
    destruct HT as [|r Ho Hr|r Ho Ht|r Ho|r Ht Hr]; [by destruct T1|..]; symmetry in HeT;
      apply Hone in HeT as (-> & -> & Hq & ->); simplify_eq.
    + destruct Hh as (Ha & n & e & -> & He). apply p_begin; [by eapply on_kept; [exact Ho|done|apply Hkept]|]. intros ? [= <-]. eauto.
    + destruct Hh as [Ha Ht']. apply p_counts; [by eapply on_kept; [exact Ho|done|apply Hkept]|congruence].
    + destruct Hh as [Ha Ht']. apply p_abort. by eapply on_kept; [exact Ho|done|apply Hkept].
    + destruct Hh as (Ht' & e & -> & Ha). apply p_cutover; [congruence|]. exists e. split; [done|].
      destruct e; cbn [slips]; [by eapply on_kept; [exact Hr|done|apply Hkept]|]. split; [congruence|]. intros e cur old Hx.
      destruct Hr as [Hb Hr]. rewrite (Hset _ _ _ Hx). exists (active sw). split; [done|]. split; [done|].
      intros Hsl. by apply Hr.
  - destruct HT as [[Ha Hold] HT].
    assert (q <> cutoverReq -> active sw' = active sw -> forall slip', (settled sw' \/ slip' = slip) -> moved_on d sw' slip') as Hmv.
    { intros Hq Ha' slip' Hs. split; [congruence|]. intros e cur old Hx. destruct Hs as [Hs| ->]; [by destruct (Hs _ _ _ Hx)|].
      apply Hd in Hx as [Hx|(Hx & _)]; [by eapply Hold|done]. }
    destruct HT as [HT|[(r & HT)|(r & HT & Hr)]]; [by destruct T1|apply Hone in HT as (-> & -> & Hq' & ->); simplify_eq..].
    + destruct Hh as [Ha' _]. split; [by apply Hmv; auto|]. right; left. eauto.
    + destruct Hh as [[Ha' _] [e ->]]. split.
      * apply Hmv; [done|done|]. destruct e; cbn [slips]; auto.
      * right; right. eexists. split; [done|]. intros v' [= <-]. exists e. split; [done|]. by intros ->.
  - destruct HT as (r & late & HT & Hg & Hl & Hr). destruct T1 as [|x T1].
    + simplify_eq/=. destruct Hr as [Hb _], Hh as (e & -> & Ha). eexists _, _. split; [done|]. split; [done|]. split; [done|].
      split; [done|]. exists e. split; [done|]. rewrite Ha. by destruct e.
    + simplify_eq/=. destruct r as [v'|]; [destruct Hr as [Hr _]; rewrite Forall_app, Forall_cons in Hr; by destruct Hr as (_ & [? ?] & _)|].
      destruct Hr as [Hb Hr]. destruct T1; [|cbn in Hl; rewrite length_app in Hl; cbn in Hl; lia]. destruct T2; [|cbn in Hl; lia].
      apply Forall_cons in Hr as [Hr _], Hg as [Hg _].
      eexists _, _. split; [done|]. split; [by constructor|]. split; [cbn; lia|].
      assert (B4 (active sw') = dB4 d) as Hb'.
      { cbn in Hr. destruct q; try done;
          first [by destruct Hh as [-> _]|by destruct Hh as [[-> _] _]|destruct Hh as (_ & e & _ & ->); by destruct e]. }
      split; [done|]. constructor; [|done]. by destruct q.
Qed.

(** *** The controller handles an event *)

Definition asks (es : list effect) : list ticket := tickets (sends es) (replicate (length (sends es)) None).

Lemma tracks_b4 p d T sw slip : tracks p d T sw slip -> p <> Recovering -> p <> Switching ->
  B4 (active sw) = dB4 d /\ Forall (fun x : ticket => tGen x.1.1 = Gen d) T /\ (length T <= 1)%nat /\
  Forall (outrun (dB4 d) sw) T.
Proof.
  intros HT Hr Hs.
  assert (forall x, B4 (active sw) = dB4 d -> tGen x.1.1 = Gen d -> outrun (dB4 d) sw x -> T = [x] ->
    B4 (active sw) = dB4 d /\ Forall (fun x : ticket => tGen x.1.1 = Gen d) T /\ (length T <= 1)%nat /\
    Forall (outrun (dB4 d) sw) T) as Hone.
  { intros x Hb Hg Ho ->. split; [done|]. split; [by constructor|]. split; [cbn; lia|by constructor]. }
  assert (B4 (active sw) = dB4 d -> T = [] -> B4 (active sw) = dB4 d /\ Forall (fun x : ticket => tGen x.1.1 = Gen d) T /\
    (length T <= 1)%nat /\ Forall (outrun (dB4 d) sw) T) as Hnil.
  { intros Hb ->. split; [done|]. split; [by constructor|]. split; [cbn; lia|by constructor]. }
  destruct p; cbn in HT; try done.
  - destruct HT as (? & Hb & _). by apply Hnil.
  - destruct HT as (? & Hb & _). by apply Hnil.
  - destruct HT as [[Hb _] Ht|r [Hb _] Hr'|r [Hb _] Ht|r [Hb _]|r Ht Hr'].
    + by apply Hnil.
    + eapply Hone; [done| | |done]; [done|]. by destruct r.
    + eapply Hone; [done| | |done]; done.
    + eapply Hone; [done| | |done]; done.
    + eapply Hone; [| | |done]; [|done|cbn; destruct r; [done|by rewrite Ht]].
      destruct r as [v|]; [|by destruct Hr']. destruct Hr' as (e & _ & He). destruct e; [by destruct He|].
      destruct He as [-> _]. done.
  - destruct HT as [[Ha _] [?|[(r & ?)|(r & ? & _)]]]; [apply Hnil; [by rewrite Ha|done]|..];
      (eapply Hone; [by rewrite Ha| | |done]; done).
Qed.

Lemma tracks_hardSwitch p d b4 T sw slip st d' es : tracks p d T sw slip -> p <> Recovering -> p <> Switching ->
  0 <= Gen d < 2 ^ 64 - 1 -> hardSwitch p d b4 = (st, d', es) -> tracks st d' (asks es ++ T) sw slip.
Proof.
  intros HT Hr Hs Hg He. destruct (tracks_b4 p d T sw slip HT Hr Hs) as (Hb & HG & Hl & Ho). clear HT.
  assert (u64 (Gen d + 1) = Gen d + 1) as Hu by (unfold u64; apply Z.mod_small; lia).
  unfold hardSwitch in He. rewrite Hu in He. set (to := match p with PDraining => _ | _ => _ end) in He.
  injection He as <- <- <-. unfold switching_on. cbn [tracks]. exists None, T.
  split; [by destruct p|]. cbn [Gen set_Next set_Switch]. split; [|split; [done|by split]].
  eapply Forall_impl; [exact HG|]. intros x Hx. rewrite Hx. lia.
Qed.

Lemma tracks_source p d r T sw slip st d' es : tracks p d T sw slip -> p <> Recovering -> p <> Switching ->
  0 <= Gen d < 2 ^ 64 - 1 -> onSource p d r = (st, d', es) -> tracks st d' (asks es ++ T) sw slip.
Proof.
  intros HT Hr Hs Hg. unfold onSource. destruct (reply_source r) as [[a ok] [e|]]; [by intros [= <- <- <-]|].
  destruct (nextB4 _ _ _) as [b4 []]; [by apply tracks_hardSwitch|by intros [= <- <- <-]].
Qed.

(** An answer of the request in flight, the only one that is not late. *)
Lemma tracks_answer p d t q v T sw slip st d' es : tracks p d (T ++ [(t, q, Some v)]) sw slip ->
  (p = Recovering -> Gen d = 0) ->
  HandleEvent c p d (Responded t (mkResponse (Replied v) None)) = (st, d', es) -> tracks st d' (asks es ++ T) sw slip.
Proof.
  intros HT H0.
  assert (forall x r, T ++ [(t, q, Some v)] = [(x, r)] -> T = [] /\ x = (t, q) /\ r = Some v) as Hone.
  { intros x r Hx. by destruct T as [|? [|]]; simplify_eq/=. }
  destruct p; cbn [tracks] in HT.
  - destruct HT as [HT|(r & HT & Hr)]; [by destruct T|]. apply Hone in HT as (-> & Ht & ->). simplify_eq.
    destruct (Hr v eq_refl) as (ep & e & -> & He). cbn [HandleEvent tGen tOp]. rewrite H0 by done. cbn.
    unfold onRecover. destruct e as [e|]; cbn; [intros [= <- <- <-]; by left|].
    destruct (He eq_refl) as [-> Hs]. unfold recovered_. case_bool_decide as Ha; destruct (DynamicB4 c); intros [= <- <- <-]; cbn;
      (split; [done|]); unfold on; cbn; by rewrite ?Ha.
  - destruct HT as [HT _]. by destruct T.
  - destruct HT as [HT _]. by destruct T.
  - remember (T ++ [(t, q, Some v)]) as T' eqn:HeT in HT.
    destruct HT as [|r Ho Hr|r Ho Ht|r Ho|r Ht Hr]; [by destruct T|..]; symmetry in HeT;
      apply Hone in HeT as (-> & Hq & ->); simplify_eq; cbn [HandleEvent tGen tOp]; rewrite Z.eqb_refl; cbn [response].
    + destruct (Hr v eq_refl) as (n & e & -> & He). unfold onBegin, migrationFailed. cbn.
      destruct e; intros [= <- <- <-]; cbn; [by split|]. apply (p_window (set_Baseline d n)); auto.
    + unfold onCounts, abort. destruct (reply_counts _) as [n [e|]].
      * intros [= <- <- <-]. by apply (p_abort (set_AbortWhy d _)).
      * destruct (0 <? _); intros [= <- <- <-]; [by apply (p_abort (set_AbortWhy d _))|].
        by apply (p_cutover (set_Recorded d _)).
    + unfold onAbort, migrationFailed. destruct (done_ _); [|destruct (String.eqb _ _)]; intros [= <- <- <-]; by split.
    + destruct Hr as (e & -> & Hr). unfold onCutover, abort. cbn. destruct e; intros [= <- <- <-].
      * by apply (p_abort (set_AbortWhy d _)).
      * cbn. auto.
  - destruct HT as [Ha HT].
    destruct HT as [HT|[(r & HT)|(r & HT & Hr)]]; [by destruct T|apply Hone in HT as (-> & Hq' & ->); simplify_eq..];
      cbn [HandleEvent tGen tOp]; rewrite Z.eqb_refl; cbn [response].
    + unfold onGC. destruct (reply_gc _) as [n [e|]]; [|destruct (_ && _)]; intros [= <- <- <-]; cbn; split; auto.
      right; right. by exists None.
    + destruct (Hr v eq_refl) as (e & -> & Hs). unfold onComplete. cbn. destruct e; intros [= <- <- <-]; cbn; [by auto|].
      split; [done|]. destruct Ha as [Ha _]. unfold on. cbn. rewrite Ha. auto.
  - destruct HT as (r & late & HT & Hg & Hl & Hr). destruct T as [|x T].
    + simplify_eq/=. destruct Hr as (_ & e & -> & Hr). rewrite Z.eqb_refl. cbn. unfold onSwitch.
      destruct e as [e|]; cbn; intros [= <- <- <-]; cbn; (split; [done|]).
      * destruct Hr as [Hb ->]. by split.
      * destruct Hr as [Hr Hs]. unfold on. cbn. by rewrite Hr.
    + simplify_eq/=. apply Forall_app in Hg as [Hg [Ht _]%Forall_cons]. cbn in Ht.
      rewrite (proj2 (Z.eqb_neq _ _)) by done. intros [= <- <- <-].
      destruct T; [|cbn in Hl; rewrite length_app in Hl; cbn in Hl; lia].
      eexists r, []. split; [done|]. split; [done|]. split; [cbn; lia|].
      destruct r as [v'|]; [|by destruct Hr]. by destruct Hr as [_ ?].
Qed.

(** An event that is not an answer: the state timeout, the poll of the B4, the end of a
    discovery attempt. *)
Lemma tracks_event s s1 ev T sw slip st d' es : driven c s -> tracks (ph s) (dat s) T sw slip ->
  (forall x, x ∈ T -> x.1 ∈ inflight s /\ is_source (tOp x.1.1) = false) ->
  deliver s s1 ev -> (forall t r, ev <> Responded t r) -> HandleEvent c (ph s1) (dat s1) ev = (st, d', es) ->
  tracks st d' (asks es ++ T) sw slip.
Proof.
  intros Hd HT Hin Hdel Hnr.
  assert (live s = [] -> forall o q r, T <> [((mkTag o (Gen (dat s)), q), r)]) as Hlive.
  { intros Hl o q r ->. destruct (Hin (mkTag o (Gen (dat s)), q, r) ltac:(by left)) as [Hi Ho]; cbn in Hi, Ho.
    assert ((mkTag o (Gen (dat s)), q) ∈ live s) as Hx; [|by rewrite Hl in Hx; apply elem_of_nil in Hx].
    apply list_elem_of_filter. split; [|done]. unfold is_live. cbn. rewrite Z.eqb_refl. by destruct o. }
  destruct Hdel as [s ? ? ? ? ?|s m Htm|s Hb|s m Hm|s v e Hat|s]; [by destruct (Hnr t r)|..]; cbn [ph dat] in *.
  - unfold driven in Hd. destruct (ph s); cbn zeta in Hd.
    + by destruct Hd as (_ & _ & ? & _); congruence.
    + destruct Hd as (_ & _ & Ht). rewrite Htm in Ht. destruct (DynamicAFTR c); simplify_eq. by intros [= <- <- <-].
    + by destruct Hd as (_ & _ & ?); congruence.
    + destruct Hd as (_ & [[Hl Ht]|[? _]]); [|congruence]. rewrite Htm in Ht. simplify_eq.
      specialize (Hlive Hl). destruct HT; try (by edestruct Hlive). intros [= <- <- <-]. by apply p_counts.
    + destruct Hd as (_ & [[Hl Ht]|[? _]]); [|congruence]. rewrite Htm in Ht. simplify_eq.
      specialize (Hlive Hl). destruct HT as [Ha [->|[(? & ->)|(? & -> & _)]]]; [|by edestruct Hlive..].
      intros [= <- <- <-]. cbn. split; [done|]. right; left. by exists None.
    + by destruct Hd as (_ & ? & _); congruence.
  - cbn [HandleEvent]. case_bool_decide; by intros [= <- <- <-].
  - cbn [HandleEvent]. destruct (m =? _); intros [= <- <- <-]; [by apply tracks_capped|done].
  - assert (ph s = Discovering) as Hp.
    { unfold driven in Hd. destruct (ph s); cbn zeta in Hd; destruct_and? Hd; congruence. }
    rewrite Hp in *. destruct HT as [-> Hon]. cbn [HandleEvent response]. unfold onDiscover.
    destruct (reply_discover _) as [[nx re] [er|]]; [intros [= <- <- <-]; by split|].
    case_bool_decide as Hsame; intros [= <- <- <-].
    + split; [done|]. unfold on. cbn. by rewrite Hsame.
    + by apply (p_begin (set_Migration (set_Next (dat s) nx) (u64 (Migration (dat s) + 1)))).
  - by intros [= <- <- <-].
Qed.

Definition asked (x : tag * request) : Prop := tOp x.1 = opSource -> exists a, x.2 = sourceReq a.

Lemma sends_asked p d ev st d' es : HandleEvent c p d ev = (st, d', es) -> Forall asked (sends es).
Proof.
  unfold HandleEvent, enter, response, onRecover, recovered_, onSource, hardSwitch, onSwitch, onDiscover,
    onBegin, onCounts, onCutover, onAbort, onGC, onComplete, migrationFailed, abort, softwire.
  intros He. repeat (case_match; simplify_eq/=); repeat constructor; unfold asked; cbn; eauto; done.
Qed.

Lemma tickets_app l1 l2 r1 r2 : length l1 = length r1 ->
  tickets (l1 ++ l2) (r1 ++ r2) = tickets l1 r1 ++ tickets l2 r2.
Proof. intros Hl. unfold tickets. by rewrite zip_with_app, List.filter_app. Qed.

Lemma tickets_elem l rs x : x ∈ tickets l rs -> x.1 ∈ l /\ is_source (tOp x.1.1) = false.
Proof.
  unfold tickets. intros [Hx Ho]%list_elem_of_In%List.filter_In. apply negb_true_iff in Ho. split; [|done].
  apply list_elem_of_In in Hx. destruct x as [y r]. apply elem_of_zip_l in Hx. done.
Qed.

Lemma tickets_awaited s l rs es : inflight s = sends es ++ l -> length l = length rs ->
  tickets (inflight s) (awaited s rs) = asks es ++ tickets l rs /\ length (awaited s rs) = length (inflight s).
Proof.
  intros Hi Hl. unfold awaited. rewrite Hi, length_app, Hl, Nat.add_sub.
  rewrite tickets_app by by rewrite length_replicate. split; [done|]. by rewrite length_app, length_replicate.
Qed.

(** *** Every step *)

Definition tracked (S : system) : Prop :=
  mirrors (server S) /\ default ep0 (head (endpoints (server S))) = active (server S) /\
  length (inflight (ctl S)) = length (replies S) /\ Forall asked (inflight (ctl S)) /\
  (orphans S = [] \/ (ph (ctl S) = Recovering /\ Forall (eq None) (replies S))) /\
  tracks (ph (ctl S)) (dat (ctl S)) (tickets (inflight (ctl S)) (replies S)) (server S) (slipped S).

Lemma tracks_ext p d T sw sw' slip : active sw' = active sw -> target sw' = target sw ->
  dp_phase (dp sw') = dp_phase (dp sw) -> tracks p d T sw slip -> tracks p d T sw' slip.
Proof.
  intros Ha Ht Hp. destruct sw as [dp ac tg mg eps], sw' as [dp' ac' tg' mg' eps']. cbn in Ha, Ht, Hp. subst ac' tg'.
  destruct p; unfold tracks, switching_on, moved_on, settles, on, settled in *; cbn in *; rewrite ?Hp; try done.
  intros []; constructor; unfold moved_on, on, settled in *; cbn in *; rewrite ?Hp; done.
Qed.

Lemma tickets_unanswered l rs x : Forall (eq None) rs -> x ∈ tickets l rs -> x.2 = None.
Proof.
  unfold tickets. intros Hn [Hx _]%list_elem_of_In%List.filter_In. apply list_elem_of_In in Hx.
  destruct x as [y r]. apply elem_of_zip_r in Hx. rewrite Forall_forall in Hn. by rewrite <- (Hn r).
Qed.

Lemma tickets_answered l rs : Forall is_Some rs -> Forall (fun x : ticket => is_Some x.2) (tickets l rs).
Proof.
  intros Hs. apply Forall_forall. unfold tickets. intros [y r] [Hx _]%list_elem_of_In%List.filter_In.
  apply list_elem_of_In, elem_of_zip_r in Hx. by eapply Forall_forall in Hs.
Qed.

Lemma tracked_orphan S nl q qs : tracked S -> orphans S = q :: qs ->
  tracked (mkSystem (ctl S) (replies S) qs (handle nl q (server S)).2 (slipped S)).
Proof.
  intros (Hm & Ht & Hl & Ha & [Ho|[Hp Hn]] & HT) Hq; [congruence|].
  split; [by apply mirrors_handle|]. split; [by apply handle_tunnel|]. split; [done|]. split; [done|].
  split; [by right|]. cbn [ctl replies server slipped] in *. rewrite Hp in *.
  destruct HT as [HT|(r & HT & _)]; [by left|]. right. exists r. split; [done|]. intros v ->.
  assert ((mkTag opRecover 0, recoverReq, Some v) ∈ tickets (inflight (ctl S)) (replies S)) as Hin by (rewrite HT; by left).
  by apply tickets_unanswered in Hin.
Qed.

Lemma tracked_serve S nl l1 t q l2 r1 r2 v sw : tracked S -> orphans S = [] ->
  inflight (ctl S) = l1 ++ (t, q) :: l2 -> replies S = r1 ++ None :: r2 -> length l1 = length r1 ->
  Forall is_Some r2 -> handle nl q (server S) = (v, sw) ->
  tracked (mkSystem (ctl S) (r1 ++ Some v :: r2) [] sw (slips q v (slipped S))).
Proof.
  intros (Hm & Ht & Hl & Ha & _ & HT) Ho Hi Hr Hlen Hs Hh.
  assert (forall r, tickets (inflight (ctl S)) (r1 ++ r :: r2) = tickets l1 r1 ++ tickets [(t, q)] [r] ++ tickets l2 r2) as Hsplit.
  { intros r. rewrite Hi. change ((t, q) :: l2) with ([(t, q)] ++ l2). change (r :: r2) with ([r] ++ r2).
    by rewrite !tickets_app. }
  split; [pose proof (mirrors_handle nl q _ Hm) as Hx; by rewrite Hh in Hx|].
  split; [pose proof (handle_tunnel nl q _ Ht) as Hx; by rewrite Hh in Hx|].
  split; [cbn; rewrite Hl, Hr, !length_app; done|]. split; [done|]. split; [by left|].
  cbn [ctl replies server slipped]. rewrite Hr, Hsplit in HT. rewrite Hsplit. cbn [tickets zip zip_with List.filter fst] in *.
  destruct (is_source (tOp t)) eqn:Hsrc; cbn [negb] in *.
  - rewrite Hi in Ha. apply Forall_app in Ha as [_ [Hq _]%Forall_cons].
    destruct Hq as [a Hq]; [by destruct t as [[]]|]. cbn in Hq. subst q. pose proof (handle_spec _ _ _ _ _ Hh) as [Hac Htg]. apply (tracks_ext _ _ _ (server S)); try done.
    cbn [handle] in Hh. destruct nl as [src|]; [destruct (src a) as [[]| |]|]; by injection Hh as _ <-.
  - by eapply tracks_serve; [exact Hm|exact HT|by apply tickets_answered|].
Qed.

Lemma tracked_turn S s1 ev rs st d es : tracked S ->
  HandleEvent c (ph s1) (dat s1) ev = (st, d, es) -> length (inflight s1) = length rs -> Forall asked (inflight s1) ->
  orphans S = [] \/ (st = Recovering /\ Forall (eq None) rs) ->
  tracks st d (asks es ++ tickets (inflight s1) rs) (server S) (slipped S) ->
  tracked (mkSystem (turn c s1 ev) (awaited (turn c s1 ev) rs) (orphans S) (server S) (slipped S)).
Proof.
  intros (Hm & Ht & _) He Hl Ha Ho HT. destruct (turn_view s1 ev st d es He) as (Hp & Hi & Hd).
  destruct (tickets_awaited (turn c s1 ev) (inflight s1) rs es Hi Hl) as [Hk Hn].
  split; [done|]. split; [done|]. split; [done|]. cbn [ctl replies orphans server slipped]. rewrite Hp, Hk.
  split; [rewrite Hi; apply Forall_app; split; [by eapply sends_asked|done]|].
  split; [destruct Ho as [Ho|[Ho Hno]]; [by left|right; split; [done|]]|].
  - unfold awaited. apply Forall_app. split; [by apply Forall_replicate|done].
  - destruct Hd as [-> | ->]; [done|by apply tracks_capped].
Qed.

Lemma tracked_answer S m l t q rs v : tracked S -> inv c m (ctl S) -> m < 2 ^ 64 - 1 -> halted (ctl S) = false ->
  inflight (ctl S) = l ++ [(t, q)] -> replies S = rs ++ [Some v] ->
  let s' := turn c (delivered_to (ctl S) l) (Responded t (mkResponse (Replied v) None)) in
  tracked (mkSystem s' (awaited s' rs) (orphans S) (server S) (slipped S)).
Proof.
  intros HS (Hg & _ & Hd) Hm Hh Hi Hr. destruct (Hd Hh) as [Hdr _]. cbv zeta.
  pose proof HS as (_ & _ & Hl & Ha & Ho & HT). rewrite Hi, Hr in *. rewrite !length_app in Hl. cbn in Hl.
  apply Forall_app in Ha as [Ha _]. assert (length l = length rs) as Hlen by lia.
  assert (orphans S = []) as Hno.
  { destruct Ho as [Ho|[_ Hn]]; [done|]. apply Forall_app in Hn as [_ [Hn _]%Forall_cons]. done. }
  rewrite tickets_app in HT by done.
  destruct (HandleEvent c (ph (ctl S)) (dat (ctl S)) (Responded t (mkResponse (Replied v) None))) as [[st d] es] eqn:He.
  eapply tracked_turn; [done|exact He|done|done|by left|]. cbn [inflight delivered_to].
  destruct (is_source (tOp t)) eqn:Hsrc.
  - assert (tickets [(t, q)] [Some v] = []) as Hnil by (unfold tickets; cbn; by rewrite Hsrc).
    rewrite Hnil, app_nil_r in HT. cbn [HandleEvent] in He. destruct (Z.eqb_spec (tGen t) (Gen (dat (ctl S)))) as [Htg|].
    + assert (tOp t = opSource) as Hop by by destruct (tOp t). rewrite Hop in He. cbn [response] in He.
      assert ((t, q) ∈ inflight (ctl S)) as Hin by (rewrite Hi; set_solver).
      eapply tracks_source; [exact HT| | |split; [lia|]|exact He].
      * intros Hp. unfold driven in Hdr. rewrite Hp in Hdr. destruct Hdr as (Hx & _).
        rewrite Hx in Hin. apply list_elem_of_singleton in Hin. injection Hin as -> _. done.
      * intros Hp. unfold driven in Hdr. rewrite Hp in Hdr. destruct Hdr as (_ & _ & _ & Hx & _).
        specialize (Hx _ Hin Htg). cbn in Hx. congruence.
      * lia.
    + by injection He as <- <- <-.
  - assert (tickets [(t, q)] [Some v] = [(t, q, Some v)]) as Hone by (unfold tickets; cbn; by rewrite Hsrc).
    rewrite Hone in HT. eapply tracks_answer; [exact HT| |exact He].
    intros Hp. unfold driven in Hdr. rewrite Hp in Hdr. by destruct Hdr as (_ & -> & _).
Qed.

Lemma tracked_event S m s1 ev : tracked S -> inv c m (ctl S) -> halted (ctl S) = false ->
  deliver (ctl S) s1 ev -> (forall t r, ev <> Responded t r) ->
  tracked (mkSystem (turn c s1 ev) (awaited (turn c s1 ev) (replies S)) (orphans S) (server S) (slipped S)).
Proof.
  intros HS (_ & _ & Hd) Hh Hdel Hnr. destruct (Hd Hh) as [Hdr Hpl].
  pose proof HS as (_ & _ & Hl & Ha & Ho & HT).
  assert (inflight s1 = inflight (ctl S)) as Hi by (destruct Hdel; try done; by edestruct Hnr).
  destruct (HandleEvent c (ph s1) (dat s1) ev) as [[st d] es] eqn:He.
  eapply tracked_turn; [done|exact He|by rewrite Hi|by rewrite Hi| |].
  - destruct Ho as [Ho|[Hp Hn]]; [by left|right]. split; [|done]. destruct Hpl as [Hb _].
    destruct (Hb Hp) as [Hb4 _]. unfold driven in Hdr. rewrite Hp in Hdr. destruct Hdr as (_ & _ & Ht & Hat).
    destruct Hdel; cbn [ph dat HandleEvent] in He; try congruence;
      first [by edestruct Hnr|rewrite Hp in He; by injection He as <- _ _].
  - rewrite Hi. eapply tracks_event; [exact Hdr|exact HT| |exact Hdel|done|exact He]. intros x. apply tickets_elem.
Qed.

Lemma tracked_fresh os sw : mirrors sw -> default ep0 (head (endpoints sw)) = active sw ->
  tracked (mkSystem started [None] os sw false).
Proof.
  intros Hm Ht. split; [done|]. split; [done|]. split; [done|]. split; [by constructor|].
  split; [right; split; [done|by constructor]|]. right. by exists None.
Qed.

Lemma tracked_step S S' m : tracked S -> inv c m (ctl S) -> m < 2 ^ 64 - 1 -> sstep S S' -> tracked S'.
Proof.
  intros HS Hi Hm Hst. pose proof HS as (Hmi & Ht & Hl & Ha & Ho & HT). destruct Hst.
  - by eapply tracked_orphan.
  - by eapply tracked_serve.
  - by eapply tracked_answer.
  - by eapply tracked_event.
  - split; [by apply mirrors_aside|]. repeat (split; [done|]). by apply (tracks_ext _ _ _ (server S)).
  - by apply tracked_fresh.
  - by apply tracked_fresh.
Qed.

Lemma sreach_tracked n S : sreach n S -> n < 2 ^ 64 -> tracked S.
Proof.
  induction 1 as [d e prev Hok Hp|n S S' HS IH Hst]; intros Hn; [apply tracked_fresh; [by eapply mirrors_new|done]|].
  destruct (sreach_ctl _ _ HS) as (m & Hm & H0 & Hr). apply (tracked_step S S' n); [apply IH; lia| |lia|done].
  apply (reach_later m); [done|lia..].
Qed.

(** ** The theorem *)

(** In every reachable state, phase by phase. *)
Lemma tracks_packets n S : sreach n S -> n < 2 ^ 64 -> ph (ctl S) <> Recovering ->
  let d := dat (ctl S) in let sw := server S in let a := active sw in
  current (dp_phase (dp sw)) = pair_of a /\ default ep0 (head (endpoints sw)) = a /\
  (B4 a = dB4 d \/ (ph (ctl S) = Switching /\ a = mkEndpoints (SwitchB4 d) (dAFTR (SwitchTo d)))) /\
  match ph (ctl S) with
  | PDraining => moved_on d sw (slipped S)
  | PSteady | Discovering => on d sw (slipped S) (Current d)
  | PPriming => on d sw (slipped S) (Current d) \/ moved_on d sw (slipped S)
  | _ => True
  end.
Proof.
  intros HS Hn Hp d sw a. destruct (sreach_tracked _ _ HS Hn) as ((_ & Hc & _) & Ht & _ & _ & _ & HT).
  split; [done|]. split; [done|]. subst d sw a. destruct (decide (ph (ctl S) = Switching)) as [Hs|Hs].
  - rewrite Hs in *. split; [|done]. destruct HT as (r & late & _ & _ & _ & Hr).
    destruct r as [v|]; [|left; by destruct Hr]. destruct Hr as (_ & e & _ & He).
    destruct e; [left; by destruct He|right; by destruct He].
  - destruct (tracks_b4 _ _ _ _ _ HT Hp Hs) as (Hb & _). split; [by left|].
    destruct (ph (ctl S)); try done; cbn [tracks] in HT.
    + by destruct HT.
    + by destruct HT.
    + destruct HT as [Ho|r Ho|r Ho|r Ho|r Htg Hr]; try by left.
      destruct r as [v|]; [|by left]. destruct Hr as (e & _ & He). by destruct e; [left|right].
    + by destruct HT.
Qed.

(** C19: What the controller takes the softwire to be is what packets see.  Whatever the
    datapath's calls failed on, whatever the discoveries and the kernel answered, and
    however often either process was restarted, once the controller knows where it is:
    the pair new flows use is the server's active one, and so is the companion tunnel's;
    its B4 is the controller's, a confirmed switch whose answer is under way apart; while
    draining its AFTR is the one being moved to; and in the other phases it is the
    controller's current one, or, in the middle of a cutover, the next.  The flows left
    behind in a drain are on the controller's current pair, and nothing is left behind in
    Steady.  All but the B4 and the drain's new AFTR is so unless a hard switch has failed
    since the last one that succeeded or the last migration that ended. *)
Theorem controller_tracks_packets n S : sreach n S -> n < 2 ^ 64 -> ph (ctl S) <> Recovering ->
  let d := dat (ctl S) in let sw := server S in let a := active sw in
  current (dp_phase (dp sw)) = pair_of a /\ default ep0 (head (endpoints sw)) = a /\
  (B4 a = dB4 d \/ (ph (ctl S) = Switching /\ a = mkEndpoints (SwitchB4 d) (dAFTR (SwitchTo d)))) /\
  match ph (ctl S) with
  | PDraining => moved_on d sw (slipped S)
  | PSteady | Discovering => on d sw (slipped S) (Current d)
  | PPriming => on d sw (slipped S) (Current d) \/ moved_on d sw (slipped S)
  | _ => True
  end.
Proof. apply tracks_packets. Qed.

(** ** Running it *)

(** Steps to run: the server handles the newest request, the older ones being handled; the
    controller gets the only answer, its state timeout, the poll of the B4, the end of a
    discovery. *)
Inductive act : Type :=
| Serve (nl : option (Addr -> outcome (Addr * bool))) | Answer | Tick | Poll | Found (v : rvalue).

Definition continue (S : system) (s1 : sys) (ev : event) (rs : list (option value)) : system :=
  let s' := turn c s1 ev in mkSystem s' (awaited s' rs) (orphans S) (server S) (slipped S).

Definition exec (a : act) (S : system) : option system :=
  let s := ctl S in
  match a with
  | Serve nl =>
    match orphans S, inflight s, replies S with
    | [], (_, q) :: _, None :: r2 =>
      if forallb (fun r => bool_decide (is_Some r)) r2
      then let '(v, sw) := handle nl q (server S) in Some (mkSystem s (Some v :: r2) [] sw (slips q v (slipped S)))
      else None
    | _, _, _ => None
    end
  | Answer =>
    match halted s, inflight s, replies S with
    | false, [(t, _)], [Some v] => Some (continue S (delivered_to s []) (Responded t (mkResponse (Replied v) None)) [])
    | _, _, _ => None
    end
  | Tick =>
    match halted s, timer s with
    | false, Some m => Some (continue S (mkSys (ph s) (dat s) (inflight s) None (attempt s) (b4timer s) (cap s)
        (postponed s) (halted s)) (StateTimeout m) (replies S))
    | _, _ => None
    end
  | Poll =>
    match halted s, b4timer s with
    | false, true => Some (continue S (mkSys (ph s) (dat s) (inflight s) (timer s) (attempt s) false (cap s)
        (postponed s) (halted s)) (Timeout b4Poll) (replies S))
    | _, _ => None
    end
  | Found v =>
    match halted s, attempt s with
    | false, true => Some (continue S (mkSys (ph s) (dat s) (inflight s) (timer s) false (b4timer s) (cap s)
        (postponed s) (halted s)) (AsyncResult v None) (replies S))
    | _, _ => None
    end
  end.

Fixpoint execs (l : list act) (S : system) : option system :=
  match l with [] => Some S | a :: l => S' ← exec a S; execs l S' end.

Lemma exec_step a S S' : exec a S = Some S' -> sstep S S'.
Proof.
  unfold exec, continue. destruct a as [nl| | | |v].
  - destruct (orphans S) eqn:Ho; [|done]. destruct (inflight (ctl S)) as [|[t q] l2] eqn:Hi; [done|].
    destruct (replies S) as [|[] r2] eqn:Hr; try done. destruct (forallb _ _) eqn:Hf; [|done].
    destruct (handle nl q (server S)) as [v sw] eqn:Hh. intros [= <-]. rewrite List.forallb_forall in Hf.
    apply (s_serve S nl [] t q l2 [] r2 v sw); try done. apply Forall_forall. intros r Hin%list_elem_of_In.
    by specialize (Hf _ Hin); apply bool_decide_eq_true in Hf.
  - destruct (halted (ctl S)) eqn:Hh; [done|]. destruct (inflight (ctl S)) as [|[t q] []] eqn:Hi; try done.
    destruct (replies S) as [|[v|] []] eqn:Hr; try done. intros [= <-]. by apply (s_answer S [] t q [] v).
  - destruct (halted (ctl S)) eqn:Hh; [done|]. destruct (timer (ctl S)) as [m|] eqn:Ht; [|done]. intros [= <-].
    apply (s_event S _ _ Hh); [|done]. rewrite <- Hh. by apply d_timer.
  - destruct (halted (ctl S)) eqn:Hh; [done|]. destruct (b4timer (ctl S)) eqn:Ht; [|done]. intros [= <-].
    apply (s_event S _ _ Hh); [|done]. rewrite <- Hh at 2. by apply d_b4.
  - destruct (halted (ctl S)) eqn:Hh; [done|]. destruct (attempt (ctl S)) eqn:Ht; [|done]. intros [= <-].
    apply (s_event S _ _ Hh); [|done]. rewrite <- Hh at 2. by apply d_attempt.
Qed.

Lemma execs_reach l n S S' : sreach n S -> execs l S = Some S' -> sreach (n + Z.of_nat (length l)) S'.
Proof.
  revert n S. induction l as [|a l IH]; intros n S HS; [intros [= <-]; by rewrite Z.add_0_r|].
  cbn [execs mbind option_bind]. destruct (exec a S) as [S1|] eqn:He; [|done]. intros Hl.
  pose proof (IH (n + 1) S1 (sreach_step _ _ _ HS (exec_step _ _ _ He)) Hl) as Hx.
  cbn [length]. by replace (n + Z.of_nat (Datatypes.S (length l))) with (n + 1 + Z.of_nat (length l)) by lia.
Qed.

End System.

(** ** At concrete inputs *)

(** A recovery, a discovery of another AFTR, priming, the cutover. *)
Definition migrating_run : list act :=
  [Serve None; Answer; Tick; Found (discoverRep (mkDiscovery aftr_2 [] 0 "") None 0); Serve None; Answer; Tick;
   Serve None; Answer; Serve None; Answer].
Definition S_draining : system := default (booted ep_1 loader_1) (execs c_1 migrating_run (booted ep_1 loader_1)).

Lemma S_draining_run : execs c_1 migrating_run (booted ep_1 loader_1) = Some S_draining.
Proof. vm_compute. reflexivity. Qed.

Lemma booted_reach l : dp_ok l -> dp_phase l = Steady 0 (pair_of ep_1) zeroNextHop -> sreach c_1 ep_1 0 (booted ep_1 l).
Proof. intros. by eapply sreach_start. Qed.

Lemma S_draining_reach : sreach c_1 ep_1 11 S_draining.
Proof. exact (execs_reach c_1 ep_1 migrating_run 0 _ _ (booted_reach loader_1 w_1_Inv loader_1_steady) S_draining_run). Qed.

Lemma controller_tracks_packets_witness :
  ph (ctl S_draining) = PDraining /\ AFTR (active (server S_draining)) = dAFTR (Next (dat (ctl S_draining))) /\
  current (dp_phase (dp (server S_draining))) = pair_of (active (server S_draining)).
Proof.
  assert (ph (ctl S_draining) <> Recovering) as Hp by (vm_compute; discriminate).
  pose proof (controller_tracks_packets c_1 ep_1 11 S_draining S_draining_reach eq_refl Hp) as (Hc & _ & _ & Hn).
  split; [vm_compute; reflexivity|]. split; [|exact Hc].
  assert (ph (ctl S_draining) = PDraining) as Hd by (vm_compute; reflexivity). rewrite Hd in Hn. exact (moved_on_next _ _ _ Hn).
Defined.

(** The exception is real: the WAN is renumbered in the drain and the switch fails once;
    the controller, back in Steady, takes the softwire to be on the old AFTR, where no new
    flow goes. *)
Definition slow_loader (n : nat) : Loader :=
  mkLoader (SetB4Config cfg_1 (zero_world (replicate n false ++ [true]))).2 (fun _ => Ret [1; 2]) [Some 10; None].
Definition renumbered_run : list act :=
  migrating_run ++ [Poll; Serve (Some (fun _ => Ret (b4_2, true))); Answer; Serve None; Answer].
Definition S_slipped : system := default (booted ep_1 loader_1) (execs c_1 renumbered_run (booted ep_1 (slow_loader 16))).

Lemma S_slipped_reach : sreach c_1 ep_1 16 S_slipped.
Proof.
  refine (execs_reach c_1 ep_1 renumbered_run 0 (booted ep_1 (slow_loader 16)) S_slipped (booted_reach _ _ _) _).
  - apply (SetB4_created cfg_1 (replicate 16 false ++ [true])). vm_compute. reflexivity.
  - vm_compute. reflexivity.
  - vm_compute. reflexivity.
Qed.

Lemma slip_is_real : exists n S, sreach c_1 ep_1 n S /\ ph (ctl S) = PSteady /\ inflight (ctl S) = [] /\
  slipped S = true /\ AFTR (active (server S)) <> dAFTR (Current (dat (ctl S))).
Proof.
  exists 16, S_slipped. split; [exact S_slipped_reach|].
  repeat (split; [vm_compute; reflexivity|]). vm_compute. discriminate.
Qed.
