(* ===== verification/Endtoend.v ===== *)
(** From the controller's decisions to the bytes on the wire: the system of Softwirectl.v
    over the maps SetB4Config created, and the encapsulation of Encap.v on those maps. *)

From S2P Require Import Prelude Stats Wire Netip Checksum Packet Datapath Migration Softwire Controller Softwirectl Tcpmss Xdp Encap.

Local Open Scope Z_scope.

(** The maps SetB4Config leaves, seen as a phase. *)
Lemma SetB4_phase cfg fs w : SetB4Config cfg (zero_world fs) = (Ret tt, w) ->
  phase_of (now_seen w) = Steady 0 (pair (cB4Addr cfg) (AFTRAddr cfg)) zeroNextHop.
Proof.
  intros Hw. cut (wp (SetB4Config cfg) (fun r w' => r = Ret tt ->
    now_seen w' = (pack (mkCtrl 0 0 migSteady 0), <[0 := pair (cB4Addr cfg) (AFTRAddr cfg)]> ∅)) (zero_world fs)).
  { unfold wp. rewrite Hw. cbn [fst snd]. intros Hs. rewrite (Hs eq_refl). unfold phase_of. cbn [fst snd].
    change (unpackMigrationCtrl (pack (mkCtrl 0 0 migSteady 0))) with (mkCtrl 0 0 migSteady 0). cbn [activeSlot mstate epoch].
    change (migSteady =? migSteady) with true. cbv iota. unfold hop. change (other 0) with 1.
    by rewrite lookup_insert_eq, lookup_insert_ne. }
  apply wp_bind, wp_lift. destruct (validateSoftwireAddrs _ _) as [[]| |] eqn:Ha; [|done..].
  apply wp_bind. unfold wp at 1, setAuto. cbn -[wp writeNextHop].
  apply wp_bind, wp_mapop; [done|]. intros. cbn -[wp writeNextHop].
  apply wp_bind, wp_bind, wp_mapop; [done|]. cbn -[wp].
  apply wp_bind. unfold slotIsLive. cbn -[wp]. apply wp_bind, wp_mapop; [done|]. cbn -[wp].
  apply wp_ret. apply wp_bind, wp_mapop; [done|]. cbn -[wp As16]. apply wp_mapop; [done|]. cbn -[wp As16].
  apply wp_bind, wp_mapop; [done|]. cbn -[wp As16]. apply wp_mapop; [done|]. cbn -[As16]. intros _. done.
Qed.

(** The pair of the slot a flow is sent through: the active one, or, for a flow recorded
    before a cutover, the one being drained. *)
Lemma picked_pair w key now full : snap_ok (now_seen w) ->
  let nh := hop (hops w) (picked (ctrl w) key now full (affinity w)) in
  nh = current (phase_of (now_seen w)) \/
  (exists e cur, phase_of (now_seen w) = Draining e cur nh) /\ is_Some (affinity w !! key).
Proof.
  intros Hs. pose proof (snap_ok_unpack (ctrl w) (hops w) Hs) as (_ & _ & _ & Hp). cbv zeta.
  set (c := unpackMigrationCtrl (ctrl w)) in *.
  assert (current (phase_of (now_seen w)) = hop (hops w) (activeSlot c)) as Hcur
    by (unfold phase_of; cbn [fst snd now_seen]; fold c; by destruct (_ =? _); [|destruct (_ =? _)]).
  destruct (picked_cases (ctrl w) key now full (affinity w)) as [-> | [Hm Hpk]]; [by left; rewrite Hcur|].
  fold c in Hm, Hpk. destruct (decide (oldSlot c = activeSlot c)) as [He|Hne]; [left; by rewrite Hcur, Hpk, He|]. right. split.
  - rewrite Hpk. destruct Hp as [[_ ?]|[[_ [? _]]|(_ & Ho & _)]]; [done..|]. eexists _, _.
    rewrite Ho. unfold phase_of. cbn [fst snd now_seen]. fold c. by rewrite Hm.
  - destruct (affinity w !! key) as [fa|] eqn:Ea; [by eexists|]. destruct Hne. rewrite <- Hpk.
    unfold picked, pick_softwire_slot. fold c. rewrite Hm. cbn. unfold touch_flow_affinity. fold c. by rewrite Ea, Hm.
Qed.

Lemma ld16_ext p p' i : zlen p = zlen p' -> 0 <= i -> i + 2 <= zlen p' -> (forall j, i <= j < i + 2 -> at8 p j = at8 p' j) ->
  ld16 p i = ld16 p' i.
Proof. intros Hz Hi Hl Hj. unfold ld16. rewrite (sub_ext p p' i 2); (done || lia). Qed.

(** A packet of a slot's pair is a packet of the softwire. *)
Lemma peer_found y o slot b4 aftr : slot = 0 \/ slot = 1 -> hop (hops (Xdp.maps y)) slot = pair b4 aftr ->
  saddr6 (pkt y) o = As16 aftr -> daddr6 (pkt y) o = As16 b4 -> find_dslite_peer_nh y o <> None.
Proof.
  intros Hs Hh Ha Hb. assert (negb (Valid (hop (hops (Xdp.maps y)) slot) =? 0) &&
    bool_decide (daddr6 (pkt y) o = B4Addr (hop (hops (Xdp.maps y)) slot)) &&
    bool_decide (saddr6 (pkt y) o = AftrAddr (hop (hops (Xdp.maps y)) slot)) = true) as Hf.
  { rewrite Hh, Ha, Hb. cbn [Valid B4Addr AftrAddr pair]. by rewrite !bool_decide_eq_true_2. }
  unfold find_dslite_peer_nh. destruct Hs as [-> | ->]; rewrite Hf; [done|]. by destruct (negb (Valid (hop _ 0) =? 0) && _ && _).
Qed.

Lemma picked_slot w key now full : snap_ok (now_seen w) -> let slot := picked (ctrl w) key now full (affinity w) in slot = 0 \/ slot = 1.
Proof.
  intros Hs. pose proof (snap_ok_unpack (ctrl w) (hops w) Hs) as (H1 & _ & _ & Hp). cbv zeta.
  destruct (picked_cases (ctrl w) key now full (affinity w)) as [-> | [Hm ->]]; [done|].
  destruct Hp as [[_ ->]|[[Hp _]|(_ & -> & _)]]; [done|by rewrite Hp in Hm|]. destruct H1 as [-> | ->]; [by right|by left].
Qed.

Section EndToEnd.
Context {K : Xdp.Kernel} {KL : KernelLaws}.
Variables (c : Controller) (ep0 : Endpoints).

(** The program's start is one of the system's. *)
Lemma created_start cfg fs w pc ck : SetB4Config cfg (zero_world fs) = (Ret tt, w) ->
  sreach c (mkEndpoints (cB4Addr cfg) (AFTRAddr cfg)) 0 (booted (mkEndpoints (cB4Addr cfg) (AFTRAddr cfg)) (mkLoader w pc ck)).
Proof.
  intros Hw. apply (sreach_start c _ _ 0 zeroNextHop); [exact (SetB4_created cfg fs w Hw)|exact (SetB4_phase cfg fs w Hw)].
Qed.

(** The pair a packet of the LAN is tunnelled between: the softwire the controller is on,
    or one of the two it is moving between. *)
Lemma pair_tracked n S x o : sreach c ep0 n S -> n < 2 ^ 64 -> slipped S = false ->
  Xdp.maps x = Softwire.maps (dp (server S)) ->
  let d := dat (ctl S) in
  let nh := hop (hops (Xdp.maps x)) (slot_of o x) in
  match ph (ctl S) with
  | PSteady | Discovering => nh = pair (dB4 d) (dAFTR (Current d))
  | PPriming | PDraining =>
    nh = pair (dB4 d) (dAFTR (Next d)) \/
    nh = pair (dB4 d) (dAFTR (Current d)) /\
      (ph (ctl S) = PDraining -> is_Some (affinity (Xdp.maps x) !! build_flow_key (pkt x) o false))
  | _ => True
  end.
Proof.
  intros HS Hn Hsl Hx. cbv zeta. destruct (decide (ph (ctl S) = Recovering)) as [->|Hp]; [done|].
  pose proof (tracks_packets c ep0 n S HS Hn Hp) as (Hc & _ & _ & Hm).
  destruct (sreach_tracked c ep0 n S HS Hn) as ((Hok & _) & _). destruct Hok as [Hok _].
  assert (dp_phase (dp (server S)) = phase_of (now_seen (Xdp.maps x))) as Hph by by rewrite Hx.
  rewrite Hph in Hc. change (snap_ok (now_seen (Softwire.maps (dp (server S))))) in Hok. rewrite <- Hx in Hok.
  pose proof (picked_pair (Xdp.maps x) (build_flow_key (pkt x) o false) (default 0 (head (Xdp.clock x)))
    (affinity_full (affinity (Xdp.maps x))) Hok) as Hpk. cbv zeta in Hpk. fold (slot_of o x) in Hpk.
  rewrite Hc in Hpk. clear Hc Hok.
  assert (forall y, on (dat (ctl S)) (server S) (slipped S) y ->
    hop (hops (Xdp.maps x)) (slot_of o x) = pair (dB4 (dat (ctl S))) (dAFTR y)) as Hon.
  { intros y [Hb Hy]. destruct (Hy Hsl) as [Ha Hs]. destruct Hpk as [->|[(e & cur & Hd) _]].
    - unfold pair_of. by rewrite Hb, Ha.
    - rewrite <- Hph in Hd. by destruct (Hs _ _ _ Hd). }
  assert (moved_on (dat (ctl S)) (server S) (slipped S) ->
    hop (hops (Xdp.maps x)) (slot_of o x) = pair (dB4 (dat (ctl S))) (dAFTR (Next (dat (ctl S)))) \/
    hop (hops (Xdp.maps x)) (slot_of o x) = pair (dB4 (dat (ctl S))) (dAFTR (Current (dat (ctl S)))) /\
      is_Some (affinity (Xdp.maps x) !! build_flow_key (pkt x) o false)) as Hmv.
  { intros [Ha Hold]. destruct Hpk as [->|[(e & cur & Hd) Hf]]; [left; by rewrite Ha|right; split; [|done]].
    rewrite <- Hph in Hd. destruct (Hold _ _ _ Hd) as (ep & -> & Hb & He). unfold pair_of. by rewrite Hb, He. }
  destruct (ph (ctl S)); try done; [by apply Hon|by apply Hon| |].
  - destruct Hm as [Hm|Hm]; [right; split; [by apply Hon|done]|]. destruct (Hmv Hm) as [?|[? ?]]; auto.
  - destruct (Hmv Hm) as [?|[? ?]]; auto.
Qed.

(** C1: The softwire carries out the controller's decisions, from its state to the bytes
    on the wire, in the phases Steady, Discovering, Priming and Draining of any run in which
    no hard switch has failed since the last that succeeded or the last migration that
    ended.  So not while a restarted controller is still Recovering, nor while a hard switch
    is in flight (Switching: packets move to the new B4 before the controller has the
    answer), nor in the states such a failure leaves ([Softwirectl.slip_is_real]).  Otherwise
    whatever has happened to the controller, the server and the datapath
    since the maps were created -- migrations, renumberings, restarts, failures -- an IPv4
    packet of the LAN leaves the WAN inside an IPv6 header from the controller's B4 to the
    AFTR it takes the softwire to be on: its current one in Steady; in a migration the one
    being moved to, or the current one, for which a flow that is left behind in the drain
    must have been recorded.  And what that AFTR answers to that B4, the slots unchanged, is
    taken for the softwire's. *)
Theorem softwire_carries_decision n S x o i : sreach c ep0 n S -> n < 2 ^ 64 -> slipped S = false ->
  ph (ctl S) <> Recovering -> ph (ctl S) <> Switching -> Xdp.maps x = Softwire.maps (dp (server S)) ->
  is_bytes (pkt x) -> parse_l2_ipv4 (pkt x) = Parsed o -> (do_xdp_dslite_encap x).1 = tx_port i ->
  let d := dat (ctl S) in
  i = WanIfindex (b4cfg (Xdp.maps x)) /\
  exists aftr dmac smac,
    pkt (do_xdp_dslite_encap x).2 =
      ethhdr dmac smac ETH_P_IPV6 ++ ipv6hdr (As16 (dB4 d)) (As16 aftr) IPPROTO_IPIP (ld16 (pkt x) (o + 2)) ++
      drop (Z.to_nat o) (decrease_ipv4_ttl (clamped (mkB4 (As16 (dB4 d)) (As16 aftr) (b4cfg (Xdp.maps x))) o (pkt x)) o) /\
    match ph (ctl S) with
    | PSteady | Discovering => aftr = dAFTR (Current d)
    | _ => aftr = dAFTR (Next d) \/ aftr = dAFTR (Current d) /\
             (ph (ctl S) = PDraining -> is_Some (affinity (Xdp.maps x) !! build_flow_key (pkt x) o false))
    end /\
    forall y, hops (Xdp.maps y) = hops (Xdp.maps x) -> saddr6 (pkt y) 14 = As16 aftr -> daddr6 (pkt y) 14 = As16 (dB4 d) ->
      find_dslite_peer_nh y 14 <> None.
Proof.
  intros HS Hn Hsl Hp Hsw Hx Hb Hparse Ha d. pose proof (sreach_tracked c ep0 n S HS Hn) as (((Hok & _) & _) & _).
  assert (snap_ok (now_seen (Xdp.maps x))) as Hs by (rewrite Hx; exact Hok).
  pose proof (do_encap_cases x o Hb Hparse Hs) as Hcases. cbv zeta in Hcases.
  destruct Hcases as [[Hpass _]|(_ & _ & _ & _ & Hcok & Hy & Hr)]; [congruence|].
  pose proof (pair_tracked n S x o HS Hn Hsl Hx) as Hpair. cbv zeta in Hpair. fold d in Hpair.
  set (nh := hop (hops (Xdp.maps x)) (slot_of o x)) in *. set (y := (pick_slot _ _ _).2) in *.
  pose proof (encapsulate_spec o (slot_of o x) (cfg_of (slot_of o x) x) y) as He. cbv zeta in He. rewrite Hy in He.
  specialize (He Hb (parse_l2_ipv4_at _ _ Hb Hparse) Hcok). rewrite <- Hr in He. rewrite Ha in He.
  destruct He as (Hi & _ & _ & _ & q & _ & Hpkt). rewrite Hy in Hpkt. split; [exact Hi|].
  destruct (parse_l2_ipv4_at _ _ Hb Hparse) as (Ho & Hlen & Hl & _).
  destruct (clamped_spec (cfg_of (slot_of o x) x) o (pkt x) Hb ltac:(lia) ltac:(lia)) as (_ & Hz & Hj).
  unfold encapsulated in Hpkt. rewrite (ld16_ext _ (pkt x)) in Hpkt by (rewrite ?Hz; try (intros; apply Hj); lia).
  assert (forall a, nh = pair (dB4 d) a -> cfg_of (slot_of o x) x = mkB4 (As16 (dB4 d)) (As16 a) (b4cfg (Xdp.maps x))) as Hcfg.
  { intros a E. unfold cfg_of. fold nh. by rewrite E. }
  assert (forall a, nh = pair (dB4 d) a -> forall y, hops (Xdp.maps y) = hops (Xdp.maps x) -> saddr6 (pkt y) 14 = As16 a ->
    daddr6 (pkt y) 14 = As16 (dB4 d) -> find_dslite_peer_nh y 14 <> None) as Hback.
  { intros a E z Hz'. apply (peer_found z 14 (slot_of o x)); [exact (picked_slot _ _ _ _ Hs)|rewrite Hz'; exact E]. }
  assert (forall a (P : Prop), P -> nh = pair (dB4 d) a -> exists dmac smac,
    pkt (do_xdp_dslite_encap x).2 =
      ethhdr dmac smac ETH_P_IPV6 ++ ipv6hdr (As16 (dB4 d)) (As16 a) IPPROTO_IPIP (ld16 (pkt x) (o + 2)) ++
      drop (Z.to_nat o) (decrease_ipv4_ttl (clamped (mkB4 (As16 (dB4 d)) (As16 a) (b4cfg (Xdp.maps x))) o (pkt x)) o) /\
    P /\ forall y, hops (Xdp.maps y) = hops (Xdp.maps x) -> saddr6 (pkt y) 14 = As16 a -> daddr6 (pkt y) 14 = As16 (dB4 d) ->
      find_dslite_peer_nh y 14 <> None) as Hend.
  { intros a P HP E. rewrite (Hcfg _ E) in Hpkt. eexists _, _. split; [exact Hpkt|]. split; [exact HP|]. by apply Hback. }
  clear Hpkt Hback Hcfg. destruct (ph (ctl S)); try done.
  1, 2: exists (dAFTR (Current d)); by apply Hend.
  all: destruct Hpair as [E|[E Hf]]; [exists (dAFTR (Next d)); apply Hend; [by left|exact E]|
    exists (dAFTR (Current d)); apply Hend; [by right|exact E]].
Qed.
End EndToEnd.

(** ** At concrete inputs *)

Definition loader_x : Loader := mkLoader w_x (fun _ => Ret [1; 2]) [Some 10; None].
Definition S_end : system := default (booted ep_1 loader_x) (execs c_1 migrating_run (booted ep_1 loader_x)).
Definition x_end : X :=
  mkX (pkt (x_up 8)) 5 (Softwire.maps (dp (server S_end))) ∅ (mkBucket 0 0) (mkFanout 0 0 ∅) (mkFanout 0 0 ∅) 0
    [1000000000; 1000000001; 1000000002].

Lemma S_end_reach : sreach c_1 ep_1 11 S_end.
Proof.
  apply (execs_reach c_1 ep_1 migrating_run 0 (booted ep_1 loader_x)); [|vm_compute; reflexivity].
  apply (sreach_start c_1 ep_1 loader_x 0 zeroNextHop); [|vm_compute; reflexivity].
  assert (SetB4Config cfg_x (zero_world []) = (Ret tt, (SetB4Config cfg_x (zero_world [])).2)) as E by (vm_compute; reflexivity).
  exact (Inv_runs [SetLAN 5 lan_x] _ (SetB4_created _ _ _ E)).
Qed.

(** In the drain, the packet of a flow that was not recorded goes to the new AFTR. *)
Lemma softwire_carries_decision_witness : ph (ctl S_end) = PDraining /\ exists aftr dmac smac inner,
  pkt (@do_xdp_dslite_encap kernel_1 x_end).2 =
    ethhdr dmac smac ETH_P_IPV6 ++ ipv6hdr (As16 (dB4 (dat (ctl S_end)))) (As16 aftr) IPPROTO_IPIP 36 ++ inner /\
  (aftr = dAFTR (Next (dat (ctl S_end))) \/ is_Some (affinity (Xdp.maps x_end) !! build_flow_key (pkt x_end) 14 false)).
Proof.
  assert (ph (ctl S_end) = PDraining) as Hp by (vm_compute; reflexivity). split; [exact Hp|].
  pose proof (@softwire_carries_decision kernel_1 kernel_1_laws c_1 ep_1 11 S_end x_end 14 3 S_end_reach eq_refl) as Hw.
  destruct Hw as (_ & aftr & dmac & smac & Hpkt & Haftr & _).
  - vm_compute. reflexivity.
  - rewrite Hp. discriminate.
  - rewrite Hp. discriminate.
  - reflexivity.
  - apply (bool_decide_unpack _). vm_compute. reflexivity.
  - vm_compute. reflexivity.
  - vm_compute. reflexivity.
  - exists aftr, dmac, smac. eexists. split; [exact Hpkt|]. rewrite Hp in Haftr. destruct Haftr as [?|[_ Hs]]; auto.
Defined.
