(* ===== verification/Dhcpv6.v ===== *)
(** DHCPv6 messages and exchanges: src/pkg/dhcpv6 (options.go, message.go, duid.go,
    exchange.go, retransmit.go, client.go).  The codec, what makes a message the
    answer of an exchange, and the timing of each exchange. *)

From S2P Require Import Prelude Wire Netip.

Local Open Scope Z_scope.

(** ** Options (options.go) *)

Definition OptionClientID : Z := 1.
Definition OptionServerID : Z := 2.
Definition OptionORO : Z := 6.
Definition OptionElapsedTime : Z := 8.
Definition OptionStatusCode : Z := 13.
Definition OptionDNSServers : Z := 23.
Definition OptionIAPD : Z := 25.
Definition OptionIAPrefix : Z := 26.
Definition OptionInformationRefreshTime : Z := 32.
Definition OptionAFTRName : Z := 64.

Definition maxElapsedTime : Z := 0xffff.

Definition Second : Z := 1000000000.
Definition Millisecond : Z := 1000000.

Record Option_ : Type := mkOption { Code : Z; Data : bytes }.

#[export] Instance Option_eq_dec : EqDecision Option_.
Proof. solve_decision. Defined.

Abbreviation Options := (list Option_).

(** A DUID is opaque bytes. *)
Abbreviation DUID := (list Z).

(** The first option with the given code. *)
Fixpoint Get (o : Options) (code : Z) : option Option_ :=
  match o with
  | [] => None
  | opt :: o' => if Code opt =? code then Some opt else Get o' code
  end.

Definition Options_Marshal (o : Options) : bytes :=
  flat_map (fun opt => be 2 (Code opt) ++ be 2 (zlen (Data opt)) ++ Data opt) o.

(** Each round of parseOptions takes 4 bytes at least, so [S (length b)] rounds are
    enough (running out would show as a panic, and [options_total] excludes
    it). *)
Fixpoint parseOptions_loop (fuel : nat) (b : bytes) (opts : Options) : outcome Options :=
  match fuel with
  | O => Panic
  | S fuel' =>
    if 0 <? zlen b then
      if zlen b <? 4 then Fail "dhcpv6: truncated option header"
      else
        code ← get 2 b;
        optLen ← from b 2 ≫= get 2;
        if zlen b <? 4 + optLen then Fail "dhcpv6: option length exceeds remaining bytes"
        else
          data ← slice b 4 (4 + optLen);
          rest ← from b (4 + optLen);
          parseOptions_loop fuel' rest (opts ++ [mkOption code data])
    else Ret opts
  end.

Definition parseOptions (b : bytes) : outcome Options := parseOptions_loop (S (length b)) b [].

Definition ParseSubOptions (b : bytes) : outcome Options := parseOptions b.

Definition NewClientIDOption (d : DUID) : Option_ := mkOption OptionClientID d.

Definition NewORO (codes : list Z) : Option_ := mkOption OptionORO (flat_map (be 2) codes).

(** Hundredths of a second, saturating both ways; Go's division truncates. *)
Definition NewElapsedTimeOption (sinceFirstSend : Z) : Option_ :=
  let centiseconds := Z.quot sinceFirstSend (10 * Millisecond) in
  let centiseconds := if maxElapsedTime <? centiseconds then maxElapsedTime else centiseconds in
  let centiseconds := if centiseconds <? 0 then 0 else centiseconds in
  mkOption OptionElapsedTime (be 2 centiseconds).

Definition ClientID (o : Options) : option DUID := Data <$> Get o OptionClientID.
Definition ServerID (o : Options) : option DUID := Data <$> Get o OptionServerID.

(** Every 16 bytes of the option, [n] of them. *)
Fixpoint DNSServers_loop (n : nat) (data : bytes) (i : Z) : outcome (list Addr) :=
  match n with
  | O => Ret []
  | S n' =>
    b ← slice data i (i + 16);
    match AddrFromSlice b with
    | None => Fail "dhcpv6: malformed DNS server address"
    | Some a => rest ← DNSServers_loop n' data (i + 16); Ret (a :: rest)
    end
  end.

(** [Ret None]: the option is absent.  [Fail]: it is there, malformed. *)
Definition DNSServers (o : Options) : outcome (option (list Addr)) :=
  match Get o OptionDNSServers with
  | None => Ret None
  | Some opt =>
    if negb (zlen (Data opt) mod 16 =? 0) then Fail "dhcpv6: DNS servers option length is not a multiple of 16"
    else servers ← DNSServers_loop (Z.to_nat (zlen (Data opt) / 16)) (Data opt) 0; Ret (Some servers)
  end.

Definition InformationRefreshTime (o : Options) : option Z :=
  match Get o OptionInformationRefreshTime with
  | Some opt => if zlen (Data opt) =? 4 then Some (unbe (Data opt) * Second) else None
  | None => None
  end.

(** ** Messages (message.go) *)

Definition MessageTypeSolicit : Z := 1.
Definition MessageTypeAdvertise : Z := 2.
Definition MessageTypeRequest : Z := 3.
Definition MessageTypeRenew : Z := 5.
Definition MessageTypeRebind : Z := 6.
Definition MessageTypeReply : Z := 7.
Definition MessageTypeRelease : Z := 8.
Definition MessageTypeInformationRequest : Z := 11.

(** A transaction ID is its three bytes. *)
Abbreviation TransactionID := (list Z).

(** From the generator's 32-bit draw. *)
Definition NewTransactionID (v : Z) : TransactionID := [u8 (Z.shiftr v 16); u8 (Z.shiftr v 8); u8 v].

Record Message : Type := mkMessage { Type_ : Z; XID : TransactionID; Opts : Options }.

#[export] Instance Message_eq_dec : EqDecision Message.
Proof. solve_decision. Defined.

(** Its error is always nil. *)
Definition MarshalBinary (m : Message) : outcome bytes :=
  Ret (u8 (Type_ m) :: field 3 (XID m) ++ Options_Marshal (Opts m)).

Definition ParseMessage (b : bytes) : outcome Message :=
  if zlen b <? 4 then Fail "dhcpv6: message too short"
  else
    optb ← from b 4;
    match parseOptions optb with
    | Ret opts => t ← idx b 0; x ← slice b 1 4; Ret (mkMessage t (field 3 x) opts)
    | Fail e => Fail ("dhcpv6: parsing options: " +:+ e)
    | Panic => Panic
    end.

(** ** DUIDs (duid.go) *)

Definition HardwareTypeEthernet : Z := 1.
Definition duidTypeLL : Z := 3.

Definition NewDUIDLL (hardwareType : Z) (mac : bytes) : DUID :=
  [u8 (Z.shiftr duidTypeLL 8); u8 duidTypeLL; u8 (Z.shiftr hardwareType 8); u8 hardwareType] ++ mac.

Definition DUIDLLFromInterface (mac : bytes) : outcome DUID :=
  if zlen mac =? 0 then Fail "interface has no hardware address"
  else Ret (NewDUIDLL HardwareTypeEthernet mac).

(** ** Exchanges (exchange.go) *)

Record Timing : Type := mkTiming { InitialDelayMax : Z; IRT : Z; MRT : Z; MRC : Z }.

Record Exchange : Type := mkExchange {
  xType : Z; Expect : Z; xOptions : Options; xTiming : Timing }.

Definition Exchange_Message (x : Exchange) (xid : TransactionID) (clientID : DUID) (elapsed : Z) : Message :=
  mkMessage (xType x) xid (NewClientIDOption clientID :: xOptions x ++ [NewElapsedTimeOption elapsed]).

Definition Answers (x : Exchange) (reply : Message) (xid : TransactionID) (clientID : DUID) : bool :=
  if negb (Type_ reply =? Expect x) || negb (bool_decide (XID reply = xid)) then false
  else match ServerID (Opts reply) with
  | None => false
  | Some _ =>
    match ClientID (Opts reply) with
    | Some echoed => bool_decide (echoed = clientID)
    | None => true
    end
  end.

(** ** Retransmission (retransmit.go) *)

Definition InfMaxDelay : Z := 1 * Second.
Definition InfTimeout : Z := 1 * Second.
Definition InfMaxRT : Z := 3600 * Second.
Definition SolMaxDelay : Z := 1 * Second.
Definition SolTimeout : Z := 1 * Second.
Definition SolMaxRT : Z := 3600 * Second.
Definition ReqTimeout : Z := 1 * Second.
Definition ReqMaxRT : Z := 30 * Second.
Definition ReqMaxRC : Z := 10.
Definition RenTimeout : Z := 10 * Second.
Definition RenMaxRT : Z := 600 * Second.
Definition RebTimeout : Z := 10 * Second.
Definition RebMaxRT : Z := 600 * Second.
Definition RelTimeout : Z := 1 * Second.
Definition RelMaxRC : Z := 5.

(** The generator: a state of type [rng], a 32-bit draw, and the two places that
    scale a Float64 draw in floating point, [jitter] ([-0.1, 0.1] of the base) and
    the initial delay ([0, 1] of the maximum). *)
Record Rand (rng : Type) : Type := mkRand {
  Uint32 : rng -> Z * rng;
  jitter : Z -> rng -> Z * rng;
  scaled : Z -> rng -> Z * rng }.
Arguments Uint32 {rng} _ _.
Arguments jitter {rng} _ _ _.
Arguments scaled {rng} _ _ _.

Section Retransmit.
Context {rng : Type} (R : Rand rng).

Definition InitialDelay (max : Z) (r : rng) : Z * rng :=
  if max =? 0 then (0, r) else scaled R max r.

Definition FirstRT (irt : Z) (r : rng) : Z * rng :=
  let '(j, r) := jitter R irt r in (i64 (irt + j), r).

Definition NextRT (prev mrt : Z) (r : rng) : Z * rng :=
  let '(j, r) := jitter R prev r in
  let rt := i64 (2 * prev + j) in
  if negb (mrt =? 0) && (mrt <? rt)
  then let '(j, r) := jitter R mrt r in (i64 (mrt + j), r)
  else (rt, r).
End Retransmit.

(** ** The exchanges a client runs (client.go) *)

Definition InformationRequest (requestedOptions : list Z) : Exchange :=
  mkExchange MessageTypeInformationRequest MessageTypeReply [NewORO requestedOptions]
    (mkTiming InfMaxDelay InfTimeout InfMaxRT 0).
Definition Solicit (extraOptions : Options) : Exchange :=
  mkExchange MessageTypeSolicit MessageTypeAdvertise extraOptions (mkTiming SolMaxDelay SolTimeout SolMaxRT 0).
Definition Request (extraOptions : Options) : Exchange :=
  mkExchange MessageTypeRequest MessageTypeReply extraOptions (mkTiming 0 ReqTimeout ReqMaxRT ReqMaxRC).
Definition Renew (extraOptions : Options) : Exchange :=
  mkExchange MessageTypeRenew MessageTypeReply extraOptions (mkTiming 0 RenTimeout RenMaxRT 0).
Definition Rebind (extraOptions : Options) : Exchange :=
  mkExchange MessageTypeRebind MessageTypeReply extraOptions (mkTiming 0 RebTimeout RebMaxRT 0).
Definition Release (extraOptions : Options) : Exchange :=
  mkExchange MessageTypeRelease MessageTypeReply extraOptions (mkTiming 0 RelTimeout 0 RelMaxRC).

(** What Exchange returns, and Release's reading of it: an exhausted exchange is a
    release all the same. *)
Inductive result : Type := Answered (m : Message) | ErrExhausted | ErrOther (e : string).

#[export] Instance result_eq_dec : EqDecision result.
Proof. solve_decision. Defined.

Definition Release_result (r : result) : option string :=
  match r with Answered _ => None | ErrExhausted => None | ErrOther e => Some e end.

(** ** The codec *)

Definition opt_wf (opt : Option_) : Prop :=
  0 <= Code opt < 2 ^ 16 /\ zlen (Data opt) < 2 ^ 16 /\ is_bytes (Data opt).

#[export] Instance opt_wf_dec opt : Decision (opt_wf opt).
Proof. unfold opt_wf. apply _. Defined.

Definition message_wf (m : Message) : Prop :=
  is_byte (Type_ m) /\ zlen (XID m) = 3 /\ is_bytes (XID m) /\ Forall opt_wf (Opts m).

#[export] Instance message_wf_dec m : Decision (message_wf m).
Proof. unfold message_wf. apply _. Defined.

Lemma get2_bounds b v : is_bytes b -> get 2 b = Ret v -> 0 <= v < 2 ^ 16 /\ take 2 b = be 2 v.
Proof.
  intros Hb H. unfold get in H. change (Z.of_nat 2) with 2 in H. destruct (slice b 0 2) as [c| |] eqn:E; [|discriminate..]. cbn in H. injection H as <-.
  pose proof (is_bytes_slice _ _ _ _ Hb E) as Hc. apply slice_inv in E as (_ & Hd & Hl). cbn in Hd. subst c.
  rewrite drop_0 in *. change (2 - 0) with 2 in *. pose proof (unbe_bound _ Hc) as Hu. rewrite Hl in Hu.
  split; [exact Hu|]. rewrite <- (be_unbe (take 2 b)) at 1 by exact Hc. f_equal. unfold zlen in Hl.
  change (Z.to_nat 2) with 2%nat in *. lia.
Qed.

Lemma parseOptions_loop_total fuel : forall b acc, (length b < fuel)%nat -> is_bytes b ->
  no_panic (parseOptions_loop fuel b acc) = true.
Proof.
  induction fuel as [|fuel IH]; intros b acc Hf Hb; [lia|]. cbn [parseOptions_loop].
  destruct (Z.ltb_spec 0 (zlen b)); [|done]. destruct (Z.ltb_spec (zlen b) 4); [done|].
  apply bind_no_panic; [apply get_no_panic; lia|]. intros code _.
  apply bind_no_panic.
  { rewrite from_ok, bind_ret by lia. apply get_no_panic. rewrite zlen_drop. lia. }
  intros optLen HoL. rewrite from_ok, bind_ret in HoL by lia.
  apply get2_bounds in HoL as [HoL _]; [|auto with wire].
  destruct (Z.ltb_spec (zlen b) (4 + optLen)); [done|]. rewrite slice_ok, bind_ret by lia.
  rewrite from_ok, bind_ret by lia. apply IH; [|auto with wire]. rewrite length_drop. unfold zlen in *. lia.
Qed.

Lemma options_total b : is_bytes b -> no_panic (parseOptions b) = true.
Proof. intros. apply parseOptions_loop_total; [lia|done]. Qed.

(** The decoder reads back what the encoder writes... *)
Lemma parse_marshal_loop o : forall fuel acc, Forall opt_wf o -> (length (Options_Marshal o) < fuel)%nat ->
  parseOptions_loop fuel (Options_Marshal o) acc = Ret (acc ++ o).
Proof.
  induction o as [|[code data] o IH]; intros fuel acc Ho Hf; (destruct fuel as [|fuel]; [lia|]);
    cbn [parseOptions_loop].
  { cbn. by rewrite app_nil_r. }
  inversion Ho as [|? ? (Hc & Hl & Hd) Ho']; subst. cbn [Code Data] in *.
  assert (Options_Marshal (mkOption code data :: o) = be 2 code ++ be 2 (zlen data) ++ data ++ Options_Marshal o) as Hm.
  { cbn. by rewrite <- !app_assoc. }
  pose proof (zlen_nonneg data). pose proof (zlen_nonneg (Options_Marshal o)).
  rewrite Hm in Hf |- *. rewrite !length_app, !length_be in Hf.
  replace (0 <? _) with true by (symmetry; apply Z.ltb_lt; zlen_lia).
  replace (_ <? 4) with false by (symmetry; apply Z.ltb_ge; zlen_lia).
  rewrite get_be, bind_ret by (change (256 ^ Z.of_nat 2) with (2 ^ 16); lia).
  rewrite from_app_exact, bind_ret by zlen_lia.
  rewrite get_be, bind_ret by (change (256 ^ Z.of_nat 2) with (2 ^ 16); lia).
  replace (_ <? 4 + zlen data) with false by (symmetry; apply Z.ltb_ge; zlen_lia).
  rewrite slice_app_r, slice_app_r by zlen_lia. rewrite slice_start, bind_ret by zlen_lia.
  rewrite !from_app_r by zlen_lia. rewrite from_start, bind_ret by zlen_lia.
  rewrite IH by (done || lia). by rewrite <- app_assoc.
Qed.

(** ... and nothing else. *)
Lemma parse_loop_inv fuel : forall b acc r, is_bytes b -> parseOptions_loop fuel b acc = Ret r ->
  exists o, r = acc ++ o /\ Forall opt_wf o /\ b = Options_Marshal o.
Proof.
  induction fuel as [|fuel IH]; intros b acc r Hb H; [done|]. cbn [parseOptions_loop] in H.
  destruct (Z.ltb_spec 0 (zlen b)) as [Hl|Hl].
  2: { injection H as <-. exists []. rewrite app_nil_r. split; [done|]. split; [done|].
       destruct b; [done|]. rewrite zlen_cons in Hl. pose proof (zlen_nonneg b). lia. }
  destruct (Z.ltb_spec (zlen b) 4) as [|H4]; [done|]. bind_inv H. rename a into code. bind_inv H. rename a into optLen.
  destruct (Z.ltb_spec (zlen b) (4 + optLen)) as [|Hn]; [done|]. bind_inv H. rename a into data. bind_inv H.
  rewrite from_ok, bind_ret in E0 by lia.
  apply get2_bounds in E as [Hc Hcb]; [|done]. apply get2_bounds in E0 as [Ho Hob]; [|auto with wire].
  pose proof (is_bytes_slice _ _ _ _ Hb E1) as Hd. apply slice_inv in E1 as (_ & Hdata & Hdl).
  apply from_inv in E2 as (_ & -> & _).
  apply IH in H as (o & -> & Hwf & Hrest); [|auto with wire].
  exists (mkOption code data :: o). split; [by rewrite <- app_assoc|]. split.
  { constructor; [|done]. split; [done|]. cbn. split; [lia|done]. }
  cbn [Options_Marshal flat_map Code Data]. fold (Options_Marshal o). rewrite <- Hrest.
  rewrite <- Hcb. replace (zlen data) with optLen by lia. rewrite <- Hob, Hdata.
  rewrite <- (take_drop 2 b) at 1. rewrite <- !app_assoc. f_equal.
  rewrite <- (take_drop 2 (drop 2 b)) at 1. f_equal. rewrite drop_drop.
  change (Z.to_nat 4) with 4%nat. change (2 + 2)%nat with 4%nat. change (Z.to_nat 2) with 2%nat.
  rewrite <- (take_drop (Z.to_nat (4 + optLen - 4)) (drop 4 b)) at 1. f_equal.
  rewrite drop_drop. f_equal. lia.
Qed.

Lemma parseOptions_iff b o : is_bytes b ->
  parseOptions b = Ret o <-> Forall opt_wf o /\ b = Options_Marshal o.
Proof.
  intros Hb. split.
  - intros (o' & -> & ? & ?)%parse_loop_inv; done.
  - intros (Ho & ->). unfold parseOptions. by rewrite parse_marshal_loop by (done || lia).
Qed.

Lemma is_bytes_Marshal o : Forall opt_wf o -> is_bytes (Options_Marshal o).
Proof.
  induction 1 as [|opt o (_ & _ & Hd) Ho IH]; [constructor|]. cbn [Options_Marshal flat_map].
  rewrite !is_bytes_app. auto with wire.
Qed.

Lemma ParseMessage_total b : is_bytes b -> no_panic (ParseMessage b) = true.
Proof.
  intros Hb. unfold ParseMessage. destruct (Z.ltb_spec (zlen b) 4) as [Hl|Hl]; [done|].
  rewrite from_ok, bind_ret by lia. pose proof (options_total (drop (Z.to_nat 4) b) ltac:(auto with wire)) as Ht.
  destruct (parseOptions (drop (Z.to_nat 4) b)); [|done..].
  apply bind_no_panic; [by rewrite idx_ok by lia|]. intros t _. by rewrite slice_ok by lia.
Qed.

(** C40: The message decoder and encoder are inverse of each other on every byte
    string: decoding is total, and it returns a message exactly when that message
    is well formed and the bytes are its encoding. *)
Theorem ParseMessage_iff b m : is_bytes b ->
  no_panic (ParseMessage b) = true
  /\ (ParseMessage b = Ret m <-> message_wf m /\ MarshalBinary m = Ret b).
Proof.
  intros Hb. unfold ParseMessage. destruct (Z.ltb_spec (zlen b) 4) as [Hl|Hl].
  { split; [done|]. split; [done|]. intros [(_ & Hx & _) [= <-]]. exfalso.
    rewrite zlen_cons, zlen_app, zlen_field in Hl by lia. pose proof (zlen_nonneg (Options_Marshal (Opts m))). lia. }
  rewrite from_ok, bind_ret by lia. pose proof (options_total (drop 4 b) ltac:(auto with wire)) as Ht.
  destruct b as [|t b]; [unfold zlen in Hl; cbn in Hl; lia|]. inversion Hb as [|? ? Htb Hb']; subst.
  rewrite zlen_cons in Hl.
  assert (forall o, (t' ← idx (t :: b) 0; x ← slice (t :: b) 1 4; Ret (mkMessage t' (field 3 x) o))
                    = Ret (mkMessage t (take 3 b) o)) as Hread.
  { intros o. rewrite idx_cons_0, bind_ret, slice_cons_S by lia. rewrite slice_ok, bind_ret by lia.
    change (drop (Z.to_nat (1 - 1)) b) with b. change (Z.to_nat (4 - 1 - (1 - 1))) with 3%nat.
    by rewrite field_exact by (rewrite zlen_take; lia). }
  change (drop (Z.to_nat 4) (t :: b)) with (drop 3 b). change (drop 4 (t :: b)) with (drop 3 b) in Ht.
  split; [destruct (parseOptions (drop 3 b)); [by rewrite Hread|done..]|]. unfold MarshalBinary, message_wf.
  destruct (parseOptions (drop 3 b)) as [o| |] eqn:E; [| |done].
  - apply parseOptions_iff in E as [Ho Hd]; [|auto with wire]. rewrite Hread. split.
    + intros [= <-]. cbn [Type_ XID Opts]. split; [split; [done|]; split; [rewrite zlen_take; lia|]; auto with wire|].
      rewrite field_exact by (rewrite zlen_take; lia). rewrite <- Hd, take_drop, Z.mod_small by (unfold is_byte in Htb; lia). done.
    + intros [(Ht' & Hx & Hxb & Ho') [= Et Eb]]. destruct m as [t' x o']. cbn [Type_ XID Opts] in *.
      rewrite Z.mod_small in Et by (unfold is_byte in Ht'; lia). rewrite field_exact in Eb by done. subst t b.
      assert (length x = 3%nat) as Hx3 by (unfold zlen in Hx; lia).
      rewrite take_app_length' by done. rewrite drop_app_length' in Hd by done.
      pose proof (parseOptions_iff (Options_Marshal o) o (is_bytes_Marshal o Ho)) as [_ H1].
      pose proof (parseOptions_iff (Options_Marshal o) o' (is_bytes_Marshal o Ho)) as [_ H2].
      rewrite H1 in H2 by done. by injection H2 as ->.
  - split; [done|]. intros [(Ht' & Hx & Hxb & Ho') [= Et Eb]]. destruct m as [t' x o']. cbn [Type_ XID Opts] in *.
    rewrite field_exact in Eb by done. subst b. assert (length x = 3%nat) as Hx3 by (unfold zlen in Hx; lia).
    rewrite drop_app_length' in E by done.
    pose proof (parseOptions_iff (Options_Marshal o') o' (is_bytes_Marshal o' Ho')) as [_ H1].
    by rewrite H1 in E.
Qed.

(** ** Witnesses *)

Definition sample_reply : Message :=
  mkMessage MessageTypeReply [1; 2; 3]
    [mkOption OptionServerID [0; 3; 0; 1; 2; 0; 0; 0; 0; 9]; mkOption OptionDNSServers (zeros 16)].

Lemma ParseMessage_iff_witness : exists b, MarshalBinary sample_reply = Ret b /\ ParseMessage b = Ret sample_reply.
Proof.
  destruct (MarshalBinary sample_reply) as [b| |] eqn:E; [|discriminate..]. exists b. split; [reflexivity|].
  assert (is_bytes b) as Hb by (vm_compute in E; injection E as <-; by_eval).
  apply (ParseMessage_iff b sample_reply Hb). split; [by_eval|exact E].
Defined.
