(* ===== verification/Dhcpv6Client.v ===== *)
(** The DHCPv6 client process: src/internal/dhcpv6client/machine.go, a pure state
    machine that runs the exchanges of one interface one at a time over the socket
    it owns.

    [HandleEvent] is the whole handler.  The actor library that runs it (molecule)
    is not under src; [deliver] and [turn] state what the client relies on: effects
    are carried out in order, a change of phase cancels the state timeout, a
    postponed call is given again, a passive socket delivers nothing, and a caller
    that gives up is reported once. *)

From S2P Require Import Prelude Wire Netip Dhcpv6.

Local Open Scope Z_scope.

(** ** Phases, data, events, effects *)

Inductive Phase : Type := Idle | Delaying | Waiting.

#[export] Instance Phase_eq_dec : EqDecision Phase.
Proof. solve_decision. Defined.

(** The token of a call (actor.From). *)
Abbreviation From := nat.

Record exchange : Type := mkExchanging {
  from_ : From; x : Exchange; xid : TransactionID; rt : Z; elapsed : Z; sent : Z }.

(** Go's exchange{}. *)
Definition zero_exchange : exchange :=
  mkExchanging 0 (mkExchange 0 0 [] (mkTiming 0 0 0 0)) [0; 0; 0] 0 0 0.

Inductive tmsg : Type := transmit | retransmit.

Inductive event : Type :=
| Call (f : From) (x : Exchange)
| OtherCall
| StateTimeout (t : tmsg)
| CallAbandoned (f : From)
| DataMsg (b : bytes)
| ErrorMsg (e : string)
| ClosedMsg
| OtherInfo.

Inductive effect : Type :=
| Postpone
| StartStateTimeout (after : Z) (t : tmsg)
| SendActive (to : Addr * Z) (b : bytes)
| SetActive
| Reply (to : From) (r : result)
| Stop (reason : string).

Record machine : Type := mkMachine { server : Addr * Z; clientID : DUID }.

Section Machine.
Context {rng : Type} (R : Rand rng) (m : machine).

Record data : Type := mkData { rngOf : rng; cur : exchange }.

Definition set_cur (d : data) (c : exchange) : data := mkData (rngOf d) c.

Abbreviation outcome3 := (outcome (Phase * data * list effect)).

(** Init: Idle, the generator seeded. *)
Definition Init (seed : rng) : Phase * data * list effect := (Idle, mkData seed zero_exchange, []).

Definition finish (d : data) (r : result) : Phase * data * list effect :=
  (Idle, set_cur d zero_exchange, [Reply (from_ (cur d)) r]).

Definition set_sent (c : exchange) (n : Z) : exchange :=
  mkExchanging (from_ c) (x c) (xid c) (rt c) (elapsed c) n.

Definition send (d : data) : outcome3 :=
  match MarshalBinary (Exchange_Message (x (cur d)) (xid (cur d)) (clientID m) (elapsed (cur d))) with
  | Panic => Panic
  | Fail e => Ret (finish d (ErrOther e))
  | Ret b =>
    let d := set_cur d (set_sent (cur d) (i64 (sent (cur d) + 1))) in
    Ret (Waiting, d, [SendActive (server m) b; StartStateTimeout (rt (cur d)) retransmit])
  end.

Definition start (d : data) (req : Exchange) (f : From) : outcome3 :=
  let '(v, r) := Uint32 R (rngOf d) in
  let '(rt, r) := FirstRT R (IRT (xTiming req)) r in
  let c := mkExchanging f req (NewTransactionID v) rt 0 0 in
  let '(delay, r) := InitialDelay R (InitialDelayMax (xTiming req)) r in
  let d := mkData r c in
  if 0 <? delay then Ret (Delaying, d, [StartStateTimeout delay transmit]) else send d.

Definition onRetransmit (d : data) : outcome3 :=
  let c := cur d in
  if negb (MRC (xTiming (x c)) =? 0) && (MRC (xTiming (x c)) <=? sent c)
  then Ret (finish d ErrExhausted)
  else
    let '(next, r) := NextRT R (rt c) (MRT (xTiming (x c))) (rngOf d) in
    send (mkData r (mkExchanging (from_ c) (x c) (xid c) next (i64 (elapsed c + rt c)) (sent c))).

Definition onData (st : Phase) (d : data) (b : bytes) : outcome3 :=
  if negb (bool_decide (st = Waiting)) then Ret (st, d, [])
  else match ParseMessage b with
  | Panic => Panic
  | Fail _ => Ret (st, d, [SetActive])
  | Ret reply =>
    if Answers (x (cur d)) reply (xid (cur d)) (clientID m)
    then Ret (finish d (Answered reply)) else Ret (st, d, [SetActive])
  end.

Definition HandleEvent (st : Phase) (d : data) (ev : event) : outcome3 :=
  match ev with
  | Call f req => if negb (bool_decide (st = Idle)) then Ret (st, d, [Postpone]) else start d req f
  | OtherCall => Ret (st, d, [])
  | StateTimeout transmit => send d
  | StateTimeout retransmit => onRetransmit d
  | CallAbandoned f =>
    if negb (bool_decide (st = Idle)) && bool_decide (f = from_ (cur d))
    then Ret (Idle, set_cur d zero_exchange, []) else Ret (st, d, [])
  | DataMsg b => onData st d b
  | ErrorMsg e => Ret (st, d, [Stop e])
  | ClosedMsg => Ret (st, d, [Stop "closed"])
  | OtherInfo => Ret (st, d, [])
  end.

(** ** The client running *)

Inductive entry : Type :=
| Asked (f : From) (x : Exchange)
| Sent (f : From) (b : bytes)
| Replied (f : From) (r : result)
| Gone (f : From).

(** [timer]: the state timeout pending; [active]: the socket delivers the next
    datagram; [calls]: the calls not taken yet, postponed ones included; [log]:
    what has happened. *)
Record sys : Type := mkSys {
  ph : Phase; dat : data; timer : option (Z * tmsg); active : bool;
  calls : list (From * Exchange); log : list entry; stopped : bool }.

Definition set_timer (s : sys) (t : option (Z * tmsg)) : sys :=
  mkSys (ph s) (dat s) t (active s) (calls s) (log s) (stopped s).
Definition set_active (s : sys) (a : bool) : sys :=
  mkSys (ph s) (dat s) (timer s) a (calls s) (log s) (stopped s).
Definition set_calls (s : sys) (c : list (From * Exchange)) : sys :=
  mkSys (ph s) (dat s) (timer s) (active s) c (log s) (stopped s).
Definition add_log (s : sys) (e : entry) : sys :=
  mkSys (ph s) (dat s) (timer s) (active s) (calls s) (log s ++ [e]) (stopped s).

Definition carry (s : sys) (e : effect) : sys :=
  match e with
  | Postpone => s
  | StartStateTimeout after t => set_timer s (Some (after, t))
  | SendActive _ b => add_log (set_active s true) (Sent (from_ (cur (dat s))) b)
  | SetActive => set_active s true
  | Reply f r => add_log s (Replied f r)
  | Stop _ => mkSys (ph s) (dat s) (timer s) (active s) (calls s) (log s) true
  end.

Definition enter (s : sys) (st : Phase) (d : data) : sys :=
  mkSys st d (if bool_decide (st = ph s) then timer s else None) (active s) (calls s) (log s) (stopped s).

Definition deliver (s : sys) (ev : event) : outcome sys :=
  '(st, d, effs) ← HandleEvent (ph s) (dat s) ev;
  Ret (fold_left carry effs (enter s st d)).

(** Reading the log: the calls made, those that got their reply or gave up, the
    transmissions of one call. *)
Definition askedL (l : list entry) : list From :=
  omap (fun e => match e with Asked f _ => Some f | _ => None end) l.
Definition endedL (l : list entry) : list From :=
  omap (fun e => match e with Replied f _ | Gone f => Some f | _ => None end) l.
Definition sendsL (f : From) (l : list entry) : list bytes :=
  omap (fun e => match e with Sent f' b => if decide (f' = f) then Some b else None | _ => None end) l.

Inductive turn : sys -> sys -> Prop :=
| turn_ask s f req : f ∉ askedL (log s) -> turn s (add_log (set_calls s (calls s ++ [(f, req)])) (Asked f req))
| turn_call s s' f req rest : calls s = (f, req) :: rest -> deliver s (Call f req) = Ret s' ->
    turn s (if bool_decide (ph s = Idle) then set_calls s' rest else s')
| turn_timer s s' after t : timer s = Some (after, t) -> deliver (set_timer s None) (StateTimeout t) = Ret s' -> turn s s'
| turn_data s s' b : active s = true -> is_bytes b -> deliver (set_active s false) (DataMsg b) = Ret s' -> turn s s'
| turn_drop s f req l1 l2 : calls s = l1 ++ (f, req) :: l2 -> turn s (add_log (set_calls s (l1 ++ l2)) (Gone f))
| turn_abandon s s' f : f ∉ (calls s).*1 -> deliver s (CallAbandoned f) = Ret s' ->
    turn s (if negb (bool_decide (ph s = Idle)) && bool_decide (f = from_ (cur (dat s))) then add_log s' (Gone f) else s')
| turn_other s s' ev : (ev = OtherCall \/ ev = OtherInfo \/ ev = ClosedMsg \/ exists e, ev = ErrorMsg e) ->
    deliver s ev = Ret s' -> turn s s'.

(** The states a client goes through from its start, up to a Stop. *)
Inductive reach (seed : rng) : sys -> Prop :=
| reach_init : reach seed (mkSys Idle (mkData seed zero_exchange) None false [] [] false)
| reach_turn s s' : reach seed s -> stopped s = false -> turn s s' -> reach seed s'.

End Machine.

(** ** The invariant *)

(** Timings the timers below are sound for: those of client.go are ([client_timings]). *)
Definition timing_ok (t : Timing) : Prop :=
  0 <= InitialDelayMax t <= 3600 * Second /\ 0 < IRT t <= 3600 * Second /\ 0 <= MRC t < 2 ^ 31
  /\ (MRT t = 0 /\ 0 < MRC t <= 10 \/ IRT t <= MRT t <= 3600 * Second).

#[export] Instance timing_ok_dec t : Decision (timing_ok t).
Proof. unfold timing_ok. apply _. Defined.

(** A retransmission timeout in bounds: from 0.9 IRT up to 1.1 MRT or, when there is
    no ceiling, within a factor of 3 for each of [n] transmissions. *)
Definition rt_ok (c : exchange) (n : Z) : Prop :=
  let t := xTiming (x c) in
  9 * IRT t <= 10 * rt c /\
  (MRT t <> 0 -> 10 * rt c <= 11 * MRT t) /\ (MRT t = 0 -> rt c <= IRT t * 3 ^ n).

Section Runs.
Context {rng : Type} (R : Rand rng) (m : machine).
Hypothesis jitter_tenth : forall b r, 0 <= b -> - b <= 10 * (jitter R b r).1 <= b.
Hypothesis scaled_max : forall b r, 0 <= b -> 0 <= (scaled R b r).1 <= b.

Abbreviation sys := (sys (rng := rng)).
Abbreviation data := (data (rng := rng)).

(** The transmission of [req] as [i], [e] after the first. *)
Definition enc (req : Exchange) (i : TransactionID) (e : Z) : bytes :=
  match MarshalBinary (Exchange_Message req i (clientID m) e) with Ret b => b | _ => [] end.

(** The exchange running: asked for, in its bounds, and transmitted as the log says,
    the first time at elapsed 0. *)
Record running (l : list entry) (c : exchange) (els : list Z) (n : Z) : Prop := {
  run_asked : Asked (from_ c) (x c) ∈ l;
  run_rt : rt_ok c n;
  run_sends : sendsL (from_ c) l = enc (x c) (xid c) <$> els;
  run_first : match els with [] => elapsed c = 0 | e :: _ => e = 0 end;
  run_count : MRC (xTiming (x c)) <> 0 -> sent c = zlen els /\ sent c <= MRC (xTiming (x c)) }.

(** The end of a call is the right one. *)
Definition right_end (l : list entry) (f : From) (r : result) : Prop :=
  exists req i els, Asked f req ∈ l /\ sendsL f l = enc req i <$> 0 :: els /\
    match r with
    | Answered msg => Answers req msg i (clientID m) = true
    | ErrExhausted => MRC (xTiming req) <> 0 /\ zlen (0 :: els) = MRC (xTiming req)
    | ErrOther _ => False
    end.

(** Every call is in one place: waiting, running, or ended. *)
Record core (cs : list (From * Exchange)) (now : list From) (l : list entry) : Prop := {
  core_fresh : NoDup (askedL l);
  core_tokens : askedL l ≡ₚ cs.*1 ++ now ++ endedL l;
  core_calls : forall f req, (f, req) ∈ cs -> Asked f req ∈ l;
  core_sends : forall f b, Sent f b ∈ l -> f ∈ now ++ endedL l;
  core_ends : forall f r, Replied f r ∈ l -> right_end l f r }.

Definition current (s : sys) : list From := match ph s with Idle => [] | _ => [from_ (cur (dat s))] end.

Record inv (s : sys) : Prop := {
  inv_core : core (calls s) (current s) (log s);
  inv_phase : match ph s with
    | Idle => timer s = None /\ cur (dat s) = zero_exchange
    | Delaying => (exists d, timer s = Some (d, transmit) /\ 0 < d <= InitialDelayMax (xTiming (x (cur (dat s)))))
        /\ sent (cur (dat s)) = 0 /\ running (log s) (cur (dat s)) [] 1
    | Waiting => timer s = Some (rt (cur (dat s)), retransmit) /\ active s = true
        /\ exists e els, running (log s) (cur (dat s)) (e :: els) (zlen (e :: els))
    end }.

(** Log lemmas. *)
Lemma sendsL_other f l e : (forall b, e <> Sent f b) -> sendsL f (l ++ [e]) = sendsL f l.
Proof.
  intros He. unfold sendsL. rewrite omap_app. destruct e as [|f' b| |]; cbn; rewrite ?app_nil_r; try done.
  case_decide as Hf; cbn; [|by rewrite app_nil_r]. subst. by destruct (He b).
Qed.

Lemma sendsL_none f l : (forall b, Sent f b ∉ l) -> sendsL f l = [].
Proof.
  unfold sendsL. induction l as [|e l IH]; [done|]. intros Hn. cbn.
  assert (forall b, Sent f b ∉ l) as Hn' by (intros b Hb; apply (Hn b); by right).
  destruct e as [|f' b| |]; cbn; try by apply IH. case_decide as Hf; [|by apply IH].
  subst. destruct (Hn b). by left.
Qed.

Lemma running_later l c els n e : (forall b, e <> Sent (from_ c) b) -> running l c els n -> running (l ++ [e]) c els n.
Proof.
  intros He [? ? ? ? ?]. split; try done; [apply elem_of_app; by left|]. by rewrite sendsL_other.
Qed.

Lemma right_end_later l f r e : (forall b, e <> Sent f b) -> right_end l f r -> right_end (l ++ [e]) f r.
Proof.
  intros He (req & i & els & ? & ? & ?). exists req, i, els. rewrite sendsL_other by done.
  split; [apply elem_of_app; by left|done].
Qed.

Lemma askedL_app l l' : askedL (l ++ l') = askedL l ++ askedL l'.
Proof. apply omap_app. Qed.
Lemma endedL_app l l' : endedL (l ++ l') = endedL l ++ endedL l'.
Proof. apply omap_app. Qed.

Lemma elem_of_askedL f req l : Asked f req ∈ l -> f ∈ askedL l.
Proof. intros H. apply list_elem_of_omap. by exists (Asked f req). Qed.
Lemma elem_of_endedL f r l : Replied f r ∈ l -> f ∈ endedL l.
Proof. intros H. apply list_elem_of_omap. by exists (Replied f r). Qed.

(** An entry at the end of the log. *)
Lemma elem_of_snoc {A} (a b : A) l : a ∈ l ++ [b] <-> a ∈ l \/ a = b.
Proof. by rewrite elem_of_app, list_elem_of_singleton. Qed.

Section Core.
Context (cs : list (From * Exchange)) (now : list From) (l : list entry) (Hc : core cs now l).

(** The calls waiting, running and ended are different ones. *)
Lemma core_nodup : NoDup (cs.*1 ++ now ++ endedL l).
Proof using Hc. rewrite <- (core_tokens _ _ _ Hc). apply Hc. Qed.

Lemma core_not_ended f r : f ∈ cs.*1 ++ now -> Replied f r ∈ l -> False.
Proof using Hc.
  intros Hf Hr%elem_of_endedL. pose proof core_nodup as Hn. rewrite app_assoc in Hn.
  apply NoDup_app in Hn as (_ & Hd & _). by apply (Hd f).
Qed.

Lemma core_ask f req : f ∉ askedL l -> core (cs ++ [(f, req)]) now (l ++ [Asked f req]).
Proof using Hc.
  intros Hf. destruct Hc as [Hn Ht Hcs Hs He]. split.
  - rewrite askedL_app. apply NoDup_app. split; [done|]. split; [|apply NoDup_singleton].
    cbn. intros g Hg ->%list_elem_of_singleton. done.
  - rewrite askedL_app, endedL_app. cbn. rewrite app_nil_r, Ht, fmap_app.
    etrans; [apply Permutation_app_comm|]. rewrite <- (app_assoc _ _ (now ++ _)). exact (Permutation_middle _ _ f).
  - intros g r [H|H%list_elem_of_singleton]%elem_of_app; apply elem_of_app; [left; by apply Hcs|right].
    injection H as -> ->. by apply list_elem_of_singleton.
  - intros g b [H|?]%elem_of_snoc; [|done]. rewrite endedL_app. cbn. rewrite app_nil_r. by eapply Hs.
  - intros g r [H|?]%elem_of_snoc; [|done]. apply right_end_later; [done|by apply He].
Qed.

Lemma core_sent f b : f ∈ now -> core cs now (l ++ [Sent f b]).
Proof using Hc.
  intros Hf. destruct Hc as [Hn Ht Hcs Hs He]. split; rewrite ?askedL_app, ?endedL_app; cbn; rewrite ?app_nil_r.
  - done.
  - done.
  - intros g r H. apply elem_of_app. left. by apply Hcs.
  - intros g b' [H|[= -> ->]]%elem_of_snoc; [by eapply Hs|]. apply elem_of_app. by left.
  - intros g r [H|?]%elem_of_snoc; [|done]. apply right_end_later; [|by apply He].
    intros b' [= -> ->]. eapply core_not_ended; [|done]. apply elem_of_app. by right.
Qed.

Lemma core_drop f req l1 l2 : cs = l1 ++ (f, req) :: l2 -> core (l1 ++ l2) now (l ++ [Gone f]).
Proof using Hc.
  intros ->. destruct Hc as [Hn Ht Hcs Hs He]. split; rewrite ?askedL_app, ?endedL_app; cbn; rewrite ?app_nil_r.
  - done.
  - rewrite Ht, !fmap_app. cbn. rewrite <- !app_assoc. cbn. rewrite <- Permutation_middle, !app_assoc. apply Permutation_cons_append.
  - intros g r H. apply elem_of_app. left. apply Hcs. rewrite !elem_of_app, elem_of_cons in *. tauto.
  - intros g b [H|?]%elem_of_snoc; [|done]. rewrite app_assoc. apply elem_of_app. left. by eapply Hs.
  - intros g r [H|?]%elem_of_snoc; [|done]. apply right_end_later; [done|by apply He].
Qed.
End Core.

Lemma core_take f req cs l : core ((f, req) :: cs) [] l -> core cs [f] l.
Proof.
  intros [Hn Ht Hcs Hs He]. split; try done.
  - rewrite Ht. cbn. by rewrite Permutation_middle.
  - intros g r H. apply Hcs. by right.
  - intros g b H. apply elem_of_app. right. by eapply Hs.
Qed.

Lemma core_end f e cs l : core cs [f] l -> (e = Gone f \/ exists r, e = Replied f r /\ right_end l f r) ->
  core cs [] (l ++ [e]).
Proof.
  intros Hc Hend. pose proof Hc as [Hn Ht Hcs Hs He].
  assert (askedL [e] = [] /\ endedL [e] = [f] /\ forall g b, e <> Sent g b) as (Ea & Ee & Es).
  { destruct Hend as [->|(r & -> & _)]; done. }
  split; rewrite ?askedL_app, ?endedL_app, ?Ea, ?Ee; rewrite ?app_nil_r.
  - done.
  - rewrite Ht. cbn. apply Permutation_app_head, Permutation_cons_append.
  - intros g r H. apply elem_of_app. left. by apply Hcs.
  - intros g b [H|H]%elem_of_snoc; [|by destruct (Es g b)]. specialize (Hs g b H). cbn in *.
    rewrite elem_of_cons in Hs. rewrite elem_of_snoc. tauto.
  - intros g r [H|H]%elem_of_snoc; [apply right_end_later; [apply Es|by apply He]|].
    destruct Hend as [->|(r' & -> & Hr)]; [done|]. injection H as -> ->. by apply right_end_later.
Qed.

(** A transmission more. *)
Lemma running_send l c els : running l c els (zlen els + 1) ->
  (MRC (xTiming (x c)) <> 0 -> sent c < MRC (xTiming (x c)) < 2 ^ 31) ->
  let c' := set_sent c (i64 (sent c + 1)) in
  exists e, running (l ++ [Sent (from_ c) (enc (x c) (xid c) (elapsed c))]) c' (els ++ [e]) (zlen (els ++ [e])).
Proof.
  intros [Ha Hrt Hs Hf Hc] Hlt c'. exists (elapsed c). split.
  - apply elem_of_app. by left.
  - rewrite zlen_app. exact Hrt.
  - cbn. unfold sendsL. rewrite omap_app. fold (sendsL (from_ c) l). rewrite Hs. cbn.
    rewrite decide_True by done. by rewrite fmap_app.
  - destruct els as [|e els]; cbn; done.
  - intros Hne. cbn in Hne |- *. destruct (Hc Hne) as [Hsent Hle]. specialize (Hlt Hne). pose proof (zlen_nonneg els).
    rewrite i64_id by lia. rewrite zlen_app, Hsent. split; [done|]. change (zlen [elapsed c]) with 1. lia.
Qed.

Lemma FirstRT_ok t r : timing_ok t -> 9 * IRT t <= 10 * (FirstRT R (IRT t) r).1 <= 11 * IRT t.
Proof using jitter_tenth.
  intros (_ & HI & _). unfold FirstRT, Second in *. pose proof (jitter_tenth (IRT t) r ltac:(lia)) as Hj.
  destruct (jitter R (IRT t) r) as [j r']. cbn [fst] in *. rewrite i64_id; lia.
Qed.

Lemma NextRT_ok t prev r : timing_ok t -> 9 * IRT t <= 10 * prev ->
  (MRT t <> 0 -> 10 * prev <= 11 * MRT t) -> (MRT t = 0 -> prev <= 2 ^ 60) ->
  9 * IRT t <= 10 * (NextRT R prev (MRT t) r).1
  /\ (MRT t <> 0 -> 10 * (NextRT R prev (MRT t) r).1 <= 11 * MRT t)
  /\ (MRT t = 0 -> (NextRT R prev (MRT t) r).1 <= 3 * prev).
Proof using jitter_tenth.
  intros (_ & HI & _ & Hcase) Hlo Hhi H0. unfold NextRT, Second in *.
  pose proof (jitter_tenth prev r ltac:(lia)) as Hj. destruct (jitter R prev r) as [j r']. cbn [fst] in Hj.
  assert (0 <= 2 * prev + j < 2 ^ 62) as Hb by (destruct Hcase as [[Hz _]|Hz]; [specialize (H0 Hz)|specialize (Hhi ltac:(lia))]; lia).
  rewrite (i64_id (2 * prev + j)) by lia. destruct (Z.eqb_spec (MRT t) 0) as [Hz|Hz]; cbn [negb andb].
  { cbn [fst]. split; [lia|]. split; [done|]. intros _. lia. }
  destruct (Z.ltb_spec (MRT t) (2 * prev + j)); cbn [fst].
  - pose proof (jitter_tenth (MRT t) r' ltac:(lia)) as Hj'. destruct (jitter R (MRT t) r') as [j' r'']. cbn [fst] in *.
    rewrite i64_id by lia. split; [lia|]. split; [lia|done].
  - split; [lia|]. split; [lia|done].
Qed.

Lemma start_rt_ok req f i r : timing_ok (xTiming req) ->
  rt_ok (mkExchanging f req i (FirstRT R (IRT (xTiming req)) r).1 0 0) 1.
Proof using jitter_tenth.
  intros Ht. pose proof (FirstRT_ok _ r Ht) as HF. destruct Ht as (_ & HI & _ & Hcase).
  split; [cbn; lia|]. cbn. change (3 ^ 1) with 3. split; lia.
Qed.

(** ** Every turn keeps it *)

Ltac unfold_sys H :=
  cbn in H; unfold add_log, enter, set_timer, set_active, set_calls, set_cur in H; cbn in H.

Lemma send_eq (d : data) : send m d = Ret (Waiting, set_cur d (set_sent (cur d) (i64 (sent (cur d) + 1))),
  [SendActive (server m) (enc (x (cur d)) (xid (cur d)) (elapsed (cur d))); StartStateTimeout (rt (cur d)) retransmit]).
Proof. reflexivity. Qed.

Lemma inv_send cs l c els r st : core cs [from_ c] l -> running l c els (zlen els + 1) -> timing_ok (xTiming (x c)) ->
  (MRC (xTiming (x c)) <> 0 -> sent c < MRC (xTiming (x c))) ->
  inv (mkSys Waiting (mkData r (set_sent c (i64 (sent c + 1)))) (Some (rt c, retransmit)) true cs
         (l ++ [Sent (from_ c) (enc (x c) (xid c) (elapsed c))]) st).
Proof.
  intros Hc Hr Ht Hlt. split; cbn.
  - apply core_sent; [done|]. by left.
  - split; [done|]. split; [done|]. destruct (running_send l c els Hr) as (e & Hrun); [destruct Ht as (_ & _ & ? & _); intros; split; [auto|lia]|].
    destruct els as [|e0 els]; [by exists e, []|by exists e0, (els ++ [e])].
Qed.

Lemma inv_idle cs l f e r a st : core cs [f] l -> (e = Gone f \/ exists res, e = Replied f res /\ right_end l f res) ->
  inv (mkSys Idle (mkData r zero_exchange) None a cs (l ++ [e]) st).
Proof. intros Hc He. split; cbn; [by apply (core_end f)|done]. Qed.

(** The call at the head of the queue. *)
Lemma inv_start s f req rest s' : inv s -> ph s = Idle -> calls s = (f, req) :: rest -> timing_ok (xTiming req) ->
  deliver R m s (Call f req) = Ret s' -> inv (set_calls s' rest).
Proof using jitter_tenth scaled_max.
  intros [Hcore Hph] Hi Hcs Ht H. unfold current in Hcore. rewrite Hi in Hph, Hcore. destruct Hph as [Htm _]. cbn in Hcore.
  rewrite Hcs in Hcore. pose proof (core_calls _ _ _ Hcore f req ltac:(by left)) as Hask.
  assert (sendsL f (log s) = []) as Hns.
  { apply sendsL_none. intros b Hb. pose proof (core_sends _ _ _ Hcore f b Hb) as Hf. cbn in Hf.
    pose proof (core_nodup _ _ _ Hcore) as Hn. cbn in Hn. apply NoDup_cons in Hn as [Hn _]. apply Hn. apply elem_of_app. by right. }
  apply core_take in Hcore. unfold deliver in H. rewrite Hi in H. cbn [HandleEvent] in H.
  rewrite bool_decide_true in H by done. cbn [negb] in H. unfold start in H.
  destruct (Uint32 R (rngOf (dat s))) as [v r1] eqn:Ev.
  pose proof (start_rt_ok req f (NewTransactionID v) r1 Ht) as Hrt.
  destruct (FirstRT R (IRT (xTiming req)) r1) as [rt0 r2]. cbn [fst] in Hrt.
  assert (exists delay r3, InitialDelay R (InitialDelayMax (xTiming req)) r2 = (delay, r3)
            /\ delay <= InitialDelayMax (xTiming req)) as (delay & r3 & Ed & Hd).
  { destruct Ht as (Hd & _). unfold InitialDelay. destruct (_ =? 0); [exists 0, r2; split; [done|lia]|].
    pose proof (scaled_max (InitialDelayMax (xTiming req)) r2 ltac:(lia)) as Hsc.
    destruct (scaled R _ r2) as [dl r3]. exists dl, r3. split; [done|]. cbn in Hsc. lia. }
  rewrite Ed in H. set (c := mkExchanging f req (NewTransactionID v) rt0 0 0) in *.
  assert (running (log s) c [] 1) as Hrun.
  { split; try done. intros _. split; [done|]. cbn. destruct Ht as (_ & _ & ? & _). lia. }
  destruct (Z.ltb_spec 0 delay).
  - unfold_sys H. injection H as <-. split; cbn; [by apply Hcore|].
    split; [by exists delay|]. done.
  - rewrite send_eq in H. unfold_sys H. injection H as <-. unfold set_calls. cbn.
    apply (inv_send rest (log s) c [] r3); try done. cbn. destruct Ht as (_ & _ & ? & _). lia.
Qed.

Lemma inv_timer s after t s' : (forall f req, Asked f req ∈ log s -> timing_ok (xTiming req)) ->
  inv s -> timer s = Some (after, t) -> deliver R m (set_timer s None) (StateTimeout t) = Ret s' -> inv s'.
Proof using jitter_tenth.
  intros Hall [Hcore Hph] Htm H. destruct (ph s) eqn:Ep; unfold current in Hcore; rewrite Ep in Hcore; cbn in Hcore.
  - destruct Hph. congruence.
  - destruct Hph as ((d & Hd & Hpos) & Hz & Hrun). rewrite Hd in Htm. injection Htm as <- <-.
    unfold deliver in H. cbn [HandleEvent] in H. rewrite send_eq in H. unfold_sys H. injection H as <-.
    pose proof (Hall _ _ (run_asked _ _ _ _ Hrun)) as Ht. destruct (dat s) as [r c]. cbn [cur] in *.
    apply (inv_send (calls s) (log s) c [] r); try done. destruct Ht as (_ & _ & ? & _). lia.
  - destruct Hph as (Hd & Ha & e & els & Hrun). rewrite Hd in Htm. injection Htm as <- <-.
    pose proof (Hall _ _ (run_asked _ _ _ _ Hrun)) as Ht. unfold deliver in H. cbn [HandleEvent] in H.
    unfold onRetransmit in H. cbn [dat set_timer] in H. destruct (dat s) as [r c]. cbn [cur rngOf] in *.
    destruct (negb (MRC (xTiming (x c)) =? 0) && (MRC (xTiming (x c)) <=? sent c)) eqn:Eq.
    + apply andb_true_iff in Eq as [Hne%negb_true_iff%Z.eqb_neq Hle%Z.leb_le]. unfold_sys H. rewrite Ep in H. cbn in H. injection H as <-.
      destruct Hrun as [Hask _ Hs Hf Hcnt]. destruct (Hcnt Hne) as [Hn Hm].
      eapply inv_idle; [exact Hcore|]. right. eexists. split; [reflexivity|].
      exists (x c), (xid c), els. cbn in Hf. subst e. split; [done|]. split; [done|]. split; [done|lia].
    + destruct Hrun as [Hask (H1 & H2 & H3) Hs Hf Hcnt].
      assert (MRC (xTiming (x c)) <> 0 -> sent c < MRC (xTiming (x c))) as Hlt.
      { intros Hne. apply andb_false_iff in Eq as [E%negb_false_iff%Z.eqb_eq|E%Z.leb_gt]; [done|lia]. }
      pose proof (NextRT_ok (xTiming (x c)) (rt c) r Ht H1 H2) as HN.
      assert (MRT (xTiming (x c)) = 0 -> rt c <= 2 ^ 60) as Hsmall.
      { intros Hz. specialize (H3 Hz). destruct Ht as (_ & HI & _ & Hcase). destruct (Hcnt ltac:(lia)) as [Hn Hm].
        assert (3 ^ zlen (e :: els) <= 3 ^ 10) by (apply Z.pow_le_mono_r; lia). unfold Second in HI.
        change (3 ^ 10) with 59049 in *. pose proof (Z.pow_nonneg 3 (zlen (e :: els)) ltac:(lia)). nia. }
      specialize (HN Hsmall). destruct (NextRT R (rt c) (MRT (xTiming (x c))) r) as [next r']. cbn [fst] in HN.
      rewrite send_eq in H. unfold_sys H. injection H as <-.
      apply (inv_send (calls s) (log s) (mkExchanging (from_ c) (x c) (xid c) next (i64 (elapsed c + rt c)) (sent c)) (e :: els) r');
        try done.
      split; try done. split; cbn; [lia|]. split; [lia|]. intros Hz. destruct HN as (_ & _ & HN).
      specialize (HN Hz). specialize (H3 Hz). pose proof (zlen_nonneg (e :: els)).
      rewrite Z.pow_add_r by lia. lia.
Qed.

Lemma inv_turn s s' : (forall f req, Asked f req ∈ log s -> timing_ok (xTiming req)) ->
  inv s -> turn R m s s' -> inv s'.
Proof using jitter_tenth scaled_max.
  intros Hall Hinv Hturn. destruct Hturn as [s f req Hf|s s' f req rest Hcs H|s s' after t Htm H|s s' b Ha Hb H|s f req l1 l2 Hcs|s s' f Hf H|s s' ev Hev H].
  - destruct Hinv as [Hcore Hph]. split; cbn; [by apply core_ask|].
    destruct (ph s); [done|..].
    + destruct Hph as (Hd & Hz & Hrun). split; [done|]. split; [done|]. by apply running_later.
    + destruct Hph as (Hd & Hz & e & els & Hrun). split; [done|]. split; [done|]. exists e, els. by apply running_later.
  - case_bool_decide as Hi.
    + eapply inv_start; [done..| |done]. apply (Hall f). apply (core_calls _ _ _ (inv_core s Hinv)). rewrite Hcs. by left.
    + unfold deliver in H. cbn [HandleEvent] in H. rewrite bool_decide_false in H by done. unfold_sys H.
      rewrite bool_decide_true in H by done. injection H as <-. by destruct s, dat0.
  - by eapply inv_timer.
  - destruct Hinv as [Hcore Hph]. unfold deliver in H. cbn [HandleEvent] in H. unfold onData in H. cbn [ph dat set_active] in H.
    case_bool_decide as Hw; cbn [negb] in H.
    2: { unfold_sys H. rewrite bool_decide_true in H by done. injection H as <-. split; [done|]. cbn. by destruct (ph s). }
    unfold current in Hcore. rewrite Hw in Hph, Hcore. cbn in Hcore. destruct Hph as (Hd & _ & e & els & Hrun).
    destruct (ParseMessage b) as [reply|err|]; [|unfold_sys H; rewrite bool_decide_true in H by done; injection H as <-|done].
    + destruct (Answers _ _ _ _) eqn:Ean; unfold_sys H; rewrite Hw in H; cbn in H; injection H as <-.
      * destruct Hrun as [Hask _ Hs Hfi _]. subst e. apply (inv_idle (calls s) (log s) (from_ (cur (dat s)))); [done|]. right.
        eexists. split; [reflexivity|]. by exists (x (cur (dat s))), (xid (cur (dat s))), els.
      * split; [exact Hcore|]. cbn. split; [done|]. split; [done|]. by exists e, els.
    + rewrite Hw. split; [exact Hcore|]. cbn. split; [done|]. split; [done|]. by exists e, els.
  - destruct Hinv as [Hcore Hph]. split; cbn; [by eapply core_drop|].
    destruct (ph s); [done|..].
    + destruct Hph as (Hd & Hz & Hrun). split; [done|]. split; [done|]. by apply running_later.
    + destruct Hph as (Hd & Hz & e & els & Hrun). split; [done|]. split; [done|]. exists e, els. by apply running_later.
  - destruct Hinv as [Hcore Hph]. unfold deliver in H. cbn [HandleEvent] in H.
    destruct (negb (bool_decide (ph s = Idle)) && bool_decide (f = from_ (cur (dat s)))) eqn:Eq; unfold_sys H.
    + apply andb_true_iff in Eq as [Hi%negb_true_iff%bool_decide_eq_false Hfr%bool_decide_eq_true].
      rewrite bool_decide_false in H by congruence. injection H as <-. unfold current in Hcore. rewrite Hfr.
      assert (core (calls s) [from_ (cur (dat s))] (log s)) as Hcore' by (by destruct (ph s)). clear Hcore. apply (inv_idle (calls s) (log s) (from_ (cur (dat s)))); [exact Hcore'|by left].
    + rewrite bool_decide_true in H by done. injection H as <-. by destruct s, dat0.
  - assert (exists st, s' = mkSys (ph s) (dat s) (timer s) (active s) (calls s) (log s) st) as (st & ->).
    { unfold deliver in H. destruct Hev as [->|[->|[->|(e & ->)]]]; unfold_sys H; rewrite bool_decide_true in H by done;
        injection H as <-; by eexists. }
    by destruct Hinv.
Qed.

Lemma turn_log s s' : turn R m s s' -> exists l, log s' = log s ++ l.
Proof.
  assert (forall st d effs (s0 : sys), exists l, log (fold_left carry effs (enter s0 st d)) = log s0 ++ l) as Hc.
  { intros st d effs s0. assert (forall s1 : sys, exists l, log (fold_left carry effs s1) = log s1 ++ l) as Hgo.
    - induction effs as [|e effs IH]; intros s1; [exists []; by rewrite app_nil_r|]. cbn.
      destruct (IH (carry s1 e)) as (l & ->). destruct e; cbn; rewrite <-?app_assoc; by eexists.
    - destruct (Hgo (enter s0 st d)) as (l & ->). by exists l. }
  assert (forall s0 ev s1, deliver R m s0 ev = Ret s1 -> exists l, log s1 = log s0 ++ l) as Hd.
  { intros s0 ev s1 H. unfold deliver in H. bind_inv H. destruct a as [[st d] effs]. injection H as <-. apply Hc. }
  intros [s0 f req Hf|s0 s1 f req rest Hcs H|s0 s1 after t Htm H|s0 s1 b Ha Hb H|s0 f req l1 l2 Hcs|s0 s1 f Hf H|s0 s1 ev Hev H];
    cbn; try (by eexists).
  - destruct (Hd _ _ _ H) as (l & Hl). case_bool_decide; by exists l.
  - apply (Hd _ _ _ H).
  - apply (Hd _ _ _ H).
  - destruct (Hd _ _ _ H) as (l & Hl). case_match; cbn; rewrite Hl; rewrite <-?app_assoc; by eexists.
  - apply (Hd _ _ _ H).
Qed.

Lemma reach_inv seed s : reach R m seed s -> (forall f req, Asked f req ∈ log s -> timing_ok (xTiming req)) -> inv s.
Proof using jitter_tenth scaled_max.
  induction 1 as [|s s' _ IH _ Hturn]; intros Hall.
  - split; [|done]. split; cbn; try done; [constructor|..]; set_solver.
  - destruct (turn_log s s' Hturn) as (l & Hl).
    assert (forall f req, Asked f req ∈ log s -> timing_ok (xTiming req)) as Hall'.
    { intros f req H. apply (Hall f). rewrite Hl. apply elem_of_app. by left. }
    by eapply inv_turn; [..|apply IH|exact Hturn].
Qed.
End Runs.

Lemma send_total {rng} (m : machine) (d : data (rng := rng)) : exists r, send m d = Ret r.
Proof. by eexists. Qed.

Lemma HandleEvent_total {rng} (R : Rand rng) m st d ev :
  (forall b, ev = DataMsg b -> is_bytes b) -> exists r, HandleEvent R m st d ev = Ret r.
Proof.
  intros Hb. destruct ev as [f req| |[]|f|b|e| |]; cbn [HandleEvent]; try by eexists.
  - case_bool_decide; cbn [negb]; [|by eexists]. unfold start.
    destruct (Uint32 R (rngOf d)) as [v r], (FirstRT R (IRT (xTiming req)) r) as [rt0 r1],
      (InitialDelay R (InitialDelayMax (xTiming req)) r1) as [delay r2].
    destruct (0 <? delay); [by eexists|apply send_total].
  - unfold onRetransmit. destruct (_ && _); [by eexists|].
    destruct (NextRT R (rt (cur d)) (MRT (xTiming (x (cur d)))) (rngOf d)) as [next r]. apply send_total.
  - case_match; by eexists.
  - unfold onData. destruct (negb _); [by eexists|]. specialize (Hb b eq_refl).
    pose proof (ParseMessage_total b Hb) as Hp. destruct (ParseMessage b); [case_match; by eexists|by eexists|done].
Qed.

(** The exchanges of client.go keep to the bounds. *)
Lemma client_timings o codes : Forall (fun e => timing_ok (xTiming e))
  [InformationRequest codes; Solicit o; Request o; Renew o; Rebind o; Release o].
Proof. repeat constructor; cbn; unfold InfMaxDelay, InfTimeout, InfMaxRT, SolMaxDelay, SolTimeout, SolMaxRT, ReqTimeout,
  ReqMaxRT, ReqMaxRC, RenTimeout, RenMaxRT, RebTimeout, RebMaxRT, RelTimeout, RelMaxRC, Second; lia. Qed.

(** ** The handle on the client (client.go, Exchange) *)

(** A call of the actor library ends with the process's reply or with an error of its
    own; [ctxErr] is the caller's context's, if it is done by then. *)
Definition Client_Exchange (ctxErr : option string) (call : result + string) : outcome Message :=
  match call with
  | inr err => match ctxErr with Some e => Fail e | None => Fail "dhcpv6 client" end
  | inl (Answered msg) => Ret msg
  | inl ErrExhausted => Fail "dhcpv6: exchange giving up after max retransmission count"
  | inl (ErrOther e) => Fail e
  end.

(** ** Properties *)

(** C33: Every reply is right: a call is answered with a message only if that message
    answers the transmissions made for it (all of one transaction, the first at
    elapsed time 0), and told the exchange is exhausted only if it has a maximum
    retransmission count and exactly that many transmissions were made. *)
Theorem client_replies_right {rng} (R : Rand rng) m seed s :
  reach R m seed s ->
  (forall b r, 0 <= b -> - b <= 10 * (jitter R b r).1 <= b) -> (forall b r, 0 <= b -> 0 <= (scaled R b r).1 <= b) ->
  (forall f req, Asked f req ∈ log s -> timing_ok (xTiming req)) ->
  forall f r, Replied f r ∈ log s -> right_end m (log s) f r.
Proof. intros Hr Hj Hs Hall. exact (core_ends _ _ _ _ (inv_core _ _ (reach_inv R m Hj Hs seed s Hr Hall))). Qed.

(** So is what the handle's caller gets: a message only if it answers what was sent for
    the call, an abandoned exchange never. *)
Lemma Client_Exchange_right {rng} (R : Rand rng) m seed s :
  reach R m seed s ->
  (forall b r, 0 <= b -> - b <= 10 * (jitter R b r).1 <= b) -> (forall b r, 0 <= b -> 0 <= (scaled R b r).1 <= b) ->
  (forall f req, Asked f req ∈ log s -> timing_ok (xTiming req)) ->
  forall f call ctxErr msg, (forall r, call = inl r -> Replied f r ∈ log s) -> Client_Exchange ctxErr call = Ret msg ->
  exists req i, Asked f req ∈ log s /\ Answers req msg i (clientID m) = true.
Proof.
  intros Hr Hj Hs Hall f [[msg'| |e]|e] ctxErr msg Hc; [|done|done|by destruct ctxErr]. intros [= ->].
  destruct (core_ends _ _ _ _ (inv_core _ _ (reach_inv R m Hj Hs seed s Hr Hall)) f _ (Hc _ eq_refl)) as (req & i & els & Ha & _ & Hm).
  by exists req, i.
Qed.

(** The client is never stuck and loses no call: every call made is in exactly
    one place (waiting, running, or ended once, by its reply or its caller giving
    up); outside Idle a timer is pending, and while an answer is awaited the socket
    delivers; every event is handled. *)
Lemma client_never_stuck {rng} (R : Rand rng) m seed s :
  reach R m seed s ->
  (forall b r, 0 <= b -> - b <= 10 * (jitter R b r).1 <= b) -> (forall b r, 0 <= b -> 0 <= (scaled R b r).1 <= b) ->
  (forall f req, Asked f req ∈ log s -> timing_ok (xTiming req)) ->
  askedL (log s) ≡ₚ (calls s).*1 ++ match ph s with Idle => [] | _ => [from_ (cur (dat s))] end ++ endedL (log s)
  /\ NoDup (askedL (log s))
  /\ (ph s = Idle <-> timer s = None) /\ (ph s = Waiting -> active s = true)
  /\ (forall ev, (forall b, ev = DataMsg b -> is_bytes b) -> exists s', deliver R m s ev = Ret s').
Proof.
  intros Hr Hj Hs Hall. destruct (reach_inv R m Hj Hs seed s Hr Hall) as [Hcore Hph].
  split; [apply Hcore|]. split; [apply Hcore|]. split; [|split].
  - destruct (ph s); [by destruct Hph|..]; split; try done; intros Ht.
    + destruct Hph as ((d & Hd & _) & _). congruence.
    + destruct Hph as (Hd & _). congruence.
  - destruct (ph s); [done..|]. by destruct Hph as (_ & ? & _).
  - intros ev Hev. unfold deliver. destruct (HandleEvent_total R m (ph s) (dat s) ev Hev) as ([[st d] effs] & ->).
    by eexists.
Qed.

(** Every retransmission timeout pending is within RFC 3315's bounds: at least
    0.9 IRT, at most 1.1 MRT when there is a ceiling and otherwise within a factor of
    3 per transmission; and no more transmissions are made than MRC allows. *)
Lemma client_timeouts_bounded {rng} (R : Rand rng) m seed s after :
  reach R m seed s ->
  (forall b r, 0 <= b -> - b <= 10 * (jitter R b r).1 <= b) -> (forall b r, 0 <= b -> 0 <= (scaled R b r).1 <= b) ->
  (forall f req, Asked f req ∈ log s -> timing_ok (xTiming req)) ->
  timer s = Some (after, retransmit) ->
  9 * IRT (xTiming (x (cur (dat s)))) <= 10 * after
  /\ (MRT (xTiming (x (cur (dat s)))) <> 0 -> 10 * after <= 11 * MRT (xTiming (x (cur (dat s)))))
  /\ (MRC (xTiming (x (cur (dat s)))) <> 0 ->
        zlen (sendsL (from_ (cur (dat s))) (log s)) <= MRC (xTiming (x (cur (dat s))))
        /\ (MRT (xTiming (x (cur (dat s)))) = 0 ->
              after <= IRT (xTiming (x (cur (dat s)))) * 3 ^ zlen (sendsL (from_ (cur (dat s))) (log s)))).
Proof.
  intros Hr Hj Hs Hall Ht. destruct (reach_inv R m Hj Hs seed s Hr Hall) as [_ Hph].
  destruct (ph s); [by destruct Hph; congruence|by destruct Hph as ((d & Hd & _) & _); congruence|].
  destruct Hph as (Hd & _ & e & els & [Hask (H1 & H2 & H3) Hsends _ Hcnt]). rewrite Hd in Ht. injection Ht as <-.
  split; [done|]. split; [done|]. intros Hne. destruct (Hcnt Hne) as [Hn Hm]. rewrite Hsends.
  replace (zlen (enc m _ _ <$> e :: els)) with (zlen (e :: els)) by (unfold zlen; by rewrite length_fmap).
  split; [lia|done].
Qed.

(** ** Witnesses *)

(** A generator whose draws are all at their maximum. *)
Definition sample_rand : Rand Z :=
  mkRand Z (fun r => (u32 r, r + 1)) (fun b r => (Z.quot b 10, r + 1)) (fun b r => (b, r + 1)).

Lemma sample_jitter b r : 0 <= b -> - b <= 10 * (jitter sample_rand b r).1 <= b.
Proof. intros Hb. cbn. rewrite Z.quot_div_nonneg by lia. pose proof (Z.mul_div_le b 10 eq_refl). pose proof (Z.div_pos b 10). lia. Qed.

Lemma sample_scaled b r : 0 <= b -> 0 <= (scaled sample_rand b r).1 <= b.
Proof. cbn. lia. Qed.

Definition sample_machine : machine := mkMachine (A6 0xff020000000000000000000000010002 "wan0", 547) [0; 3; 0; 1; 2; 0; 0; 0; 0; 1].
Definition sample_start : sys := mkSys Idle (mkData 0x01020304 zero_exchange) None false [] [] false.
Definition sample_asked : sys :=
  add_log (set_calls sample_start [(7%nat, Release [])]) (Asked 7 (Release [])).

(** [s] after an event, as computed. *)
Definition after_ (s : sys) (ev : event) : sys :=
  match deliver sample_rand sample_machine s ev with Ret s' => s' | _ => s end.

Lemma after_eq s ev : ok (deliver sample_rand sample_machine s ev) = true ->
  deliver sample_rand sample_machine s ev = Ret (after_ s ev).
Proof. unfold after_. by destruct (deliver _ _ s ev). Qed.

Definition sample_waiting : sys := set_calls (after_ sample_asked (Call 7 (Release []))) [].

Lemma sample_waiting_reach : reach sample_rand sample_machine 0x01020304 sample_waiting.
Proof.
  apply (reach_turn _ _ _ sample_asked); [apply (reach_turn _ _ _ sample_start); [apply reach_init|reflexivity|]|reflexivity|].
  - apply (turn_ask _ _ sample_start 7 (Release [])). apply not_elem_of_nil.
  - apply (turn_call _ _ sample_asked (after_ sample_asked (Call 7 (Release []))) 7 (Release []) []); [reflexivity|].
    apply after_eq. vm_compute. reflexivity.
Qed.

(** Retransmitted until it is exhausted. *)
Definition tick (s : sys) : sys := after_ (set_timer s None) (StateTimeout retransmit).

Definition tick_ok (s : sys) : bool :=
  negb (stopped s) && match timer s with Some (_, retransmit) => true | _ => false end
  && ok (deliver sample_rand sample_machine (set_timer s None) (StateTimeout retransmit)).

Lemma tick_reach s : reach sample_rand sample_machine 0x01020304 s -> tick_ok s = true ->
  reach sample_rand sample_machine 0x01020304 (tick s).
Proof.
  unfold tick_ok. intros Hr [[Hs%negb_true_iff Ht]%andb_true_iff Hok]%andb_true_iff.
  destruct (timer s) as [[after []]|] eqn:Et; [done| |done].
  eapply reach_turn; [exact Hr|exact Hs|]. eapply turn_timer; [exact Et|]. by apply after_eq.
Qed.

Fixpoint ticks (n : nat) (s : sys) : sys := match n with O => s | S n' => tick (ticks n' s) end.

Lemma ticks_reach n s : reach sample_rand sample_machine 0x01020304 s ->
  forallb (fun k => tick_ok (ticks k s)) (seq 0 n) = true -> reach sample_rand sample_machine 0x01020304 (ticks n s).
Proof.
  intros Hr. induction n as [|n IH]; [done|]. rewrite seq_S, forallb_app. intros [H1 H2]%andb_true_iff.
  cbn in H2. rewrite andb_true_r in H2. apply tick_reach; [by apply IH|exact H2].
Qed.

Definition sample_done : sys := ticks 5 sample_waiting.

Lemma sample_done_reach : reach sample_rand sample_machine 0x01020304 sample_done.
Proof. apply ticks_reach; [apply sample_waiting_reach|]. vm_compute. reflexivity. Qed.

Lemma all_release (s : sys (rng := Z)) f req : Forall (fun e => match e with Asked _ r => r = Release [] | _ => True end) (log s) ->
  Asked f req ∈ log s -> timing_ok (xTiming req).
Proof.
  intros HF Hin. rewrite Forall_forall in HF. rewrite (HF _ Hin). pose proof (client_timings [] []) as Ht.
  rewrite !Forall_cons in Ht. apply Ht.
Qed.

Lemma sample_done_asked f req : Asked f req ∈ log sample_done -> timing_ok (xTiming req).
Proof. apply all_release. vm_compute. repeat constructor. Qed.

Lemma sample_done_log : Replied 7 ErrExhausted ∈ log sample_done.
Proof. vm_compute. do 6 right. left. Qed.

Lemma client_replies_right_witness : Replied 7 ErrExhausted ∈ log sample_done
  /\ right_end sample_machine (log sample_done) 7 ErrExhausted.
Proof.
  split; [exact sample_done_log|].
  apply (client_replies_right sample_rand sample_machine 0x01020304 sample_done sample_done_reach
    sample_jitter sample_scaled sample_done_asked). exact sample_done_log.
Defined.

Lemma client_never_stuck_witness : askedL (log sample_done) ≡ₚ [7%nat]
  /\ (forall ev, (forall b, ev = DataMsg b -> is_bytes b) -> exists s', deliver sample_rand sample_machine sample_done ev = Ret s').
Proof.
  destruct (client_never_stuck sample_rand sample_machine 0x01020304 sample_done sample_done_reach
    sample_jitter sample_scaled sample_done_asked) as (Hp & _ & _ & _ & Hall).
  split; [|exact Hall]. vm_compute. reflexivity.
Defined.

Lemma sample_waiting_asked f req : Asked f req ∈ log (tick sample_waiting) -> timing_ok (xTiming req).
Proof. apply all_release. vm_compute. repeat constructor. Qed.

Lemma sample_tick_reach : reach sample_rand sample_machine 0x01020304 (tick sample_waiting).
Proof. apply tick_reach; [apply sample_waiting_reach|]. vm_compute. reflexivity. Qed.

Lemma sample_tick_timer : timer (tick sample_waiting) = Some (2310000000, retransmit).
Proof. vm_compute. reflexivity. Qed.

Lemma client_timeouts_bounded_witness : 9 * IRT (xTiming (x (cur (dat (tick sample_waiting))))) <= 10 * 2310000000.
Proof.
  destruct (client_timeouts_bounded sample_rand sample_machine 0x01020304 (tick sample_waiting) 2310000000 sample_tick_reach
    sample_jitter sample_scaled sample_waiting_asked sample_tick_timer) as [H _]. exact H.
Defined.
