(* ===== verification/PrefixDelegation.v ===== *)
(** DHCPv6 prefix delegation: src/pkg/prefixdelegation (options.go, timers.go,
    lease.go, acquire.go, renew.go).  The IA_PD codec, what makes a delegation
    usable, the renewal timers a lease runs on, and the exchanges that acquire, renew
    and release one.  Instants are nanoseconds; a duration is an int64. *)

From S2P Require Import Prelude Wire Netip Dhcpv6.

Local Open Scope Z_scope.

(** ** Options (options.go) *)

Record StatusCode : Type := mkStatus { SCode : Z; SMessage : bytes }.

Definition StatusSuccess : Z := 0.

Record IAPrefix : Type := mkIAPrefix { PreferredLifetime : Z; ValidLifetime : Z; Prefix_ : Prefix }.

Record IAPD : Type := mkIAPD {
  IAID : bytes; T1 : Z; T2 : Z; Prefixes : list IAPrefix; Status : option StatusCode }.

#[export] Instance StatusCode_eq_dec : EqDecision StatusCode.
Proof. solve_decision. Defined.
#[export] Instance IAPrefix_eq_dec : EqDecision IAPrefix.
Proof. solve_decision. Defined.
#[export] Instance IAPD_eq_dec : EqDecision IAPD.
Proof. solve_decision. Defined.

Definition NewIAPDOption (iaid : bytes) : Option_ := mkOption OptionIAPD (field 4 iaid ++ zeros 8).

(** Whole seconds in 32 bits; Go's division truncates. *)
Definition seconds (d : Z) : bytes := be 4 (Z.quot d Second).

Definition iaPrefixOption (p : IAPrefix) : Option_ :=
  mkOption OptionIAPrefix
    (seconds (PreferredLifetime p) ++ seconds (ValidLifetime p) ++ [u8 (pbits (Prefix_ p))] ++ As16 (paddr (Prefix_ p))).

Definition IAPDOption (iapd : IAPD) : Option_ :=
  mkOption OptionIAPD
    (field 4 (IAID iapd) ++ seconds (T1 iapd) ++ seconds (T2 iapd)
       ++ Options_Marshal (iaPrefixOption <$> Prefixes iapd)).

Definition parseIAPrefix (data : bytes) : outcome IAPrefix :=
  if zlen data <? 25 then Fail "prefixdelegation: IAPREFIX suboption too short"
  else
    prefixLen ← idx data 8;
    if 128 <? prefixLen then Fail "prefixdelegation: IAPREFIX prefix length exceeds 128"
    else
      a ← slice data 9 25;
      match AddrFromSlice a with
      | None => Fail "prefixdelegation: malformed IAPREFIX address"
      | Some addr =>
        p ← slice data 0 4 ≫= get 4; v ← slice data 4 8 ≫= get 4;
        Ret (mkIAPrefix (p * Second) (v * Second) (PrefixFrom addr prefixLen))
      end.

Definition parseStatusCode (data : bytes) : outcome StatusCode :=
  if zlen data <? 2 then Fail "prefixdelegation: STATUS_CODE suboption too short"
  else c ← slice data 0 2 ≫= get 2; m ← from data 2; Ret (mkStatus c m).

(** The loop over the suboptions: prefixes are collected, the last status wins,
    anything else is skipped. *)
Fixpoint suboptions (subs : Options) (iapd : IAPD) : outcome IAPD :=
  match subs with
  | [] => Ret iapd
  | sub :: subs' =>
    if Code sub =? OptionIAPrefix then
      match parseIAPrefix (Data sub) with
      | Ret p => suboptions subs' (mkIAPD (IAID iapd) (T1 iapd) (T2 iapd) (Prefixes iapd ++ [p]) (Status iapd))
      | Fail e => Fail ("prefixdelegation: parsing IAPREFIX suboption: " +:+ e)
      | Panic => Panic
      end
    else if Code sub =? OptionStatusCode then
      match parseStatusCode (Data sub) with
      | Ret sc => suboptions subs' (mkIAPD (IAID iapd) (T1 iapd) (T2 iapd) (Prefixes iapd) (Some sc))
      | Fail e => Fail ("prefixdelegation: parsing STATUS_CODE suboption: " +:+ e)
      | Panic => Panic
      end
    else suboptions subs' iapd
  end.

Definition ParseIAPD (opt : Option_) : outcome IAPD :=
  if zlen (Data opt) <? 12 then Fail "prefixdelegation: IA_PD option too short"
  else
    t1 ← slice (Data opt) 4 8 ≫= get 4; t2 ← slice (Data opt) 8 12 ≫= get 4;
    iaid ← slice (Data opt) 0 4;
    sub ← from (Data opt) 12;
    match ParseSubOptions sub with
    | Ret subs => suboptions subs (mkIAPD (field 4 iaid) (t1 * Second) (t2 * Second) [] None)
    | Fail e => Fail ("prefixdelegation: parsing IA_PD suboptions: " +:+ e)
    | Panic => Panic
    end.

(** ** Timers (timers.go) *)

Definition infiniteLifetime : Z := 0xffffffff * Second.
Definition minDerivedT1 : Z := 60 * Second.

Definition shortest (life : IAPrefix -> Z) (prefixes : list IAPrefix) : Z :=
  match prefixes with
  | [] => 0
  | p :: rest => fold_left (fun acc q => if life q <? acc then life q else acc) rest (life p)
  end.
Definition shortestPreferredLifetime (prefixes : list IAPrefix) : Z := shortest PreferredLifetime prefixes.
Definition shortestValidLifetime (prefixes : list IAPrefix) : Z := shortest ValidLifetime prefixes.

Definition earlier (a b : Z) : Z := if (a =? 0) || ((0 <? b) && (b <? a)) then b else a.

Definition recommendedTimers (preferred : Z) : Z * Z :=
  if preferred =? infiniteLifetime then (infiniteLifetime, infiniteLifetime)
  else (Z.quot preferred 2, i64 (Z.quot preferred 5 * 4)).

(** The T1 chosen when the server left it open. *)
Definition derivedT1 (recT1 t2 valid : Z) : Z :=
  let t1 := if recT1 <? minDerivedT1 then minDerivedT1 else recT1 in
  let limit := earlier t2 valid in
  if (0 <? limit) && negb (limit =? infiniteLifetime) && (limit <=? t1) then Z.quot limit 2 else t1.

(** The T2 chosen when the server left it open. *)
Definition derivedT2 (recT2 t1 valid : Z) : Z :=
  let t2 := if t1 =? infiniteLifetime then infiniteLifetime
            else if t1 <? recT2 then recT2 else i64 (t1 + Z.quot t1 2) in
  if (t1 <? valid) && (valid <? t2) then valid else t2.

Definition effectiveTimers (iapd : IAPD) : Z * Z :=
  if (0 <? T1 iapd) && (0 <? T2 iapd) then (T1 iapd, T2 iapd)
  else
    let '(recT1, recT2) := recommendedTimers (shortestPreferredLifetime (Prefixes iapd)) in
    let valid := shortestValidLifetime (Prefixes iapd) in
    let t1 := if T1 iapd =? 0 then derivedT1 recT1 (T2 iapd) valid else T1 iapd in
    let t2 := if T2 iapd =? 0 then derivedT2 recT2 t1 valid else T2 iapd in
    (t1, t2).

(** ** Leases (lease.go, renew.go) *)

Definition clientIAID : bytes := [0; 0; 0; 1].

Record Lease : Type := mkLease {
  ServerID_ : DUID; LPrefixes : list IAPrefix; LT1 : Z; LT2 : Z; LDNSServers : list Addr; AcquiredAt : Z }.

Definition newLease (serverID : DUID) (iapd : IAPD) (dnsServers : list Addr) (now : Z) : Lease :=
  let '(t1, t2) := effectiveTimers iapd in
  mkLease serverID (Prefixes iapd) t1 t2 dnsServers now.

Definition iaPDOption (l : Lease) : Option_ := IAPDOption (mkIAPD clientIAID 0 0 (LPrefixes l) None).

Definition RenewAt (l : Lease) : Z := AcquiredAt l + LT1 l.
Definition RebindAt (l : Lease) : Z := AcquiredAt l + LT2 l.
Definition ExpiresAt (l : Lease) : Z := AcquiredAt l + shortestValidLifetime (LPrefixes l).

(** ** Usable delegations (acquire.go) *)

Definition usableIAPD (msg : Message) : outcome (IAPD * DUID) :=
  match ServerID (Opts msg) with
  | None => Fail "prefixdelegation: message missing OPTION_SERVERID"
  | Some serverID =>
    match Get (Opts msg) OptionIAPD with
    | None => Fail "prefixdelegation: message missing OPTION_IA_PD"
    | Some iaOpt =>
      iapd ← ParseIAPD iaOpt;
      if match Status iapd with Some sc => negb (SCode sc =? StatusSuccess) | None => false end
      then Fail "prefixdelegation: server returned status"
      else
        let ps := filter (fun p => (ValidLifetime p <? PreferredLifetime p) = false) (Prefixes iapd) in
        if zlen ps =? 0 then Fail "prefixdelegation: IA_PD carries no usable delegated prefixes"
        else if (0 <? T2 iapd) && (T2 iapd <? T1 iapd) then Fail "prefixdelegation: IA_PD has T1 greater than T2"
        else Ret (mkIAPD (IAID iapd) (T1 iapd) (T2 iapd) ps (Status iapd), serverID)
    end
  end.

Definition requestedOptions : Option_ := NewORO [OptionDNSServers].

(** A DNS servers option that is absent, or that cannot be read, is no servers. *)
Definition reply_dns (reply : Message) : list Addr :=
  match DNSServers (Opts reply) with Ret (Some s) => s | _ => [] end.

(** A nil serverID takes the reply's own. *)
Definition leaseFromReply (serverID : option DUID) (reply : Message) (now : Z) : outcome Lease :=
  '(granted, replyServerID) ← usableIAPD reply;
  Ret (newLease (default replyServerID serverID) granted (reply_dns reply) now).

(** ** The exchanges (acquire.go, renew.go) *)

(** What the caller's Exchanger, context and clock give, the [k]-th exchange being
    the one after [k] others: its answer, whether the context is over after it, and
    the time then.  Renew and Rebind give the Exchanger a deadline. *)
Record world : Type := mkWorld {
  answer : nat -> Exchange -> option Z -> outcome Message;
  ctxErr : nat -> option string;
  clock : nat -> Z }.

Section Exchanges.
Context (w : world).

Definition renew (k : nat) (l : Lease) : outcome Lease :=
  reply ← answer w k (Renew [mkOption OptionServerID (ServerID_ l); iaPDOption l; requestedOptions]) (Some (RebindAt l));
  leaseFromReply (Some (ServerID_ l)) reply (clock w (S k)).

Definition rebind (k : nat) (l : Lease) : outcome Lease :=
  reply ← answer w k (Rebind [iaPDOption l; requestedOptions]) (Some (ExpiresAt l));
  leaseFromReply None reply (clock w (S k)).

Definition release_ (l : Lease) : Exchange := Release [mkOption OptionServerID (ServerID_ l); iaPDOption l].

(** One round of Acquire's loop after [k] exchanges: the result, or [inl] the
    exchanges made when it starts again. *)
Definition again (k : nat) : nat + outcome Lease :=
  match ctxErr w k with Some e => inr (Fail e) | None => inl k end.

Definition acquire_round (k : nat) : nat + outcome Lease :=
  match answer w k (Solicit [NewIAPDOption clientIAID; requestedOptions]) None with
  | Panic => inr Panic
  | Fail e => inr (Fail ("prefixdelegation: soliciting: " +:+ e))
  | Ret advertise =>
    match usableIAPD advertise with
    | Panic => inr Panic
    | Fail _ => again (S k)
    | Ret (offered, serverID) =>
      match answer w (S k) (Request [mkOption OptionServerID serverID; IAPDOption offered; requestedOptions]) None with
      | Panic => inr Panic
      | Fail _ => again (S (S k))
      | Ret reply =>
        match usableIAPD reply with
        | Panic => inr Panic
        | Fail _ => again (S (S k))
        | Ret (granted, _) => inr (Ret (newLease serverID granted (reply_dns reply) (clock w (S (S k)))))
        end
      end
    end
  end.

(** [None]: still going after [fuel] rounds. *)
Fixpoint Acquire (fuel : nat) (k : nat) : option (outcome Lease) :=
  match fuel with
  | O => None
  | S fuel' => match acquire_round k with inl k' => Acquire fuel' k' | inr r => Some r end
  end.
End Exchanges.

(** ** Timers are sound *)

Definition life_ok (d : Z) : Prop := 0 <= d <= infiniteLifetime /\ d mod Second = 0.

(** What usableIAPD lets through. *)
Record iapd_usable (iapd : IAPD) : Prop := {
  us_some : Prefixes iapd <> [];
  us_lives : Forall (fun p => life_ok (PreferredLifetime p) /\ life_ok (ValidLifetime p)
                        /\ PreferredLifetime p <= ValidLifetime p) (Prefixes iapd);
  us_T1 : life_ok (T1 iapd);
  us_T2 : life_ok (T2 iapd);
  us_order : 0 < T2 iapd -> T1 iapd <= T2 iapd }.

Lemma shortest_fold (life : IAPrefix -> Z) rest acc :
  let s := fold_left (fun acc q => if life q <? acc then life q else acc) rest acc in
  s <= acc /\ (forall q, q ∈ rest -> s <= life q) /\ (s = acc \/ exists q, q ∈ rest /\ s = life q).
Proof.
  revert acc. induction rest as [|q rest IH]; intros acc; cbn.
  { split; [lia|]. split; [by intros q ?%elem_of_nil|by left]. }
  destruct (IH (if life q <? acc then life q else acc)) as (H1 & H2 & H3).
  destruct (Z.ltb_spec (life q) acc); (split; [lia|]; split; [intros q' [->|?]%elem_of_cons; [lia|auto]|]).
  - destruct H3 as [->|(q' & ? & ->)]; [right; exists q; split; [by left|done]|right; exists q'; split; [by right|done]].
  - destruct H3 as [->|(q' & ? & ->)]; [by left|right; exists q'; split; [by right|done]].
Qed.

Lemma shortest_spec life ps : ps <> [] ->
  (exists q, q ∈ ps /\ shortest life ps = life q) /\ forall q, q ∈ ps -> shortest life ps <= life q.
Proof.
  destruct ps as [|p ps]; [done|]. intros _. cbn [shortest].
  destruct (shortest_fold life ps (life p)) as (H1 & H2 & H3). split.
  - destruct H3 as [->|(q & ? & ->)]; [exists p|exists q]; split; try done; [by left|by right].
  - intros q [->|?]%elem_of_cons; [done|auto].
Qed.

Lemma shortest_lives iapd : iapd_usable iapd ->
  life_ok (shortestPreferredLifetime (Prefixes iapd)) /\ life_ok (shortestValidLifetime (Prefixes iapd))
  /\ shortestPreferredLifetime (Prefixes iapd) <= shortestValidLifetime (Prefixes iapd).
Proof.
  intros [Hs Hl _ _ _]. rewrite Forall_forall in Hl. unfold shortestPreferredLifetime, shortestValidLifetime.
  destruct (shortest_spec PreferredLifetime _ Hs) as [(p & Hp & Ep) Hpm], (shortest_spec ValidLifetime _ Hs) as [(v & Hv & Ev) _].
  rewrite Ep, Ev. destruct (Hl p Hp) as (? & _ & _), (Hl v Hv) as (_ & ? & ?). split; [done|]. split; [done|].
  specialize (Hpm v Hv). lia.
Qed.

(** A positive whole number of seconds. *)
Lemma life_second d : life_ok d -> 0 < d -> Second <= d.
Proof.
  intros [_ Hm] Hd. apply Z.mod_divide in Hm as (n & ->); [|done]. unfold Second in *. nia.
Qed.

Lemma quot2 d : 0 <= d -> d - 1 <= 2 * Z.quot d 2 <= d.
Proof. intros. rewrite Z.quot_div_nonneg by lia. pose proof (Z.div_mod d 2). pose proof (Z.mod_pos_bound d 2 eq_refl). lia. Qed.

Lemma recommended_range p : life_ok p ->
  0 <= (recommendedTimers p).1 <= infiniteLifetime /\ 0 <= (recommendedTimers p).2 <= infiniteLifetime
  /\ ((recommendedTimers p).1 = infiniteLifetime <-> p = infiniteLifetime)
  /\ ((recommendedTimers p).2 = infiniteLifetime -> p = infiniteLifetime).
Proof.
  intros [Hp _]. unfold recommendedTimers. destruct (Z.eqb_spec p infiniteLifetime) as [->|Hne]; cbn [fst snd].
  { unfold infiniteLifetime, Second. lia. }
  pose proof (quot2 p ltac:(lia)) as H2. rewrite (Z.quot_div_nonneg p 5) by lia.
  pose proof (Z.div_mod p 5 ltac:(lia)) as H5. pose proof (Z.mod_pos_bound p 5 eq_refl).
  unfold infiniteLifetime, Second in *. rewrite i64_id by lia. lia.
Qed.

Section Timers.
Context (iapd : IAPD) (Hu : iapd_usable iapd).
Let pref := shortestPreferredLifetime (Prefixes iapd).
Let valid := shortestValidLifetime (Prefixes iapd).

Lemma derivedT1_spec recT1 t2 : recT1 = (recommendedTimers pref).1 -> life_ok t2 ->
  0 < derivedT1 recT1 t2 valid <= infiniteLifetime
  /\ (0 < t2 -> derivedT1 recT1 t2 valid <= t2)
  /\ (0 < valid < infiniteLifetime -> derivedT1 recT1 t2 valid < valid)
  /\ (minDerivedT1 <= derivedT1 recT1 t2 valid \/ derivedT1 recT1 t2 valid = Z.quot (earlier t2 valid) 2).
Proof using Hu.
  intros -> Ht2. destruct (shortest_lives iapd Hu) as (Hp & Hv & Hpv).
  destruct (recommended_range pref Hp) as (Hr & _ & Hinf & _). revert Hr Hinf. generalize (recommendedTimers pref).1. intros r Hr Hinf.
  unfold derivedT1. set (t1 := if r <? minDerivedT1 then minDerivedT1 else r).
  assert (minDerivedT1 <= t1 <= infiniteLifetime /\ (t1 = infiniteLifetime -> pref = infiniteLifetime)) as [Ht1 Ht1i].
  { subst t1. unfold minDerivedT1, infiniteLifetime, Second in *. destruct (Z.ltb_spec r (60 * 1000000000)); lia. }
  unfold earlier. fold valid in Hv, Hpv. fold pref in Hpv.
  assert (0 < t2 -> Second <= t2) as Hs2 by (by apply life_second). assert (0 < valid -> Second <= valid) as Hsv by (by apply life_second).
  destruct Ht2 as [Ht2 _], Hv as [Hv _].
  assert (0 < minDerivedT1) by done. assert (minDerivedT1 < infiniteLifetime) by done. assert (1 < Second) by done.
  set (limit := if (t2 =? 0) || (0 <? valid) && (valid <? t2) then valid else t2).
  assert ((limit = 0 -> t2 = 0 /\ valid = 0) /\ (0 < t2 -> limit <= t2) /\ (0 < valid -> limit <= valid)
          /\ 0 <= limit /\ (0 < limit -> Second <= limit)
          /\ (limit = infiniteLifetime -> (valid = 0 \/ valid = infiniteLifetime) /\ (t2 = 0 \/ t2 = infiniteLifetime))) as (L0 & L2 & Lv & Lp & Ls & Li).
  { subst limit. destruct (Z.eqb_spec t2 0); cbn [orb]; [lia|]. destruct (Z.ltb_spec 0 valid), (Z.ltb_spec valid t2); cbn [andb]; lia. }
  clearbody limit t1. pose proof (quot2 limit Lp).
  clear Hr Hinf Ht1i Hpv Hs2 Hsv Hp Hu.
  destruct ((0 <? limit) && negb (limit =? infiniteLifetime) && (limit <=? t1)) eqn:Eb.
  - apply andb_true_iff in Eb as [[Hl%Z.ltb_lt Hi%negb_true_iff%Z.eqb_neq]%andb_true_iff Ht%Z.leb_le].
    clear Li L0. specialize (Ls Hl). split; [lia|]. split; [lia|]. split; [lia|by right].
  - assert (limit <= 0 \/ limit = infiniteLifetime \/ t1 < limit) as Hcase.
    { apply andb_false_iff in Eb as [[E%Z.ltb_ge|E%negb_false_iff%Z.eqb_eq]%andb_false_iff|E%Z.leb_gt]; auto. }
    clear Eb Ls. split; [lia|]. split; [intros Hx; destruct Hcase as [?|[?|?]]; lia|].
    split; [intros Hx; destruct Hcase as [?|[?|?]]; lia|left; lia].
Qed.

Lemma derivedT2_spec recT2 t1 : recT2 = (recommendedTimers pref).2 -> 0 < t1 <= infiniteLifetime ->
  t1 <= derivedT2 recT2 t1 valid < 2 ^ 63
  /\ (t1 < infiniteLifetime -> 1 < t1 -> t1 < derivedT2 recT2 t1 valid)
  /\ (t1 < valid -> derivedT2 recT2 t1 valid <= valid).
Proof using Hu.
  intros -> Ht1. destruct (shortest_lives iapd Hu) as (Hp & Hv & Hpv).
  destruct (recommended_range pref Hp) as (_ & Hr & _ & _). revert Hr. generalize (recommendedTimers pref).2. intros r Hr.
  fold valid in Hv. unfold derivedT2. pose proof (quot2 t1 ltac:(lia)). destruct Hv as [Hv _].
  assert (infiniteLifetime = 4294967295000000000) as Hi by done.
  rewrite (i64_id (t1 + Z.quot t1 2)) by lia.
  destruct (Z.eqb_spec t1 infiniteLifetime), (Z.ltb_spec t1 r), (Z.ltb_spec t1 valid); cbn [andb];
    match goal with |- context [valid <? ?t] => destruct (Z.ltb_spec valid t) | _ => idtac end; lia.
Qed.
End Timers.

(** ** The codec *)

Definition iaprefix_wf (p : IAPrefix) : Prop :=
  life_ok (PreferredLifetime p) /\ life_ok (ValidLifetime p)
  /\ (match paddr (Prefix_ p) with A6 v z => 0 <= v < 2 ^ 128 /\ z = "" | _ => False end)
  /\ 0 <= pbits (Prefix_ p) <= 128.

Definition iapd_wf (i : IAPD) : Prop :=
  zlen (IAID i) = 4 /\ is_bytes (IAID i) /\ life_ok (T1 i) /\ life_ok (T2 i) /\ Forall iaprefix_wf (Prefixes i).

#[export] Instance life_ok_dec d : Decision (life_ok d).
Proof. unfold life_ok. apply _. Defined.
#[export] Instance iaprefix_wf_dec p : Decision (iaprefix_wf p).
Proof. unfold iaprefix_wf. destruct (paddr (Prefix_ p)); apply _. Defined.
#[export] Instance iapd_wf_dec i : Decision (iapd_wf i).
Proof. unfold iapd_wf. apply _. Defined.

(** A lifetime in seconds, written and read. *)
Lemma seconds_back d : life_ok d -> exists n, d = n * Second /\ 0 <= n < 2 ^ 32 /\ seconds d = be 4 n.
Proof.
  intros [Hd Hm]. apply Z.mod_divide in Hm as (n & ->); [|done]. exists n. split; [done|].
  unfold infiniteLifetime, Second in *. split; [lia|]. unfold seconds, Second. by rewrite Z.quot_mul by lia.
Qed.

Lemma seconds_life n : 0 <= n < 2 ^ 32 -> life_ok (n * Second).
Proof. intros Hn. split; [unfold infiniteLifetime, Second; lia|]. apply Z.mod_mul. done. Qed.

Lemma unbe4_life b i j v : is_bytes b -> j = i + 4 -> slice b i j ≫= get 4 = Ret v -> life_ok (v * Second).
Proof.
  intros Hb -> H. bind_inv H. pose proof (is_bytes_slice _ _ _ _ Hb E) as Ha. apply slice_inv in E as (_ & _ & Hl).
  unfold get in H. rewrite slice_full in H by lia. cbn in H. injection H as <-. apply seconds_life.
  pose proof (unbe_bound a Ha). replace (zlen a) with 4 in * by lia. done.
Qed.

Lemma parseIAPrefix_ok data p : is_bytes data -> parseIAPrefix data = Ret p ->
  life_ok (PreferredLifetime p) /\ life_ok (ValidLifetime p).
Proof.
  intros Hb H. unfold parseIAPrefix in H. destruct (_ <? 25); [done|]. bind_inv H. destruct (128 <? a); [done|].
  bind_inv H. destruct (AddrFromSlice a0); [|done]. bind_inv H. bind_inv H. injection H as <-. cbn.
  split; eapply unbe4_life; [done| |exact E1|done| |exact E2]; done.
Qed.

Lemma parse_iaPrefixOption p : iaprefix_wf p -> parseIAPrefix (Data (iaPrefixOption p)) = Ret p.
Proof.
  destruct p as [pl vl [[|v|v z] bits]]; intros (Hp & Hv & Ha & Hb); cbn in Hp, Hv, Ha, Hb; try done.
  destruct Ha as [Ha ->]. destruct (seconds_back pl Hp) as (n & -> & Hn & Sn), (seconds_back vl Hv) as (k & -> & Hk & Sk).
  unfold parseIAPrefix, iaPrefixOption. cbn [Data PreferredLifetime ValidLifetime Prefix_ paddr pbits As16].
  rewrite Sn, Sk. rewrite Z.mod_small by lia. cbn [app].
  replace (_ <? 25) with false by (symmetry; apply Z.ltb_ge; zlen_lia).
  rewrite idx_app_r by zlen_lia. rewrite idx_app_r by zlen_lia. rewrite idx_start, bind_ret by zlen_lia.
  replace (128 <? bits) with false by (symmetry; apply Z.ltb_ge; lia).
  rewrite (slice_app_r _ _ 9 25) by zlen_lia. rewrite (slice_app_r (be 4 k)) by zlen_lia.
  rewrite slice_cons_S by zlen_lia. rewrite (slice_whole (be 16 v)), bind_ret by zlen_lia.
  unfold AddrFromSlice. rewrite zlen_be. change (Z.of_nat 16 =? 4) with false. change (Z.of_nat 16 =? 16) with true. cbn iota.
  rewrite AddrFrom16_be by exact Ha. rewrite (slice_start (be 4 n) _ 0 4), bind_ret by zlen_lia.
  assert (forall m, 0 <= m < 2 ^ 32 -> get 4 (be 4 m) = Ret m) as Hg.
  { intros m Hm. rewrite <- (app_nil_r (be 4 m)). by apply get_be. }
  rewrite Hg, bind_ret by done. rewrite (slice_app_r _ _ 4 8) by zlen_lia. rewrite (slice_start (be 4 k)), bind_ret by zlen_lia.
  rewrite Hg, bind_ret by done. unfold PrefixFrom. cbn [IsValid BitLen WithoutZone].
  by rewrite (proj2 (Z.leb_le 0 bits)), (proj2 (Z.leb_le bits 128)) by lia.
Qed.

Lemma suboptions_ok subs i i' : Forall opt_wf subs -> Forall (fun p => life_ok (PreferredLifetime p) /\ life_ok (ValidLifetime p)) (Prefixes i) ->
  suboptions subs i = Ret i' ->
  T1 i' = T1 i /\ T2 i' = T2 i /\ Forall (fun p => life_ok (PreferredLifetime p) /\ life_ok (ValidLifetime p)) (Prefixes i').
Proof.
  intros Ho. revert i. induction Ho as [|sub subs (_ & _ & Hb) Ho IH]; intros i Hi; cbn [suboptions]; [by intros [= <-]|].
  destruct (Code sub =? OptionIAPrefix).
  - destruct (parseIAPrefix (Data sub)) as [p| |] eqn:E; [|done..]. intros H. apply IH in H; [done|].
    cbn. apply Forall_app. split; [done|]. apply Forall_singleton. by apply (parseIAPrefix_ok (Data sub)).
  - destruct (Code sub =? OptionStatusCode); [|by apply IH]. destruct (parseStatusCode (Data sub)); [|done..].
    intros H. by apply IH in H.
Qed.

Lemma ParseIAPD_ok opt i : is_bytes (Data opt) -> ParseIAPD opt = Ret i ->
  life_ok (T1 i) /\ life_ok (T2 i) /\ Forall (fun p => life_ok (PreferredLifetime p) /\ life_ok (ValidLifetime p)) (Prefixes i).
Proof.
  intros Hb H. unfold ParseIAPD in H. destruct (_ <? 12); [done|]. bind_inv H. rename a into t1, E into E1.
  bind_inv H. rename a into t2, E into E2. bind_inv H. bind_inv H.
  pose proof (is_bytes_slice _ _ _ _ Hb E0) as Hsub.
  destruct (ParseSubOptions a0) as [subs| |] eqn:Es; [|done..]. apply parseOptions_iff in Es as [Hsubs _]; [|done].
  apply suboptions_ok in H as (-> & -> & HF); [|done|constructor]. split; [|split; [|done]].
  - by apply (unbe4_life (Data opt) 4 8).
  - by apply (unbe4_life (Data opt) 8 12).
Qed.

Lemma suboptions_prefixes ps : Forall iaprefix_wf ps -> forall i,
  suboptions (iaPrefixOption <$> ps) i = Ret (mkIAPD (IAID i) (T1 i) (T2 i) (Prefixes i ++ ps) (Status i)).
Proof.
  induction 1 as [|p ps Hp _ IH]; intros i; cbn [suboptions fmap list_fmap].
  { rewrite app_nil_r. by destruct i. }
  change (Code (iaPrefixOption p) =? OptionIAPrefix) with true. cbn iota.
  rewrite parse_iaPrefixOption by done. rewrite IH. cbn. by rewrite <- app_assoc.
Qed.

Lemma iaPrefixOption_wf p : opt_wf (iaPrefixOption p).
Proof.
  split; [by cbn|]. unfold iaPrefixOption, seconds. cbn [Data]. split.
  - rewrite !zlen_app, !zlen_be, zlen_As16. done.
  - rewrite !is_bytes_app. split; [auto with wire|]. split; [auto with wire|]. split; [|apply is_bytes_As16].
    apply Forall_singleton, is_byte_u8.
Qed.

(** What usableIAPD accepts is usable, whatever the message. *)
Lemma usableIAPD_usable msg i sid : message_wf msg -> usableIAPD msg = Ret (i, sid) ->
  iapd_usable i /\ ServerID (Opts msg) = Some sid.
Proof.
  intros (_ & _ & _ & Ho) H. unfold usableIAPD in H. destruct (ServerID (Opts msg)) as [s|]; [|done].
  destruct (Get (Opts msg) OptionIAPD) as [opt|] eqn:Eg; [|done]. bind_inv H. rename a into i0.
  assert (is_bytes (Data opt)) as Hb.
  { clear -Ho Eg. induction Ho as [|o l (_ & _ & Hd) Ho IH]; [done|]. cbn in Eg. destruct (Code o =? OptionIAPD); [|auto].
    by injection Eg as <-. }
  apply ParseIAPD_ok in E as (H1 & H2 & HF); [|done]. destruct (match Status i0 with Some _ => _ | None => _ end); [done|].
  destruct (Z.eqb_spec (zlen (filter (fun p => (ValidLifetime p <? PreferredLifetime p) = false) (Prefixes i0))) 0) as [|Hn]; [done|].
  destruct ((0 <? T2 i0) && (T2 i0 <? T1 i0)) eqn:Eq; [done|]. injection H as <- <-. split; [|done]. split; cbn; try done.
  - intros He. rewrite He in Hn. done.
  - rewrite Forall_forall in HF |- *. intros p [Hle Hp]%list_elem_of_filter. apply Z.ltb_ge in Hle. destruct (HF p Hp). done.
  - intros Hpos. apply andb_false_iff in Eq as [E%Z.ltb_ge|E%Z.ltb_ge]; lia.
Qed.

Lemma effectiveTimers_spec i : iapd_usable i ->
  let t1 := (effectiveTimers i).1 in let t2 := (effectiveTimers i).2 in
  let valid := shortestValidLifetime (Prefixes i) in
  (0 < T1 i -> t1 = T1 i) /\ (0 < T2 i -> t2 = T2 i) /\ 0 < t1 <= t2 /\ t2 < 2 ^ 63
  /\ (T1 i = 0 -> 0 < valid < infiniteLifetime -> t1 < valid)
  /\ (T1 i = 0 -> minDerivedT1 <= t1 \/ t1 = Z.quot (earlier (T2 i) valid) 2)
  /\ (T2 i = 0 -> t1 < infiniteLifetime -> 1 < t1 -> t1 < t2) /\ (T2 i = 0 -> t1 < valid -> t2 <= valid).
Proof.
  intros Hu t1 t2 valid. subst t1 t2. unfold effectiveTimers.
  pose proof (us_T1 i Hu) as H1. pose proof (us_T2 i Hu) as H2. pose proof (us_order i Hu) as Ho.
  pose proof H1 as [H1' _]. pose proof H2 as [H2' _]. assert (infiniteLifetime < 2 ^ 63) by done.
  destruct ((0 <? T1 i) && (0 <? T2 i)) eqn:Eb; cbn [fst snd].
  { apply andb_true_iff in Eb as [?%Z.ltb_lt ?%Z.ltb_lt]. specialize (Ho ltac:(lia)).
    split; [done|]. split; [done|]. split; [lia|]. split; [lia|]. split; [lia|]. split; [lia|]. split; lia. }
  pose proof (derivedT1_spec i Hu (recommendedTimers (shortestPreferredLifetime (Prefixes i))).1 (T2 i) eq_refl H2) as HT1.
  pose proof (derivedT2_spec i Hu (recommendedTimers (shortestPreferredLifetime (Prefixes i))).2) as HT2. fold valid in HT1, HT2 |- *.
  destruct (recommendedTimers _) as [r1 r2]. cbn [fst snd] in HT1, HT2 |- *.
  apply andb_false_iff in Eb. rewrite !Z.ltb_ge in Eb. destruct (Z.eqb_spec (T1 i) 0) as [E1|E1].
  - destruct HT1 as (Hr & Hle & Hv & Hm). destruct (Z.eqb_spec (T2 i) 0) as [E2|E2].
    + destruct (HT2 _ eq_refl Hr) as (Hb & Hs & Hc). clear HT2 Eb.
      split; [lia|]. split; [lia|]. split; [lia|]. split; [lia|]. split; [done|]. split; [done|]. split; auto.
    + clear HT2 Eb. specialize (Hle ltac:(lia)).
      split; [lia|]. split; [done|]. split; [lia|]. split; [lia|]. split; [done|]. split; [done|]. split; lia.
  - destruct (Z.eqb_spec (T2 i) 0) as [E2|E2]; [|lia].
    destruct (HT2 (T1 i) eq_refl ltac:(lia)) as (Hb & Hs & Hc). clear HT1 HT2 Eb.
    split; [done|]. split; [lia|]. split; [lia|]. split; [lia|]. split; [lia|]. split; [lia|]. split; auto.
Qed.

Lemma read_total n b i j : 0 <= i -> j = i + Z.of_nat n -> j <= zlen b -> no_panic (slice b i j ≫= get n) = true.
Proof.
  intros Hi -> Hj. rewrite slice_ok, bind_ret by lia. apply get_no_panic. rewrite zlen_take, zlen_drop. lia.
Qed.

Lemma parseIAPrefix_total b : is_bytes b -> no_panic (parseIAPrefix b) = true.
Proof.
  intros Hb. unfold parseIAPrefix. destruct (Z.ltb_spec (zlen b) 25); [done|].
  apply bind_no_panic; [by rewrite idx_ok by lia|]. intros l _. destruct (128 <? l); [done|].
  apply bind_no_panic; [by rewrite slice_ok by lia|]. intros a _. destruct (AddrFromSlice a); [|done].
  apply bind_no_panic; [apply read_total; lia|]. intros p _.
  apply bind_no_panic; [apply read_total; lia|]. done.
Qed.

Lemma suboptions_total subs i : Forall opt_wf subs -> no_panic (suboptions subs i) = true.
Proof.
  intros Ho. revert i. induction Ho as [|sub subs (_ & _ & Hb) Ho IH]; intros i; cbn [suboptions]; [done|].
  destruct (Code sub =? OptionIAPrefix).
  - pose proof (parseIAPrefix_total (Data sub) Hb). destruct (parseIAPrefix (Data sub)); [apply IH|done..].
  - destruct (Code sub =? OptionStatusCode); [|apply IH]. unfold parseStatusCode.
    destruct (Z.ltb_spec (zlen (Data sub)) 2); [done|].
    pose proof (read_total 2 (Data sub) 0 2 ltac:(lia) eq_refl ltac:(lia)) as Hp.
    destruct (slice (Data sub) 0 2 ≫= get 2); [|done..]. rewrite bind_ret, from_ok, bind_ret by lia. apply IH.
Qed.

Lemma ParseIAPD_total opt : is_bytes (Data opt) -> no_panic (ParseIAPD opt) = true.
Proof.
  intros Hb. unfold ParseIAPD. destruct (Z.ltb_spec (zlen (Data opt)) 12); [done|].
  apply bind_no_panic; [apply read_total; lia|]. intros t1 _.
  apply bind_no_panic; [apply read_total; lia|]. intros t2 _.
  rewrite slice_ok, bind_ret by lia. rewrite from_ok, bind_ret by lia. unfold ParseSubOptions.
  pose proof (options_total (drop (Z.to_nat 12) (Data opt)) ltac:(auto with wire)) as Hp.
  destruct (parseOptions _) eqn:E; [|done..]. apply parseOptions_iff in E as [Hs _]; [|auto with wire].
  by apply suboptions_total.
Qed.

(** ** Properties *)

(** IA_PD options: decoding is total on any option, and reads back what
    IAPDOption writes (whole-second lifetimes of 32 bits, IPv6 prefixes). *)
Lemma ParseIAPD_IAPDOption :
  (forall opt, is_bytes (Data opt) -> no_panic (ParseIAPD opt) = true)
  /\ (forall i, iapd_wf i -> Status i = None -> ParseIAPD (IAPDOption i) = Ret i).
Proof.
  split.
  - apply ParseIAPD_total.
  - intros [iaid t1 t2 ps st] (Hl & Hi & H1 & H2 & Hps) Hst. cbn in Hl, Hi, H1, H2, Hps, Hst. subst st.
    destruct (seconds_back t1 H1) as (n & -> & Hn & Sn), (seconds_back t2 H2) as (k & -> & Hk & Sk).
    unfold ParseIAPD, IAPDOption. cbn [Data IAID T1 T2 Prefixes]. rewrite Sn, Sk, field_exact by done.
    set (sub := Options_Marshal (iaPrefixOption <$> ps)).
    replace (_ <? 12) with false by (symmetry; apply Z.ltb_ge; zlen_lia).
    assert (forall m s, 0 <= m < 2 ^ 32 -> slice (be 4 m ++ s) 0 4 ≫= get 4 = Ret m) as Hg.
    { intros m s Hm. rewrite (slice_start (be 4 m)), bind_ret by zlen_lia. rewrite <- (app_nil_r (be 4 m)). by apply get_be. }
    rewrite (slice_app_r iaid _ 4 8), Hl by lia. change (4 - 4) with 0. change (8 - 4) with 4. rewrite Hg, bind_ret by done.
    rewrite (slice_app_r iaid _ 8 12), Hl, (slice_app_r (be 4 n)) by zlen_lia.
    rewrite zlen_be. change (8 - 4 - Z.of_nat 4) with 0. change (12 - 4 - Z.of_nat 4) with 4. rewrite Hg, bind_ret by done.
    rewrite (slice_start iaid), bind_ret by lia.
    do 3 rewrite from_app_r by zlen_lia. rewrite from_start, bind_ret by zlen_lia.
    unfold ParseSubOptions. assert (Forall opt_wf (iaPrefixOption <$> ps)) as Hw
      by (apply Forall_fmap; apply Forall_true; intros p; apply iaPrefixOption_wf).
    rewrite (proj2 (parseOptions_iff sub (iaPrefixOption <$> ps) (is_bytes_Marshal _ Hw))) by done.
    rewrite suboptions_prefixes by done. cbn. by rewrite field_exact.
Qed.

(** C26: The renewal timers a delegation runs on are sound, whatever message granted
    it: a timer the server set is used as it is; T1 is positive and not after T2,
    nothing overflows; a T1 left open is a minute at least, or half the first of the
    deadlines (the server's T2, the shortest valid lifetime) it must come before; a
    T2 left open does not outlive a binding T1 is within. *)
Theorem effectiveTimers_sound msg i sid t1 t2 :
  message_wf msg -> usableIAPD msg = Ret (i, sid) -> effectiveTimers i = (t1, t2) ->
  (0 < T1 i -> t1 = T1 i) /\ (0 < T2 i -> t2 = T2 i) /\ 0 < t1 <= t2 /\ t2 < 2 ^ 63
  /\ (T1 i = 0 -> 0 < shortestValidLifetime (Prefixes i) < infiniteLifetime -> t1 < shortestValidLifetime (Prefixes i))
  /\ (T1 i = 0 -> 60 * Second <= t1 \/ t1 = Z.quot (earlier (T2 i) (shortestValidLifetime (Prefixes i))) 2)
  /\ (T2 i = 0 -> t1 < infiniteLifetime -> 1 < t1 -> t1 < t2)
  /\ (T2 i = 0 -> t1 < shortestValidLifetime (Prefixes i) -> t2 <= shortestValidLifetime (Prefixes i)).
Proof.
  intros Hm Hu Ht. apply usableIAPD_usable in Hu as [Hu _]; [|done].
  pose proof (effectiveTimers_spec i Hu) as H. rewrite Ht in H. exact H.
Qed.

(** A lease fit to run the renewal ladder on. *)
Definition lease_ok (l : Lease) : Prop :=
  LPrefixes l <> []
  /\ Forall (fun p => 0 <= PreferredLifetime p <= ValidLifetime p) (LPrefixes l)
  /\ 0 < LT1 l <= LT2 l.

Lemma newLease_ok sid i dns now : iapd_usable i -> lease_ok (newLease sid i dns now)
  /\ ServerID_ (newLease sid i dns now) = sid /\ AcquiredAt (newLease sid i dns now) = now.
Proof.
  intros Hu. pose proof (effectiveTimers_spec i Hu) as H. unfold newLease.
  destruct (effectiveTimers i) as [t1 t2]. cbn [fst snd] in H. split; [|done]. split; [apply Hu|]. split; [|cbn; lia].
  pose proof (us_lives i Hu) as Hl. eapply Forall_impl; [exact Hl|]. cbn. intros p ([? _] & _ & ?). lia.
Qed.

Lemma leaseFromReply_ok sid reply now l : message_wf reply -> leaseFromReply sid reply now = Ret l ->
  lease_ok l /\ AcquiredAt l = now /\ (forall s, sid = Some s -> ServerID_ l = s)
  /\ (sid = None -> ServerID (Opts reply) = Some (ServerID_ l)).
Proof.
  intros Hm H. unfold leaseFromReply in H. bind_inv H. destruct a as [i rsid]. injection H as <-.
  apply usableIAPD_usable in E as [Hu Hs]; [|done].
  destruct (newLease_ok (default rsid sid) i (reply_dns reply) now Hu) as (? & Hid & ?).
  split; [done|]. split; [done|]. rewrite Hid. split; [by intros s ->|by intros ->].
Qed.

Section Found.
Context (w : world).
Hypothesis answers_wf : forall k e d m, answer w k e d = Ret m -> message_wf m.

Lemma acquire_round_ok k l : acquire_round w k = inr (Ret l) -> lease_ok l.
Proof using answers_wf.
  unfold acquire_round, again. destruct (answer w k _ None) as [adv| |] eqn:Ea; [|done..].
  destruct (usableIAPD adv) as [[offered sid]| |] eqn:Eu; [|by destruct (ctxErr w (S k))|done].
  destruct (answer w (S k) _ None) as [rep| |] eqn:Er; [|by destruct (ctxErr w (S (S k)))|done].
  destruct (usableIAPD rep) as [[granted sid']| |] eqn:Eg; [|by destruct (ctxErr w (S (S k)))|done].
  intros [= <-]. apply usableIAPD_usable in Eg as [Hu _]; [|by eapply answers_wf]. by apply newLease_ok.
Qed.

Lemma Acquire_ok fuel k l : Acquire w fuel k = Some (Ret l) -> lease_ok l.
Proof using answers_wf.
  revert k. induction fuel as [|fuel IH]; intros k; [done|]. cbn [Acquire].
  destruct (acquire_round w k) as [k'|r] eqn:E; [apply IH|]. intros [= ->]. by eapply acquire_round_ok.
Qed.
End Found.

(** Every lease this package returns is fit to run on, whatever the servers
    answer: it holds a prefix at least, no prefix preferred beyond its validity, and
    positive timers in order.  Renew keeps the server, Rebind takes the one that
    answered. *)
Lemma leases_sound w k l l' fuel :
  (forall k e d m, answer w k e d = Ret m -> message_wf m) ->
  (Acquire w fuel k = Some (Ret l) -> lease_ok l)
  /\ (renew w k l = Ret l' -> lease_ok l' /\ ServerID_ l' = ServerID_ l /\ RenewAt l' <= RebindAt l')
  /\ (rebind w k l = Ret l' -> lease_ok l' /\ RenewAt l' <= RebindAt l'
        /\ exists reply, ServerID (Opts reply) = Some (ServerID_ l')
             /\ answer w k (Rebind [iaPDOption l; requestedOptions]) (Some (ExpiresAt l)) = Ret reply).
Proof.
  intros Hw. split; [by apply Acquire_ok|]. unfold renew, rebind, RenewAt, RebindAt. split; intros H; bind_inv H.
  - apply leaseFromReply_ok in H as (Hok & _ & Hs & _); [|by eapply Hw]. pose proof Hok as (_ & _ & ?).
    split; [done|]. split; [by apply Hs|lia].
  - apply leaseFromReply_ok in H as (Hok & _ & _ & Hs); [|by eapply Hw]. pose proof Hok as (_ & _ & ?).
    split; [done|]. split; [lia|]. exists a. split; [by apply Hs|done].
Qed.

(** C28: Acquire gets a lease as soon as the network gives one: if Solicits are
    answered, the caller's context lives on, and from the [K]-th exchange on
    Advertises and Replies are usable, then it returns a lease within [K + 1] rounds,
    whatever it was sent before. *)
Theorem Acquire_succeeds w K :
  (forall k e d m, answer w k e d = Ret m -> message_wf m) ->
  (forall k, ctxErr w k = None) ->
  (forall k e d, answer w k e d <> Panic) ->
  (forall k o d, exists adv, answer w k (Solicit o) d = Ret adv) ->
  (forall k o d adv, (K <= k)%nat -> answer w k (Solicit o) d = Ret adv -> exists u, usableIAPD adv = Ret u) ->
  (forall k o d, (K <= k)%nat -> exists rep u, answer w k (Request o) d = Ret rep /\ usableIAPD rep = Ret u) ->
  exists l, Acquire w (S K) 0 = Some (Ret l).
Proof.
  intros Hw Hctx Hnp Hsol Hadv Hreq.
  assert (forall m, message_wf m -> usableIAPD m <> Panic) as Hup.
  { intros m (_ & _ & _ & Ho). unfold usableIAPD. destruct (ServerID (Opts m)); [|done].
    destruct (Get (Opts m) OptionIAPD) as [opt|] eqn:Eg; [|done].
    assert (is_bytes (Data opt)) as Hb.
    { clear -Ho Eg. induction Ho as [|o l (_ & _ & Hd) Ho IH]; [done|]. cbn in Eg. destruct (Code o =? OptionIAPD); [|auto].
      by injection Eg as <-. }
    pose proof (ParseIAPD_total opt Hb). destruct (ParseIAPD opt) as [i| |]; [|done..]. rewrite bind_ret.
    repeat case_match; done. }
  assert (forall k, (exists l, acquire_round w k = inr (Ret l)) \/ (k < K)%nat /\ exists k', acquire_round w k = inl k' /\ (k < k')%nat) as Hround.
  { intros k. unfold acquire_round, again. destruct (Hsol k [NewIAPDOption clientIAID; requestedOptions] None) as (adv & Ea). rewrite Ea.
    destruct (usableIAPD adv) as [[offered sid]| |] eqn:Eu.
    2: { right. rewrite Hctx. split; [|by exists (S k); split; [|lia]]. destruct (decide (K <= k)%nat) as [HK|]; [|lia].
         destruct (Hadv k _ _ _ HK Ea) as (u & Hu). congruence. }
    2: { exfalso. eapply Hup; [by eapply Hw|done]. }
    destruct (answer w (S k) _ None) as [rep| |] eqn:Er.
    2: { right. rewrite Hctx. split; [|by exists (S (S k)); split; [|lia]]. destruct (decide (K <= k)%nat) as [HK|]; [|lia].
         destruct (Hreq (S k) [mkOption OptionServerID sid; IAPDOption offered; requestedOptions] None ltac:(lia)) as (r & u & ? & _). congruence. }
    2: { by eapply Hnp in Er. }
    destruct (usableIAPD rep) as [[granted sid']| |] eqn:Eg; [by left; eexists| |].
    - right. rewrite Hctx. split; [|by exists (S (S k)); split; [|lia]]. destruct (decide (K <= k)%nat) as [HK|]; [|lia].
      destruct (Hreq (S k) [mkOption OptionServerID sid; IAPDOption offered; requestedOptions] None ltac:(lia)) as (r & u & Hr & Hu). congruence.
    - exfalso. eapply Hup; [by eapply Hw|done]. }
  assert (forall fuel k, (K < k + fuel)%nat -> (0 < fuel)%nat -> exists l, Acquire w fuel k = Some (Ret l)) as Hgo; [|apply Hgo; lia].
  induction fuel as [|fuel IH]; intros k Hk Hf; [lia|]. cbn [Acquire].
  destruct (Hround k) as [(l & ->)|(HkK & k' & -> & Hk')]; [by eexists|]. apply IH; lia.
Qed.

(** ** Witnesses *)

(** 2001:db8:1::/56 for two hours, preferred for one, the timers left open. *)
Definition sample_prefix : IAPrefix :=
  mkIAPrefix (3600 * Second) (7200 * Second) (mkPrefix (A6 0x20010db8000100000000000000000000 "") 56).
Definition sample_iapd : IAPD := mkIAPD clientIAID 0 0 [sample_prefix] None.

Definition sample_granted : Message :=
  mkMessage MessageTypeReply [1; 2; 3] [mkOption OptionServerID [0; 3; 0; 1; 2; 0; 0; 0; 0; 9]; IAPDOption sample_iapd].

Lemma sample_usable : usableIAPD sample_granted = Ret (sample_iapd, [0; 3; 0; 1; 2; 0; 0; 0; 0; 9]).
Proof. vm_compute. reflexivity. Qed.

Lemma sample_granted_wf : message_wf sample_granted.
Proof. by_eval. Qed.

Lemma sample_timers : effectiveTimers sample_iapd = (1800 * Second, 2880 * Second).
Proof. vm_compute. reflexivity. Qed.

Lemma effectiveTimers_sound_witness : 0 < 1800 * Second <= 2880 * Second.
Proof.
  destruct (effectiveTimers_sound sample_granted sample_iapd _ _ _ sample_granted_wf sample_usable sample_timers)
    as (_ & _ & H & _). exact H.
Defined.

(** The first exchange is answered with nothing usable. *)
Definition sample_world : world :=
  mkWorld (fun k _ _ => if (k =? 0)%nat then Ret sample_reply else Ret sample_granted)
    (fun _ => None) (fun k => Z.of_nat k).

Lemma sample_answers k e d m : answer sample_world k e d = Ret m -> message_wf m.
Proof. cbn. destruct (k =? 0)%nat; intros [= <-]; [by_eval|apply sample_granted_wf]. Qed.

Definition sample_lease : Lease := newLease [0; 3; 0; 1; 2; 0; 0; 0; 0; 9] sample_iapd [] 0.

Definition sample_renewed : Lease := newLease [0; 3; 0; 1; 2; 0; 0; 0; 0; 9] sample_iapd [] 6.

Lemma sample_renew : renew sample_world 5 sample_lease = Ret sample_renewed.
Proof. vm_compute. reflexivity. Qed.

Lemma leases_sound_witness : renew sample_world 5 sample_lease = Ret sample_renewed /\ lease_ok sample_renewed.
Proof.
  split; [exact sample_renew|].
  destruct (leases_sound sample_world 5 sample_lease sample_renewed 1 sample_answers) as (_ & H & _).
  apply H. exact sample_renew.
Defined.

Lemma Acquire_succeeds_witness : exists l, Acquire sample_world 2 0 = Some (Ret l).
Proof.
  apply (Acquire_succeeds sample_world 1).
  - exact sample_answers.
  - intros k. reflexivity.
  - intros k e d. cbn. destruct (k =? 0)%nat; discriminate.
  - intros k o d. cbn. destruct (k =? 0)%nat; eexists; reflexivity.
  - intros k o d adv Hk. cbn. destruct k as [|k]; [lia|]. intros [= <-]. eexists. exact sample_usable.
  - intros k o d Hk. cbn. destruct k as [|k]; [lia|]. eexists _, _. split; [reflexivity|exact sample_usable].
Defined.
