(* ===== verification/Pdlease.v ===== *)
(** The prefix delegation lease process: src/internal/pdlease (lease.go and the
    exchanges pdlease.go gives it), a pure state machine running the renewal ladder of
    a lease: Renew at T1, Rebind at T2, Solicit afresh once the lease expires.

    The actor library (molecule) is not under src; [turn] states what is relied on:
    effects are carried out, a change of phase cancels the state timeout, an Async
    reports once. *)

From S2P Require Import Prelude Wire Netip Dhcpv6 PrefixDelegation.

Local Open Scope Z_scope.

Inductive Phase : Type := Bound | Renewing | Rebinding | Soliciting.

#[export] Instance Phase_eq_dec : EqDecision Phase.
Proof. solve_decision. Defined.

(** The exchanges run as an Async: pdlease.go's renew, rebind and acquire. *)
Inductive run : Type := runRenew (l : Lease) | runRebind (l : Lease) | runAcquire.

Inductive event : Type :=
| renewNow
| exchangeDone (r : outcome Lease)
| Other.

Inductive effect : Type :=
| TrapExit
| StartStateTimeout (at_ : Z)
| Async (r : run)
| Applied (l : Lease)
| Stop (reason : string).

Definition untilT1 (l : Lease) : effect := StartStateTimeout (RenewAt l).

Definition Init (initial : Lease) : Phase * Lease * list effect := (Bound, initial, [TrapExit; untilT1 initial]).

Definition bound (l : Lease) : Phase * Lease * list effect := (Bound, l, [Applied l; untilT1 l]).

(** An Async that panics reports an error. *)
Definition result (r : outcome Lease) : Lease + string :=
  match r with Ret l => inl l | Fail e => inr e | Panic => inr "panic" end.

Definition HandleEvent (ph : Phase) (l : Lease) (ev : event) : Phase * Lease * list effect :=
  match ev with
  | renewNow => match ph with Bound => (Renewing, l, [Async (runRenew l)]) | _ => (ph, l, []) end
  | exchangeDone r =>
    match result r with
    | inl granted => bound granted
    | inr e =>
      match ph with
      | Renewing => (Rebinding, l, [Async (runRebind l)])
      | Rebinding => (Soliciting, l, [Async runAcquire])
      | Soliciting => (ph, l, [Stop e])
      | Bound => (ph, l, [])
      end
    end
  | Other => (ph, l, [])
  end.

(** Terminate: the lease released, if it is. *)
Definition Terminate (ph : Phase) (l : Lease) (abnormal : bool) : option Lease :=
  if negb (bool_decide (ph = Soliciting)) && negb abnormal then Some l else None.

(** ** The process running *)

Section Ladder.
Context (w : world).

(** What an exchange started after [k] others gives; Acquire runs until it ends. *)
Inductive outcome_of (k : nat) : run -> outcome Lease -> Prop :=
| out_renew l : outcome_of k (runRenew l) (renew w k l)
| out_rebind l : outcome_of k (runRebind l) (rebind w k l)
| out_acquire fuel r : Acquire w fuel k = Some r -> outcome_of k runAcquire r
| out_panic r : outcome_of k r Panic.

Record sys : Type := mkSys {
  ph : Phase; lease : Lease; timer : option Z; running : option run; applied : list Lease; stopped : bool }.

Definition carry (s : sys) (e : effect) : sys :=
  match e with
  | TrapExit => s
  | StartStateTimeout t => mkSys (ph s) (lease s) (Some t) (running s) (applied s) (stopped s)
  | Async r => mkSys (ph s) (lease s) (timer s) (Some r) (applied s) (stopped s)
  | Applied l => mkSys (ph s) (lease s) (timer s) (running s) (applied s ++ [l]) (stopped s)
  | Stop _ => mkSys (ph s) (lease s) (timer s) (running s) (applied s) true
  end.

Definition deliver (s : sys) (ev : event) : sys :=
  let '(st, l, effs) := HandleEvent (ph s) (lease s) ev in
  fold_left carry effs
    (mkSys st l (if bool_decide (st = ph s) then timer s else None) (running s) (applied s) (stopped s)).

Inductive turn : sys -> sys -> Prop :=
| turn_timer s t : timer s = Some t ->
    turn s (deliver (mkSys (ph s) (lease s) None (running s) (applied s) (stopped s)) renewNow)
| turn_done s r k o : running s = Some r -> outcome_of k r o ->
    turn s (deliver (mkSys (ph s) (lease s) (timer s) None (applied s) (stopped s)) (exchangeDone o))
| turn_other s : turn s (deliver s Other).

Definition started (initial : Lease) : sys :=
  let '(st, l, effs) := Init initial in fold_left carry effs (mkSys st l None None [] false).

Inductive reach (initial : Lease) : sys -> Prop :=
| reach_start : reach initial (started initial)
| reach_turn s s' : reach initial s -> stopped s = false -> turn s s' -> reach initial s'.

(** ** The ladder *)

(** What is pending in each phase, and nothing else. *)
Definition rung (s : sys) : Prop :=
  match ph s with
  | Bound => timer s = Some (RenewAt (lease s)) /\ running s = None
  | Renewing => timer s = None /\ running s = Some (runRenew (lease s))
  | Rebinding => timer s = None /\ running s = Some (runRebind (lease s))
  | Soliciting => timer s = None /\ running s = Some runAcquire
  end.

Hypothesis answers_wf : forall k e d m, answer w k e d = Ret m -> message_wf m.

Lemma outcome_lease_ok k r l : outcome_of k r (Ret l) -> lease_ok l.
Proof using answers_wf.
  remember (Ret l) as o eqn:Ho. destruct 1 as [l0|l0|fuel r Ha|r]; [..|done].
  - unfold renew in Ho. bind_inv Ho. eapply leaseFromReply_ok; [by eapply answers_wf|exact Ho].
  - unfold rebind in Ho. bind_inv Ho. eapply leaseFromReply_ok; [by eapply answers_wf|exact Ho].
  - subst. by eapply Acquire_ok.
Qed.

Lemma reach_rung initial s : lease_ok initial -> reach initial s ->
  (stopped s = false -> rung s) /\ last (initial :: applied s) = Some (lease s)
  /\ Forall lease_ok (initial :: applied s) /\ (stopped s = true -> ph s = Soliciting).
Proof using answers_wf.
  intros Hi. induction 1 as [|s s' _ IH Hst Hturn].
  { split; [done|]. split; [done|]. split; [by constructor|done]. }
  destruct IH as (Hr & Hl & Hf & _). specialize (Hr Hst). unfold rung in Hr.
  destruct Hturn as [s t Ht|s r k o Hrun Ho|s].
  - destruct s as [p l tm rn ap st]. cbn in *. destruct p; destruct Hr; simplify_eq. cbn.
    split; [done|]. split; [done|]. split; [done|]. done.
  - destruct s as [p l tm rn ap st]. cbn in *. subst st. unfold deliver. cbn [HandleEvent ph lease].
    destruct (result o) as [l'|e] eqn:Er.
    + destruct o as [l''| |]; [|done..]. injection Er as ->. apply outcome_lease_ok in Ho.
      split; [by destruct p; destruct Hr as [-> ?]|].
      cbn. split; [rewrite app_comm_cons, last_snoc; done|]. split; [|done].
      inversion Hf; subst. constructor; [done|]. apply Forall_app. split; [done|]. by constructor.
    + destruct p; destruct Hr as [-> ?]; simplify_eq; cbn; (split; [done|]; split; [done|]; split; [done|done]).
  - destruct s as [p l tm rn ap st]. cbn in *. rewrite bool_decide_true by done. cbn. split; [done|]. split; [done|]. split; [done|]. by subst st.
Qed.
End Ladder.

(** C29: The lease process never stops half way: until it stops, exactly one thing is
    pending, the one its phase is for (Bound's timer at T1, which is after the grant;
    the Renew, Rebind or Solicit of the lease held), the lease held is the last one
    made the LAN's, every lease made the LAN's is fit to run on, and it stops only
    while soliciting. *)
Theorem ladder_never_stuck w initial s :
  (forall k e d m, answer w k e d = Ret m -> message_wf m) -> lease_ok initial -> reach w initial s ->
  (stopped s = false -> rung s)
  /\ last (initial :: applied s) = Some (lease s) /\ Forall lease_ok (initial :: applied s)
  /\ (stopped s = false -> ph s = Bound -> AcquiredAt (lease s) < RenewAt (lease s))
  /\ (stopped s = true -> ph s = Soliciting).
Proof.
  intros Hw Hi Hr. destruct (reach_rung w Hw initial s Hi Hr) as (H1 & H2 & H3 & H4).
  split; [done|]. split; [done|]. split; [done|]. split; [|done]. intros _ _.
  rewrite Forall_forall in H3. destruct (H3 (lease s)) as (_ & _ & ?); [|unfold RenewAt; lia].
  apply last_Some in H2 as (l & ->). apply elem_of_app. right. by left.
Qed.

(** ** Witness *)

Lemma sample_lease_ok : lease_ok sample_lease.
Proof. apply newLease_ok. by apply (usableIAPD_usable sample_granted _ _ sample_granted_wf sample_usable). Qed.

Definition sample_renewing : sys := mkSys Renewing sample_lease None (Some (runRenew sample_lease)) [] false.

(** The sample lease renewed once. *)
Definition sample_bound : sys :=
  deliver (mkSys (ph sample_renewing) (lease sample_renewing) (timer sample_renewing) None
    (applied sample_renewing) (stopped sample_renewing)) (exchangeDone (renew sample_world 5 sample_lease)).

Lemma sample_renewing_reach : reach sample_world sample_lease sample_renewing.
Proof.
  apply (reach_turn _ _ (started sample_lease)); [apply reach_start|vm_compute; reflexivity|].
  assert (sample_renewing = deliver (mkSys (ph (started sample_lease)) (lease (started sample_lease)) None
    (running (started sample_lease)) (applied (started sample_lease)) (stopped (started sample_lease))) renewNow) as ->
    by (vm_compute; reflexivity).
  apply (turn_timer _ (started sample_lease) (RenewAt sample_lease)). vm_compute. reflexivity.
Qed.

Lemma sample_bound_reach : reach sample_world sample_lease sample_bound.
Proof.
  apply (reach_turn _ _ sample_renewing); [apply sample_renewing_reach|reflexivity|].
  apply (turn_done _ sample_renewing (runRenew sample_lease) 5); [reflexivity|constructor].
Qed.

Lemma ladder_never_stuck_witness : ph sample_bound = Bound /\ rung sample_bound.
Proof.
  split; [vm_compute; reflexivity|].
  destruct (ladder_never_stuck sample_world sample_lease sample_bound sample_answers sample_lease_ok sample_bound_reach) as (H & _).
  apply H. vm_compute. reflexivity.
Defined.
