(* ===== verification/Routeradvert.v ===== *)
(** Router Advertisements (RFC 4861, RFC 8106): src/pkg/routeradvert (message.go,
    options.go, advertise.go, solicit.go, transport.go).  The encoder, checked against
    a host's reading of the message, and the times between advertisements.

    The draw of a random duration scales a Float64; it is a parameter here, within the
    range the comment of randInterval gives. *)

From S2P Require Import Prelude Wire Netip.

Local Open Scope Z_scope.

Definition Second : Z := 1000000000.
Definition Millisecond : Z := 1000000.

(** ** Options (options.go) *)

Definition optSourceLinkLayerAddress : Z := 1.
Definition optPrefixInformation : Z := 3.
Definition optRecursiveDNSServer : Z := 25.
Definition optionUnitBytes : Z := 8.

Abbreviation Options := (list bytes).

Definition Options_Marshal (o : Options) : bytes := concat o.

Record PrefixInformation : Type := mkPrefixInformation {
  piPrefix : Prefix; piOnLink : bool; piAutonomous : bool; piValid : Z; piPreferred : Z }.

Definition NewPrefixInformation (p : PrefixInformation) : bytes :=
  let flags := Z.lor (if piOnLink p then 0x80 else 0) (if piAutonomous p then 0x40 else 0) in
  [optPrefixInformation; 4; u8 (pbits (piPrefix p)); flags]
  ++ be 4 (u32 (Z.quot (piValid p) Second)) ++ be 4 (u32 (Z.quot (piPreferred p) Second))
  ++ zeros 4 ++ As16 (paddr (piPrefix p)).

(** The option has eight bytes whatever the address: [copy] stops at its end. *)
Definition NewSourceLinkLayerAddress (mac : bytes) : bytes :=
  [optSourceLinkLayerAddress; 1] ++ field 6 mac.

Definition NewRDNSS (servers : list Addr) (lifetime : Z) : bytes :=
  [optRecursiveDNSServer; u8 (1 + 2 * zlen servers); 0; 0] ++ be 4 (u32 (Z.quot lifetime Second))
  ++ concat (As16 <$> servers).

(** ** Messages (message.go, solicit.go) *)

Definition icmpTypeRouterSolicit : Z := 133.
Definition icmpTypeRouterAdvert : Z := 134.
Definition maxRouterLifetime : Z := 65535 * Second.

Record RouterAdvertisement : Type := mkRA {
  CurHopLimit : Z; RouterLifetime : Z; ReachableTime : Z; RetransTimer : Z; raOptions : Options }.

Definition Marshal (ra : RouterAdvertisement) : bytes :=
  let lifetime := Z.min (RouterLifetime ra) maxRouterLifetime in
  [icmpTypeRouterAdvert; 0; 0; 0; CurHopLimit ra; 0]
  ++ be 2 (u16 (Z.quot lifetime Second))
  ++ be 4 (u32 (Z.quot (ReachableTime ra) Millisecond))
  ++ be 4 (u32 (Z.quot (RetransTimer ra) Millisecond))
  ++ Options_Marshal (raOptions ra).

Definition IsRouterSolicitation (b : bytes) : bool :=
  match b with [] => false | t :: _ => t =? icmpTypeRouterSolicit end.

Definition marshalRouterSolicitation (srcMAC : bytes) : bytes :=
  [icmpTypeRouterSolicit; 0; 0; 0] ++ zeros 4 ++ Options_Marshal [NewSourceLinkLayerAddress srcMAC].

(** ICMP6_FILTER: eight words, a set bit blocking its type. *)
Definition SolicitationFilter : list Z :=
  alter (fun w => Z.ldiff w (Z.shiftl 1 (icmpTypeRouterSolicit mod 32))) (Z.to_nat (icmpTypeRouterSolicit / 32))
    (replicate 8 0xffffffff).

(** ** What is advertised, and when (advertise.go) *)

Definition maxRtrAdvInterval : Z := 600 * Second.
Definition minRtrAdvInterval : Z := 198 * Second.
Definition AdvDefaultLifetime : Z := 3 * maxRtrAdvInterval.
Definition maxInitialRtrAdvertisements : Z := 3.
Definition maxInitialRtrAdvertInterval : Z := 16 * Second.
Definition MinDelayBetweenRAs : Z := 3 * Second.
Definition maxRADelayTime : Z := 500 * Millisecond.
Definition TentativeRetryInterval : Z := 1 * Second.

Record Config : Type := mkConfig {
  raPrefix : Prefix; OnLink : bool; raValid : Z; raPreferred : Z; RDNSSAddr : Addr }.

#[export] Instance Config_eq_dec : EqDecision Config.
Proof. solve_decision. Defined.

Definition zero_Config : Config := mkConfig (mkPrefix AInvalid 0) false 0 0 AInvalid.

Definition BuildRA (cfg : Config) (lifetime : Z) (mac : bytes) : RouterAdvertisement :=
  let opts :=
    [NewPrefixInformation (mkPrefixInformation (raPrefix cfg) (OnLink cfg) true (raValid cfg) (raPreferred cfg));
     NewSourceLinkLayerAddress mac] in
  let opts := if IsValid (RDNSSAddr cfg) then opts ++ [NewRDNSS [RDNSSAddr cfg] lifetime] else opts in
  mkRA 0 lifetime 0 0 opts.

(** A generator, and a duration drawn from it: between 0 and the bound. *)
Class Random (G : Type) : Type := { draw : Z -> G -> Z * G }.
Class RandomLaws (G : Type) `{Random G} : Prop := {
  draw_range n (g : G) : 0 < n -> 0 <= (draw n g).1 <= n }.

Definition randInterval {G} `{Random G} (lo hi : Z) (r : G) : Z * G :=
  if hi <=? lo then (lo, r) else let '(x, r) := draw (hi - lo) r in (lo + x, r).

Definition NextUnsolicitedInterval {G} `{Random G} (sent : Z) (r : G) : Z * G :=
  if sent <? maxInitialRtrAdvertisements then randInterval 0 maxInitialRtrAdvertInterval r
  else randInterval minRtrAdvInterval maxRtrAdvInterval r.

Definition ReplyDelay {G} `{Random G} (r : G) : Z * G := randInterval 0 maxRADelayTime r.

(** ** Facts *)

Lemma randInterval_range {G} `{RandomLaws G} lo hi (r : G) : lo <= hi -> lo <= (randInterval lo hi r).1 <= hi.
Proof.
  intros Hle. unfold randInterval. destruct (Z.leb_spec hi lo); [cbn; lia|].
  pose proof (draw_range (hi - lo) r ltac:(lia)). destruct (draw (hi - lo) r). cbn in *. lia.
Qed.

Lemma NextUnsolicitedInterval_range {G} `{RandomLaws G} sent (r : G) : 0 <= (NextUnsolicitedInterval sent r).1 <= maxRtrAdvInterval.
Proof.
  unfold NextUnsolicitedInterval. destruct (sent <? maxInitialRtrAdvertisements).
  - pose proof (randInterval_range 0 maxInitialRtrAdvertInterval r). unfold maxInitialRtrAdvertInterval, maxRtrAdvInterval, Second in *. lia.
  - pose proof (randInterval_range minRtrAdvInterval maxRtrAdvInterval r). unfold minRtrAdvInterval, maxRtrAdvInterval, Second in *. lia.
Qed.

Lemma ReplyDelay_range {G} `{RandomLaws G} (r : G) : 0 <= (ReplyDelay r).1 <= maxRADelayTime.
Proof. apply randInterval_range. unfold maxRADelayTime, Millisecond. lia. Qed.

(** The socket is woken by Router Solicitations only. *)
Lemma SolicitationFilter_blocks t : 0 <= t < 256 ->
  Z.testbit (SolicitationFilter !!! Z.to_nat (t / 32)) (t mod 32) = negb (t =? icmpTypeRouterSolicit).
Proof.
  intros Ht. assert (forallb (fun t => Bool.eqb (Z.testbit (SolicitationFilter !!! Z.to_nat (t / 32)) (t mod 32))
    (negb (t =? icmpTypeRouterSolicit))) (seqZ 0 256) = true) as Hall by (vm_compute; reflexivity).
  rewrite forallb_forall in Hall. apply Bool.eqb_prop, Hall. apply list_elem_of_In, elem_of_seqZ. lia.
Qed.

(** A solicitation the program sends is one. *)
Lemma solicitation_is_one mac : IsRouterSolicitation (marshalRouterSolicitation mac) = true.
Proof. reflexivity. Qed.

(** ** A host's reading of an advertisement (RFC 4861 4.2, 4.6; RFC 8106 5.1) *)

(** The options of a message: a type, a length in units of eight bytes that is not
    zero, a body. *)
Fixpoint read_options (fuel : nat) (b : bytes) : option (list (Z * bytes)) :=
  match fuel, b with
  | _, [] => Some []
  | S fuel, t :: n :: rest =>
    if (1 <=? n) && (8 * n - 2 <=? zlen rest)
    then cons (t, take (Z.to_nat (8 * n - 2)) rest) <$> read_options fuel (drop (Z.to_nat (8 * n - 2)) rest)
    else None
  | _, _ => None
  end.

(** What the options tell: a prefix, a link-layer address, DNS servers. *)
Inductive told : Type :=
| TellPrefix (p : Prefix) (onLink autonomous : bool) (valid preferred : Z)
| TellAddress (mac : bytes)
| TellDNS (server : Addr) (lifetime : Z)
| TellOther.

Definition read_option (o : Z * bytes) : told :=
  let '(t, b) := o in
  if t =? 3 then
    TellPrefix (mkPrefix (AddrFrom16 (drop 14 b)) (b !!! 0%nat)) (Z.testbit (b !!! 1%nat) 7) (Z.testbit (b !!! 1%nat) 6)
      (unbe (take 4 (drop 2 b))) (unbe (take 4 (drop 6 b)))
  else if t =? 1 then TellAddress b
  else if t =? 25 then TellDNS (AddrFrom16 (drop 6 b)) (unbe (take 4 (drop 2 b)))
  else TellOther.

(** The whole message: its router lifetime in seconds and its options. *)
Definition read_advertisement (b : bytes) : option (Z * list told) :=
  if (16 <=? zlen b) && (b !!! 0%nat =? 134) && (b !!! 1%nat =? 0)
  then match read_options (length b) (drop 16 b) with
       | Some os => Some (unbe (take 2 (drop 6 b)), map read_option os) | None => None end
  else None.

Lemma read_options_cons fuel t n body rest : 1 <= n -> zlen body = 8 * n - 2 ->
  read_options (S fuel) (t :: n :: body ++ rest) = cons (t, body) <$> read_options fuel rest.
Proof.
  intros Hn Hb. pose proof (zlen_nonneg rest). cbn [read_options].
  rewrite (proj2 (Z.leb_le 1 n)), (proj2 (Z.leb_le (8 * n - 2) _)) by (rewrite ?zlen_app; lia). cbn [andb].
  unfold zlen in Hb. rewrite take_app_length', drop_app_length' by lia. done.
Qed.

Lemma read_prefix v z bits onLink autonomous valid preferred :
  0 <= v < 2 ^ 128 -> 0 <= bits <= 128 -> 0 <= valid < 2 ^ 32 -> 0 <= preferred < 2 ^ 32 ->
  read_option (3, [u8 bits; Z.lor (if onLink : bool then 0x80 else 0) (if autonomous : bool then 0x40 else 0)]
    ++ be 4 valid ++ be 4 preferred ++ zeros 4 ++ As16 (A6 v z))
  = TellPrefix (mkPrefix (A6 v "") bits) onLink autonomous valid preferred.
Proof.
  intros Hv Hb Hva Hp. unfold read_option. cbn [Z.eqb Pos.eqb].
  rewrite (Z.mod_small bits) by lia. cbn [app drop lookup_total list_lookup_total].
  rewrite drop_0, (take_app_length' (be 4 valid)) by (by rewrite length_be).
  rewrite (drop_app_length' (be 4 valid) _ 4) by (by rewrite length_be).
  rewrite (take_app_length' (be 4 preferred)) by (by rewrite length_be).
  replace (drop 12 _) with (As16 (A6 v z)).
  2: { rewrite !app_assoc, drop_app_length'; [done|]. rewrite !length_app, !length_be. done. }
  cbn [As16]. rewrite !unbe_be_id, AddrFrom16_be by (change (256 ^ Z.of_nat 4) with (2 ^ 32); lia).
  by destruct onLink, autonomous.
Qed.

Lemma read_rdnss v z lifetime : 0 <= v < 2 ^ 128 -> 0 <= lifetime < 2 ^ 32 ->
  read_option (25, [0; 0] ++ be 4 lifetime ++ As16 (A6 v z)) = TellDNS (A6 v "") lifetime.
Proof.
  intros Hv Hl. unfold read_option. cbn [Z.eqb Pos.eqb app drop].
  rewrite drop_0, (take_app_length' (be 4 lifetime)), (drop_app_length' (be 4 lifetime) _ 4) by (by rewrite length_be).
  cbn [As16]. by rewrite unbe_be_id, AddrFrom16_be by (change (256 ^ Z.of_nat 4) with (2 ^ 32); lia).
Qed.

(** A configuration with an IPv6 prefix, lifetimes that DHCPv6 can carry (at most 2^32-1
    seconds) and an IPv6 DNS server or none. *)
Definition config_wf (cfg : Config) : Prop :=
  (exists v z, paddr (raPrefix cfg) = A6 v z /\ 0 <= v < 2 ^ 128) /\ 0 <= pbits (raPrefix cfg) <= 128
  /\ 0 <= raValid cfg < 2 ^ 32 * Second /\ 0 <= raPreferred cfg < 2 ^ 32 * Second
  /\ (RDNSSAddr cfg = AInvalid \/ exists v z, RDNSSAddr cfg = A6 v z /\ 0 <= v < 2 ^ 128).

Lemma seconds_range d : 0 <= d < 2 ^ 32 * Second -> Z.quot d Second = d / Second /\ 0 <= d / Second < 2 ^ 32.
Proof.
  unfold Second. intros Hd. split; [apply Z.quot_div_nonneg; lia|]. split; [apply Z.div_pos; lia|apply Z.div_lt_upper_bound; lia].
Qed.

Lemma options_read cfg lifetime mac fuel : config_wf cfg -> 0 <= lifetime < 2 ^ 32 * Second -> zlen mac = 6 ->
  exists os, read_options (S (S (S (S fuel)))) (Options_Marshal (raOptions (BuildRA cfg lifetime mac))) = Some os
  /\ map read_option os =
      [TellPrefix (mkPrefix (WithoutZone (paddr (raPrefix cfg))) (pbits (raPrefix cfg))) (OnLink cfg) true
         (raValid cfg / Second) (raPreferred cfg / Second);
       TellAddress mac]
      ++ if IsValid (RDNSSAddr cfg) then [TellDNS (WithoutZone (RDNSSAddr cfg)) (lifetime / Second)] else [].
Proof.
  intros ((v & z & Ep & Hv) & Hb & Hva & Hpr & Hd) Hl Hm.
  destruct (seconds_range _ Hva) as [Ev Rv], (seconds_range _ Hpr) as [Epr Rp], (seconds_range _ Hl) as [El Rl].
  assert (forall n, zlen (be 4 n) = 4) as L4 by (intros; apply zlen_be).
  assert (forall tl, Options_Marshal (NewPrefixInformation (mkPrefixInformation (raPrefix cfg) (OnLink cfg) true (raValid cfg) (raPreferred cfg))
      :: NewSourceLinkLayerAddress mac :: tl)
    = 3 :: 4 :: ([u8 (pbits (raPrefix cfg)); Z.lor (if OnLink cfg then 0x80 else 0) 0x40]
        ++ be 4 (raValid cfg / Second) ++ be 4 (raPreferred cfg / Second) ++ zeros 4 ++ As16 (paddr (raPrefix cfg)))
      ++ (1 :: 1 :: mac ++ Options_Marshal tl)) as Eopts.
  { intros tl. unfold Options_Marshal, NewPrefixInformation, NewSourceLinkLayerAddress.
    cbn [concat piOnLink piAutonomous piValid piPreferred piPrefix].
    rewrite Ev, Epr, (Z.mod_small (raValid cfg / Second)), (Z.mod_small (raPreferred cfg / Second)), field_exact by lia.
    cbn [app]. by rewrite <- !app_assoc. }
  assert (forall w zn, 0 <= w < 2 ^ 128 -> Options_Marshal [NewRDNSS [A6 w zn] lifetime]
    = 25 :: 3 :: ([0; 0] ++ be 4 (lifetime / Second) ++ As16 (A6 w zn)) ++ []) as Erd.
  { intros w zn Hw. unfold Options_Marshal, NewRDNSS. rewrite El, (Z.mod_small (lifetime / Second)) by lia.
    cbn [concat fmap list_fmap app]. by rewrite !app_nil_r. }
  assert (forall w zn, zlen (As16 (A6 w zn)) = 16) as L16 by (intros; apply zlen_As16).
  cbn [BuildRA raOptions]. rewrite Ep. destruct Hd as [->|(w & zn & -> & Hw)]; cbn [IsValid app].
  - eexists. rewrite Eopts, Ep, read_options_cons by (rewrite ?zlen_app, ?L4, ?L16; done).
    rewrite read_options_cons by lia. split; [reflexivity|]. cbn [map].
    rewrite (read_prefix v z _ _ true) by done. done.
  - eexists. rewrite Eopts, Erd, Ep, read_options_cons by (rewrite ?zlen_app, ?L4, ?L16; done).
    rewrite read_options_cons by lia. rewrite read_options_cons by (rewrite ?zlen_app, ?L4, ?L16; done).
    split; [reflexivity|]. cbn [map]. rewrite (read_prefix v z _ _ true), (read_rdnss w zn) by done. done.
Qed.

(** What a host reads in an advertisement of a configuration: the router for the
    given lifetime (at most 65535 s; zero withdraws it), its link-layer address, the
    prefix, usable for autoconfiguration, on-link exactly if configured so and with the
    configured lifetimes in whole seconds, and the DNS server, if one is configured, for
    as long as the router; nothing else. *)
Lemma advertisement_reads cfg lifetime mac : config_wf cfg -> 0 <= lifetime < 2 ^ 32 * Second -> zlen mac = 6 ->
  read_advertisement (Marshal (BuildRA cfg lifetime mac))
  = Some (Z.min (lifetime / Second) 65535,
      [TellPrefix (mkPrefix (WithoutZone (paddr (raPrefix cfg))) (pbits (raPrefix cfg))) (OnLink cfg) true
         (raValid cfg / Second) (raPreferred cfg / Second);
       TellAddress mac]
      ++ if IsValid (RDNSSAddr cfg) then [TellDNS (WithoutZone (RDNSSAddr cfg)) (lifetime / Second)] else []).
Proof.
  intros Hwf Hl Hm. destruct (seconds_range _ Hl) as [El Rl].
  assert (Z.quot (Z.min lifetime maxRouterLifetime) Second = Z.min (lifetime / Second) 65535) as Em.
  { unfold maxRouterLifetime, Second in *. rewrite Z.quot_div_nonneg by lia. pose proof (Z.div_mod lifetime 1000000000).
    destruct (Z.min_spec lifetime (65535 * 1000000000)) as [[? ->]|[? ->]].
    - assert (lifetime / 1000000000 < 65535) by (apply Z.div_lt_upper_bound; lia). lia.
    - rewrite Z.div_mul by lia. assert (65535 <= lifetime / 1000000000) by (apply Z.div_le_lower_bound; lia). lia. }
  unfold read_advertisement, Marshal. set (opts := Options_Marshal _). cbn [CurHopLimit RouterLifetime ReachableTime RetransTimer BuildRA].
  rewrite Em, (Z.mod_small (Z.min _ _)) by lia.
  change (u32 (Z.quot 0 Millisecond)) with 0. change (be 4 0) with [0; 0; 0; 0].
  replace (16 <=? zlen _) with true by (symmetry; apply Z.leb_le; zlen_lia).
  cbn [app lookup_total list_lookup_total Z.eqb Pos.eqb andb drop].
  rewrite drop_0, (take_app_length' (be 2 _)) by (by rewrite length_be).
  rewrite (drop_app_ge (be 2 _)) by (rewrite length_be; lia). rewrite length_be. cbn [drop Nat.sub].
  rewrite unbe_be_id by (change (256 ^ Z.of_nat 2) with 65536; lia).
  assert (exists fuel, length (icmpTypeRouterAdvert :: 0 :: 0 :: 0 :: 0 :: 0 :: be 2 (Z.min (lifetime / Second) 65535) ++ 0 :: 0 :: 0 :: 0 :: 0 :: 0 :: 0 :: 0 :: opts) = S (S (S (S fuel)))) as [fuel ->].
  { cbn [length]. rewrite length_app, length_be. cbn [length]. eexists. reflexivity. }
  rewrite drop_0. change (icmpTypeRouterAdvert =? 134) with true. cbn [andb].
  destruct (options_read cfg lifetime mac fuel) as (os & Eo & Eos); [done..|].
  unfold opts. by rewrite Eo, Eos.
Qed.

Definition sample_config : Config :=
  mkConfig (mkPrefix (A6 0x20010db8123456000000000000000000 "") 64) true (7200 * Second) (3600 * Second)
    (A6 0xfe800000000000000000000000000001 "lan0").

Lemma sample_config_wf : config_wf sample_config.
Proof.
  split; [do 2 eexists; split; [reflexivity|lia]|]. split; [cbn; lia|]. split; [split; [discriminate|reflexivity]|].
  split; [split; [discriminate|reflexivity]|]. right. do 2 eexists. split; [reflexivity|lia].
Qed.

Lemma advertisement_reads_witness :
  read_advertisement (Marshal (BuildRA sample_config AdvDefaultLifetime [2; 0; 0; 0; 0; 1]))
  = Some (1800, [TellPrefix (raPrefix sample_config) true true 7200 3600; TellAddress [2; 0; 0; 0; 0; 1];
                 TellDNS (A6 0xfe800000000000000000000000000001 "") 1800]).
Proof.
  assert (0 <= AdvDefaultLifetime < 2 ^ 32 * Second) as Hl by (split; [discriminate|reflexivity]).
  exact (advertisement_reads sample_config AdvDefaultLifetime [2; 0; 0; 0; 0; 1] sample_config_wf Hl eq_refl).
Defined.
