(* ===== verification/Lanprefix.v ===== *)
(** What a delegated prefix means for the LAN: src/internal/lanprefix (carve.go,
    reconcile.go, ra.go).  A /64 per LAN interface, its address on the interface, its
    Router Advertisements.

    The kernel's address table is reached through pkg/netlink's sockets; what the
    code relies on of it is the class [NetlinkLaws]. *)

From S2P Require Import Prelude Wire Netip Routeradvert.

Local Open Scope Z_scope.

(** ** Carving (carve.go) *)

Definition lanSubnetBits : Z := 64.

Definition SubnetFor (delegated : Prefix) (index : Z) : outcome Prefix :=
  if negb (Is6 (paddr delegated)) || Is4In6 (paddr delegated) then Fail "lanprefix: delegated prefix must be IPv6"
  else if lanSubnetBits <? pbits delegated then Fail "lanprefix: delegated prefix is already narrower"
  else if index <? 0 then Fail "lanprefix: LAN index must not be negative"
  else
    let subnetBits := lanSubnetBits - pbits delegated in
    if (subnetBits <? 64) && (i64 (Z.shiftl 1 subnetBits) <=? index) then Fail "lanprefix: LAN index exceeds capacity"
    else
      let raw := As16 (paddr delegated) in
      let network := unbe (take 8 raw) in
      let network := Z.lor (Z.ldiff network (u64 (u64 (Z.shiftl 1 subnetBits) - 1))) (u64 index) in
      Ret (PrefixFrom (AddrFrom16 (be 8 network ++ zeros 8)) lanSubnetBits).

Definition AssignedAddress (subnet : Prefix) : outcome Addr :=
  if negb (Is6 (paddr subnet)) || Is4In6 (paddr subnet) then Fail "lanprefix: subnet must be IPv6"
  else if negb (pbits subnet =? lanSubnetBits) then Fail "lanprefix: subnet must be a /64"
  else Ret (AddrFrom16 (take 15 (As16 (paddr subnet)) ++ [1])).

(** ** Reconciling (reconcile.go) *)

Record Assignment : Type := mkAssignment {
  Iface : string; Subnet : Prefix; Address : Addr; ValidLifetime : Z; PreferredLifetime : Z }.

(** The zero Assignment of an interface. *)
Definition no_subnet (iface : string) : Assignment := mkAssignment iface Prefix_invalid AInvalid 0 0.

(** A netlink socket's view of the kernel: opening it, the interfaces, and the two
    requests; a request that fails leaves its error. *)
Class Netlink (K : Type) : Type := {
  Open : K -> option string;
  InterfaceByName : K -> string -> option Z;
  AddAddr : Z -> Addr -> Z -> K -> option string * K;
  DelAddr : Z -> Addr -> Z -> K -> option string * K;
  has : K -> Z -> Addr -> Z -> bool }.

(** The addresses the program assigns. *)
Definition assignable (a : Addr) (b : Z) : Prop := (exists v, a = A6 v "" /\ 0 <= v < 2 ^ 128) /\ b = lanSubnetBits.

(** An address for an interface there is. *)
Definition ready {K} `{Netlink K} (k : K) (i : Z) (a : Addr) (b : Z) : Prop :=
  (exists n, InterfaceByName k n = Some i) /\ assignable a b.

(** [has k i a b]: the address a/b is on the interface i. *)
Class NetlinkLaws (K : Type) `{Netlink K} : Prop := {
  add_ok i a b k k' : ready k i a b -> AddAddr i a b k = (None, k') ->
    forall i' a' b', has k' i' a' b' = bool_decide ((i', a', b') = (i, a, b)) || has k i' a' b';
  add_fails i a b k e k' : ready k i a b -> AddAddr i a b k = (Some e, k') -> forall i' a' b', has k' i' a' b' = has k i' a' b';
  del_ok i a b k k' : ready k i a b -> DelAddr i a b k = (None, k') ->
    forall i' a' b', has k' i' a' b' = negb (bool_decide ((i', a', b') = (i, a, b))) && has k i' a' b';
  del_fails i a b k e k' : ready k i a b -> DelAddr i a b k = (Some e, k') -> forall i' a' b', has k' i' a' b' = has k i' a' b';
  add_links i a b k n : ready k i a b -> InterfaceByName (AddAddr i a b k).2 n = InterfaceByName k n;
  del_links i a b k n : ready k i a b -> InterfaceByName (DelAddr i a b k).2 n = InterfaceByName k n }.

Section Reconcile.
Context {K : Type} `{Netlink K}.

Definition reconcileOne (delegated : Prefix) (valid preferred : Z) (index : nat) (ifaceName : string)
    (prev : list Assignment) (k : K) : (Assignment * option string) * K :=
  match SubnetFor delegated (Z.of_nat index) with
  | Fail e => ((no_subnet ifaceName, Some e), k)
  | Panic => ((no_subnet ifaceName, Some "panic"), k)
  | Ret subnet =>
    match AssignedAddress subnet with
    | Fail e => ((mkAssignment ifaceName subnet AInvalid 0 0, Some e), k)
    | Panic => ((no_subnet ifaceName, Some "panic"), k)
    | Ret addr =>
      let a := mkAssignment ifaceName subnet addr valid preferred in
      match InterfaceByName k ifaceName with
      | None => ((a, Some "looking up interface"), k)
      | Some i =>
        match prev !! index with
        | Some old =>
          if bool_decide (Subnet old = subnet) then ((a, None), k)
          else if prefix_IsValid (Subnet old) then
            match DelAddr i (Address old) (pbits (Subnet old)) k with
            | (Some e, k) => ((a, Some "removing stale address"), k)
            | (None, k) =>
              match AddAddr i addr (pbits subnet) k with
              | (Some e, k) => ((a, Some "assigning address"), k)
              | (None, k) => ((a, None), k)
              end
            end
          else
            match AddAddr i addr (pbits subnet) k with
            | (Some e, k) => ((a, Some "assigning address"), k)
            | (None, k) => ((a, None), k)
            end
        | None =>
          match AddAddr i addr (pbits subnet) k with
          | (Some e, k) => ((a, Some "assigning address"), k)
          | (None, k) => ((a, None), k)
          end
        end
      end
    end
  end.

(** The loop over the interfaces from [index] on: an entry for each, the errors
    collected. *)
Fixpoint reconcile_loop (delegated : Prefix) (valid preferred : Z) (index : nat) (lanIfaces : list string)
    (prev : list Assignment) (k : K) : (list Assignment * list string) * K :=
  match lanIfaces with
  | [] => (([], []), k)
  | ifaceName :: rest =>
    let '((a, err), k) := reconcileOne delegated valid preferred index ifaceName prev k in
    let '((result, errs), k) := reconcile_loop delegated valid preferred (S index) rest prev k in
    ((a :: result, match err with Some e => e :: errs | None => errs end), k)
  end.

Definition Reconcile (delegated : Prefix) (valid preferred : Z) (lanIfaces : list string)
    (prev : list Assignment) (k : K) : (list Assignment * list string) * K :=
  match Open k with
  | Some e => (([], [e]), k)
  | None => reconcile_loop delegated valid preferred 0 lanIfaces prev k
  end.

(** The interfaces a call fails for, behind its collected errors. *)
Fixpoint failing_loop (delegated : Prefix) (valid preferred : Z) (index : nat) (lanIfaces : list string)
    (prev : list Assignment) (k : K) : list string :=
  match lanIfaces with
  | [] => []
  | ifaceName :: rest =>
    let '((_, err), k) := reconcileOne delegated valid preferred index ifaceName prev k in
    match err with Some _ => [ifaceName] | None => [] end ++ failing_loop delegated valid preferred (S index) rest prev k
  end.

Definition failing (delegated : Prefix) (valid preferred : Z) (lanIfaces : list string) (prev : list Assignment) (k : K)
    : list string :=
  match Open k with
  | Some _ => lanIfaces
  | None => failing_loop delegated valid preferred 0 lanIfaces prev k
  end.
End Reconcile.

(** ** Advertising (ra.go) *)

Definition config (rdnss : gmap string Addr) (a : Assignment) : Config :=
  mkConfig (Subnet a) true (ValidLifetime a) (PreferredLifetime a) (default AInvalid (rdnss !! Iface a)).

(** What is advertised on each interface, after Sync. *)
Definition Sync (rdnss : gmap string Addr) (assigned : list Assignment) (adv : gmap string Config) : gmap string Config :=
  fold_left (fun adv a => if prefix_IsValid (Subnet a) then <[Iface a := config rdnss a]> adv else adv) assigned adv.

(** ** Facts of carving *)

Lemma mask_ones b : 0 <= b <= 64 -> u64 (u64 (Z.shiftl 1 b) - 1) = Z.ones b.
Proof.
  intros Hb. rewrite Z.shiftl_1_l, Z.ones_equiv, <- Z.sub_1_r. destruct (decide (b = 64)) as [->|]; [done|].
  assert (0 < 2 ^ b) by (apply Z.pow_pos_nonneg; lia). assert (2 ^ b < 2 ^ 64) by (apply Z.pow_lt_mono_r; lia).
  rewrite (Z.mod_small (2 ^ b)) by lia. apply Z.mod_small. lia.
Qed.

(** The delegation's network number and its subnets. *)
Definition network_of (n bits : Z) : Z := n / 2 ^ (128 - bits) * 2 ^ (128 - bits).
Definition subnet_of (n bits i : Z) : Z := network_of n bits + i * 2 ^ 64.

Lemma pow_split bits : 0 <= bits <= 64 -> 2 ^ (128 - bits) = 2 ^ (64 - bits) * 2 ^ 64.
Proof. intros. rewrite <- Z.pow_add_r by lia. f_equal. lia. Qed.

Lemma subnet_of_hi n bits i : 0 <= bits <= 64 -> 0 <= i < 2 ^ (64 - bits) -> 0 <= n ->
  subnet_of n bits i = (n / 2 ^ (128 - bits) * 2 ^ (64 - bits) + i) * 2 ^ 64.
Proof. intros Hb Hi Hn. unfold subnet_of, network_of. rewrite pow_split by done. ring. Qed.

Lemma subnet_of_range n bits i : 0 <= bits <= 64 -> 0 <= i < 2 ^ (64 - bits) -> 0 <= n < 2 ^ 128 ->
  0 <= subnet_of n bits i /\ subnet_of n bits i + 2 ^ 64 <= 2 ^ 128.
Proof.
  intros Hb Hi Hn. rewrite subnet_of_hi by lia. assert (0 < 2 ^ (64 - bits)) by (apply Z.pow_pos_nonneg; lia).
  assert (0 < 2 ^ (128 - bits)) by (apply Z.pow_pos_nonneg; lia).
  assert (2 ^ 128 = 2 ^ bits * 2 ^ (128 - bits)) as E by (rewrite <- Z.pow_add_r by lia; f_equal; lia).
  assert (0 <= n / 2 ^ (128 - bits) < 2 ^ bits) as Hq.
  { split; [apply Z.div_pos; lia|]. apply Z.div_lt_upper_bound; [lia|]. rewrite Z.mul_comm, <- E. lia. }
  assert (2 ^ 64 = 2 ^ bits * 2 ^ (64 - bits)) as E64 by (rewrite <- Z.pow_add_r by lia; f_equal; lia).
  assert (0 <= n / 2 ^ (128 - bits) * 2 ^ (64 - bits) + i < 2 ^ 64) by (rewrite E64; nia).
  change (2 ^ 128) with (2 ^ 64 * 2 ^ 64). nia.
Qed.

Lemma unbe_zeros n : unbe (zeros n) = 0.
Proof. unfold unbe, zeros. induction (Z.to_nat n) as [|k IH]; [done|]. exact IH. Qed.

Lemma SubnetFor_value n z bits i : 0 <= n < 2 ^ 128 -> 2 <= bits <= 64 -> Is4In6 (A6 n z) = false ->
  0 <= i < 2 ^ (64 - bits) ->
  SubnetFor (mkPrefix (A6 n z) bits) i = Ret (mkPrefix (A6 (subnet_of n bits i) "") 64).
Proof.
  intros Hn Hb H4 Hi. unfold SubnetFor. cbn [paddr pbits Is6 negb]. rewrite H4. cbn [orb].
  replace (lanSubnetBits <? bits) with false by (symmetry; apply Z.ltb_ge; unfold lanSubnetBits; lia).
  replace (i <? 0) with false by (symmetry; apply Z.ltb_ge; lia). unfold lanSubnetBits.
  assert (2 ^ (64 - bits) <= 2 ^ 62) by (apply Z.pow_le_mono_r; lia).
  rewrite Z.shiftl_1_l, i64_id by lia. replace (2 ^ (64 - bits) <=? i) with false by (symmetry; apply Z.leb_gt; lia).
  rewrite andb_false_r. rewrite <- Z.shiftl_1_l, mask_ones by lia. cbn [As16].
  change 16%nat with (8 + 8)%nat. rewrite be_split, take_app_length' by (by rewrite length_be).
  assert (0 <= n / 2 ^ 64 < 2 ^ 64) as Hh.
  { split; [apply Z.div_pos; lia|]. apply Z.div_lt_upper_bound; [lia|]. change (2 ^ 64 * 2 ^ 64) with (2 ^ 128). lia. }
  change (8 * Z.of_nat 8) with 64. rewrite Z.shiftr_div_pow2 by lia.
  rewrite unbe_be_id by (change (256 ^ Z.of_nat 8) with (2 ^ 64); lia).
  rewrite Z.ldiff_ones_r, (Z.mod_small i), lor_shiftl_add by lia.
  rewrite Z.shiftr_div_pow2, Z.div_div by lia. rewrite <- Z.pow_add_r by lia. replace (64 + (64 - bits)) with (128 - bits) by lia.
  pose proof (subnet_of_range n bits i ltac:(lia) Hi Hn) as Hr. rewrite subnet_of_hi in Hr |- * by lia.
  set (w := n / 2 ^ (128 - bits) * 2 ^ (64 - bits) + i) in *.
  assert (0 <= w < 2 ^ 64) as Hw by (change (2 ^ 128) with (2 ^ 64 * 2 ^ 64) in Hr; nia).
  unfold AddrFrom16. rewrite unbe_app by auto with wire. rewrite zlen_zeros, unbe_zeros.
  rewrite unbe_be_id by (change (256 ^ Z.of_nat 8) with (2 ^ 64); lia).
  change (256 ^ Z.max 0 8) with (2 ^ 64). rewrite Z.add_0_r. done.
Qed.

Lemma SubnetFor_fails n z bits i : 2 <= bits <= 64 -> ~ 0 <= i < 2 ^ (64 - bits) ->
  exists e, SubnetFor (mkPrefix (A6 n z) bits) i = Fail e.
Proof.
  intros Hb Hi. unfold SubnetFor. cbn [paddr pbits]. destruct (_ || _); [by eexists|].
  replace (lanSubnetBits <? bits) with false by (symmetry; apply Z.ltb_ge; unfold lanSubnetBits; lia).
  destruct (Z.ltb_spec i 0); [by eexists|]. unfold lanSubnetBits. assert (2 ^ (64 - bits) <= 2 ^ 62) by (apply Z.pow_le_mono_r; lia).
  rewrite Z.shiftl_1_l, i64_id by lia. replace (2 ^ (64 - bits) <=? i) with true by (symmetry; apply Z.leb_le; lia).
  replace (64 - bits <? 64) with true by (symmetry; apply Z.ltb_lt; lia). by eexists.
Qed.

Lemma AssignedAddress_value h : 0 <= h < 2 ^ 64 ->
  AssignedAddress (mkPrefix (A6 (h * 2 ^ 64) "") 64) = Ret (A6 (h * 2 ^ 64 + 1) "").
Proof.
  intros Hh. unfold AssignedAddress. cbn [paddr pbits Is6 negb orb].
  assert (Is4In6 (A6 (h * 2 ^ 64) "") = false) as ->.
  { cbn. rewrite Z.shiftr_div_pow2 by lia. change (2 ^ 64) with (2 ^ 32 * 2 ^ 32). rewrite Z.mul_assoc, Z.div_mul by lia.
    apply Z.eqb_neq. lia. }
  change (64 =? lanSubnetBits) with true. cbn [negb As16]. change 16%nat with (15 + 1)%nat. rewrite be_split.
  rewrite take_app_length' by (by rewrite length_be). unfold AddrFrom16. rewrite unbe_app by (auto with wire || by repeat constructor).
  rewrite unbe_be. change (unbe [1]) with 1. change (zlen [1]) with 1. change (8 * Z.of_nat 1) with 8.
  rewrite Z.shiftr_div_pow2 by lia. change (2 ^ 64) with (2 ^ 56 * 2 ^ 8). rewrite Z.mul_assoc, Z.div_mul by lia.
  change (256 ^ Z.of_nat 15) with (2 ^ 120). rewrite Z.mod_small; [do 2 f_equal|]; lia.
Qed.

(** ** Facts of reconciling *)

Lemma AssignedAddress_assignable s a : AssignedAddress s = Ret a -> assignable a (pbits s).
Proof.
  unfold AssignedAddress. destruct (_ || _); [done|]. destruct (Z.eqb_spec (pbits s) lanSubnetBits) as [Hb|]; [|done]. intros [= <-].
  split; [|done]. eexists. split; [reflexivity|]. pose proof (is_bytes_As16 (paddr s)).
  assert (is_bytes (take 15 (As16 (paddr s)) ++ [1])) as Hbs.
  { apply is_bytes_app. split; [auto with wire|]. repeat constructor; done. }
  pose proof (unbe_bound _ Hbs) as Hu. rewrite zlen_app, zlen_take, zlen_As16 in Hu. exact Hu.
Qed.

(** A subnet carved has an address to assign. *)
Lemma SubnetFor_assigned d i s : SubnetFor d i = Ret s -> exists a, AssignedAddress s = Ret a.
Proof.
  unfold SubnetFor. repeat (case_match; [done|]). match goal with |- context [be 8 ?n] => set (v := n) end.
  pose proof (unbe_bound (be 8 v) (is_bytes_be 8 v)) as Hb. unfold zlen in Hb. rewrite length_be in Hb.
  assert (is_bytes (be 8 v)) as Hw by auto with wire. revert Hb Hw. generalize (be 8 v). intros l Hb Hw [= <-].
  unfold AddrFrom16. rewrite unbe_app by auto with wire. rewrite zlen_zeros, unbe_zeros, Z.add_0_r.
  change (256 ^ Z.max 0 8) with (2 ^ 64). eexists. by apply AssignedAddress_value.
Qed.

Section ReconcileFacts.
Context {K : Type} `{NetlinkLaws K}.
Context (delegated : Prefix) (valid preferred : Z) (prev : list Assignment).
Context (names : list string) (link : string -> Z) (k0 : K).

(** The interfaces found have their index. *)
Definition links_ok (k : K) : Prop := forall n i, n ∈ names -> InterfaceByName k n = Some i -> i = link n.

(** An assignment the program can take back. *)
Definition takeable (a : Assignment) : Prop := prefix_IsValid (Subnet a) = true -> assignable (Address a) (pbits (Subnet a)).

(** An interface has the address of its assignment, and no other but those it had at the
    start. *)
Definition holds (k : K) (name : string) (a : Assignment) : Prop :=
  AssignedAddress (Subnet a) = Ret (Address a) /\ has k (link name) (Address a) (pbits (Subnet a)) = true
  /\ forall a' b', has k (link name) a' b' = true -> (a', b') = (Address a, pbits (Subnet a)) \/ has k0 (link name) a' b' = true.

Definition lan_ok (k : K) (name : string) (o : option Assignment) : Prop :=
  match o with
  | Some a => holds k name a
  | None => forall a b, has k (link name) a b = true -> has k0 (link name) a b = true
  end.

(** What [reconcileOne] assigns at an index, when it does. *)
Definition assigns (index : nat) (name : string) (a : Assignment) : Prop :=
  SubnetFor delegated (Z.of_nat index) = Ret (Subnet a) /\ AssignedAddress (Subnet a) = Ret (Address a)
  /\ Iface a = name /\ ValidLifetime a = valid /\ PreferredLifetime a = preferred.

(** Only the interface named is touched. *)
Definition touches (name : string) (k k' : K) : Prop :=
  (forall n, InterfaceByName k' n = InterfaceByName k n) /\ forall i a b, i <> link name -> has k' i a b = has k i a b.

Lemma touches_refl name k : touches name k k.
Proof. done. Qed.

Lemma touches_trans name k1 k2 k3 : touches name k1 k2 -> touches name k2 k3 -> touches name k1 k3.
Proof. intros [H1 H2] [H3 H4]. split; intros; [by rewrite H3, H1|by rewrite H4, H2]. Qed.

Lemma lan_ok_ext k k' name o : (forall a b, has k' (link name) a b = has k (link name) a b) -> lan_ok k name o -> lan_ok k' name o.
Proof.
  intros E. destruct o as [a|]; cbn [lan_ok]; [|intros Ho a b; rewrite E; apply Ho].
  intros (Ha & Hh & Ho). split; [done|]. rewrite E. split; [done|]. intros a' b'. rewrite E. apply Ho.
Qed.

Lemma adds name k a b e k' : InterfaceByName k name = Some (link name) -> assignable a b ->
  AddAddr (link name) a b k = (e, k') -> touches name k k' /\
  (e = None -> forall a' b', has k' (link name) a' b' = bool_decide ((a', b') = (a, b)) || has k (link name) a' b').
Proof.
  intros Hi Ha E. assert (ready k (link name) a b) as Hr by (split; [by eexists|done]). split; [split|].
  - intros n. by rewrite <- (add_links _ _ _ _ n Hr), E.
  - intros i a' b' Hne. destruct e as [e|]; [exact (add_fails _ _ _ _ _ _ Hr E i a' b')|].
    rewrite (add_ok _ _ _ _ _ Hr E), bool_decide_eq_false_2 by congruence. done.
  - intros -> a' b'. rewrite (add_ok _ _ _ _ _ Hr E). f_equal. apply bool_decide_ext. split; [by intros [= -> ->]|by intros [= -> ->]].
Qed.

Lemma dels name k a b e k' : InterfaceByName k name = Some (link name) -> assignable a b ->
  DelAddr (link name) a b k = (e, k') -> touches name k k' /\
  (e = None -> forall a' b', has k' (link name) a' b' = negb (bool_decide ((a', b') = (a, b))) && has k (link name) a' b').
Proof.
  intros Hi Ha E. assert (ready k (link name) a b) as Hr by (split; [by eexists|done]). split; [split|].
  - intros n. by rewrite <- (del_links _ _ _ _ n Hr), E.
  - intros i a' b' Hne. destruct e as [e|]; [exact (del_fails _ _ _ _ _ _ Hr E i a' b')|].
    rewrite (del_ok _ _ _ _ _ Hr E), bool_decide_eq_false_2 by congruence. done.
  - intros -> a' b'. rewrite (del_ok _ _ _ _ _ Hr E). do 2 f_equal. apply bool_decide_ext. split; [by intros [= -> ->]|by intros [= -> ->]].
Qed.

(** One interface: nothing else is touched; and if it reports no error, having been as
    the previous assignment says, it is as the new one says. *)
Lemma reconcileOne_lan index name k a err k' : name ∈ names -> links_ok k -> (forall old, prev !! index = Some old -> takeable old) ->
  reconcileOne delegated valid preferred index name prev k = ((a, err), k') ->
  touches name k k' /\ Iface a = name /\ takeable a /\
  (err = None -> lan_ok k name (prev !! index) -> assigns index name a /\ holds k' name a).
Proof using All.
  intros Hn Hl Hprev. unfold reconcileOne. destruct (SubnetFor delegated (Z.of_nat index)) as [subnet| |] eqn:Es; [|by intros [= <- <- <-]..].
  destruct (SubnetFor_assigned _ _ _ Es) as (addr & Ea). rewrite Ea. pose proof (AssignedAddress_assignable _ _ Ea) as Has.
  set (a0 := mkAssignment name subnet addr valid preferred).
  assert (takeable a0) as Ht by (intros _; exact Has).
  assert (assigns index name a0) as Hasg by done.
  destruct (InterfaceByName k name) as [i|] eqn:Ei; [|by intros [= <- <- <-]].
  assert (i = link name) as -> by by apply Hl.
  assert (forall k1, InterfaceByName k1 name = Some (link name) ->
    match AddAddr (link name) addr (pbits subnet) k1 with (Some e, k) => ((a0, Some "assigning address"), k) | (None, k) => ((a0, None), k) end
      = ((a, err), k') ->
    touches name k1 k' /\ a = a0 /\
    (err = None -> (forall a' b', has k1 (link name) a' b' = true -> has k0 (link name) a' b' = true) -> holds k' name a0)) as Hadd.
  { intros k1 Hi1. destruct (AddAddr (link name) addr (pbits subnet) k1) as [e k2] eqn:E. destruct (adds name k1 addr (pbits subnet) e k2 Hi1 Has E) as [Hto Hok].
    destruct e; intros [= <- <- <-]; (split; [done|]; split; [done|]); [done|]. intros _ Hb. specialize (Hok eq_refl).
    split; [done|]. split; [by rewrite Hok, bool_decide_eq_true_2|]. intros a' b'. rewrite Hok.
    intros [?%bool_decide_eq_true|Hx]%orb_true_iff; [by left|right; by apply Hb]. }
  destruct (prev !! index) as [old|] eqn:Ep.
  - case_bool_decide as Hsame.
    + intros [= <- <- <-]. split; [done|]. split; [done|]. split; [done|]. intros _ (Hoa & Hoh). split; [done|].
      assert (Address old = addr) as Hadr by congruence. unfold holds. cbn [Subnet Address a0]. by rewrite <- Hadr, <- Hsame.
    + destruct (prefix_IsValid (Subnet old)) eqn:Hv.
      * destruct (DelAddr (link name) (Address old) (pbits (Subnet old)) k) as [e k1] eqn:Ed.
        destruct (dels name k _ _ _ _ Ei (Hprev old eq_refl Hv) Ed) as [Hto Hok]. destruct e; [by intros [= <- <- <-]|].
        intros HR. apply Hadd in HR as (Hto2 & -> & Hh); [|by rewrite (proj1 Hto)].
        split; [by eapply touches_trans|]. split; [done|]. split; [done|]. intros He (_ & _ & Hoo). split; [done|]. apply Hh; [done|].
        intros a' b'. rewrite (Hok eq_refl). intros [Hne%negb_true_iff%bool_decide_eq_false Hx]%andb_true_iff.
        by destruct (Hoo a' b' Hx).
      * intros HR. apply Hadd in HR as (Hto2 & -> & Hh); [|done]. split; [done|]. split; [done|]. split; [done|].
        intros _ (Hoa & _). exfalso. destruct (AssignedAddress_assignable _ _ Hoa) as [_ Hb].
        unfold prefix_IsValid in Hv. by rewrite Hb in Hv.
  - intros HR. apply Hadd in HR as (Hto2 & -> & Hh); [|done]. split; [done|]. split; [done|]. split; [done|].
    intros He Ho. split; [done|]. by apply Hh.
Qed.

(** The loop: each interface as its turn leaves it. *)
Lemma reconcile_loop_lans ns : forall index k result errs k',
  (forall n, n ∈ ns -> n ∈ names) -> NoDup (link <$> ns) -> links_ok k ->
  (forall j old, prev !! j = Some old -> takeable old) ->
  reconcile_loop delegated valid preferred index ns prev k = ((result, errs), k') ->
  length result = length ns
  /\ (errs = [] <-> failing_loop delegated valid preferred index ns prev k = [])
  /\ (forall n, InterfaceByName k' n = InterfaceByName k n)
  /\ (forall i a b, i ∉ link <$> ns -> has k' i a b = has k i a b)
  /\ (forall j a, result !! j = Some a -> takeable a)
  /\ (forall j name, ns !! j = Some name -> name ∉ failing_loop delegated valid preferred index ns prev k ->
        lan_ok k name (prev !! (index + j)%nat) ->
        exists a, result !! j = Some a /\ assigns (index + j) name a /\ holds k' name a).
Proof using All.
  induction ns as [|name ns IH]; intros index k result errs k' Hin Hnd Hl Hprev; cbn [reconcile_loop failing_loop].
  { intros [= <- <- <-]. split; [done|]. split; [done|]. split; [done|]. split; [done|]. split; intros j ? Hj; by rewrite lookup_nil in Hj. }
  destruct (reconcileOne delegated valid preferred index name prev k) as [[a err] k1] eqn:E1.
  destruct (reconcile_loop delegated valid preferred (S index) ns prev k1) as [[rest errs'] k2] eqn:E2.
  intros [= <- <- <-]. cbn [fmap list_fmap] in Hnd. apply NoDup_cons in Hnd as [Hn Hnd].
  destruct (reconcileOne_lan index name k a err k1) as ([Hl1 Ho1] & Hif & Ht & Hok); [apply Hin; left|done|by eauto|done|].
  destruct (IH (S index) k1 rest errs' k2) as (Hlen & He & Hl2 & Ho2 & Ht2 & Hj);
    [intros n Hx; apply Hin; by right|done|intros n i Hx Hi; rewrite Hl1 in Hi; by apply Hl|done|done|].
  split; [cbn; by rewrite Hlen|]. split; [destruct err; cbn; [done|exact He]|].
  split; [intros n; by rewrite Hl2|]. split; [|split].
  - intros i a0 b0 Hi. cbn in Hi. rewrite not_elem_of_cons in Hi. rewrite Ho2, Ho1 by tauto. done.
  - intros [|j] b; cbn; [by intros [= <-]|apply Ht2].
  - intros [|j] nm; cbn [lookup list_lookup].
    + intros [= <-]. rewrite Nat.add_0_r. intros Hf Hlan. exists a. split; [done|]. destruct err; [exfalso; apply Hf; by left|].
      destruct (Hok eq_refl Hlan) as [Has Hh]. split; [done|]. apply (lan_ok_ext k1 k2 name (Some a)); [|done]. intros a' b'. by apply Ho2.
    + intros Hnm Hf Hlan. rewrite elem_of_app in Hf. replace (index + S j)%nat with (S index + j)%nat in * by lia.
      apply (Hj j nm Hnm); [tauto|]. apply (lan_ok_ext k k1); [|done]. intros a' b'. apply Ho1. intros Heq.
      apply Hn. rewrite <- Heq. apply list_elem_of_fmap_2. by eapply list_elem_of_lookup_2.
Qed.

(** A failure is not made good by the next call: the entry carries the new subnet all
    the same, so that the next Reconcile takes it as done. *)
Lemma failed_add_not_retried index name k a e k' k2 : reconcileOne delegated valid preferred index name prev k = ((a, Some e), k') ->
  prefix_IsValid (Subnet a) = true -> Address a <> AInvalid -> is_Some (InterfaceByName k2 name) ->
  forall prev', prev' !! index = Some a ->
  exists a', reconcileOne delegated valid preferred index name prev' k2 = ((a', None), k2) /\ Subnet a' = Subnet a.
Proof.
  unfold reconcileOne. intros HR Hv Ha [i2 Hi] prev' Hp. rewrite Hi, Hp.
  destruct (SubnetFor delegated (Z.of_nat index)) as [subnet| |]; [|by injection HR as <- _ _..].
  destruct (AssignedAddress subnet) as [addr| |]; [|by injection HR as <- _ _..].
  assert (Subnet a = subnet) as Hsub.
  { destruct (InterfaceByName k name) as [i|]; [|by injection HR as <- _ _].
    destruct (prev !! index) as [old|]; [case_bool_decide; [done|]; destruct (prefix_IsValid (Subnet old))|];
      repeat match type of HR with context [AddAddr ?i ?a ?b ?k] => destruct (AddAddr i a b k) as [[?|] ?]
        | context [DelAddr ?i ?a ?b ?k] => destruct (DelAddr i a b k) as [[?|] ?] end; by injection HR as <- _ _ || done. }
  rewrite bool_decide_true by done. by eexists.
Qed.
End ReconcileFacts.

(** ** Properties *)

Lemma Contains6 n z bits v : 0 <= bits <= 128 ->
  Contains (mkPrefix (A6 n z) bits) (A6 v "") = (n / 2 ^ (128 - bits) =? v / 2 ^ (128 - bits)).
Proof.
  intros Hb. unfold Contains, prefix_IsValid. cbn [paddr pbits Zone]. rewrite bool_decide_true by done.
  rewrite (proj2 (Z.leb_le _ _)) by lia. cbn [andb]. by rewrite !Z.shiftr_div_pow2 by lia.
Qed.

Lemma div_mul_below a b c : 0 <= c < b -> (a * b + c) / b = a.
Proof. intros. rewrite Z.div_add_l, Z.div_small by lia. lia. Qed.

(** Carving: for a delegation of 2 to 64 bits, the LAN of each index in capacity
    gets a /64 and an address inside it and inside the delegation, and no other index
    gets a /64 holding that address; any other index is refused. *)
Lemma SubnetFor_carves n z bits i : 0 <= n < 2 ^ 128 -> 2 <= bits <= 64 -> Is4In6 (A6 n z) = false ->
  (0 <= i < 2 ^ (64 - bits) ->
     exists s a, SubnetFor (mkPrefix (A6 n z) bits) i = Ret s /\ AssignedAddress s = Ret a
       /\ pbits s = 64 /\ Contains s a = true /\ Contains (mkPrefix (A6 n z) bits) a = true
       /\ forall j s', j <> i -> SubnetFor (mkPrefix (A6 n z) bits) j = Ret s' -> Contains s' a = false)
  /\ (~ 0 <= i < 2 ^ (64 - bits) -> exists e, SubnetFor (mkPrefix (A6 n z) bits) i = Fail e).
Proof.
  intros Hn Hb H4. split; [|by apply SubnetFor_fails]. intros Hi.
  assert (0 < 2 ^ (64 - bits)) by (apply Z.pow_pos_nonneg; lia).
  pose proof (subnet_of_range n bits i ltac:(lia) Hi Hn) as Hr. rewrite subnet_of_hi in Hr by lia.
  set (q := n / 2 ^ (128 - bits)) in *. set (h := q * 2 ^ (64 - bits) + i) in *.
  assert (0 <= h < 2 ^ 64) as Hh by (change (2 ^ 128) with (2 ^ 64 * 2 ^ 64) in Hr; nia).
  assert (forall v, (v * 2 ^ 64 + 1) / 2 ^ 64 = v) as Hd by (intros v; apply div_mul_below; lia).
  exists (mkPrefix (A6 (h * 2 ^ 64) "") 64), (A6 (h * 2 ^ 64 + 1) "").
  split; [rewrite SubnetFor_value by done; by rewrite subnet_of_hi by lia|]. split; [by apply AssignedAddress_value|].
  split; [done|]. split; [|split].
  - rewrite Contains6 by lia. change (128 - 64) with 64. rewrite Hd, Z.div_mul by lia. apply Z.eqb_refl.
  - rewrite Contains6 by lia. rewrite pow_split by lia. rewrite (Z.mul_comm (2 ^ (64 - bits))), <- (Z.div_div (h * 2 ^ 64 + 1)) by lia.
    rewrite Hd. unfold h. rewrite div_mul_below by lia. rewrite Z.mul_comm, <- pow_split by lia. apply Z.eqb_refl.
  - intros j s' Hj Hs'. destruct (decide (0 <= j < 2 ^ (64 - bits))) as [Hjr|Hjr].
    2: { destruct (SubnetFor_fails n z bits j Hb Hjr) as (e & He). congruence. }
    rewrite SubnetFor_value in Hs' by done. injection Hs' as <-. rewrite subnet_of_hi by lia. fold q.
    rewrite Contains6 by lia. change (128 - 64) with 64. rewrite Hd, Z.div_mul by lia. apply Z.eqb_neq. unfold h. lia.
Qed.

Section Sequences.
Context {K : Type} `{NetlinkLaws K}.
Variables (names : list string) (link : string -> Z) (k0 : K).

(** A run of calls for the LAN interfaces [names], each given what the one before
    returned, as the kernel may fail them: the assignments, the kernel, and the
    interfaces a call has failed for.  Between calls the kernel may change, but not the
    addresses. *)
Inductive reconciled : list Assignment -> K -> list string -> Prop :=
| rec_start : reconciled [] k0 []
| rec_call delegated valid preferred prev k F result errs k' : reconciled prev k F ->
    Reconcile delegated valid preferred names prev k = ((result, errs), k') ->
    reconciled result k' (failing delegated valid preferred names prev k ++ F)
| rec_kernel prev k k' F : reconciled prev k F -> links_ok names link k' ->
    (forall i a b, has k' i a b = has k i a b) -> reconciled prev k' F.

Record in_step (prev : list Assignment) (k : K) (F : list string) : Prop := {
  is_links : links_ok names link k;
  is_takeable : forall j a, prev !! j = Some a -> takeable a;
  is_lans : forall j name, names !! j = Some name -> name ∉ F -> lan_ok link k0 k name (prev !! j);
  is_others : forall i a b, i ∉ link <$> names -> has k i a b = has k0 i a b }.

Lemma in_step_call delegated valid preferred prev k F result errs k' : NoDup (link <$> names) -> in_step prev k F ->
  Reconcile delegated valid preferred names prev k = ((result, errs), k') ->
  let F' := failing delegated valid preferred names prev k ++ F in
  in_step result k' F' /\ (errs = [] -> failing delegated valid preferred names prev k = []) /\
  forall j name, names !! j = Some name -> name ∉ F' -> exists a, result !! j = Some a /\ assigns delegated valid preferred j name a
    /\ holds link k0 k' name a.
Proof using All.
  intros Hnd [Hl Ht Hlan Ho]. unfold Reconcile, failing. destruct (Open k) as [e|].
  { intros [= <- <- <-]. cbv zeta. split; [|split; [done|]].
    - split; [done|intros j a Hj; by rewrite lookup_nil in Hj| |done]. intros j name Hj Hf. exfalso. apply Hf, elem_of_app. left.
      by eapply list_elem_of_lookup_2.
    - intros j name Hj Hf. exfalso. apply Hf, elem_of_app. left. by eapply list_elem_of_lookup_2. }
  intros HR. cbv zeta. destruct (reconcile_loop_lans delegated valid preferred prev names link k0 names 0 k result errs k')
    as (_ & He & Hl' & Ho' & Ht' & Hj); [done..|].
  assert (forall j name, names !! j = Some name -> name ∉ failing_loop delegated valid preferred 0 names prev k ++ F ->
    exists a, result !! j = Some a /\ assigns delegated valid preferred j name a /\ holds link k0 k' name a) as Hall.
  { intros j name Hn [Hf HF]%not_elem_of_app. apply (Hj j name Hn Hf). by apply Hlan. }
  split; [|split; [apply He|exact Hall]]. split; [|done| |].
  - intros n i Hn. rewrite Hl'. by apply Hl.
  - intros j name Hn HF. destruct (Hall j name Hn HF) as (a & -> & _ & Hh). exact Hh.
  - intros i a b Hi. rewrite Ho' by done. by apply Ho.
Qed.

Lemma reconciled_in_step prev k F : NoDup (link <$> names) -> links_ok names link k0 -> reconciled prev k F -> in_step prev k F.
Proof using All.
  intros Hnd Hl HR. induction HR as [|delegated valid preferred prev k F result errs k' HR IH E|prev k k' F HR IH Hlk Hh].
  - split; [done|intros j a Hj; by rewrite lookup_nil in Hj| |done]. intros j name _ _. rewrite lookup_nil. by intros a b.
  - by eapply in_step_call.
  - destruct IH as [Hl' Ht Hlan Ho]. split; [done|done| |].
    + intros j name Hj HF. apply (lan_ok_ext link k0 k); [|by apply Hlan]. intros. apply Hh.
    + intros i a b Hi. rewrite Hh. by apply Ho.
Qed.
End Sequences.

(** C31: Reconcile keeps the LAN interfaces as the delegation says, through any sequence of
    calls, whichever of them fail.  After the last, an interface that no call has failed for
    has the address of its own /64 of the delegation, recorded in the assignments with the
    delegation's lifetimes, and no address but that and those it had at the start: the ones
    assigned before are gone.  (One that a call has failed for may stay without its address
    for good: [failed_add_not_retried].)  A call that returns no error failed for none, and
    the other interfaces are untouched whatever fails. *)
Theorem Reconcile_in_step {K} `{NetlinkLaws K} names link (k0 : K) prev k F delegated valid preferred result errs k' :
  NoDup (link <$> names) -> links_ok names link k0 -> reconciled names link k0 prev k F ->
  Reconcile delegated valid preferred names prev k = ((result, errs), k') ->
  let failed := failing delegated valid preferred names prev k in
  (errs = [] -> failed = [])
  /\ (forall j name, names !! j = Some name -> name ∉ failed -> name ∉ F -> exists a, result !! j = Some a
        /\ Iface a = name /\ ValidLifetime a = valid /\ PreferredLifetime a = preferred
        /\ SubnetFor delegated (Z.of_nat j) = Ret (Subnet a) /\ AssignedAddress (Subnet a) = Ret (Address a)
        /\ has k' (link name) (Address a) (pbits (Subnet a)) = true
        /\ forall a' b', has k' (link name) a' b' = true ->
              (a', b') = (Address a, pbits (Subnet a)) \/ has k0 (link name) a' b' = true)
  /\ (forall i a b, i ∉ link <$> names -> has k' i a b = has k0 i a b).
Proof.
  intros Hnd Hl HR HC. cbv zeta. pose proof (reconciled_in_step names link k0 prev k F Hnd Hl HR) as Hs.
  destruct (in_step_call names link k0 _ _ _ _ _ _ _ _ _ Hnd Hs HC) as ([_ _ _ Ho] & He & Hj). split; [done|]. split; [|done].
  intros j name Hn Hf HF. destruct (Hj j name Hn) as (a & Hr & (Hsub & Ha & Hi & Hv & Hp) & _ & Hh & Hx); [by apply not_elem_of_app|].
  by exists a.
Qed.

(** ** Witnesses *)

(** A kernel: the LAN interfaces there are, and the addresses; a request fails that takes
    away an address there is not. *)
Definition sample_k : Type := list string * list (Z * Addr * Z).

Definition sample_link (n : string) : Z := if String.eqb n "lan0" then 2 else if String.eqb n "lan1" then 3 else 4.

#[export] Instance sample_netlink : Netlink sample_k := {
  Open _ := None;
  InterfaceByName k n := if bool_decide (n ∈ k.1) then Some (sample_link n) else None;
  AddAddr i a b k := (None, (k.1, (i, a, b) :: k.2));
  DelAddr i a b k :=
    if bool_decide ((i, a, b) ∈ k.2) then (None, (k.1, filter (fun e => e <> (i, a, b)) k.2)) else (Some "cannot assign", k);
  has k i a b := bool_decide ((i, a, b) ∈ k.2) }.

#[export] Instance sample_netlink_laws : NetlinkLaws sample_k.
Proof.
  split; cbn [Open InterfaceByName AddAddr DelAddr has sample_netlink].
  - intros i a b k k' _ [= <-] i' a' b'. cbn [snd]. rewrite <- bool_decide_or. apply bool_decide_ext. by rewrite elem_of_cons.
  - done.
  - intros i a b k k' _ E i' a' b'. case_bool_decide; [|done]. injection E as <-. cbn [snd].
    rewrite <- bool_decide_not, <- bool_decide_and. apply bool_decide_ext. by rewrite list_elem_of_filter.
  - intros i a b k e k' _ E. case_bool_decide; [done|]. by injection E as _ <-.
  - done.
  - intros i a b k n _. by destruct (bool_decide ((i, a, b) ∈ k.2)).
Qed.

Definition sample_delegated : Prefix := mkPrefix (A6 0x20010db8000100000000000000000000 "") 56.
Definition sample_renumbered : Prefix := mkPrefix (A6 0x20010db8000200000000000000000000 "") 56.
Definition sample_lans : list string := ["lan0"; "lan1"].

(** A first call before lan0 is there; then it is, and the delegation has changed. *)
Definition sample_first : (list Assignment * list string) * sample_k := Reconcile sample_delegated 7200 3600 sample_lans [] (["lan1"], []).
Definition sample_next (d : Prefix) : (list Assignment * list string) * sample_k :=
  Reconcile d 7200 3600 sample_lans sample_first.1.1 (sample_lans, sample_first.2.2).

Lemma sample_first_eq : Reconcile sample_delegated 7200 3600 sample_lans [] (["lan1"], []) = (sample_first.1.1, sample_first.1.2, sample_first.2).
Proof. reflexivity. Qed.

Lemma sample_failing : failing sample_delegated 7200 3600 sample_lans [] ((["lan1"], []) : sample_k) = ["lan0"] /\
  failing sample_renumbered 7200 3600 sample_lans sample_first.1.1 (sample_lans, sample_first.2.2) = ["lan0"].
Proof. split; vm_compute; reflexivity. Qed.

Lemma sample_links_ok (k : sample_k) : links_ok sample_lans sample_link k.
Proof. intros n i Hn. cbn. case_bool_decide; congruence. Qed.

Lemma sample_reconciled : reconciled sample_lans sample_link ((["lan1"], []) : sample_k) sample_first.1.1 (sample_lans, sample_first.2.2) ["lan0"].
Proof.
  apply (rec_kernel _ _ _ _ sample_first.2); [|apply sample_links_ok|done].
  rewrite <- (app_nil_r ["lan0"]), <- (proj1 sample_failing). by eapply rec_call; [apply rec_start|apply sample_first_eq].
Qed.

(** lan1, that no call has failed for, is renumbered: it has its new address and none
    other. *)
Lemma Reconcile_in_step_witness : exists a, (sample_next sample_renumbered).1.1 !! 1%nat = Some a /\
  has (sample_next sample_renumbered).2 3 (Address a) 64 = true /\
  forall a' b', has (sample_next sample_renumbered).2 3 a' b' = true -> (a', b') = (Address a, pbits (Subnet a)).
Proof.
  assert (NoDup (sample_link <$> sample_lans)) as Hnd by (apply (bool_decide_unpack _); vm_compute; exact I).
  destruct (Reconcile_in_step sample_lans sample_link (["lan1"], []) sample_first.1.1 (sample_lans, sample_first.2.2) ["lan0"]
    sample_renumbered 7200 3600 (sample_next sample_renumbered).1.1 (sample_next sample_renumbered).1.2 (sample_next sample_renumbered).2
    Hnd (sample_links_ok _) sample_reconciled eq_refl) as (_ & Hl & _).
  rewrite (proj2 sample_failing) in Hl.
  assert ("lan1"%string ∉ ["lan0"%string]) as Hf by (apply (bool_decide_unpack _); vm_compute; exact I).
  destruct (Hl 1%nat "lan1"%string eq_refl Hf Hf) as (a & Hr & _ & _ & _ & _ & Ha & Hh & Hx).
  destruct (AssignedAddress_assignable _ _ Ha) as [_ Hb]. change lanSubnetBits with 64 in Hb.
  rewrite Hb in *. exists a. split; [exact Hr|]. split; [exact Hh|].
  intros a' b' H. destruct (Hx a' b' H) as [E|E]; [rewrite Hb; exact E|discriminate E].
Defined.

(** lan0, whose first call failed, stays without an address for good: the same delegation
    is taken as done, without an error, and of another the address it never had cannot be
    taken away first. *)
Example lan_stuck : (sample_next sample_delegated).1.2 = [] /\ (forall a b, has (sample_next sample_delegated).2 2 a b = false) /\
  (sample_next sample_renumbered).1.2 = ["removing stale address"] /\ (forall a b, has (sample_next sample_renumbered).2 2 a b = false).
Proof.
  split; [vm_compute; reflexivity|]. split; [|split; [vm_compute; reflexivity|]]; intros a b; apply bool_decide_eq_false;
    match goal with |- _ ∉ ?l => let l' := eval vm_compute in l in change (l) with l' end; set_solver.
Qed.

Lemma SubnetFor_carves_witness : exists s a, SubnetFor sample_delegated 255 = Ret s /\ AssignedAddress s = Ret a
  /\ Contains sample_delegated a = true.
Proof.
  destruct (SubnetFor_carves 0x20010db8000100000000000000000000 "" 56 255 ltac:(split; [discriminate|reflexivity])
    ltac:(split; discriminate) ltac:(vm_compute; reflexivity)) as [H _].
  destruct (H ltac:(split; [discriminate|reflexivity])) as (s & a & Hs & Ha & _ & _ & Hc & _).
  exists s, a. split; [exact Hs|]. split; [exact Ha|exact Hc].
Defined.
