(* ===== verification/Ndproxy.v ===== *)
(** The Neighbor Discovery proxy (RFC 4389): src/pkg/ndproxy (message.go, packet.go,
    wire.go, state.go), the processes around it, src/internal/ndppd (proxy.go,
    routes.go), and the host routes, src/internal/wanextend/hostroutes.go.

    Sockets are their process identifiers; the kernel's routing table is reached
    through pkg/netlink and is the class [Rtnetlink] here.  The order Go ranges over a
    map in is an argument of each sweep. *)

From S2P Require Import Prelude Wire Bpf Netip.
From stdpp Require Import relations.

Local Open Scope Z_scope.

(** ** Messages (message.go) *)

Definition icmpTypeNeighborSolicit : Z := 135.
Definition icmpTypeNeighborAdvert : Z := 136.
Definition icmpv6FixedHeaderBytes : Z := 4.
Definition nsNAFixedFieldsBytes : Z := 20.
Definition naFlagSolicited : Z := 0x40.
Definition optSourceLinkLayerAddress : Z := 1.
Definition optTargetLinkLayerAddress : Z := 2.

(** The Addr of 16 bytes, as [target, _ := netip.AddrFromSlice(...)] leaves it. *)
Definition addr_of (b : bytes) : Addr := default AInvalid (AddrFromSlice b).

Definition parseTarget (b : bytes) (wantType : Z) : outcome Addr :=
  if zlen b <? icmpv6FixedHeaderBytes + nsNAFixedFieldsBytes then Fail "ndproxy: message too short"
  else
    t ← idx b 0;
    if negb (t =? wantType) then Fail "ndproxy: ICMPv6 type"
    else
      raw ← slice b (icmpv6FixedHeaderBytes + 4) (icmpv6FixedHeaderBytes + 4 + 16);
      Ret (addr_of raw).

Definition linkLayerOptionBytes (mac : bytes) : Z := (2 + zlen mac + 7) / 8 * 8.

(** The option written into its own [linkLayerOptionBytes mac] zero bytes. *)
Definition putLinkLayerOption (optType : Z) (mac : bytes) : bytes :=
  optType :: u8 (linkLayerOptionBytes mac / 8) :: field (linkLayerOptionBytes mac - 2) mac.

Definition marshalNeighborSolicitation (target : Addr) (srcMAC : bytes) : bytes :=
  [icmpTypeNeighborSolicit; 0; 0; 0] ++ zeros 4 ++ As16 target ++ putLinkLayerOption optSourceLinkLayerAddress srcMAC.

Definition marshalNeighborAdvertisement (target : Addr) (tgtMAC : bytes) (solicited : bool) : bytes :=
  [icmpTypeNeighborAdvert; 0; 0; 0] ++ [if solicited then naFlagSolicited else 0; 0; 0; 0]
  ++ As16 target ++ putLinkLayerOption optTargetLinkLayerAddress tgtMAC.

Definition solicitedNodeMulticast (addr : Addr) : Addr :=
  let a := As16 addr in
  AddrFrom16 ([0xff; 0x02] ++ zeros 9 ++ [0x01; 0xff] ++ drop 13 a).

(** ** What the sockets send and read (wire.go) *)

(** ff02::1 *)
Definition allNodes : Addr := A6 0xff020000000000000000000000000001 "".

(** ICMP6_FILTER: eight words, a set bit blocking its type. *)
Definition ICMPv6Filter (types : list Z) : list Z :=
  fold_left (fun data t => alter (fun w => Z.ldiff w (Z.shiftl 1 (t mod 32))) (Z.to_nat (t / 32)) data)
    types (replicate 8 0xffffffff).

Definition AdvertisementType : Z := icmpTypeNeighborAdvert.

Definition Solicitation (target : Addr) (srcMAC : bytes) : bytes * Addr :=
  (marshalNeighborSolicitation target srcMAC, solicitedNodeMulticast target).

Definition Advertisement (target solicitor : Addr) (tgtMAC : bytes) : bytes * Addr :=
  let solicited := IsValid solicitor && negb (IsUnspecified solicitor) in
  let dst := if solicited then solicitor else allNodes in
  (marshalNeighborAdvertisement target tgtMAC solicited, dst).

Definition ParseAdvertisement (b : bytes) : outcome (option Addr) :=
  match parseTarget b icmpTypeNeighborAdvert with
  | Ret target => Ret (Some target) | Fail _ => Ret None | Panic => Panic end.

(** ** The WAN's packets (packet.go) *)

Definition ipv6HeaderBytes : Z := 40.
Definition IPPROTO_ICMPV6 : Z := 58.

Definition NSFilter : list SockFilter :=
  [LdB 6; JEq IPPROTO_ICMPV6 3; LdB ipv6HeaderBytes; JEq icmpTypeNeighborSolicit 1; RetK 0xffff; RetK 0].

Record message : Type := mkMessage { target : Addr; source : Addr }.

Definition parseSolicitationPacket (b : bytes) : outcome (option message) :=
  if zlen b <? ipv6HeaderBytes + icmpv6FixedHeaderBytes + nsNAFixedFieldsBytes then Ret None
  else
    b0 ← idx b 0; b6 ← idx b 6; b7 ← idx b 7;
    if negb (Z.shiftr b0 4 =? 6) || negb (b6 =? IPPROTO_ICMPV6) || negb (b7 =? 255) then Ret None
    else
      icmp ← from b ipv6HeaderBytes;
      i0 ← idx icmp 0; i1 ← idx icmp 1;
      if negb (i0 =? icmpTypeNeighborSolicit) || negb (i1 =? 0) then Ret None
      else
        src ← slice b 8 24;
        tgt ← slice icmp (icmpv6FixedHeaderBytes + 4) (icmpv6FixedHeaderBytes + 4 + 16);
        Ret (Some (mkMessage (addr_of tgt) (addr_of src))).

Definition ParseSolicitationPacket (b : bytes) : outcome (option (Addr * Addr)) :=
  m ← parseSolicitationPacket b;
  Ret (match m with Some m => Some (target m, source m) | None => None end).

(** ** The decisions (state.go), times in nanoseconds *)

Definition maxMulticastSolicit : Z := 3.
Definition probeRetransTimer : Z := 1000000000.
Definition SweepInterval : Z := probeRetransTimer.
Definition activeTTL : Z := 5 * 60 * 1000000000.

Record pendingProbe : Type := mkProbe { attempts : Z; nextProbe : Z; solicitor : Addr }.
Record activeEntry : Type := mkActive { iface : string; confirmedAt : Z }.
Record Reply : Type := mkReply { replyTarget : Addr; replySolicitor : Addr; replyIface : string }.
Record Expired : Type := mkExpired { expTarget : Addr; expIface : string }.

Record State : Type := mkState { pending : gmap Addr pendingProbe; active : gmap Addr activeEntry }.

Definition NewState : State := mkState ∅ ∅.

Definition probe_again (p : pendingProbe) (now : Z) : pendingProbe :=
  mkProbe (attempts p + 1) (now + probeRetransTimer) (solicitor p).

Definition OnWANSolicit (now : Z) (target asker : Addr) (s : State) : (option Reply * bool) * State :=
  let unconfirmed :=
    match pending s !! target with
    | Some p => ((None, false), mkState (<[target := mkProbe (attempts p) (nextProbe p) asker]> (pending s)) (active s))
    | None => ((None, true), mkState (<[target := mkProbe 1 (now + probeRetransTimer) asker]> (pending s)) (active s))
    end in
  match active s !! target with
  | Some a => if now - confirmedAt a <? activeTTL then ((Some (mkReply target asker (iface a)), false), s) else unconfirmed
  | None => unconfirmed
  end.

Definition OnLANAdvert (now : Z) (ifc : string) (target : Addr) (s : State) : option Reply * State :=
  match pending s !! target with
  | None => (None, s)
  | Some p => (Some (mkReply target (solicitor p) ifc),
               mkState (delete target (pending s)) (<[target := mkActive ifc now]> (active s)))
  end.

(** The order a sweep ranges over the two maps in: any. *)
Record RangeOrder : Type := mkOrder {
  range_pending : gmap Addr pendingProbe -> list (Addr * pendingProbe);
  range_active : gmap Addr activeEntry -> list (Addr * activeEntry);
  range_pending_perm m : range_pending m ≡ₚ map_to_list m;
  range_active_perm m : range_active m ≡ₚ map_to_list m }.

(** The first loop: the targets to retransmit for, those given up. *)
Fixpoint sweep_pending (now : Z) (es : list (Addr * pendingProbe)) (m : gmap Addr pendingProbe)
    : (list Addr * list Addr) * gmap Addr pendingProbe :=
  match es with
  | [] => (([], []), m)
  | (t, p) :: es =>
    if now <? nextProbe p then sweep_pending now es m
    else if maxMulticastSolicit <=? attempts p then
      let '((retransmit, gaveUp), m) := sweep_pending now es (delete t m) in ((retransmit, t :: gaveUp), m)
    else
      let '((retransmit, gaveUp), m) := sweep_pending now es (<[t := probe_again p now]> m) in
      ((t :: retransmit, gaveUp), m)
  end.

(** The second: the active entries gone stale. *)
Fixpoint sweep_active (now : Z) (es : list (Addr * activeEntry)) (m : gmap Addr activeEntry)
    : list Expired * gmap Addr activeEntry :=
  match es with
  | [] => ([], m)
  | (t, a) :: es =>
    if activeTTL <=? now - confirmedAt a then
      let '(expired, m) := sweep_active now es (delete t m) in (mkExpired t (iface a) :: expired, m)
    else sweep_active now es m
  end.

Definition Sweep (o : RangeOrder) (now : Z) (s : State) : (list Addr * list Addr * list Expired) * State :=
  let '((retransmit, gaveUp), p) := sweep_pending now (range_pending o (pending s)) (pending s) in
  let '(expired, a) := sweep_active now (range_active o (active s)) (active s) in
  ((retransmit, gaveUp, expired), mkState p a).

(** ** The proxy process (internal/ndppd/proxy.go) *)

Record lan : Type := mkLan { lname : string; lindex : Z; lmac : bytes; lsock : Z }.

Record proxy : Type := mkProxy { wanRX : Z; wanTX : Z; wanIndex : Z; wanMAC : bytes; lans : list lan }.

(** The casts to the routes process (routes.go). *)
Inductive cast : Type := install (t : Addr) (i : string) | remove (t : Addr) (i : string).

(** A destination: the address's bytes and the interface. *)
Definition sockaddr (addr : Addr) (ifindex : Z) : bytes * Z := (As16 addr, u32 ifindex).

Inductive effect : Type :=
| Send (sock : Z) (to : bytes * Z) (b : bytes)
| Arm (sock : Z)
| Cast (req : cast)
| StartSweep (after : Z)
| Stop.

Inductive msg : Type :=
| DataMsg (sock : Z) (b : bytes) | sweep | SendErrorMsg | ErrorMsg | ClosedMsg.

Section Proxy.
Variable p : proxy.

Definition Init : State * list effect := (NewState, [StartSweep SweepInterval]).

Definition advertise (reply : Reply) : effect :=
  let '(m, dst) := Advertisement (replyTarget reply) (replySolicitor reply) (wanMAC p) in
  Send (wanTX p) (sockaddr dst (wanIndex p)) m.

Definition probe (t : Addr) : list effect :=
  (fun l => let '(m, dst) := Solicitation t (lmac l) in Send (lsock l) (sockaddr dst (lindex l)) m) <$> lans p.

Definition solicited (now : Z) (st : State) (packet : bytes) : outcome (State * list effect) :=
  r ← ParseSolicitationPacket packet;
  match r with
  | None => Ret (st, [])
  | Some (t, src) =>
    let '((reply, probing), next) := OnWANSolicit now t src st in
    Ret (next, match reply with Some r => [advertise r] | None => [] end ++ (if probing then probe t else []))
  end.

Definition advertised (now : Z) (st : State) (l : lan) (m : bytes) : outcome (State * list effect) :=
  r ← ParseAdvertisement m;
  match r with
  | None => Ret (st, [])
  | Some t =>
    match OnLANAdvert now (lname l) t st with
    | (None, _) => Ret (st, [])
    | (Some reply, next) => Ret (next, [advertise reply; Cast (install (replyTarget reply) (replyIface reply))])
    end
  end.

Definition swept (o : RangeOrder) (now : Z) (st : State) : State * list effect :=
  let '((retransmit, _, expired), next) := Sweep o now st in
  (next, (retransmit ≫= probe) ++ ((fun e => Cast (remove (expTarget e) (expIface e))) <$> expired)
         ++ [StartSweep SweepInterval]).

Definition HandleInfo (o : RangeOrder) (now : Z) (st : State) (m : msg) : outcome (State * list effect) :=
  match m with
  | DataMsg s b =>
    if s =? wanRX p then '(st, effs) ← solicited now st b; Ret (st, effs ++ [Arm (wanRX p)])
    else
      match list_find (fun l => s = lsock l) (lans p) with
      | Some (_, l) => '(st, effs) ← advertised now st l b; Ret (st, effs ++ [Arm (lsock l)])
      | None => Ret (st, [])
      end
  | sweep => Ret (swept o now st)
  | SendErrorMsg => Ret (st, [])
  | ErrorMsg | ClosedMsg => Ret (st, [Stop])
  end.
End Proxy.

(** ** The routes process (internal/ndppd/routes.go) *)

(** The Routes interface: installing and removing a host's route.  Either may fail; the
    removal logs its error itself, and [removes] says whether it has none.  [routed], for
    the laws: whether the host is routed out an interface. *)
Class Routes (R : Type) : Type := {
  Install : Addr -> string -> R -> option string * R;
  Remove : Addr -> string -> R -> R;
  removes : Addr -> string -> R -> bool;
  routed : R -> Addr -> string -> bool }.

Definition HandleCast {R} `{Routes R} (rs : R) (m : cast) : R :=
  match m with
  | install t i => (Install t i rs).2
  | remove t i => Remove t i rs
  end.

(** ** The host routes (internal/wanextend/hostroutes.go) *)

(** The kernel: a lookup of an interface by its name, which may fail; the routing table's
    route of a prefix (its interface); and the two requests, which may fail.  [link]: the
    index an interface has. *)
Class Rtnetlink (K : Type) : Type := {
  link : string -> Z;
  InterfaceByName : K -> string -> option Z;
  out : K -> Prefix -> option Z;
  AddRoute : Z -> Prefix -> K -> option string * K;
  DelRoute : Z -> Prefix -> K -> option string * K }.

Section HostRoutes.
Context {K : Type} `{Rtnetlink K}.

Definition host (t : Addr) : Prefix := PrefixFrom t (BitLen t).

Definition HostRoutes_Install (t : Addr) (i : string) (k : K) : option string * K :=
  match InterfaceByName k i with
  | None => (Some "wanextend: looking up interface", k)
  | Some n =>
    match AddRoute n (host t) k with
    | (Some _, k) => (Some "wanextend: installing route", k)
    | (None, k) => (None, k)
    end
  end.

Definition HostRoutes_Remove (t : Addr) (i : string) (k : K) : K :=
  match InterfaceByName k i with
  | None => k
  | Some n => (DelRoute n (host t) k).2
  end.

(** Whether [HostRoutes_Remove] logs no error. *)
Definition HostRoutes_removes (t : Addr) (i : string) (k : K) : bool :=
  match InterfaceByName k i with
  | None => false
  | Some n => match (DelRoute n (host t) k).1 with None => true | Some _ => false end
  end.

#[export] Instance HostRoutes : Routes K := {
  Install := HostRoutes_Install; Remove := HostRoutes_Remove; removes := HostRoutes_removes;
  routed k t i := bool_decide (out k (host t) = Some (link i)) }.
End HostRoutes.

(** ** Facts of the codec *)

(** An IPv6 address without a zone: what a message's 16 bytes hold. *)
Definition plain (t : Addr) : Prop := exists v, t = A6 v "" /\ 0 <= v < 2 ^ 128.

Lemma addr_of_plain b : is_bytes b -> zlen b = 16 -> plain (addr_of b).
Proof.
  intros Hb Hl. unfold addr_of, AddrFromSlice. rewrite Hl. cbn. eexists. split; [reflexivity|].
  pose proof (unbe_bound b Hb) as Hv. rewrite Hl in Hv. exact Hv.
Qed.

Lemma addr_of_As16 t : plain t -> addr_of (As16 t) = t.
Proof.
  intros (v & -> & Hv). unfold addr_of, AddrFromSlice. rewrite zlen_As16. cbn [Z.eqb Pos.eqb default].
  by apply As16_roundtrip.
Qed.

Lemma parseTarget_spec b want : is_bytes b ->
  (exists t, parseTarget b want = Ret t /\ plain t /\ idx b 0 = Ret want) \/ (exists e, parseTarget b want = Fail e).
Proof.
  intros Hb. unfold parseTarget. destruct (Z.ltb_spec (zlen b) (icmpv6FixedHeaderBytes + nsNAFixedFieldsBytes)) as [|Hl]; [eauto|].
  unfold icmpv6FixedHeaderBytes, nsNAFixedFieldsBytes in *. rewrite idx_ok by lia. cbn [mbind outcome_bind].
  destruct (Z.eqb_spec (b !!! Z.to_nat 0) want) as [Ht|]; [|cbn; eauto]. cbn [negb].
  rewrite slice_ok by lia. cbn [mbind outcome_bind]. left. eexists. split; [done|].
  split; [|by rewrite Ht]. apply addr_of_plain; [auto with wire|].
  rewrite zlen_take, zlen_drop. lia.
Qed.

(** Parsing an advertisement is total, and a target is an address. *)
Lemma ParseAdvertisement_spec b : is_bytes b ->
  exists r, ParseAdvertisement b = Ret r /\ (forall t, r = Some t -> plain t).
Proof.
  intros Hb. unfold ParseAdvertisement.
  destruct (parseTarget_spec b icmpTypeNeighborAdvert Hb) as [(t & -> & Ht & _)|(e & ->)]; eexists; (split; [done|]); congruence.
Qed.

Lemma ParseSolicitationPacket_spec b : is_bytes b ->
  exists r, ParseSolicitationPacket b = Ret r /\ (forall t s, r = Some (t, s) -> plain t /\ plain s).
Proof.
  intros Hb. unfold ParseSolicitationPacket, parseSolicitationPacket.
  unfold ipv6HeaderBytes, icmpv6FixedHeaderBytes, nsNAFixedFieldsBytes.
  destruct (Z.ltb_spec (zlen b) (40 + 4 + 20)) as [|Hl]; [by eexists|].
  rewrite !idx_ok by lia. cbn [mbind outcome_bind]. case_match; [by eexists|].
  rewrite from_ok by lia. cbn [mbind outcome_bind]. rewrite !idx_ok by (rewrite zlen_drop; lia). cbn [mbind outcome_bind].
  case_match; [by eexists|]. rewrite !slice_ok by (rewrite ?zlen_drop; lia). cbn [mbind outcome_bind]. eexists. split; [done|].
  intros t s [= <- <-]. cbn [target source]. split; (apply addr_of_plain; [auto with wire|]); rewrite zlen_take, ?zlen_drop; lia.
Qed.

(** The proxy's advertisement reads back as one of its target: Router and Override
    clear, Solicited as given, the proxy's address in the option. *)
Lemma Advertisement_reads_back t mac solicited : plain t -> zlen mac = 6 ->
  let b := marshalNeighborAdvertisement t mac solicited in
  zlen b = 32 /\ ParseAdvertisement b = Ret (Some t)
  /\ idx b 4 = Ret (if solicited then naFlagSolicited else 0) /\ from b 24 = Ret (2 :: 1 :: mac).
Proof.
  intros Ht Hm b. subst b. unfold ParseAdvertisement, parseTarget, marshalNeighborAdvertisement.
  unfold icmpv6FixedHeaderBytes, nsNAFixedFieldsBytes, putLinkLayerOption, linkLayerOptionBytes. rewrite Hm.
  change ((2 + 6 + 7) / 8 * 8) with 8. rewrite field_exact by lia. change (u8 (8 / 8)) with 1.
  pose proof (zlen_As16 t) as Ha. cbn [app]. split; [zlen_lia|]. split.
  - replace (zlen _ <? 4 + 20) with false by (symmetry; apply Z.ltb_ge; zlen_lia).
    rewrite idx_cons_0. cbn [mbind outcome_bind]. rewrite Z.eqb_refl. cbn [negb].
    repeat read_step. cbn [mbind outcome_bind]. by rewrite addr_of_As16.
  - split; repeat read_step; done.
Qed.

(** The packet filter passes every solicitation the proxy reads. *)
Lemma NSFilter_passes b r : parseSolicitationPacket b = Ret (Some r) -> accepts NSFilter b = 0xffff.
Proof.
  unfold parseSolicitationPacket, ipv6HeaderBytes, icmpv6FixedHeaderBytes, nsNAFixedFieldsBytes.
  destruct (Z.ltb_spec (zlen b) (40 + 4 + 20)) as [|Hl]; [done|].
  intros (b0 & H0 & H)%bind_inv. apply bind_inv in H as (b6 & (_ & H6)%idx_inv & H).
  apply bind_inv in H as (b7 & H7 & H). destruct (Z.eqb_spec b6 IPPROTO_ICMPV6) as [->|]; [|rewrite orb_true_r in H; done].
  destruct (_ || _ : bool); [done|]. apply bind_inv in H as (icmp & (_ & -> & _)%from_inv & H).
  apply bind_inv in H as (i0 & (_ & Hi)%idx_inv & H). apply bind_inv in H as (i1 & _ & H).
  destruct (Z.eqb_spec i0 icmpTypeNeighborSolicit) as [->|]; [|done].
  rewrite lookup_drop in Hi. change (Z.to_nat 40 + Z.to_nat 0)%nat with 40%nat in Hi. change (Z.to_nat 6) with 6%nat in H6.
  unfold accepts, NSFilter. cbn [bpf]. change (Z.to_nat 6) with 6%nat. rewrite H6. cbn [bpf]. rewrite Z.eqb_refl. cbn [bpf].
  unfold ipv6HeaderBytes. change (Z.to_nat 40) with 40%nat. rewrite Hi. cbn [bpf]. by rewrite Z.eqb_refl.
Qed.

(** It does not look at the hop limit: a forwarded solicitation passes it too, and is
    dropped only by the parser. *)
Lemma NSFilter_any_hop_limit : let b := [0x60; 0; 0; 0; 0; 32; 58; 1] ++ zeros 32 ++ [135] ++ zeros 31 in
  accepts NSFilter b = 0xffff /\ parseSolicitationPacket b = Ret None.
Proof. split; reflexivity. Qed.

(** ICMPv6Filter blocks exactly the types it is not given. *)
Lemma ICMPv6Filter_blocks types t : Forall is_byte types -> is_byte t ->
  Z.testbit (ICMPv6Filter types !!! Z.to_nat (t / 32)) (t mod 32) = bool_decide (t ∉ types).
Proof.
  intros Hty Ht. unfold ICMPv6Filter. induction types as [|x types IH] using rev_ind.
  - cbn [fold_left]. rewrite bool_decide_eq_true_2 by set_solver. unfold is_byte in Ht.
    rewrite lookup_total_replicate_2 by (assert (t / 32 < 8) by (apply Z.div_lt_upper_bound; lia); pose proof (Z.div_pos t 32); lia).
    pose proof (Z.mod_pos_bound t 32 eq_refl). change 0xffffffff with (Z.ones 32). rewrite Z.ones_spec_low; [done|lia].
  - apply Forall_app in Hty as [Hty [Hx _]%Forall_cons]. specialize (IH Hty). rewrite fold_left_app. cbn [fold_left].
    set (data := fold_left _ types _) in *. unfold is_byte in Hx, Ht.
    assert (Z.to_nat (t / 32) < length data)%nat as Hlen.
    { subst data. clear -Ht. assert (forall l acc, length (fold_left (fun data t => alter (fun w => Z.ldiff w (Z.shiftl 1 (t mod 32))) (Z.to_nat (t / 32)) data) l acc) = length acc) as ->.
      { induction l; intros; cbn; [done|]. rewrite IHl. apply length_alter. }
      rewrite length_replicate. assert (t / 32 < 8) by (apply Z.div_lt_upper_bound; lia). pose proof (Z.div_pos t 32). lia. }
    destruct (lookup_lt_is_Some_2 data (Z.to_nat (t / 32)) Hlen) as [w Hw].
    rewrite (list_lookup_total_correct _ _ _ Hw) in IH.
    destruct (decide (Z.to_nat (x / 32) = Z.to_nat (t / 32))) as [E|E].
    + rewrite (list_lookup_total_correct _ _ (Z.ldiff w (Z.shiftl 1 (x mod 32)))) by (rewrite E, list_lookup_alter_eq, Hw; done).
      pose proof (Z.mod_pos_bound t 32 eq_refl). pose proof (Z.mod_pos_bound x 32 eq_refl).
      rewrite Z.ldiff_spec, IH, Z.shiftl_1_l, Z.pow2_bits_eqb by lia.
      assert (x / 32 = t / 32) as E' by (pose proof (Z.div_pos x 32); pose proof (Z.div_pos t 32); lia).
      pose proof (Z.div_mod x 32 ltac:(lia)). pose proof (Z.div_mod t 32 ltac:(lia)).
      destruct (Z.eqb_spec (x mod 32) (t mod 32)).
      * rewrite andb_false_r, bool_decide_eq_false_2; [done|]. replace x with t by lia. set_solver.
      * rewrite andb_true_r. apply bool_decide_ext. assert (t <> x) by congruence. set_solver.
    + rewrite (list_lookup_total_correct _ _ w) by (rewrite list_lookup_alter_ne by congruence; done).
      rewrite IH. apply bool_decide_ext. assert (t <> x) by congruence. set_solver.
Qed.

(** ** Facts of the decisions *)

Lemma OnWANSolicit_reply now t asker s r b s' : OnWANSolicit now t asker s = ((Some r, b), s') ->
  exists a, active s !! t = Some a /\ now - confirmedAt a < activeTTL
    /\ r = mkReply t asker (iface a) /\ b = false /\ s' = s.
Proof.
  unfold OnWANSolicit. destruct (active s !! t) as [a|]; [destruct (Z.ltb_spec (now - confirmedAt a) activeTTL)|];
    destruct (pending s !! t); intros; simplify_eq; eauto 10.
Qed.

Lemma OnWANSolicit_next now t asker s r s' : OnWANSolicit now t asker s = (r, s') ->
  active s' = active s /\ forall u q, pending s' !! u = Some q ->
    pending s !! u = Some q
    \/ u = t /\ solicitor q = asker /\ (attempts q = 1 \/ exists q', pending s !! t = Some q' /\ attempts q = attempts q').
Proof.
  unfold OnWANSolicit. destruct (active s !! t) as [a|]; [destruct (now - confirmedAt a <? activeTTL)|];
    destruct (pending s !! t) as [q'|] eqn:E; intros [= <- <-]; (split; [done|]); intros u q; cbn [pending];
    rewrite ?lookup_insert_Some; intros; destruct_and?; destruct_or?; destruct_and?; simplify_eq; cbn [solicitor attempts]; eauto 10.
Qed.

Lemma OnLANAdvert_spec now i t s : match OnLANAdvert now i t s with
  | (None, s') => s' = s /\ pending s !! t = None
  | (Some r, s') => exists q, pending s !! t = Some q /\ r = mkReply t (solicitor q) i
      /\ s' = mkState (delete t (pending s)) (<[t := mkActive i now]> (active s)) end.
Proof. unfold OnLANAdvert. destruct (pending s !! t) eqn:E; eauto. Qed.

(** What a sweep leaves of a probe and of an active entry. *)
Definition kept_probe (now : Z) (q : pendingProbe) : option pendingProbe :=
  if now <? nextProbe q then Some q
  else if maxMulticastSolicit <=? attempts q then None else Some (probe_again q now).
Definition kept_active (now : Z) (a : activeEntry) : option activeEntry :=
  if activeTTL <=? now - confirmedAt a then None else Some a.

Lemma sweep_pending_spec now es : NoDup es.*1 -> forall m, (forall t q, (t, q) ∈ es -> m !! t = Some q) ->
  let '((retransmit, gaveUp), m') := sweep_pending now es m in
  (forall t, m' !! t = if decide (t ∈ es.*1) then m !! t ≫= kept_probe now else m !! t)
  /\ (forall t, t ∈ retransmit <-> exists q, (t, q) ∈ es /\ nextProbe q <= now /\ attempts q < maxMulticastSolicit)
  /\ (forall t, t ∈ gaveUp <-> exists q, (t, q) ∈ es /\ nextProbe q <= now /\ maxMulticastSolicit <= attempts q).
Proof.
  induction es as [|[t q] es IH]; cbn [sweep_pending fmap list_fmap].
  - intros _ m _. split; [done|]. split; intros t; split; intros H; destruct_and?; try (destruct H as (? & H & _)); by apply not_elem_of_nil in H.
  - intros [Hn Hnd]%NoDup_cons m Hm. assert (m !! t = Some q) as Ht by (apply Hm; set_solver).
    assert (forall u, u ∈ es.*1 -> u <> t) as Hne by (intros u Hu ->; done).
    assert (forall m' : gmap Addr _, (forall u, u <> t -> m' !! u = m !! u) -> forall u q', (u, q') ∈ es -> m' !! u = Some q') as Hkeep.
    { intros m' Hm' u q' Hu. rewrite Hm'; [apply Hm; set_solver|]. apply Hne. by apply (list_elem_of_fmap_2 fst) in Hu. }
    destruct (Z.ltb_spec now (nextProbe q)) as [Hd|Hd].
    + specialize (IH Hnd m (Hkeep m (fun _ _ => eq_refl))). destruct (sweep_pending now es m) as [[r g] m'].
      destruct IH as (H1 & H2 & H3). split; [|split].
      * intros u. rewrite H1. destruct (decide (u = t)) as [->|].
        -- rewrite decide_False, decide_True by set_solver. rewrite Ht. cbn. unfold kept_probe.
           by replace (now <? nextProbe q) with true by (symmetry; apply Z.ltb_lt; lia).
        -- by apply decide_ext; set_solver.
      * intros u. rewrite H2. setoid_rewrite elem_of_cons. naive_solver lia.
      * intros u. rewrite H3. setoid_rewrite elem_of_cons. naive_solver lia.
    + destruct (Z.leb_spec maxMulticastSolicit (attempts q)) as [Ha|Ha].
      * specialize (IH Hnd (delete t m) (Hkeep _ (fun u Hu => lookup_delete_ne m t u (not_eq_sym Hu)))).
        destruct (sweep_pending now es (delete t m)) as [[r g] m']. destruct IH as (H1 & H2 & H3). split; [|split].
        -- intros u. rewrite H1. destruct (decide (u = t)) as [->|].
           ++ rewrite decide_False, decide_True by set_solver. rewrite Ht, lookup_delete_eq. cbn. unfold kept_probe.
              replace (now <? nextProbe q) with false by (symmetry; apply Z.ltb_ge; lia).
              by replace (maxMulticastSolicit <=? attempts q) with true by (symmetry; apply Z.leb_le; lia).
           ++ rewrite lookup_delete_ne by done. by apply decide_ext; set_solver.
        -- intros u. rewrite H2. setoid_rewrite elem_of_cons. naive_solver lia.
        -- intros u. rewrite elem_of_cons, H3. setoid_rewrite elem_of_cons. naive_solver lia.
      * specialize (IH Hnd (<[t := probe_again q now]> m) (Hkeep _ (fun u Hu => lookup_insert_ne m t u _ (not_eq_sym Hu)))).
        destruct (sweep_pending now es _) as [[r g] m']. destruct IH as (H1 & H2 & H3). split; [|split].
        -- intros u. rewrite H1. destruct (decide (u = t)) as [->|].
           ++ rewrite decide_False, decide_True by set_solver. rewrite Ht, lookup_insert_eq. cbn. unfold kept_probe.
              replace (now <? nextProbe q) with false by (symmetry; apply Z.ltb_ge; lia).
              by replace (maxMulticastSolicit <=? attempts q) with false by (symmetry; apply Z.leb_gt; lia).
           ++ rewrite lookup_insert_ne by done. by apply decide_ext; set_solver.
        -- intros u. rewrite elem_of_cons, H2. setoid_rewrite elem_of_cons. naive_solver lia.
        -- intros u. rewrite H3. setoid_rewrite elem_of_cons. naive_solver lia.
Qed.

Lemma sweep_active_spec now es : NoDup es.*1 -> forall m, (forall t a, (t, a) ∈ es -> m !! t = Some a) ->
  let '(expired, m') := sweep_active now es m in
  (forall t, m' !! t = if decide (t ∈ es.*1) then m !! t ≫= kept_active now else m !! t)
  /\ (forall e, e ∈ expired <-> exists a, (expTarget e, a) ∈ es /\ activeTTL <= now - confirmedAt a /\ expIface e = iface a)
  /\ NoDup (expTarget <$> expired) /\ (forall u, u ∈ expTarget <$> expired -> u ∈ es.*1).
Proof.
  induction es as [|[t a] es IH]; cbn [sweep_active fmap list_fmap].
  - intros _ m _. split; [done|]. split; [|split; [constructor|set_solver]]. intros e. split; [set_solver|].
    intros (? & H & _). by apply not_elem_of_nil in H.
  - intros [Hn Hnd]%NoDup_cons m Hm. assert (m !! t = Some a) as Ht by (apply Hm; set_solver).
    assert (forall m' : gmap Addr _, (forall u, u <> t -> m' !! u = m !! u) -> forall u q', (u, q') ∈ es -> m' !! u = Some q') as Hkeep.
    { intros m' Hm' u q' Hu. rewrite Hm'; [apply Hm; set_solver|]. intros ->. by apply (list_elem_of_fmap_2 fst) in Hu. }
    destruct (Z.leb_spec activeTTL (now - confirmedAt a)) as [Hd|Hd].
    + specialize (IH Hnd (delete t m) (Hkeep _ (fun u Hu => lookup_delete_ne m t u (not_eq_sym Hu)))).
      destruct (sweep_active now es (delete t m)) as [e m']. destruct IH as (H1 & H2 & H3 & H4). split; [|split; [|split]].
      * intros u. rewrite H1. destruct (decide (u = t)) as [->|].
        -- rewrite decide_False, decide_True by set_solver. rewrite Ht, lookup_delete_eq. cbn. unfold kept_active.
           by replace (activeTTL <=? now - confirmedAt a) with true by (symmetry; apply Z.leb_le; lia).
        -- rewrite lookup_delete_ne by done. by apply decide_ext; set_solver.
      * intros u. rewrite elem_of_cons, H2. setoid_rewrite elem_of_cons. destruct u as [ut ui]. cbn [expTarget expIface]. naive_solver lia.
      * cbn [fmap list_fmap expTarget]. constructor; [|done]. intros Hu%H4. done.
      * cbn [fmap list_fmap expTarget]. set_solver.
    + specialize (IH Hnd m (Hkeep m (fun _ _ => eq_refl))). destruct (sweep_active now es m) as [e m'].
      destruct IH as (H1 & H2 & H3 & H4). split; [|split; [|split]]; [| |done|set_solver].
      * intros u. rewrite H1. destruct (decide (u = t)) as [->|].
        -- rewrite decide_False, decide_True by set_solver. rewrite Ht. cbn. unfold kept_active.
           by replace (activeTTL <=? now - confirmedAt a) with false by (symmetry; apply Z.leb_gt; lia).
        -- by apply decide_ext; set_solver.
      * intros u. rewrite H2. setoid_rewrite elem_of_cons. naive_solver lia.
Qed.

(** A listing of a map in any order. *)
Lemma listing {A} (l : list (Addr * A)) (m : gmap Addr A) : l ≡ₚ map_to_list m ->
  NoDup l.*1 /\ (forall t a, (t, a) ∈ l <-> m !! t = Some a) /\ (forall t, t ∈ l.*1 <-> is_Some (m !! t)).
Proof.
  intros E. assert (forall t a, (t, a) ∈ l <-> m !! t = Some a) as Hin by (intros; rewrite E; apply elem_of_map_to_list).
  split; [rewrite E; apply NoDup_fst_map_to_list|]. split; [done|]. intros t. rewrite list_elem_of_fmap. split.
  - intros ([t' a] & -> & Ha). exists a. by apply Hin.
  - intros [a Ha]. exists (t, a). split; [done|]. by apply Hin.
Qed.

Lemma Sweep_spec o now s : let '((retransmit, gaveUp, expired), s') := Sweep o now s in
  (forall t, pending s' !! t = pending s !! t ≫= kept_probe now)
  /\ (forall t, active s' !! t = active s !! t ≫= kept_active now)
  /\ (forall t, t ∈ retransmit <-> exists q, pending s !! t = Some q /\ nextProbe q <= now /\ attempts q < maxMulticastSolicit)
  /\ (forall t, t ∈ gaveUp <-> exists q, pending s !! t = Some q /\ nextProbe q <= now /\ maxMulticastSolicit <= attempts q)
  /\ (forall e, e ∈ expired <-> exists a, active s !! expTarget e = Some a /\ activeTTL <= now - confirmedAt a /\ expIface e = iface a)
  /\ NoDup (expTarget <$> expired).
Proof.
  unfold Sweep. destruct (listing _ _ (range_pending_perm o (pending s))) as (Hn & Hin & Hd).
  destruct (listing _ _ (range_active_perm o (active s))) as (Hn' & Hin' & Hd').
  pose proof (sweep_pending_spec now _ Hn (pending s) (fun t q H => proj1 (Hin t q) H)) as H.
  destruct (sweep_pending _ _ _) as [[r g] p]. destruct H as (H1 & H2 & H3).
  pose proof (sweep_active_spec now _ Hn' (active s) (fun t q H => proj1 (Hin' t q) H)) as H.
  destruct (sweep_active _ _ _) as [e a]. destruct H as (H4 & H5 & H6 & _). cbn [pending active]. setoid_rewrite Hin in H2.
  setoid_rewrite Hin in H3. setoid_rewrite Hin' in H5. repeat split; try apply H2; try apply H3; try apply H5; try done.
  - intros t. rewrite H1. case_decide as Ht; [done|]. rewrite Hd in Ht. by destruct (pending s !! t); [destruct Ht; eauto|].
  - intros t. rewrite H4. case_decide as Ht; [done|]. rewrite Hd' in Ht. by destruct (active s !! t); [destruct Ht; eauto|].
Qed.

(** ** The processes together *)

(** What the proxy relies on of the routes: a host's route that was installed without an
    error routes it out that interface alone, one removed without an error is gone, and no
    call touches another host's.  Of the host whose call failed nothing is known. *)
Class RoutesLaws (R : Type) (L : list string) `{Routes R} : Prop := {
  install_takes t i (r : R) i' : i ∈ L -> i' ∈ L -> plain t -> (Install t i r).1 = None ->
    routed (Install t i r).2 t i' = bool_decide (i' = i);
  install_others t i (r : R) t' i' : plain t -> plain t' -> t' <> t ->
    routed (Install t i r).2 t' i' = routed r t' i';
  remove_takes t i (r : R) i' : i ∈ L -> i' ∈ L -> plain t -> removes t i r = true ->
    routed (Remove t i r) t i' = bool_decide (i' <> i) && routed r t i';
  remove_others t i (r : R) t' i' : plain t -> plain t' -> t' <> t ->
    routed (Remove t i r) t' i' = routed r t' i' }.

(** The proxy's state and clock, the casts on their way to the routes process, its
    routes, how often the proxy was restarted, and what it has handled when, with the
    effects made.  [failed]: the hosts a call about which has failed since their route was
    last installed without an error. *)
Record sys (R : Type) : Type := mkSys {
  clock : Z; state : State; mailbox : list cast; table : R; restarts : nat;
  failed : gset Addr; trace : list (Z * msg * list effect) }.
Arguments mkSys {R} _ _ _ _ _ _ _.
Arguments clock {R} _.
Arguments state {R} _.
Arguments mailbox {R} _.
Arguments table {R} _.
Arguments restarts {R} _.
Arguments failed {R} _.
Arguments trace {R} _.

Definition casts (effs : list effect) : list cast := omap (fun e => match e with Cast c => Some c | _ => None end) effs.

(** A message's bytes are bytes. *)
Definition msg_wf (m : msg) : Prop := match m with DataMsg _ b => is_bytes b | _ => True end.

(** Sockets are opened one each, and the WAN's link is an Ethernet. *)
Definition proxy_wf (p : proxy) : Prop := zlen (wanMAC p) = 6 /\ Forall (fun l => lsock l <> wanTX p) (lans p).

Definition about (x : cast) : Addr := match x with install t _ | remove t _ => t end.

Section System.
Context {R : Type} `{Routes R} (p : proxy).

Definition goes (r : R) (x : cast) : bool :=
  match x with
  | install t i => match (Install t i r).1 with None => true | Some _ => false end
  | remove t i => removes t i r
  end.

Definition note (r : R) (x : cast) (F : gset Addr) : gset Addr :=
  if goes r x then match x with install t _ => F ∖ {[t]} | remove _ _ => F end else F ∪ {[about x]}.

(** Time passes; the proxy handles a message; the routes process handles a cast; the
    kernel changes, the routes apart (which calls will fail); the supervisor restarts the
    proxy, which starts afresh, alone or after the routes process, whose casts are lost. *)
Inductive step : sys R -> sys R -> Prop :=
| step_tick d c st q r n F tr : 0 <= d -> step (mkSys c st q r n F tr) (mkSys (c + d) st q r n F tr)
| step_handle o m st' effs c st q r n F tr : msg_wf m -> HandleInfo p o c st m = Ret (st', effs) ->
    step (mkSys c st q r n F tr) (mkSys c st' (q ++ casts effs) r n F (tr ++ [(c, m, effs)]))
| step_route x c st q r n F tr : step (mkSys c st (x :: q) r n F tr) (mkSys c st q (HandleCast r x) n (note r x F) tr)
| step_kernel r' c st q r n F tr : (forall t i, routed r' t i = routed r t i) ->
    step (mkSys c st q r n F tr) (mkSys c st q r' n F tr)
| step_restart c st q r n F tr : step (mkSys c st q r n F tr) (mkSys c Init.1 q r (S n) F tr)
| step_restart_all c st q r n F tr : step (mkSys c st q r n F tr) (mkSys c Init.1 [] r (S n) F tr).

Definition start (c : Z) (r : R) : sys R := mkSys c Init.1 [] r 0 ∅ [].

(** Nothing the routes process has still to do is about the host. *)
Definition settled (σ : sys R) (t : Addr) : Prop := t ∉ about <$> mailbox σ.

(** The WAN asked for a host; a LAN's advertisement of it came in on an interface. *)
Definition asked (tr : list (Z * msg * list effect)) (t src : Addr) : Prop :=
  exists tm b effs, (tm, DataMsg (wanRX p) b, effs) ∈ tr /\ ParseSolicitationPacket b = Ret (Some (t, src)).
Definition confirmed (tr : list (Z * msg * list effect)) (t : Addr) (i : string) (tm : Z) : Prop :=
  exists s b effs n l, (tm, DataMsg s b, effs) ∈ tr /\ s <> wanRX p
    /\ list_find (fun l => s = lsock l) (lans p) = Some (n, l) /\ lname l = i /\ ParseAdvertisement b = Ret (Some t).
End System.

(** ** The host routes keep the interface's promise *)

(** What pkg/netlink's requests are relied on for, where they report no error: a route
    added replaces the prefix's, a route deleted was out that interface; and what one
    request is about, it alone touches.  An interface's index is found or not, and is not
    another's. *)
Class RtnetlinkLaws (K : Type) (L : list string) `{Rtnetlink K} : Prop := {
  links_found (k : K) i n : i ∈ L -> InterfaceByName k i = Some n -> n = link i;
  links_distinct i i' : i ∈ L -> i' ∈ L -> link i = link i' -> i = i';
  add_takes n d (k : K) : (AddRoute n d k).1 = None -> out (AddRoute n d k).2 d = Some n;
  add_others n d (k : K) d' : d' <> d -> out (AddRoute n d k).2 d' = out k d';
  del_takes n d (k : K) : (DelRoute n d k).1 = None ->
    out (DelRoute n d k).2 d = if decide (out k d = Some n) then None else out k d;
  del_others n d (k : K) d' : d' <> d -> out (DelRoute n d k).2 d' = out k d' }.

Lemma host_inj t t' : plain t -> plain t' -> host t = host t' -> t = t'.
Proof. by intros (v & -> & _) (v' & -> & _) [= ->]. Qed.

#[export] Instance HostRoutes_laws {K} `{RtnetlinkLaws K L} : RoutesLaws K L.
Proof.
  split; cbn [Install Remove removes routed HostRoutes]; unfold HostRoutes_Install, HostRoutes_Remove, HostRoutes_removes.
  - intros t i k i' Hi Hi' _. destruct (InterfaceByName k i) as [n|] eqn:En; [|done].
    pose proof (add_takes n (host t) k) as Ha. destruct (AddRoute n (host t) k) as [[e|] k']; [done|]. intros _. cbn in *.
    rewrite (Ha eq_refl), (links_found _ _ _ Hi En). apply bool_decide_ext. split; [intros [= E]|by intros ->].
    symmetry. by apply links_distinct.
  - intros t i k t' i' Ht Ht' Hne. destruct (InterfaceByName k i) as [n|]; [|done].
    pose proof (add_others n (host t) k (host t')) as Ha. destruct (AddRoute n (host t) k) as [[e|] k']; cbn in *;
      (rewrite Ha; [done|]; intros E; apply Hne; by apply host_inj in E).
  - intros t i k i' Hi Hi' _. destruct (InterfaceByName k i) as [n|] eqn:En; [|done].
    destruct ((DelRoute n (host t) k).1) eqn:Ed; [done|]. intros _. rewrite (del_takes _ _ _ Ed), (links_found _ _ _ Hi En).
    case_decide as Ho; [|destruct (decide (i' = i)) as [->|]; [rewrite !bool_decide_eq_false_2 by tauto|rewrite (bool_decide_eq_true_2 (i' <> i)) by done]; done].
    rewrite Ho, (bool_decide_eq_false_2 (None = _)) by done. symmetry. destruct (decide (i' = i)) as [->|Hne].
    + by rewrite bool_decide_eq_false_2 by tauto.
    + rewrite (bool_decide_eq_false_2 (Some _ = _)); [apply andb_false_r|]. intros [= E]. apply Hne. symmetry. by apply links_distinct.
  - intros t i k t' i' Ht Ht' Hne. destruct (InterfaceByName k i) as [n|]; [|done].
    rewrite del_others; [done|]. intros E. apply Hne. by apply host_inj in E.
Qed.

(** ** One message *)

Section Handling.
Context (p : proxy).

(** A message is ignored, or it is a solicitation, an advertisement answering a probe,
    or the sweep. *)
Inductive handled (o : RangeOrder) (c : Z) (st : State) : msg -> State -> list effect -> Prop :=
| handled_not m effs : Forall (fun e => e = Stop \/ exists s, e = Arm s) effs -> handled o c st m st effs
| handled_ask b t src reply probing st' : ParseSolicitationPacket b = Ret (Some (t, src)) ->
    OnWANSolicit c t src st = ((reply, probing), st') ->
    handled o c st (DataMsg (wanRX p) b) st'
      ((match reply with Some r => [advertise p r] | None => [] end ++ (if probing then probe p t else [])) ++ [Arm (wanRX p)])
| handled_advert s b t n l reply st' : s <> wanRX p -> list_find (fun l => s = lsock l) (lans p) = Some (n, l) ->
    ParseAdvertisement b = Ret (Some t) -> OnLANAdvert c (lname l) t st = (Some reply, st') ->
    handled o c st (DataMsg s b) st' [advertise p reply; Cast (install (replyTarget reply) (replyIface reply)); Arm (lsock l)]
| handled_sweep : handled o c st sweep (swept p o c st).1 (swept p o c st).2.

Lemma only_arm s : Forall (fun e => e = Stop \/ exists s, e = Arm s) [Arm s].
Proof. constructor; [right; by exists s|constructor]. Qed.

Lemma HandleInfo_handled o c st m : msg_wf m ->
  exists st' effs, HandleInfo p o c st m = Ret (st', effs) /\ handled o c st m st' effs.
Proof.
  intros Hm. destruct m as [s b| | | |]; cbn [HandleInfo msg_wf] in *; [| |by do 2 eexists; (split; [done|]); apply handled_not; constructor|do 2 eexists; (split; [done|]); apply handled_not; (constructor; [by left|constructor])..].
  - destruct (Z.eqb_spec s (wanRX p)) as [->|Hs].
    + unfold solicited. destruct (ParseSolicitationPacket_spec b Hm) as (r & E & _). rewrite E. cbn [mbind outcome_bind].
      destruct r as [[t src]|].
      * destruct (OnWANSolicit c t src st) as [[reply probing] st'] eqn:E'. do 2 eexists. split; [done|]. by eapply handled_ask.
      * do 2 eexists. split; [done|]. apply handled_not, only_arm.
    + destruct (list_find _ (lans p)) as [[n l]|] eqn:El; [|by do 2 eexists; (split; [done|]); apply handled_not; constructor].
      unfold advertised. destruct (ParseAdvertisement_spec b Hm) as (r & E & _). rewrite E. cbn [mbind outcome_bind].
      destruct r as [t|]; [destruct (OnLANAdvert c (lname l) t st) as [[reply|] st'] eqn:E'|].
      * do 2 eexists. split; [done|]. by eapply handled_advert.
      * do 2 eexists. split; [done|]. apply handled_not, only_arm.
      * do 2 eexists. split; [done|]. apply handled_not, only_arm.
  - destruct (swept p o c st) as [st' effs] eqn:E. do 2 eexists. split; [done|].
    change st' with (st', effs).1. change effs with (st', effs).2 at 2. rewrite <- E. constructor.
Qed.

Lemma HandleInfo_inv o c st m st' effs : msg_wf m -> HandleInfo p o c st m = Ret (st', effs) -> handled o c st m st' effs.
Proof. intros Hm E. destruct (HandleInfo_handled o c st m Hm) as (st'' & effs' & E' & Hh). rewrite E in E'. injection E' as -> ->. exact Hh. Qed.

Lemma casts_app a b : casts (a ++ b) = casts a ++ casts b.
Proof. apply omap_app. Qed.

Lemma casts_probe t : casts (probe p t) = [].
Proof. unfold probe, casts. induction (lans p) as [|l ls IH]; [done|]. cbn. exact IH. Qed.

Lemma casts_probes ts : casts (ts ≫= probe p) = [].
Proof. induction ts as [|t ts IH]; [done|]. cbn [mbind list_bind]. by rewrite casts_app, casts_probe. Qed.

Lemma casts_swept o c st : casts (swept p o c st).2
  = (fun e => remove (expTarget e) (expIface e)) <$> (Sweep o c st).1.2.
Proof.
  unfold swept. destruct (Sweep o c st) as [[[r g] e] s']. cbn [fst snd]. rewrite !casts_app, casts_probes. cbn [app].
  change (casts [StartSweep SweepInterval]) with (@nil cast). rewrite app_nil_r. induction e as [|x e IH]; [done|]. cbn. by f_equal.
Qed.

(** The proxy's sends on the WAN. *)
Lemma wan_send_probe t to b : Forall (fun l => lsock l <> wanTX p) (lans p) -> Send (wanTX p) to b ∉ probe p t.
Proof.
  intros Hw. unfold probe. rewrite list_elem_of_fmap. intros (l & E & Hl). rewrite Forall_forall in Hw.
  cbn in E. injection E as E _ _. by apply (Hw l).
Qed.

Lemma wan_send_swept o c st to b : Forall (fun l => lsock l <> wanTX p) (lans p) -> Send (wanTX p) to b ∉ (swept p o c st).2.
Proof.
  intros Hw. unfold swept. destruct (Sweep o c st) as [[[r g] e] s']. cbn [fst snd]. rewrite !elem_of_app. intros [H|[H|H]].
  - apply list_elem_of_bind in H as (t & H & _). by apply wan_send_probe in H.
  - apply list_elem_of_fmap in H as (? & ? & _). done.
  - by apply list_elem_of_singleton in H.
Qed.
End Handling.

(** ** The routes follow the confirmations *)

Section Mirror.
Context {R : Type} (p : proxy) `{RoutesLaws R (lname <$> lans p)}.
Abbreviation L := (lname <$> lans p).

Definition ours (c : cast) : Prop := match c with install t i | remove t i => plain t /\ i ∈ L end.

(** The route of a host once casts are handled without an error. *)
Definition ask_route (t : Addr) (w : option string) (x : cast) : option string :=
  match x with
  | install u i => if decide (u = t) then Some i else w
  | remove u i => if decide (u = t /\ w = Some i) then None else w
  end.
Definition asked_route (t : Addr) (w : option string) (q : list cast) : option string := foldl (ask_route t) w q.

(** [w]: the routes the casts handled have asked for.  Those are the routes of the hosts
    whose calls have not failed, and with the casts under way they are the active
    entries'. *)
Record mirrors (σ : sys R) (w : Addr -> option string) : Prop := {
  m_keys : forall t, is_Some (pending (state σ) !! t) \/ is_Some (active (state σ) !! t) -> plain t;
  m_ifaces : forall t a, active (state σ) !! t = Some a -> iface a ∈ L;
  m_ours : Forall ours (mailbox σ);
  m_routed : forall t i, plain t -> i ∈ L -> t ∉ failed σ -> routed (table σ) t i = bool_decide (w t = Some i);
  m_active : forall t a, active (state σ) !! t = Some a -> asked_route t (w t) (mailbox σ) = Some (iface a);
  m_exact : restarts σ = 0%nat -> forall t, asked_route t (w t) (mailbox σ) = iface <$> active (state σ) !! t }.

Lemma asked_route_app t w q q' : asked_route t w (q ++ q') = asked_route t (asked_route t w q) q'.
Proof. apply foldl_app. Qed.

Lemma asked_route_others t w q : t ∉ about <$> q -> asked_route t w q = w.
Proof.
  unfold asked_route. revert w. induction q as [|x q IH]; intros w; [done|]. cbn [fmap list_fmap foldl]. rewrite not_elem_of_cons.
  intros [Hx Hq]. destruct x as [u i|u i]; cbn [about ask_route] in *; (rewrite decide_False by (try intros [? _]; congruence)); by apply IH.
Qed.

(** The expired entries' removals take away the routes they name, and no other. *)
Lemma asked_route_removes t w es : NoDup (expTarget <$> es) ->
  asked_route t w ((fun e => remove (expTarget e) (expIface e)) <$> es)
  = if decide (Exists (fun e => expTarget e = t /\ w = Some (expIface e)) es) then None else w.
Proof.
  unfold asked_route. revert w. induction es as [|e es IH]; intros w.
  - intros _. rewrite decide_False; [done|]. by intros ?%Exists_nil.
  - cbn [fmap list_fmap foldl ask_route]. rewrite NoDup_cons. intros [Hn Hnd].
    destruct (decide (expTarget e = t /\ w = Some (expIface e))) as [[Ht Hw]|Hne]; rewrite IH by done.
    + rewrite decide_False by (rewrite Exists_exists; intros (? & _ & _ & ?); done).
      rewrite decide_True; [done|]. by apply Exists_cons_hd.
    + apply decide_ext. rewrite Exists_cons. tauto.
Qed.

Lemma mirrors_start c r : (forall t i, routed r t i = false) -> mirrors (start c r) (fun _ => None).
Proof.
  intros Hr. split; cbn [start Init state mailbox restarts NewState pending active fst table failed].
  - intros t [[x Hx]|[x Hx]]; by rewrite lookup_empty in Hx.
  - intros t a Ha. by rewrite lookup_empty in Ha.
  - constructor.
  - intros t i _ _ _. by rewrite Hr.
  - intros t a Ha. by rewrite lookup_empty in Ha.
  - intros _ t. by rewrite lookup_empty.
Qed.

Lemma kept_active_Some now a a' : kept_active now a = Some a' -> a' = a.
Proof. unfold kept_active. case_match; congruence. Qed.

Lemma mirrors_sweep o c st q (r : R) n F tr e w : mirrors (mkSys c st q r n F tr) w ->
  mirrors (mkSys c (swept p o c st).1 (q ++ casts (swept p o c st).2) r n F (tr ++ [e])) w.
Proof.
  intros [Hk Hf Ho Hr Ha Hx]. cbn [state mailbox restarts table failed] in *. rewrite casts_swept.
  assert ((swept p o c st).1 = (Sweep o c st).2) as -> by (unfold swept; by destruct (Sweep o c st) as [[[? ?] ?] ?]).
  pose proof (Sweep_spec o c st) as Hs. destruct (Sweep o c st) as [[[rt g] ex] s']. cbn [fst snd].
  destruct Hs as (Hp & Hac & _ & _ & He & Hnd).
  assert (forall t a, active s' !! t = Some a -> active st !! t = Some a /\ c - confirmedAt a < activeTTL) as Hkept.
  { intros t a Hta. rewrite Hac in Hta. apply bind_Some in Hta as (a' & E & Ek). unfold kept_active in Ek.
    destruct (Z.leb_spec activeTTL (c - confirmedAt a')); [done|]. injection Ek as ->. split; [done|lia]. }
  split; cbn [state mailbox restarts table failed].
  - intros t Ht. apply Hk. rewrite Hp, Hac in Ht. destruct Ht as [[y Hy]|[y Hy]]; apply bind_Some in Hy as (z & Hz & _); [left|right]; by exists z.
  - intros t a [Hta _]%Hkept. by eapply Hf.
  - apply Forall_app. split; [done|]. apply Forall_fmap, Forall_forall. intros x (a & Hxa & _ & Hi)%He.
    change (plain (expTarget x) /\ expIface x ∈ L). rewrite Hi. split; [apply Hk; right; by eexists|by eapply Hf].
  - done.
  - intros t a [Hta Hage]%Hkept. rewrite asked_route_app, asked_route_removes, (Ha _ _ Hta) by done. rewrite decide_False; [done|].
    rewrite Exists_exists. intros (x & (a' & Ea & Hold & _)%He & <- & _). rewrite Hta in Ea. injection Ea as <-. lia.
  - intros Hn t. rewrite asked_route_app, asked_route_removes, Hx, Hac by done. destruct (active st !! t) as [a|] eqn:E; cbn [fmap option_fmap option_map mbind option_bind].
    + unfold kept_active. destruct (Z.leb_spec activeTTL (c - confirmedAt a)) as [Hle|Hlt].
      * rewrite decide_True; [done|]. apply Exists_exists. exists (mkExpired t (iface a)). split; [|done]. apply He. by exists a.
      * rewrite decide_False; [done|]. rewrite Exists_exists. intros (x & (a' & Ea & Hold & _)%He & <- & _). rewrite E in Ea. injection Ea as <-. lia.
    + rewrite decide_False; [done|]. rewrite Exists_exists. intros (x & _ & _ & Hc). done.
Qed.

(** A message that leaves the confirmations as they are casts nothing and keeps it all. *)
Lemma mirrors_quiet c st st' q (r : R) n F tr tr' c' w : mirrors (mkSys c st q r n F tr) w ->
  active st' = active st -> (forall t, is_Some (pending st' !! t) -> plain t) ->
  mirrors (mkSys c' st' q r n F tr') w.
Proof.
  intros [Hk Hf Ho Hr Ha Hx] E Hp. cbn [state mailbox restarts table failed] in *.
  split; cbn [state mailbox restarts table failed]; rewrite ?E; [|done..].
  intros t [Ht|Ht]; [by apply Hp|]. apply Hk. by right.
Qed.

Lemma casts_quiet effs : Forall (fun e => e = Stop \/ exists s, e = Arm s) effs -> casts effs = [].
Proof. induction 1 as [|e effs [->|[s ->]] _ IH]; [done|exact IH..]. Qed.

Lemma list_find_lan s n l : list_find (fun l => s = lsock l) (lans p) = Some (n, l) -> lname l ∈ L.
Proof. intros (Hl & _)%list_find_Some. apply list_elem_of_fmap_2. by eapply list_elem_of_lookup_2. Qed.

Lemma mirrors_advert c st q (r : R) n F tr tr' i t reply st' w : mirrors (mkSys c st q r n F tr) w -> i ∈ L ->
  OnLANAdvert c i t st = (Some reply, st') ->
  mirrors (mkSys c st' (q ++ [install (replyTarget reply) (replyIface reply)]) r n F tr') w.
Proof.
  intros [Hk Hf Ho Hr Ha Hx] Hi E. cbn [state mailbox restarts table failed] in *. pose proof (OnLANAdvert_spec c i t st) as Hs.
  rewrite E in Hs. destruct Hs as (y & Ey & -> & ->). cbn [replyTarget replyIface] in *. clear E.
  assert (plain t) as Ht by (apply Hk; left; by eexists).
  split; cbn [state mailbox restarts table failed pending active]; [| | |done|..].
  - intros u [[x Hu]|[x Hu]]; cbn in Hu.
    + apply lookup_delete_Some in Hu as [_ Hu]. apply Hk. left. by eexists.
    + apply lookup_insert_Some in Hu as [[-> _]|[_ Hu]]; [done|]. apply Hk. right. by eexists.
  - intros u a Hu. cbn in Hu. apply lookup_insert_Some in Hu as [[_ <-]|[_ Hu]]; [done|]. by eapply Hf.
  - apply Forall_app. by repeat constructor.
  - intros u a Hu. rewrite asked_route_app. cbn [asked_route foldl ask_route].
    apply lookup_insert_Some in Hu as [[-> <-]|[Hne Hu]]; [by rewrite decide_True|]. rewrite decide_False by done. by apply Ha.
  - intros Hn u. rewrite asked_route_app. cbn [asked_route foldl ask_route]. destruct (decide (t = u)) as [->|Hne].
    + by rewrite lookup_insert_eq.
    + rewrite lookup_insert_ne by done. by apply Hx.
Qed.

Lemma mirrors_handled o c st m st' effs q (r : R) n F tr w : mirrors (mkSys c st q r n F tr) w -> msg_wf m -> handled p o c st m st' effs ->
  mirrors (mkSys c st' (q ++ casts effs) r n F (tr ++ [(c, m, effs)])) w.
Proof.
  intros Hm Hw Hh. destruct Hh as [m effs He|b t src reply probing st' Ep Eo|s b t k l reply st' Hs El Ep Eo|].
  - rewrite casts_quiet, app_nil_r by done. apply (mirrors_quiet c st st q r n F tr); [done..|]. intros t Ht. eapply m_keys; [exact Hm|]. by left.
  - assert (forall reply probing, casts ((match reply with Some r => [advertise p r] | None => [] end
      ++ (if probing : bool then probe p t else [])) ++ [Arm (wanRX p)]) = []) as ->.
    { intros [y|] []; rewrite !casts_app, ?casts_probe; done. }
    rewrite app_nil_r. destruct (OnWANSolicit_next c t src st _ st' Eo) as [Ha Hn].
    apply (mirrors_quiet c st st' q r n F tr); [done..|]. intros u [y Hu]. apply Hn in Hu as [Hu|(-> & _)].
    + eapply m_keys; [exact Hm|]. left. by eexists.
    + cbn in Hw. destruct (ParseSolicitationPacket_spec b Hw) as (y' & Ey & Hy). rewrite Ep in Ey. injection Ey as <-.
      by apply (Hy t src).
  - apply (mirrors_advert c st q r n F tr _ (lname l) t); [done| |done]. by eapply list_find_lan.
  - by apply mirrors_sweep.
Qed.

(** A cast, handled: the routes are as asked, but of the host whose call has failed. *)
Lemma routed_cast x (r : R) F (w : Addr -> option string) : ours x ->
  (forall t i, plain t -> i ∈ L -> t ∉ F -> routed r t i = bool_decide (w t = Some i)) ->
  forall t i, plain t -> i ∈ L -> t ∉ note r x F -> routed (HandleCast r x) t i = bool_decide (ask_route t (w t) x = Some i).
Proof.
  intros Hx Hr t i Ht Hi. unfold note. destruct (goes r x) eqn:Hg, x as [u j|u j]; destruct Hx as [Hu Hj]; cbn [HandleCast goes ask_route about] in *; intros HF.
  - destruct (Install u j r).1 eqn:Ei; [done|]. destruct (decide (u = t)) as [->|Hne].
    + rewrite install_takes by done. apply bool_decide_ext. split; [by intros ->|by intros [=]].
    + rewrite install_others by done. apply Hr; [done..|]. set_solver.
  - destruct (decide (u = t)) as [->|Hne].
    + rewrite remove_takes, Hr by done. destruct (decide (w t = Some j)) as [Hw|Hw].
      * rewrite decide_True, (bool_decide_eq_false_2 (None = _)) by done. destruct (decide (i = j)) as [->|Hij]; [by rewrite bool_decide_eq_false_2 by tauto|].
        rewrite (bool_decide_eq_false_2 (w t = _)) by congruence. apply andb_false_r.
      * rewrite decide_False by tauto. destruct (decide (i = j)) as [->|Hij]; [|by rewrite bool_decide_eq_true_2 by done].
        rewrite (bool_decide_eq_false_2 (w t = _)) by done. apply andb_false_r.
    + rewrite remove_others, decide_False by (try intros [? _]; congruence). by apply Hr.
  - rewrite install_others, decide_False by set_solver. apply Hr; [done..|]. set_solver.
  - rewrite remove_others, decide_False by set_solver. apply Hr; [done..|]. set_solver.
Qed.

Lemma mirrors_step σ σ' w : mirrors σ w -> step p σ σ' -> exists w', mirrors σ' w'.
Proof.
  intros Hm Hs. destruct Hs as [d c st q r n F tr Hd|o m st' effs c st q r n F tr Hw Eh|x c st q r n F tr|r' c st q r n F tr Hr'|c st q r n F tr|c st q r n F tr].
  - exists w. apply (mirrors_quiet c st st q r n F tr); [done..|]. intros t Ht. eapply m_keys; [exact Hm|]. by left.
  - exists w. eapply mirrors_handled; [done..|]. by apply HandleInfo_inv.
  - exists (fun t => ask_route t (w t) x). destruct Hm as [Hk Hf Ho Hr Ha Hx]. cbn [state mailbox restarts table failed] in *.
    apply Forall_cons in Ho as [Hox Ho]. split; cbn [state mailbox restarts table failed]; try done. by apply routed_cast.
  - exists w. destruct Hm as [Hk Hf Ho Hr Ha Hx]. split; cbn [state mailbox restarts table failed] in *; try done.
    intros t i Ht Hi HF. rewrite Hr'. by apply Hr.
  - exists w. destruct Hm as [Hk Hf Ho Hr Ha Hx]. split; cbn [state mailbox restarts table failed Init NewState fst pending active] in *; try done;
      intros t; rewrite ?lookup_empty; try done; by intros [[y Hy]|[y Hy]].
  - exists w. destruct Hm as [Hk Hf Ho Hr Ha Hx]. split; cbn [state mailbox restarts table failed Init NewState fst pending active] in *; try done;
      intros t; rewrite ?lookup_empty; try done; by intros [[y Hy]|[y Hy]].
Qed.
End Mirror.

(** C22: the host routes follow the proxy's confirmations, where the calls that make them
    do not fail.  At any point of any run, take a host that no cast under way is about and
    no call about which has failed since its route was last installed (one that fails is
    logged, and what it left behind is not known).  If the proxy answers for it, it is
    routed out the LAN it was confirmed behind and out no other; and as long as the proxy
    has not been restarted, it is routed only if the proxy answers for it.  (A restarted
    proxy has forgotten the hosts it had routes installed for, and removes none of
    them.) *)
Theorem routes_follow_confirmations {R} (p : proxy) `{RoutesLaws R (lname <$> lans p)} (c : Z) (r : R) σ t :
  (forall t i, routed r t i = false) -> rtc (step p) (start c r) σ -> t ∉ failed σ -> settled σ t ->
  (forall a i, active (state σ) !! t = Some a -> i ∈ lname <$> lans p ->
     (routed (table σ) t i = true <-> i = iface a))
  /\ (restarts σ = 0%nat -> plain t -> forall i, i ∈ lname <$> lans p ->
        (routed (table σ) t i = true <-> iface <$> active (state σ) !! t = Some i)).
Proof.
  intros Hr Hs HF Hq. assert (exists w, mirrors p σ w) as (w & [Hk Hf _ Hl Ha Hx]).
  { pose proof (ex_intro (mirrors p (start c r)) _ (mirrors_start p c r Hr)) as Hm. revert Hm. clear HF Hq.
    induction Hs as [|? ? ? Hst Hs IH]; [done|]. intros [w Hm]. apply IH. by eapply mirrors_step. }
  split.
  - intros a i Hta Hi. rewrite Hl by (try done; apply Hk; right; by eexists).
    rewrite bool_decide_eq_true, <- (asked_route_others t (w t) (mailbox σ) Hq), (Ha _ _ Hta). split; [by intros [=]|by intros ->].
  - intros Hn Ht i Hi. rewrite Hl by done. by rewrite bool_decide_eq_true, <- (Hx Hn), asked_route_others.
Qed.

(** ** The WAN is answered only for verified hosts *)

Section Verified.
Context {R : Type} `{Routes R} (p : proxy).
Hypothesis Hwf : proxy_wf p.

(** An advertisement sent on the WAN at [tm] is warranted by what came in before. *)
Definition warranted (tr : list (Z * msg * list effect)) (tm : Z) (e : effect) : Prop :=
  exists t asker i tc, plain t /\ asked p tr t asker /\ confirmed p tr t i tc /\ tc <= tm < tc + activeTTL
    /\ e = advertise p (mkReply t asker i).

Record verified (σ : sys R) : Prop := {
  v_active : forall t a, active (state σ) !! t = Some a ->
    plain t /\ confirmed p (trace σ) t (iface a) (confirmedAt a) /\ confirmedAt a <= clock σ;
  v_pending : forall t q, pending (state σ) !! t = Some q -> plain t /\ asked p (trace σ) t (solicitor q);
  v_sent : forall tm m effs to b, (tm, m, effs) ∈ trace σ -> Send (wanTX p) to b ∈ effs ->
    warranted (trace σ) tm (Send (wanTX p) to b) }.

Lemma asked_mono tr tr' t src : asked p tr t src -> asked p (tr ++ tr') t src.
Proof. intros (tm & b & effs & Hin & Hp). exists tm, b, effs. split; [set_solver|done]. Qed.
Lemma confirmed_mono tr tr' t i tc : confirmed p tr t i tc -> confirmed p (tr ++ tr') t i tc.
Proof. intros (s & b & effs & n & l & Hin & Hr). exists s, b, effs, n, l. split; [set_solver|done]. Qed.
Lemma warranted_mono tr tr' tm e : warranted tr tm e -> warranted (tr ++ tr') tm e.
Proof. intros (t & src & i & tc & Ht & Ha & Hc & Hr). exists t, src, i, tc.
  split; [done|]. split; [by apply asked_mono|]. split; [by apply confirmed_mono|done].
Qed.

(** What a message has to give for the invariant to last. *)
Lemma verified_handle c st st' q q' (r : R) n F tr m effs : verified (mkSys c st q r n F tr) ->
  (forall t a, active st' !! t = Some a -> active st !! t = Some a
     \/ plain t /\ confirmed p (tr ++ [(c, m, effs)]) t (iface a) (confirmedAt a) /\ confirmedAt a <= c) ->
  (forall t y, pending st' !! t = Some y -> (exists y', pending st !! t = Some y' /\ solicitor y' = solicitor y)
     \/ plain t /\ asked p (tr ++ [(c, m, effs)]) t (solicitor y)) ->
  (forall to b, Send (wanTX p) to b ∈ effs -> warranted (tr ++ [(c, m, effs)]) c (Send (wanTX p) to b)) ->
  verified (mkSys c st' q' r n F (tr ++ [(c, m, effs)])).
Proof.
  intros [Ha Hp Hs] Ha' Hp' Hs'. split; cbn [state trace clock] in *.
  - intros t a [Hta|Hta]%Ha'; [|done]. apply Ha in Hta as (? & ? & ?). eauto using confirmed_mono.
  - intros t y [(y' & Hy & <-)|Hy]%Hp'; [|done]. apply Hp in Hy as (? & ?). eauto using asked_mono.
  - intros tm m' effs' to b [Hin|Hin]%elem_of_app Hb; [by eapply warranted_mono, Hs|].
    apply list_elem_of_singleton in Hin. injection Hin as -> -> ->. by apply Hs'.
Qed.

Lemma kept_probe_solicitor now y y' : kept_probe now y = Some y' -> solicitor y' = solicitor y.
Proof. unfold kept_probe. repeat case_match; intros [= <-]; done. Qed.

Lemma verified_sweep o c st q q' (r : R) n F tr : verified (mkSys c st q r n F tr) ->
  verified (mkSys c (swept p o c st).1 q' r n F (tr ++ [(c, sweep, (swept p o c st).2)])).
Proof.
  intros Hv. pose proof (wan_send_swept p o c st) as Hw.
  assert ((swept p o c st).1 = (Sweep o c st).2) as Es by (unfold swept; by destruct (Sweep o c st) as [[[? ?] ?] ?]).
  pose proof (Sweep_spec o c st) as Hs. rewrite Es. clear Es. destruct (Sweep o c st) as [[[rt g] ex] s']. cbn [snd].
  destruct Hs as (Hp & Ha & _). eapply verified_handle; [done|..].
  - intros t a Hta. rewrite Ha in Hta. apply bind_Some in Hta as (a' & E & Ek). pose proof (kept_active_Some _ _ _ Ek) as ->. by left.
  - intros t y Hy. rewrite Hp in Hy. apply bind_Some in Hy as (y' & E & Ek). apply kept_probe_solicitor in Ek. left. eauto.
  - intros to b Hb. exfalso. by apply (Hw to b), Hb; apply Hwf.
Qed.

Lemma verified_ask c st st' b t src reply probing q q' (r : R) n F tr effs : verified (mkSys c st q r n F tr) -> is_bytes b ->
  ParseSolicitationPacket b = Ret (Some (t, src)) -> OnWANSolicit c t src st = ((reply, probing), st') ->
  effs = (match reply with Some y => [advertise p y] | None => [] end ++ (if probing then probe p t else [])) ++ [Arm (wanRX p)] ->
  verified (mkSys c st' q' r n F (tr ++ [(c, DataMsg (wanRX p) b, effs)])).
Proof.
  intros Hv Hb Ep Eo Ee.
  assert (plain t) as Ht by (destruct (ParseSolicitationPacket_spec b Hb) as (y & Ey & Hy); rewrite Ep in Ey; injection Ey as <-; by apply (Hy t src)).
  assert (asked p (tr ++ [(c, DataMsg (wanRX p) b, effs)]) t src) as Hask by (exists c, b, effs; split; [set_solver|done]).
  destruct (OnWANSolicit_next c t src st _ st' Eo) as [Ha Hn]. eapply verified_handle; [done|..].
  - intros u a Hu. left. by rewrite Ha in Hu.
  - intros u y [Hu|(-> & <- & _)]%Hn; [left; eauto|by right].
  - intros to b' Hs. rewrite Ee in Hs. rewrite !elem_of_app in Hs. destruct Hs as [[Hs|Hs]|Hs].
    + destruct reply as [y|]; [|by apply not_elem_of_nil in Hs]. apply list_elem_of_singleton in Hs.
      apply OnWANSolicit_reply in Eo as (a & Ea & Hage & -> & _ & _). destruct (v_active _ Hv t a Ea) as (_ & Hc & Hle).
      cbn [clock trace] in *. exists t, src, (iface a), (confirmedAt a). split; [done|]. split; [done|]. split; [by apply confirmed_mono|]. split; [lia|done].
    + exfalso. destruct probing; [|by apply not_elem_of_nil in Hs]. by apply wan_send_probe in Hs; [|apply Hwf].
    + by apply list_elem_of_singleton in Hs.
Qed.

Lemma verified_advert c st st' s b t k l reply q q' (r : R) n F tr effs : verified (mkSys c st q r n F tr) ->
  s <> wanRX p -> list_find (fun l => s = lsock l) (lans p) = Some (k, l) ->
  ParseAdvertisement b = Ret (Some t) -> OnLANAdvert c (lname l) t st = (Some reply, st') ->
  effs = [advertise p reply; Cast (install (replyTarget reply) (replyIface reply)); Arm (lsock l)] ->
  verified (mkSys c st' q' r n F (tr ++ [(c, DataMsg s b, effs)])).
Proof.
  intros Hv Hs El Ep Eo Ee. pose proof (OnLANAdvert_spec c (lname l) t st) as Hsp. rewrite Eo in Hsp.
  destruct Hsp as (y & Ey & Er & Est). destruct (v_pending _ Hv t y Ey) as (Ht & Hask).
  assert (confirmed p (tr ++ [(c, DataMsg s b, effs)]) t (lname l) c) as Hc by (exists s, b, effs, k, l; split; [set_solver|done]).
  subst st'. eapply verified_handle; [done|..]; cbn [active pending].
  - intros u a [[<- <-]|[_ Hu]]%lookup_insert_Some; [|by left]. right. cbn [iface confirmedAt]. split; [done|]. split; [done|lia].
  - intros u z [_ Hu]%lookup_delete_Some. left. eauto.
  - intros to b' Hb. rewrite Ee in Hb. rewrite !elem_of_cons in Hb. destruct Hb as [Hb|[Hb|[Hb|Hb]]]; [|done|done|by apply not_elem_of_nil in Hb].
    cbn [trace] in Hask. exists t, (solicitor y), (lname l), c. split; [done|]. split; [by apply asked_mono|]. split; [done|].
    split; [unfold activeTTL; lia|]. by rewrite Hb, Er.
Qed.

Lemma verified_step σ σ' : verified σ -> step p σ σ' -> verified σ'.
Proof.
  intros Hv Hs. destruct Hs as [d c st q r n F tr Hd|o m st' effs c st q r n F tr Hm Eh|x c st q r n F tr|r' c st q r n F tr _|c st q r n F tr|c st q r n F tr].
  - destruct Hv as [Ha Hp Hs]. split; cbn [state trace clock] in *; [|done..]. intros t a Hta. apply Ha in Hta as (? & ? & ?). split; [done|]. split; [done|lia].
  - apply HandleInfo_inv in Eh; [|done]. destruct Eh as [m effs He|b t src reply probing st' Ep Eo|s b t k l reply st' Hs El Ep Eo|].
    + eapply verified_handle; [done|by left|left; eauto|]. intros to b Hb. rewrite Forall_forall in He. by apply He in Hb as [Hb|[? Hb]].
    + by eapply verified_ask.
    + by eapply verified_advert.
    + by apply (verified_sweep o c st q).
  - destruct Hv as [Ha Hp Hs]. by split.
  - destruct Hv as [Ha Hp Hs]. by split.
  - destruct Hv as [Ha Hp Hs]. split; cbn [state trace clock Init NewState fst pending active] in *; [| |done]; intros t y Hy; by rewrite lookup_empty in Hy.
  - destruct Hv as [Ha Hp Hs]. split; cbn [state trace clock Init NewState fst pending active] in *; [| |done]; intros t y Hy; by rewrite lookup_empty in Hy.
Qed.
End Verified.

(** C21: the WAN is answered only for hosts verified to exist.  Whatever the proxy
    receives, each message it sends on the WAN is a Neighbor Advertisement, in the
    proxy's own link-layer address and with the Router and Override flags clear, for a
    host that the WAN solicited and that a LAN itself advertised less than activeTTL
    before; it goes to the solicitor, flagged solicited, or for a probe from the
    unspecified address to the all-nodes group, unsolicited. *)
Theorem wan_answers_verified {R} `{Routes R} (p : proxy) (c : Z) (r : R) σ tm m effs to b :
  proxy_wf p -> rtc (step p) (start c r) σ ->
  (tm, m, effs) ∈ trace σ -> Send (wanTX p) to b ∈ effs ->
  exists t asker i tc, asked p (trace σ) t asker /\ confirmed p (trace σ) t i tc /\ tc <= tm < tc + activeTTL
    /\ ParseAdvertisement b = Ret (Some t) /\ from b 24 = Ret (2 :: 1 :: wanMAC p)
    /\ idx b 4 = Ret (if IsValid asker && negb (IsUnspecified asker) then naFlagSolicited else 0)
    /\ to = sockaddr (if IsValid asker && negb (IsUnspecified asker) then asker else allNodes) (wanIndex p).
Proof.
  intros Hwf Hs Hin Hb. assert (verified p σ) as Hv.
  { assert (verified p (start c r)) as Hv by (split; cbn; intros *; rewrite ?lookup_empty; try done; intros Hx; by apply not_elem_of_nil in Hx).
    revert Hv. clear Hin Hb. induction Hs; eauto using verified_step. }
  destruct (v_sent _ _ Hv tm m effs to b Hin Hb) as (t & asker & i & tc & Ht & Ha & Hc & Hage & E).
  unfold advertise, Advertisement in E. cbn [replyTarget replySolicitor] in E. injection E as -> ->.
  destruct (Advertisement_reads_back t (wanMAC p) (IsValid asker && negb (IsUnspecified asker)) Ht (proj1 Hwf)) as (_ & Hp & Hf & Hm).
  exists t, asker, i, tc. repeat (split; [done|]). done.
Qed.

(** A host no LAN answers for is probed three times and given up, the WAN told
    nothing. *)
Lemma unanswered_given_up o1 o2 o3 t0 t1 t2 t3 t asker s :
  pending s !! t = None -> active s !! t = None ->
  t0 + probeRetransTimer <= t1 -> t1 + probeRetransTimer <= t2 -> t2 + probeRetransTimer <= t3 ->
  let '(r0, s0) := OnWANSolicit t0 t asker s in
  let '((again1, _, _), s1) := Sweep o1 t1 s0 in
  let '((again2, _, _), s2) := Sweep o2 t2 s1 in
  let '((_, gaveUp, _), s3) := Sweep o3 t3 s2 in
  r0 = (None, true) /\ t ∈ again1 /\ t ∈ again2 /\ t ∈ gaveUp /\ pending s3 !! t = None /\ active s3 !! t = None.
Proof.
  intros Hp Ha H1 H2 H3. unfold OnWANSolicit. rewrite Ha, Hp.
  set (s0 := mkState _ _). pose proof (Sweep_spec o1 t1 s0) as Q1. destruct (Sweep o1 t1 s0) as [[[a1 g1] e1] s1].
  destruct Q1 as (P1 & A1 & R1 & _). pose proof (Sweep_spec o2 t2 s1) as Q2. destruct (Sweep o2 t2 s1) as [[[a2 g2] e2] s2].
  destruct Q2 as (P2 & A2 & R2 & _). pose proof (Sweep_spec o3 t3 s2) as Q3. destruct (Sweep o3 t3 s2) as [[[a3 g3] e3] s3].
  destruct Q3 as (P3 & A3 & _ & G3 & _).
  assert (pending s0 !! t = Some (mkProbe 1 (t0 + probeRetransTimer) asker)) as E0 by (cbn; by rewrite lookup_insert_eq).
  assert (active s0 !! t = None) as B0 by done.
  assert (pending s1 !! t = Some (mkProbe 2 (t1 + probeRetransTimer) asker)) as E1.
  { rewrite P1, E0. cbn. unfold kept_probe. cbn [nextProbe]. by rewrite (proj2 (Z.ltb_ge _ _)) by lia. }
  assert (pending s2 !! t = Some (mkProbe 3 (t2 + probeRetransTimer) asker)) as E2.
  { rewrite P2, E1. cbn. unfold kept_probe. cbn [nextProbe]. by rewrite (proj2 (Z.ltb_ge _ _)) by lia. }
  split; [done|]. split; [apply R1; eexists; split; [exact E0|cbn; unfold maxMulticastSolicit; lia]|].
  split; [apply R2; eexists; split; [exact E1|cbn; unfold maxMulticastSolicit; lia]|].
  split; [apply G3; eexists; split; [exact E2|cbn; unfold maxMulticastSolicit; lia]|].
  split; [|by rewrite A3, A2, A1, B0]. rewrite P3, E2. cbn. unfold kept_probe. cbn [nextProbe]. by rewrite (proj2 (Z.ltb_ge _ _)) by lia.
Qed.

(** ** A sample: one host, solicited, verified and routed *)

Definition sample_order : RangeOrder := mkOrder map_to_list map_to_list (fun _ => reflexivity _) (fun _ => reflexivity _).

(** A kernel with two LAN links, a list of routes, and which of the next requests fail. *)
Definition table_k : Type := list (Prefix * Z) * list bool.

Fixpoint route_of (k : list (Prefix * Z)) (d : Prefix) : option Z :=
  match k with [] => None | (e, n) :: k => if decide (e = d) then Some n else route_of k d end.

Definition request (k : table_k) (f : list (Prefix * Z) -> option (list (Prefix * Z))) : option string * table_k :=
  match head k.2, f k.1 with
  | Some true, _ | _, None => (Some "netlink", (k.1, tail k.2))
  | _, Some k' => (None, (k', tail k.2))
  end.

#[export] Instance sample_kernel : Rtnetlink table_k := {
  link i := if String.eqb i "lan0" then 2 else if String.eqb i "lan1" then 3 else 0;
  InterfaceByName _ i := if String.eqb i "lan0" then Some 2 else if String.eqb i "lan1" then Some 3 else None;
  out k := route_of k.1;
  AddRoute n d k := request k (fun k => Some ((d, n) :: k));
  DelRoute n d k := request k (fun k => if bool_decide (route_of k d = Some n) then Some (filter (fun r => r.1 <> d) k) else None) }.

Definition sample_proxy : proxy :=
  mkProxy 1 2 7 [2; 0; 0; 0; 0; 1] [mkLan "lan0" 2 [2; 0; 0; 0; 0; 2] 3; mkLan "lan1" 3 [2; 0; 0; 0; 0; 3] 4].

Lemma route_of_filter (k : list (Prefix * Z)) d d' :
  route_of (filter (fun r => r.1 <> d) k) d' = if decide (d' = d) then None else route_of k d'.
Proof.
  induction k as [|[e n] k IH]; [by case_decide|]. rewrite filter_cons. cbn [route_of fst].
  destruct (decide (e <> d)) as [He|He]; cbn [route_of]; rewrite IH; repeat case_decide; subst; done || congruence || (exfalso; tauto).
Qed.

#[export] Instance sample_laws : RtnetlinkLaws table_k (lname <$> lans sample_proxy).
Proof.
  split; cbn [link InterfaceByName out AddRoute DelRoute sample_kernel]; unfold request.
  - intros k i n _. destruct (String.eqb i "lan0"); [congruence|]. destruct (String.eqb i "lan1"); congruence.
  - intros i i'. cbn. rewrite !elem_of_cons. intros [->|[->|[]%not_elem_of_nil]] [->|[->|[]%not_elem_of_nil]]; done.
  - intros n d [k [|[] fs]]; cbn; try done; by rewrite decide_True.
  - intros n d [k [|[] fs]] d' Hd; cbn; try done; by rewrite decide_False.
  - intros n d [k [|[] fs]]; cbn; try done; case_bool_decide as E; try done; cbn; by rewrite route_of_filter, !decide_True.
  - intros n d [k [|[] fs]] d' Hd; cbn; try done; case_bool_decide as E; cbn; try done; by rewrite route_of_filter, decide_False.
Qed.

Definition sample_host : Addr := A6 0x20010db8000000000000000000000009 "".
Definition sample_asker : Addr := A6 0xfe800000000000000000000000000001 "".
Definition sample_solicit : msg :=
  DataMsg 1 ([0x60; 0; 0; 0; 0; 32; 58; 255] ++ As16 sample_asker ++ zeros 16 ++ marshalNeighborSolicitation sample_host [2; 0; 0; 0; 0; 9]).
Definition sample_advert : msg := DataMsg 4 (marshalNeighborAdvertisement sample_host [2; 0; 0; 0; 0; 8] true).

(** The state and the effects a message leads to. *)
Definition handles (c : Z) (st : State) (m : msg) : State * list effect :=
  match HandleInfo sample_proxy sample_order c st m with Ret x => x | _ => (st, []) end.
Definition sample_1 := handles 0 Init.1 sample_solicit.
Definition sample_2 := handles 500000000 sample_1.1 sample_advert.
Definition sample_end : sys table_k :=
  mkSys 500000000 sample_2.1 [] (HandleCast ([], []) (install sample_host "lan1")) 0 (note ([], []) (install sample_host "lan1") ∅)
    [(0, sample_solicit, sample_1.2); (500000000, sample_advert, sample_2.2)].

Lemma sample_1_eq : HandleInfo sample_proxy sample_order 0 Init.1 sample_solicit = Ret (sample_1.1, sample_1.2).
Proof. vm_compute. reflexivity. Qed.
Lemma sample_2_eq : HandleInfo sample_proxy sample_order 500000000 sample_1.1 sample_advert = Ret (sample_2.1, sample_2.2).
Proof. vm_compute. reflexivity. Qed.
Lemma sample_bytes : msg_wf sample_solicit /\ msg_wf sample_advert.
Proof. split; apply (bool_decide_unpack _); vm_compute; exact I. Qed.
Lemma sample_casts : casts sample_1.2 = [] /\ casts sample_2.2 = [install sample_host "lan1"].
Proof. split; vm_compute; reflexivity. Qed.
Lemma sample_wf : proxy_wf sample_proxy.
Proof. split; [done|]. repeat constructor; done. Qed.

(** The run, whichever of the kernel's requests fail. *)
Lemma sample_run fs : rtc (step sample_proxy) (start 0 ([], fs))
  (mkSys 500000000 sample_2.1 [] (HandleCast ([], fs) (install sample_host "lan1")) 0 (note ([], fs) (install sample_host "lan1") ∅)
    [(0, sample_solicit, sample_1.2); (500000000, sample_advert, sample_2.2)]).
Proof.
  destruct sample_casts as [E1 E2], sample_bytes as [B1 B2].
  apply (rtc_l _ _ (mkSys 0 sample_1.1 ([] ++ casts sample_1.2) ([], fs) 0 ∅ ([] ++ [(0, sample_solicit, sample_1.2)]))).
  { apply (step_handle sample_proxy sample_order sample_solicit sample_1.1 sample_1.2); [exact B1|apply sample_1_eq]. }
  rewrite E1. apply (rtc_l _ _ (mkSys (0 + 500000000) sample_1.1 [] ([], fs) 0 ∅ [(0, sample_solicit, sample_1.2)])).
  { by apply (step_tick sample_proxy 500000000 0 sample_1.1). }
  apply (rtc_l _ _ (mkSys 500000000 sample_2.1 ([] ++ casts sample_2.2) ([], fs) 0 ∅
    ([(0, sample_solicit, sample_1.2)] ++ [(500000000, sample_advert, sample_2.2)]))).
  { apply (step_handle sample_proxy sample_order sample_advert sample_2.1 sample_2.2); [exact B2|apply sample_2_eq]. }
  rewrite E2. apply rtc_once. apply (step_route sample_proxy (install sample_host "lan1") 500000000 sample_2.1 [] ([], fs)).
Qed.

Lemma sample_active : iface <$> active (state sample_end) !! sample_host = Some "lan1".
Proof. vm_compute. reflexivity. Qed.
Lemma sample_sent : exists to b, Send 2 to b ∈ sample_2.2.
Proof. do 2 eexists. apply (list_elem_of_lookup_2 _ 0). vm_compute. reflexivity. Qed.

Lemma sample_plain : plain sample_host.
Proof. exists 0x20010db8000000000000000000000009. split; [reflexivity|split; [discriminate|reflexivity]]. Qed.

(** Out the LAN it was confirmed behind, and not out the other. *)
Lemma routes_follow_confirmations_witness :
  routed (table sample_end) sample_host "lan1" = true /\ ~ routed (table sample_end) sample_host "lan0" = true.
Proof.
  destruct (routes_follow_confirmations sample_proxy 0 (([], []) : table_k) sample_end sample_host) as [_ Hx].
  - intros t i. reflexivity.
  - exact (sample_run []).
  - apply (bool_decide_unpack _). vm_compute. exact I.
  - intros Hin. apply not_elem_of_nil in Hin. exact Hin.
  - specialize (Hx eq_refl sample_plain). split.
    + apply (Hx "lan1"); [right; left|exact sample_active].
    + intros Hr. apply (Hx "lan0") in Hr; [|left]. rewrite sample_active in Hr. discriminate.
Defined.

(** The kernel refuses the route: the proxy answers for a host that is not routed, and
    the host counts as failed. *)
Example route_refused : let σ := mkSys 500000000 sample_2.1 [] (HandleCast (([], [true]) : table_k) (install sample_host "lan1")) 0
    (note (([], [true]) : table_k) (install sample_host "lan1") ∅)
    [(0, sample_solicit, sample_1.2); (500000000, sample_advert, sample_2.2)] in
  rtc (step sample_proxy) (start 0 ([], [true])) σ /\ iface <$> active (state σ) !! sample_host = Some "lan1" /\
  routed (table σ) sample_host "lan1" = false /\ sample_host ∈ failed σ.
Proof.
  cbv zeta. split; [exact (sample_run [true])|]. split; [exact sample_active|]. split; [vm_compute; reflexivity|].
  apply (bool_decide_unpack _). vm_compute. exact I.
Qed.

Lemma wan_answers_verified_witness : exists to b, Send 2 to b ∈ sample_2.2 /\ ParseAdvertisement b = Ret (Some sample_host).
Proof.
  destruct sample_sent as (to & b & Hs).
  destruct (wan_answers_verified sample_proxy 0 (([], []) : table_k) sample_end 500000000 sample_advert sample_2.2 to b
    sample_wf (sample_run []) ltac:(right; left) Hs) as (t & asker & i & tc & (tm & pk & effs & Hin & Hp) & _ & _ & Hb & _).
  exists to, b. split; [exact Hs|]. rewrite Hb. unfold sample_end in Hin. cbn [trace] in Hin.
  apply elem_of_cons in Hin as [E|[E|E]%elem_of_cons]; [|discriminate E|by apply not_elem_of_nil in E].
  injection E as _ -> _. vm_compute in Hp. injection Hp as <- _. reflexivity.
Defined.
