(* ===== verification/Starting.v ===== *)
(** How the processes that own sockets start: the start of the DHCPv6 client
    (src/internal/dhcpv6client/client.go), of an advertiser (src/internal/radvd/radvd.go),
    of the Neighbor Discovery proxy (src/internal/ndppd/ndppd.go) and of a DHCPv4 server
    (src/internal/dhcpv4server/server.go).

    Each opens its sockets as its supervisor's, starts the process, gives it the sockets,
    and undoes what it has done when a step fails.  The actor library is an argument, the
    class [Actors], with what it documents of the ownership of sockets ([ActorsLaws]). *)

From S2P Require Import Prelude Stats Wire Netip Dhcpv4Message Dhcpv4Pool Dhcpv4Handler Dhcpv4Server Dhcpv6 Ndproxy.

Local Open Scope Z_scope.

(** ** Sockets and processes *)

(** What is done to a new socket before it is used, in order. *)
Inductive setup : Type :=
| AttachFilter (name : string) | BindLink (protocol ifindex : Z) | AllMulti (ifindex : Z)
| BindToDevice (iface : string) | JoinAllRouters (ifindex : Z) | MulticastHops (n : Z) | UnicastHops (n : Z)
| ICMPFilter (words : list Z).

Inductive opening : Type :=
| PacketSocket (protocol : Z) (steps : list setup)
| RawICMPv6 (steps : list setup)
| UDPSocket (bind : Addr * Z).

Definition EADDRNOTAVAIL : Z := 99.

(** Sockets and processes are numbers; opening a socket can fail with an errno, and
    [StartLink]'s string only says which process is started.  [owner] is
    the process that owns an open socket, none if it is still the one that opened it. *)
Class Actors (S : Type) : Type := {
  Open : opening -> S -> (Z + Z) * S (* socket, or errno *);
  StartLink : string -> S -> (Z + string) * S;
  ControllingProcess : Z -> Z -> S -> option string * S;
  SetActive : Z -> S -> option string * S;
  ExitKill : Z -> S -> S;
  CloseSocket : Z -> S -> S;
  owner : S -> gmap Z (option Z);
  listening : S -> gset Z;
  alive : S -> gset Z }.

(** A process that dies takes its sockets with it; only an owner closes a socket. *)
Class ActorsLaws (S : Type) {A : Actors S} : Prop := {
  open_ok o (s s' : S) h : Open o s = (inl h, s') -> owner s !! h = None /\ owner s' = <[h := None]> (owner s) /\ alive s' = alive s;
  open_err o (s s' : S) e : Open o s = (inr e, s') -> owner s' = owner s /\ alive s' = alive s;
  start_ok n (s s' : S) p : StartLink n s = (inl p, s') ->
    (p ∉ alive s) /\ (forall h, owner s !! h <> Some (Some p)) /\ owner s' = owner s /\ alive s' = {[p]} ∪ alive s;
  start_err n (s s' : S) e : StartLink n s = (inr e, s') -> owner s' = owner s /\ alive s' = alive s;
  give_ok h p (s s' : S) : ControllingProcess h p s = (None, s') -> owner s' = <[h := Some p]> (owner s) /\ alive s' = alive s;
  give_err h p (s s' : S) e : ControllingProcess h p s = (Some e, s') -> owner s' = owner s /\ alive s' = alive s;
  activate h (s : S) : let '(e, s') := SetActive h s in
    owner s' = owner s /\ alive s' = alive s /\ listening s ⊆ listening s' /\ (e = None -> h ∈ listening s');
  kill_owner p (s : S) h : owner (ExitKill p s) !! h = if decide (owner s !! h = Some (Some p)) then None else owner s !! h;
  kill_alive p (s : S) : alive (ExitKill p s) = alive s ∖ {[p]};
  close_owner h (s : S) j : owner (CloseSocket h s) !! j = if decide (j = h /\ owner s !! h = Some None) then None else owner s !! j;
  close_alive h (s : S) : alive (CloseSocket h s) = alive s }.

Section Starts.
Context {S : Type} {A : Actors S}.

Abbreviation result := ((Z + string) * S)%type.

Definition close_all (hs : list Z) (s : S) : S := fold_left (fun s h => CloseSocket h s) hs s.

(** *** The advertiser of an interface (radvd.go: starter) *)

(** Once the socket is open; the DHCPv4 server's start ends the same way. *)
Definition start_owner (name : string) (sock : Z) (s : S) : result :=
  let '(r, s) := match StartLink name s with
    | (inl pid, s) =>
      let '(e, s) := match ControllingProcess sock pid s with (None, s) => SetActive sock s | r => r end in
      match e with None => (inl pid, s) | Some e => (inr e, ExitKill pid s) end
    | r => r
    end in
  match r with inl pid => (inl pid, s) | inr e => (inr e, CloseSocket sock s) end.

(** Everything is blocked but Router Solicitations. *)
Definition SolicitationFilter : list Z :=
  alter (fun w => Z.ldiff w (Z.shiftl 1 (133 mod 32))) (Z.to_nat (133 / 32)) (replicate 8 0xffffffff).

Definition radvd_starter (InterfaceByName : string -> option Z) (iface : string) (s : S) : result :=
  match InterfaceByName iface with
  | None => (inr "radvd: looking up interface"%string, s)
  | Some i =>
    match Open (RawICMPv6 [BindToDevice iface; JoinAllRouters i; MulticastHops 255; UnicastHops 255; ICMPFilter SolicitationFilter]) s with
    | (inr _, s) => (inr "radvd: opening raw ICMPv6 socket"%string, s)
    | (inl sock, s) => start_owner ("radvd " +:+ iface) sock s
    end
  end.

(** *** The DHCPv4 server of an interface (dhcpv4server: starter) *)

Definition ipProto : Z := 0x0008.

(** [restored]: what Dhcpv4Server.v's [starter] makes of the pool and the leases. *)
Definition dhcpv4_starter (InterfaceByName : string -> option Z) {P} (restored : outcome P) (iface : string) (s : S) : result :=
  match restored with
  | Ret _ =>
    match InterfaceByName iface with
    | None => (inr "dhcpv4: looking up interface"%string, s)
    | Some i =>
      match Open (PacketSocket ipProto [AttachFilter "dhcpv4.Filter"; BindLink ipProto i]) s with
      | (inr _, s) => (inr "dhcpv4: opening packet socket"%string, s)
      | (inl sock, s) => start_owner "dhcpv4" sock s
      end
    end
  | Fail e => (inr e, s)
  | Panic => (inr ""%string, s)
  end.

(** *** The DHCPv6 client of an interface (client.go) *)

Definition bindRetries : Z := 10.
Definition ClientPort : Z := 546.
Definition ServerPort : Z := 547.
Definition AllRelayAgentsAndServers : Addr := A6 0xff020000000000000000000000010002 "".

(** An interface: its link-layer address and its addresses, as slices. *)
Record Interface : Type := mkInterface { HardwareAddr : bytes; Addrs : option (list bytes) }.

Record Config : Type := mkConfig { Iface : string; bind : Addr * Z; server : Addr * Z; clientID : DUID }.

Definition linkLocal (i : Interface) : outcome Addr :=
  match Addrs i with
  | None => Fail "dhcpv6 client: listing addresses"
  | Some l =>
    match List.find (fun ip => Is6 ip && negb (Is4In6 ip) && IsLinkLocalUnicast ip) (omap AddrFromSlice l) with
    | Some ip => Ret ip
    | None => Fail "dhcpv6 client: no IPv6 link-local address"
    end
  end.

Definition resolve (InterfaceByName : string -> option Interface) (cfg : Config) : outcome Config :=
  if IsValid (bind cfg).1 then Ret cfg
  else
    match InterfaceByName (Iface cfg) with
    | None => Fail "dhcpv6 client: looking up interface"
    | Some i =>
      lla ← linkLocal i;
      match DUIDLLFromInterface (HardwareAddr i) with
      | Ret duid => Ret (mkConfig (Iface cfg) (WithZone lla (Iface cfg), ClientPort)
                           (WithZone AllRelayAgentsAndServers (Iface cfg), ServerPort) duid)
      | Fail _ => Fail "dhcpv6 client: building client DUID"
      | Panic => Panic
      end
    end.

(** [ended attempt]: the context ends in the second that follows the attempt. *)
Fixpoint open_loop (fuel : nat) (cfg : Config) (ended : Z -> bool) (attempt : Z) (s : S) : (Z + string) * S :=
  match Open (UDPSocket (bind cfg)) s with
  | (inl sock, s) => (inl sock, s)
  | (inr errno, s) =>
    if negb (errno =? EADDRNOTAVAIL) || (bindRetries <=? attempt) then (inr "dhcpv6 client: binding"%string, s)
    else if ended attempt then (inr "context"%string, s)
    else match fuel with O => (inr "fuel"%string, s) | Datatypes.S fuel => open_loop fuel cfg ended (attempt + 1) s end
  end.

Definition open (cfg : Config) (ended : Z -> bool) (s : S) : (Z + string) * S := open_loop (Z.to_nat bindRetries) cfg ended 0 s.

Definition dhcpv6_start (InterfaceByName : string -> option Interface) (ended : Z -> bool) (cfg : Config) (s : S) : result :=
  match resolve InterfaceByName cfg with
  | Fail e => (inr e, s)
  | Panic => (inr ""%string, s)
  | Ret cfg =>
    match open cfg ended s with
    | (inr e, s) => (inr e, s)
    | (inl sock, s) =>
      match StartLink ("dhcpv6 client " +:+ Iface cfg) s with
      | (inr e, s) => (inr e, CloseSocket sock s)
      | (inl pid, s) =>
        match ControllingProcess sock pid s with
        | (Some e, s) => (inr e, CloseSocket sock (ExitKill pid s))
        | (None, s) => (inl pid, s)
        end
      end
    end
  end.

(** *** The Neighbor Discovery proxy (ndppd.go: startProxy) *)

Definition ipv6Proto : Z := 0xdd86.
Definition AdvertisementType : Z := 136.

Definition openICMPv6 (iface : string) (types : list Z) (s : S) : (Z + string) * S :=
  match Open (RawICMPv6 [BindToDevice iface; MulticastHops 255; UnicastHops 255; ICMPFilter (ICMPv6Filter types)]) s with
  | (inr _, s) => (inr "ndppd: opening a raw ICMPv6 socket"%string, s)
  | (inl sock, s) => (inl sock, s)
  end.

Section Proxy.
Context (InterfaceByName : string -> option Z).

(** Beside the error, the sockets opened so far, in order. *)
Fixpoint open_lans (lans : list string) (opened : list Z) (s : S) : option string * list Z * S :=
  match lans with
  | [] => (None, opened, s)
  | name :: lans =>
    match InterfaceByName name with
    | None => (Some "ndppd: looking up"%string, opened, s)
    | Some _ =>
      match openICMPv6 name [AdvertisementType] s with
      | (inr e, s) => (Some e, opened, s)
      | (inl sock, s) => open_lans lans (opened ++ [sock]) s
      end
    end
  end.

Fixpoint give_all (hs : list Z) (pid : Z) (s : S) : option string * S :=
  match hs with
  | [] => (None, s)
  | h :: hs => match ControllingProcess h pid s with (None, s) => give_all hs pid s | r => r end
  end.

Fixpoint activate_all (hs : list Z) (s : S) : option string * S :=
  match hs with
  | [] => (None, s)
  | h :: hs => match SetActive h s with (None, s) => activate_all hs s | r => r end
  end.

(** The process started and given the sockets; those read from are made active. *)
Definition start_proxy (opened : list Z) (s : S) : result :=
  match StartLink "ndppd proxy" s with
  | (inr e, s) => (inr e, s)
  | (inl pid, s) =>
    let '(e, s) := match give_all opened pid s with
                   | (None, s) => activate_all (firstn 1 opened ++ skipn 2 opened) s
                   | r => r
                   end in
    match e with None => (inl pid, s) | Some e => (inr e, ExitKill pid s) end
  end.

(** Every return with an error closes what is open (the deferred function). *)
Definition startProxy (WAN : string) (LANs : list string) (s : S) : result :=
  let '(r, opened, s) :=
    match InterfaceByName WAN with
    | None => (inr "ndppd: looking up"%string, [], s)
    | Some wan =>
      match Open (PacketSocket ipv6Proto [AttachFilter "ndproxy.NSFilter"; BindLink ipv6Proto wan; AllMulti wan]) s with
      | (inr _, s) => (inr "ndppd: opening the WAN packet socket"%string, [], s)
      | (inl wanRX, s) =>
        match openICMPv6 WAN [] s with
        | (inr e, s) => (inr e, [wanRX], s)
        | (inl wanTX, s) =>
          match open_lans LANs [wanRX; wanTX] s with
          | (Some e, opened, s) => (inr e, opened, s)
          | (None, opened, s) => let '(r, s) := start_proxy opened s in (r, opened, s)
          end
        end
      end
    end in
  match r with inl pid => (inl pid, s) | inr e => (inr e, close_all opened s) end.
End Proxy.
End Starts.

(** ** A start runs with its sockets, or leaves nothing *)

Section Ownership.
Context {S : Type} {A : Actors S} {Laws : ActorsLaws S}.

(** Since [s0], exactly the sockets [hs] have been opened; [f] tells who owns each. *)
Definition holds (s0 : S) (hs : list Z) (f : Z -> option Z) (s : S) : Prop :=
  (forall h, h ∈ hs -> owner s0 !! h = None)
  /\ forall h, owner s !! h = if decide (h ∈ hs) then Some (f h) else owner s0 !! h.

(** Running, as the only new process, with the sockets [hs] its own and those of [ls]
    open for reading. *)
Definition runs (s0 : S) (pid : Z) (hs ls : list Z) (s : S) : Prop :=
  (pid ∉ alive s0) /\ alive s = {[pid]} ∪ alive s0 /\ holds s0 hs (fun _ => Some pid) s /\ (forall h, h ∈ ls -> h ∈ listening s).

(** No process and no socket more than before. *)
Definition leaves_nothing (s0 s : S) : Prop := owner s = owner s0 /\ alive s = alive s0.

Lemma holds_nil s0 f s : owner s = owner s0 -> holds s0 [] f s.
Proof. intros E. split; [by intros h ?%elem_of_nil|]. intros h. rewrite decide_False by apply not_elem_of_nil. by rewrite E. Qed.

Lemma holds_owner s0 hs f s s' : holds s0 hs f s -> owner s' = owner s -> holds s0 hs f s'.
Proof. intros [H1 H2] E. split; [done|]. intros h. by rewrite E, H2. Qed.

Lemma holds_open s0 hs s s' o h : holds s0 hs (fun _ => None) s -> Open o s = (inl h, s') ->
  holds s0 (hs ++ [h]) (fun _ => None) s' /\ (h ∉ hs) /\ alive s' = alive s.
Proof using Laws.
  intros [H1 H2] (Hn & Ho & Ha)%open_ok. assert (h ∉ hs) as Hh.
  { intros Hh. rewrite H2, decide_True in Hn by done. done. }
  split_and!; [|done|done]. split.
  - intros j [Hj|Hj]%elem_of_app; [by apply H1|]. apply list_elem_of_singleton in Hj as ->. rewrite H2, decide_False in Hn by done. done.
  - intros j. rewrite Ho. destruct (decide (j = h)) as [->|Hne].
    + rewrite lookup_insert_eq, decide_True by (apply elem_of_app; right; by apply list_elem_of_singleton). done.
    + rewrite lookup_insert_ne, H2 by done. assert (j ∈ hs ++ [h] <-> j ∈ hs) as Hi by (rewrite elem_of_app, list_elem_of_singleton; tauto).
      by destruct (decide (j ∈ hs)), (decide (j ∈ hs ++ [h])); tauto.
Qed.

(** Closing the sockets: those still ours. *)
Lemma close_all_owner hs : forall (s : S) j, owner (close_all hs s) !! j =
  if decide (j ∈ hs /\ owner s !! j = Some None) then None else owner s !! j.
Proof using Laws.
  induction hs as [|h hs IH]; intros s j; cbn [close_all fold_left].
  { rewrite decide_False; [done|]. by intros [?%elem_of_nil _]. }
  fold (close_all hs (CloseSocket h s)). rewrite IH, close_owner.
  destruct (decide (j = h /\ owner s !! h = Some None)) as [[-> Hh]|Hn].
  - rewrite (decide_True (P := h ∈ h :: hs /\ _)) by (split; [left|done]). by destruct (decide _).
  - destruct (decide (j ∈ hs /\ owner s !! j = Some None)) as [[? ?]|Hn2]; [by rewrite decide_True by (split; [by right|done])|].
    rewrite decide_False; [done|]. intros [[->|?]%elem_of_cons ?]; tauto.
Qed.

Lemma close_all_alive hs : forall s : S, alive (close_all hs s) = alive s.
Proof using Laws. induction hs as [|h hs IH]; intros s; [done|]. cbn. fold (close_all hs (CloseSocket h s)). by rewrite IH, close_alive. Qed.

(** What is still ours or has been left to a process that is dead is gone. *)
Lemma closed s0 hs f s : holds s0 hs f s -> (forall h, h ∈ hs -> f h = None) -> owner (close_all hs s) = owner s0.
Proof using Laws.
  intros [H1 H2] Hf. apply map_eq. intros j. rewrite close_all_owner, H2. destruct (decide (j ∈ hs)) as [Hj|Hj].
  - rewrite decide_True by (by rewrite Hf). by rewrite H1.
  - by rewrite decide_False by tauto.
Qed.

(** Each socket ours or the process's. *)
Definition shared (hs : list Z) (pid : Z) (f : Z -> option Z) : Prop := forall h, h ∈ hs -> f h = None \/ f h = Some pid.

Lemma undone s0 hs f pid s : holds s0 hs f s -> shared hs pid f -> (forall h, owner s0 !! h <> Some (Some pid)) ->
  owner (close_all hs (ExitKill pid s)) = owner s0.
Proof using Laws.
  intros [H1 H2] Hf Hp. apply map_eq. intros j. rewrite close_all_owner, kill_owner, H2. destruct (decide (j ∈ hs)) as [Hj|Hj].
  - rewrite (H1 j Hj). destruct (Hf j Hj) as [-> | ->].
    + rewrite (decide_False (P := Some None = _)) by done. by rewrite decide_True.
    + rewrite (decide_True (P := Some (Some pid) = _)) by done. by destruct (decide _).
  - rewrite (decide_False (P := owner s0 !! j = _)) by done. by rewrite decide_False by tauto.
Qed.

Lemma alive_killed (s0 s : S) pid : (pid ∉ alive s0) -> alive s = {[pid]} ∪ alive s0 -> alive (ExitKill pid s) = alive s0.
Proof using Laws. intros Hn E. rewrite kill_alive, E. set_solver. Qed.

Lemma holds_give s0 hs f s h pid s' : holds s0 hs f s -> h ∈ hs -> ControllingProcess h pid s = (None, s') ->
  holds s0 hs (fun j => if decide (j = h) then Some pid else f j) s' /\ alive s' = alive s.
Proof using Laws.
  intros [H1 H2] Hh [Ho Ha]%give_ok. split; [|done]. split; [done|]. intros j. rewrite Ho. destruct (decide (j = h)) as [->|Hne].
  - by rewrite lookup_insert_eq, decide_True.
  - by rewrite lookup_insert_ne, H2 by done.
Qed.

Lemma give_all_spec s0 hs pid gs : forall f s, holds s0 hs f s -> shared hs pid f -> (forall h, h ∈ gs -> h ∈ hs) ->
  let '(e, s') := give_all gs pid s in alive s' = alive s /\ exists f', holds s0 hs f' s' /\ shared hs pid f'
  /\ (forall h, f h = Some pid -> f' h = Some pid) /\ (e = None -> forall h, h ∈ gs -> f' h = Some pid).
Proof using Laws.
  induction gs as [|g gs IH]; intros f s Hh Hf Hg; cbn [give_all].
  { split; [done|]. exists f. split_and!; [done..|]. intros _ h ?%elem_of_nil. done. }
  destruct (ControllingProcess g pid s) as [[e|] s1] eqn:E.
  - apply give_err in E as [Eo Ea]. split; [done|]. exists f. split_and!; [by eapply holds_owner|done..].
  - destruct (holds_give _ _ _ _ _ _ _ Hh (Hg g (list_elem_of_here _ _)) E) as [Hh1 Ha1].
    set (f1 := fun j => if decide (j = g) then Some pid else f j) in *.
    assert (shared hs pid f1) as Hf1 by (intros h Hin; unfold f1; destruct (decide (h = g)); [by right|by apply Hf]).
    specialize (IH f1 s1 Hh1 Hf1 (fun h Hin => Hg h (list_elem_of_further _ _ _ Hin))). destruct (give_all gs pid s1) as [e s2].
    destruct IH as (Ha2 & f2 & Hh2 & Hf2 & Hk & Hd). split; [congruence|]. exists f2. split_and!; [done|done| |].
    + intros h Eh. apply Hk. unfold f1. by destruct (decide _).
    + intros -> h [->|Hin]%elem_of_cons; [|by apply Hd]. apply Hk. unfold f1. by rewrite decide_True.
Qed.

Lemma activate_all_spec hs : forall s : S, let '(e, s') := activate_all hs s in
  owner s' = owner s /\ alive s' = alive s /\ listening s ⊆ listening s' /\ (e = None -> forall h, h ∈ hs -> h ∈ listening s').
Proof using Laws.
  induction hs as [|h hs IH]; intros s; cbn [activate_all].
  { split_and!; [done..|]. intros _ h ?%elem_of_nil. done. }
  pose proof (activate h s) as Ha. destruct (SetActive h s) as [[e|] s1]; destruct Ha as (Ho & Ha & Hl & Hh); [done|].
  specialize (IH s1). destruct (activate_all hs s1) as [e s2]. destruct IH as (Ho2 & Ha2 & Hl2 & Hh2).
  split_and!; [congruence..|set_solver|]. intros He j [->|Hj]%elem_of_cons; [|by apply Hh2]. specialize (Hh eq_refl). set_solver.
Qed.

Lemma start_owner_spec s0 name sock s : holds s0 [sock] (fun _ => None) s -> alive s = alive s0 ->
  match start_owner name sock s with
  | (inl pid, s') => runs s0 pid [sock] [sock] s'
  | (inr _, s') => leaves_nothing s0 s'
  end.
Proof using Laws.
  intros Hh Ha. unfold start_owner. destruct (StartLink name s) as [[pid|e] s1] eqn:E.
  - apply start_ok in E as (Hn & Hp & Eo & Ea). rewrite Ha in Hn, Ea.
    assert (forall h, owner s0 !! h <> Some (Some pid)) as Hp0.
    { intros h Eh. apply (Hp h). destruct Hh as [H1 ->]. destruct (decide (h ∈ [sock])) as [Hi|]; [|done]. rewrite H1 in Eh by done. done. }
    pose proof (holds_owner _ _ _ _ _ Hh Eo) as Hh1.
    destruct (ControllingProcess sock pid s1) as [[e|] s2] eqn:E2.
    + apply give_err in E2 as [Eo2 Ea2]. cbn beta iota. split.
      * apply (undone s0 [sock] (fun _ => None) pid); [by eapply holds_owner|intros h _; by left|done].
      * rewrite close_alive. apply alive_killed; [done|congruence].
    + destruct (holds_give _ _ _ _ _ _ _ Hh1 (list_elem_of_here _ _) E2) as [Hh2 Ea2].
      pose proof (activate sock s2) as Hact. destruct (SetActive sock s2) as [[e|] s3]; destruct Hact as (Eo3 & Ea3 & _ & Hl).
      * split.
        -- eapply (undone s0 [sock]); [by eapply holds_owner| |done]. intros h _. cbn beta. destruct (decide _); [by right|by left].
        -- rewrite close_alive. apply alive_killed; [done|congruence].
      * split_and!; [done|congruence| |intros h ->%list_elem_of_singleton; by apply Hl].
        destruct (holds_owner _ _ _ _ _ Hh2 Eo3) as [H1 H2]. split; [done|]. intros h. rewrite H2.
        destruct (decide (h ∈ [sock])) as [->%list_elem_of_singleton|]; [|done]. by rewrite decide_True.
  - apply start_err in E as [Eo Ea]. split; [|by rewrite close_alive; congruence].
    apply (closed s0 [sock] (fun _ => None)); [by eapply holds_owner|done].
Qed.

Lemma holds_first (s0 s : S) o h : Open o s0 = (inl h, s) -> holds s0 [h] (fun _ => None) s /\ alive s = alive s0.
Proof using Laws.
  intros E. destruct (holds_open s0 [] s0 s o h (holds_nil s0 _ s0 eq_refl) E) as (Hh & _ & Ha). done.
Qed.

(** A start of one socket. *)
Definition starts_one (listens : bool) (s0 : S) (r : (Z + string) * S) : Prop :=
  match r with
  | (inl pid, s) => exists sock, runs s0 pid [sock] (if listens then [sock] else []) s
  | (inr _, s) => leaves_nothing s0 s
  end.

Lemma start_opened s0 o name : starts_one true s0
  (match Open o s0 with (inr _, s) => (inr ""%string, s) | (inl sock, s) => start_owner name sock s end).
Proof using Laws.
  destruct (Open o s0) as [[sock|e] s] eqn:E.
  - destruct (holds_first _ _ _ _ E) as [Hh Ha]. pose proof (start_owner_spec s0 name sock s Hh Ha) as Hs.
    destruct (start_owner name sock s) as [[pid|e] s']; [by exists sock|done].
  - by apply open_err in E.
Qed.

Lemma radvd_starts ibn iface s : starts_one true s (radvd_starter ibn iface s).
Proof using Laws.
  unfold radvd_starter. destruct (ibn iface) as [i|]; [|done].
  pose proof (start_opened s (RawICMPv6 [BindToDevice iface; JoinAllRouters i; MulticastHops 255; UnicastHops 255; ICMPFilter SolicitationFilter])
    ("radvd " +:+ iface)) as H. by destruct (Open _ s) as [[sock|e] s1].
Qed.

Lemma dhcpv4_starts ibn {P} (restored : outcome P) iface s : starts_one true s (dhcpv4_starter ibn restored iface s).
Proof using Laws.
  unfold dhcpv4_starter. destruct restored; [|done..]. destruct (ibn iface) as [i|]; [|done].
  pose proof (start_opened s (PacketSocket ipProto [AttachFilter "dhcpv4.Filter"; BindLink ipProto i]) "dhcpv4") as H.
  by destruct (Open _ s) as [[sock|e] s1].
Qed.

(** Opening waits at most ten seconds, through eleven attempts: the fuel is enough. *)
Lemma bind_loop_spec fuel cfg ended : forall attempt s0 s, attempt + Z.of_nat fuel = bindRetries -> owner s = owner s0 -> alive s = alive s0 ->
  match open_loop fuel cfg ended attempt s with
  | (inl sock, s') => holds s0 [sock] (fun _ => None) s' /\ alive s' = alive s0
  | (inr e, s') => e <> "fuel"%string /\ leaves_nothing s0 s'
  end.
Proof using Laws.
  induction fuel as [|fuel IH]; intros attempt s0 s Hf Eo Ea; cbn [open_loop];
    destruct (Open (UDPSocket (bind cfg)) s) as [[sock|e] s1] eqn:E;
    try (destruct (holds_open s0 [] s s1 _ sock (holds_nil s0 _ s Eo) E) as (Hh & _ & Ha); split; [exact Hh|congruence]);
    apply open_err in E as [Eo1 Ea1]; destruct (negb _) eqn:En; cbn [orb];
    try (split; [done|split; congruence]).
  - rewrite (proj2 (Z.leb_le _ _)) by lia. split; [done|split; congruence].
  - destruct (Z.leb_spec bindRetries attempt); [lia|]. destruct (ended attempt); [split; [done|split; congruence]|].
    apply IH; [lia|congruence..].
Qed.

Lemma dhcpv6_starts ibn ended cfg s : starts_one false s (dhcpv6_start ibn ended cfg s).
Proof using Laws.
  unfold dhcpv6_start. destruct (resolve ibn cfg) as [cfg'|e|]; [|done..].
  pose proof (bind_loop_spec (Z.to_nat bindRetries) cfg' ended 0 s s eq_refl eq_refl eq_refl) as Ho. unfold open.
  destruct (open_loop _ _ _ _ _) as [[sock|e] s1]; [|by destruct Ho]. destruct Ho as [Hh Ha].
  destruct (StartLink _ s1) as [[pid|e] s2] eqn:E.
  - apply start_ok in E as (Hn & Hp & Eo & Ea). rewrite Ha in Hn, Ea. pose proof (holds_owner _ _ _ _ _ Hh Eo) as Hh1.
    destruct (ControllingProcess sock pid s2) as [[e|] s3] eqn:E2.
    + apply give_err in E2 as [Eo2 Ea2]. split.
      * apply (undone s [sock] (fun _ => None) pid); [by eapply holds_owner|intros h _; by left|]. intros h Eh.
        apply (Hp h). destruct Hh as [H1 ->]. destruct (decide (h ∈ [sock])); [by rewrite H1 in Eh|done].
      * rewrite close_alive. apply alive_killed; [done|congruence].
    + destruct (holds_give _ _ _ _ _ _ _ Hh1 (list_elem_of_here _ _) E2) as [[H1 H2] Ea2]. exists sock.
      split_and!; [done|congruence| |by intros h ?%elem_of_nil]. split; [done|]. intros h. rewrite H2.
      destruct (decide (h ∈ [sock])) as [->%list_elem_of_singleton|]; [|done]. by rewrite decide_True.
  - apply start_err in E as [Eo Ea]. split; [|by rewrite close_alive; congruence].
    apply (closed s [sock] (fun _ => None)); [by eapply holds_owner|done].
Qed.

Lemma openICMPv6_spec s0 hs iface types s : holds s0 hs (fun _ => None) s ->
  match openICMPv6 iface types s with
  | (inl h, s') => holds s0 (hs ++ [h]) (fun _ => None) s' /\ alive s' = alive s
  | (inr _, s') => holds s0 hs (fun _ => None) s' /\ alive s' = alive s
  end.
Proof using Laws.
  intros Hh. unfold openICMPv6. destruct (Open _ s) as [[h|e] s'] eqn:E.
  - by destruct (holds_open _ _ _ _ _ _ Hh E) as (? & _ & ?).
  - apply open_err in E as [Eo ?]. split; [by eapply holds_owner|done].
Qed.

Lemma open_lans_spec ibn lans : forall s0 opened s, holds s0 opened (fun _ => None) s ->
  let '(e, opened', s') := open_lans ibn lans opened s in
  holds s0 opened' (fun _ => None) s' /\ alive s' = alive s
  /\ exists l, opened' = opened ++ l /\ (e = None -> length l = length lans).
Proof using Laws.
  induction lans as [|name lans IH]; intros s0 opened s Hh; cbn [open_lans].
  { split_and!; [done..|]. exists []. by rewrite app_nil_r. }
  assert (exists l, opened = opened ++ l /\ (forall e : string, Some e = None -> length l = Datatypes.S (length lans))) as Hnone
    by (exists []; by rewrite app_nil_r).
  destruct (ibn name); [|split_and!; [done..|]; by destruct Hnone as (l & ? & ?); exists l].
  pose proof (openICMPv6_spec s0 opened name [AdvertisementType] s Hh) as Ho. destruct (openICMPv6 _ _ s) as [[h|e] s1]; destruct Ho as [Hh1 Ha].
  - specialize (IH s0 (opened ++ [h]) s1 Hh1). destruct (open_lans ibn lans (opened ++ [h]) s1) as [[e o] s2].
    destruct IH as (Hh2 & Ha2 & l & -> & Hl). split_and!; [done|congruence|]. exists (h :: l). rewrite <- app_assoc.
    split; [done|]. intros He. cbn. by rewrite Hl.
  - split_and!; [done..|]. by destruct Hnone as (l & ? & ?); exists l.
Qed.

Lemma start_proxy_spec s0 opened s : holds s0 opened (fun _ => None) s -> alive s = alive s0 ->
  match start_proxy opened s with
  | (inl pid, s') => runs s0 pid opened (firstn 1 opened ++ skipn 2 opened) s'
  | (inr _, s') => leaves_nothing s0 (close_all opened s')
  end.
Proof using Laws.
  intros Hh Ha. unfold start_proxy. destruct (StartLink _ s) as [[pid|e] s1] eqn:E.
  - apply start_ok in E as (Hn & Hp & Eo & Ea). rewrite Ha in Hn, Ea. pose proof (holds_owner _ _ _ _ _ Hh Eo) as Hh1.
    assert (forall h, owner s0 !! h <> Some (Some pid)) as Hp0.
    { intros h Eh. apply (Hp h). destruct Hh as [H1 ->]. destruct (decide (h ∈ opened)); [by rewrite H1 in Eh|done]. }
    assert (forall f s2, holds s0 opened f s2 -> shared opened pid f -> alive s2 = {[pid]} ∪ alive s0 ->
      leaves_nothing s0 (close_all opened (ExitKill pid s2))) as Hundo.
    { intros f s2 Hh2 Hf Ha2. split; [by eapply undone|]. rewrite close_all_alive. by apply alive_killed. }
    pose proof (give_all_spec s0 opened pid opened (fun _ => None) s1 Hh1 (fun h _ => or_introl eq_refl) (fun h Hin => Hin)) as Hg.
    destruct (give_all opened pid s1) as [[e|] s2]; destruct Hg as (Ha2 & f & Hh2 & Hf & _ & Hd).
    { by apply (Hundo f); [..|congruence]. }
    pose proof (activate_all_spec (firstn 1 opened ++ skipn 2 opened) s2) as Hact.
    destruct (activate_all _ s2) as [[e|] s3]; destruct Hact as (Eo3 & Ea3 & _ & Hl).
    { apply (Hundo f); [by eapply holds_owner|done|congruence]. }
    split_and!; [done|congruence| |by apply Hl]. destruct (holds_owner _ _ _ _ _ Hh2 Eo3) as [H1 H2]. split; [done|].
    intros h. rewrite H2. destruct (decide (h ∈ opened)); [|done]. by rewrite Hd.
  - apply start_err in E as [Eo Ea]. split; [|rewrite close_all_alive; congruence].
    apply (closed s0 opened (fun _ => None)); [by eapply holds_owner|done].
Qed.

(** The proxy's: the WAN's two sockets and one for each LAN; nothing is read from the
    second, which only sends. *)
Definition starts_proxy (LANs : list string) (s0 : S) (r : (Z + string) * S) : Prop :=
  match r with
  | (inl pid, s) => exists rx tx lans, length lans = length LANs /\ runs s0 pid (rx :: tx :: lans) (rx :: lans) s
  | (inr _, s) => leaves_nothing s0 s
  end.

Lemma proxy_starts ibn WAN LANs s : starts_proxy LANs s (startProxy ibn WAN LANs s).
Proof using Laws.
  unfold startProxy. destruct (ibn WAN) as [wan|]; [|done]. destruct (Open _ s) as [[rx|e] s1] eqn:E; [|by apply open_err in E].
  destruct (holds_first _ _ _ _ E) as [Hh1 Ha1].
  pose proof (openICMPv6_spec s [rx] WAN [] s1 Hh1) as Ho. destruct (openICMPv6 WAN [] s1) as [[tx|e] s2]; destruct Ho as [Hh2 Ha2].
  2: { split; [by apply (closed s [rx] (fun _ => None))|]. rewrite close_all_alive. congruence. }
  pose proof (open_lans_spec ibn LANs s [rx; tx] s2 Hh2) as Hl.
  destruct (open_lans ibn LANs [rx; tx] s2) as [[[e|] opened] s3]; destruct Hl as (Hh3 & Ha3 & lans & -> & Hlen).
  { split; [by eapply closed|]. rewrite close_all_alive. congruence. }
  pose proof (start_proxy_spec s _ s3 Hh3 ltac:(congruence)) as Hs. destruct (start_proxy _ s3) as [[pid|e] s4]; [|done].
  exists rx, tx, lans. split; [by apply Hlen|exact Hs].
Qed.
End Ownership.

(** Starting a process leaks nothing.  Whatever fails on the way, each of the four
    starts either leaves exactly one new process, owning exactly the sockets the start
    opened, those it reads from open for reading, or, with an error, leaves the
    processes and the sockets as they were before it. *)
Lemma starts_own_or_leave_nothing {S : Type} {A : Actors S} {Laws : ActorsLaws S} ibn iface (s : S) :
  starts_one true s (radvd_starter ibn iface s)
  /\ (forall P (restored : outcome P), starts_one true s (dhcpv4_starter ibn restored iface s))
  /\ (forall interfaces ended cfg, starts_one false s (dhcpv6_start interfaces ended cfg s))
  /\ forall LANs, starts_proxy LANs s (startProxy ibn iface LANs s).
Proof.
  split_and!; intros; [apply radvd_starts|apply dhcpv4_starts|apply dhcpv6_starts|apply proxy_starts].
Qed.

(** ** A library that fails where it is told to *)

(** The steps that fail are the [true]s of the script. *)
Record sys : Type := mkSys { script : list bool; sowner : gmap Z (option Z); slistening : gset Z; salive : gset Z }.

Definition step (s : sys) : bool * sys :=
  match script s with
  | [] => (false, s)
  | b :: script => (b, mkSys script (sowner s) (slistening s) (salive s))
  end.

Definition owners (s : sys) : gset Z := list_to_set (omap snd (map_to_list (sowner s))).

#[local] Instance sample_actors : Actors sys := {|
  Open o s := let '(fails, s) := step s in
    if fails then (inr EADDRNOTAVAIL, s)
    else let h := fresh (dom (sowner s)) in (inl h, mkSys (script s) (<[h := None]> (sowner s)) (slistening s) (salive s));
  StartLink n s := let '(fails, s) := step s in
    if fails then (inr "refused"%string, s)
    else let p := fresh (salive s ∪ owners s) in (inl p, mkSys (script s) (sowner s) (slistening s) ({[p]} ∪ salive s));
  ControllingProcess h p s := let '(fails, s) := step s in
    if fails then (Some "refused"%string, s) else (None, mkSys (script s) (<[h := Some p]> (sowner s)) (slistening s) (salive s));
  SetActive h s := let '(fails, s) := step s in
    if fails then (Some "refused"%string, s) else (None, mkSys (script s) (sowner s) ({[h]} ∪ slistening s) (salive s));
  ExitKill p s := mkSys (script s) (filter (fun kv => kv.2 <> Some p) (sowner s)) (slistening s) (salive s ∖ {[p]});
  CloseSocket h s := if decide (sowner s !! h = Some None) then mkSys (script s) (delete h (sowner s)) (slistening s) (salive s) else s;
  owner := sowner; listening := slistening; alive := salive |}.

Lemma step_same s : sowner (step s).2 = sowner s /\ slistening (step s).2 = slistening s /\ salive (step s).2 = salive s.
Proof. unfold step. by destruct (script s). Qed.

#[local] Instance sample_actors_laws : ActorsLaws sys.
Proof.
  split; cbn.
  - intros o s s' h. destruct (step_same s) as (Eo & El & Ea). destruct (step s) as [[] s1]; [done|]. cbn in *. intros [= <- <-]. cbn.
    rewrite Eo. split; [|done]. apply not_elem_of_dom, is_fresh.
  - intros o s s' e. destruct (step_same s) as (Eo & El & Ea). destruct (step s) as [[] s1]; [|done]. cbn in *. by intros [= _ <-].
  - intros n s s' p. destruct (step_same s) as (Eo & El & Ea). destruct (step s) as [[] s1]; [done|]. cbn in *. intros [= <- <-]. cbn.
    pose proof (is_fresh (salive s1 ∪ owners s1)) as Hf. set (p := fresh _) in *. rewrite Ea in *. split_and!; [set_solver| |done..].
    intros h Eh. apply Hf, elem_of_union. right. unfold owners. rewrite elem_of_list_to_set. apply list_elem_of_omap.
    exists (h, Some p). split; [|done]. apply elem_of_map_to_list. by rewrite Eo.
  - intros n s s' e. destruct (step_same s) as (Eo & El & Ea). destruct (step s) as [[] s1]; [|done]. cbn in *. by intros [= _ <-].
  - intros h p s s'. destruct (step_same s) as (Eo & El & Ea). destruct (step s) as [[] s1]; [done|]. cbn in *. intros [= <-]. cbn. by rewrite Eo.
  - intros h p s s' e. destruct (step_same s) as (Eo & El & Ea). destruct (step s) as [[] s1]; [|done]. cbn in *. by intros [= _ <-].
  - intros h s. destruct (step_same s) as (Eo & El & Ea). destruct (step s) as [[] s1]; cbn in *; split_and!; try done; [by rewrite El|set_solver..].
  - intros p s h. rewrite map_lookup_filter. destruct (sowner s !! h) as [o|] eqn:E; cbn; [|by rewrite decide_False].
    destruct (decide (Some o = Some (Some p))) as [[= ->]|Hn]; [by rewrite option_guard_False by (intros Hx; by apply Hx)|].
    rewrite option_guard_True; [done|]. cbn. congruence.
  - done.
  - intros h s j. destruct (decide (sowner s !! h = Some None)) as [Hh|Hh]; cbn.
    + destruct (decide (j = h)) as [->|Hne]; [by rewrite lookup_delete_eq, decide_True|]. by rewrite lookup_delete_ne, decide_False by naive_solver.
    + by rewrite decide_False by tauto.
  - intros h s. by destruct (decide _).
Qed.

Lemma failed_start {S : Type} {A : Actors S} LANs (s : S) r : starts_proxy LANs s r -> r.1 = inr "refused"%string -> leaves_nothing s r.2.
Proof. destruct r as [[p|e] s']; [done|]. by intros H _. Qed.

Definition sample_sys (script : list bool) : sys := mkSys script ∅ ∅ {[1]}.
Definition sample_index (name : string) : option Z := if String.eqb name "wan0" then Some 2 else if String.eqb name "lan0" then Some 3 else None.

(** Opened and owned; and with the last gift refused, gone, the ones given and the ones
    not. *)
Lemma starts_own_or_leave_nothing_witness :
  starts_proxy ["lan0"%string] (sample_sys []) (startProxy sample_index "wan0" ["lan0"%string] (sample_sys []))
  /\ ok (match (startProxy sample_index "wan0" ["lan0"%string] (sample_sys [])).1 with inl p => Ret p | inr e => Fail e end) = true
  /\ leaves_nothing (sample_sys [false; false; false; false; false; false; true])
       (startProxy sample_index "wan0" ["lan0"%string] (sample_sys [false; false; false; false; false; false; true])).2.
Proof.
  split_and!.
  - exact (proj2 (proj2 (proj2 (starts_own_or_leave_nothing sample_index "wan0" (sample_sys [])))) ["lan0"%string]).
  - by vm_compute.
  - refine (failed_start ["lan0"%string] _ _ (proj2 (proj2 (proj2 (starts_own_or_leave_nothing sample_index "wan0" _))) ["lan0"%string]) _).
    by vm_compute.
Defined.
