(* ===== verification/Radvd.v ===== *)
(** The Router Advertisement daemon: src/internal/radvd/advertiser.go, the process
    advertising on one interface.  It is run with the clock and its timers: what molecule
    promises of them is [step].  The protocol is Routeradvert.v's. *)

From S2P Require Import Prelude Wire Netip Routeradvert.
From stdpp Require Import relations.

Local Open Scope Z_scope.

(** ** The advertiser (advertiser.go) *)

(** The timers, each under its own key. *)
Inductive key : Type := unsolicited | quiet | reply.

Inductive effect : Type :=
| SendRA (ra : bytes)
| ArmRS
| StartTimer (k : key) (after : Z)
| TrapExit
| Stop.

(** A send error is tentative (EADDRNOTAVAIL) or not. *)
Inductive msg : Type :=
| Due (k : key) | DataMsg (b : bytes) | SendErrorMsg (tentative : bool) | ErrorMsg | ClosedMsg | OtherMsg.

Record state (G : Type) : Type := mkState {
  rng : G; cfg : Config; configured : bool;
  sent : Z; recent : bool; pending : bool; replying : bool }.
Arguments mkState {G} _ _ _ _ _ _ _.
Arguments rng {G} _.
Arguments cfg {G} _.
Arguments configured {G} _.
Arguments sent {G} _.
Arguments recent {G} _.
Arguments pending {G} _.
Arguments replying {G} _.

Section Advertiser.
Context {G : Type} `{Random G} (seeded : G) (mac : bytes).

Definition Init : state G * list effect := (mkState seeded zero_Config false 0 false false false, [TrapExit]).

Definition sendNow : effect := StartTimer unsolicited 0.

Definition ra (c : Config) (lifetime : Z) : bytes := Marshal (BuildRA c lifetime mac).

Definition send (s : state G) : state G * list effect :=
  (mkState (rng s) (cfg s) (configured s) (sent s) true (pending s) (replying s),
   [SendRA (ra (cfg s) AdvDefaultLifetime); StartTimer quiet MinDelayBetweenRAs]).

Definition HandleCast (s : state G) (c : Config) : state G * list effect :=
  let given := mkState (rng s) c true (sent s) (recent s) (pending s) (replying s) in
  if negb (configured s) then (given, [sendNow])
  else if bool_decide (c = cfg s) then (s, [])
  else if recent s then (mkState (rng s) c (configured s) (sent s) (recent s) true (replying s), [])
  else (given, [sendNow]).

Definition HandleInfo (s : state G) (m : msg) : state G * list effect :=
  match m with
  | Due unsolicited =>
    let '(next, g) := NextUnsolicitedInterval (sent s + 1) (rng s) in
    let '(s, effs) := send (mkState g (cfg s) (configured s) (sent s + 1) (recent s) (pending s) (replying s)) in
    (s, effs ++ [StartTimer unsolicited next])
  | Due quiet =>
    if pending s
    then (mkState (rng s) (cfg s) (configured s) (sent s) false false (replying s), [sendNow])
    else (mkState (rng s) (cfg s) (configured s) (sent s) false (pending s) (replying s), [])
  | DataMsg b =>
    if negb (configured s) || recent s || replying s || negb (IsRouterSolicitation b) then (s, [ArmRS])
    else
      let '(after, g) := ReplyDelay (rng s) in
      (mkState g (cfg s) (configured s) (sent s) (recent s) (pending s) true, [ArmRS; StartTimer reply after])
  | Due reply =>
    let s := mkState (rng s) (cfg s) (configured s) (sent s) (recent s) (pending s) false in
    if negb (recent s) then send s else (s, [])
  | SendErrorMsg tentative =>
    if tentative
    then (mkState (rng s) (cfg s) (configured s) (Z.max 0 (sent s - 1)) (recent s) (pending s) (replying s),
          [StartTimer unsolicited TentativeRetryInterval])
    else (s, [Stop])
  | ErrorMsg | ClosedMsg => (s, [Stop])
  | OtherMsg => (s, [])
  end.

Definition Terminate (s : state G) : list effect :=
  if negb (configured s) then [] else [SendRA (ra (cfg s) 0)].

(** ** A run of the advertiser *)

(** The clock, the timers running and when each is due, whether the socket will deliver,
    the RAs sent, newest first, each with its time and the timer it was sent on, the
    times of the solicitations received while advertising, and the last time the
    configuration changed or a send failed. *)
Record sys : Type := mkSys {
  clock : Z; st : state G; unsolicitedT : option Z; quietT : option Z; replyT : option Z;
  armed : bool; log : list (Z * key * bytes); asked : list Z; since : Z; stopped : bool }.

Definition apply_effect (cause : key) (s : sys) (e : effect) : sys :=
  match e with
  | SendRA b => mkSys (clock s) (st s) (unsolicitedT s) (quietT s) (replyT s) (armed s)
                  ((clock s, cause, b) :: log s) (asked s) (since s) (stopped s)
  | ArmRS => mkSys (clock s) (st s) (unsolicitedT s) (quietT s) (replyT s) true (log s) (asked s) (since s) (stopped s)
  | StartTimer unsolicited d =>
    mkSys (clock s) (st s) (Some (clock s + d)) (quietT s) (replyT s) (armed s) (log s) (asked s) (since s) (stopped s)
  | StartTimer quiet d =>
    mkSys (clock s) (st s) (unsolicitedT s) (Some (clock s + d)) (replyT s) (armed s) (log s) (asked s) (since s) (stopped s)
  | StartTimer reply d =>
    mkSys (clock s) (st s) (unsolicitedT s) (quietT s) (Some (clock s + d)) (armed s) (log s) (asked s) (since s) (stopped s)
  | TrapExit => s
  | Stop => mkSys (clock s) (st s) (unsolicitedT s) (quietT s) (replyT s) (armed s) (log s) (asked s) (since s) true
  end.

Definition with_state (s : sys) (x : state G) : sys :=
  mkSys (clock s) x (unsolicitedT s) (quietT s) (replyT s) (armed s) (log s) (asked s) (since s) (stopped s).

(** What a callback leaves. *)
Definition moved (cause : key) (s : sys) (r : state G * list effect) : sys :=
  fold_left (apply_effect cause) r.2 (with_state s r.1).

Definition start (c : Z) : sys := moved unsolicited (mkSys c Init.1 None None None true [] [] c false) Init.

(** A timer does not go off late; starting one under a running timer's key replaces it. *)
Definition on_time (d : option Z) (now : Z) : Prop := match d with Some t => now <= t | None => True end.

Inductive step : sys -> sys -> Prop :=
| step_tick d s : 0 <= d -> on_time (unsolicitedT s) (clock s + d) -> on_time (quietT s) (clock s + d) ->
    on_time (replyT s) (clock s + d) -> stopped s = false ->
    step s (mkSys (clock s + d) (st s) (unsolicitedT s) (quietT s) (replyT s) (armed s) (log s) (asked s) (since s) false)
| step_unsolicited d s : unsolicitedT s = Some d -> d <= clock s -> stopped s = false ->
    step s (moved unsolicited (mkSys (clock s) (st s) None (quietT s) (replyT s) (armed s) (log s) (asked s) (since s) false)
      (HandleInfo (st s) (Due unsolicited)))
| step_quiet d s : quietT s = Some d -> d <= clock s -> stopped s = false ->
    step s (moved quiet (mkSys (clock s) (st s) (unsolicitedT s) None (replyT s) (armed s) (log s) (asked s) (since s) false)
      (HandleInfo (st s) (Due quiet)))
| step_reply d s : replyT s = Some d -> d <= clock s -> stopped s = false ->
    step s (moved reply (mkSys (clock s) (st s) (unsolicitedT s) (quietT s) None (armed s) (log s) (asked s) (since s) false)
      (HandleInfo (st s) (Due reply)))
| step_cast c s : stopped s = false ->
    step s (moved unsolicited
      (mkSys (clock s) (st s) (unsolicitedT s) (quietT s) (replyT s) (armed s) (log s) (asked s)
         (if bool_decide (c = cfg (st s)) && configured (st s) then since s else clock s) false)
      (HandleCast (st s) c))
| step_data b s : armed s = true -> stopped s = false ->
    step s (moved unsolicited
      (mkSys (clock s) (st s) (unsolicitedT s) (quietT s) (replyT s) false (log s)
         (if configured (st s) && IsRouterSolicitation b then clock s :: asked s else asked s) (since s) false)
      (HandleInfo (st s) (DataMsg b)))
| step_send_error tentative s : log s <> [] -> stopped s = false ->
    step s (moved unsolicited
      (mkSys (clock s) (st s) (unsolicitedT s) (quietT s) (replyT s) (armed s) (log s) (asked s) (clock s) false)
      (HandleInfo (st s) (SendErrorMsg tentative)))
| step_other m s : m = ErrorMsg \/ m = ClosedMsg \/ m = OtherMsg -> stopped s = false ->
    step s (moved unsolicited s (HandleInfo (st s) m)).
End Advertiser.
Arguments sys : clear implicits.

(** ** The invariant *)

Section Run.
Context {G : Type} `{RandomLaws G} (mac : bytes).

(** The newest RA was sent at [t]. *)
Definition last_at (lg : list (Z * key * bytes)) (t : Z) : Prop := exists k b lg', lg = (t, k, b) :: lg'.
(** The newest RA carries the configuration. *)
Definition announced (s : sys G) : Prop :=
  exists t k lg', log s = (t, k, ra mac (cfg (st s)) AdvDefaultLifetime) :: lg'.
(** An RA was sent around [t]: at most the spacing before, or the reply delay after. *)
Definition answered (lg : list (Z * key * bytes)) (t : Z) : Prop :=
  exists t' k b, (t', k, b) ∈ lg /\ t - MinDelayBetweenRAs <= t' <= t + maxRADelayTime.
(** Answers to solicitations keep the distance to the RA before. *)
Fixpoint spaced (lg : list (Z * key * bytes)) : Prop :=
  match lg with
  | (t, k, _) :: ((t', _, _) :: _) as lg' => (k = reply -> t' + MinDelayBetweenRAs <= t) /\ spaced lg'
  | _ => True
  end.

Record inv (s : sys G) : Prop := {
  i_idle : configured (st s) = false -> unsolicitedT s = None /\ quietT s = None /\ replyT s = None /\ log s = [] /\ asked s = [];
  i_next : configured (st s) = true -> exists u, unsolicitedT s = Some u /\ clock s <= u <= clock s + maxRtrAdvInterval;
  i_recent : recent (st s) = true -> exists q, quietT s = Some q /\ clock s <= q <= clock s + MinDelayBetweenRAs
               /\ last_at (log s) (q - MinDelayBetweenRAs);
  i_rested : recent (st s) = false -> quietT s = None /\ forall t, last_at (log s) t -> t + MinDelayBetweenRAs <= clock s;
  i_reply : replying (st s) = true -> exists r, replyT s = Some r /\ clock s <= r <= clock s + maxRADelayTime;
  i_no_reply : replying (st s) = false -> replyT s = None;
  i_pending : pending (st s) = true -> recent (st s) = true;
  i_announced : configured (st s) = true -> announced s
               \/ (pending (st s) = true /\ exists q, quietT s = Some q /\ q <= since s + MinDelayBetweenRAs)
               \/ exists u, unsolicitedT s = Some u /\ u <= since s + MinDelayBetweenRAs;
  i_since : since s <= clock s;
  i_asked : forall t, t ∈ asked s -> t <= clock s /\ (answered (log s) t
               \/ exists r, replyT s = Some r /\ r <= t + maxRADelayTime);
  i_spaced : spaced (log s);
  i_armed : stopped s = false -> armed s = true }.

Lemma last_at_cons t k b lg t' : last_at ((t, k, b) :: lg) t' <-> t' = t.
Proof. split; [by intros (? & ? & ? & [= -> _ _ _])|intros ->; by exists k, b, lg]. Qed.

Lemma answered_cons x lg t : answered lg t -> answered (x :: lg) t.
Proof. intros (t' & k & b & Hin & Hr). exists t', k, b. split; [by right|done]. Qed.

Lemma answered_now t now k b lg : t - MinDelayBetweenRAs <= now <= t + maxRADelayTime -> answered ((now, k, b) :: lg) t.
Proof. intros Hr. exists now, k, b. split; [by left|done]. Qed.

Lemma spaced_cons t k b lg : spaced lg -> (k = reply -> forall t', last_at lg t' -> t' + MinDelayBetweenRAs <= t) ->
  spaced ((t, k, b) :: lg).
Proof. intros Hs Hk. destruct lg as [|[[t' k'] b'] lg]; [done|]. split; [|done]. intros Hr. apply (Hk Hr). by apply last_at_cons. Qed.

Lemma advertiser_inv_start (seeded : G) c : inv (start seeded c).
Proof.
  split; cbn; try done; try lia.
  - intros _. split; [done|]. intros t (? & ? & ? & E). done.
  - intros t Ht. by apply not_elem_of_nil in Ht.
Qed.

(** What a callback leaves, written out. *)
Ltac run_cbn := unfold moved, with_state, sendNow, send, announced;
  cbn [fst snd fold_left apply_effect clock st unsolicitedT quietT replyT armed log asked since stopped
       cfg configured sent recent pending replying].

(** Time passing. *)
Lemma inv_tick d s : inv s -> 0 <= d -> on_time (unsolicitedT s) (clock s + d) -> on_time (quietT s) (clock s + d) ->
  on_time (replyT s) (clock s + d) ->
  inv (mkSys (clock s + d) (st s) (unsolicitedT s) (quietT s) (replyT s) (armed s) (log s) (asked s) (since s) (stopped s)).
Proof.
  intros [] Hd Hu Hq Hr. split; run_cbn; try done.
  - intros Hc. destruct (i_next0 Hc) as (u & E & Hb). exists u. rewrite E in Hu. cbn in Hu. split; [done|lia].
  - intros Hc. destruct (i_recent0 Hc) as (q & E & Hb & Hl). exists q. rewrite E in Hq. cbn in Hq. split; [done|]. split; [lia|done].
  - intros Hc. destruct (i_rested0 Hc) as (E & Hl). split; [done|]. intros t Ht. apply Hl in Ht. lia.
  - intros Hc. destruct (i_reply0 Hc) as (r & E & Hb). exists r. rewrite E in Hr. cbn in Hr. split; [done|lia].
  - lia.
  - intros t Ht. destruct (i_asked0 t Ht) as [Hle Ha]. split; [lia|done].
Qed.

(** Sending an RA. *)
Lemma inv_sent s x k u rT : inv s -> stopped s = false -> configured (st s) = true -> recent (st s) = false \/ k = unsolicited ->
  cfg x = cfg (st s) -> configured x = true -> recent x = true ->
  clock s <= u <= clock s + maxRtrAdvInterval ->
  (replying x = true -> replying (st s) = true /\ rT = replyT s) -> (replying x = false -> rT = None) ->
  (rT = replyT s \/ exists r, replyT s = Some r /\ r <= clock s) ->
  inv (mkSys (clock s) x (Some u) (Some (clock s + MinDelayBetweenRAs)) rT (armed s)
    ((clock s, k, ra mac (cfg x) AdvDefaultLifetime) :: log s) (asked s) (since s) false).
Proof.
  intros [] Hst Hc Hk Ex Ec Er Hu Hr Hnr HrT. split; run_cbn; try done.
  - congruence.
  - intros _. by exists u.
  - intros _. exists (clock s + MinDelayBetweenRAs). split; [done|]. split; [unfold MinDelayBetweenRAs, Second; lia|].
    apply last_at_cons. lia.
  - congruence.
  - intros Hx. destruct (Hr Hx) as [Hs ->]. by apply i_reply0.
  - intros _. left. by do 3 eexists.
  - intros t Ht. destruct (i_asked0 t Ht) as [Hle [Ha|(r & E & Hd)]]; (split; [done|]).
    + left. by apply answered_cons.
    + destruct HrT as [->|(r' & E' & Hd')]; [right; by exists r|]. left. apply answered_now.
      assert (r' = r) as -> by congruence. unfold MinDelayBetweenRAs, Second.
      assert (replying (st s) = true) as Hrep by (destruct (replying (st s)) eqn:Er'; [done|]; rewrite i_no_reply0 in E by done; done).
      destruct (i_reply0 Hrep) as (r'' & E'' & Hb). assert (r'' = r) as -> by congruence. lia.
  - apply spaced_cons; [done|]. intros -> t Ht. destruct Hk as [Hk|]; [|done]. by apply (proj2 (i_rested0 Hk)).
  - by auto.
Qed.

Lemma inv_unsolicited d s : inv s -> unsolicitedT s = Some d -> stopped s = false ->
  inv (moved unsolicited (mkSys (clock s) (st s) None (quietT s) (replyT s) (armed s) (log s) (asked s) (since s) false)
    (HandleInfo mac (st s) (Due unsolicited))).
Proof.
  intros Hi Eu Hs. assert (configured (st s) = true) as Hc.
  { destruct (configured (st s)) eqn:E; [done|]. destruct (i_idle _ Hi E) as (E' & _). congruence. }
  unfold HandleInfo. pose proof (NextUnsolicitedInterval_range (sent (st s) + 1) (rng (st s))) as Hn.
  destruct (NextUnsolicitedInterval _ _) as [next g]. cbn [fst] in Hn.
  apply (inv_sent s (mkState g (cfg (st s)) (configured (st s)) (sent (st s) + 1) true (pending (st s)) (replying (st s)))
    unsolicited (clock s + next) (replyT s)); first [done|lia|by right|by left|apply Hi].
Qed.

Lemma inv_quiet d s : inv s -> quietT s = Some d -> d <= clock s -> stopped s = false ->
  inv (moved quiet (mkSys (clock s) (st s) (unsolicitedT s) None (replyT s) (armed s) (log s) (asked s) (since s) false)
    (HandleInfo mac (st s) (Due quiet))).
Proof.
  intros [] Eq Hd Hs.
  assert (recent (st s) = true) as Hr by (destruct (recent (st s)) eqn:E; [done|]; destruct (i_rested0 ltac:(first [reflexivity|assumption])) as [E' _]; congruence).
  destruct (i_recent0 Hr) as (q & Eq' & Hq & Hl). assert (q = d) as -> by congruence.
  assert (configured (st s) = true) as Hc.
  { destruct (configured (st s)) eqn:E; [done|]. destruct (i_idle0 ltac:(first [reflexivity|assumption])) as (_ & E' & _). congruence. }
  assert (forall t, last_at (log s) t -> t + MinDelayBetweenRAs <= clock s) as Hrest.
  { destruct Hl as (k & b & lg & ->). intros t Ht%last_at_cons. lia. }
  cbn [HandleInfo]. destruct (pending (st s)) eqn:Ep; split; run_cbn; try done; try congruence.
  - intros _. exists (clock s + 0). split; [done|]. unfold maxRtrAdvInterval, Second. lia.
  - intros _. destruct (i_announced0 Hc) as [Ha|[(_ & q & E & Hb)|(u & E & Hb)]]; [by left|right; right|right; right].
    + exists (clock s + 0). split; [done|]. assert (q = d) as -> by congruence. lia.
    + exists (clock s + 0). split; [done|]. destruct (i_next0 Hc) as (u' & E' & Hu). assert (u' = u) as -> by congruence. lia.
  - by auto.
  - intros _. destruct (i_announced0 Hc) as [Ha|[(Hx & _)|Hu]]; [by left|congruence|by right; right].
  - by auto.
Qed.

Lemma inv_reply d s : inv s -> replyT s = Some d -> d <= clock s -> stopped s = false ->
  inv (moved reply (mkSys (clock s) (st s) (unsolicitedT s) (quietT s) None (armed s) (log s) (asked s) (since s) false)
    (HandleInfo mac (st s) (Due reply))).
Proof.
  intros Hi Er Hd Hs. assert (replying (st s) = true) as Hrep.
  { destruct (replying (st s)) eqn:E; [done|]. rewrite (i_no_reply _ Hi E) in Er. done. }
  assert (configured (st s) = true) as Hc.
  { destruct (configured (st s)) eqn:E; [done|]. destruct (i_idle _ Hi E) as (_ & _ & E' & _). congruence. }
  destruct (i_next _ Hi Hc) as (u & Eu & Hu). destruct (i_reply _ Hi Hrep) as (r & Er' & Hr). assert (r = d) as -> by congruence.
  cbn [HandleInfo recent]. destruct (recent (st s)) eqn:Ec; cbn [negb].
  - destruct Hi. destruct (i_recent0 Ec) as (q & Eq & Hq & Hl).
    split; run_cbn; try done; try congruence.
    + eauto.
    + intros t Ht. destruct (i_asked0 t Ht) as [Hle [Ha|(r & E & Hb)]]; (split; [done|]); left; [done|].
      assert (r = d) as -> by congruence. destruct Hl as (k & b & lg & El). exists (q - MinDelayBetweenRAs), k, b. split; [rewrite El; by left|]. lia.
    + by auto.
  - run_cbn. rewrite Eu.
    apply (inv_sent s (mkState (rng (st s)) (cfg (st s)) (configured (st s)) (sent (st s)) true (pending (st s)) false) reply u None); try done; auto.
    right. exists d. split; [done|lia].
Qed.

(** A new configuration. *)
Lemma inv_cast c s : inv s -> stopped s = false ->
  inv (moved unsolicited
    (mkSys (clock s) (st s) (unsolicitedT s) (quietT s) (replyT s) (armed s) (log s) (asked s)
       (if bool_decide (c = cfg (st s)) && configured (st s) then since s else clock s) false)
    (HandleCast (st s) c)).
Proof.
  intros [] Hs. unfold HandleCast. destruct (configured (st s)) eqn:Hc; cbn [negb].
  - rewrite andb_true_r. case_bool_decide as Ec; [|destruct (recent (st s)) eqn:Er];
      split; run_cbn; try done; try congruence; try lia;
      rewrite ?Hc, ?Er; eauto.
    + intros _. right. left. split; [done|]. destruct (i_recent0 ltac:(first [reflexivity|assumption])) as (q & E & Hq & _). exists q. split; [done|lia].
    + intros _. exists (clock s + 0). split; [done|]. unfold maxRtrAdvInterval, Second. lia.
    + intros _. right. right. exists (clock s + 0). split; [done|]. unfold MinDelayBetweenRAs, Second. lia.
  - rewrite andb_false_r. destruct (i_idle0 ltac:(first [reflexivity|assumption])) as (Eu & Eq & Er & El & Ea).
    split; run_cbn; try done; try congruence; try lia; eauto.
    + intros _. exists (clock s + 0). split; [done|]. unfold maxRtrAdvInterval, Second. lia.
    + intros _. right. right. exists (clock s + 0). split; [done|]. unfold MinDelayBetweenRAs, Second. lia.
Qed.

(** A message from the socket. *)
Lemma inv_data b s : inv s -> armed s = true -> stopped s = false ->
  inv (moved unsolicited
    (mkSys (clock s) (st s) (unsolicitedT s) (quietT s) (replyT s) false (log s)
       (if configured (st s) && IsRouterSolicitation b then clock s :: asked s else asked s) (since s) false)
    (HandleInfo mac (st s) (DataMsg b))).
Proof.
  intros Hi Harm Hs. cbn [HandleInfo]. destruct (configured (st s)) eqn:Hc; cbn [negb orb andb].
  2: { destruct Hi. split; run_cbn; try done; try congruence; auto. }
  destruct (IsRouterSolicitation b); cbn [negb]; rewrite ?orb_true_r, ?orb_false_r.
  2: { destruct Hi. split; run_cbn; try done; try congruence; auto. }
  destruct (recent (st s)) eqn:Er; cbn [orb]; [|destruct (replying (st s)) eqn:Ep].
  - destruct Hi. split; run_cbn; try done; try congruence; auto.
    intros t [->|Ht]%elem_of_cons; [|by apply i_asked0]. split; [lia|]. left.
    destruct (i_recent0 ltac:(first [reflexivity|assumption])) as (q & Eq & Hq & (k & x & lg & El)).
    exists (q - MinDelayBetweenRAs), k, x. split; [rewrite El; by left|]. unfold maxRADelayTime, Millisecond. lia.
  - destruct Hi. split; run_cbn; try done; try congruence; auto.
    intros t [->|Ht]%elem_of_cons; [|by apply i_asked0]. split; [lia|]. right.
    destruct (i_reply0 ltac:(first [reflexivity|assumption])) as (r & Eq & Hr). exists r. split; [done|lia].
  - pose proof (ReplyDelay_range (rng (st s))) as Hd. destruct (ReplyDelay (rng (st s))) as [after g]. cbn [fst] in Hd.
    destruct Hi. split; run_cbn; try done; try congruence; auto.
    + intros _. exists (clock s + after). split; [done|lia].
    + intros Hp. by rewrite <- Er, i_pending0.
    + intros t [->|Ht]%elem_of_cons; [split; [lia|]; right; exists (clock s + after); split; [done|lia]|].
      destruct (i_asked0 t Ht) as [Hle [Ha|(r & E & _)]]; [by auto|]. rewrite (i_no_reply0 ltac:(first [reflexivity|assumption])) in E. done.
Qed.

(** A send that failed. *)
Lemma inv_send_error tentative s : inv s -> log s <> [] -> stopped s = false ->
  inv (moved unsolicited
    (mkSys (clock s) (st s) (unsolicitedT s) (quietT s) (replyT s) (armed s) (log s) (asked s) (clock s) false)
    (HandleInfo mac (st s) (SendErrorMsg tentative))).
Proof.
  intros [] Hl Hs.
  assert (configured (st s) = true) as Hc.
  { destruct (configured (st s)) eqn:E; [done|]. destruct (i_idle0 ltac:(first [reflexivity|assumption])) as (_ & _ & _ & E' & _). done. }
  destruct tentative; cbn [HandleInfo]; split; run_cbn; try done; try congruence; try lia; auto.
  - intros _. exists (clock s + TentativeRetryInterval). split; [done|]. unfold TentativeRetryInterval, maxRtrAdvInterval, Second. lia.
  - intros _. right. right. exists (clock s + TentativeRetryInterval). split; [done|]. unfold TentativeRetryInterval, MinDelayBetweenRAs, Second. lia.
  - intros _. destruct (i_announced0 Hc) as [Ha|[(Hp & q & E & Hq)|(u & E & Hu)]]; [by left|right; left|right; right].
    + split; [done|]. exists q. split; [done|lia].
    + exists u. split; [done|lia].
Qed.

Lemma inv_other m s : inv s -> m = ErrorMsg \/ m = ClosedMsg \/ m = OtherMsg -> inv (moved unsolicited s (HandleInfo mac (st s) m)).
Proof. intros Hi Hm. destruct Hi, Hm as [->|[->| ->]]; cbn [HandleInfo]; split; run_cbn; done. Qed.

Lemma inv_run seeded c s : rtc (step mac) (start seeded c) s -> inv s.
Proof.
  intros Hr. pose proof (advertiser_inv_start seeded c) as Hi. revert Hi. induction Hr as [|s s1 s2 Hs Hr IH]; [done|].
  intros Hi. apply IH. clear IH Hr s2. destruct Hs as [d s Hd Hu Hq Hr Hs|d s E Hd Hs|d s E Hd Hs|d s E Hd Hs|c' s Hs|b s Ha Hs|t s Hl Hs|m s Hm Hs].
  - rewrite <- Hs. by apply inv_tick.
  - by apply (inv_unsolicited d).
  - by apply (inv_quiet d).
  - by apply (inv_reply d).
  - by apply inv_cast.
  - by apply inv_data.
  - by apply inv_send_error.
  - by apply inv_other.
Qed.
End Run.

(** C23: an advertiser given a configuration keeps advertising it.  At any point of any
    run that has not stopped, a next unsolicited advertisement is due within
    MaxRtrAdvInterval; and unless the configuration changed or a send failed within the
    last MinDelayBetweenRAs, the last advertisement sent was of the configuration it has
    now, for AdvDefaultLifetime; its shutdown withdraws the router. *)
Theorem changes_announced {G} `{RandomLaws G} (mac : bytes) (seeded : G) c s :
  rtc (step mac) (start seeded c) s -> stopped s = false -> configured (st s) = true ->
  (exists u, unsolicitedT s = Some u /\ clock s <= u <= clock s + maxRtrAdvInterval)
  /\ (since s + MinDelayBetweenRAs < clock s ->
        exists t k lg, log s = (t, k, Marshal (BuildRA (cfg (st s)) AdvDefaultLifetime mac)) :: lg)
  /\ Terminate mac (st s) = [SendRA (Marshal (BuildRA (cfg (st s)) 0 mac))].
Proof.
  intros Hr Hs Hc. destruct (inv_run mac seeded c s Hr) as []. split; [by apply i_next0|]. split.
  - intros Hd. destruct (i_announced0 Hc) as [(t & k & lg & E)|[(Hp & q & E & Hq)|(u & E & Hu)]]; [by exists t, k, lg|..].
    + destruct (i_recent0 (i_pending0 Hp)) as (q' & E' & Hb & _). assert (q' = q) as -> by congruence. lia.
    + destruct (i_next0 Hc) as (u' & E' & Hb). assert (u' = u) as -> by congruence. lia.
  - unfold Terminate. by rewrite Hc.
Qed.

(** Every Router Solicitation is answered.  Once maxRADelayTime has passed since one
    came in, an advertisement has gone out no later than that and at most
    MinDelayBetweenRAs before it; and no advertisement sent as an answer follows the one
    before it by less than MinDelayBetweenRAs. *)
Lemma solicitations_answered {G} `{RandomLaws G} (mac : bytes) (seeded : G) c s :
  rtc (step mac) (start seeded c) s ->
  (forall t, t ∈ asked s -> t + maxRADelayTime < clock s ->
     exists t' k b, (t', k, b) ∈ log s /\ t - MinDelayBetweenRAs <= t' <= t + maxRADelayTime)
  /\ (forall i t b t' k b', log s !! i = Some (t, reply, b) -> log s !! S i = Some (t', k, b') ->
        t' + MinDelayBetweenRAs <= t).
Proof.
  intros Hr. destruct (inv_run mac seeded c s Hr) as []. split.
  - intros t Ht Hd. destruct (i_asked0 t Ht) as [_ [Ha|(r & E & Hb)]]; [done|]. exfalso.
    destruct (replying (st s)) eqn:Er; [|by rewrite i_no_reply0 in E by assumption + reflexivity].
    destruct (i_reply0 ltac:(first [reflexivity|assumption])) as (r' & E' & Hr'). assert (r' = r) as -> by congruence. lia.
  - intros i. clear - i_spaced0. revert i_spaced0. generalize (log s). intros lg. revert i.
    induction lg as [|[[t k] b] lg IH]; intros [|i] Hsp t0 b0 t' k' b' E E'; try done; cbn in E, E'.
    + injection E as -> -> _. destruct lg as [|[[t1 k1] b1] lg]; [done|]. cbn in E'. injection E' as -> -> _. by apply (proj1 Hsp).
    + apply (IH i) with b0 k' b'; [|done..]. destruct lg as [|[[t1 k1] b1] lg]; [done|]. apply Hsp.
Qed.

(** ** A sample: the first seconds of an advertiser *)

(** A generator that draws one second where it may. *)
#[export] Instance sample_random : Random unit := { draw n g := (Z.min n Second, g) }.
#[export] Instance sample_random_laws : RandomLaws unit.
Proof. split. intros n []. cbn. unfold Second. lia. Qed.

Definition sample_mac : bytes := [2; 0; 0; 0; 0; 1].
Definition sample_solicitation : bytes := marshalRouterSolicitation [2; 0; 0; 0; 0; 9].

Definition later (d : Z) (s : sys unit) : sys unit :=
  mkSys (clock s + d) (st s) (unsolicitedT s) (quietT s) (replyT s) (armed s) (log s) (asked s) (since s) false.
Definition advertises (s : sys unit) : sys unit :=
  moved unsolicited (mkSys (clock s) (st s) None (quietT s) (replyT s) (armed s) (log s) (asked s) (since s) false)
    (HandleInfo sample_mac (st s) (Due unsolicited)).

(** Configured; an RA; a solicitation; two RAs a second apart each; two seconds. *)
Definition sample_0 : sys unit := start tt 0.
Definition sample_1 : sys unit :=
  moved unsolicited (mkSys 0 (st sample_0) None None None true [] [] 0 false) (HandleCast (st sample_0) sample_config).
Definition sample_2 : sys unit := advertises sample_1.
Definition sample_3 : sys unit :=
  moved unsolicited (mkSys 0 (st sample_2) (unsolicitedT sample_2) (quietT sample_2) (replyT sample_2) false (log sample_2) [0] 0 false)
    (HandleInfo sample_mac (st sample_2) (DataMsg sample_solicitation)).
Definition sample_4 : sys unit := advertises (later Second sample_3).
Definition sample_5 : sys unit := advertises (later Second sample_4).
Definition sample_6 : sys unit := later (2 * Second) sample_5.

Lemma advertises_step s : unsolicitedT s = Some (clock s) -> stopped s = false -> step sample_mac s (advertises s).
Proof. intros E Hs. apply (step_unsolicited sample_mac (clock s)); [done|lia|done]. Qed.
Lemma later_step d s : 0 <= d -> on_time (unsolicitedT s) (clock s + d) -> on_time (quietT s) (clock s + d) ->
  on_time (replyT s) (clock s + d) -> stopped s = false -> step sample_mac s (later d s).
Proof. apply step_tick. Qed.

Lemma sample_reached : rtc (step sample_mac) (start tt 0) sample_6.
Proof.
  apply (rtc_l _ _ sample_1); [apply (step_cast sample_mac sample_config sample_0); reflexivity|].
  apply (rtc_l _ _ sample_2); [apply advertises_step; reflexivity|].
  apply (rtc_l _ _ sample_3); [apply (step_data sample_mac sample_solicitation sample_2); reflexivity|].
  apply (rtc_l _ _ (later Second sample_3)); [apply later_step; try reflexivity; vm_compute; congruence|].
  apply (rtc_l _ _ sample_4); [apply advertises_step; reflexivity|].
  apply (rtc_l _ _ (later Second sample_4)); [apply later_step; try reflexivity; vm_compute; congruence|].
  apply (rtc_l _ _ sample_5); [apply advertises_step; reflexivity|].
  apply rtc_once. apply later_step; try reflexivity; vm_compute; congruence.
Qed.

(** Unsolicited advertisements follow each other closer than MinDelayBetweenRAs: the
    initial ones are drawn from zero on, and neither they nor a later one due soon after
    an answer wait for the spacing. *)
Lemma unsolicited_too_close : exists b b', log sample_6 !! 0%nat = Some (2 * Second, unsolicited, b)
  /\ log sample_6 !! 1%nat = Some (1 * Second, unsolicited, b') /\ 2 * Second < 1 * Second + MinDelayBetweenRAs.
Proof. do 2 eexists. split; [reflexivity|]. split; [reflexivity|]. reflexivity. Qed.

Lemma changes_announced_witness :
  exists t k lg, log sample_6 = (t, k, Marshal (BuildRA sample_config AdvDefaultLifetime sample_mac)) :: lg.
Proof.
  destruct (changes_announced sample_mac tt 0 sample_6 sample_reached ltac:(reflexivity) ltac:(reflexivity)) as (_ & H & _).
  apply H. reflexivity.
Defined.

Lemma solicitations_answered_witness : exists t' k b, (t', k, b) ∈ log sample_6 /\ - MinDelayBetweenRAs <= t' <= maxRADelayTime.
Proof.
  destruct (solicitations_answered sample_mac tt 0 sample_6 sample_reached) as [H _].
  destruct (H 0 ltac:(left) ltac:(reflexivity)) as (t' & k & b & Hin & Hr). exists t', k, b. split; [exact Hin|exact Hr].
Defined.
