(* ===== verification/Wanextend.v ===== *)
(** The WAN's prefix extended onto the LANs: src/internal/wanextend (ra.go, discover.go,
    watch.go), for a provider that delegates no prefix.  The host routes of the same
    package are in Ndproxy.v, the advertiser the prefix is handed to in Radvd.v.

    Reading the WAN's addresses goes through pkg/netlink's socket: a reading is its
    result, whatever it is. *)

From S2P Require Import Prelude Wire Netip Routeradvert.

Local Open Scope Z_scope.

(** ** What is advertised (ra.go) *)

Definition validLifetime : Z := 2592000 * Second.
Definition preferredLifetime : Z := 604800 * Second.

Definition config (rdnss : gmap string Addr) (iface : string) (prefix : Prefix) : Config :=
  mkConfig prefix false validLifetime preferredLifetime (default AInvalid (rdnss !! iface)).

(** What each interface advertises after sync: the Advertiser is handed each
    interface's configuration in turn. *)
Definition sync (rdnss : gmap string Addr) (prefix : Prefix) (lanIfaces : list string) (adv : gmap string Config)
    : gmap string Config :=
  fold_left (fun adv iface => <[iface := config rdnss iface prefix]> adv) lanIfaces adv.

(** ** Reading the prefix (discover.go) *)

Definition watchPollInterval : Z := 5 * 60 * Second.

(** [opened]: the error opening the netlink socket; [addrs]: what Addrs answers. *)
Definition discoverPrefixOnce (opened : option string) (addrs : outcome (list Prefix)) : outcome Prefix :=
  match opened with
  | Some e => Fail e
  | None =>
    l ← addrs;
    match l with
    | [] => Fail "wanextend: no global-scope address"
    | a :: _ => Ret (Masked a)
    end
  end.

(** DiscoverPrefix's loop over the readings it makes; [None] once it is cancelled
    (the readings end). *)
Fixpoint DiscoverPrefix (readings : list (outcome Prefix)) : option Prefix :=
  match readings with
  | [] => None
  | Ret p :: _ => Some p
  | _ :: rest => DiscoverPrefix rest
  end.

Definition nextWatchState (current : Prefix) (reading : outcome Prefix) : Prefix * bool :=
  match reading with
  | Ret next => if negb (prefix_IsValid next) || bool_decide (next = current) then (current, false) else (next, true)
  | _ => (current, false)
  end.

(** ** The watch process (watch.go) *)

Record WatchConfig : Type := mkWatch { LANs : list string; RDNSS : gmap string Addr }.

Definition Extend (c : WatchConfig) (prefix : Prefix) (adv : gmap string Config) : gmap string Config :=
  sync (RDNSS c) prefix (LANs c) adv.

Inductive effect : Type := StartTick (after : Z).

Definition Init (initial : Prefix) : Prefix * list effect := (initial, [StartTick 0]).

(** A message: the tick, with what the read it makes answers, or another one.  The
    state is the prefix extended; [adv] is what the interfaces advertise. *)
Inductive msg : Type := tick (reading : outcome Prefix) | OtherMsg.

Definition HandleInfo (c : WatchConfig) (current : Prefix) (m : msg) (adv : gmap string Config)
    : (Prefix * list effect) * gmap string Config :=
  match m with
  | OtherMsg => ((current, []), adv)
  | tick reading =>
    match nextWatchState current reading with
    | (updated, true) => ((updated, [StartTick watchPollInterval]), Extend c updated adv)
    | (_, false) => ((current, [StartTick watchPollInterval]), adv)
    end
  end.

(** A watch started on the prefix extended, over the messages it handles. *)
Fixpoint watch (c : WatchConfig) (current : Prefix) (ms : list msg) (adv : gmap string Config) : Prefix * gmap string Config :=
  match ms with
  | [] => (current, adv)
  | m :: ms => let '((current, _), adv) := HandleInfo c current m adv in watch c current ms adv
  end.

(** ** What a watch amounts to *)

(** The valid prefixes read, in order. *)
Definition readings (ms : list msg) : list Prefix :=
  omap (fun m => match m with tick (Ret p) => if prefix_IsValid p then Some p else None | _ => None end) ms.

(** The reference: the last valid prefix read, the initial one before any. *)
Definition latest (initial : Prefix) (ms : list msg) : Prefix := List.last (readings ms) initial.

Lemma sync_lookup rdnss prefix lans adv i :
  sync rdnss prefix lans adv !! i = if decide (i ∈ lans) then Some (config rdnss i prefix) else adv !! i.
Proof.
  unfold sync. revert adv. induction lans as [|l lans IH]; intros adv; cbn [fold_left]; [done|].
  rewrite IH. destruct (decide (i ∈ lans)) as [Hin|Hin].
  - rewrite decide_True; [done|]. by right.
  - destruct (decide (i = l)) as [->|Hne].
    + rewrite lookup_insert_eq, decide_True; [done|]. by left.
    + rewrite lookup_insert_ne by done. rewrite decide_False; [done|]. set_solver.
Qed.

(** Extending is all that changes what is advertised. *)
Lemma Extend_again c p q adv : Extend c q (Extend c p adv) = Extend c q adv.
Proof. apply map_eq. intros i. unfold Extend. rewrite !sync_lookup. by case_decide. Qed.

(** One message: the prefix extended is the latest, and is what is advertised. *)
Lemma HandleInfo_extends c current m adv : exists effs,
  HandleInfo c current m (Extend c current adv)
  = ((latest current [m], effs), Extend c (latest current [m]) adv).
Proof.
  destruct m as [r|]; [|by eexists]. unfold HandleInfo, nextWatchState, latest, readings. cbn [omap list_omap].
  destruct r as [p|e|]; cbn [List.last]; [|by eexists..].
  destruct (prefix_IsValid p) eqn:Ev; cbn [negb orb List.last]; [|by eexists].
  case_bool_decide as E; [subst; by eexists|]. eexists. by rewrite Extend_again.
Qed.

Lemma latest_cons initial m ms : latest initial (m :: ms) = latest (latest initial [m]) ms.
Proof.
  unfold latest, readings. cbn [omap list_omap]. destruct m as [[p|e|]|]; try done. destruct (prefix_IsValid p); [|done].
  cbn [List.last]. apply last_cons_default.
Qed.

Lemma watch_latest c initial ms adv :
  watch c initial ms (Extend c initial adv) = (latest initial ms, Extend c (latest initial ms) adv).
Proof.
  revert initial. induction ms as [|m ms IH]; intros initial; [done|]. cbn [watch].
  destruct (HandleInfo_extends c initial m adv) as [effs ->]. rewrite (latest_cons initial m ms). apply IH.
Qed.

(** C24: the watch keeps the LANs on the WAN's prefix.  Started on the prefix extended,
    after any sequence of readings -- errors, empty ones and repeats included -- every
    LAN advertises the last valid prefix read (the initial one before any), off-link and
    with the LAN's own DNS server, no other interface's advertising has changed, and each
    tick re-arms the next. *)
Theorem watch_follows c initial ms adv :
  watch c initial ms (Extend c initial adv) = (latest initial ms, Extend c (latest initial ms) adv)
  /\ (forall i, Extend c (latest initial ms) adv !! i
       = if decide (i ∈ LANs c)
         then Some (mkConfig (latest initial ms) false validLifetime preferredLifetime (default AInvalid (RDNSS c !! i)))
         else adv !! i)
  /\ (forall current r adv', (HandleInfo c current (tick r) adv').1.2 = [StartTick watchPollInterval]).
Proof.
  split; [|split].
  - apply watch_latest.
  - intros i. apply sync_lookup.
  - intros current r adv'. cbn [HandleInfo]. by destruct (nextWatchState current r) as [? []].
Qed.

(** A reading is masked to its network. *)
Lemma discoverPrefixOnce_masked opened addrs p : discoverPrefixOnce opened addrs = Ret p ->
  opened = None /\ exists a l, addrs = Ret (a :: l) /\ p = Masked a.
Proof.
  unfold discoverPrefixOnce. destruct opened; [done|]. intros (l & E & H)%bind_inv. destruct l as [|a l]; [done|].
  injection H as <-. split; [done|]. by exists a, l.
Qed.

(** DiscoverPrefix returns the first reading that succeeds, and returns once one does. *)
Lemma DiscoverPrefix_first rs p : DiscoverPrefix rs = Some p <->
  exists before after, rs = before ++ Ret p :: after /\ Forall (fun r => ok r = false) before.
Proof.
  split.
  - induction rs as [|[q|e|] rs IH]; cbn [DiscoverPrefix]; [done|intros [= ->]; by exists [], rs|..];
      intros (b & a & -> & Hb)%IH; eexists (_ :: b), a; (split; [reflexivity|by constructor]).
  - intros (b & a & -> & Hb). induction Hb as [|r b Hr _ IH]; [done|]. by destruct r.
Qed.
