(* ===== verification/Hb46pp.v ===== *)
(** HB46PP, the provisioning protocol of Japanese IPv6 providers: src/pkg/hb46pp (txt.go,
    request.go, response.go, retry.go, discover.go).  A TXT record names a server, an
    HTTP request identifies the gateway, the answer names the AFTR.

    Text is its bytes.  The resolver, the HTTP client, the JSON decoder and the parser of
    net/url are arguments (the class [World]); a random duration is drawn from [Random]
    (Routeradvert.v). *)

From S2P Require Import Prelude Wire Netip Text Routeradvert.

Local Open Scope Z_scope.

(** ** Errors *)

(** An error as RetryDelay tells them apart: wrapping ErrNotProvisioned, wrapping a
    DNS error, any other. *)
Inductive err : Type := ErrNotProvisioned (e : string) | DNSError (e : string) | OtherError (e : string).

Inductive result (A : Type) : Type := Ok (a : A) | Err (e : err).
Arguments Ok {A} _.
Arguments Err {A} _.

#[export] Instance result_ret : MRet result := @Ok.
#[export] Instance result_bind : MBind result := fun A B f m => match m with Ok a => f a | Err e => Err e end.

Lemma result_bind_inv {A B} (m : result A) (f : A -> result B) b : m ≫= f = Ok b -> exists a, m = Ok a /\ f a = Ok b.
Proof. destruct m as [a|e]; [eauto|done]. Qed.

(** ** What the code calls *)

(** A lookup's error: from the resolver or not, and then whether the name does not
    exist. *)
Record LookupError : Type := mkLookupError { isDNS : bool; IsNotFound : bool }.

Record URL : Type := mkURL { Scheme : bytes; Host : bytes }.

(** The decoded answer. *)
Record Provisioning : Type := mkProvisioning {
  EnablerName : bytes; ServiceName : bytes; ISPName : bytes; pToken : bytes; Auth : bytes; IPv6Mostly : bool;
  TTL : option Z; Order : option (list bytes); DSLite : option bytes (* its aftr field *) }.

(** An HTTP response: its status, its Location header resolved (with the text of the
    URL), its body, [None] when reading it fails. *)
Record Response : Type := mkResponse { StatusCode : Z; Location : option (bytes * URL); Body : option bytes }.

Class World : Type := {
  url_Parse : bytes -> option URL;
  LookupTXT : bytes -> list bytes + LookupError;
  LookupNetIP : bytes -> list Addr + LookupError;
  (** Building the request for a URL fails or not; the [n]th exchange of a client
      validating certificates or not. *)
  NewRequest : bytes -> bool;
  Do : nat -> bool -> bytes -> Response + bool (* from DNS? *);
  (** Decoding a body: the object, and whether nothing but white space follows it. *)
  Decode : bytes -> option (Provisioning * bool) }.

(** ** The discovery record (txt.go) *)

Definition discoveryDomain : bytes := str "4over6.info".
Definition txtVersion : bytes := str "v6mig-1".

Record ServerInfo : Type := mkServerInfo { serverURL : bytes; ValidateCert : bool }.

(** The bytes of the white space at the head of a text, in UTF-8 (unicode.IsSpace). *)
Definition space_len (b : bytes) : nat :=
  match b with
  | c :: rest =>
    if bool_decide (c ∈ [9; 10; 11; 12; 13; 32]) then 1%nat
    else match c, rest with
    | 0xC2, x :: _ => if (x =? 0x85) || (x =? 0xA0) then 2%nat else 0%nat
    | 0xE1, x :: y :: _ => if (x =? 0x9A) && (y =? 0x80) then 3%nat else 0%nat
    | 0xE2, x :: y :: _ =>
      if (x =? 0x80) && (((0x80 <=? y) && (y <=? 0x8A)) || (y =? 0xA8) || (y =? 0xA9) || (y =? 0xAF))
         || (x =? 0x81) && (y =? 0x9F) then 3%nat else 0%nat
    | 0xE3, x :: y :: _ => if (x =? 0x80) && (y =? 0x80) then 3%nat else 0%nat
    | _, _ => 0%nat
    end
  | [] => 0%nat
  end.

(** strings.Fields: the runs of bytes between white space. *)
Definition flush (cur : bytes) : list bytes := match cur with [] => [] | _ => [cur] end.

Fixpoint fields_loop (fuel : nat) (cur b : bytes) : list bytes :=
  match fuel, b with
  | _, [] => flush cur
  | O, _ => flush cur
  | S fuel, c :: rest =>
    match space_len b with
    | O => fields_loop fuel (cur ++ [c]) rest
    | n => flush cur ++ fields_loop fuel [] (drop n b)
    end
  end.

Definition Fields (b : bytes) : list bytes := fields_loop (length b) [] b.

(** The key-value pairs of a record, the first of a key kept. *)
Definition record_kv (record : bytes) : gmap bytes bytes :=
  fold_left (fun kv field =>
    match Cut 0x3D field with
    | None => kv
    | Some (k, v) => match kv !! k with Some _ => kv | None => <[k := v]> kv end
    end) (Fields record) ∅.

(** A Go map gives the empty string for a missing key. *)
Definition kv_get (kv : gmap bytes bytes) (k : string) : bytes := default [] (kv !! str k).

Section Client.
Context `{World}.

Definition parseTXTRecord (record : bytes) : result ServerInfo :=
  let kv := record_kv record in
  if negb (bool_decide (kv_get kv "v" = txtVersion)) then Err (OtherError "hb46pp: TXT record version")
  else
    let rawURL := kv_get kv "url" in
    if bool_decide (rawURL = []) then Err (OtherError "hb46pp: TXT record has no url= field")
    else match url_Parse rawURL with
    | None => Err (OtherError "hb46pp: TXT record url")
    | Some u =>
      if bool_decide (Host u = []) then Err (OtherError "hb46pp: TXT record url has no host")
      else if bool_decide (kv_get kv "t" = str "a") then
        if negb (bool_decide (Scheme u = str "http")) && negb (bool_decide (Scheme u = str "https"))
        then Err (OtherError "hb46pp: TXT record has t=a") else Ok (mkServerInfo rawURL false)
      else if bool_decide (kv_get kv "t" = str "b") then
        if negb (bool_decide (Scheme u = str "https"))
        then Err (OtherError "hb46pp: TXT record has t=b") else Ok (mkServerInfo rawURL true)
      else Err (OtherError "hb46pp: TXT record t")
    end.

(** The first record that parses. *)
Fixpoint first_record (records : list bytes) : option ServerInfo :=
  match records with
  | [] => None
  | rec :: rest => match parseTXTRecord rec with Ok info => Some info | Err _ => first_record rest end
  end.

Definition lookupServer : result ServerInfo :=
  match LookupTXT discoveryDomain with
  | inr e =>
    if isDNS e && IsNotFound e then Err (ErrNotProvisioned "hb46pp: no v6mig-1 TXT record")
    else if isDNS e then Err (DNSError "hb46pp: TXT lookup") else Err (OtherError "hb46pp: TXT lookup")
  | inl records =>
    match first_record records with
    | Some info => Ok info
    | None => Err (ErrNotProvisioned "hb46pp: no v6mig-1 TXT record")
    end
  end.

(** ** The request (request.go) *)

Record ClientInfo : Type := mkClientInfo {
  VendorID : bytes; Product : bytes; Version : bytes; Capabilities : list bytes; Token : bytes }.

Definition is_alpha (c : Z) : bool := (0x41 <=? c) && (c <=? 0x5A) || (0x61 <=? c) && (c <=? 0x7A).
Definition is_hex (c : Z) : bool := is_digit c || (0x41 <=? c) && (c <=? 0x46) || (0x61 <=? c) && (c <=? 0x66).
Definition is_word (c : Z) : bool := is_digit c || is_alpha c || (c =? 0x5F).

Definition vendorIDPattern (b : bytes) : bool :=
  (6 <=? zlen b) && forallb is_hex (take 6 b)
  && match drop 6 b with
     | [] => true
     | c :: suffix => (c =? 0x2D) && (1 <=? zlen suffix) && (zlen suffix <=? 24) && forallb is_word suffix
     end.
Definition productPattern (b : bytes) : bool :=
  (1 <=? zlen b) && (zlen b <=? 32) && forallb (fun c => is_word c || (c =? 0x2D)) b.
Definition versionPattern (b : bytes) : bool :=
  (1 <=? zlen b) && (zlen b <=? 32) && forallb (fun c => is_digit c || (c =? 0x5F)) b.
Definition tokenPattern (b : bytes) : bool := (zlen b =? 64) && forallb is_hex b.

Definition knownCapabilities : list bytes := str <$> ["464xlat"; "dslite"; "ipip"; "lw4o6"; "map_e"; "map_t"]%string.

Definition validate (c : ClientInfo) : option err :=
  if negb (vendorIDPattern (VendorID c)) then Some (OtherError "hb46pp: vendorid")
  else if negb (productPattern (Product c)) then Some (OtherError "hb46pp: product")
  else if negb (versionPattern (Version c)) then Some (OtherError "hb46pp: version")
  else if bool_decide (Capabilities c = []) then Some (OtherError "hb46pp: at least one capability is required")
  else if negb (forallb (fun x => bool_decide (x ∈ knownCapabilities)) (Capabilities c))
  then Some (OtherError "hb46pp: unknown capability")
  else if negb (bool_decide (Token c = [])) && negb (tokenPattern (Token c)) then Some (OtherError "hb46pp: token")
  else None.

(** url.QueryEscape: letters, digits and [-_.~] as they are, a space as a plus, any
    other byte as a percent sign and two upper-case hex digits. *)
Definition hex_digit (n : Z) : Z := if n <? 10 then 0x30 + n else 0x37 + n.
Definition escape_byte (c : Z) : bytes :=
  if is_word c || (c =? 0x2D) || (c =? 0x2E) || (c =? 0x7E) then [c]
  else if c =? 0x20 then [0x2B] else [0x25; hex_digit (c / 16); hex_digit (c mod 16)].
Definition QueryEscape (b : bytes) : bytes := b ≫= escape_byte.

(** strings.Join with a comma. *)
Fixpoint join_comma (l : list bytes) : bytes :=
  match l with [] => [] | [x] => x | x :: l => x ++ [0x2C] ++ join_comma l end.

Definition add (q : bytes) (kv : bytes * bytes) : bytes :=
  q ++ (if bool_decide (q = []) then [] else str "&") ++ kv.1 ++ str "=" ++ QueryEscape kv.2.

(** The parameters, in order. *)
Definition parameters (c : ClientInfo) : list (bytes * bytes) :=
  [(str "vendorid", VendorID c); (str "product", Product c); (str "version", Version c);
   (str "capability", join_comma (Capabilities c))]
  ++ (if bool_decide (Token c = []) then [] else [(str "token", Token c)]).

Definition requestURL (base : bytes) (c : ClientInfo) : result bytes :=
  match validate c with
  | Some e => Err e
  | None =>
    let q := fold_left add (parameters c) [] in
    Ok (base ++ (if bool_decide (0x3F ∈ base) then str "&" else str "?") ++ q)
  end.

(** ** The answer (response.go) *)

Definition maxTTLSeconds : Z := 604800.
Definition Hour : Z := 3600 * Second.
Definition defaultRefreshMin : Z := 20 * Hour.
Definition defaultRefreshMax : Z := 24 * Hour.
Definition maxResponseBytes : Z := 2 ^ 20.
Definition maxRedirects : nat := 5.

Definition RefreshInterval {G} `{Random G} (p : Provisioning) (g : G) : Z :=
  match TTL p with
  | Some t => if 0 <? t then Z.min t maxTTLSeconds * Second
              else defaultRefreshMin + (draw (defaultRefreshMax - defaultRefreshMin) g).1
  | None => defaultRefreshMin + (draw (defaultRefreshMax - defaultRefreshMin) g).1
  end.

Definition decodeProvisioning (body : bytes) : result Provisioning :=
  match Decode body with
  | None => Err (OtherError "hb46pp: decoding provisioning response")
  | Some (p, ended) =>
    if negb ended then Err (OtherError "hb46pp: trailing data after the JSON object")
    else if bool_decide (EnablerName p = []) then Err (OtherError "hb46pp: missing enabler_name")
    else if bool_decide (Order p = None) then Err (OtherError "hb46pp: missing order")
    else if bool_decide (Auth p = str "bad") then Err (OtherError "hb46pp: auth=bad")
    else Ok p
  end.

(** The loop of fetchProvisioning with [turns] left; beside the result, the URLs
    requested. *)
Fixpoint fetch_loop (turns : nat) (n : nat) (validated : bool) (reqURL : bytes) (requireHTTPS : bool)
    : result Provisioning * list bytes :=
  match turns with
  | O => (Err (OtherError "hb46pp: too many 307 redirects"), [])
  | S turns =>
    if negb (NewRequest reqURL) then (Err (OtherError "hb46pp: building request"), [])
    else
      match Do n validated reqURL with
      | inr dns => (Err (if dns : bool then DNSError "hb46pp: provisioning request" else OtherError "hb46pp: provisioning request"), [reqURL])
      | inl resp =>
        if StatusCode resp =? 307 then
          match Location resp with
          | None => (Err (OtherError "hb46pp: 307 response has no usable Location"), [reqURL])
          | Some (next, u) =>
            if requireHTTPS && negb (bool_decide (Scheme u = str "https"))
            then (Err (OtherError "hb46pp: 307 redirected from a validated https server"), [reqURL])
            else let '(r, urls) := fetch_loop turns (S n) validated next requireHTTPS in (r, reqURL :: urls)
          end
        else if StatusCode resp =? 200 then
          match Body resp with
          | None => (Err (OtherError "hb46pp: reading provisioning response"), [reqURL])
          | Some body =>
            if maxResponseBytes <? zlen body then (Err (OtherError "hb46pp: provisioning response exceeds"), [reqURL])
            else (decodeProvisioning body, [reqURL])
          end
        else (Err (OtherError "hb46pp: provisioning server returned"), [reqURL])
      end
  end.

Definition fetchProvisioning (validated : bool) (reqURL : bytes) (requireHTTPS : bool) : result Provisioning * list bytes :=
  fetch_loop (S maxRedirects) 0 validated reqURL requireHTTPS.

(** ** One discovery (discover.go) *)

Definition resolveAFTR (aftr : bytes) : result Addr :=
  match ParseAddr aftr with
  | Some addr => if negb (Is6 addr) || Is4In6 addr then Err (OtherError "hb46pp: dslite.aftr is not an IPv6 address") else Ok addr
  | None =>
    match LookupNetIP aftr with
    | inr e => Err (if isDNS e then DNSError "hb46pp: resolving dslite.aftr" else OtherError "hb46pp: resolving dslite.aftr")
    | inl [] => Err (OtherError "hb46pp: dslite.aftr resolved to no addresses")
    | inl (a :: _) => Ok a
    end
  end.

Record Result : Type := mkResult {
  resProvisioning : Provisioning; Server : ServerInfo; AFTRName : bytes; AFTRAddr : Addr; resRefreshInterval : Z }.

Definition Discover {G} `{Random G} (c : ClientInfo) (g : G) : result Result :=
  server ← lookupServer;
  reqURL ← requestURL (serverURL server) c;
  prov ← (fetchProvisioning (ValidateCert server) reqURL (ValidateCert server)).1;
  let refresh := RefreshInterval prov g in
  match DSLite prov with
  | None => Ok (mkResult prov server [] AInvalid refresh)
  | Some aftr => a ← resolveAFTR aftr; Ok (mkResult prov server aftr a refresh)
  end.
End Client.

(** ** When to try again (retry.go) *)

Definition Minute : Z := 60 * Second.
Definition notProvisionedMin : Z := 1 * Hour.
Definition notProvisionedMax : Z := 3 * Hour.
Definition dnsFailureMin : Z := 1 * Minute.
Definition dnsFailureMax : Z := 10 * Minute.
Definition httpFailureMin : Z := 10 * Minute.
Definition httpFailureMax : Z := 30 * Minute.

Definition randInterval {G} `{Random G} (lo hi : Z) (g : G) : Z := lo + (draw (hi - lo) g).1.

Definition RetryDelay {G} `{Random G} (e : err) (g : G) : Z :=
  match e with
  | ErrNotProvisioned _ => randInterval notProvisionedMin notProvisionedMax g
  | DNSError _ => randInterval dnsFailureMin dnsFailureMax g
  | OtherError _ => randInterval httpFailureMin httpFailureMax g
  end.

(** ** A server's reading of a query *)

Fixpoint split_amp (b : bytes) : list bytes :=
  match b with
  | [] => [[]]
  | c :: rest =>
    if c =? 0x26 then [] :: split_amp rest
    else match split_amp rest with [] => [[c]] | x :: l => (c :: x) :: l end
  end.

Definition unhex (c : Z) : Z := if c <? 0x3A then c - 0x30 else if c <? 0x5B then c - 0x37 else c - 0x57.

Fixpoint unescape (b : bytes) : bytes :=
  match b with
  | 0x25 :: x :: y :: rest => unhex x * 16 + unhex y :: unescape rest
  | 0x2B :: rest => 0x20 :: unescape rest
  | c :: rest => c :: unescape rest
  | [] => []
  end.

Definition read_query (q : bytes) : list (bytes * bytes) :=
  omap (fun f => prod_map id unescape <$> Cut 0x3D f) (split_amp q).

Lemma escape_byte_plain c : is_byte c -> (0x26 ∉ escape_byte c) /\ (0x3D ∉ escape_byte c).
Proof.
  intros Hc. assert (forallb (fun c => bool_decide ((0x26 ∉ escape_byte c) /\ (0x3D ∉ escape_byte c))) (seqZ 0 256) = true) as H
    by (vm_compute; reflexivity).
  rewrite forallb_forall in H. apply (bool_decide_eq_true_1 _), H, list_elem_of_In, elem_of_seqZ. unfold is_byte in Hc. lia.
Qed.

Lemma unescape_byte c rest : is_byte c -> unescape (escape_byte c ++ rest) = c :: unescape rest.
Proof.
  intros Hc.
  assert (forallb (fun c => match escape_byte c with
    | [x] => (x =? c) && negb (x =? 0x25) && negb (x =? 0x2B) || (x =? 0x2B) && (c =? 0x20)
    | [x; y; z] => (x =? 0x25) && (unhex y * 16 + unhex z =? c) | _ => false end) (seqZ 0 256) = true) as H
    by (vm_compute; reflexivity).
  rewrite forallb_forall in H. specialize (H c ltac:(apply list_elem_of_In, elem_of_seqZ; unfold is_byte in Hc; lia)).
  destruct (escape_byte c) as [|x [|y [|z [|? ?]]]]; try done.
  - apply orb_prop in H as [H|[->%Z.eqb_eq ->%Z.eqb_eq]%andb_prop]; [|done].
    apply andb_prop in H as [[->%Z.eqb_eq H1%negb_true_iff%Z.eqb_neq]%andb_prop H2%negb_true_iff%Z.eqb_neq].
    cbn [app unescape]. repeat case_match; done.
  - apply andb_prop in H as [->%Z.eqb_eq E%Z.eqb_eq]. cbn [app unescape]. by rewrite E.
Qed.

Lemma unescape_QueryEscape b : is_bytes b -> unescape (QueryEscape b) = b.
Proof.
  unfold QueryEscape. induction 1 as [|c b Hc Hb IH]; [done|]. cbn [mbind list_bind]. by rewrite unescape_byte, IH.
Qed.

Lemma QueryEscape_plain b : is_bytes b -> (0x26 ∉ QueryEscape b) /\ (0x3D ∉ QueryEscape b).
Proof.
  unfold QueryEscape. induction 1 as [|c b Hc Hb IH]; [split; apply not_elem_of_nil|]. cbn [mbind list_bind].
  pose proof (escape_byte_plain c Hc). rewrite !elem_of_app. tauto.
Qed.

Lemma split_amp_word b : 0x26 ∉ b -> split_amp b = [b].
Proof.
  induction b as [|c b IH]; [done|]. rewrite not_elem_of_cons. intros [Hc Hb]. cbn [split_amp].
  destruct (Z.eqb_spec c 0x26); [congruence|]. by rewrite IH.
Qed.

Lemma split_amp_app b rest : 0x26 ∉ b -> split_amp (b ++ 0x26 :: rest) = b :: split_amp rest.
Proof.
  induction b as [|c b IH]; [done|]. rewrite not_elem_of_cons. intros [Hc Hb]. cbn [split_amp app].
  destruct (Z.eqb_spec c 0x26); [congruence|]. by rewrite IH.
Qed.

(** One parameter, encoded; and a query of several. *)
Definition encode (kv : bytes * bytes) : bytes := kv.1 ++ str "=" ++ QueryEscape kv.2.
Fixpoint encodes (l : list (bytes * bytes)) : bytes :=
  match l with [] => [] | [kv] => encode kv | kv :: l => encode kv ++ 0x26 :: encodes l end.

Lemma encodes_snoc l kv : l <> [] -> encodes (l ++ [kv]) = encodes l ++ 0x26 :: encode kv.
Proof.
  induction l as [|x [|y l] IH]; [done|done|]. intros _.
  change (encodes ((x :: y :: l) ++ [kv])) with (encode x ++ 0x26 :: encodes ((y :: l) ++ [kv])). rewrite IH by done.
  change (encodes (x :: y :: l)) with (encode x ++ 0x26 :: encodes (y :: l)). by rewrite <- app_assoc.
Qed.

Lemma encode_not_nil kv : encode kv <> [].
Proof. unfold encode. by destruct kv.1. Qed.

Lemma encodes_not_nil l : l <> [] -> encodes l <> [].
Proof.
  destruct l as [|x [|y l]]; [done|intros _; apply encode_not_nil|]. intros _ E.
  change (encode x ++ 0x26 :: encodes (y :: l) = []) in E. by apply app_eq_nil in E as [_ E].
Qed.

Lemma fold_add l : fold_left add l [] = encodes l.
Proof.
  induction l as [|kv l IH] using rev_ind; [done|]. rewrite fold_left_app, IH. cbn [fold_left]. unfold add. fold (encode kv).
  destruct l as [|x l]; [done|]. rewrite bool_decide_eq_false_2 by by apply encodes_not_nil. by rewrite encodes_snoc.
Qed.

(** A server reads back the parameters of a query. *)
Lemma read_encodes l : l <> [] ->
  Forall (fun kv => (0x26 ∉ kv.1) /\ (0x3D ∉ kv.1) /\ is_bytes kv.2) l -> read_query (encodes l) = l.
Proof.
  intros Hl. unfold read_query. induction 1 as [|[k v] l (Ha & He & Hb) Hf IH]; [done|]. cbn [fst snd] in *.
  assert (0x26 ∉ encode (k, v)) as Hamp.
  { unfold encode. cbn [fst snd]. rewrite !elem_of_app. pose proof (QueryEscape_plain v Hb). intros [?|[?|?]]; [done| |tauto].
    by apply list_elem_of_singleton in H0. }
  assert ((prod_map id unescape <$> Cut 0x3D (encode (k, v))) = Some (k, v)) as Ed.
  { unfold encode. cbn [fst snd]. change (k ++ str "=" ++ QueryEscape v) with (k ++ 0x3D :: QueryEscape v).
    rewrite Cut_absent by (apply Forall_forall; by intros c Hc ->). cbn. by rewrite unescape_QueryEscape. }
  destruct l as [|kv l].
  - cbn [encodes]. rewrite split_amp_word by done. cbn [omap list_omap]. by rewrite Ed.
  - change (encodes ((k, v) :: kv :: l)) with (encode (k, v) ++ 0x26 :: encodes (kv :: l)).
    rewrite split_amp_app by done. cbn [omap list_omap]. rewrite Ed. f_equal. by apply IH.
Qed.

(** ** What a discovery promises *)

Section Promises.
Context `{World}.

Definition client_bytes (c : ClientInfo) : Prop :=
  is_bytes (VendorID c) /\ is_bytes (Product c) /\ is_bytes (Version c) /\ Forall is_bytes (Capabilities c) /\ is_bytes (Token c).

Lemma join_comma_bytes l : Forall is_bytes l -> is_bytes (join_comma l).
Proof.
  induction 1 as [|x l Hx Hl IH]; [constructor|]. destruct l as [|y l]; [done|].
  change (is_bytes (x ++ [0x2C] ++ join_comma (y :: l))). apply is_bytes_app. split; [done|]. constructor; [by unfold is_byte|done].
Qed.

Lemma parameters_plain c : client_bytes c ->
  Forall (fun kv => (0x26 ∉ kv.1) /\ (0x3D ∉ kv.1) /\ is_bytes kv.2) (parameters c).
Proof.
  intros (Hv & Hp & Hr & Hc & Ht). unfold parameters. apply Forall_app. split.
  - repeat (constructor; [split; [apply (bool_decide_unpack _); vm_compute; exact I|
      split; [apply (bool_decide_unpack _); vm_compute; exact I|cbn [snd]; auto using join_comma_bytes]]|]). constructor.
  - case_bool_decide; [constructor|]. constructor; [|constructor].
    split; [apply (bool_decide_unpack _); vm_compute; exact I|]. split; [apply (bool_decide_unpack _); vm_compute; exact I|done].
Qed.

(** The requests of a fetch: the first is the URL given, each later one a Location an
    answer before it gave, https when that is required. *)
Definition redirected (validated : bool) (requireHTTPS : bool) (url next : bytes) : Prop :=
  exists n resp u, Do n validated url = inl resp /\ StatusCode resp = 307 /\ Location resp = Some (next, u)
    /\ (requireHTTPS = true -> Scheme u = str "https").

Fixpoint follows (validated requireHTTPS : bool) (url : bytes) (urls : list bytes) : Prop :=
  match urls with
  | [] => True
  | next :: rest => redirected validated requireHTTPS url next /\ follows validated requireHTTPS next rest
  end.

Lemma fetch_loop_urls turns n validated url https r urls : fetch_loop turns n validated url https = (r, urls) ->
  (length urls <= turns)%nat /\ (urls = [] \/ exists rest, urls = url :: rest /\ follows validated https url rest).
Proof.
  revert n url r urls. induction turns as [|turns IH]; intros n url r urls; cbn [fetch_loop]; [intros [= _ <-]; by auto|].
  destruct (NewRequest url); cbn [negb]; [|intros [= _ <-]; cbn; by auto with lia].
  assert (forall r' : result Provisioning, (r', [url]) = (r, urls) ->
    (length urls <= S turns)%nat /\ (urls = [] \/ exists rest, urls = url :: rest /\ follows validated https url rest)) as Hone.
  { intros r' [= _ <-]. split; [cbn; lia|]. right. by exists []. }
  destruct (Do n validated url) as [resp|dns] eqn:ED; [|apply Hone].
  destruct (Z.eqb_spec (StatusCode resp) 307) as [E3|_].
  - destruct (Location resp) as [[next u]|] eqn:EL; [|apply Hone].
    destruct (https && negb (bool_decide (Scheme u = str "https"))) eqn:Es; [apply Hone|].
    destruct (fetch_loop turns (S n) validated next https) as [r' urls'] eqn:E. intros [= <- <-].
    apply IH in E as [Hlen Hu]. split; [cbn; lia|]. right. exists urls'. split; [done|].
    destruct Hu as [->|(rest & -> & Hf)]; [done|]. split; [|done]. exists n, resp, u. split_and!; try done.
    intros ->. cbn in Es. by apply negb_false_iff, bool_decide_eq_true in Es.
  - destruct (StatusCode resp =? 200); [|apply Hone]. destruct (Body resp) as [body|]; [|apply Hone].
    destruct (maxResponseBytes <? zlen body); apply Hone.
Qed.

(** A fetch that gives a provisioning has it from a body of at most a mebibyte that a
    server answered with status 200. *)
Lemma fetch_loop_ok turns n validated url https p urls : fetch_loop turns n validated url https = (Ok p, urls) ->
  exists k last resp body, Do k validated last = inl resp /\ StatusCode resp = 200 /\ Body resp = Some body
    /\ zlen body <= maxResponseBytes /\ decodeProvisioning body = Ok p /\ List.last urls [] = last /\ urls <> [].
Proof.
  revert n url urls. induction turns as [|turns IH]; intros n url urls; cbn [fetch_loop]; [done|].
  destruct (NewRequest url); cbn [negb]; [|done].
  destruct (Do n validated url) as [resp|dns] eqn:ED; [|done].
  destruct (Z.eqb_spec (StatusCode resp) 307) as [E3|_].
  - destruct (Location resp) as [[next u]|]; [|done]. destruct (https && negb _); [done|].
    destruct (fetch_loop turns (S n) validated next https) as [r' urls'] eqn:E. intros [= -> <-].
    apply IH in E as (k & last & resp' & body & HD & Hs & Hb & Hz & Hp & Hl & Hne).
    exists k, last, resp', body. split_and!; try done. by destruct urls'.
  - destruct (Z.eqb_spec (StatusCode resp) 200) as [E2|]; [|done]. destruct (Body resp) as [body|] eqn:Eb; [|done].
    destruct (Z.ltb_spec maxResponseBytes (zlen body)); [done|]. intros [= E <-].
    exists n, url, resp, body. split_and!; done.
Qed.

Lemma first_record_Some recs info : first_record recs = Some info -> exists rec, rec ∈ recs /\ parseTXTRecord rec = Ok info.
Proof.
  induction recs as [|rec recs IH]; cbn [first_record]; [done|]. destruct (parseTXTRecord rec) as [i|e] eqn:E.
  - intros [= ->]. exists rec. split; [by left|done].
  - intros (rec' & Hin & Hp)%IH. exists rec'. split; [by right|done].
Qed.

(** A record accepted is of the protocol's version and names a host over http or https,
    over https if certificates are to be validated. *)
Lemma parseTXTRecord_ok rec info : parseTXTRecord rec = Ok info ->
  kv_get (record_kv rec) "v" = txtVersion /\ kv_get (record_kv rec) "url" = serverURL info
  /\ exists u, url_Parse (serverURL info) = Some u /\ Host u <> []
       /\ (Scheme u = str "https" \/ ValidateCert info = false /\ Scheme u = str "http").
Proof.
  unfold parseTXTRecord. case_bool_decide as Hv; cbn [negb]; [|done]. case_bool_decide as Hu; [done|].
  destruct (url_Parse _) as [u|] eqn:E; [|done]. case_bool_decide as Hh; [done|].
  case_bool_decide as Ha; [|case_bool_decide as Hb; [|done]].
  - case_bool_decide as H1; [|case_bool_decide as H2]; cbn; try done; intros [= <-]; cbn [serverURL ValidateCert]; eauto 10.
  - case_bool_decide as H2; cbn; [|done]. intros [= <-]. cbn [serverURL ValidateCert]. eauto 10.
Qed.

(** A client's information as the server wants it. *)
Definition not_offered : Prop :=
  match LookupTXT discoveryDomain with
  | inr e => isDNS e = true /\ IsNotFound e = true
  | inl recs => first_record recs = None
  end.

Lemma lookupServer_not_offered e : lookupServer = Err e -> ((exists s, e = ErrNotProvisioned s) <-> not_offered).
Proof.
  unfold lookupServer, not_offered. destruct (LookupTXT discoveryDomain) as [recs|le].
  - destruct (first_record recs); [done|]. intros [= <-]. naive_solver.
  - destruct (isDNS le), (IsNotFound le); intros [= <-]; naive_solver.
Qed.

Lemma requestURL_err base c e : requestURL base c = Err e -> exists s, e = OtherError s.
Proof. unfold requestURL, validate. repeat (case_match; try done); intros [= <-]; simplify_eq; eauto. Qed.

Lemma decodeProvisioning_err body e : decodeProvisioning body = Err e -> exists s, e = OtherError s.
Proof. unfold decodeProvisioning. repeat (case_match; try done); intros [= <-]; eauto. Qed.

Lemma fetch_loop_err turns n validated url https e urls : fetch_loop turns n validated url https = (Err e, urls) ->
  forall s, e <> ErrNotProvisioned s.
Proof.
  revert n url urls. induction turns as [|turns IH]; intros n url urls; cbn [fetch_loop]; [by intros [= <- _]|].
  destruct (NewRequest url); cbn [negb]; [|by intros [= <- _]].
  destruct (Do n validated url) as [resp|[]]; [|by intros [= <- _]..].
  destruct (StatusCode resp =? 307).
  - destruct (Location resp) as [[next u]|]; [|by intros [= <- _]]. destruct (https && negb _); [by intros [= <- _]|].
    destruct (fetch_loop turns (S n) validated next https) as [r' urls'] eqn:E. intros [= -> _]. by eapply IH.
  - destruct (StatusCode resp =? 200); [|by intros [= <- _]]. destruct (Body resp) as [body|]; [|by intros [= <- _]].
    destruct (maxResponseBytes <? zlen body); [by intros [= <- _]|]. intros [= E _]. apply decodeProvisioning_err in E as [s ->]. done.
Qed.

Lemma resolveAFTR_err aftr e : resolveAFTR aftr = Err e -> forall s, e <> ErrNotProvisioned s.
Proof. unfold resolveAFTR. repeat (case_match; try done); by intros [= <-]. Qed.

Lemma Discover_not_offered {G} `{Random G} c (g : G) e : Discover c g = Err e -> ((exists s, e = ErrNotProvisioned s) <-> not_offered).
Proof.
  unfold Discover. destruct lookupServer as [server|e'] eqn:El; cbn [mbind result_bind].
  - assert (~ not_offered) as Hno.
    { revert El. unfold lookupServer, not_offered. destruct (LookupTXT discoveryDomain) as [recs|le]; [by destruct (first_record recs)|].
      by destruct (isDNS le), (IsNotFound le). }
    assert (forall e', Err (A := Result) e' = Err e -> (forall s, e' <> ErrNotProvisioned s) ->
      ((exists s, e = ErrNotProvisioned s) <-> not_offered)) as Hother by naive_solver.
    destruct (requestURL (serverURL server) c) as [url|e'] eqn:Er; cbn [mbind result_bind].
    2: { intros E. apply (Hother _ E). by apply requestURL_err in Er as [s ->]. }
    unfold fetchProvisioning. destruct (fetch_loop _ _ _ _ _) as [[p|e'] urls] eqn:Ef; cbn [fst mbind result_bind].
    2: { intros E. apply (Hother _ E). by eapply fetch_loop_err. }
    destruct (DSLite p) as [aftr|]; [|done]. destruct (resolveAFTR aftr) as [a|e'] eqn:Ea; cbn [mbind result_bind]; [done|].
    intros E. apply (Hother _ E). by eapply resolveAFTR_err.
  - intros [= ->]. by apply lookupServer_not_offered.
Qed.
End Promises.

Lemma RefreshInterval_range {G} `{RandomLaws G} p (g : G) : Second <= RefreshInterval p g <= maxTTLSeconds * Second.
Proof.
  unfold RefreshInterval, defaultRefreshMin, defaultRefreshMax, maxTTLSeconds, Hour, Second.
  pose proof (draw_range (24 * (3600 * 1000000000) - 20 * (3600 * 1000000000)) g ltac:(lia)).
  destruct (TTL p) as [t|]; [destruct (Z.ltb_spec 0 t)|]; lia.
Qed.

Lemma randInterval_bounds {G} `{RandomLaws G} lo hi (g : G) : lo < hi -> lo <= randInterval lo hi g <= hi.
Proof. intros Hlt. unfold randInterval. pose proof (draw_range (hi - lo) g ltac:(lia)). lia. Qed.

(** A request says who is asking, and a server reads it: for information that
    validates, the URL is the server's with a query appended from which the parameters
    -- vendor, product, version, capabilities joined by commas, the token if there is
    one -- are read back exactly. *)
Lemma requestURL_reads_back base c : client_bytes c -> validate c = None ->
  exists q, requestURL base c = Ok (base ++ (if bool_decide (0x3F ∈ base) then [0x26] else [0x3F]) ++ q)
    /\ read_query q = parameters c.
Proof.
  intros Hb Hv. unfold requestURL. rewrite Hv, fold_add. exists (encodes (parameters c)). split; [by case_bool_decide|].
  apply read_encodes; [done|by apply parameters_plain].
Qed.

(** C36: a server chosen for its certificate is not left for one without.  A discovery
    that succeeds asked at most six times, first the server of a well-formed record of
    the resolver with the client's request, then only where a 307 answer pointed; when
    the record asks for validation every server is reached over https with
    certificates validated.  Its answer is a 200 of at most a mebibyte, its refresh
    interval between a second and seven days, and its AFTR the one the answer names. *)
Theorem Discover_guarded `{World} {G} `{RandomLaws G} c (g : G) r : Discover c g = Ok r ->
  exists rec u reqURL rest,
    (exists recs, LookupTXT discoveryDomain = inl recs /\ rec ∈ recs) /\ parseTXTRecord rec = Ok (Server r)
    /\ url_Parse (serverURL (Server r)) = Some u /\ (ValidateCert (Server r) = true -> Scheme u = str "https")
    /\ requestURL (serverURL (Server r)) c = Ok reqURL
    /\ follows (ValidateCert (Server r)) (ValidateCert (Server r)) reqURL rest /\ (length rest <= maxRedirects)%nat
    /\ (exists k resp body, Do k (ValidateCert (Server r)) (List.last rest reqURL) = inl resp /\ StatusCode resp = 200
          /\ Body resp = Some body /\ zlen body <= maxResponseBytes /\ decodeProvisioning body = Ok (resProvisioning r))
    /\ Second <= resRefreshInterval r <= maxTTLSeconds * Second
    /\ match DSLite (resProvisioning r) with
       | None => AFTRAddr r = AInvalid
       | Some aftr => AFTRName r = aftr /\ resolveAFTR aftr = Ok (AFTRAddr r)
       end.
Proof.
  unfold Discover. intros (server & El & E)%result_bind_inv. apply result_bind_inv in E as (reqURL & Er & E).
  apply result_bind_inv in E as (p & Ef & E). unfold fetchProvisioning in Ef.
  destruct (fetch_loop _ _ _ _ _) as [r' urls] eqn:Efl. cbn [fst] in Ef. subst r'.
  destruct (fetch_loop_urls _ _ _ _ _ _ _ Efl) as [Hlen Hurls].
  destruct (fetch_loop_ok _ _ _ _ _ _ _ Efl) as (k & last & resp & body & HD & Hs & Hb & Hz & Hp & Hl & Hne).
  destruct Hurls as [->|(rest & -> & Hf)]; [done|].
  assert (exists rec recs, LookupTXT discoveryDomain = inl recs /\ rec ∈ recs /\ parseTXTRecord rec = Ok server) as (rec & recs & ER & Hin & HP).
  { revert El. unfold lookupServer. destruct (LookupTXT discoveryDomain) as [recs|le].
    - destruct (first_record recs) as [i|] eqn:Ei; [|done]. intros [= ->]. apply first_record_Some in Ei as (rec & ? & ?). by exists rec, recs.
    - by destruct (isDNS le), (IsNotFound le). }
  destruct (parseTXTRecord_ok _ _ HP) as (_ & _ & u & Eu & _ & Hsch).
  pose proof (RefreshInterval_range p g) as Href.
  assert (exists addr name, r = mkResult p server name addr (RefreshInterval p g)
    /\ match DSLite p with None => addr = AInvalid | Some aftr => name = aftr /\ resolveAFTR aftr = Ok addr end) as (addr & name & -> & Haf).
  { destruct (DSLite p) as [aftr|]; [apply result_bind_inv in E as (a & Ea & E)|]; injection E as <-; eauto 10. }
  exists rec, u, reqURL, rest. cbn [Server resProvisioning resRefreshInterval AFTRName AFTRAddr]. split_and!; try done; try lia.
  - by exists recs.
  - intros Hv. destruct Hsch as [?|[Hf' _]]; [done|congruence].
  - cbn [length] in Hlen. lia.
  - exists k, resp, body. split_and!; try done. by rewrite <- (last_cons_default reqURL []), Hl.
Qed.

(** Each failure is retried in the window the protocol gives its class: a provider
    that does not offer the service (the name does not exist, or none of its records
    parses) in one to three hours, and only that one; a resolver's failure in one to ten
    minutes; anything else in ten to thirty. *)
Lemma retry_windows `{World} {G} `{RandomLaws G} c (g : G) e : Discover c g = Err e ->
  (not_offered -> 1 * Hour <= RetryDelay e g <= 3 * Hour)
  /\ (~ not_offered -> 1 * Minute <= RetryDelay e g <= 30 * Minute)
  /\ (forall s, e = DNSError s -> 1 * Minute <= RetryDelay e g <= 10 * Minute)
  /\ (forall s, e = OtherError s -> 10 * Minute <= RetryDelay e g <= 30 * Minute).
Proof.
  intros E. pose proof (Discover_not_offered c g e E) as Hn.
  assert (forall lo hi, lo < hi -> lo <= randInterval lo hi g <= hi) as Hr by (intros; by apply randInterval_bounds).
  unfold RetryDelay, notProvisionedMin, notProvisionedMax, dnsFailureMin, dnsFailureMax, httpFailureMin, httpFailureMax.
  assert (Minute = 60 * Second /\ Hour = 3600 * Second /\ 0 < Second) as (Em & Eh & Hs) by done.
  destruct e as [s|s|s].
  - pose proof (Hr (1 * Hour) (3 * Hour) ltac:(lia)). split; [lia|]. split; [intros []; by apply Hn; eexists|done].
  - pose proof (Hr (1 * Minute) (10 * Minute) ltac:(lia)).
    split; [intros Hx; by apply Hn in Hx as [? ?]|]. split; [lia|]. split; [by intros|done].
  - pose proof (Hr (10 * Minute) (30 * Minute) ltac:(lia)).
    split; [intros Hx; by apply Hn in Hx as [? ?]|]. split; [lia|]. split; [done|by intros].
Qed.

(** ** Samples *)

#[local] Instance sample_draw : Random unit := { draw n g := (Z.min n Second, g) }.
#[local] Instance sample_draw_laws : RandomLaws unit.
Proof. split. intros n []. cbn. unfold Second. lia. Qed.

Definition sample_record : bytes := str "v=v6mig-1 x=1 url=https://vne.example.jp/rule.cgi t=b".
Definition sample_answer : Provisioning :=
  mkProvisioning (str "vne") [] [] [] [] false (Some 86400) (Some [str "dslite"]) (Some (str "aftr.example.jp")).
Definition sample_aftr : Addr := A6 0x20010db8000000000000000000000002 "".

(** A resolver with one record; a server that redirects once and then answers. *)
Definition sample_world : World := {|
  url_Parse b := Some (mkURL (if bool_decide (take 5 b = str "https") then str "https" else str "http") (str "vne.example.jp"));
  LookupTXT _ := inl [str "other"; sample_record];
  LookupNetIP _ := inl [sample_aftr];
  NewRequest _ := true;
  Do n _ _ := inl (match n with
    | O => mkResponse 307 (Some (str "https://b.example.jp/", mkURL (str "https") (str "b.example.jp"))) None
    | _ => mkResponse 200 None (Some (str "{}")) end);
  Decode _ := Some (sample_answer, true) |}.

(** A resolver without it. *)
Definition bare_world : World := {|
  url_Parse _ := None; LookupTXT _ := inr (mkLookupError true true); LookupNetIP _ := inl [];
  NewRequest _ := true; Do _ _ _ := inr false; Decode _ := None |}.

Definition sample_client : ClientInfo :=
  mkClientInfo (str "acde48-v6pc_swg_hgw") (str "V6MIG-ROUTER") (str "1_32") [str "dslite"; str "map_e"] [].

Definition sample_server : ServerInfo := mkServerInfo (str "https://vne.example.jp/rule.cgi") true.
Definition sample_result : Result :=
  mkResult sample_answer sample_server (str "aftr.example.jp") sample_aftr (86400 * Second).

Lemma sample_client_bytes : client_bytes sample_client.
Proof. repeat split; apply (bool_decide_unpack _); vm_compute; exact I. Qed.
Lemma sample_discovery : @Discover sample_world unit _ sample_client tt = Ok sample_result.
Proof. vm_compute. reflexivity. Qed.
Lemma bare_discovery : @Discover bare_world unit _ sample_client tt = Err (ErrNotProvisioned "hb46pp: no v6mig-1 TXT record").
Proof. vm_compute. reflexivity. Qed.

Lemma requestURL_reads_back_witness : exists q,
  requestURL (str "https://vne.example.jp/rule.cgi") sample_client = Ok (str "https://vne.example.jp/rule.cgi?" ++ q)
  /\ read_query q = parameters sample_client.
Proof.
  destruct (requestURL_reads_back (str "https://vne.example.jp/rule.cgi") sample_client sample_client_bytes eq_refl) as (q & Hq & Hr).
  exists q. split; [|exact Hr]. rewrite Hq. rewrite bool_decide_eq_false_2 by (apply (bool_decide_unpack _); vm_compute; exact I). reflexivity.
Defined.

Lemma Discover_guarded_witness : exists k resp rest, @Do sample_world k true (List.last rest []) = inl resp /\ StatusCode resp = 200.
Proof.
  destruct (@Discover_guarded sample_world unit _ _ sample_client tt sample_result sample_discovery)
    as (rec & u & reqURL & rest & _ & _ & _ & _ & _ & _ & _ & (k & resp & body & HD & Hs & _) & _).
  exists k, resp, (reqURL :: rest). split; [|exact Hs]. rewrite last_cons_default. exact HD.
Defined.

Lemma retry_windows_witness :
  1 * Hour <= RetryDelay (ErrNotProvisioned "hb46pp: no v6mig-1 TXT record") tt <= 3 * Hour.
Proof.
  destruct (@retry_windows bare_world unit _ _ sample_client tt _ bare_discovery) as [H _].
  apply H. split; reflexivity.
Defined.
