(* ===== verification/Provhttp.v ===== *)
(** How HB46PP reaches the network: src/pkg/hb46pp/transport.go.  The resolver over given
    DNS servers, and the HTTP client whose dial function keeps to IPv6, with the two
    functions of net it takes addresses apart and together with.

    The lookups, and whether a dial succeeds, are parameters. *)

From S2P Require Import Prelude Wire Netip Text Routeradvert Hb46pp.

Local Open Scope Z_scope.

(** ** net.SplitHostPort and net.JoinHostPort *)

Definition colon : Z := 0x3A.
Definition lbracket : Z := 0x5B.
Definition rbracket : Z := 0x5D.

Definition contains (c : Z) (b : bytes) : bool := bool_decide (c ∈ b).

(** What is before the last [c], and after it. *)
Definition cut_last (c : Z) (b : bytes) : option (bytes * bytes) :=
  match Cut c (rev b) with Some (x, y) => Some (rev y, rev x) | None => None end.

(** The error is not told apart. *)
Definition SplitHostPort (hostport : bytes) : option (bytes * bytes) :=
  match cut_last colon hostport with
  | None => None
  | Some (before, port) =>
    match hostport with
    | c :: rest =>
      if c =? lbracket then
        match Cut rbracket rest with
        | None => None
        | Some (host, after) =>
          if negb (bool_decide (after = colon :: port)) then None      (* end + 1 is the last colon *)
          else if contains lbracket (host ++ rbracket :: after) || contains rbracket after then None
          else Some (host, port)
        end
      else if contains colon before || contains lbracket hostport || contains rbracket hostport then None
      else Some (before, port)
    | [] => None
    end
  end.

Definition JoinHostPort (host port : bytes) : bytes :=
  if contains colon host then [lbracket] ++ host ++ [rbracket; colon] ++ port else host ++ [colon] ++ port.

(** ** Dialing *)

(** What is dialed: the text given, or an address and a port. *)
Inductive endpoint : Type := Literal (hostport : bytes) | At (a : Addr) (port : bytes).

(** httpTimeout. *)
Definition httpTimeout : Z := 30 * Second.

Section Transport.
(** Whether connecting over a network works. *)
Context (connect : bytes -> endpoint -> bool).

(** The loop over addresses, in order: the connection made, if one was, and what was
    tried. *)
Fixpoint dial_first (network : bytes) (addrs : list Addr) (port : bytes) : option endpoint * list (bytes * endpoint) :=
  match addrs with
  | [] => (None, [])
  | a :: addrs =>
    if connect network (At a port) then (Some (At a port), [(network, At a port)])
    else let '(r, tried) := dial_first network addrs port in (r, (network, At a port) :: tried)
  end.

Definition dialServers (servers : list Addr) (network : bytes) : outcome endpoint * list (bytes * endpoint) :=
  let '(r, tried) := dial_first network servers (str "53") in
  (match r with Some e => Ret e | None => Fail "dialing DNS servers" end, tried).

(** [None]: the system's resolver. *)
Definition newResolver (servers : list Addr) : option (bytes -> outcome endpoint * list (bytes * endpoint)) :=
  if bool_decide (servers = []) then None else Some (dialServers servers).

(** The client's dial function; [lookup]: the resolver's LookupNetIP, of a network and a
    host. *)
Definition dial (lookup : bytes -> bytes -> list Addr + LookupError) (addr : bytes) : outcome endpoint * list (bytes * endpoint) :=
  match SplitHostPort addr with
  | None => (Fail "address", [])
  | Some (host, port) =>
    match ParseAddr host with
    | Some ip =>
      if negb (Is6 ip) || Is4In6 ip then (Fail "hb46pp: provisioning server address is not IPv6", [])
      else (if connect (str "tcp6") (Literal addr) then Ret (Literal addr) else Fail "dial", [(str "tcp6", Literal addr)])
    | None =>
      match lookup (str "ip6") host with
      | inr _ => (Fail "hb46pp: resolving provisioning server", [])
      | inl addrs =>
        let '(r, tried) := dial_first (str "tcp6") addrs port in
        (match r with Some e => Ret e | None => Fail "hb46pp: dialing provisioning server" end, tried)
      end
    end
  end.

(** http.Client as newHTTPClient fills it: [CheckRedirect] false is ErrUseLastResponse. *)
Record HTTPClient : Type := mkClient {
  DialContext : bytes -> outcome endpoint * list (bytes * endpoint);
  InsecureSkipVerify : bool; Timeout : Z; CheckRedirect : bool }.

Definition newHTTPClient (lookup : bytes -> bytes -> list Addr + LookupError) (validateCert : bool) : HTTPClient :=
  mkClient (dial lookup) (negb validateCert) httpTimeout false.

(** ** Only over IPv6, the first that answers *)

Lemma dial_first_spec network addrs port : let '(r, tried) := dial_first network addrs port in
  exists before after, addrs = before ++ after /\ Forall (fun a => connect network (At a port) = false) before /\
    match r with
    | Some e => exists a after', after = a :: after' /\ e = At a port /\ connect network e = true /\
        tried = (fun a => (network, At a port)) <$> before ++ [a]
    | None => after = [] /\ tried = (fun a => (network, At a port)) <$> before
    end.
Proof.
  induction addrs as [|a addrs IH]; [by exists [], []|]. cbn [dial_first]. destruct (connect network (At a port)) eqn:Ec.
  - exists [], (a :: addrs). split; [done|]. split; [done|]. exists a, addrs. done.
  - destruct (dial_first network addrs port) as [r tried]. destruct IH as (before & after & -> & Hb & Hr).
    exists (a :: before), after. split; [done|]. split; [by constructor|].
    destruct r as [e|]; [destruct Hr as (a' & after' & -> & -> & Hc & ->); by exists a', after'|].
    destruct Hr as [-> ->]. done.
Qed.

(** An endpoint of the server named by [host]. *)
Definition of_host (lookup : bytes -> bytes -> list Addr + LookupError) (addr host port : bytes) (e : endpoint) : Prop :=
  match e with
  | Literal t => t = addr /\ exists ip, ParseAddr host = Some ip /\ Is6 ip = true /\ Is4In6 ip = false
  | At a p => p = port /\ ParseAddr host = None /\ exists addrs, lookup (str "ip6") host = inl addrs /\ a ∈ addrs
  end.

(** The client connects to the server over IPv6 or not at all: whatever is dialed is
    dialed over tcp6, and is either the IPv6 literal of the URL or an address the
    AAAA lookup of its host gave, tried in order up to the first that connects; it does
    not follow a redirect by itself, and skips verification only if asked to. *)
Lemma provisioning_ipv6_only lookup validateCert addr :
  let c := newHTTPClient lookup validateCert in
  let '(r, tried) := DialContext c addr in
  InsecureSkipVerify c = negb validateCert /\ CheckRedirect c = false /\
  (forall t, t ∈ tried -> t.1 = str "tcp6" /\
     exists host port, SplitHostPort addr = Some (host, port) /\ of_host lookup addr host port t.2) /\
  (forall e, r = Ret e -> connect (str "tcp6") e = true /\ last tried = Some (str "tcp6", e)) /\
  (forall t e, (t, e) ∈ tried -> r <> Ret e -> connect t e = false).
Proof.
  cbv zeta. unfold newHTTPClient. cbn [DialContext InsecureSkipVerify CheckRedirect]. unfold dial.
  destruct (SplitHostPort addr) as [[host port]|] eqn:Es.
  2: { split_and!; try done; intros; by match goal with H : _ ∈ [] |- _ => apply not_elem_of_nil in H end. }
  destruct (ParseAddr host) as [ip|] eqn:Ep.
  - destruct (negb (Is6 ip) || Is4In6 ip) eqn:E6.
    { split_and!; try done; intros; by match goal with H : _ ∈ [] |- _ => apply not_elem_of_nil in H end. }
    apply orb_false_elim in E6 as [E6%negb_false_iff E4]. split; [done|]. split; [done|].
    split; [intros t Ht; apply list_elem_of_singleton in Ht as ->; split; [done|]; exists host, port; split; [done|]; split; [done|by exists ip]|].
    destruct (connect (str "tcp6") (Literal addr)) eqn:Ec.
    + split; [by intros e [= <-]|]. intros t e Ht Hne. apply list_elem_of_singleton in Ht as [= -> ->]. done.
    + split; [done|]. intros t e Ht _. by apply list_elem_of_singleton in Ht as [= -> ->].
  - destruct (lookup (str "ip6") host) as [addrs|e] eqn:El.
    2: { split_and!; try done; intros; by match goal with H : _ ∈ [] |- _ => apply not_elem_of_nil in H end. }
    pose proof (dial_first_spec (str "tcp6") addrs port) as Hd. destruct (dial_first (str "tcp6") addrs port) as [r tried].
    destruct Hd as (before & after & Ha & Hb & Hr). rewrite Forall_forall in Hb. split; [done|]. split; [done|].
    assert (forall a, a ∈ addrs -> exists host' port', Some (host, port) = Some (host', port') /\ of_host lookup addr host' port' (At a port)) as Hof.
    { intros a Hin. exists host, port. split; [done|]. split; [done|]. split; [done|]. by exists addrs. }
    destruct r as [e|].
    + destruct Hr as (a & after' & -> & -> & Hc & ->). split; [|split].
      * intros t (b & -> & Hin)%list_elem_of_fmap. split; [done|]. apply Hof. rewrite Ha. rewrite elem_of_app in Hin |- *.
        destruct Hin as [Hin|Hin%list_elem_of_singleton]; [by left|right; subst b; by left].
      * intros e [= <-]. split; [done|]. by rewrite fmap_app, last_app.
      * intros t e (b & [= -> ->] & Hin)%list_elem_of_fmap Hne. apply elem_of_app in Hin as [Hin|Hin%list_elem_of_singleton]; [by apply Hb|congruence].
    + destruct Hr as [-> ->]. rewrite app_nil_r in Ha. subst before. split; [|split; [done|]].
      * intros t (b & -> & Hin)%list_elem_of_fmap. split; [done|]. by apply Hof.
      * intros t e (b & [= -> ->] & Hin)%list_elem_of_fmap _. by apply Hb.
Qed.
End Transport.

(** ** Samples *)

Lemma split_samples :
  SplitHostPort (str "vne.example.jp:443") = Some (str "vne.example.jp", str "443") /\
  SplitHostPort (str "[2001:db8::1]:443") = Some (str "2001:db8::1", str "443") /\
  SplitHostPort (str "2001:db8::1:443") = None /\ SplitHostPort (str "[2001:db8::1]") = None /\
  SplitHostPort (str "host") = None /\ SplitHostPort (str "[::1]x:80") = None /\ SplitHostPort (str "a]:80") = None.
Proof. vm_compute. done. Qed.

(** The literal of an IPv4 server is refused before anything is dialed. *)
Lemma ipv4_literal_refused connect lookup :
  dial connect lookup (str "192.0.2.1:443") = (Fail "hb46pp: provisioning server address is not IPv6", []) /\
  dial connect lookup (str "[::ffff:192.0.2.1]:443") = (Fail "hb46pp: provisioning server address is not IPv6", []).
Proof. by split. Qed.
