(* ===== verification/Aftrdiscovery.v ===== *)
(** AFTR discovery over DHCPv6: src/pkg/aftrdiscovery (discover.go, dnsname.go,
    resolve.go).  An Information-Request asks for the AFTR's name and for DNS servers,
    and the name is resolved.

    A domain name's text is its bytes.  The exchange (Dhcpv6Client.v runs it), the
    context's deadline and the resolver are arguments (the class [Net]). *)

From S2P Require Import Prelude Wire Netip Dhcpv6.

Local Open Scope Z_scope.

(** ** Names on the wire (dnsname.go) *)

Definition maxDomainNameLength : Z := 255.

(** The loop of decodeDNSName from offset [i]: the labels, their length, and the offset
    past the terminating label.  Each round reads a byte at least, so [S (length data)]
    rounds are enough (running out would show as a panic). *)
Fixpoint labels_loop (fuel : nat) (data : bytes) (i nameLen : Z) (labels : list bytes) : outcome (list bytes * Z * Z) :=
  match fuel with
  | O => Panic
  | S fuel =>
    if zlen data <=? i then Fail "aftrdiscovery: truncated name, missing terminating zero-length label"
    else
      n ← idx data i;
      if negb (Z.land n 0xC0 =? 0) then Fail "aftrdiscovery: invalid label length byte"
      else
        let i := i + 1 in
        if n =? 0 then Ret (labels, nameLen, i)
        else if zlen data <? i + n then Fail "aftrdiscovery: label runs past end of option data"
        else
          label ← slice data i (i + n);
          labels_loop fuel data (i + n) (nameLen + (n + 1)) (labels ++ [label])
  end.

(** The labels with a dot between them: the loop [for i, l := range labels] has the
    name so far and whether a label came before. *)
Definition join_labels (labels : list bytes) : bytes :=
  fst (fold_left (fun '(name, first) l => ((if first : bool then name else name ++ [0x2E]) ++ l, false)) labels ([], true)).

Definition decodeDNSName (data : bytes) : outcome bytes :=
  '(labels, nameLen, i) ← labels_loop (S (length data)) data 0 0 [];
  if negb (i =? zlen data) then Fail "aftrdiscovery: trailing byte(s) after terminating label"
  else if maxDomainNameLength <? nameLen then Fail "aftrdiscovery: decoded name exceeds 255 octets"
  else Ret (join_labels labels).

(** ** Resolving the name (resolve.go) *)

(** dialServers: the server a dial reaches, of the ones that can be reached when it is
    made. *)
Fixpoint dialServers (servers : list Addr) (reachable : Addr -> bool) : option Addr :=
  match servers with
  | [] => None
  | s :: servers => if reachable s then Some s else dialServers servers reachable
  end.

(** The error of an exchange: the context's deadline, or any other. *)
Inductive exchange_error : Type := DeadlineExceeded | ExchangeError (e : string).

Class Net : Type := {
  (** The exchange run until it is answered, within a timeout if there is one. *)
  Exchange_ : option Z -> Exchange -> Message + exchange_error;
  (** The caller's context has ended once the exchange has failed. *)
  ctx_Err : bool;
  (** The system's resolver, or one reaching its servers through the dial function; its
      error is a DNS error (net.DNSError) or another. *)
  LookupNetIP : option ((Addr -> bool) -> option Addr) -> bytes -> list Addr + bool }.

Section Discover.
Context `{Net}.

(** Beside the error, whether it wraps a DNS error. *)
Definition resolveAFTR (name : bytes) (dnsServers : list Addr) : Addr + (bool * string) :=
  let resolver := if 0 <? zlen dnsServers then Some (dialServers dnsServers) else None in
  match LookupNetIP resolver name with
  | inr dns => inr (dns, "resolving AFTR name"%string)
  | inl [] => inr (false, "AFTR name resolved to no addresses"%string)
  | inl (a :: _) => inl a
  end.

(** ** One discovery (discover.go) *)

Definition defaultRefreshInterval : Z := 24 * 3600 * Second.

Record Result : Type := mkResult { AFTRName : bytes; AFTRAddr : Addr; dnsServers : list Addr; RefreshInterval : Z }.

(** What Discover returns: the one case of both values is ErrNoAFTRName's. *)
Inductive discovered : Type :=
| Found (r : Result)
| ErrNoAFTRName (r : Result)
| ErrNoReply
| ErrExchange (e : string)
| ErrDecode (e : string)
| ErrResolve (dns : bool) (e : string)
| Crashed.

Definition requested : list Z := [OptionDNSServers; OptionAFTRName; OptionInformationRefreshTime].

Definition Discover (replyTimeout : Z) : discovered :=
  match Exchange_ (if 0 <? replyTimeout then Some replyTimeout else None) (InformationRequest requested) with
  | inr DeadlineExceeded =>
    if (0 <? replyTimeout) && negb ctx_Err then ErrNoReply else ErrExchange "aftrdiscovery: DHCPv6 information-request"
  | inr (ExchangeError _) => ErrExchange "aftrdiscovery: DHCPv6 information-request"
  | inl reply =>
    match DNSServers (Opts reply) with
    | Panic => Crashed
    | read =>
      let servers := match read with Ret (Some l) => l | _ => [] end in
      let refresh := default defaultRefreshInterval (InformationRefreshTime (Opts reply)) in
      match Get (Opts reply) OptionAFTRName with
      | None => ErrNoAFTRName (mkResult [] AInvalid servers refresh)
      | Some opt =>
        match decodeDNSName (Data opt) with
        | Panic => Crashed
        | Fail e => ErrDecode ("aftrdiscovery: decoding OPTION_AFTR_NAME: " +:+ e)
        | Ret name =>
          match resolveAFTR name servers with
          | inr (dns, e) => ErrResolve dns ("aftrdiscovery: " +:+ e)
          | inl addr => Found (mkResult name addr servers refresh)
          end
        end
      end
    end
  end.
End Discover.

(** ** The wire format *)

Definition label_wf (l : bytes) : Prop := 1 <= zlen l <= 63 /\ is_bytes l.

#[export] Instance label_wf_dec l : Decision (label_wf l).
Proof. unfold label_wf. apply _. Defined.

(** The labels, each after its length, and the empty label. *)
Fixpoint encode_labels (ls : list bytes) : bytes :=
  match ls with [] => [0] | l :: ls => zlen l :: l ++ encode_labels ls end.

Fixpoint labels_len (ls : list bytes) : Z := match ls with [] => 0 | l :: ls => zlen l + 1 + labels_len ls end.

(** The text: dots between labels. *)
Fixpoint dotted (ls : list bytes) : bytes :=
  match ls with [] => [] | [l] => l | l :: ls => l ++ 0x2E :: dotted ls end.

Lemma zlen_encode ls : zlen (encode_labels ls) = labels_len ls + 1.
Proof. induction ls as [|l ls IH]; [done|]. cbn [encode_labels labels_len]. rewrite zlen_cons, zlen_app, IH. lia. Qed.

Lemma dotted_snoc l ls x : dotted ((l :: ls) ++ [x]) = dotted (l :: ls) ++ 0x2E :: x.
Proof.
  revert l. induction ls as [|y ls IH]; intros l; [done|]. cbn [app].
  change (dotted (l :: y :: ls ++ [x])) with (l ++ 0x2E :: dotted ((y :: ls) ++ [x])).
  rewrite IH. change (dotted (l :: y :: ls)) with (l ++ 0x2E :: dotted (y :: ls)). by rewrite <- app_assoc.
Qed.

Lemma join_labels_dotted ls : join_labels ls = dotted ls.
Proof.
  unfold join_labels.
  cut (fold_left (fun '(name, first) l => ((if first : bool then name else name ++ [0x2E]) ++ l, false)) ls ([], true)
       = (dotted ls, bool_decide (ls = []))); [by intros ->|].
  induction ls as [|x ls IH] using rev_ind; [done|]. rewrite fold_left_app, IH. cbn [fold_left].
  destruct ls as [|l ls]; [done|]. rewrite dotted_snoc. cbn [bool_decide decide_rel]. rewrite !bool_decide_eq_false_2 by done.
  by rewrite <- app_assoc.
Qed.

Lemma top_bits n : is_byte n -> (Z.land n 0xC0 =? 0) = (n <? 64).
Proof.
  intros Hn. assert (forallb (fun n => Bool.eqb (Z.land n 0xC0 =? 0) (n <? 64)) (seqZ 0 256) = true) as H by (vm_compute; reflexivity).
  rewrite forallb_forall in H. apply Bool.eqb_prop, H, list_elem_of_In, elem_of_seqZ. unfold is_byte in Hn. lia.
Qed.

(** The loop from any offset of the data: it comes back, and with what the bytes from
    there encode. *)
Lemma labels_loop_total data fuel : forall i len ls, is_bytes data -> 0 <= i <= zlen data -> zlen data < Z.of_nat fuel + i ->
  no_panic (labels_loop fuel data i len ls) = true.
Proof.
  induction fuel as [|fuel IH]; intros i len ls Hb Hi Hf; [lia|]. cbn [labels_loop].
  destruct (Z.leb_spec (zlen data) i) as [|Hl]; [done|]. apply bind_no_panic; [by rewrite idx_ok by lia|].
  intros n Hn. pose proof (is_bytes_idx _ _ _ Hb Hn) as Hnb. unfold is_byte in Hnb. case_match; [done|]. case_match; [done|].
  destruct (Z.ltb_spec (zlen data) (i + 1 + n)) as [|Hl']; [done|]. rewrite slice_ok, bind_ret by lia. apply IH; [done|lia..].
Qed.

Lemma labels_loop_encode ls : forall fuel p q len acc, Forall label_wf ls -> (length ls < fuel)%nat ->
  labels_loop fuel (p ++ encode_labels ls ++ q) (zlen p) len acc
  = Ret (acc ++ ls, len + labels_len ls, zlen p + zlen (encode_labels ls)).
Proof.
  induction ls as [|l ls IH]; intros fuel p q len acc Hls Hf; (destruct fuel as [|fuel]; [cbn in Hf; lia|]); cbn [labels_loop];
    pose proof (zlen_nonneg p); pose proof (zlen_nonneg q).
  - cbn [encode_labels labels_len]. rewrite (proj2 (Z.leb_gt _ _)) by zlen_lia.
    cbn [app]. rewrite idx_app_exact, bind_ret by done. cbn. rewrite app_nil_r. do 2 f_equal. f_equal; lia.
  - inversion Hls as [|? ? [Hl Hlb] Hls']; subst. cbn [encode_labels labels_len app]. rewrite <- app_assoc.
    pose proof (zlen_nonneg (encode_labels ls)). rewrite (proj2 (Z.leb_gt _ _)) by zlen_lia.
    rewrite idx_app_exact, bind_ret by done. rewrite top_bits by (unfold is_byte; lia).
    rewrite (proj2 (Z.ltb_lt _ _)), (proj2 (Z.eqb_neq _ _)) by lia. cbn [negb].
    rewrite (proj2 (Z.ltb_ge _ _)) by zlen_lia.
    rewrite (cons_middle (zlen l)), (app_assoc p).
    rewrite slice_app_exact, bind_ret by zlen_lia.
    specialize (IH fuel (p ++ [zlen l] ++ l) q (len + (zlen l + 1)) (acc ++ [l]) Hls' ltac:(cbn in Hf; lia)).
    replace ((p ++ [zlen l]) ++ l ++ encode_labels ls ++ q) with ((p ++ [zlen l] ++ l) ++ encode_labels ls ++ q) by by rewrite <- !app_assoc.
    replace (zlen p + 1 + zlen l) with (zlen (p ++ [zlen l] ++ l)) by zlen_lia.
    rewrite IH, <- app_assoc. do 2 f_equal; [f_equal; lia|]. zlen_lia.
Qed.

Lemma labels_loop_inv data fuel : forall i len acc r, is_bytes data -> 0 <= i -> labels_loop fuel data i len acc = Ret r ->
  exists ls q, Forall label_wf ls /\ drop (Z.to_nat i) data = encode_labels ls ++ q
    /\ r = (acc ++ ls, len + labels_len ls, i + zlen (encode_labels ls)).
Proof.
  induction fuel as [|fuel IH]; intros i len acc r Hb Hi; [done|]. cbn [labels_loop].
  destruct (Z.leb_spec (zlen data) i) as [|Hl]; [done|]. intros E. bind_inv E. rename a into n.
  pose proof (is_bytes_idx _ _ _ Hb E0) as Hn. rewrite top_bits in E by done. apply idx_inv in E0 as [_ Hlk].
  destruct (Z.ltb_spec n 64); [cbn [negb] in E|done]. unfold is_byte in Hn.
  destruct (Z.eqb_spec n 0) as [->|Hn0].
  - injection E as <-. exists [], (drop (S (Z.to_nat i)) data). split; [constructor|]. cbn [encode_labels labels_len app].
    split; [by apply drop_S|]. rewrite app_nil_r. do 2 f_equal. lia.
  - destruct (Z.ltb_spec (zlen data) (i + 1 + n)) as [|Hn1]; [done|]. bind_inv E. rename a into l.
    pose proof (is_bytes_slice _ _ _ _ Hb E0) as Hlb. apply slice_inv in E0 as (_ & Hsl & Hll).
    apply IH in E as (ls & q & Hls & Hd & ->); [|done|lia]. exists (l :: ls), q.
    split; [constructor; [split; [lia|done]|done]|]. cbn [encode_labels labels_len]. rewrite <- app_comm_cons, <- app_assoc, <- Hd.
    rewrite <- app_assoc. split; [|f_equal; [f_equal; lia|]; zlen_lia].
    rewrite (drop_S _ _ _ Hlk). f_equal; [lia|]. subst l.
    replace (Z.to_nat (i + 1 + n - (i + 1))) with (Z.to_nat n) by lia. replace (Z.to_nat (i + 1)) with (S (Z.to_nat i)) by lia.
    replace (Z.to_nat (i + 1 + n)) with (S (Z.to_nat i) + Z.to_nat n)%nat by lia. by rewrite <- drop_drop, take_drop.
Qed.

Lemma decode_total data : is_bytes data -> no_panic (decodeDNSName data) = true.
Proof.
  intros Hb. pose proof (zlen_nonneg data). unfold decodeDNSName.
  apply bind_no_panic; [apply labels_loop_total; [done|unfold zlen in *; lia..]|].
  intros [[ls len] i] _. repeat case_match; done.
Qed.

(** The decoder accepts exactly the names there are: labels of 1 to 63 bytes, each after
    its length, ended by the empty label and nothing after it, of at most 255 bytes
    before the terminator; the name is those labels with dots between. *)
Lemma decode_iff data name : is_bytes data -> decodeDNSName data = Ret name <->
  exists ls, Forall label_wf ls /\ labels_len ls <= maxDomainNameLength /\ data = encode_labels ls /\ name = dotted ls.
Proof.
  intros Hb. pose proof (zlen_nonneg data). unfold decodeDNSName. split.
  - intros E. bind_inv E. apply labels_loop_inv in E0 as (ls & q & Hls & Hd & ->); [|done|lia].
    destruct (Z.eqb_spec (0 + zlen (encode_labels ls)) (zlen data)) as [Hi|]; [cbn [negb] in E|done].
    destruct (Z.ltb_spec maxDomainNameLength (0 + labels_len ls)); [done|]. injection E as <-. exists ls.
    rewrite drop_0 in Hd. subst data. rewrite zlen_app in Hi. assert (q = []) as -> by (destruct q; [done|unfold zlen in Hi; cbn in Hi; lia]).
    rewrite app_nil_r. split_and!; try done; try lia. apply join_labels_dotted.
  - intros (ls & Hls & Hlen & -> & ->).
    pose proof (labels_loop_encode ls (S (length (encode_labels ls))) [] [] 0 [] Hls) as E. rewrite app_nil_r in E.
    change (zlen []) with 0 in E. cbn [app] in E. rewrite E, bind_ret.
    + rewrite Z.eqb_refl. cbn [negb]. rewrite (proj2 (Z.ltb_ge _ _)) by lia. by rewrite join_labels_dotted.
    + pose proof (zlen_encode ls). assert (zlen ls <= labels_len ls) by
        (clear -Hls; induction Hls as [|l ls [? ?] ? IH]; [done|]; cbn [labels_len]; rewrite zlen_cons; lia). unfold zlen in *. lia.
Qed.

(** ** What a reply teaches *)

(** The servers of a DNS servers option, 16 bytes each; none if it is malformed. *)
Fixpoint addresses (n : nat) (b : bytes) : list Addr :=
  match n with O => [] | S n => AddrFrom16 (take 16 b) :: addresses n (drop 16 b) end.

Definition learned_servers (o : Options) : list Addr :=
  match Get o OptionDNSServers with
  | None => []
  | Some opt => if zlen (Data opt) mod 16 =? 0 then addresses (Z.to_nat (zlen (Data opt) / 16)) (Data opt) else []
  end.

Definition learned_refresh (o : Options) : Z :=
  match Get o OptionInformationRefreshTime with
  | Some opt => if zlen (Data opt) =? 4 then unbe (Data opt) * Second else 24 * 3600 * Second
  | None => 24 * 3600 * Second
  end.

Lemma DNSServers_loop_ok data n : forall i, 0 <= i -> i + 16 * Z.of_nat n <= zlen data ->
  DNSServers_loop n data i = Ret (addresses n (drop (Z.to_nat i) data)).
Proof.
  induction n as [|n IH]; intros i Hi Hl; [done|]. cbn [DNSServers_loop addresses].
  rewrite slice_ok, bind_ret by lia. replace (Z.to_nat (i + 16 - i)) with 16%nat by lia.
  unfold AddrFromSlice. rewrite zlen_take, zlen_drop. rewrite (proj2 (Z.eqb_neq _ _)), (proj2 (Z.eqb_eq _ _)) by lia.
  rewrite IH, bind_ret, drop_drop by lia. by replace (Z.to_nat (i + 16)) with (Z.to_nat i + 16)%nat by lia.
Qed.

Lemma DNSServers_learned o :
  match DNSServers o with Panic => None | Ret (Some l) => Some l | _ => Some [] end = Some (learned_servers o).
Proof.
  unfold DNSServers, learned_servers. destruct (Get o OptionDNSServers) as [opt|]; [|done].
  destruct (Z.eqb_spec (zlen (Data opt) mod 16) 0) as [H16|]; [|done]. cbn [negb].
  pose proof (zlen_nonneg (Data opt)). rewrite DNSServers_loop_ok, bind_ret; [by rewrite drop_0|lia|].
  pose proof (Z.div_mod (zlen (Data opt)) 16). lia.
Qed.

Lemma Get_bytes o code opt : Forall opt_wf o -> Get o code = Some opt -> is_bytes (Data opt).
Proof.
  induction 1 as [|x o (_ & _ & Hx) Ho IH]; [done|]. cbn [Get]. case_match; [by intros [= <-]|done].
Qed.

(** A dial reaches the first server that can be reached. *)
Lemma dialServers_find servers reach : dialServers servers reach = List.find reach servers.
Proof. induction servers as [|s servers IH]; [done|]. cbn. case_match; done. Qed.

Section Outcomes.
Context `{Net}.

(** The name option names an AFTR that resolves, through the servers learned with it. *)
Inductive names (reply : Message) : bytes -> bytes -> Addr -> Prop :=
| names_intro ls addr rest :
  Forall label_wf ls -> labels_len ls <= maxDomainNameLength ->
  LookupNetIP (if bool_decide (learned_servers (Opts reply) = []) then None
               else Some (dialServers (learned_servers (Opts reply)))) (dotted ls) = inl (addr :: rest) ->
  names reply (encode_labels ls) (dotted ls) addr.

Lemma resolveAFTR_first name servers addr : resolveAFTR name servers = inl addr <->
  exists rest, LookupNetIP (if bool_decide (servers = []) then None else Some (dialServers servers)) name = inl (addr :: rest).
Proof.
  unfold resolveAFTR.
  replace (if 0 <? zlen servers then _ else _) with (if bool_decide (servers = []) then None else Some (dialServers servers))
    by (destruct servers as [|? l]; [done|]; rewrite zlen_cons; pose proof (zlen_nonneg l); by rewrite (proj2 (Z.ltb_lt _ _)) by lia).
  destruct (LookupNetIP _ _) as [[|a l]|e]; naive_solver.
Qed.

Lemma decode_names reply data name addr : is_bytes data ->
  names reply data name addr
  <-> decodeDNSName data = Ret name /\ resolveAFTR name (learned_servers (Opts reply)) = inl addr.
Proof.
  intros Hb. rewrite resolveAFTR_first. rewrite (decode_iff data name Hb). split.
  - intros [ls a rest Hls Hlen Hl]. eauto 10.
  - intros [(ls & Hls & Hlen & -> & ->) [rest Hl]]. by econstructor.
Qed.

(** The exchange Discover runs: DNS servers, the AFTR's name and the refresh time asked
    for, bounded only if the caller bounds it. *)
Definition asked (replyTimeout : Z) : Message + exchange_error :=
  Exchange_ (if 0 <? replyTimeout then Some replyTimeout else None) (InformationRequest [23; 64; 32]).

Lemma Discover_asked t : Discover t =
  match asked t with
  | inr DeadlineExceeded =>
    if (0 <? t) && negb ctx_Err then ErrNoReply else ErrExchange "aftrdiscovery: DHCPv6 information-request"
  | inr (ExchangeError _) => ErrExchange "aftrdiscovery: DHCPv6 information-request"
  | inl reply =>
    let servers := learned_servers (Opts reply) in
    let refresh := learned_refresh (Opts reply) in
    match Get (Opts reply) OptionAFTRName with
    | None => ErrNoAFTRName (mkResult [] AInvalid servers refresh)
    | Some opt =>
      match decodeDNSName (Data opt) with
      | Panic => Crashed
      | Fail e => ErrDecode ("aftrdiscovery: decoding OPTION_AFTR_NAME: " +:+ e)
      | Ret name =>
        match resolveAFTR name servers with
        | inr (dns, e) => ErrResolve dns ("aftrdiscovery: " +:+ e)
        | inl addr => Found (mkResult name addr servers refresh)
        end
      end
    end
  end.
Proof.
  unfold Discover, asked. change requested with [23; 64; 32]. destruct (Exchange_ _ _) as [reply|[|e]]; [|done..].
  assert (default defaultRefreshInterval (InformationRefreshTime (Opts reply)) = learned_refresh (Opts reply)) as ->.
  { unfold InformationRefreshTime, learned_refresh. destruct (Get _ _) as [opt|]; [|done]. by destruct (_ =? 4). }
  pose proof (DNSServers_learned (Opts reply)) as Hs.
  destruct (DNSServers (Opts reply)) as [[l|]|e|]; [..|done]; injection Hs as <-; done.
Qed.

Lemma Discover_total t : (forall d x m, Exchange_ d x = inl m -> message_wf m) -> Discover t <> Crashed.
Proof.
  intros Hwf. rewrite Discover_asked. unfold asked. destruct (Exchange_ _ _) as [reply|[|e]] eqn:Ex; [|by repeat case_match..].
  apply Hwf in Ex as (_ & _ & _ & Hopts). destruct (Get (Opts reply) OptionAFTRName) as [opt|] eqn:Eg; [|done].
  pose proof (decode_total _ (Get_bytes _ _ _ Hopts Eg)). destruct (decodeDNSName (Data opt)); [|done|done].
  by destruct (resolveAFTR _ _) as [|[? ?]].
Qed.

(** C37: each end of a discovery means what it says.  For replies that decode,
    ErrNoReply is the caller's bound expiring on a context that has not ended, and only
    that; ErrNoAFTRName is a reply without the option, and carries what the reply did
    hold: its DNS servers (none if malformed) and its refresh time (a day if it gives
    none); success is a well-formed name resolving through those servers, first address
    taken; and the discovery never crashes. *)
Theorem Discover_outcomes t : (forall d x m, Exchange_ d x = inl m -> message_wf m) ->
  Discover t <> Crashed
  /\ (Discover t = ErrNoReply <-> 0 < t /\ asked t = inr DeadlineExceeded /\ ctx_Err = false)
  /\ (forall r, Discover t = ErrNoAFTRName r <-> exists reply, asked t = inl reply /\ Get (Opts reply) OptionAFTRName = None
        /\ r = mkResult [] AInvalid (learned_servers (Opts reply)) (learned_refresh (Opts reply)))
  /\ (forall r, Discover t = Found r <-> exists reply opt, asked t = inl reply /\ Get (Opts reply) OptionAFTRName = Some opt
        /\ names reply (Data opt) (AFTRName r) (AFTRAddr r)
        /\ dnsServers r = learned_servers (Opts reply) /\ RefreshInterval r = learned_refresh (Opts reply)).
Proof.
  intros Hwf. pose proof (Discover_asked t) as E. unfold asked in *.
  destruct (Exchange_ _ _) as [reply|[|e]] eqn:Ex.
  2, 3: rewrite E; clear; (split_and!; [by repeat case_match| |
    by intros r; split; [repeat case_match|intros (? & ? & ?)]|by intros r; split; [repeat case_match|intros (? & ? & ? & ?)]]).
  2: { destruct (Z.ltb_spec 0 t), ctx_Err; cbn; intuition (done || lia). }
  2: { split; [done|by intros (_ & ? & _)]. }
  apply Hwf in Ex as (_ & _ & _ & Hopts).
  destruct (Get (Opts reply) OptionAFTRName) as [opt|] eqn:Eg.
  2: { rewrite E. split_and!; [done|by split; [|intros (_ & ? & _)]| |].
       - intros r. split; [intros [= <-]; by exists reply|by intros (? & [= <-] & _ & ->)].
       - intros r. split; [done|]. intros (? & ? & [= <-] & E' & _). congruence. }
  pose proof (Get_bytes _ _ _ Hopts Eg) as Hb. pose proof (decode_names reply (Data opt)) as Hn.
  pose proof (decode_total _ Hb) as Ht. rewrite E. clear E.
  assert (forall r, (exists reply', @inl _ exchange_error reply = inl reply' /\ Get (Opts reply') OptionAFTRName = None
    /\ r = mkResult [] AInvalid (learned_servers (Opts reply')) (learned_refresh (Opts reply'))) -> False) as Hno
    by (intros r (? & [= <-] & ? & _); congruence).
  destruct (decodeDNSName (Data opt)) as [name|e|] eqn:Ed; [|shelve|done].
  destruct (resolveAFTR name (learned_servers (Opts reply))) as [addr|[dns e]] eqn:Er; [|shelve].
  - split_and!; [done|by split; [|intros (_ & ? & _)]|by intros r; split; [|intros ?%Hno]|]. intros r. split.
    + intros [= <-]. exists reply, opt. split_and!; try done. by apply Hn.
    + intros (? & ? & [= <-] & E' & Hr & H3 & H4). rewrite Eg in E'. injection E' as <-. apply Hn in Hr as [[= H1] H2]; [|done].
      destruct r. cbn in *. congruence.
  Unshelve. all: (split_and!; [done|by split; [|intros (_ & ? & _)]|by intros r; split; [|intros ?%Hno]|]); intros r; (split; [done|]);
    intros (? & ? & [= <-] & E' & Hr & _); rewrite Eg in E'; injection E' as <-; apply Hn in Hr as [[= H1] H2]; congruence || done.
Qed.
End Outcomes.

(** The bound leaves the terminator out: a name of 256 bytes on the wire is accepted. *)
Lemma name_of_256 : let data := encode_labels (replicate 126 [0x61] ++ [[0x61; 0x61]]) in
  zlen data = 256 /\ ok (decodeDNSName data) = true.
Proof. split; vm_compute; reflexivity. Qed.

(** ** Samples *)

Definition sample_labels : list bytes := [[0x61; 0x66; 0x74; 0x72]; [0x6A; 0x70]].
Definition sample_aftr : Addr := A6 0x20010db8000000000000000000000001 "".
Definition sample_reply : Message :=
  mkMessage MessageTypeReply [1; 2; 3] [mkOption OptionServerID [0]; mkOption OptionAFTRName (encode_labels sample_labels)].

Definition sample_net : Net := {|
  Exchange_ _ _ := inl sample_reply;
  ctx_Err := false;
  LookupNetIP r _ := match r with None => inl [sample_aftr] | Some _ => inr true end |}.

Lemma Discover_outcomes_witness :
  @Discover sample_net 0 = Found (mkResult (dotted sample_labels) sample_aftr [] (24 * 3600 * Second)).
Proof.
  assert (forall d x m, @Exchange_ sample_net d x = inl m -> message_wf m) as Hwf by (intros d x m [= <-]; by_eval).
  destruct (@Discover_outcomes sample_net 0 Hwf) as (_ & _ & _ & Hf). apply Hf.
  exists sample_reply, (mkOption OptionAFTRName (encode_labels sample_labels)).
  split; [reflexivity|]. split; [reflexivity|]. split; [|split; reflexivity].
  apply (names_intro _ sample_labels sample_aftr []); [by_eval|discriminate|reflexivity].
Defined.
