(* ===== verification/Netlink.v ===== *)
(** The rtnetlink client: src/pkg/netlink (message.go, socket.go).  The requests the
    program makes of the kernel, its readings of what the kernel answers, and the
    socket that pairs the two.

    The codec is in the byte order of the machine, which is an argument (the class
    [Machine], with the size of its pages).  The kernel is the class [Kernel]: what a request sent makes it
    answer.  A socket keeps the datagrams not read yet, so a reading with none left is
    one that never returns. *)

From S2P Require Import Prelude Wire Netip Text.

Local Open Scope Z_scope.

(** ** The kernel's numbers (the Linux UAPI, through golang.org/x/sys/unix) *)

Module unix.
Definition NLMSG_ALIGNTO : Z := 4.
Definition SizeofRtAttr : Z := 4.
Definition SizeofNlMsghdr : Z := 16.
Definition SizeofNlMsgerr : Z := 20.
Definition SizeofIfAddrmsg : Z := 8.
Definition SizeofRtMsg : Z := 12.
Definition SizeofIfInfomsg : Z := 16.
Definition AF_UNSPEC : Z := 0.
Definition AF_INET : Z := 2.
Definition AF_INET6 : Z := 10.
Definition NLMSG_ERROR : Z := 2.
Definition NLMSG_DONE : Z := 3.
Definition RTM_NEWLINK : Z := 16.
Definition RTM_DELLINK : Z := 17.
Definition RTM_GETLINK : Z := 18.
Definition RTM_NEWADDR : Z := 20.
Definition RTM_DELADDR : Z := 21.
Definition RTM_GETADDR : Z := 22.
Definition RTM_NEWROUTE : Z := 24.
Definition RTM_DELROUTE : Z := 25.
Definition RTM_GETROUTE : Z := 26.
Definition NLM_F_REQUEST : Z := 0x1.
Definition NLM_F_ACK : Z := 0x4.
Definition NLM_F_REPLACE : Z := 0x100.
Definition NLM_F_EXCL : Z := 0x200.
Definition NLM_F_DUMP : Z := 0x300.
Definition NLM_F_CREATE : Z := 0x400.
Definition IFA_ADDRESS : Z := 1.
Definition IFA_LOCAL : Z := 2.
Definition RTA_DST : Z := 1.
Definition RTA_OIF : Z := 4.
Definition RTA_PREFSRC : Z := 7.
Definition IFLA_IFNAME : Z := 3.
Definition IFLA_MTU : Z := 4.
Definition IFLA_LINKINFO : Z := 18.
Definition IFLA_INFO_KIND : Z := 1.
Definition IFLA_INFO_DATA : Z := 2.
Definition IFLA_XDP : Z := 43.
Definition IFLA_XDP_PROG_ID : Z := 4.
Definition RT_TABLE_MAIN : Z := 254.
Definition RTPROT_STATIC : Z := 4.
Definition RT_SCOPE_UNIVERSE : Z := 0.
Definition RT_SCOPE_LINK : Z := 253.
Definition RTN_UNICAST : Z := 1.
Definition IPPROTO_IPIP : Z := 4.
Definition IFF_UP : Z := 1.
Definition ENETDOWN : Z := 100.
Definition ENETUNREACH : Z := 101.
Definition EHOSTUNREACH : Z := 113.
End unix.
Import unix.

(** ** Integers in the machine's order (binary.NativeEndian) *)

Class Machine : Type := { little_endian : bool; Getpagesize : Z }.

(** The result of a loop that never returns early. *)
Definition no_return {A} (r : A + Empty_set) : A := match r with inl a => a | inr e => match e with end end.

Section Codec.
Context `{Machine}.

Definition ne (n : nat) (v : Z) : bytes := if little_endian then rev (be n v) else be n v.
Definition unne (b : bytes) : Z := unbe (if little_endian then rev b else b).

(** The integer at [b[i:i+n]]. *)
Definition nget (n : nat) (b : bytes) (i : Z) : outcome Z := unne <$> slice b i (i + Z.of_nat n).

(** ** Messages and attributes (message.go) *)

Definition nlmsgAlign (n : Z) : Z := Z.ldiff (n + NLMSG_ALIGNTO - 1) (NLMSG_ALIGNTO - 1).

Definition encodeRtAttr (attrType : Z) (payload : bytes) : bytes :=
  let rtaLen := SizeofRtAttr + zlen payload in
  ne 2 rtaLen ++ ne 2 attrType ++ field (nlmsgAlign rtaLen - SizeofRtAttr) payload.

Definition encodeNestedAttr (attrType : Z) (children : list bytes) : bytes :=
  encodeRtAttr attrType (concat children).

Definition buildMessage (rtmType flags seq : Z) (body : bytes) : bytes :=
  ne 4 (SizeofNlMsghdr + zlen body) ++ ne 2 rtmType ++ ne 2 flags ++ ne 4 seq ++ ne 4 0 ++ body.

Definition buildAddrMessage (rtmType flags seq ifindex : Z) (addr : Addr) (prefixLen : Z) : bytes :=
  let ifaAddr := encodeRtAttr IFA_ADDRESS (As16 addr) in
  let ifaLocal := encodeRtAttr IFA_LOCAL (As16 addr) in
  let body := [AF_INET6; u8 prefixLen; 0; 0] ++ ne 4 ifindex ++ ifaLocal ++ ifaAddr in
  buildMessage rtmType flags seq body.

Definition buildGetAddrMessage (seq : Z) : bytes :=
  let body := AF_INET6 :: zeros (SizeofIfAddrmsg - 1) in
  buildMessage RTM_GETADDR (Z.lor NLM_F_REQUEST NLM_F_DUMP) seq body.

(** As4 of an address that Is4 does not panic. *)
Definition buildRouteMessage (rtmType flags seq ifindex : Z) (dst : Prefix) : outcome bytes :=
  '(family, dstBytes) ← (if Is4 (paddr dst) then a ← As4 (paddr dst); Ret (AF_INET, a)
                         else Ret (AF_INET6, As16 (paddr dst)));
  let rtaOif := encodeRtAttr RTA_OIF (ne 4 ifindex) in
  let body := [family; u8 (pbits dst); 0; 0; RT_TABLE_MAIN; RTPROT_STATIC; RT_SCOPE_LINK; RTN_UNICAST]
    ++ ne 4 0 ++ (if 0 <? pbits dst then encodeRtAttr RTA_DST dstBytes else []) ++ rtaOif in
  Ret (buildMessage rtmType flags seq body).

Definition buildGetRouteMessage (seq ifindex : Z) (dst : Addr) : bytes :=
  let rtaDst := encodeRtAttr RTA_DST (As16 dst) in
  let rtaOif := encodeRtAttr RTA_OIF (ne 4 ifindex) in
  let body := [AF_INET6; 128; 0; 0; 0; 0; 0; RTN_UNICAST] ++ ne 4 0 ++ rtaDst ++ rtaOif in
  buildMessage RTM_GETROUTE NLM_F_REQUEST seq body.

Definition iflaIPTunLocal : Z := 2.
Definition iflaIPTunRemote : Z := 3.
Definition iflaIPTunFlags : Z := 8.
Definition iflaIPTunProto : Z := 9.
Definition ip6TnlIgnEncapLimit : Z := 0x1.

Definition buildIfInfoBody (ifindex flags change : Z) : bytes :=
  [AF_UNSPEC; 0; 0; 0] ++ ne 4 ifindex ++ ne 4 flags ++ ne 4 change.

Definition buildGetLinkMessage (seq : Z) : bytes :=
  buildMessage RTM_GETLINK (Z.lor NLM_F_REQUEST NLM_F_DUMP) seq (buildIfInfoBody 0 0 0).

Definition buildIP6TnlLinkInfo (local remote : Addr) : bytes :=
  let data := encodeNestedAttr IFLA_INFO_DATA
    [encodeRtAttr iflaIPTunLocal (As16 local); encodeRtAttr iflaIPTunRemote (As16 remote);
     encodeRtAttr iflaIPTunProto [IPPROTO_IPIP]; encodeRtAttr iflaIPTunFlags (ne 4 ip6TnlIgnEncapLimit)] in
  let kind := encodeRtAttr IFLA_INFO_KIND (str "ip6tnl" ++ [0]) in
  encodeNestedAttr IFLA_LINKINFO [kind; data].

Definition buildAddIP6TnlMessage (seq flags : Z) (name : bytes) (local remote : Addr) (mtu : Z) : bytes :=
  buildMessage RTM_NEWLINK flags seq
    (buildIfInfoBody 0 0 0 ++ encodeRtAttr IFLA_IFNAME (name ++ [0]) ++ encodeRtAttr IFLA_MTU (ne 4 mtu)
     ++ buildIP6TnlLinkInfo local remote).

Definition buildChangeIP6TnlMessage (seq ifindex : Z) (local remote : Addr) : bytes :=
  buildMessage RTM_NEWLINK (Z.lor NLM_F_REQUEST NLM_F_ACK) seq
    (buildIfInfoBody ifindex 0 0 ++ buildIP6TnlLinkInfo local remote).

Definition vethInfoPeer : Z := 1.

Definition buildAddVethMessage (seq flags : Z) (name peerName : bytes) (mtu : Z) : bytes :=
  let peer := buildIfInfoBody 0 0 0 ++ encodeRtAttr IFLA_IFNAME (peerName ++ [0]) ++ encodeRtAttr IFLA_MTU (ne 4 mtu) in
  let data := encodeNestedAttr IFLA_INFO_DATA [encodeRtAttr vethInfoPeer peer] in
  let kind := encodeRtAttr IFLA_INFO_KIND (str "veth" ++ [0]) in
  buildMessage RTM_NEWLINK flags seq
    (buildIfInfoBody 0 0 0 ++ encodeRtAttr IFLA_IFNAME (name ++ [0]) ++ encodeRtAttr IFLA_MTU (ne 4 mtu)
     ++ encodeNestedAttr IFLA_LINKINFO [kind; data]).

Definition buildSetLinkUpMessage (seq ifindex : Z) : bytes :=
  buildMessage RTM_NEWLINK (Z.lor NLM_F_REQUEST NLM_F_ACK) seq (buildIfInfoBody ifindex IFF_UP IFF_UP).

Definition buildSetLinkMTUMessage (seq ifindex mtu : Z) : bytes :=
  buildMessage RTM_NEWLINK (Z.lor NLM_F_REQUEST NLM_F_ACK) seq
    (buildIfInfoBody ifindex 0 0 ++ encodeRtAttr IFLA_MTU (ne 4 mtu)).

Definition buildDelLinkMessage (seq ifindex : Z) : bytes :=
  buildMessage RTM_DELLINK (Z.lor NLM_F_REQUEST NLM_F_ACK) seq (buildIfInfoBody ifindex 0 0).

(** ** Reading the kernel's messages *)

(** The loop over a run of attributes, which each parser writes out: [step] reads one,
    carrying on or returning; a malformed length ends the run.  Each round takes an
    attribute's header at least, so [S (length attrs)] rounds are enough (running out
    would show as a panic). *)
Fixpoint attr_loop {A R} (fuel : nat) (step : A -> Z -> bytes -> outcome (A + R)) (acc : A) (attrs : bytes) : outcome (A + R) :=
  match fuel with
  | O => Panic
  | S fuel =>
    if zlen attrs <? SizeofRtAttr then Ret (inl acc)
    else
      attrLen ← nget 2 attrs 0;
      attrType ← nget 2 attrs 2;
      if (attrLen <? SizeofRtAttr) || (zlen attrs <? attrLen) then Ret (inl acc)
      else
        value ← slice attrs SizeofRtAttr attrLen;
        r ← step acc attrType value;
        match r with
        | inr r => Ret (inr r)
        | inl acc =>
          let next := nlmsgAlign attrLen in
          if zlen attrs <? next then Ret (inl acc)
          else rest ← from attrs next; attr_loop fuel step acc rest
        end
  end.

Definition walk_attrs {A R} (step : A -> Z -> bytes -> outcome (A + R)) (acc : A) (attrs : bytes) : outcome (A + R) :=
  attr_loop (S (length attrs)) step acc attrs.

Definition parseRoutePrefsrc (payload : bytes) : outcome (option Addr) :=
  if zlen payload <? SizeofRtMsg then Ret None
  else
    family ← idx payload 0;
    if negb (family =? AF_INET6) then Ret None
    else
      attrs ← from payload SizeofRtMsg;
      r ← walk_attrs (fun _ attrType value =>
            Ret (if attrType =? RTA_PREFSRC
                 then match AddrFromSlice value with Some addr => inr addr | None => inl tt end
                 else inl tt)) tt attrs;
      Ret (match r with inr addr => Some addr | inl _ => None end).

(** One netlink message split out of a datagram, its header included. *)
Record rawMsg : Type := mkRawMsg { Type_ : Z; Raw : bytes }.

(** Each round takes a message's header at least. *)
Fixpoint walkMessages_loop (fuel : nat) (buf : bytes) (msgs : list rawMsg) : outcome (list rawMsg) :=
  match fuel with
  | O => Panic
  | S fuel =>
    if 0 <? zlen buf then
      if zlen buf <? SizeofNlMsghdr then Fail "netlink: trailing bytes shorter than a message header"
      else
        msgLen ← nget 4 buf 0;
        msgType ← nget 2 buf 4;
        if (msgLen <? SizeofNlMsghdr) || (zlen buf <? msgLen) then Fail "netlink: malformed message length"
        else
          raw ← slice buf 0 msgLen;
          rest ← from buf (Z.min (nlmsgAlign msgLen) (zlen buf));
          walkMessages_loop fuel rest (msgs ++ [mkRawMsg msgType raw])
    else Ret msgs
  end.

Definition walkMessages (buf : bytes) : outcome (list rawMsg) := walkMessages_loop (S (length buf)) buf [].

Definition parseIfAddrMsg (payload : bytes) (wantIfindex : Z) : outcome (option Prefix) :=
  if zlen payload <? SizeofIfAddrmsg then Ret None
  else
    family ← idx payload 0;
    prefixLen ← idx payload 1;
    scope ← idx payload 3;
    ifindex ← nget 4 payload 4;
    if negb (family =? AF_INET6) || negb (ifindex =? wantIfindex) || negb (scope =? RT_SCOPE_UNIVERSE) then Ret None
    else
      attrs ← from payload SizeofIfAddrmsg;
      r ← walk_attrs (R := Empty_set) (fun '(address, local) attrType value =>
            Ret (inl (if attrType =? IFA_ADDRESS then (default AInvalid (AddrFromSlice value), local)
                      else if attrType =? IFA_LOCAL then (address, default AInvalid (AddrFromSlice value))
                      else (address, local)))) (AInvalid, AInvalid) attrs;
      let '(address, local) := no_return r in
      let addr := if IsValid address then address else local in
      Ret (if IsValid addr then Some (PrefixFrom addr prefixLen) else None).

Record Link : Type := mkLink { Index : Z; Name : bytes; XDPProgID : Z }.

Definition parseXDPProgID (attrs : bytes) : outcome Z :=
  r ← walk_attrs (fun _ attrType value =>
        if (attrType =? IFLA_XDP_PROG_ID) && (SizeofRtAttr + 4 <=? SizeofRtAttr + zlen value)
        then v ← nget 4 value 0; Ret (inr v)
        else Ret (inl tt)) tt attrs;
  Ret (match r with inr v => v | inl _ => 0 end).

(** The bytes up to the first zero, if there is one (bytes.IndexByte). *)
Fixpoint until_zero (b : bytes) : bytes :=
  match b with [] => [] | c :: b => if c =? 0 then [] else c :: until_zero b end.

Definition parseIfInfoMsg (payload : bytes) : outcome (option Link) :=
  if zlen payload <? SizeofIfInfomsg then Ret None
  else
    index ← nget 4 payload 4;
    attrs ← from payload SizeofIfInfomsg;
    r ← walk_attrs (R := Empty_set) (fun link attrType value =>
          if attrType =? IFLA_IFNAME then Ret (inl (mkLink (Index link) (until_zero value) (XDPProgID link)))
          else if attrType =? IFLA_XDP then id ← parseXDPProgID value; Ret (inl (mkLink (Index link) (Name link) id))
          else Ret (inl link)) (mkLink index [] 0) attrs;
    let link := no_return r in
    Ret (if (Index link =? 0) || bool_decide (Name link = []) then None else Some link).

(** An error: the kernel's, or any other. *)
Inductive error : Type := Errno (n : Z) | OtherError (e : string).

(** A 32-bit two's complement integer, and syscall.Errno's conversion of one. *)
Definition i32 (z : Z) : Z := (z + 2 ^ 31) mod 2 ^ 32 - 2 ^ 31.

Definition parseAckErrno (b : bytes) (wantSeq : Z) : outcome (option error) :=
  if zlen b <? SizeofNlMsghdr + SizeofNlMsgerr then Ret (Some (OtherError "netlink: ack too short"))
  else
    msgType ← nget 2 b 4;
    seq ← nget 4 b 8;
    if negb (msgType =? NLMSG_ERROR) then Ret (Some (OtherError "netlink: response type, want NLMSG_ERROR"))
    else if negb (seq =? wantSeq) then Ret (Some (OtherError "netlink: ack sequence"))
    else
      v ← nget 4 b SizeofNlMsghdr;
      let errno := i32 v in
      Ret (if errno =? 0 then None else Some (Errno (u64 (i32 (- errno))))).

(** ** The socket (socket.go) *)

(** What the kernel makes of a request sent to it: the error of the send, or the
    datagrams it answers (a reading can fail too). *)
Class Kernel (K : Type) : Type := serve : K -> bytes -> (error + list (bytes + error)) * K.

Record Socket (K : Type) : Type := mkSocket { seq : Z; pending : list (bytes + error); kernel : K }.
Arguments mkSocket {K} _ _ _.
Arguments seq {K} _.
Arguments pending {K} _.
Arguments kernel {K} _.

(** A call on a socket returns a value or an error, panics, or waits for ever for an
    answer. *)
Inductive io (A : Type) : Type := Done (a : A) | Failed (e : error) | Crashed | Blocked.
Arguments Done {A} _.
Arguments Failed {A} _.
Arguments Crashed {A}.
Arguments Blocked {A}.

Section Socket.
Context {K : Type} `{Kernel K}.

Definition M (A : Type) : Type := Socket K -> io A * Socket K.
#[local] Instance M_ret : MRet M := fun A a s => (Done a, s).
#[local] Instance M_bind : MBind M := fun A B f m s =>
  match m s with
  | (Done a, s) => f a s
  | (Failed e, s) => (Failed e, s)
  | (Crashed, s) => (Crashed, s)
  | (Blocked, s) => (Blocked, s)
  end.

Definition failed {A} (e : error) : M A := fun s => (Failed e, s).
Definition lift {A} (o : outcome A) : M A := fun s =>
  (match o with Ret a => Done a | Fail e => Failed (OtherError e) | Panic => Crashed end, s).

(** [s.seq++]. *)
Definition next_seq : M Z := fun s => let n := u32 (seq s + 1) in (Done n, mkSocket n (pending s) (kernel s)).

Definition Send (req : bytes) : M unit := fun s =>
  match serve (kernel s) req with
  | (inl e, k) => (Failed e, mkSocket (seq s) (pending s) k)
  | (inr ds, k) => (Done tt, mkSocket (seq s) (pending s ++ ds) k)
  end.

(** A datagram longer than the buffer is truncated. *)
Definition Recvfrom (size : Z) : M bytes := fun s =>
  match pending s with
  | [] => (Blocked, s)
  | inl d :: ds => (Done (take (Z.to_nat size) d), mkSocket (seq s) ds (kernel s))
  | inr e :: ds => (Failed e, mkSocket (seq s) ds (kernel s))
  end.

Definition sendAndAck (req : bytes) (seq : Z) : M unit :=
  Send req ≫= fun _ =>
  Recvfrom Getpagesize ≫= fun b =>
  lift (parseAckErrno b seq) ≫= fun r =>
  match r with None => mret tt | Some e => failed e end.

Definition or (l : list Z) : Z := fold_left Z.lor l 0.

Definition AddAddr (ifindex : Z) (addr : Addr) (prefixLen : Z) : M unit :=
  let flags := or [NLM_F_REQUEST; NLM_F_ACK; NLM_F_CREATE; NLM_F_REPLACE] in
  next_seq ≫= fun seq => sendAndAck (buildAddrMessage RTM_NEWADDR flags seq ifindex addr prefixLen) seq.

Definition DelAddr (ifindex : Z) (addr : Addr) (prefixLen : Z) : M unit :=
  let flags := or [NLM_F_REQUEST; NLM_F_ACK] in
  next_seq ≫= fun seq => sendAndAck (buildAddrMessage RTM_DELADDR flags seq ifindex addr prefixLen) seq.

(** The messages of one datagram of a dump, of type [want] read by [parse]: the result
    so far, or all of it once the dump is done. *)
Fixpoint dump_msgs {A} (want seq : Z) (parse : bytes -> outcome (option A)) (msgs : list rawMsg) (result : list A)
    : M (list A + list A) :=
  match msgs with
  | [] => mret (inl result)
  | m :: msgs =>
    if Type_ m =? NLMSG_DONE then mret (inr result)
    else if Type_ m =? NLMSG_ERROR then
      lift (parseAckErrno (Raw m) seq) ≫= fun r =>
      match r with Some e => failed e | None => dump_msgs want seq parse msgs result end
    else if Type_ m =? want then
      lift (from (Raw m) SizeofNlMsghdr ≫= parse) ≫= fun r =>
      dump_msgs want seq parse msgs (match r with Some x => result ++ [x] | None => result end)
    else dump_msgs want seq parse msgs result
  end.

(** The loop of a dump, a datagram each round; with those pending all read, it waits. *)
Fixpoint dump_loop {A} (fuel : nat) (size want seq : Z) (parse : bytes -> outcome (option A)) (result : list A) : M (list A) :=
  match fuel with
  | O => fun s => (Blocked, s)
  | S fuel =>
    Recvfrom size ≫= fun b =>
    lift (walkMessages b) ≫= fun msgs =>
    dump_msgs want seq parse msgs result ≫= fun r =>
    match r with inr result => mret result | inl result => dump_loop fuel size want seq parse result end
  end.

Definition dump {A} (size want seq : Z) (parse : bytes -> outcome (option A)) : M (list A) :=
  fun s => dump_loop (S (length (pending s))) size want seq parse [] s.

Definition Addrs (ifindex : Z) : M (list Prefix) :=
  next_seq ≫= fun seq =>
  Send (buildGetAddrMessage seq) ≫= fun _ =>
  dump Getpagesize RTM_NEWADDR seq (fun payload => parseIfAddrMsg payload ifindex).

Definition linkDumpBufSize : Z := 64 * 1024.

Definition Links : M (list Link) :=
  next_seq ≫= fun seq =>
  Send (buildGetLinkMessage seq) ≫= fun _ =>
  dump linkDumpBufSize RTM_NEWLINK seq parseIfInfoMsg.

Definition isNoRouteErrno (e : error) : bool :=
  match e with Errno n => (n =? ENETUNREACH) || (n =? EHOSTUNREACH) || (n =? ENETDOWN) | OtherError _ => false end.

(** The loop over the messages of the reply. *)
Fixpoint source_msgs (seq : Z) (msgs : list rawMsg) : M (option Addr) :=
  match msgs with
  | [] => mret None
  | m :: msgs =>
    if Type_ m =? NLMSG_ERROR then
      lift (parseAckErrno (Raw m) seq) ≫= fun r =>
      match r with
      | Some e => if isNoRouteErrno e then mret None else failed e
      | None => source_msgs seq msgs
      end
    else if Type_ m =? RTM_NEWROUTE then
      lift (from (Raw m) SizeofNlMsghdr ≫= parseRoutePrefsrc) ≫= fun r =>
      match r with Some src => mret (Some src) | None => source_msgs seq msgs end
    else source_msgs seq msgs
  end.

Definition SourceForDest (ifindex : Z) (dst : Addr) : M (option Addr) :=
  next_seq ≫= fun seq =>
  Send (buildGetRouteMessage seq ifindex dst) ≫= fun _ =>
  Recvfrom Getpagesize ≫= fun b =>
  lift (walkMessages b) ≫= fun msgs =>
  source_msgs seq msgs.

Definition AddRoute (ifindex : Z) (dst : Prefix) : M unit :=
  let flags := or [NLM_F_REQUEST; NLM_F_ACK; NLM_F_CREATE; NLM_F_REPLACE] in
  next_seq ≫= fun seq => lift (buildRouteMessage RTM_NEWROUTE flags seq ifindex dst) ≫= fun req => sendAndAck req seq.

Definition DelRoute (ifindex : Z) (dst : Prefix) : M unit :=
  let flags := or [NLM_F_REQUEST; NLM_F_ACK] in
  next_seq ≫= fun seq => lift (buildRouteMessage RTM_DELROUTE flags seq ifindex dst) ≫= fun req => sendAndAck req seq.

Definition AddIP6Tnl (name : bytes) (local remote : Addr) (mtu : Z) : M unit :=
  let flags := or [NLM_F_REQUEST; NLM_F_ACK; NLM_F_CREATE; NLM_F_EXCL] in
  next_seq ≫= fun seq => sendAndAck (buildAddIP6TnlMessage seq flags name local remote mtu) seq.

Definition SetIP6TnlEndpoints (ifindex : Z) (local remote : Addr) : M unit :=
  next_seq ≫= fun seq => sendAndAck (buildChangeIP6TnlMessage seq ifindex local remote) seq.

Definition AddVeth (name peerName : bytes) (mtu : Z) : M unit :=
  let flags := or [NLM_F_REQUEST; NLM_F_ACK; NLM_F_CREATE; NLM_F_EXCL] in
  next_seq ≫= fun seq => sendAndAck (buildAddVethMessage seq flags name peerName mtu) seq.

Definition SetLinkUp (ifindex : Z) : M unit :=
  next_seq ≫= fun seq => sendAndAck (buildSetLinkUpMessage seq ifindex) seq.

Definition SetLinkMTU (ifindex mtu : Z) : M unit :=
  next_seq ≫= fun seq => sendAndAck (buildSetLinkMTUMessage seq ifindex mtu) seq.

Definition DelLink (ifindex : Z) : M unit :=
  next_seq ≫= fun seq => sendAndAck (buildDelLinkMessage seq ifindex) seq.
End Socket.

(** ** Integers *)

Lemma zlen_ne n v : zlen (ne n v) = Z.of_nat n.
Proof. unfold ne. destruct little_endian; [unfold zlen; rewrite length_rev|]; apply zlen_be. Qed.

Lemma is_bytes_ne n v : is_bytes (ne n v).
Proof. unfold ne, is_bytes. destruct little_endian; [apply Forall_rev|]; apply is_bytes_be. Qed.

Lemma unne_ne n v : unne (ne n v) = v mod 256 ^ Z.of_nat n.
Proof. unfold unne, ne. destruct little_endian; [rewrite rev_involutive|]; apply unbe_be. Qed.

Lemma unne_bound b : is_bytes b -> 0 <= unne b < 256 ^ zlen b.
Proof.
  intros Hb. unfold unne. destruct little_endian; [|by apply unbe_bound].
  replace (zlen b) with (zlen (rev b)) by (unfold zlen; by rewrite length_rev). by apply unbe_bound, Forall_rev.
Qed.

Lemma nget_ok n b i : 0 <= i -> i + Z.of_nat n <= zlen b -> exists v, nget n b i = Ret v.
Proof. intros. unfold nget. rewrite slice_ok by lia. by eexists. Qed.

Lemma nget_total n b i : 0 <= i -> i + Z.of_nat n <= zlen b -> no_panic (nget n b i) = true.
Proof. intros Hi Hl. by destruct (nget_ok n b i Hi Hl) as [v ->]. Qed.

Lemma nget_bound n b i v : is_bytes b -> nget n b i = Ret v -> 0 <= v < 256 ^ Z.of_nat n.
Proof.
  unfold nget. intros Hb. destruct (slice b i (i + Z.of_nat n)) as [c| |] eqn:E; [|done..]. intros [= <-].
  pose proof (is_bytes_slice _ _ _ _ Hb E) as Hc. apply slice_inv in E as (_ & _ & Hl).
  replace (Z.of_nat n) with (zlen c) by lia. by apply unne_bound.
Qed.

(** Reading an integer written at an offset. *)
Lemma nget_ne n p v s i : zlen p = i -> nget n (p ++ ne n v ++ s) i = Ret (v mod 256 ^ Z.of_nat n).
Proof.
  intros Hp. unfold nget. rewrite slice_app_exact by (rewrite ?zlen_ne; lia). cbn. by rewrite unne_ne.
Qed.

Lemma nget_at n p v s b i : b = p ++ ne n v ++ s -> zlen p = i -> nget n b i = Ret (v mod 256 ^ Z.of_nat n).
Proof. intros ->. apply nget_ne. Qed.

Lemma nget_ne_0 n v s : nget n (ne n v ++ s) 0 = Ret (v mod 256 ^ Z.of_nat n).
Proof. by apply (nget_ne n []). Qed.

Lemma nlmsgAlign_spec n : nlmsgAlign n = (n + 3) / 4 * 4.
Proof.
  unfold nlmsgAlign, NLMSG_ALIGNTO. change (4 - 1) with (Z.ones 2). rewrite Z.ldiff_ones_r by lia.
  rewrite Z.shiftl_mul_pow2, Z.shiftr_div_pow2 by lia. f_equal. f_equal. lia.
Qed.

Lemma nlmsgAlign_bounds n : n <= nlmsgAlign n < n + 4.
Proof. rewrite nlmsgAlign_spec. pose proof (Z.div_mod (n + 3) 4). pose proof (Z.mod_pos_bound (n + 3) 4). lia. Qed.

#[local] Hint Rewrite zlen_ne : zlen.
#[local] Hint Resolve is_bytes_ne : wire.

(** ** Attributes *)

Definition attr_wf (a : Z * bytes) : Prop := 0 <= a.1 < 2 ^ 16 /\ zlen a.2 < 2 ^ 16 - 4.

Definition encode_attrs (l : list (Z * bytes)) : bytes := flat_map (fun a => encodeRtAttr a.1 a.2) l.

Lemma zlen_encodeRtAttr t v : zlen (encodeRtAttr t v) = nlmsgAlign (4 + zlen v).
Proof.
  unfold encodeRtAttr, SizeofRtAttr. pose proof (nlmsgAlign_bounds (4 + zlen v)). pose proof (zlen_nonneg v).
  rewrite !zlen_app, !zlen_ne, zlen_field; lia.
Qed.

Lemma field_padded n v : zlen v <= n -> field n v = v ++ zeros (n - zlen v).
Proof. intros. unfold field. rewrite take_ge; [done|]. unfold zlen in *. lia. Qed.

(** What a loop over attributes amounts to: its step, over the attributes. *)
Fixpoint run_attrs {A R} (step : A -> Z -> bytes -> outcome (A + R)) (acc : A) (l : list (Z * bytes)) : outcome (A + R) :=
  match l with
  | [] => Ret (inl acc)
  | (t, v) :: l => r ← step acc t v; match r with inr r => Ret (inr r) | inl acc => run_attrs step acc l end
  end.

Lemma encode_attrs_cons t v l : encode_attrs ((t, v) :: l) = encodeRtAttr t v ++ encode_attrs l.
Proof. reflexivity. Qed.

Lemma encode_attrs_app l l' : encode_attrs (l ++ l') = encode_attrs l ++ encode_attrs l'.
Proof. apply flat_map_app. Qed.

(** The readings of a loop's round, on an attribute and what follows. *)
Lemma attr_reads t v rest : attr_wf (t, v) -> let b := encodeRtAttr t v ++ rest in
  nget 2 b 0 = Ret (4 + zlen v) /\ nget 2 b 2 = Ret t /\ slice b 4 (4 + zlen v) = Ret v
  /\ from b (nlmsgAlign (4 + zlen v)) = Ret rest /\ zlen b = nlmsgAlign (4 + zlen v) + zlen rest.
Proof.
  intros [Ht Hv] b. cbn [fst snd] in *. pose proof (zlen_nonneg v). pose proof (nlmsgAlign_bounds (4 + zlen v)).
  assert (b = ne 2 (4 + zlen v) ++ ne 2 t ++ v ++ zeros (nlmsgAlign (4 + zlen v) - 4 - zlen v) ++ rest) as Hb.
  { unfold b, encodeRtAttr, SizeofRtAttr. rewrite field_padded by lia. by rewrite <- !app_assoc. }
  split_and!.
  - rewrite Hb, nget_ne_0, Z.mod_small by (change (256 ^ Z.of_nat 2) with (2 ^ 16); lia). done.
  - rewrite Hb, nget_ne, Z.mod_small by (apply zlen_ne || (change (256 ^ Z.of_nat 2) with (2 ^ 16); lia)). done.
  - rewrite Hb, (app_assoc (ne 2 _)). apply slice_app_exact; zlen_lia.
  - apply from_app_exact, zlen_encodeRtAttr.
  - unfold b. by rewrite zlen_app, zlen_encodeRtAttr.
Qed.

Lemma attr_loop_encode {A R} (step : A -> Z -> bytes -> outcome (A + R)) l : forall fuel acc, Forall attr_wf l ->
  (length l < fuel)%nat -> attr_loop fuel step acc (encode_attrs l) = run_attrs step acc l.
Proof.
  induction l as [|[t v] l IH]; intros fuel acc Hl Hf; (destruct fuel as [|fuel]; [cbn in Hf; lia|]); [done|].
  inversion Hl as [|? ? Hw Hl']; subst. rewrite encode_attrs_cons. cbn [attr_loop run_attrs]. unfold SizeofRtAttr.
  destruct (attr_reads t v (encode_attrs l) Hw) as (E1 & E2 & E3 & E4 & E5). rewrite E1, E2, E5.
  pose proof (nlmsgAlign_bounds (4 + zlen v)). pose proof (zlen_nonneg v). pose proof (zlen_nonneg (encode_attrs l)).
  rewrite (proj2 (Z.ltb_ge _ 4)) by lia. rewrite !bind_ret.
  rewrite (proj2 (Z.ltb_ge _ _)), (proj2 (Z.ltb_ge _ _)) by lia. cbn [orb]. rewrite E3, bind_ret.
  destruct (step acc t v) as [[acc'|r]| |]; cbn [mbind outcome_bind]; [|done..].
  rewrite (proj2 (Z.ltb_ge _ _)) by lia. rewrite E4. apply IH; [done|cbn in Hf; lia].
Qed.

Lemma length_encode_attrs l : (length l <= length (encode_attrs l))%nat.
Proof.
  induction l as [|[t v] l IH]; [done|]. cbn [encode_attrs flat_map]. rewrite length_app.
  pose proof (zlen_encodeRtAttr t v). pose proof (nlmsgAlign_bounds (4 + zlen v)). unfold zlen, encode_attrs in *. cbn. lia.
Qed.

Lemma walk_encode {A R} (step : A -> Z -> bytes -> outcome (A + R)) acc l : Forall attr_wf l ->
  walk_attrs step acc (encode_attrs l) = run_attrs step acc l.
Proof. intros. apply attr_loop_encode; [done|]. pose proof (length_encode_attrs l). lia. Qed.

(** The loop comes back on any bytes, if its step does. *)
Lemma attr_loop_total {A R} (step : A -> Z -> bytes -> outcome (A + R)) fuel :
  (forall acc t v, is_bytes v -> no_panic (step acc t v) = true) ->
  forall acc attrs, is_bytes attrs -> zlen attrs < Z.of_nat fuel -> no_panic (attr_loop fuel step acc attrs) = true.
Proof.
  intros Hs. induction fuel as [|fuel IH]; intros acc attrs Hb Hf; [pose proof (zlen_nonneg attrs); lia|].
  cbn [attr_loop]. unfold SizeofRtAttr. destruct (Z.ltb_spec (zlen attrs) 4) as [|H4]; [done|].
  apply bind_no_panic; [apply nget_total; lia|]. intros len Hlen. apply (nget_bound _ _ _ _ Hb) in Hlen.
  apply bind_no_panic; [apply nget_total; lia|]. intros t _.
  destruct (Z.ltb_spec len 4) as [|Hl4]; [done|]. destruct (Z.ltb_spec (zlen attrs) len) as [|Hll]; [done|]. cbn [orb].
  rewrite slice_ok, bind_ret by lia. apply bind_no_panic; [apply Hs; auto with wire|]. intros [acc'|r] _; [|done].
  pose proof (nlmsgAlign_bounds len). destruct (Z.ltb_spec (zlen attrs) (nlmsgAlign len)) as [|Hn]; [done|].
  rewrite from_ok, bind_ret by lia. apply IH; [auto with wire|]. rewrite zlen_drop. lia.
Qed.

Lemma walk_total {A R} (step : A -> Z -> bytes -> outcome (A + R)) acc attrs :
  (forall acc t v, is_bytes v -> no_panic (step acc t v) = true) -> is_bytes attrs -> no_panic (walk_attrs step acc attrs) = true.
Proof. intros Hs Hb. apply attr_loop_total; [done..|]. unfold zlen. lia. Qed.

(** ** Messages *)

(** A message as it is on the wire. *)
Record msg : Type := mkMsg { mtype : Z; mflags : Z; mseq : Z; mpid : Z; mbody : bytes }.

Definition encode_msg (m : msg) : bytes :=
  ne 4 (16 + zlen (mbody m)) ++ ne 2 (mtype m) ++ ne 2 (mflags m) ++ ne 4 (mseq m) ++ ne 4 (mpid m) ++ mbody m.

(** In a datagram each message is padded. *)
Definition encode_padded (m : msg) : bytes := encode_msg m ++ zeros (nlmsgAlign (16 + zlen (mbody m)) - (16 + zlen (mbody m))).

Definition msg_wf (m : msg) : Prop := 0 <= mtype m < 2 ^ 16 /\ 0 <= mseq m < 2 ^ 32 /\ zlen (mbody m) < 2 ^ 31.

Lemma zlen_encode_msg m : zlen (encode_msg m) = 16 + zlen (mbody m).
Proof. unfold encode_msg. zlen_lia. Qed.

Lemma msg_reads m rest : msg_wf m -> let b := encode_msg m ++ rest in
  nget 4 b 0 = Ret (16 + zlen (mbody m)) /\ nget 2 b 4 = Ret (mtype m) /\ nget 4 b 8 = Ret (mseq m).
Proof.
  intros (Ht & Hq & Hl) b. pose proof (zlen_nonneg (mbody m)).
  assert (b = ne 4 (16 + zlen (mbody m)) ++ ne 2 (mtype m) ++ ne 2 (mflags m) ++ ne 4 (mseq m) ++ ne 4 (mpid m) ++ mbody m ++ rest) as Hb
    by (unfold b, encode_msg; by rewrite <- !app_assoc).
  change (2 ^ 16) with (256 ^ Z.of_nat 2) in *. change (2 ^ 32) with (256 ^ Z.of_nat 4) in *. rewrite Hb. split_and!.
  - by rewrite nget_ne_0, Z.mod_small by lia.
  - by rewrite nget_ne, Z.mod_small by (apply zlen_ne || lia).
  - rewrite (app_assoc (ne 4 _)), (app_assoc (_ ++ ne 2 _)), nget_ne, Z.mod_small by (zlen_lia || lia). done.
Qed.

Lemma body_reads m : from (encode_msg m) 16 = Ret (mbody m).
Proof.
  unfold encode_msg. rewrite !app_assoc. apply from_app_exact. zlen_lia.
Qed.

Lemma walkMessages_encode ms : forall fuel acc, Forall msg_wf ms -> (length ms < fuel)%nat ->
  walkMessages_loop fuel (flat_map encode_padded ms) acc = Ret (acc ++ ((fun m => mkRawMsg (mtype m) (encode_msg m)) <$> ms)).
Proof.
  induction ms as [|m ms IH]; intros fuel acc Hm Hf; (destruct fuel as [|fuel]; [cbn in Hf; lia|]).
  { cbn. by rewrite app_nil_r. }
  inversion Hm as [|? ? Hw Hm']; subst. cbn [flat_map fmap list_fmap].
  pose proof (nlmsgAlign_bounds (16 + zlen (mbody m))). pose proof (zlen_nonneg (mbody m)).
  set (pad := zeros (nlmsgAlign (16 + zlen (mbody m)) - (16 + zlen (mbody m)))).
  assert (zlen pad = nlmsgAlign (16 + zlen (mbody m)) - (16 + zlen (mbody m))) as Hp by (unfold pad; rewrite zlen_zeros; lia).
  set (tl := flat_map encode_padded ms). pose proof (zlen_nonneg tl).
  change (encode_padded m ++ tl) with ((encode_msg m ++ pad) ++ tl).
  assert (from ((encode_msg m ++ pad) ++ tl) (nlmsgAlign (16 + zlen (mbody m))) = Ret tl) as E3
    by (apply from_app_exact; rewrite zlen_app, zlen_encode_msg; lia).
  rewrite <- app_assoc in *. destruct (msg_reads m (pad ++ tl) Hw) as (E1 & E2 & _).
  assert (slice (encode_msg m ++ pad ++ tl) 0 (16 + zlen (mbody m)) = Ret (encode_msg m)) as E4
    by (apply slice_start; [done|by rewrite zlen_encode_msg]).
  assert (zlen (encode_msg m ++ pad ++ tl) = nlmsgAlign (16 + zlen (mbody m)) + zlen tl) as E5 by (rewrite !zlen_app, zlen_encode_msg; lia).
  cbn [walkMessages_loop]. unfold SizeofNlMsghdr. rewrite E1, E2, E5.
  rewrite (proj2 (Z.ltb_lt 0 _)), (proj2 (Z.ltb_ge _ 16)) by lia. rewrite !bind_ret.
  rewrite (proj2 (Z.ltb_ge _ _)), (proj2 (Z.ltb_ge _ _)) by lia. cbn [orb].
  rewrite E4, bind_ret, Z.min_l, E3, bind_ret by lia. rewrite IH by (done || (cbn in Hf; lia)). by rewrite <- app_assoc.
Qed.

(** ** The parsers come back on any bytes *)

Lemma total_if {A} (c : bool) (x y : outcome A) : no_panic x = true -> no_panic y = true -> no_panic (if c then x else y) = true.
Proof. by destruct c. Qed.

Lemma idx_total (b : bytes) i : 0 <= i < zlen b -> no_panic (idx b i) = true.
Proof. intros. by rewrite idx_ok. Qed.

Lemma from_total (b : bytes) i : 0 <= i <= zlen b -> no_panic (from b i) = true.
Proof. intros. by rewrite from_ok. Qed.

Lemma parseRoutePrefsrc_total b : is_bytes b -> no_panic (parseRoutePrefsrc b) = true.
Proof.
  intros Hb. unfold parseRoutePrefsrc, SizeofRtMsg. destruct (Z.ltb_spec (zlen b) 12); [done|].
  apply bind_no_panic; [apply idx_total; lia|]. intros fam _. apply total_if; [done|].
  rewrite from_ok, bind_ret by lia. apply bind_no_panic; [|done]. apply walk_total; [done|auto with wire].
Qed.

Lemma parseIfAddrMsg_total b i : is_bytes b -> no_panic (parseIfAddrMsg b i) = true.
Proof.
  intros Hb. unfold parseIfAddrMsg, SizeofIfAddrmsg. destruct (Z.ltb_spec (zlen b) 8); [done|].
  do 3 (apply bind_no_panic; [apply idx_total; lia|]; intros ? _).
  apply bind_no_panic; [apply nget_total; lia|]. intros ? _. apply total_if; [done|].
  rewrite from_ok, bind_ret by lia. apply bind_no_panic; [|by intros [[]|[]] _].
  apply walk_total; [by intros [] ? ? _|auto with wire].
Qed.

Lemma parseXDPProgID_total b : is_bytes b -> no_panic (parseXDPProgID b) = true.
Proof.
  intros Hb. apply bind_no_panic; [|done]. apply walk_total; [|done]. intros _ t v _. unfold SizeofRtAttr.
  destruct (Z.leb_spec (4 + 4) (4 + zlen v)); [|by rewrite andb_false_r]. rewrite andb_true_r.
  apply total_if; [|done]. apply bind_no_panic; [apply nget_total; lia|done].
Qed.

Lemma parseIfInfoMsg_total b : is_bytes b -> no_panic (parseIfInfoMsg b) = true.
Proof.
  intros Hb. unfold parseIfInfoMsg, SizeofIfInfomsg. destruct (Z.ltb_spec (zlen b) 16); [done|].
  apply bind_no_panic; [apply nget_total; lia|]. intros ? _. rewrite from_ok, bind_ret by lia.
  apply bind_no_panic; [|by intros [|[]] _]. apply walk_total; [|auto with wire].
  intros link t v Hv. apply total_if; [done|]. apply total_if; [|done]. apply bind_no_panic; [by apply parseXDPProgID_total|done].
Qed.

Lemma parseAckErrno_total b q : no_panic (parseAckErrno b q) = true.
Proof.
  unfold parseAckErrno, SizeofNlMsghdr, SizeofNlMsgerr. destruct (Z.ltb_spec (zlen b) (16 + 20)); [done|].
  apply bind_no_panic; [apply nget_total; lia|]. intros ? _. apply bind_no_panic; [apply nget_total; lia|]. intros ? _.
  apply total_if; [done|]. apply total_if; [done|]. apply bind_no_panic; [apply nget_total; lia|done].
Qed.

(** Besides, every message split out has its header. *)
Lemma walkMessages_loop_total fuel : forall buf acc, is_bytes buf -> zlen buf < Z.of_nat fuel ->
  Forall (fun m => is_bytes (Raw m) /\ 16 <= zlen (Raw m)) acc ->
  match walkMessages_loop fuel buf acc with
  | Panic => False
  | Ret ms => Forall (fun m => is_bytes (Raw m) /\ 16 <= zlen (Raw m)) ms
  | Fail _ => True
  end.
Proof.
  induction fuel as [|fuel IH]; intros buf acc Hb Hf Ha; [pose proof (zlen_nonneg buf); lia|]. cbn [walkMessages_loop].
  unfold SizeofNlMsghdr. destruct (Z.ltb_spec 0 (zlen buf)); [|done]. destruct (Z.ltb_spec (zlen buf) 16); [done|].
  destruct (nget_ok 4 buf 0) as [len El]; [lia..|]. pose proof (nget_bound _ _ _ _ Hb El). rewrite El, bind_ret.
  destruct (nget_ok 2 buf 4) as [t Et]; [lia..|]. rewrite Et, bind_ret.
  destruct (Z.ltb_spec len 16); [done|]. destruct (Z.ltb_spec (zlen buf) len); [done|]. cbn [orb].
  rewrite slice_ok, bind_ret by lia. pose proof (nlmsgAlign_bounds len). rewrite from_ok, bind_ret by lia.
  apply IH; [auto with wire|rewrite zlen_drop; lia|]. apply Forall_app. split; [done|]. constructor; [|done]. cbn [Raw].
  split; [auto with wire|]. rewrite zlen_take, zlen_drop. lia.
Qed.

Lemma walkMessages_total buf : is_bytes buf ->
  match walkMessages buf with
  | Panic => False
  | Ret ms => Forall (fun m => is_bytes (Raw m) /\ 16 <= zlen (Raw m)) ms
  | Fail _ => True
  end.
Proof. intros. apply walkMessages_loop_total; [done|unfold zlen; lia|constructor]. Qed.

(** ** No answer of the kernel crashes a socket *)

Section Safety.
Context {K : Type} `{Kernel K}.

Definition datagrams_bytes (ds : list (bytes + error)) : Prop :=
  Forall (fun d => match d with inl b => is_bytes b | inr _ => True end) ds.

(** A kernel that answers bytes; a socket it has answered. *)
Definition answers_bytes : Prop := forall (k : K) req ds k', serve k req = (inr ds, k') -> datagrams_bytes ds.
Definition sane (s : Socket K) : Prop := datagrams_bytes (pending s).

Definition crashless {A} (P : A -> Prop) (m : M A) : Prop :=
  forall s, sane s -> (m s).1 <> Crashed /\ sane (m s).2 /\ (forall a, (m s).1 = Done a -> P a).

Lemma crashless_bind {A B} (P : A -> Prop) (Q : B -> Prop) (m : M A) (f : A -> M B) :
  crashless P m -> (forall a, P a -> crashless Q (f a)) -> crashless Q (M_bind _ _ f m).
Proof.
  intros Hm Hf s Hs. destruct (Hm s Hs) as (Hc & Hs' & HP). unfold M_bind.
  destruct (m s) as [[a|e| |] s']; cbn [fst snd] in *; [|done..]. by apply Hf; [apply HP|].
Qed.

Lemma crashless_ret {A} (P : A -> Prop) a : P a -> crashless P (M_ret _ a).
Proof. intros Ha s Hs. split_and!; [done..|]. by intros ? [= <-]. Qed.

Lemma crashless_failed {A} (P : A -> Prop) e : crashless P (failed e).
Proof. done. Qed.

Lemma crashless_lift {A} (P : A -> Prop) (o : outcome A) :
  match o with Panic => False | Ret a => P a | Fail _ => True end -> crashless P (lift o).
Proof. intros Ho s Hs. destruct o; (split_and!; [done..|]); [by intros ? [= <-]|done|done]. Qed.

Lemma crashless_lift_total {A} (o : outcome A) : no_panic o = true -> crashless (fun _ => True) (lift o).
Proof. intros Ho. apply crashless_lift. by destruct o. Qed.

Lemma crashless_seq : crashless (fun _ => True) next_seq.
Proof. done. Qed.

Lemma crashless_Send req : answers_bytes -> crashless (fun _ => True) (Send req).
Proof.
  intros Ha s Hs. unfold Send. destruct (serve (kernel s) req) as [[e|ds] k] eqn:E; [done|]. split_and!; [done| |done].
  apply Forall_app. split; [done|]. by eapply Ha.
Qed.

Lemma crashless_Recvfrom n : crashless is_bytes (Recvfrom n).
Proof.
  intros s Hs. unfold Recvfrom, sane, datagrams_bytes in *. destruct s as [q [|[d|e] ds] k]; cbn in *; [done|..];
    inversion Hs; subst; (split_and!; [done..|]); [|done]. intros ? [= <-]. auto with wire.
Qed.

Lemma crashless_ack req q : answers_bytes -> crashless (fun _ => True) (sendAndAck req q).
Proof.
  intros Ha. eapply crashless_bind; [by apply crashless_Send|]. intros _ _. eapply crashless_bind; [apply crashless_Recvfrom|].
  intros b _. eapply crashless_bind; [apply crashless_lift_total, parseAckErrno_total|]. intros [e|] _; [apply crashless_failed|by apply crashless_ret].
Qed.

Lemma crashless_dump_msgs {A} want q (parse : bytes -> outcome (option A)) : (forall b, is_bytes b -> no_panic (parse b) = true) ->
  forall msgs result, Forall (fun m => is_bytes (Raw m) /\ 16 <= zlen (Raw m)) msgs ->
  crashless (fun _ => True) (dump_msgs want q parse msgs result).
Proof.
  intros Hp msgs. induction msgs as [|m msgs IH]; intros result Hm; cbn [dump_msgs]; [by apply crashless_ret|].
  inversion Hm as [|? ? [Hb Hl] Hm']; subst. case_match; [by apply crashless_ret|]. case_match.
  { eapply crashless_bind; [apply crashless_lift_total, parseAckErrno_total|]. intros [e|] _; [apply crashless_failed|by apply IH]. }
  case_match; [|by apply IH]. eapply crashless_bind; [|by intros; apply IH].
  apply crashless_lift_total. unfold SizeofNlMsghdr. rewrite from_ok, bind_ret by lia. apply Hp. auto with wire.
Qed.

Lemma crashless_dump_loop {A} size want q (parse : bytes -> outcome (option A)) : (forall b, is_bytes b -> no_panic (parse b) = true) ->
  forall fuel result, crashless (fun _ => True) (dump_loop fuel size want q parse result).
Proof.
  intros Hp fuel. induction fuel as [|fuel IH]; intros result; cbn [dump_loop]; [by intros s Hs|].
  eapply crashless_bind; [apply crashless_Recvfrom|]. intros b Hb.
  eapply crashless_bind; [apply crashless_lift, walkMessages_total, Hb|]. intros msgs Hm.
  eapply crashless_bind; [by apply crashless_dump_msgs|]. intros [r|r] _; [apply IH|by apply crashless_ret].
Qed.

Lemma crashless_dump {A} req size want (parse : Z -> bytes -> outcome (option A)) : answers_bytes ->
  (forall q b, is_bytes b -> no_panic (parse q b) = true) ->
  crashless (fun _ => True) (M_bind _ _ (fun seq => M_bind _ _ (fun _ => dump size want seq (parse seq)) (Send (req seq))) next_seq).
Proof.
  intros Ha Hp. eapply crashless_bind; [apply crashless_seq|]. intros q _. eapply crashless_bind; [by apply crashless_Send|].
  intros _ _ s Hs. by apply crashless_dump_loop; [apply Hp|].
Qed.

Lemma crashless_source q msgs : Forall (fun m => is_bytes (Raw m) /\ 16 <= zlen (Raw m)) msgs ->
  crashless (fun _ => True) (source_msgs q msgs).
Proof.
  induction 1 as [|m msgs [Hb Hl] Hm IH]; cbn [source_msgs]; [by apply crashless_ret|]. case_match.
  { eapply crashless_bind; [apply crashless_lift_total, parseAckErrno_total|]. intros [e|] _; [|apply IH].
    case_match; [by apply crashless_ret|apply crashless_failed]. }
  case_match; [|apply IH]. eapply crashless_bind.
  - apply crashless_lift_total. unfold SizeofNlMsghdr. rewrite from_ok, bind_ret by lia. apply parseRoutePrefsrc_total. auto with wire.
  - intros [a|] _; [by apply crashless_ret|apply IH].
Qed.

Lemma crashless_SourceForDest i a : answers_bytes -> crashless (fun _ => True) (SourceForDest i a).
Proof.
  intros Ha. unfold SourceForDest. eapply crashless_bind; [apply crashless_seq|]. intros q _.
  eapply crashless_bind; [by apply crashless_Send|]. intros _ _. eapply crashless_bind; [apply crashless_Recvfrom|]. intros b Hb.
  eapply crashless_bind; [apply crashless_lift, walkMessages_total, Hb|]. intros msgs Hm. by apply crashless_source.
Qed.
End Safety.

(** ** Requests with an acknowledgement *)

(** The requests a socket makes that are acknowledged, and the bytes each sends. *)
Inductive command : Type :=
| CAddAddr (ifindex : Z) (addr : Addr) (prefixLen : Z)
| CDelAddr (ifindex : Z) (addr : Addr) (prefixLen : Z)
| CAddRoute (ifindex : Z) (dst : Prefix)
| CDelRoute (ifindex : Z) (dst : Prefix)
| CAddIP6Tnl (name : bytes) (local remote : Addr) (mtu : Z)
| CSetIP6TnlEndpoints (ifindex : Z) (local remote : Addr)
| CAddVeth (name peerName : bytes) (mtu : Z)
| CSetLinkUp (ifindex : Z)
| CSetLinkMTU (ifindex mtu : Z)
| CDelLink (ifindex : Z).

Definition run_command {K} `{Kernel K} (c : command) : @M K unit :=
  match c with
  | CAddAddr i a n => AddAddr i a n
  | CDelAddr i a n => DelAddr i a n
  | CAddRoute i d => AddRoute i d
  | CDelRoute i d => DelRoute i d
  | CAddIP6Tnl n l r m => AddIP6Tnl n l r m
  | CSetIP6TnlEndpoints i l r => SetIP6TnlEndpoints i l r
  | CAddVeth n p m => AddVeth n p m
  | CSetLinkUp i => SetLinkUp i
  | CSetLinkMTU i m => SetLinkMTU i m
  | CDelLink i => DelLink i
  end.

Lemma buildRouteMessage_ok t fl q i d : exists req, buildRouteMessage t fl q i d = Ret req.
Proof. unfold buildRouteMessage. destruct (paddr d); cbn; by eexists. Qed.

Lemma buildRouteMessage_total t fl q i d : no_panic (buildRouteMessage t fl q i d) = true.
Proof. by destruct (buildRouteMessage_ok t fl q i d) as [req ->]. Qed.

(** Nothing the kernel answers crashes the client: every request, dump or query
    comes back with a value or an error, or waits for an answer, whatever bytes come
    back -- truncated, malformed, of another sequence or type -- and so do the requests
    after it. *)
Lemma never_crashes {K} `{Kernel K} (s : Socket K) : answers_bytes (K := K) -> sane s ->
  (forall c, (run_command c s).1 <> Crashed /\ sane (run_command c s).2)
  /\ (forall i, (Addrs i s).1 <> Crashed /\ sane (Addrs i s).2)
  /\ ((Links s).1 <> Crashed /\ sane (Links s).2)
  /\ (forall i a, (SourceForDest i a s).1 <> Crashed /\ sane (SourceForDest i a s).2).
Proof.
  intros Ha Hs. split; [|split; [|split]].
  - intros c. cut (crashless (fun _ => True) (run_command c)); [intros Hc; destruct (Hc s Hs) as (? & ? & _); done|].
    destruct c; cbn [run_command]; (eapply crashless_bind; [apply crashless_seq|]; intros q _);
      try (by apply crashless_ack); (eapply crashless_bind; [|by intros; apply crashless_ack]);
      apply crashless_lift_total, buildRouteMessage_total.
  - intros i. by destruct (crashless_dump buildGetAddrMessage Getpagesize RTM_NEWADDR (fun _ b => parseIfAddrMsg b i) Ha (fun _ b => parseIfAddrMsg_total b i) s Hs) as (? & ? & _).
  - by destruct (crashless_dump buildGetLinkMessage linkDumpBufSize RTM_NEWLINK (fun _ => parseIfInfoMsg) Ha (fun _ => parseIfInfoMsg_total) s Hs) as (? & ? & _).
  - intros i a. by destruct (crashless_SourceForDest i a Ha s Hs) as (? & ? & _).
Qed.
End Codec.

Arguments mkSocket {K} _ _ _.
Arguments seq {K} _.
Arguments pending {K} _.
Arguments kernel {K} _.
Arguments Done {A} _.
Arguments Failed {A} _.
Arguments Crashed {A}.
Arguments Blocked {A}.


(** ** Samples *)

#[local] Instance sample_machine : Machine := {| little_endian := true; Getpagesize := 4096 |}.

(** A kernel that answers whatever it is sent with a few bytes. *)
#[local] Instance babbling : Kernel unit := fun k _ => (inr [inl [36; 0; 0; 0; 2]], k).

Lemma never_crashes_witness : (Addrs 3 (mkSocket 0 [] tt)).1 <> Crashed.
Proof.
  apply (never_crashes (K := unit) (mkSocket 0 [] tt)).
  - intros k req ds k' [= <- <-]. constructor; [by_eval|constructor].
  - constructor.
Defined.
