(* ===== verification/Rtnetlink.v ===== *)
(** What the kernel makes of the client's requests: a reading of rtnetlink messages
    after rtnetlink(7), and the requests of Netlink.v read by it and paired with their
    acknowledgements. *)

From S2P Require Import Prelude Wire Netip Text Netlink.
Import unix.

Local Open Scope Z_scope.

Section Codec.
Context `{Machine}.

(** ** A kernel's reading of a request (rtnetlink(7)) *)

Inductive request : Type :=
| RAddr (new : bool) (ifindex addr prefixLen : Z)
| RRoute (new : bool) (ifindex : Z) (dst : Prefix)
| RSource (ifindex addr : Z)
| RDumpAddrs
| RDumpLinks
| RAddTunnel (name : bytes) (local remote mtu : Z)
| RSetTunnel (ifindex local remote : Z)
| RAddVeth (name peer : bytes) (mtu peerMTU : Z)
| RSetUp (ifindex : Z)
| RSetMTU (ifindex mtu : Z)
| RDelLink (ifindex : Z).

Definition int_at (b : bytes) (i : nat) : Z := unne (take 4 (drop i b)).

Definition read_msg (b : bytes) : option msg :=
  if (16 <=? zlen b) && (int_at b 0 =? zlen b)
  then Some (mkMsg (unne (take 2 (drop 4 b))) (unne (take 2 (drop 6 b))) (int_at b 8) (int_at b 12) (drop 16 b))
  else None.

Definition read_attrs (b : bytes) : list (Z * bytes) :=
  match walk_attrs (R := Empty_set) (fun acc t v => Ret (inl (acc ++ [(t, v)]))) [] b with Ret (inl l) => l | _ => [] end.

Fixpoint attr (t : Z) (l : list (Z * bytes)) : option bytes :=
  match l with [] => None | (t', v) :: l => if t' =? t then Some v else attr t l end.

Definition attr_int (t : Z) (l : list (Z * bytes)) : option Z :=
  v ← attr t l; if zlen v =? 4 then Some (unne v) else None.

(** An IPv6 address. *)
Definition attr_addr (t : Z) (l : list (Z * bytes)) : option Z :=
  v ← attr t l; if zlen v =? 16 then Some (unbe v) else None.

Definition read_addr (new : bool) (b : bytes) : option request :=
  let l := read_attrs (drop 8 b) in
  local ← attr_addr IFA_LOCAL l;
  address ← attr_addr IFA_ADDRESS l;
  if bool_decide (b !! 0%nat = Some AF_INET6) && (local =? address)
  then plen ← b !! 1%nat; Some (RAddr new (int_at b 4) local plen) else None.

(** A directly attached, static, unicast route of the main table. *)
Definition read_route (new : bool) (b : bytes) : option request :=
  let l := read_attrs (drop 12 b) in
  oif ← attr_int RTA_OIF l;
  family ← b !! 0%nat;
  bits ← b !! 1%nat;
  dst ← (match attr RTA_DST l with
         | Some v => AddrFromSlice v
         | None => Some (if family =? AF_INET then A4 0 else A6 0 "")
         end);
  if bool_decide (take 4 (drop 4 b) = [RT_TABLE_MAIN; RTPROT_STATIC; RT_SCOPE_LINK; RTN_UNICAST])
     && (family =? (if Is4 dst then AF_INET else AF_INET6))
  then Some (RRoute new oif (mkPrefix dst bits)) else None.

Definition read_source (b : bytes) : option request :=
  let l := read_attrs (drop 12 b) in
  oif ← attr_int RTA_OIF l;
  dst ← attr_addr RTA_DST l;
  if bool_decide (take 2 b = [AF_INET6; 128]) then Some (RSource oif dst) else None.

(** A string attribute is terminated by a zero byte. *)
Definition attr_text (t : Z) (l : list (Z * bytes)) : option bytes := until_zero <$> attr t l.

Definition read_linkinfo (b : bytes) (l : list (Z * bytes)) (info : bytes) : option request :=
  kind ← attr_text IFLA_INFO_KIND (read_attrs info);
  data ← read_attrs <$> attr IFLA_INFO_DATA (read_attrs info);
  if bool_decide (kind = str "ip6tnl") then
    local ← attr_addr iflaIPTunLocal data;
    remote ← attr_addr iflaIPTunRemote data;
    if bool_decide (attr iflaIPTunProto data = Some [IPPROTO_IPIP])
       && bool_decide (attr_int iflaIPTunFlags data = Some ip6TnlIgnEncapLimit)
    then
      if int_at b 4 =? 0 then
        name ← attr_text IFLA_IFNAME l; mtu ← attr_int IFLA_MTU l; Some (RAddTunnel name local remote mtu)
      else Some (RSetTunnel (int_at b 4) local remote)
    else None
  else if bool_decide (kind = str "veth") then
    peer ← (fun p => read_attrs (drop 16 p)) <$> attr vethInfoPeer data;
    name ← attr_text IFLA_IFNAME l; mtu ← attr_int IFLA_MTU l;
    peerName ← attr_text IFLA_IFNAME peer; peerMTU ← attr_int IFLA_MTU peer;
    Some (RAddVeth name peerName mtu peerMTU)
  else None.

Definition read_link (b : bytes) : option request :=
  let l := read_attrs (drop 16 b) in
  match attr IFLA_LINKINFO l, attr_int IFLA_MTU l with
  | Some info, _ => read_linkinfo b l info
  | None, Some mtu => Some (RSetMTU (int_at b 4) mtu)
  | None, None => if (int_at b 8 =? IFF_UP) && (int_at b 12 =? IFF_UP) then Some (RSetUp (int_at b 4)) else None
  end.

(** A request with its sequence number and its flags. *)
Definition understand (b : bytes) : option (Z * Z * request) :=
  m ← read_msg b;
  let body := mbody m in
  r ← (if mtype m =? RTM_NEWADDR then read_addr true body
       else if mtype m =? RTM_DELADDR then read_addr false body
       else if mtype m =? RTM_GETADDR then Some RDumpAddrs
       else if mtype m =? RTM_NEWROUTE then read_route true body
       else if mtype m =? RTM_DELROUTE then read_route false body
       else if mtype m =? RTM_GETROUTE then read_source body
       else if mtype m =? RTM_NEWLINK then read_link body
       else if mtype m =? RTM_DELLINK then Some (RDelLink (int_at body 4))
       else if mtype m =? RTM_GETLINK then Some RDumpLinks
       else None);
  Some (mseq m, mflags m, r).

(** ** What the requests mean *)

(** An interface name the kernel takes. *)
Definition name_wf (n : bytes) : Prop := Forall (fun c => c <> 0) n /\ zlen n < 16.

#[export] Instance name_wf_dec n : Decision (name_wf n).
Proof. unfold name_wf. apply _. Defined.

Definition u32_wf (z : Z) : Prop := 0 <= z < 2 ^ 32.

#[export] Instance u32_wf_dec z : Decision (u32_wf z).
Proof. unfold u32_wf. apply _. Defined.

(** A destination: a valid prefix, the default one written with the zero address. *)
Definition dst_wf (d : Prefix) : Prop := prefix_wf d /\ IsValid (paddr d) = true /\ 0 <= pbits d /\ (pbits d = 0 -> addr_val (paddr d) = 0).

#[export] Instance dst_wf_dec d : Decision (dst_wf d).
Proof. unfold dst_wf. apply _. Defined.

Definition command_wf (c : command) : Prop :=
  match c with
  | CAddAddr i a n | CDelAddr i a n => u32_wf i /\ 0 <= n < 2 ^ 8
  | CAddRoute i d | CDelRoute i d => u32_wf i /\ dst_wf d
  | CAddIP6Tnl n l r m => name_wf n /\ u32_wf m
  | CSetIP6TnlEndpoints i l r => 0 < i < 2 ^ 32
  | CAddVeth n p m => name_wf n /\ name_wf p /\ u32_wf m
  | CSetLinkUp i | CDelLink i => u32_wf i
  | CSetLinkMTU i m => u32_wf i /\ u32_wf m
  end.

(** The value of an address, in its 16-byte form. *)
Definition value16 (a : Addr) : Z := unbe (As16 a).

(** The flags and the request of a command: a request to create or replace, to create
    what is not there, or to change what is. *)
Definition meaning (c : command) : Z * request :=
  match c with
  | CAddAddr i a n => (0x505, RAddr true i (value16 a) n)
  | CDelAddr i a n => (0x5, RAddr false i (value16 a) n)
  | CAddRoute i d => (0x505, RRoute true i d)
  | CDelRoute i d => (0x5, RRoute false i d)
  | CAddIP6Tnl n l r m => (0x605, RAddTunnel n (value16 l) (value16 r) m)
  | CSetIP6TnlEndpoints i l r => (0x5, RSetTunnel i (value16 l) (value16 r))
  | CAddVeth n p m => (0x605, RAddVeth n p m m)
  | CSetLinkUp i => (0x5, RSetUp i)
  | CSetLinkMTU i m => (0x5, RSetMTU i m)
  | CDelLink i => (0x5, RDelLink i)
  end.

Lemma int_at_ne p v s : int_at (p ++ ne 4 v ++ s) (length p) = u32 v.
Proof.
  unfold int_at. rewrite drop_app_length. rewrite take_app_length' by (pose proof (zlen_ne 4 v); unfold zlen in *; lia).
  by rewrite unne_ne.
Qed.

Lemma take_ne n v s : take n (ne n v ++ s) = ne n v.
Proof. apply take_app_length'. pose proof (zlen_ne n v). unfold zlen in *. lia. Qed.

Lemma drop_ne n v s : drop n (ne n v ++ s) = s.
Proof. apply drop_app_length'. pose proof (zlen_ne n v). unfold zlen in *. lia. Qed.

Lemma drop_add {A} a b (l : list A) : drop (a + b) l = drop b (drop a l).
Proof. by rewrite drop_drop. Qed.

Lemma read_msg_encode m : msg_wf m -> 0 <= mflags m < 2 ^ 16 -> 0 <= mpid m < 2 ^ 32 -> read_msg (encode_msg m) = Some m.
Proof.
  intros (Ht & Hq & Hl) Hf Hp. unfold read_msg. pose proof (zlen_nonneg (mbody m)). rewrite zlen_encode_msg.
  rewrite (proj2 (Z.leb_le _ _)) by lia. unfold int_at, encode_msg.
  change 16%nat with (4 + (2 + (2 + (4 + 4))))%nat. change 12%nat with (4 + (2 + (2 + 4)))%nat.
  change 8%nat with (4 + (2 + 2))%nat. change 6%nat with (4 + 2)%nat. rewrite !drop_add, drop_0, !drop_ne, !take_ne, !unne_ne.
  change (256 ^ Z.of_nat 4) with (2 ^ 32). change (256 ^ Z.of_nat 2) with (2 ^ 16). rewrite !Z.mod_small by lia.
  rewrite Z.eqb_refl. cbn [andb]. by destruct m.
Qed.

Lemma run_collect l : forall acc, run_attrs (R := Empty_set) (fun acc t v => Ret (inl (acc ++ [(t, v)]))) acc l = Ret (inl (acc ++ l)).
Proof.
  induction l as [|[t v] l IH]; intros acc; cbn [run_attrs]; [by rewrite app_nil_r|]. rewrite bind_ret, IH. by rewrite <- app_assoc.
Qed.

Lemma read_attrs_encode l : Forall attr_wf l -> read_attrs (encode_attrs l) = l.
Proof. intros Hl. unfold read_attrs. by rewrite walk_encode, run_collect. Qed.

Lemma until_zero_text n : Forall (fun c => c <> 0) n -> until_zero (n ++ [0]) = n.
Proof. induction 1 as [|c n Hc Hn IH]; [done|]. cbn. rewrite (proj2 (Z.eqb_neq c 0)) by done. by rewrite IH. Qed.

(** A message of these, as it is understood. *)
Lemma understand_build t fl q body r : 0 <= t < 2 ^ 16 -> 0 <= fl < 2 ^ 16 -> u32_wf q -> zlen body < 2 ^ 31 ->
  (if t =? RTM_NEWADDR then read_addr true body
   else if t =? RTM_DELADDR then read_addr false body
   else if t =? RTM_GETADDR then Some RDumpAddrs
   else if t =? RTM_NEWROUTE then read_route true body
   else if t =? RTM_DELROUTE then read_route false body
   else if t =? RTM_GETROUTE then read_source body
   else if t =? RTM_NEWLINK then read_link body
   else if t =? RTM_DELLINK then Some (RDelLink (int_at body 4))
   else if t =? RTM_GETLINK then Some RDumpLinks
   else None) = Some r ->
  understand (buildMessage t fl q body) = Some (q, fl, r).
Proof.
  intros Ht Hf Hq Hl Hr. change (buildMessage t fl q body) with (encode_msg (mkMsg t fl q 0 body)).
  unfold understand. rewrite read_msg_encode by done. cbn [mbind option_bind mbody mtype mseq mflags]. rewrite Hr. done.
Qed.

Lemma read_attrs_at p l : Forall attr_wf l -> read_attrs (drop (length p) (p ++ encode_attrs l)) = l.
Proof. intros. rewrite drop_app_length. by apply read_attrs_encode. Qed.

Lemma attr_wf_short t v : 0 <= t < 2 ^ 16 -> zlen v <= 1024 -> attr_wf (t, v).
Proof. intros. split; [done|cbn; lia]. Qed.

Lemma length_ne n v : length (ne n v) = n.
Proof. pose proof (zlen_ne n v). unfold zlen in *. lia. Qed.

Lemma attr_here t v l : attr t ((t, v) :: l) = Some v.
Proof. cbn [attr]. by rewrite Z.eqb_refl. Qed.

Lemma attr_skip t t' v l : t' <> t -> attr t ((t', v) :: l) = attr t l.
Proof. intros Hne. cbn [attr]. by rewrite (proj2 (Z.eqb_neq _ _)). Qed.

Lemma attr_addr_As16 t a l : attr_addr t ((t, As16 a) :: l) = Some (value16 a).
Proof. unfold attr_addr. cbn [attr]. rewrite Z.eqb_refl. cbn [mbind option_bind]. by rewrite zlen_As16. Qed.

Lemma attr_addr_skip t t' v l : t' <> t -> attr_addr t ((t', v) :: l) = attr_addr t l.
Proof. intros Hne. unfold attr_addr. cbn [attr]. by rewrite (proj2 (Z.eqb_neq _ _)). Qed.

Lemma attr_int_ne t v l : u32_wf v -> attr_int t ((t, ne 4 v) :: l) = Some v.
Proof.
  intros Hv. unfold attr_int. cbn [attr]. rewrite Z.eqb_refl. cbn [mbind option_bind]. rewrite zlen_ne, unne_ne.
  change (256 ^ Z.of_nat 4) with (2 ^ 32). by rewrite Z.mod_small.
Qed.

Lemma attr_int_skip t t' v l : t' <> t -> attr_int t ((t', v) :: l) = attr_int t l.
Proof. intros Hne. unfold attr_int. cbn [attr]. by rewrite (proj2 (Z.eqb_neq _ _)). Qed.

Lemma u32_id v : u32_wf v -> u32 v = v.
Proof. apply Z.mod_small. Qed.

Ltac attrs_wf := repeat (apply Forall_cons; split; [apply attr_wf_short; [done|rewrite ?zlen_As16, ?zlen_ne; done || lia]|]); constructor.

Lemma read_addr_ok new i a n : u32_wf i ->
  read_addr new ([AF_INET6; n; 0; 0] ++ ne 4 i ++ encodeRtAttr IFA_LOCAL (As16 a) ++ encodeRtAttr IFA_ADDRESS (As16 a))
  = Some (RAddr new i (value16 a) n).
Proof.
  intros Hi. set (b := _ ++ _).
  assert (read_attrs (drop 8 b) = [(IFA_LOCAL, As16 a); (IFA_ADDRESS, As16 a)]) as E.
  { pose proof (read_attrs_at ([AF_INET6; n; 0; 0] ++ ne 4 i) [(IFA_LOCAL, As16 a); (IFA_ADDRESS, As16 a)]) as E.
    rewrite length_app, length_ne in E. cbn [length Nat.add encode_attrs flat_map fst snd] in E. rewrite app_nil_r, <- app_assoc in E.
    apply E. attrs_wf. }
  assert (int_at b 4 = i) as E4 by (unfold b; rewrite (int_at_ne [AF_INET6; n; 0; 0]); by apply u32_id).
  unfold read_addr. rewrite E, E4, attr_addr_As16. cbn [mbind option_bind]. rewrite attr_addr_skip, attr_addr_As16 by done.
  cbn [mbind option_bind]. by rewrite Z.eqb_refl.
Qed.

Lemma zlen_attr_le t v : zlen v + 4 <= zlen (encodeRtAttr t v) <= zlen v + 7.
Proof. rewrite zlen_encodeRtAttr. pose proof (nlmsgAlign_bounds (4 + zlen v)). lia. Qed.

(** Length goals about the fields of a message. *)
Ltac msg_lia :=
  repeat first [rewrite zlen_app | rewrite zlen_cons | rewrite zlen_nil | rewrite zlen_ne | rewrite zlen_As16];
  repeat match goal with
         | |- context [zlen (encodeRtAttr ?t ?v)] =>
           let n := fresh "n" in let Hn := fresh "Hn" in
           pose proof (zlen_attr_le t v) as Hn; revert Hn; generalize (zlen (encodeRtAttr t v)); intros n Hn;
           revert Hn; repeat first [rewrite zlen_app | rewrite zlen_cons | rewrite zlen_nil | rewrite zlen_ne | rewrite zlen_As16]; intros Hn
         end; lia.

Lemma understand_addr t fl q i a n : t = RTM_NEWADDR \/ t = RTM_DELADDR -> 0 <= fl < 2 ^ 16 -> u32_wf q -> u32_wf i -> 0 <= n < 2 ^ 8 ->
  understand (buildAddrMessage t fl q i a n) = Some (q, fl, RAddr (t =? RTM_NEWADDR) i (value16 a) n).
Proof.
  intros Ht Hf Hq Hi Hn. unfold buildAddrMessage. rewrite (Z.mod_small n) by done.
  apply understand_build; [destruct Ht as [-> | ->]; done|done|done|msg_lia|].
  destruct Ht as [-> | ->]; cbn [Z.eqb]; by apply read_addr_ok.
Qed.

Definition default_dst (d : Prefix) : Addr := if Is4 (paddr d) then A4 0 else A6 0 "".

Lemma read_route_ok new i family d v :
  u32_wf i -> family = (if Is4 d then AF_INET else AF_INET6) -> AddrFromSlice v = Some d -> zlen v <= 1024 -> forall bits, 0 <= bits ->
  (bits = 0 -> addr_val d = 0) -> Zone d = "" ->
  read_route new ([family; bits; 0; 0; RT_TABLE_MAIN; RTPROT_STATIC; RT_SCOPE_LINK; RTN_UNICAST] ++ ne 4 0
    ++ (if 0 <? bits then encodeRtAttr RTA_DST v else []) ++ encodeRtAttr RTA_OIF (ne 4 i))
  = Some (RRoute new i (mkPrefix d bits)).
Proof.
  intros Hi Hfam Hv Hlv bits Hb H0 Hz. set (b := _ ++ _).
  assert (read_attrs (drop 12 b) = (if 0 <? bits then [(RTA_DST, v)] else []) ++ [(RTA_OIF, ne 4 i)]) as E.
  { pose proof (read_attrs_at ([family; bits; 0; 0; RT_TABLE_MAIN; RTPROT_STATIC; RT_SCOPE_LINK; RTN_UNICAST] ++ ne 4 0)
      ((if 0 <? bits then [(RTA_DST, v)] else []) ++ [(RTA_OIF, ne 4 i)])) as E.
    rewrite length_app, length_ne in E. cbn [length Nat.add] in E. rewrite <- E.
    - unfold b. rewrite <- app_assoc. do 3 f_equal. destruct (0 <? bits); cbn [app encode_attrs flat_map fst snd]; by rewrite app_nil_r.
    - destruct (0 <? bits); attrs_wf. }
  unfold read_route. rewrite E. clear E.
  assert (attr_int RTA_OIF ((if 0 <? bits then [(RTA_DST, v)] else []) ++ [(RTA_OIF, ne 4 i)]) = Some i) as ->
    by (destruct (0 <? bits); cbn [app]; rewrite ?attr_int_skip by done; by apply attr_int_ne).
  change (b !! 0%nat) with (Some family). change (b !! 1%nat) with (Some bits). cbn [mbind option_bind].
  assert (match attr RTA_DST ((if 0 <? bits then [(RTA_DST, v)] else []) ++ [(RTA_OIF, ne 4 i)]) with
          | Some v => AddrFromSlice v | None => Some (if family =? AF_INET then A4 0 else A6 0 "") end = Some d) as ->.
  { destruct (Z.ltb_spec 0 bits); [exact Hv|]. cbn. subst family. clear Hi b.
    destruct d as [|x|x z]; [by unfold AddrFromSlice in Hv; repeat case_match|..]; cbn in *; subst; by rewrite H0 by lia. }
  cbn [mbind option_bind]. rewrite bool_decide_eq_true_2 by done. by rewrite Hfam, Z.eqb_refl.
Qed.

Lemma AddrFromSlice_As16 v : 0 <= v < 2 ^ 128 -> AddrFromSlice (As16 (A6 v "")) = Some (A6 v "").
Proof. intros Hv. unfold AddrFromSlice. rewrite zlen_As16. cbn [Z.eqb]. by rewrite As16_roundtrip. Qed.

Lemma understand_route t fl q i d : t = RTM_NEWROUTE \/ t = RTM_DELROUTE -> 0 <= fl < 2 ^ 16 -> u32_wf q -> u32_wf i -> dst_wf d ->
  exists req, buildRouteMessage t fl q i d = Ret req /\ understand req = Some (q, fl, RRoute (t =? RTM_NEWROUTE) i d).
Proof.
  intros Ht Hf Hq Hi ((Ha & Hz & Hbits) & Hvd & Hb & H0). destruct d as [d bits]. cbn [paddr pbits] in *.
  unfold buildRouteMessage. cbn [paddr pbits].
  assert (forall family v, family = (if Is4 d then AF_INET else AF_INET6) -> AddrFromSlice v = Some d -> zlen v <= 1024 ->
    understand (buildMessage t fl q ([family; u8 bits; 0; 0; RT_TABLE_MAIN; RTPROT_STATIC; RT_SCOPE_LINK; RTN_UNICAST]
      ++ ne 4 0 ++ (if 0 <? bits then encodeRtAttr RTA_DST v else []) ++ encodeRtAttr RTA_OIF (ne 4 i)))
    = Some (q, fl, RRoute (t =? RTM_NEWROUTE) i (mkPrefix d bits))) as Hu.
  { intros family v Hfam Hv Hlv. rewrite (Z.mod_small bits) by (destruct d; cbn in Hbits; lia).
    apply understand_build; [destruct Ht as [-> | ->]; done|done|done|destruct (0 <? bits); msg_lia|].
    destruct Ht as [-> | ->]; cbn [Z.eqb]; by apply read_route_ok. }
  destruct d as [|v|v z]; cbn [Is4 As4 BitLen] in *; [done|..]; cbn [mbind outcome_bind]; eexists; (split; [reflexivity|]).
  - apply Hu; [done| |by rewrite zlen_be]. unfold AddrFromSlice. rewrite zlen_be. cbn [Z.eqb]. by rewrite AddrFrom4_be.
  - cbn in Hz. subst z. apply Hu; [done|by apply AddrFromSlice_As16|by rewrite zlen_As16].
Qed.

Lemma understand_source q i a : u32_wf q -> u32_wf i ->
  understand (buildGetRouteMessage q i a) = Some (q, NLM_F_REQUEST, RSource i (value16 a)).
Proof.
  intros Hq Hi. unfold buildGetRouteMessage. apply understand_build; [done|done|done|msg_lia|]. cbn [Z.eqb].
  set (b := _ ++ _).
  assert (read_attrs (drop 12 b) = [(RTA_DST, As16 a); (RTA_OIF, ne 4 i)]) as E.
  { pose proof (read_attrs_at ([AF_INET6; 128; 0; 0; 0; 0; 0; RTN_UNICAST] ++ ne 4 0) [(RTA_DST, As16 a); (RTA_OIF, ne 4 i)]) as E.
    rewrite length_app, length_ne in E. cbn [length Nat.add encode_attrs flat_map fst snd] in E. rewrite app_nil_r, <- app_assoc in E.
    apply E. attrs_wf. }
  change (read_source b = Some (RSource i (value16 a))). unfold read_source. rewrite E, attr_int_skip, attr_int_ne by done.
  cbn [mbind option_bind]. rewrite attr_addr_As16. done.
Qed.

Lemma understand_dumps q : u32_wf q ->
  understand (buildGetAddrMessage q) = Some (q, Z.lor NLM_F_REQUEST NLM_F_DUMP, RDumpAddrs)
  /\ understand (buildGetLinkMessage q) = Some (q, Z.lor NLM_F_REQUEST NLM_F_DUMP, RDumpLinks).
Proof.
  intros Hq. split; (apply understand_build; [done|done|done| |done]); [done|]. unfold buildIfInfoBody. msg_lia.
Qed.

(** The messages about links: the fixed header, and attributes. *)
Lemma ifinfo_reads i f c l : Forall attr_wf l -> let b := buildIfInfoBody i f c ++ encode_attrs l in
  read_attrs (drop 16 b) = l /\ int_at b 4 = u32 i /\ int_at b 8 = u32 f /\ int_at b 12 = u32 c.
Proof.
  intros Hl b. assert (length (buildIfInfoBody i f c) = 16%nat) as H16 by (unfold buildIfInfoBody; rewrite !length_app, !length_ne; done).
  split_and!.
  - unfold b. rewrite <- H16. by apply read_attrs_at.
  - unfold b, buildIfInfoBody. rewrite <- !app_assoc. apply (int_at_ne [AF_UNSPEC; 0; 0; 0]).
  - pose proof (int_at_ne ([AF_UNSPEC; 0; 0; 0] ++ ne 4 i) f (ne 4 c ++ encode_attrs l)) as E.
    rewrite length_app, length_ne, <- app_assoc in E. unfold b, buildIfInfoBody. by rewrite <- !app_assoc.
  - pose proof (int_at_ne ([AF_UNSPEC; 0; 0; 0] ++ ne 4 i ++ ne 4 f) c (encode_attrs l)) as E.
    rewrite !length_app, !length_ne, <- !app_assoc in E. unfold b, buildIfInfoBody. by rewrite <- !app_assoc.
Qed.

Lemma understand_link q fl i f c l r : u32_wf q -> 0 <= fl < 2 ^ 16 -> Forall attr_wf l -> zlen (encode_attrs l) <= 8192 ->
  (forall b, read_attrs (drop 16 b) = l -> int_at b 4 = u32 i -> int_at b 8 = u32 f -> int_at b 12 = u32 c -> read_link b = Some r) ->
  understand (buildMessage RTM_NEWLINK fl q (buildIfInfoBody i f c ++ encode_attrs l)) = Some (q, fl, r).
Proof.
  intros Hq Hf Hl Hz Hr. apply understand_build; [done|done|done| |].
  - unfold buildIfInfoBody. rewrite !zlen_app, !zlen_ne, !zlen_cons, zlen_nil. lia.
  - cbn [Z.eqb]. destruct (ifinfo_reads i f c l Hl) as (E1 & E2 & E3 & E4). by apply Hr.
Qed.

(** The description of a tunnel. *)
Definition tunnel_data (l r : Addr) : list (Z * bytes) :=
  [(iflaIPTunLocal, As16 l); (iflaIPTunRemote, As16 r); (iflaIPTunProto, [IPPROTO_IPIP]); (iflaIPTunFlags, ne 4 ip6TnlIgnEncapLimit)].

Lemma linkinfo_attrs l r : buildIP6TnlLinkInfo l r
  = encode_attrs [(IFLA_LINKINFO, encode_attrs [(IFLA_INFO_KIND, str "ip6tnl" ++ [0]); (IFLA_INFO_DATA, encode_attrs (tunnel_data l r))])].
Proof. unfold buildIP6TnlLinkInfo. unfold encode_attrs at 1. cbn [flat_map fst snd]. by rewrite app_nil_r. Qed.

Lemma zlen_attrs_cons t v l : zlen v + 4 + zlen (encode_attrs l) <= zlen (encode_attrs ((t, v) :: l)) <= zlen v + 7 + zlen (encode_attrs l).
Proof. rewrite encode_attrs_cons, zlen_app. pose proof (zlen_attr_le t v). lia. Qed.

Ltac attrs_lia :=
  repeat match goal with
         | |- context [encode_attrs ((?t, ?v) :: ?l)] =>
           let n := fresh "n" in let Hn := fresh "Hn" in
           pose proof (zlen_attrs_cons t v l) as Hn; revert Hn;
           generalize (zlen (encode_attrs ((t, v) :: l))); intros n; revert n
         end;
  rewrite ?zlen_As16, ?zlen_ne, ?zlen_app, ?zlen_cons, ?zlen_nil; change (encode_attrs []) with (@nil Z); rewrite ?zlen_nil;
  change (zlen (str "ip6tnl")) with 6; change (zlen (str "veth")) with 4; intros; lia.

Lemma zlen_tunnel_data l r : zlen (encode_attrs (tunnel_data l r)) <= 128.
Proof. unfold tunnel_data. attrs_lia. Qed.

Definition tunnel_info (l r : Addr) : list (Z * bytes) :=
  [(IFLA_INFO_KIND, str "ip6tnl" ++ [0]); (IFLA_INFO_DATA, encode_attrs (tunnel_data l r))].

Lemma tunnel_info_wf l r : Forall attr_wf (tunnel_info l r) /\ zlen (encode_attrs (tunnel_info l r)) <= 256.
Proof.
  pose proof (zlen_tunnel_data l r). split.
  - apply Forall_cons. split; [by apply attr_wf_short|]. apply Forall_cons. split; [apply attr_wf_short; [done|lia]|constructor].
  - unfold tunnel_info. attrs_lia.
Qed.

Lemma attr_text_name t n l : name_wf n -> attr_text t ((t, n ++ [0]) :: l) = Some n.
Proof. intros [Hn _]. unfold attr_text. cbn [attr]. rewrite Z.eqb_refl. cbn. by rewrite until_zero_text. Qed.

Lemma read_tunnel b l lo re : read_linkinfo b l (encode_attrs (tunnel_info lo re))
  = if int_at b 4 =? 0
    then name ← attr_text IFLA_IFNAME l; mtu ← attr_int IFLA_MTU l; Some (RAddTunnel name (value16 lo) (value16 re) mtu)
    else Some (RSetTunnel (int_at b 4) (value16 lo) (value16 re)).
Proof.
  unfold read_linkinfo. rewrite read_attrs_encode by apply tunnel_info_wf. unfold tunnel_info.
  rewrite attr_text_name by (split; [apply (bool_decide_unpack _); vm_compute; exact I|done]). cbn [mbind option_bind].
  rewrite attr_skip, attr_here by done. cbn [fmap option_fmap option_map mbind option_bind].
  rewrite (bool_decide_eq_true_2 (str "ip6tnl" = str "ip6tnl")) by done.
  assert (Forall attr_wf (tunnel_data lo re)) as Hd by (unfold tunnel_data; attrs_wf).
  rewrite read_attrs_encode by done. unfold tunnel_data. rewrite attr_addr_As16. cbn [mbind option_bind].
  rewrite attr_addr_skip, attr_addr_As16 by done. cbn [mbind option_bind].
  assert (attr_int iflaIPTunFlags [(iflaIPTunLocal, As16 lo); (iflaIPTunRemote, As16 re); (iflaIPTunProto, [IPPROTO_IPIP]);
    (iflaIPTunFlags, ne 4 ip6TnlIgnEncapLimit)] = Some ip6TnlIgnEncapLimit) as -> by (rewrite !attr_int_skip by done; by apply attr_int_ne).
  by rewrite !bool_decide_eq_true_2 by done.
Qed.

Lemma name_attr_wf t n : 0 <= t < 2 ^ 16 -> name_wf n -> attr_wf (t, n ++ [0]).
Proof. intros Ht [_ Hn]. apply attr_wf_short; [done|]. rewrite zlen_app, zlen_cons, zlen_nil. lia. Qed.

Lemma mtu_attr_wf m : attr_wf (IFLA_MTU, ne 4 m).
Proof. apply attr_wf_short; [done|]. by rewrite zlen_ne. Qed.

Lemma understand_AddIP6Tnl q fl n l r m : u32_wf q -> 0 <= fl < 2 ^ 16 -> name_wf n -> u32_wf m ->
  understand (buildAddIP6TnlMessage q fl n l r m) = Some (q, fl, RAddTunnel n (value16 l) (value16 r) m).
Proof.
  intros Hq Hf Hn Hm. unfold buildAddIP6TnlMessage. destruct (tunnel_info_wf l r) as [Hi Hz].
  rewrite linkinfo_attrs. change [(IFLA_INFO_KIND, _); _] with (tunnel_info l r).
  change (encodeRtAttr IFLA_IFNAME (n ++ [0]) ++ encodeRtAttr IFLA_MTU (ne 4 m) ++ encode_attrs ?l)
    with (encode_attrs ((IFLA_IFNAME, n ++ [0]) :: (IFLA_MTU, ne 4 m) :: l)).
  pose proof Hn as [_ Hln]. apply understand_link; [done|done| | |].
  - repeat (apply Forall_cons; split); [by apply name_attr_wf|apply mtu_attr_wf|apply attr_wf_short; [done|lia]|constructor].
  - attrs_lia.
  - intros b E1 E2 _ _. unfold read_link. rewrite E1. cbn [attr Z.eqb IFLA_LINKINFO IFLA_IFNAME IFLA_MTU Pos.eqb].
    rewrite read_tunnel, E2. change (u32 0 =? 0) with true. cbn iota. rewrite attr_text_name by done. cbn [mbind option_bind].
    rewrite attr_int_skip, attr_int_ne by done. done.
Qed.

Lemma understand_ChangeIP6Tnl q i l r : u32_wf q -> 0 < i < 2 ^ 32 ->
  understand (buildChangeIP6TnlMessage q i l r) = Some (q, 0x5, RSetTunnel i (value16 l) (value16 r)).
Proof.
  intros Hq Hi. unfold buildChangeIP6TnlMessage. destruct (tunnel_info_wf l r) as [Hw Hz].
  rewrite linkinfo_attrs. change [(IFLA_INFO_KIND, _); _] with (tunnel_info l r).
  apply understand_link; [done|done| | |].
  - apply Forall_cons. split; [apply attr_wf_short; [done|lia]|constructor].
  - attrs_lia.
  - intros b E1 E2 _ _. unfold read_link. rewrite E1. cbn [attr Z.eqb IFLA_LINKINFO Pos.eqb].
    rewrite read_tunnel, E2, u32_id by (unfold u32_wf; lia). by rewrite (proj2 (Z.eqb_neq i 0)) by lia.
Qed.

Lemma understand_plain_links q i m : u32_wf q -> u32_wf i -> u32_wf m ->
  understand (buildSetLinkUpMessage q i) = Some (q, 0x5, RSetUp i)
  /\ understand (buildSetLinkMTUMessage q i m) = Some (q, 0x5, RSetMTU i m)
  /\ understand (buildDelLinkMessage q i) = Some (q, 0x5, RDelLink i).
Proof.
  intros Hq Hi Hm. split_and!.
  - unfold buildSetLinkUpMessage. rewrite <- (app_nil_r (buildIfInfoBody _ _ _)).
    apply (understand_link q _ i IFF_UP IFF_UP []); [done|done|constructor|done|].
    intros b E1 E2 E3 E4. unfold read_link. by rewrite E1, E2, E3, E4, u32_id.
  - unfold buildSetLinkMTUMessage. rewrite <- (app_nil_r (encodeRtAttr _ _)).
    apply (understand_link q _ i 0 0 [(IFLA_MTU, ne 4 m)]); [done|done| |attrs_lia|].
    + apply Forall_cons. split; [apply mtu_attr_wf|constructor].
    + intros b E1 E2 _ _. unfold read_link. rewrite E1, E2, attr_int_ne, u32_id by done. done.
  - apply understand_build; [done|done|done| |].
    + unfold buildIfInfoBody. msg_lia.
    + cbn [Z.eqb]. destruct (ifinfo_reads i 0 0 [] (Forall_nil_2 _)) as (_ & E & _). rewrite app_nil_r in E.
      change (Some (RDelLink (int_at (buildIfInfoBody i 0 0) 4)) = Some (RDelLink i)). by rewrite E, u32_id.
Qed.

Definition veth_attrs (n : bytes) (m : Z) : list (Z * bytes) := [(IFLA_IFNAME, n ++ [0]); (IFLA_MTU, ne 4 m)].
Definition veth_data (p : bytes) (m : Z) : list (Z * bytes) := [(vethInfoPeer, buildIfInfoBody 0 0 0 ++ encode_attrs (veth_attrs p m))].
Definition veth_info (p : bytes) (m : Z) : list (Z * bytes) :=
  [(IFLA_INFO_KIND, str "veth" ++ [0]); (IFLA_INFO_DATA, encode_attrs (veth_data p m))].

Lemma veth_attrs_wf n m : name_wf n -> Forall attr_wf (veth_attrs n m) /\ zlen (encode_attrs (veth_attrs n m)) <= 128.
Proof.
  intros Hn. pose proof Hn as [_ Hl]. split.
  - apply Forall_cons. split; [by apply name_attr_wf|]. apply Forall_cons. split; [apply mtu_attr_wf|constructor].
  - unfold veth_attrs. attrs_lia.
Qed.

Lemma veth_data_wf p m : name_wf p -> Forall attr_wf (veth_data p m) /\ zlen (encode_attrs (veth_data p m)) <= 256.
Proof.
  intros Hp. destruct (veth_attrs_wf p m Hp) as [_ Hl].
  assert (zlen (buildIfInfoBody 0 0 0) = 16) as H16 by (unfold buildIfInfoBody; rewrite !zlen_app, !zlen_ne, !zlen_cons, zlen_nil; lia).
  split; [apply Forall_cons; split; [apply attr_wf_short; [done|rewrite zlen_app; lia]|constructor]|].
  unfold veth_data. revert H16. generalize (buildIfInfoBody 0 0 0). intros h H16. attrs_lia.
Qed.

Lemma veth_info_wf p m : name_wf p -> Forall attr_wf (veth_info p m) /\ zlen (encode_attrs (veth_info p m)) <= 512.
Proof.
  intros Hp. destruct (veth_data_wf p m Hp) as [_ Hl]. split.
  - apply Forall_cons. split; [by apply attr_wf_short|]. apply Forall_cons. split; [apply attr_wf_short; [done|lia]|constructor].
  - unfold veth_info. attrs_lia.
Qed.

Lemma read_veth b n p m : name_wf n -> name_wf p -> u32_wf m -> forall rest,
  read_linkinfo b (veth_attrs n m ++ rest) (encode_attrs (veth_info p m)) = Some (RAddVeth n p m m).
Proof.
  intros Hn Hp Hm rest. unfold read_linkinfo. rewrite read_attrs_encode by by apply veth_info_wf. unfold veth_info.
  rewrite attr_text_name by (split; [apply (bool_decide_unpack _); vm_compute; exact I|done]). cbn [mbind option_bind].
  rewrite attr_skip, attr_here by done. cbn [fmap option_fmap option_map mbind option_bind].
  rewrite bool_decide_eq_false_2 by (intros E; vm_compute in E; discriminate). rewrite bool_decide_eq_true_2 by done.
  rewrite read_attrs_encode by by apply veth_data_wf. unfold veth_data. rewrite attr_here. cbn [fmap option_fmap option_map mbind option_bind].
  destruct (ifinfo_reads 0 0 0 (veth_attrs p m)) as (-> & _); [by apply veth_attrs_wf|].
  unfold veth_attrs. cbn [app]. rewrite attr_text_name by done. cbn [mbind option_bind].
  rewrite (attr_int_skip _ _ (n ++ [0])), attr_int_ne by done. cbn [mbind option_bind]. rewrite attr_text_name by done.
  cbn [mbind option_bind]. by rewrite (attr_int_skip _ _ (p ++ [0])), attr_int_ne by done.
Qed.

Lemma understand_AddVeth q fl n p m : u32_wf q -> 0 <= fl < 2 ^ 16 -> name_wf n -> name_wf p -> u32_wf m ->
  understand (buildAddVethMessage q fl n p m) = Some (q, fl, RAddVeth n p m m).
Proof.
  intros Hq Hf Hn Hp Hm. destruct (veth_info_wf p m Hp) as [Hi Hz]. destruct (veth_attrs_wf n m Hn) as [Ha Hza].
  assert (buildAddVethMessage q fl n p m = buildMessage RTM_NEWLINK fl q
    (buildIfInfoBody 0 0 0 ++ encode_attrs (veth_attrs n m ++ [(IFLA_LINKINFO, encode_attrs (veth_info p m))]))) as ->.
  { unfold buildAddVethMessage, veth_info, veth_data, veth_attrs, encode_attrs, encodeNestedAttr. cbn [flat_map app fst snd concat].
    by rewrite ?app_nil_r, <- ?app_assoc. }
  apply understand_link; [done|done| | |].
  - apply Forall_app. split; [done|]. apply Forall_cons. split; [apply attr_wf_short; [done|lia]|constructor].
  - rewrite encode_attrs_app, zlen_app. revert Hz Hza. generalize (zlen (encode_attrs (veth_attrs n m))), (encode_attrs (veth_info p m)). intros z info Hz Hza.
    attrs_lia.
  - intros b E1 E2 _ _. unfold read_link. rewrite E1. unfold veth_attrs at 1. cbn [app].
    rewrite !attr_skip, attr_here by done. by apply read_veth.
Qed.

(** ** Answered requests *)

(** An acknowledgement: its sequence number, its errno, and the request echoed. *)
Definition is_ack (q e : Z) (d : bytes) : Prop :=
  exists fl pid len echo, d = ne 4 len ++ ne 2 NLMSG_ERROR ++ ne 2 fl ++ ne 4 q ++ ne 4 pid ++ ne 4 e ++ echo /\ 16 <= zlen echo.

Lemma parse_ack q e d n : is_ack q e d -> 36 <= n -> u32_wf q -> -4095 <= e <= 0 ->
  parseAckErrno (take (Z.to_nat n) d) q = Ret (if e =? 0 then None else Some (Errno (- e))).
Proof.
  intros (fl & pid & len & echo & -> & Hecho) Hn Hq He.
  set (h := ne 4 len ++ ne 2 NLMSG_ERROR ++ ne 2 fl ++ ne 4 q ++ ne 4 pid ++ ne 4 e).
  assert (length h = 20%nat) as Hh by (unfold h; rewrite !length_app, !length_ne; done).
  assert (take (Z.to_nat n) (ne 4 len ++ ne 2 NLMSG_ERROR ++ ne 2 fl ++ ne 4 q ++ ne 4 pid ++ ne 4 e ++ echo)
    = h ++ take (Z.to_nat n - 20) echo) as ->.
  { rewrite <- Hh. transitivity (take (Z.to_nat n) (h ++ echo)); [unfold h; by rewrite <- !app_assoc|]. rewrite take_app.
    rewrite take_ge by lia. done. }
  assert (16 <= zlen (take (Z.to_nat n - 20) echo)) as Ht by (rewrite zlen_take; lia).
  unfold parseAckErrno, SizeofNlMsghdr, SizeofNlMsgerr. rewrite zlen_app. replace (zlen h) with 20 by (unfold zlen; lia).
  rewrite (proj2 (Z.ltb_ge _ _)) by lia. unfold h. rewrite <- !app_assoc. generalize (take (Z.to_nat n - 20) echo). intros tl.
  rewrite nget_ne, bind_ret by apply zlen_ne.
  rewrite (nget_at 4 (ne 4 len ++ ne 2 NLMSG_ERROR ++ ne 2 fl) q (ne 4 pid ++ ne 4 e ++ tl) _ 8), bind_ret
    by (rewrite ?zlen_app, ?zlen_ne, <- ?app_assoc; reflexivity).
  rewrite (nget_at 4 (ne 4 len ++ ne 2 NLMSG_ERROR ++ ne 2 fl ++ ne 4 q ++ ne 4 pid) e tl _ 16), bind_ret
    by (rewrite ?zlen_app, ?zlen_ne, <- ?app_assoc; reflexivity).
  change (256 ^ Z.of_nat 2) with (2 ^ 16). change (256 ^ Z.of_nat 4) with (2 ^ 32). rewrite (u32_id q) by done.
  change (NLMSG_ERROR mod 2 ^ 16) with NLMSG_ERROR. rewrite !Z.eqb_refl. cbn [negb].
  assert (i32 (u32 e) = e) as ->.
  { unfold i32. rewrite Zplus_mod_idemp_l, Z.mod_small by lia. lia. }
  destruct (Z.eqb_spec e 0); [done|]. do 3 f_equal. unfold i32. rewrite (Z.mod_small (_ + _)) by lia. rewrite Z.mod_small; lia.
Qed.

(** What a kernel answers a request that asks for an acknowledgement: the send fails, or
    it acknowledges it once, with an errno. *)
Class KernelAcks (K : Type) `{Kernel K} : Prop := serve_acks (k : K) b q fl r :
  understand b = Some (q, fl, r) -> Z.testbit fl 2 = true ->
  match (serve k b).1 with
  | inl _ => True
  | inr ds => exists e d, ds = [inl d] /\ is_ack q e d /\ -4095 <= e <= 0
  end.

Section Paired.
Context {K : Type} `{KernelAcks K}.
Hypothesis Hpage : 36 <= Getpagesize.

(** The requests about routes, once their bytes are built. *)
Definition send_route (t fl q i : Z) (d : Prefix) : @M K unit := fun s =>
  match buildRouteMessage t fl q i d with
  | Ret req => sendAndAck req q s | Fail e => (Failed (OtherError e), s) | Panic => (Crashed, s) end.

Lemma route_step t (add : bool) i d (s : Socket K) : t = (if add then RTM_NEWROUTE else RTM_DELROUTE) ->
  (if add then AddRoute i d s else DelRoute i d s)
  = send_route t (if add then 0x505 else 0x5) (u32 (seq s + 1)) i d (mkSocket (u32 (seq s + 1)) (pending s) (kernel s)).
Proof.
  intros ->. unfold send_route. destruct add; unfold AddRoute, DelRoute, mbind, M_bind, next_seq, lift; change (or _) with 0x505 || change (or _) with 0x5;
    by destruct (buildRouteMessage _ _ _ _ _).
Qed.

(** The bytes a command sends, and how they are understood. *)
Lemma command_sends c (s : Socket K) : command_wf c -> let q := u32 (seq s + 1) in
  exists req, understand req = Some (q, (meaning c).1, (meaning c).2)
    /\ run_command c s = sendAndAck req q (mkSocket q (pending s) (kernel s)).
Proof.
  intros Hc q. assert (u32_wf q) as Hq by (apply Z.mod_pos_bound; done).
  destruct c; cbn [command_wf meaning fst snd run_command] in *.
  - eexists. split; [|reflexivity]. apply (understand_addr RTM_NEWADDR); [by left|done|done|tauto..].
  - eexists. split; [|reflexivity]. apply (understand_addr RTM_DELADDR); [by right|done|done|tauto..].
  - destruct Hc as [Hi Hd]. destruct (understand_route RTM_NEWROUTE 0x505 q ifindex dst) as (req & E & Hu); [by left|done..|].
    exists req. split; [exact Hu|]. pose proof (route_step RTM_NEWROUTE true ifindex dst s eq_refl) as Hs.
    cbn iota in Hs. rewrite Hs. unfold send_route. fold q. by rewrite E.
  - destruct Hc as [Hi Hd]. destruct (understand_route RTM_DELROUTE 0x5 q ifindex dst) as (req & E & Hu); [by right|done..|].
    exists req. split; [exact Hu|]. pose proof (route_step RTM_DELROUTE false ifindex dst s eq_refl) as Hs.
    cbn iota in Hs. rewrite Hs. unfold send_route. fold q. by rewrite E.
  - eexists. split; [|reflexivity]. destruct Hc. by apply understand_AddIP6Tnl.
  - eexists. split; [|reflexivity]. by apply understand_ChangeIP6Tnl.
  - eexists. split; [|reflexivity]. destruct Hc as (? & ? & ?). by apply understand_AddVeth.
  - eexists. split; [|reflexivity]. by destruct (understand_plain_links q ifindex 0) as (? & _ & _).
  - eexists. split; [|reflexivity]. destruct Hc. by destruct (understand_plain_links q ifindex mtu) as (_ & ? & _).
  - eexists. split; [|reflexivity]. by destruct (understand_plain_links q ifindex 0) as (_ & _ & ?).
Qed.

Lemma meaning_acked c : Z.testbit (meaning c).1 2 = true.
Proof. by destruct c. Qed.

(** The answer to a request, as its caller gets it. *)
Definition outcome_of (e : Z) : io unit := if e =? 0 then Done tt else Failed (Errno (- e)).

Lemma sendAndAck_paired req q fl r (s : Socket K) : understand req = Some (q, fl, r) -> Z.testbit fl 2 = true -> u32_wf q -> pending s = [] ->
  exists res, sendAndAck req q s = (res, mkSocket (seq s) [] (serve (kernel s) req).2)
    /\ match (serve (kernel s) req).1 with
       | inl e => res = Failed e
       | inr ds => exists e d, ds = [inl d] /\ is_ack q e d /\ -4095 <= e <= 0 /\ res = outcome_of e
       end.
Proof.
  intros Hu Hf Hq Hp. pose proof (serve_acks (kernel s) req q fl r Hu Hf) as Ha. unfold sendAndAck, mbind, M_bind, Send.
  destruct (serve (kernel s) req) as [[e|ds] k] eqn:E; cbn [fst snd] in *; rewrite Hp.
  - eexists. split; [reflexivity|done].
  - destruct Ha as (e & d & -> & Hd & He). cbn [app Recvfrom pending seq kernel]. unfold lift.
    rewrite (parse_ack q e d) by done. exists (outcome_of e). unfold outcome_of.
    split; [by destruct (e =? 0)|]. by exists e, d.
Qed.

(** A call on a socket with nothing pending: the state is the sequence number and the
    kernel. *)
Definition over (m : @M K unit) (s : Z * K) : option string * (Z * K) :=
  match m (mkSocket s.1 [] s.2) with
  | (Done _, t) => (None, (seq t, kernel t))
  | (_, t) => (Some "netlink"%string, (seq t, kernel t))
  end.

(** An acknowledgement has one errno. *)
Lemma is_ack_errno q e d : u32_wf q -> -4095 <= e <= 0 -> is_ack q e d -> is_ack q 0 d -> e = 0.
Proof using Hpage.
  intros Hq He Hx Hy. pose proof (parse_ack q e d Getpagesize Hx Hpage Hq He) as E1.
  pose proof (parse_ack q 0 d Getpagesize Hy Hpage Hq ltac:(lia)) as E2. rewrite E1 in E2. by destruct (Z.eqb_spec e 0).
Qed.

(** What a call leaves: what the kernel made of its request, which the kernel has
    acknowledged if there is no error, and only then. *)
Lemma over_command c (s : Z * K) : command_wf c ->
  let '(err, t) := over (run_command c) s in
  exists req q, understand req = Some (q, (meaning c).1, (meaning c).2) /\ t.2 = (serve s.2 req).2
    /\ match err with
       | None => exists d, (serve s.2 req).1 = inr [inl d] /\ is_ack q 0 d
       | Some _ => forall d, (serve s.2 req).1 = inr [inl d] -> ~ is_ack q 0 d
       end.
Proof using All.
  intros Hc. unfold over. set (s0 := mkSocket s.1 [] s.2).
  destruct (command_sends c s0 Hc) as (req & Hu & Hr).
  assert (u32_wf (u32 (seq s0 + 1))) as Hq by (by apply Z.mod_pos_bound).
  destruct (sendAndAck_paired req _ _ _ (mkSocket (u32 (seq s0 + 1)) (pending s0) (kernel s0)) Hu (meaning_acked c) Hq eq_refl)
    as (res & Hs & Hres).
  rewrite Hr, Hs. cbn [seq kernel s0] in *.
  destruct (serve s.2 req) as [[e|ds] k'] eqn:Esrv; cbn [fst snd] in *.
  - subst res. exists req. eexists. rewrite Esrv. split; [exact Hu|]. by split.
  - destruct Hres as (e & d & -> & Hd & He & ->). unfold outcome_of.
    destruct (Z.eqb_spec e 0) as [->|Hne]; exists req; eexists; rewrite Esrv; cbn [fst snd]; (split; [exact Hu|]); (split; [done|]).
    + by exists d.
    + intros d' [= <-] Hd'. apply Hne. by eapply is_ack_errno.
Qed.
End Paired.

(** C35: every request is understood, answered and paired with its own answer.  With
    nothing pending, over a kernel that acknowledges what asks for it, each of the ten
    kinds of request the program makes sends bytes that read -- in either byte order --
    as exactly the request meant, under the next sequence number; the call returns what
    the kernel acknowledged it with, and leaves nothing pending, so that the next
    request reads its own answer too. *)
Theorem requests_paired {K} `{KernelAcks K} c (s : Socket K) : 36 <= Getpagesize -> command_wf c -> pending s = [] ->
  exists req res, let q := u32 (seq s + 1) in let served := serve (kernel s) req in
    understand req = Some (q, (meaning c).1, (meaning c).2)
    /\ run_command c s = (res, mkSocket q [] served.2)
    /\ match served.1 with
       | inl e => res = Failed e
       | inr ds => exists e d, ds = [inl d] /\ is_ack q e d /\ res = if e =? 0 then Done tt else Failed (Errno (- e))
       end.
Proof.
  intros Hpage Hc Hp. destruct (command_sends c s Hc) as (req & Hu & Hr).
  destruct (sendAndAck_paired Hpage req _ _ _ (mkSocket (u32 (seq s + 1)) (pending s) (kernel s)) Hu (meaning_acked c)) as (res & Hs & Hres);
    [by apply Z.mod_pos_bound|done|]. cbn [seq kernel] in *. exists req, res. cbn zeta.
  split; [done|]. split; [by rewrite Hr|]. destruct (serve (kernel s) req).1 as [e|ds]; [done|].
  destruct Hres as (e & d & ? & ? & _ & ?). by exists e, d.
Qed.
End Codec.

(** ** Samples *)

Section SampleAcks.
Context `{Machine}.

Definition sample_ack (q e : Z) : bytes :=
  ne 4 36 ++ ne 2 NLMSG_ERROR ++ ne 2 0 ++ ne 4 q ++ ne 4 0 ++ ne 4 e ++ zeros 16.

Lemma sample_ack_is q e : is_ack q e (sample_ack q e).
Proof. exists 0, 0, 36, (zeros 16). split; [reflexivity|discriminate]. Qed.

Lemma ack_errno_bytes q e d : is_ack q e d -> take 4 (drop 16 d) = ne 4 e.
Proof.
  intros (fl & pid & len & echo & -> & _). change 16%nat with (4 + (2 + (2 + (4 + 4))))%nat.
  by rewrite !drop_add, !drop_ne, take_ne.
Qed.

Lemma sample_errno q e : is_ack q 0 (sample_ack q e) -> -4095 <= e <= 0 -> e = 0.
Proof.
  intros Ha He. pose proof (ack_errno_bytes _ _ _ Ha) as E. rewrite (ack_errno_bytes q e) in E by apply sample_ack_is.
  apply (f_equal unne) in E. rewrite !unne_ne in E. change (256 ^ Z.of_nat 4) with (2 ^ 32) in E.
  destruct (decide (e = 0)) as [|Hne]; [done|]. change (u32 0) with 0 in E. apply Z.mod_divide in E as [z Hz]; lia.
Qed.
End SampleAcks.

#[local] Instance sample_machine : Machine := {| little_endian := true; Getpagesize := 4096 |}.

(** A kernel that keeps what it is asked; it refuses an address on the interface 9
    (ENODEV). *)
Definition sample_kernel : Kernel (list request) := fun k b =>
  match understand b with
  | Some (q, fl, r) =>
    if Z.testbit fl 2 then (inr [inl (sample_ack q (match r with RAddr _ 9 _ _ => -19 | _ => 0 end))], r :: k) else (inr [], k)
  | None => (inl (OtherError "short write"), k)
  end.

Lemma sample_acks : @KernelAcks sample_machine (list request) sample_kernel.
Proof.
  intros k b q fl r Hu Hf. unfold serve, sample_kernel. rewrite Hu, Hf. cbn [fst]. eexists _, _. split; [reflexivity|]. split.
  - apply sample_ack_is.
  - destruct r as [? i ? ?| | | | | | | | | |]; try lia. repeat case_match; lia.
Qed.

Definition sample_socket : Socket (list request) := mkSocket 6 [] [].


Lemma requests_paired_witness :
  let s := (@run_command sample_machine (list request) sample_kernel (CAddAddr 9 (A6 1 "") 64) sample_socket).2 in
  seq s = 7 /\ pending s = [] /\ kernel s = [RAddr true 9 1 64].
Proof.
  destruct (@requests_paired sample_machine (list request) sample_kernel sample_acks (CAddAddr 9 (A6 1 "") 64) sample_socket)
    as (req & res & Hu & Hr & _); [discriminate|by_eval|reflexivity|].
  rewrite Hr. split; [reflexivity|]. split; [reflexivity|]. cbn [kernel snd]. unfold serve, sample_kernel. rewrite Hu. reflexivity.
Defined.
