(* ===== verification/Ethtool.v ===== *)
(** Driver statistics: src/pkg/ethtool/ethtool.go, the counters `ethtool -S` prints.

    The kernel behind the ioctl is an argument, the class [Ethdev]; [EthdevLaws] is what
    <linux/ethtool.h> documents of its three commands.  The kernel writes its answer over
    the caller's block and does not know how long the block is, so a call can also end
    with memory past it overwritten ([Overrun]). *)

From S2P Require Import Prelude Wire Netip Text Netlink.

Local Open Scope Z_scope.

Module unix_ethtool.
Definition ETHTOOL_GSTRINGS : Z := 0x1b.
Definition ETHTOOL_GSTATS : Z := 0x1d.
Definition ETHTOOL_GSSET_INFO : Z := 0x37.
Definition IFNAMSIZ : Z := 16.
Definition EINVAL : Z := 22.
Definition EOPNOTSUPP : Z := 95.
End unix_ethtool.
Import unix_ethtool.

Definition ethSSStats : Z := 1.
Definition ethGstringLen : Z := 32.
Definition maxStats : Z := Z.shiftl 1 16.

Record Stat : Type := mkStat { statName : bytes; Value : Z }.

(** ErrNotSupported apart from the other errors: a caller tells them apart. *)
Inductive answer (A : Type) : Type := Got (a : A) | ErrNotSupported | Failed (e : string) | Crashed | Overrun.
Arguments Got {A} _.
Arguments ErrNotSupported {A}.
Arguments Failed {A} _.
Arguments Crashed {A}.
Arguments Overrun {A}.

(** The ioctl on the interface of a name: errno, zero if none, and the bytes written from
    the start of the block on. *)
Class Ethdev (K : Type) : Type := SIOCETHTOOL : K -> bytes -> bytes -> (Z * bytes) * K.

Fixpoint cstring (b : bytes) : bytes :=
  match b with [] => [] | c :: b => if c =? 0 then [] else c :: cstring b end.

(** [words[0]] panics on an empty buffer. *)
Definition alignedBuf (n : Z) : outcome bytes := if (n + 7) / 8 <=? 0 then Panic else slice (zeros ((n + 7) / 8 * 8)) 0 n.

Section Ethtool.
Context `{Machine} {K : Type} `{Ethdev K}.

Definition E (A : Type) : Type := K -> answer A * K.
#[local] Instance E_ret : MRet E := fun A a k => (Got a, k).
#[local] Instance E_bind : MBind E := fun A B f m k =>
  match m k with
  | (Got a, k) => f a k
  | (ErrNotSupported, k) => (ErrNotSupported, k)
  | (Failed e, k) => (Failed e, k)
  | (Crashed, k) => (Crashed, k)
  | (Overrun, k) => (Overrun, k)
  end.

Definition not_supported {A} : E A := fun k => (ErrNotSupported, k).
Definition fails {A} (e : string) : E A := fun k => (Failed e, k).
Definition pure {A} (o : outcome A) : E A := fun k =>
  (match o with Ret a => Got a | Fail e => Failed e | Panic => Crashed end, k).

(** errno, and the block as the kernel leaves it. *)
Definition ioctlEthtool (ifname cmd : bytes) : E (Z * bytes) := fun k =>
  let '((errno, written), k) := SIOCETHTOOL k (field IFNAMSIZ ifname) cmd in
  (if zlen cmd <? zlen written then Overrun else Got (errno, written ++ drop (length written) cmd), k).

(** The zeroed block with its first fields written. *)
Definition block (size : Z) (head : bytes) : outcome bytes := buf ← alignedBuf size; rest ← from buf (zlen head); Ret (head ++ rest).

Definition statCount (ifname : bytes) : E Z :=
  pure (block 20 (ne 4 ETHTOOL_GSSET_INFO ++ ne 4 0 ++ ne 8 (Z.shiftl 1 ethSSStats))) ≫= fun buf =>
  ioctlEthtool ifname buf ≫= fun '(errno, buf) =>
  if negb (errno =? 0) then
    if (errno =? EOPNOTSUPP) || (errno =? EINVAL) then not_supported else fails "ETHTOOL_GSSET_INFO"
  else
    pure (nget 8 buf 8) ≫= fun mask =>
    if mask =? 0 then mret 0
    else pure (nget 4 buf 16) ≫= fun count => if maxStats <? count then fails "too many statistics" else mret count.

Definition statNames (ifname : bytes) (count : Z) : E (list bytes) :=
  pure (block (12 + count * ethGstringLen) (ne 4 ETHTOOL_GSTRINGS ++ ne 4 ethSSStats ++ ne 4 count)) ≫= fun buf =>
  ioctlEthtool ifname buf ≫= fun '(errno, buf) =>
  if negb (errno =? 0) then fails "ETHTOOL_GSTRINGS"
  else pure (mapM (fun i => cstring <$> slice buf (12 + i * ethGstringLen) (12 + i * ethGstringLen + ethGstringLen)) (seqZ 0 count)).

Definition statValues (ifname : bytes) (count : Z) : E (list Z) :=
  pure (block (8 + count * 8) (ne 4 ETHTOOL_GSTATS ++ ne 4 count)) ≫= fun buf =>
  ioctlEthtool ifname buf ≫= fun '(errno, buf) =>
  if negb (errno =? 0) then fails "ETHTOOL_GSTATS"
  else pure (mapM (fun i => unne <$> slice buf (8 + i * 8) (8 + i * 8 + 8)) (seqZ 0 count)).

(** [socket]: the ioctl's socket opens. *)
Definition Stats (socket : bool) (ifname : bytes) : E (list Stat) :=
  if bool_decide (ifname = []) || (IFNAMSIZ <=? zlen ifname) then fails "interface name"
  else if negb socket then fails "opening ioctl socket"
  else
    statCount ifname ≫= fun count =>
    if count =? 0 then not_supported
    else
      statNames ifname count ≫= fun names =>
      statValues ifname count ≫= fun values =>
      pure (mapM (fun i => (n ← idx names i; v ← idx values i; Ret (mkStat n v))) (seqZ 0 count)).

(** ** What the kernel documents *)

(** The statistics of the driver behind a name, none without them; a name fills its field
    or is padded with zeros. *)
Class EthdevLaws : Type := {
  driver : K -> bytes -> option (list Stat);
  driver_wf k n l : driver k n = Some l ->
    zlen l < 2 ^ 31 /\ Forall (fun s => is_bytes (statName s) /\ (0 ∉ statName s) /\ zlen (statName s) <= 32 /\ 0 <= Value s < 2 ^ 64) l;
  serve_info k n : (SIOCETHTOOL k (field IFNAMSIZ n) (ne 4 ETHTOOL_GSSET_INFO ++ ne 4 0 ++ ne 8 2 ++ zeros 4)).1 =
    match driver k n with
    | None => (EOPNOTSUPP, [])
    | Some l => (0, ne 4 ETHTOOL_GSSET_INFO ++ ne 4 0 ++ ne 8 2 ++ ne 4 (zlen l))
    end;
  serve_strings k n c l : driver k n = Some l ->
    (SIOCETHTOOL k (field IFNAMSIZ n) (ne 4 ETHTOOL_GSTRINGS ++ ne 4 ethSSStats ++ ne 4 c ++ zeros (c * 32))).1 =
    (0, (ne 4 ETHTOOL_GSTRINGS ++ ne 4 ethSSStats ++ ne 4 (zlen l)) ++ concat ((fun s => field 32 (statName s)) <$> l));
  serve_stats k n c l : driver k n = Some l ->
    (SIOCETHTOOL k (field IFNAMSIZ n) (ne 4 ETHTOOL_GSTATS ++ ne 4 c ++ zeros (c * 8))).1 =
    (0, (ne 4 ETHTOOL_GSTATS ++ ne 4 (zlen l)) ++ concat ((fun s => ne 8 (Value s)) <$> l)) }.

(** ** The blocks *)

Lemma block_reads size head : 0 < size -> zlen head <= size -> block size head = Ret (head ++ zeros (size - zlen head)).
Proof.
  intros Hs Hh. pose proof (zlen_nonneg head). unfold block, alignedBuf. assert (1 <= (size + 7) / 8) by (apply Z.div_le_lower_bound; lia).
  rewrite (proj2 (Z.leb_gt _ _)) by lia.
  assert (size <= (size + 7) / 8 * 8) by (pose proof (Z.div_mod (size + 7) 8 ltac:(lia)); pose proof (Z.mod_pos_bound (size + 7) 8); lia).
  rewrite slice_ok by (autorewrite with zlen; lia). rewrite bind_ret, from_ok by (rewrite zlen_take, zlen_drop; autorewrite with zlen; lia).
  rewrite bind_ret. do 2 f_equal. unfold zeros. rewrite Z.sub_0_r, drop_0, take_replicate, drop_replicate. f_equal. lia.
Qed.

Lemma zlen_concat {A} (enc : A -> bytes) w l : Forall (fun a => zlen (enc a) = w) l -> zlen (concat (enc <$> l)) = zlen l * w.
Proof. induction 1 as [|a l Ha _ IH]; [done|]. rewrite fmap_cons. cbn [concat]. rewrite zlen_app, zlen_cons, IH. lia. Qed.

(** The entries of a table of fixed width, read back one by one. *)
Lemma entries_read {A B} (f : bytes -> B) (enc : A -> bytes) w l : Forall (fun a => zlen (enc a) = w) l -> forall p base m,
  zlen p = base + m * w ->
  mapM (fun i => f <$> slice (p ++ concat (enc <$> l)) (base + i * w) (base + i * w + w)) (seqZ m (zlen l)) = Ret ((fun a => f (enc a)) <$> l).
Proof.
  induction 1 as [|a l Ha _ IH]; intros p base m Hp; [done|]. rewrite zlen_cons, seqZ_cons by (pose proof (zlen_nonneg l); lia).
  cbn [fmap list_fmap concat]. cbn [mapM]. rewrite slice_app_exact by lia. change (f <$> Ret (enc a)) with (Ret (f (enc a))). rewrite bind_ret.
  replace (Z.pred (1 + zlen l)) with (zlen l) by lia. rewrite app_assoc.
  rewrite IH by (rewrite zlen_app; lia). done.
Qed.

Lemma cstring_field n b : zlen b <= n -> 0 ∉ b -> cstring (field n b) = b.
Proof.
  intros Hl Hz. unfold field. rewrite take_ge by (unfold zlen in *; lia). set (m := n - zlen b). clearbody m. clear Hl.
  induction b as [|c b IH]; cbn [app cstring].
  - unfold zeros. by destruct (Z.to_nat m).
  - apply not_elem_of_cons in Hz as [Hc Hz]. rewrite (proj2 (Z.eqb_neq _ _)) by congruence. by rewrite IH.
Qed.

(** ** Reading them *)

Context {Laws : EthdevLaws}.

(** The commands as they are sent, and what each leaves of the kernel. *)
Definition info_cmd : bytes := ne 4 ETHTOOL_GSSET_INFO ++ ne 4 0 ++ ne 8 2 ++ zeros 4.
Definition strings_cmd (c : Z) : bytes := ne 4 ETHTOOL_GSTRINGS ++ ne 4 ethSSStats ++ ne 4 c ++ zeros (c * 32).
Definition stats_cmd (c : Z) : bytes := ne 4 ETHTOOL_GSTATS ++ ne 4 c ++ zeros (c * 8).
Definition issued (n cmd : bytes) (k : K) : K := (SIOCETHTOOL k (field IFNAMSIZ n) cmd).2.

Lemma ioctl_writes n cmd written errno (k : K) : (SIOCETHTOOL k (field IFNAMSIZ n) cmd).1 = (errno, written) -> zlen written = zlen cmd ->
  ioctlEthtool n cmd k = (Got (errno, written), issued n cmd k).
Proof.
  intros E Hl. unfold ioctlEthtool, issued. destruct (SIOCETHTOOL _ _ _) as [[e w] k']. injection E as -> ->.
  rewrite (proj2 (Z.ltb_ge _ _)) by lia. rewrite drop_ge, app_nil_r by (unfold zlen in *; lia). done.
Qed.

Lemma ioctl_refuses n cmd errno (k : K) : (SIOCETHTOOL k (field IFNAMSIZ n) cmd).1 = (errno, []) ->
  ioctlEthtool n cmd k = (Got (errno, cmd), issued n cmd k).
Proof.
  intros E. unfold ioctlEthtool, issued. destruct (SIOCETHTOOL _ _ _) as [[e w] k']. injection E as -> ->.
  rewrite (proj2 (Z.ltb_ge _ _)) by (rewrite zlen_nil; apply zlen_nonneg). done.
Qed.

Lemma ioctl_overruns n cmd written errno (k : K) : (SIOCETHTOOL k (field IFNAMSIZ n) cmd).1 = (errno, written) -> zlen cmd < zlen written ->
  ioctlEthtool n cmd k = (Overrun, issued n cmd k).
Proof.
  intros E Hl. unfold ioctlEthtool, issued. destruct (SIOCETHTOOL _ _ _) as [[e w] k']. injection E as -> ->.
  by rewrite (proj2 (Z.ltb_lt _ _)) by lia.
Qed.

Lemma pure_block size head : 0 < size -> zlen head <= size ->
  pure (block size head) = pure (Ret (head ++ zeros (size - zlen head))).
Proof. intros. by rewrite block_reads. Qed.

Lemma E_bind_ret {A B} (a : A) (f : A -> E B) : pure (Ret a) ≫= f = f a.
Proof. done. Qed.

Lemma E_bind_got {A B} (m : E A) (f : A -> E B) k a k' : m k = (Got a, k') -> (m ≫= f) k = f a k'.
Proof. unfold mbind, E_bind. by intros ->. Qed.

Lemma count_fits k n l : driver k n = Some l -> u32 (zlen l) = zlen l.
Proof. intros [Hl _]%driver_wf. apply Z.mod_small. pose proof (zlen_nonneg l). lia. Qed.

#[local] Hint Rewrite zlen_ne : zlen.

Lemma statCount_reads n k : statCount n k =
  (match driver k n with
   | None => ErrNotSupported
   | Some l => if maxStats <? zlen l then Failed "too many statistics" else Got (zlen l)
   end, issued n info_cmd k).
Proof.
  unfold statCount. change (Z.shiftl 1 ethSSStats) with 2.
  rewrite pure_block, E_bind_ret by zlen_lia. rewrite <- !app_assoc.
  replace (20 - _) with 4 by (rewrite !zlen_app, !zlen_ne; lia). fold info_cmd.
  pose proof (serve_info k n) as Hs. fold info_cmd in Hs. destruct (driver k n) as [l|] eqn:Ed.
  - erewrite E_bind_got by (eapply ioctl_writes; [exact Hs|unfold info_cmd; zlen_lia]). cbn [Z.eqb negb]. cbv iota.
    rewrite (nget_at 8 (ne 4 ETHTOOL_GSSET_INFO ++ ne 4 0) 2 (ne 4 (zlen l))) by (by rewrite <- ?app_assoc || zlen_lia).
    change (2 mod 256 ^ Z.of_nat 8) with 2. rewrite E_bind_ret. cbn [Z.eqb]. cbv iota.
    rewrite (nget_at 4 (ne 4 ETHTOOL_GSSET_INFO ++ ne 4 0 ++ ne 8 2) (zlen l) []) by (by rewrite <- ?app_assoc, ?app_nil_r || zlen_lia).
    change (256 ^ Z.of_nat 4) with (2 ^ 32). rewrite (count_fits _ _ _ Ed). rewrite E_bind_ret. by destruct (maxStats <? zlen l).
  - erewrite E_bind_got by (eapply ioctl_refuses; exact Hs). done.
Qed.

Lemma statCount_gives n k l : driver k n = Some l -> zlen l <= maxStats -> statCount n k = (Got (zlen l), issued n info_cmd k).
Proof. intros Ed Hl. rewrite statCount_reads, Ed. by rewrite (proj2 (Z.ltb_ge _ _)) by lia. Qed.

Lemma statNames_reads n c k l : driver k n = Some l -> c = zlen l -> 0 < c ->
  statNames n c k = (Got (statName <$> l), issued n (strings_cmd c) k).
Proof.
  intros Ed -> Hc. destruct (driver_wf _ _ _ Ed) as [_ Hwf]. unfold statNames, ethGstringLen. pose proof (zlen_nonneg l).
  rewrite pure_block, E_bind_ret by zlen_lia. rewrite <- !app_assoc.
  replace (_ - _) with (zlen l * 32) by (rewrite !zlen_app, !zlen_ne; lia). fold (strings_cmd (zlen l)).
  assert (Forall (fun s => zlen (field 32 (statName s)) = 32) l) as Hw by (apply Forall_true; intros; by rewrite zlen_field).
  erewrite E_bind_got by (eapply ioctl_writes; [by apply serve_strings|
    unfold strings_cmd; rewrite !zlen_app, (zlen_concat _ 32), !zlen_ne, zlen_zeros by done; lia]).
  cbn [Z.eqb negb]. cbv iota. rewrite (entries_read cstring _ 32 l Hw _ 12 0) by (rewrite !zlen_app, !zlen_ne; lia).
  cbn [pure]. unfold pure. do 2 f_equal. apply list_fmap_ext. intros i s Hs.
  apply (proj1 (Forall_lookup _ _) Hwf) in Hs as (_ & Hz & Hl & _). by apply cstring_field.
Qed.

Lemma statValues_reads n c k l : driver k n = Some l -> c = zlen l -> 0 < c ->
  statValues n c k = (Got (Value <$> l), issued n (stats_cmd c) k).
Proof.
  intros Ed -> Hc. destruct (driver_wf _ _ _ Ed) as [_ Hwf]. unfold statValues. pose proof (zlen_nonneg l).
  rewrite pure_block, E_bind_ret by zlen_lia. rewrite <- !app_assoc.
  replace (_ - _) with (zlen l * 8) by (rewrite !zlen_app, !zlen_ne; lia). fold (stats_cmd (zlen l)).
  assert (Forall (fun s => zlen (ne 8 (Value s)) = 8) l) as Hw by (apply Forall_true; intros; by rewrite zlen_ne).
  erewrite E_bind_got by (eapply ioctl_writes; [by apply serve_stats|
    unfold stats_cmd; rewrite !zlen_app, (zlen_concat _ 8), !zlen_ne, zlen_zeros by done; lia]).
  cbn [Z.eqb negb]. cbv iota. rewrite (entries_read unne _ 8 l Hw _ 8 0) by (rewrite !zlen_app, !zlen_ne; lia).
  unfold pure. do 2 f_equal. apply list_fmap_ext. intros i s Hs.
  apply (proj1 (Forall_lookup _ _) Hwf) in Hs as (_ & _ & _ & Hv). rewrite unne_ne. by apply Z.mod_small.
Qed.

Lemma paired l : forall pre, mapM (fun i => (n ← idx (statName <$> (pre ++ l)) i; v ← idx (Value <$> (pre ++ l)) i; Ret (mkStat n v)))
  (seqZ (zlen pre) (zlen l)) = Ret l.
Proof.
  induction l as [|s l IH]; intros pre; [done|]. rewrite zlen_cons, seqZ_cons by (pose proof (zlen_nonneg l); lia). cbn [mapM].
  assert (forall A (f : Stat -> A), idx (f <$> (pre ++ s :: l)) (zlen (A := Stat) pre) = Ret (f s)) as Hi.
  { intros A f. rewrite fmap_app, fmap_cons. apply idx_app_exact. unfold zlen. by rewrite length_fmap. }
  rewrite !Hi, !bind_ret. replace (Z.succ (zlen pre)) with (zlen (pre ++ [s])) by (rewrite zlen_app; unfold zlen; cbn; lia).
  replace (Z.pred (1 + zlen l)) with (zlen l) by lia. specialize (IH (pre ++ [s])). rewrite <- app_assoc in IH. cbn [app] in IH.
  rewrite IH. by destruct s.
Qed.

Lemma name_fits (n : bytes) : n <> [] -> zlen n < IFNAMSIZ -> bool_decide (n = []) || (IFNAMSIZ <=? zlen n) = false.
Proof. intros Hn Hl. rewrite bool_decide_eq_false_2 by done. cbn. lia. Qed.

(** A read comes out as the driver's table when its list of names stays what it is
    between the three commands: the values are those of the last. *)
Lemma Stats_reads n k l0 l1 l2 : n <> [] -> zlen n < IFNAMSIZ -> 0 < zlen l0 <= maxStats ->
  let k1 := issued n info_cmd k in let k2 := issued n (strings_cmd (zlen l0)) k1 in
  driver k n = Some l0 -> driver k1 n = Some l1 -> driver k2 n = Some l2 -> zlen l1 = zlen l0 -> statName <$> l1 = statName <$> l2 ->
  Stats true n k = (Got l2, issued n (stats_cmd (zlen l0)) k2).
Proof.
  intros Hn Hl Hc k1 k2 E0 E1 E2 H1 H2. unfold Stats. rewrite name_fits by done. cbv iota. cbn [negb].
  erewrite E_bind_got by (apply (statCount_gives n k l0); [done|lia]). rewrite (proj2 (Z.eqb_neq _ _)) by lia.
  erewrite E_bind_got by (apply (statNames_reads n (zlen l0) _ l1); [exact E1|lia..]).
  assert (zlen l2 = zlen l0) as Hl2 by (apply (f_equal length) in H2; rewrite !length_fmap in H2; unfold zlen in *; lia).
  erewrite E_bind_got by (apply (statValues_reads n (zlen l0) _ l2); [exact E2|lia..]).
  rewrite H2. pose proof (paired l2 []) as Hp. cbn [app] in Hp.
  change (zlen (@nil Stat)) with 0 in Hp. rewrite Hl2 in Hp. unfold pure. by rewrite Hp.
Qed.

Lemma Stats_unsupported n k : n <> [] -> zlen n < IFNAMSIZ -> (driver k n = None \/ driver k n = Some []) ->
  (Stats true n k).1 = ErrNotSupported.
Proof.
  intros Hn Hl Hd. unfold Stats. rewrite name_fits by done. cbv iota. cbn [negb]. unfold mbind, E_bind at 1.
  rewrite statCount_reads. by destruct Hd as [->| ->].
Qed.

(** The comment of Stats has a reconfiguration between the commands mislabel at worst: a
    driver whose table has grown meanwhile writes past the block. *)
Lemma Stats_overruns n k l0 l1 : n <> [] -> zlen n < IFNAMSIZ -> 0 < zlen l0 <= maxStats ->
  driver k n = Some l0 -> driver (issued n info_cmd k) n = Some l1 -> zlen l0 < zlen l1 -> (Stats true n k).1 = Overrun.
Proof.
  intros Hn Hl Hc E0 E1 H1. unfold Stats. rewrite name_fits by done. cbv iota. cbn [negb].
  erewrite E_bind_got by (apply (statCount_gives n k l0); [done|lia]). rewrite (proj2 (Z.eqb_neq _ _)) by lia.
  unfold mbind at 1, E_bind at 1. unfold statNames, ethGstringLen. rewrite pure_block, E_bind_ret by zlen_lia. rewrite <- !app_assoc.
  replace (_ - _) with (zlen l0 * 32) by (rewrite !zlen_app, !zlen_ne; lia). fold (strings_cmd (zlen l0)).
  unfold mbind at 1, E_bind at 1. erewrite ioctl_overruns; [done|by apply serve_strings|].
  unfold strings_cmd. rewrite !zlen_app, (zlen_concat _ 32), !zlen_ne, zlen_zeros; [lia|].
  apply Forall_true. intros. by rewrite zlen_field.
Qed.
End Ethtool.

(** ** Whatever the kernel writes *)

Section Total.
Context `{Machine} {K : Type} `{Ethdev K}.

(** The kernel writes bytes. *)
Definition writes_bytes : Prop := forall (k : K) n c, is_bytes (SIOCETHTOOL k n c).1.2.

Definition total {A} (P : A -> Prop) (m : E A) : Prop :=
  forall k : K, match (m k).1 with Got a => P a | Crashed => False | _ => True end.

Lemma total_bind {A B} (P : A -> Prop) (Q : B -> Prop) (m : E A) (f : A -> E B) :
  total P m -> (forall a, P a -> total Q (f a)) -> total Q (E_bind _ _ f m).
Proof. intros Hm Hf k. unfold E_bind. specialize (Hm k). destruct (m k) as [[a| | | |] k']; try done. by apply Hf. Qed.

Lemma total_pure {A} (P : A -> Prop) (o : outcome A) : no_panic o = true -> (forall a, o = Ret a -> P a) -> total P (pure o).
Proof. intros Hn HP k. unfold pure. destruct o; [by apply HP|done..]. Qed.

Lemma mapM_total {A B} (f : A -> outcome B) l : (forall a, a ∈ l -> exists b, f a = Ret b) ->
  exists bs, mapM f l = Ret bs /\ zlen bs = zlen l.
Proof.
  induction l as [|a l IH]; intros Hf; [by exists []|]. destruct (Hf a) as [b Hb]; [left|].
  destruct IH as (bs & Hbs & Hl); [intros; apply Hf; by right|]. exists (b :: bs). cbn [mapM]. rewrite Hb, bind_ret, Hbs.
  split; [done|]. by rewrite !zlen_cons, Hl.
Qed.

(** A block of a known size keeps it. *)
Lemma total_ioctl n cmd : writes_bytes -> is_bytes cmd ->
  total (fun r => zlen r.2 = zlen cmd /\ is_bytes r.2) (ioctlEthtool n cmd).
Proof.
  intros Hw Hc k. unfold ioctlEthtool. specialize (Hw k (field IFNAMSIZ n) cmd). destruct (SIOCETHTOOL _ _ _) as [[e w] k']. cbn [fst snd] in *.
  destruct (Z.ltb_spec (zlen cmd) (zlen w)) as [|Hl]; [done|]. cbn. split; [|apply is_bytes_app; split; [done|by apply is_bytes_drop]].
  rewrite zlen_app, zlen_drop. unfold zlen in *. lia.
Qed.

Lemma total_block size head : 0 < size -> zlen head <= size -> is_bytes head ->
  total (fun b => zlen b = size /\ is_bytes b) (pure (block size head)).
Proof.
  intros Hs Hh Hb. pose proof (zlen_nonneg head). rewrite block_reads by done. apply total_pure; [done|]. intros ? [= <-]. split.
  - rewrite zlen_app, zlen_zeros. lia.
  - apply is_bytes_app. split; [done|apply is_bytes_zeros].
Qed.

#[local] Hint Resolve is_bytes_ne : wire.

Lemma total_fail {A} (P : A -> Prop) e : total P (fails e).
Proof. done. Qed.

Lemma statCount_total n : writes_bytes -> total (fun c => 0 <= c <= maxStats) (statCount n).
Proof.
  intros Hw. eapply total_bind; [apply total_block; [done|by rewrite !zlen_app, !zlen_ne|]|].
  { rewrite !is_bytes_app. auto with wire. }
  intros buf [Hl Hb]. eapply total_bind; [by apply total_ioctl|]. intros [errno b] [Hl2 Hb2]. cbn [fst snd] in *.
  destruct (negb _); [by destruct (_ || _)|]. eapply (total_bind (fun _ => True)).
  { apply total_pure; [|done]. apply nget_total; lia. }
  intros mask _. destruct (mask =? 0); [done|]. eapply total_bind.
  { apply total_pure; [apply nget_total; lia|]. intros c Hc. exact (nget_bound _ _ _ _ Hb2 Hc). }
  intros c Hc. cbv beta in Hc. destruct (Z.ltb_spec maxStats c); [done|]. intros k. cbn. lia.
Qed.

Lemma entries_total {A} (f : bytes -> A) b base w c : 0 <= base -> 0 < w -> zlen b = base + c * w -> 0 <= c ->
  total (fun l => zlen l = c) (pure (mapM (fun i => f <$> slice b (base + i * w) (base + i * w + w)) (seqZ 0 c))).
Proof.
  intros Hb Hw Hl Hc. destruct (mapM_total (fun i => f <$> slice b (base + i * w) (base + i * w + w)) (seqZ 0 c)) as (bs & E & Hbs).
  { intros i Hi%elem_of_seqZ. rewrite slice_ok by nia. by eexists. }
  rewrite E. apply total_pure; [done|]. intros ? [= <-]. rewrite Hbs. unfold zlen. rewrite length_seqZ. lia.
Qed.

(** Whatever a driver answers, a read comes back with a table, an error, or
    ErrNotSupported, unless the kernel writes past a block; a table has an entry of both
    lists for each. *)
Lemma Stats_total socket n : writes_bytes -> total (fun l => 0 < zlen l <= maxStats) (Stats socket n).
Proof.
  intros Hw. unfold Stats. destruct (_ || _); [done|]. destruct (negb socket); [done|].
  eapply total_bind; [by apply statCount_total|]. intros c Hc. cbv beta in Hc. destruct (Z.eqb_spec c 0); [done|].
  eapply (total_bind (fun l => zlen l = c)).
  { eapply total_bind; [apply total_block; [unfold ethGstringLen; lia|rewrite !zlen_app, !zlen_ne; unfold ethGstringLen; lia|]|].
    { rewrite !is_bytes_app. auto with wire. }
    intros buf [Hl Hb]. eapply total_bind; [by apply total_ioctl|]. intros [errno b] [Hl2 _]. cbn [fst snd] in *.
    destruct (negb _); [done|]. apply entries_total; unfold ethGstringLen in *; lia. }
  intros names Hn. cbv beta in Hn. eapply (total_bind (fun l => zlen l = c)).
  { eapply total_bind; [apply total_block; [lia|rewrite !zlen_app, !zlen_ne; lia|]|].
    { rewrite !is_bytes_app. auto with wire. }
    intros buf [Hl Hb]. eapply total_bind; [by apply total_ioctl|]. intros [errno b] [Hl2 _]. cbn [fst snd] in *.
    destruct (negb _); [done|]. apply entries_total; lia. }
  intros values Hv. cbv beta in Hv.
  destruct (mapM_total (fun i => n ← idx names i; v ← idx values i; Ret (mkStat n v)) (seqZ 0 c)) as (l & E & Hl).
  { intros i Hi%elem_of_seqZ. rewrite !idx_ok by lia. by eexists. }
  rewrite E. apply total_pure; [done|]. intros ? [= <-]. rewrite Hl. unfold zlen. rewrite length_seqZ. lia.
Qed.
End Total.

(** ** A driver *)

#[local] Instance sample_machine : Machine := { little_endian := true; Getpagesize := 4096 }.

(** Whether a queue is added after the first command, and how many there have been. *)
Definition sample_nic : Type := bool * nat.

Definition sample_table (k : sample_nic) : list Stat :=
  [mkStat (str "rx_xdp_packets") (u64 (Z.of_nat k.2)); mkStat (str "rx_xdp_drops") 7]
    ++ if k.1 && (1 <=? k.2)%nat then [mkStat (str "rx_queue_1_xdp_redirect_errors_x") 0] else [].

Definition sample_driver (k : sample_nic) (n : bytes) : option (list Stat) :=
  if bool_decide (n = str "lan0") then Some (sample_table k) else None.

#[local] Instance sample_ethdev : Ethdev sample_nic := fun k n cmd =>
  (match sample_driver k (cstring n) with
   | None => (EOPNOTSUPP, [])
   | Some l =>
     let command := unne (take 4 cmd) in
     (0, if command =? ETHTOOL_GSSET_INFO then ne 4 ETHTOOL_GSSET_INFO ++ ne 4 0 ++ ne 8 2 ++ ne 4 (zlen l)
         else if command =? ETHTOOL_GSTRINGS then (ne 4 ETHTOOL_GSTRINGS ++ ne 4 ethSSStats ++ ne 4 (zlen l)) ++ concat ((fun s => field 32 (statName s)) <$> l)
         else (ne 4 ETHTOOL_GSTATS ++ ne 4 (zlen l)) ++ concat ((fun s => ne 8 (Value s)) <$> l))
   end, (k.1, S k.2)).

#[local] Instance sample_ethdev_laws : EthdevLaws (K := sample_nic).
Proof.
  refine {| driver k n := sample_driver k (cstring (field IFNAMSIZ n)) |}.
  - intros k n l. unfold sample_driver. case_bool_decide; [|done]. intros [= <-]. split.
    { destruct k as [[] [|]]; by vm_compute. }
    assert (0 <= u64 (Z.of_nat k.2) < 2 ^ 64) by (apply Z.mod_pos_bound; lia).
    apply Forall_app. split.
    + repeat (apply Forall_cons; split); [..|apply Forall_nil; done]; (split_and!; [by_eval|by_eval|by vm_compute|cbn [Value]; lia..]).
    + destruct (_ && _); [|by apply Forall_nil]. apply Forall_cons. split; [|by apply Forall_nil].
      split_and!; [by_eval|by_eval|by vm_compute|cbn [Value]; lia..].
  - intros k n. unfold SIOCETHTOOL, sample_ethdev. cbn [fst]. by destruct (sample_driver k _).
  - intros k n c l E. unfold SIOCETHTOOL, sample_ethdev. cbn [fst]. by rewrite E.
  - intros k n c l E. unfold SIOCETHTOOL, sample_ethdev. cbn [fst]. by rewrite E.
Defined.

Example sample_read : (Stats true (str "lan0") (false, 0%nat)).1
  = Got [mkStat (str "rx_xdp_packets") 2; mkStat (str "rx_xdp_drops") 7].
Proof. by vm_compute. Qed.

Example sample_grown : (Stats true (str "lan0") (true, 0%nat)).1 = Overrun.
Proof. by vm_compute. Qed.
