(* ===== verification/Ifstats.v ===== *)
(** `minuteman stats interfaces`: src/cmd/minuteman/ifstats.go, and the text of the
    counters printed with it (stats.go).

    The three sources are Netlink.v's dump of the links, Loading.v's roles of the XDP
    programs and Ethtool.v's driver statistics.  sort.Slice is not stable: the result is
    modelled by one sorting, and the theorem is for interfaces of distinct numbers, where
    every sorting gives the same. *)

From S2P Require Import Prelude Wire Netip Text Netlink Ethtool Loading Stats.
From stdpp Require Import sorting.
Import Netlink.unix.

Local Open Scope Z_scope.

Record ifaceStats : Type := mkIfaceStats {
  ifName : bytes; Ifindex : Z; Role : XDPRole; ifXDPProgID : Z; ordered : list Stat; ifStats : gmap bytes Z; Note : string }.

Definition by_index (a b : ifaceStats) : Prop := Ifindex a <= Ifindex b.
#[export] Instance by_index_dec a b : Decision (by_index a b) := Z_le_dec _ _.

(** The command comes back with the interfaces or an error; or its read of the links
    waits for ever, or memory past a block has been overwritten. *)
Inductive collected : Type := Collected (l : list ifaceStats) | CollectFailed (e : string) | NotBack.

Section Collect.
Context `{Machine} {K : Type} `{Kernel K} {N : Type} `{Ethdev N}.

(** The interfaces minuteman's programs are on, in the order of the dump. *)
Fixpoint report (socket : bool) (roles : gmap Z XDPRole) (links : list Link) (n : N) : answer (list ifaceStats) * N :=
  match links with
  | [] => (Got [], n)
  | l :: links =>
    match roles !! XDPProgID l with
    | None => report socket roles links n
    | Some role =>
      let entry := mkIfaceStats (Name l) (Index l) role (XDPProgID l) in
      let next one n := match report socket roles links n with (Got rest, n) => (Got (one :: rest), n) | r => r end in
      match Ethtool.Stats socket (Name l) n with
      | (ErrNotSupported, n) => next (entry [] ∅ "driver exposes no statistics"%string) n
      | (Ethtool.Failed e, n) => next (entry [] ∅ e) n
      | (Got stats, n) => next (entry stats (fold_left (fun m s => <[statName s := Value s]> m) stats ∅) ""%string) n
      | (Ethtool.Crashed, n) => (Ethtool.Crashed, n)
      | (Overrun, n) => (Overrun, n)
      end
    end
  end.

Definition progIDs (links : list Link) : list Z := filter (fun id => id <> 0) (map XDPProgID links).

(** [opens]: the netlink socket opens; [open] and [pinnedStatsMapID] are those of
    XDPRoles. *)
Definition collectInterfaceStats (opens socket : bool) (open : Z -> option Program) (pinnedStatsMapID : outcome Z) (s : Socket K) (n : N)
    : collected * Socket K * N :=
  if negb opens then (CollectFailed "opening netlink socket", s, n)
  else
    match Links s with
    | (Netlink.Failed _, s) => (CollectFailed "listing links", s, n)
    | (Netlink.Crashed, s) | (Blocked, s) => (NotBack, s, n)
    | (Done links, s) =>
      match XDPRoles open pinnedStatsMapID (progIDs links) with
      | Fail e => (CollectFailed e, s, n)
      | Panic => (NotBack, s, n)
      | Ret roles =>
        match report socket roles links n with
        | (Got out, n) => (Collected (merge_sort by_index out), s, n)
        | (_, n) => (NotBack, s, n)
        end
      end
    end.
End Collect.

(** ** The text *)

Definition role_text (r : XDPRole) : string :=
  match r with XDPRoleWAN => "wan" | XDPRoleLAN => "lan" | XDPRoleFrag => "frag" | XDPRoleUnknown => "minuteman" end.

(** The lines written, when every write succeeds. *)
Definition printStats (s : Stats.Stats) : list bytes := (fun '(name, v) => str name ++ str ": " ++ decimal v) <$> printed s.

Definition iface_lines (i : ifaceStats) : list bytes :=
  (ifName i ++ str " (ifindex " ++ decimal (Ifindex i) ++ str ", role " ++ str (role_text (Role i)) ++ str ", xdp prog id "
    ++ decimal (ifXDPProgID i) ++ str "):")
  :: if negb (bool_decide (Note i = ""%string)) then [str "  " ++ str (Note i)]
     else (fun s => str "  " ++ statName s ++ str ": " ++ decimal (Value s)) <$> ordered i.

Fixpoint separated (ifaces : list ifaceStats) : list bytes :=
  match ifaces with [] => [] | i :: ifaces => [] :: iface_lines i ++ separated ifaces end.

Definition printInterfaceStats (ifaces : list ifaceStats) : list bytes :=
  match ifaces with
  | [] => [str "No interfaces have minuteman XDP programs attached."]
  | i :: ifaces => iface_lines i ++ separated ifaces
  end.

(** The deprecated output: the counters, then the interfaces. *)
Definition runStatsWithInterfaces (stats : outcome Stats.Stats) (c : collected) : outcome (list bytes) :=
  s ← stats;
  match c with
  | Collected l => Ret (printStats s ++ [] :: printInterfaceStats l)
  | CollectFailed e => Fail e
  | NotBack => Panic
  end.

(** ** What is reported *)

Section Reported.
Context `{Machine} {K : Type} `{Kernel K} {N : Type} `{Ethdev N}.

(** The statistics of an interface are those of one read of its driver, or a note in
    their place. *)
Definition read_of (socket : bool) (i : ifaceStats) : Prop :=
  exists n : N, match (Ethtool.Stats socket (ifName i) n).1 with
  | Got l => ordered i = l /\ Note i = ""%string
  | ErrNotSupported => ordered i = [] /\ Note i = "driver exposes no statistics"%string
  | Ethtool.Failed e => ordered i = [] /\ Note i = e
  | _ => False
  end.

Definition owned (roles : gmap Z XDPRole) (l : Link) : Prop := is_Some (roles !! XDPProgID l).
Definition reports (i : ifaceStats) (roles : gmap Z XDPRole) (l : Link) : Prop :=
  ifName i = Name l /\ Ifindex i = Index l /\ ifXDPProgID i = XDPProgID l /\ roles !! XDPProgID l = Some (Role i).

#[export] Instance owned_dec roles l : Decision (owned roles l).
Proof. unfold owned. apply _. Defined.

(** One for each of the links with such a program, in their order. *)
Lemma report_spec socket roles links : forall (n n' : N) out, report socket roles links n = (Got out, n') ->
  Forall2 (fun i l => reports i roles l /\ read_of socket i) out (filter (owned roles) links).
Proof.
  induction links as [|l links IH]; intros n n' out E; cbn [report] in E; [by injection E as <- <-|].
  destruct (roles !! XDPProgID l) as [role|] eqn:Er.
  - rewrite filter_cons_True by (unfold owned; by rewrite Er).
    destruct (Ethtool.Stats socket (Name l) n) as [a n1] eqn:Ea.
    assert (forall st m note, match (a : answer (list Stat)) with
      | Got l => st = l /\ note = ""%string | ErrNotSupported => st = [] /\ note = "driver exposes no statistics"%string
      | Ethtool.Failed e => st = [] /\ note = e | _ => False end ->
      match report socket roles links n1 with (Got rest, n) => (Got (mkIfaceStats (Name l) (Index l) role (XDPProgID l) st m note :: rest), n) | r => r end
      = (Got out, n') -> Forall2 (fun i l => reports i roles l /\ read_of socket i) out (l :: filter (owned roles) links)) as Hnext.
    { intros st m note Hr E'. destruct (report socket roles links n1) as [[rest| | | |] n2] eqn:E2; try done. injection E' as <- <-.
      constructor; [|by eapply IH]. split; [done|]. exists n. cbn [ifName ordered Note]. by rewrite Ea. }
    destruct a as [st| |e| |]; [..|done|done]; by eapply Hnext, E.
  - rewrite filter_cons_False; [by eapply IH|]. unfold owned. rewrite Er. by intros [].
Qed.

Lemma strictly_sorted (l : list ifaceStats) : StronglySorted by_index l -> NoDup (map Ifindex l) -> StronglySorted Z.lt (map Ifindex l).
Proof.
  induction 1 as [|i l Hs IH Hi]; [constructor|]. cbn [map]. intros [Hn Hd]%NoDup_cons. constructor; [by apply IH|].
  apply Forall_map. apply Forall_forall. intros j Hj. pose proof (proj1 (Forall_forall _ _) Hi j Hj) as Hle. unfold by_index in Hle.
  assert (Ifindex j <> Ifindex i); [|cbn; lia]. intros E. apply Hn. rewrite <- E. by apply list_elem_of_In, in_map, list_elem_of_In.
Qed.

#[local] Instance by_index_total : Total by_index.
Proof. intros a b. unfold by_index. lia. Qed.
#[local] Instance by_index_trans : Transitive by_index.
Proof. intros a b c. unfold by_index. lia. Qed.

(** The interfaces reported are exactly those an XDP program using the pinned map is
    attached to, ascending by number, each with the role its program's name gives and
    its driver's statistics or a note in their place. *)
Lemma interfaces_reported opens socket open statsID (s s' : Socket K) (n n' : N) out :
  collectInterfaceStats opens socket open (Ret statsID) s n = (Collected out, s', n') -> exists links, Links s = (Done links, s')
  /\ (NoDup (map Index links) -> StronglySorted Z.lt (map Ifindex out))
  /\ (forall i, i ∈ out -> read_of socket i /\ exists l name maps, l ∈ links /\ ifName i = Name l /\ Ifindex i = Index l
        /\ open (XDPProgID l) = Some (mkProgram name (Some maps)) /\ statsID ∈ maps /\ Role i = roleForProgramName name)
  /\ (forall l name maps, l ∈ links -> XDPProgID l <> 0 -> open (XDPProgID l) = Some (mkProgram name (Some maps)) -> statsID ∈ maps ->
        exists i, i ∈ out /\ Ifindex i = Index l /\ ifName i = Name l).
Proof.
  unfold collectInterfaceStats. destruct opens; [|done]. cbn [negb].
  destruct (Links s) as [[links|e| |] s1]; [|done..]. destruct (XDPRoles _ _ _) as [roles|e|] eqn:Er; [|done..].
  destruct (report socket roles links n) as [[l0| | | |] n1] eqn:Ep; intros E; try discriminate E. injection E as <- <- <-.
  exists links. split; [done|]. pose proof (report_spec _ _ _ _ _ _ Ep) as Hf. pose proof (merge_sort_Permutation by_index l0) as Hp.
  split_and!.
  - intros Hd. apply strictly_sorted; [apply StronglySorted_merge_sort; apply _|]. rewrite Hp.
    replace (map Ifindex l0) with (map Index (filter (owned roles) links)).
    + eapply sublist_NoDup; [exact Hd|]. by apply (fmap_sublist Index), sublist_filter.
    + clear -Hf. induction Hf as [|i l l0 ls [(_ & E & _) _] _ IH]; [done|]. cbn [map]. by rewrite E, IH.
  - intros i Hi. rewrite Hp in Hi. apply list_elem_of_lookup in Hi as [j Hj].
    destruct (Forall2_lookup_l _ _ _ _ _ Hf Hj) as (l & Hl & (Hn & Hx & _ & Hr) & Hread). split; [done|].
    apply list_elem_of_lookup_2, list_elem_of_filter in Hl as [_ Hl].
    apply (roles_by_map _ _ _ _ Er) in Hr as (_ & name & maps & Ho & Hm & Hrole). by exists l, name, maps.
  - intros l name maps Hl Hid Ho Hm.
    assert (roles !! XDPProgID l = Some (roleForProgramName name)) as Hr.
    { apply (roles_by_map _ _ _ _ Er). split; [|by exists name, maps]. apply list_elem_of_filter. split; [done|].
      by apply list_elem_of_In, in_map, list_elem_of_In. }
    assert (l ∈ filter (owned roles) links) as Hlf by (apply list_elem_of_filter; split; [by exists (roleForProgramName name)|done]).
    apply list_elem_of_lookup in Hlf as [j Hj]. destruct (Forall2_lookup_r _ _ _ _ _ Hf Hj) as (i & Hi & (Hn & Hx & _) & _).
    exists i. split; [|done]. rewrite Hp. by eapply list_elem_of_lookup_2.
Qed.
End Reported.

(** ** A run of it *)

#[local] Existing Instances sample_machine sample_ethdev.

Definition sample_link (index : Z) (name : bytes) (prog : Z) : bytes :=
  encode_padded (mkMsg RTM_NEWLINK 2 1 0 (buildIfInfoBody index 0 0 ++ encodeRtAttr IFLA_IFNAME (name ++ [0])
    ++ encodeRtAttr IFLA_XDP (encodeRtAttr IFLA_XDP_PROG_ID (ne 4 prog)))).

#[local] Instance sample_links_kernel : Kernel unit := fun k _ =>
  (inr [inl (sample_link 4 (str "wan0") 21 ++ sample_link 3 (str "lan0") 22 ++ sample_link 2 (str "other") 23);
        inl (encode_padded (mkMsg NLMSG_DONE 2 1 0 (ne 4 0)))], k).

Definition sample_programs (id : Z) : option Program :=
  if id =? 21 then Some (mkProgram "xdp_dslite_deca" (Some [9; 5])) else if id =? 22 then Some (mkProgram "xdp_dslite_enca" (Some [5]))
  else if id =? 23 then Some (mkProgram "xdp_dslite_deca" (Some [6])) else None.

Example sample_text : match collectInterfaceStats true true sample_programs (Ret 5) (mkSocket 0 [] tt) (false, 0%nat) with
  | (Collected l, _, _) => map of_bytes (printInterfaceStats l)
  | _ => []
  end = ["lan0 (ifindex 3, role lan, xdp prog id 22):"; "  rx_xdp_packets: 3"; "  rx_xdp_drops: 7"; "";
         "wan0 (ifindex 4, role wan, xdp prog id 21):"; "  driver exposes no statistics"]%string.
Proof. by vm_compute. Qed.
