(* ===== verification/Netdump.v ===== *)
(** The readings of Netlink.v: the dump of an interface's addresses, and the query of
    the source address for a destination, against what a kernel answers. *)

From S2P Require Import Prelude Wire Netip Text Netlink Rtnetlink.
Import unix.

Local Open Scope Z_scope.

Section Codec.
Context `{Machine}.
#[local] Hint Rewrite zlen_ne : zlen.

(** ** Dumps *)

(** An entry of a dump of addresses: its attributes are of distinct types. *)
Record entry : Type := mkEntry { eFamily : Z; eBits : Z; eFlags : Z; eScope : Z; eIndex : Z; eAttrs : list (Z * bytes) }.

Definition entry_wf (e : entry) : Prop :=
  u32_wf (eIndex e) /\ Forall attr_wf (eAttrs e) /\ NoDup (eAttrs e).*1 /\ zlen (encode_attrs (eAttrs e)) < 2 ^ 20.

#[export] Instance attr_wf_dec a : Decision (attr_wf a).
Proof. unfold attr_wf. apply _. Defined.

#[export] Instance entry_wf_dec e : Decision (entry_wf e).
Proof. unfold entry_wf. apply _. Defined.

Definition entry_body (e : entry) : bytes :=
  [eFamily e; eBits e; eFlags e; eScope e] ++ ne 4 (eIndex e) ++ encode_attrs (eAttrs e).

(** An address among the attributes, the zero one if it is not there. *)
Definition attr_Addr (t : Z) (l : list (Z * bytes)) : Addr := default AInvalid (attr t l ≫= AddrFromSlice).

(** What an entry says of an interface: its address (its IFA_LOCAL failing an
    IFA_ADDRESS) and prefix length, if it is a global IPv6 one. *)
Definition listed (i : Z) (e : entry) : option Prefix :=
  if (eFamily e =? AF_INET6) && (eIndex e =? i) && (eScope e =? RT_SCOPE_UNIVERSE) then
    let a := if IsValid (attr_Addr IFA_ADDRESS (eAttrs e)) then attr_Addr IFA_ADDRESS (eAttrs e) else attr_Addr IFA_LOCAL (eAttrs e) in
    if IsValid a then Some (PrefixFrom a (eBits e)) else None
  else None.

Lemma attr_Addr_cons t t' v l : attr_Addr t ((t', v) :: l) = if t' =? t then default AInvalid (AddrFromSlice v) else attr_Addr t l.
Proof. unfold attr_Addr. cbn [attr]. by destruct (t' =? t). Qed.

Lemma attr_none t l : t ∉ l.*1 -> attr t l = None.
Proof.
  induction l as [|[t' v] l IH]; [done|]. cbn [fmap list_fmap fst]. rewrite not_elem_of_cons. intros [Hne Hl].
  rewrite attr_skip by congruence. by apply IH.
Qed.

Lemma attr_Addr_none t l : t ∉ l.*1 -> attr_Addr t l = AInvalid.
Proof. intros Hl. unfold attr_Addr. by rewrite attr_none. Qed.

Lemma run_addr_attrs l : forall acc, NoDup l.*1 -> (IFA_ADDRESS ∈ l.*1 -> acc.1 = AInvalid) -> (IFA_LOCAL ∈ l.*1 -> acc.2 = AInvalid) ->
  run_attrs (R := Empty_set) (fun '(address, local) attrType value =>
    Ret (inl (if attrType =? IFA_ADDRESS then (default AInvalid (AddrFromSlice value), local)
              else if attrType =? IFA_LOCAL then (address, default AInvalid (AddrFromSlice value))
              else (address, local)))) acc l
  = Ret (inl (if decide (IFA_ADDRESS ∈ l.*1) then attr_Addr IFA_ADDRESS l else acc.1,
              if decide (IFA_LOCAL ∈ l.*1) then attr_Addr IFA_LOCAL l else acc.2)).
Proof.
  induction l as [|[t v] l IH]; intros [address local] Hnd Ha Hl; [done|].
  cbn [fmap list_fmap fst] in *. apply NoDup_cons in Hnd as [Ht Hnd]. cbn [run_attrs]. rewrite bind_ret, !attr_Addr_cons.
  rewrite IH; [|done|..].
  - destruct (Z.eqb_spec t IFA_ADDRESS) as [->|Hta]; [|destruct (Z.eqb_spec t IFA_LOCAL) as [->|Htl]]; cbn [fst snd].
    + rewrite (decide_False (P := IFA_ADDRESS ∈ l.*1)), (decide_True (P := IFA_ADDRESS ∈ _ :: _)) by (done || by left).
      do 3 f_equal. apply decide_ext. rewrite elem_of_cons. split; [by right|by intros [?|?]].
    + rewrite (decide_False (P := IFA_LOCAL ∈ l.*1)), (decide_True (P := IFA_LOCAL ∈ _ :: _)) by (done || by left).
      do 3 f_equal. apply decide_ext. rewrite elem_of_cons. split; [by right|by intros [?|?]].
    + do 3 f_equal; apply decide_ext; rewrite elem_of_cons; (split; [by right|by intros [?|?]]).
  - intros Hin. destruct (Z.eqb_spec t IFA_ADDRESS) as [->|]; [done|]. rewrite Ha by by right. by destruct (t =? IFA_LOCAL).
  - intros Hin. destruct (Z.eqb_spec t IFA_ADDRESS); [by apply Hl; right|]. destruct (Z.eqb_spec t IFA_LOCAL) as [->|]; [done|].
    apply Hl. by right.
Qed.

Lemma parse_entry e i : entry_wf e -> parseIfAddrMsg (entry_body e) i = Ret (listed i e).
Proof.
  intros (Hi & Hw & Hnd & Hz). pose proof (zlen_nonneg (encode_attrs (eAttrs e))). unfold parseIfAddrMsg, listed, SizeofIfAddrmsg.
  assert (zlen (entry_body e) = 8 + zlen (encode_attrs (eAttrs e))) as Hl by (unfold entry_body; zlen_lia).
  rewrite Hl, (proj2 (Z.ltb_ge _ _)) by lia.
  assert (from (entry_body e) 8 = Ret (encode_attrs (eAttrs e))) as Hfrom.
  { unfold entry_body. rewrite app_assoc. apply from_app_exact. zlen_lia. }
  assert (nget 4 (entry_body e) 4 = Ret (eIndex e)) as Hidx.
  { unfold entry_body. rewrite nget_ne by done. f_equal. by apply u32_id. }
  assert (idx (entry_body e) 0 = Ret (eFamily e)) as -> by (by apply (idx_app_exact [])).
  assert (idx (entry_body e) 1 = Ret (eBits e)) as -> by (by apply (idx_app_exact [eFamily e])).
  assert (idx (entry_body e) 3 = Ret (eScope e)) as -> by (by apply (idx_app_exact [eFamily e; eBits e; eFlags e])).
  rewrite Hfrom, Hidx, !bind_ret.
  destruct (eFamily e =? AF_INET6), (eIndex e =? i), (eScope e =? RT_SCOPE_UNIVERSE); cbn [negb orb andb]; try done.
  rewrite walk_encode, run_addr_attrs, bind_ret by done. cbn [no_return fst snd].
  destruct (decide (IFA_ADDRESS ∈ (eAttrs e).*1)) as [|Ha], (decide (IFA_LOCAL ∈ (eAttrs e).*1)) as [|Hlo];
    rewrite ?(attr_Addr_none _ _ Ha), ?(attr_Addr_none _ _ Hlo); reflexivity.
Qed.

(** A datagram of a dump, and one that ends it: the messages [ms] and the mark. *)
Definition dump_end (q : Z) : msg := mkMsg NLMSG_DONE NLM_F_DUMP q 0 (ne 4 0).
Definition address_msg (q : Z) (e : entry) : msg := mkMsg RTM_NEWADDR NLM_F_DUMP q 0 (entry_body e).
Definition datagram (ms : list msg) : bytes := flat_map encode_padded ms.

Lemma zlen_encode_padded m : 16 <= zlen (encode_padded m).
Proof.
  unfold encode_padded. rewrite zlen_app, zlen_encode_msg, zlen_zeros. pose proof (zlen_nonneg (mbody m)). lia.
Qed.

Lemma walk_datagram ms : Forall msg_wf ms ->
  walkMessages (datagram ms) = Ret ((fun m => mkRawMsg (mtype m) (encode_msg m)) <$> ms).
Proof.
  intros Hm. unfold walkMessages, datagram. rewrite walkMessages_encode; [done..|].
  clear Hm. induction ms as [|m ms IH]; [cbn; lia|]. cbn [flat_map]. rewrite length_app.
  pose proof (zlen_encode_padded m). unfold zlen in *. cbn [length]. lia.
Qed.

Section Dumps.
Context {K : Type} `{Kernel K} {A : Type}.
Variables (want q : Z) (parse : bytes -> outcome (option A)).
Hypothesis Hwant : want <> NLMSG_DONE /\ want <> NLMSG_ERROR.

(** The messages of a datagram that are entries, and what each reads as. *)
Definition reads (m : msg) (r : option A) : Prop := msg_wf m /\ mtype m = want /\ parse (mbody m) = Ret r.

Notation raws ms := ((fun m => mkRawMsg (mtype m) (encode_msg m)) <$> ms).

Lemma dump_msgs_reads ms rs more : Forall2 reads ms rs -> forall result (s : Socket K),
  dump_msgs want q parse (raws ms ++ more) result s = dump_msgs want q parse more (result ++ omap id rs) s.
Proof.
  induction 1 as [|m r ms rs (_ & Ht & Hp) Hms IH]; intros result s; [cbn; by rewrite app_nil_r|].
  cbn [fmap list_fmap app dump_msgs Type_ Raw]. rewrite Ht, !(proj2 (Z.eqb_neq want _)), Z.eqb_refl by tauto.
  unfold SizeofNlMsghdr. rewrite body_reads, bind_ret, Hp. cbn [omap list_omap].
  unfold mbind at 1, M_bind at 1, lift. rewrite IH. destruct r; cbn; [|done]. by rewrite <- app_assoc.
Qed.

(** The datagrams of a dump: groups of entries, the last one with the mark. *)
Definition dump_datagrams (groups : list (list msg)) (last : list msg) : list (bytes + error) :=
  ((fun ms => inl (datagram ms)) <$> groups) ++ [inl (datagram (last ++ [dump_end q]))].

Lemma dump_end_wf : u32_wf q -> msg_wf (dump_end q).
Proof. intros Hq. split_and!; [done|done|by apply Hq..|]. cbn [mbody dump_end]. rewrite zlen_ne. lia. Qed.

Lemma Recvfrom_whole size d ds (k : K) n : zlen d <= size ->
  Recvfrom size (mkSocket n (inl d :: ds) k) = (Done d, mkSocket n ds k).
Proof. intros Hd. unfold Recvfrom. cbn. rewrite take_ge; [done|]. unfold zlen in Hd. lia. Qed.

Lemma dump_loop_reads size groups last rss rs n (k : K) : u32_wf q ->
  Forall2 (Forall2 reads) groups rss -> Forall2 reads last rs ->
  Forall (fun d => match d with inl b => zlen b <= size | inr _ => True end) (dump_datagrams groups last) ->
  forall fuel result, (length groups < fuel)%nat ->
  dump_loop fuel size want q parse result (mkSocket n (dump_datagrams groups last) k)
  = (Done (result ++ omap id (concat rss ++ rs)), mkSocket n [] k).
Proof.
  intros Hq Hg Hlast. assert (forall ms rs, Forall2 reads ms rs -> Forall msg_wf ms) as Hwf.
  { clear. induction 1 as [|? ? ? ? [? _]]; by constructor. }
  induction Hg as [|ms rs' groups rss Hms Hg IH]; intros Hsz fuel result Hf; (destruct fuel as [|fuel]; [cbn in Hf; lia|]);
    inversion Hsz as [|? ? Hd Hsz']; subst; cbn [dump_loop]; unfold mbind, M_bind.
  - cbn [dump_datagrams fmap list_fmap app]. rewrite Recvfrom_whole by done. unfold lift at 1.
    rewrite walk_datagram by (apply Forall_app; split; [by eapply Hwf|constructor; [by apply dump_end_wf|done]]).
    rewrite fmap_app, (dump_msgs_reads _ _ _ Hlast). reflexivity.
  - change (dump_datagrams (ms :: groups) last) with (inl (datagram ms) :: dump_datagrams groups last).
    rewrite Recvfrom_whole by done. unfold lift at 1. rewrite walk_datagram by by eapply Hwf.
    rewrite <- (app_nil_r (_ <$> ms)), (dump_msgs_reads _ _ _ Hms). cbn [dump_msgs].
    specialize (IH Hsz' fuel (result ++ omap id rs') ltac:(cbn in Hf; lia)). unfold mret, M_ret. rewrite IH.
    cbn [concat]. by rewrite <- app_assoc, !omap_app, <- app_assoc.
Qed.
End Dumps.

(** The datagrams that answer a dump of addresses. *)
Definition address_dump (q : Z) (groups : list (list entry)) (last : list entry) : list (bytes + error) :=
  dump_datagrams q (map (map (address_msg q)) groups) (map (address_msg q) last).

Definition fits (d : bytes + error) : Prop := match d with inl b => zlen b <= Getpagesize | inr _ => True end.

(** A dump reads as the table dumped.  When the kernel answers the request for its
    addresses with any entries -- of any interface, family and scope, with any other
    attributes -- over any number of datagrams, the last one marked, the listing is the
    global IPv6 prefixes of the interface, all of them and in order, and nothing is left
    pending. *)
Lemma Addrs_lists {K} `{Kernel K} i (s : Socket K) (groups : list (list entry)) (lasts : list entry) (k' : K) :
  let q := u32 (seq s + 1) in
  pending s = [] -> Forall entry_wf (concat groups ++ lasts) -> Forall fits (address_dump q groups lasts) ->
  (forall b, understand b = Some (q, Z.lor NLM_F_REQUEST NLM_F_DUMP, RDumpAddrs) ->
     serve (kernel s) b = (inr (address_dump q groups lasts), k')) ->
  Addrs i s = (Done (omap (listed i) (concat groups ++ lasts)), mkSocket q [] k').
Proof.
  intros q Hp Hwf Hsz Hs. assert (u32_wf q) as Hq by (apply Z.mod_pos_bound; done).
  specialize (Hs _ (proj1 (understand_dumps q Hq))). apply Forall_app in Hwf as [Hg Hl].
  assert (forall es, Forall entry_wf es ->
    Forall2 (reads RTM_NEWADDR (fun b => parseIfAddrMsg b i)) (map (address_msg q) es) (map (listed i) es)) as Hreads.
  { induction 1 as [|e es He Hes IH]; [constructor|]. constructor; [|done]. split; [|split; [done|by apply parse_entry]].
    destruct He as (_ & _ & _ & Hz). split_and!; [done|done|by apply Hq..|]. cbn [mbody address_msg]. unfold entry_body. zlen_lia. }
  unfold Addrs, mbind, M_bind, next_seq, Send, dump. cbn [seq pending kernel]. fold q. rewrite Hs, Hp. cbn [pending seq kernel app].
  unfold address_dump. rewrite (dump_loop_reads RTM_NEWADDR q _ ltac:(done) Getpagesize _ _ (map (map (listed i)) groups) (map (listed i) lasts)).
  - cbn [app]. f_equal. f_equal. rewrite <- concat_map, <- map_app. generalize (concat groups ++ lasts). intros l.
    induction l as [|e l IH]; [done|]. cbn [map omap list_omap id]. by rewrite <- IH.
  - done.
  - clear -Hg Hreads. induction groups as [|g groups IH]; [constructor|]. cbn [concat] in Hg. apply Forall_app in Hg as [Hg Hgs].
    constructor; [by apply Hreads|by apply IH].
  - by apply Hreads.
  - exact Hsz.
  - cbn [pending]. unfold dump_datagrams. rewrite length_app, length_fmap, !length_map. lia.
Qed.

(** ** Source queries *)

Definition error_msg (q e : Z) (echo : bytes) : msg := mkMsg NLMSG_ERROR 0 q 0 (ne 4 e ++ echo).

(** A route: its fixed header, and attributes of distinct types. *)
Definition route_msg (q family : Z) (hdr : bytes) (l : list (Z * bytes)) : msg :=
  mkMsg RTM_NEWROUTE 0 q 0 (family :: hdr ++ encode_attrs l).

Lemma run_prefsrc l : NoDup l.*1 ->
  run_attrs (fun (_ : unit) attrType value => Ret (if attrType =? RTA_PREFSRC
      then match AddrFromSlice value with Some addr => inr addr | None => inl tt end else inl tt)) tt l
  = Ret (match attr RTA_PREFSRC l ≫= AddrFromSlice with Some a => inr a | None => inl tt end).
Proof.
  induction l as [|[t v] l IH]; intros Hnd; [done|]. cbn [fmap list_fmap fst] in Hnd. apply NoDup_cons in Hnd as [Ht Hnd].
  cbn [run_attrs]. rewrite bind_ret. destruct (Z.eqb_spec t RTA_PREFSRC) as [->|Hne].
  - rewrite attr_here. cbn [mbind option_bind]. destruct (AddrFromSlice v) as [a|]; [done|]. rewrite IH by done. by rewrite attr_none.
  - rewrite attr_skip, IH by done. done.
Qed.

Lemma parse_route q family hdr l : zlen hdr = 11 -> Forall attr_wf l -> NoDup l.*1 ->
  parseRoutePrefsrc (mbody (route_msg q family hdr l))
  = Ret (if family =? AF_INET6 then attr RTA_PREFSRC l ≫= AddrFromSlice else None).
Proof.
  intros Hh Hl Hnd. pose proof (zlen_nonneg (encode_attrs l)). unfold parseRoutePrefsrc, SizeofRtMsg. cbn [mbody route_msg].
  rewrite (proj2 (Z.ltb_ge _ _)) by zlen_lia. rewrite idx_cons_0, bind_ret. destruct (family =? AF_INET6); [cbn [negb]|done].
  rewrite app_comm_cons, from_app_exact, bind_ret by zlen_lia. rewrite walk_encode, run_prefsrc, bind_ret by done.
  by destruct (attr RTA_PREFSRC l ≫= AddrFromSlice).
Qed.

(** A source query means what the kernel answered.  A route naming a preferred
    source is that source; a route without one, or the errno of an unreachable network,
    host or interface, is "none yet", for the caller to ask again; any other errno is
    the error. *)
Lemma SourceForDest_reports {K} `{Kernel K} i a (s : Socket K) (m : msg) (k' : K) : let q := u32 (seq s + 1) in
  u32_wf i -> pending s = [] -> msg_wf m -> zlen (datagram [m]) <= Getpagesize ->
  (forall b, understand b = Some (q, NLM_F_REQUEST, RSource i (value16 a)) -> serve (kernel s) b = (inr [inl (datagram [m])], k')) ->
  (forall family hdr l, m = route_msg q family hdr l -> zlen hdr = 11 -> Forall attr_wf l -> NoDup l.*1 ->
     SourceForDest i a s = (Done (if family =? AF_INET6 then attr RTA_PREFSRC l ≫= AddrFromSlice else None), mkSocket q [] k'))
  /\ (forall e echo, m = error_msg q e echo -> 16 <= zlen echo -> -4095 <= e < 0 ->
     SourceForDest i a s = (if bool_decide (- e ∈ [ENETUNREACH; EHOSTUNREACH; ENETDOWN]) then Done None else Failed (Errno (- e)),
                            mkSocket q [] k')).
Proof.
  intros q Hi Hp Hm Hsz Hs. assert (u32_wf q) as Hq by (apply Z.mod_pos_bound; done).
  specialize (Hs _ (understand_source q i a Hq Hi)).
  assert (SourceForDest i a s = source_msgs q [mkRawMsg (mtype m) (encode_msg m)] (mkSocket q [] k')) as E.
  { unfold SourceForDest, mbind, M_bind, next_seq, Send. cbn [seq pending kernel]. fold q. rewrite Hs, Hp. cbn [app pending seq kernel].
    rewrite Recvfrom_whole by done. unfold lift at 1. rewrite walk_datagram by (constructor; [done|constructor]). reflexivity. }
  split.
  - intros family hdr l -> Hh Hl Hnd. rewrite E. cbn [source_msgs Type_ Raw mtype route_msg]. cbn [Z.eqb].
    unfold SizeofNlMsghdr. unfold mbind, M_bind, lift. change (mkMsg RTM_NEWROUTE 0 q 0 _) with (route_msg q family hdr l).
    rewrite body_reads. cbn [outcome_bind]. rewrite parse_route by done. by destruct (if family =? AF_INET6 then _ else _).
  - intros e echo -> Hecho He. rewrite E. cbn [source_msgs Type_ Raw mtype error_msg]. cbn [Z.eqb].
    assert (is_ack q e (encode_msg (error_msg q e echo))) as Hack by (by exists 0, 0, (16 + zlen (ne 4 e ++ echo)), echo).
    pose proof (parse_ack q e _ (16 + zlen (ne 4 e ++ echo)) Hack) as Hpa. rewrite take_ge in Hpa.
    + unfold mbind, M_bind, lift. change (mkMsg NLMSG_ERROR 0 q 0 _) with (error_msg q e echo).
      rewrite Hpa by (rewrite ?zlen_app, ?zlen_ne; done || lia). rewrite (proj2 (Z.eqb_neq e 0)) by lia. unfold isNoRouteErrno.
      replace (_ || _ || _) with (bool_decide (- e ∈ [ENETUNREACH; EHOSTUNREACH; ENETDOWN])); [by case_bool_decide|].
      apply eq_true_iff_eq. rewrite bool_decide_eq_true, !orb_true_iff, !Z.eqb_eq, !elem_of_cons, elem_of_nil. tauto.
    + pose proof (zlen_encode_msg (error_msg q e echo)) as Hz. cbn [mbody error_msg] in Hz. unfold zlen in *. lia.
Qed.
End Codec.

(** ** Samples *)

#[local] Instance sample_machine : Machine := {| little_endian := true; Getpagesize := 4096 |}.

Definition sample_entry : entry :=
  mkEntry AF_INET6 64 0x80 RT_SCOPE_UNIVERSE 3 [(6, zeros 16); (IFA_ADDRESS, As16 (A6 0x20010db8000000000000000000000002 "")); (8, zeros 4)].
Definition sample_other : entry := mkEntry AF_INET 24 0x80 RT_SCOPE_UNIVERSE 3 [(IFA_ADDRESS, [192; 0; 2; 1])].

Definition sample_route (q : Z) : msg :=
  route_msg q AF_INET6 (zeros 11) [(RTA_DST, zeros 16); (RTA_PREFSRC, As16 (A6 0x20010db8000000000000000000000002 ""))].

(** A kernel with an IPv4 and an IPv6 address on the interface 3, and a route. *)
Definition sample_kernel : Kernel (list request) := fun k b =>
  match understand b with
  | Some (q, _, RDumpAddrs) => (inr (address_dump q [[sample_other]] [sample_entry]), k)
  | Some (q, _, RSource _ _) => (inr [inl (datagram [sample_route q])], k)
  | _ => (inr [], k)
  end.

Definition sample_socket : Socket (list request) := mkSocket 6 [] [].

Lemma Addrs_lists_witness :
  (@Addrs sample_machine (list request) sample_kernel 3 sample_socket).1 = Done [mkPrefix (A6 0x20010db8000000000000000000000002 "") 64].
Proof.
  rewrite (@Addrs_lists sample_machine (list request) sample_kernel 3 sample_socket [[sample_other]] [sample_entry] []).
  - reflexivity.
  - reflexivity.
  - by_eval.
  - repeat constructor; apply Z.leb_le; vm_compute; reflexivity.
  - intros b Hu. unfold serve, sample_kernel. rewrite Hu. reflexivity.
Defined.

Lemma SourceForDest_reports_witness :
  (@SourceForDest sample_machine (list request) sample_kernel 3 (A6 1 "") sample_socket).1 = Done (Some (A6 0x20010db8000000000000000000000002 "")).
Proof.
  destruct (@SourceForDest_reports sample_machine (list request) sample_kernel 3 (A6 1 "") sample_socket (sample_route 7) []) as [Hr _].
  - by_eval.
  - reflexivity.
  - repeat split; vm_compute; congruence.
  - apply Z.leb_le. vm_compute. reflexivity.
  - intros b Hu. unfold serve, sample_kernel. rewrite Hu. reflexivity.
  - rewrite (Hr AF_INET6 (zeros 11) [(RTA_DST, zeros 16); (RTA_PREFSRC, As16 (A6 0x20010db8000000000000000000000002 ""))]);
      [reflexivity|reflexivity|reflexivity|by_eval|by_eval].
Defined.
