(* ===== verification/Lannetlink.v ===== *)
(** The LANs' addresses over the rtnetlink client: the interface Lanprefix.v is written
    against (its class [Netlink]), implemented by the socket of Netlink.v.  A kernel is
    what it makes of the requests it reads (Rtnetlink.v); that it then holds the
    addresses Lanprefix.v relies on is proved, not assumed. *)

From S2P Require Import Prelude Wire Netip Text Lanprefix Netlink Rtnetlink.

Local Open Scope Z_scope.

(** A kernel's table of IPv6 addresses, its interfaces, and whether a socket opens. *)
Class AddrKernel (K : Type) : Type := {
  assigned : K -> Z -> Z -> Z -> bool;
  ifindex : K -> string -> option Z;
  can_open : K -> option string }.

(** A request about an address, once acknowledged, has taken effect; one refused, or
    that could not be sent, has none; neither touches the interfaces. *)
Class AddrKernelLaws (K : Type) {M : Machine} {S : Kernel K} {T : AddrKernel K} : Prop := {
  index_range (k : K) n i : ifindex k n = Some i -> u32_wf i;
  addr_links (k : K) b q fl new i v p n : understand b = Some (q, fl, RAddr new i v p) -> ifindex (serve k b).2 n = ifindex k n;
  addr_acked (k : K) b q fl new i v p d : understand b = Some (q, fl, RAddr new i v p) -> (serve k b).1 = inr [inl d] -> is_ack q 0 d ->
    forall i' v' p', assigned (serve k b).2 i' v' p'
      = if new : bool then bool_decide ((i', v', p') = (i, v, p)) || assigned k i' v' p'
        else negb (bool_decide ((i', v', p') = (i, v, p))) && assigned k i' v' p';
  addr_refused (k : K) b q fl new i v p : understand b = Some (q, fl, RAddr new i v p) ->
    (forall d, (serve k b).1 = inr [inl d] -> ~ is_ack q 0 d) -> assigned (serve k b).2 = assigned k }.

Section Implementation.
Context {K : Type} {Mach : Machine} {Serve : Kernel K} {Table : AddrKernel K} {Acks : KernelAcks K} {Laws : AddrKernelLaws K}.
Hypothesis Hpage : 36 <= Getpagesize.

#[export] Instance over_socket : Lanprefix.Netlink (Z * K) := {
  Open s := can_open s.2;
  InterfaceByName s n := ifindex s.2 n;
  AddAddr i a b := over (Netlink.AddAddr i a b);
  DelAddr i a b := over (Netlink.DelAddr i a b);
  has s i a b := match a with A6 v "" => assigned s.2 i v b | _ => false end }.

(** What a call about an address leaves: the request it meant, made. *)
Lemma over_addr c (s : Z * K) new i v p : command_wf c -> (meaning c).2 = RAddr new i v p ->
  let '(err, t) := over (run_command c) s in
  (forall n, ifindex t.2 n = ifindex s.2 n)
  /\ match err with
     | None => forall i' v' p', assigned t.2 i' v' p'
         = if new then bool_decide ((i', v', p') = (i, v, p)) || assigned s.2 i' v' p'
           else negb (bool_decide ((i', v', p') = (i, v, p))) && assigned s.2 i' v' p'
     | Some _ => assigned t.2 = assigned s.2
     end.
Proof using All.
  intros Hc Hm. pose proof (over_command Hpage c s Hc) as Ho. destruct (over (run_command c) s) as [err t].
  destruct Ho as (req & q & Hu & -> & Ha). rewrite Hm in Hu. split; [intros n; by eapply addr_links|].
  destruct err as [e|]; [by eapply addr_refused|]. destruct Ha as (d & Hs & Hd). by eapply addr_acked.
Qed.

Lemma ready_command (s : Z * K) i a b : ready s i a b -> exists v, a = A6 v "" /\ b = 64
  /\ command_wf (CAddAddr i a b) /\ command_wf (CDelAddr i a b)
  /\ meaning (CAddAddr i a b) = (0x505, RAddr true i v 64) /\ meaning (CDelAddr i a b) = (0x5, RAddr false i v 64).
Proof using All.
  intros [[n Hn] [(v & -> & Hv) ->]]. exists v. apply index_range in Hn. split; [done|]. split; [done|].
  split; [split; [done|unfold lanSubnetBits; lia]|]. split; [split; [done|unfold lanSubnetBits; lia]|].
  cbn [meaning]. unfold value16, lanSubnetBits. cbn [As16]. by rewrite unbe_be_id.
Qed.

Lemma has_entry (f : Z -> Z -> Z -> bool) g i v b : 
  (forall i' v' p', f i' v' p' = bool_decide ((i', v', p') = (i, v, b)) || g i' v' p') ->
  forall i' a' b', match a' with A6 v' "" => f i' v' b' | _ => false end
  = bool_decide ((i', a', b') = (i, A6 v "", b)) || match a' with A6 v' "" => g i' v' b' | _ => false end.
Proof.
  intros Hf i' [|v'|v' [|c z]] b'; try by rewrite bool_decide_eq_false_2 by naive_solver.
  rewrite Hf. f_equal. apply bool_decide_ext. naive_solver.
Qed.

Lemma has_no_entry (f : Z -> Z -> Z -> bool) g i v b :
  (forall i' v' p', f i' v' p' = negb (bool_decide ((i', v', p') = (i, v, b))) && g i' v' p') ->
  forall i' a' b', match a' with A6 v' "" => f i' v' b' | _ => false end
  = negb (bool_decide ((i', a', b') = (i, A6 v "", b))) && match a' with A6 v' "" => g i' v' b' | _ => false end.
Proof.
  intros Hf i' [|v'|v' [|c z]] b'; try by rewrite andb_false_r.
  rewrite Hf. f_equal. f_equal. apply bool_decide_ext. naive_solver.
Qed.

Lemma add_spec (s : Z * K) i a b : ready s i a b -> let '(err, t) := Lanprefix.AddAddr i a b s in
  (forall n, InterfaceByName t n = InterfaceByName s n)
  /\ forall i' a' b', has t i' a' b' = (match err with Some _ => false | None => bool_decide ((i', a', b') = (i, a, b)) end) || has s i' a' b'.
Proof using All.
  intros Hr. destruct (ready_command s i a b Hr) as (v & -> & -> & Hc & _ & Hm & _).
  pose proof (over_addr _ s true i v 64 Hc ltac:(by rewrite Hm)) as Ho. cbn [Lanprefix.AddAddr over_socket].
  change (run_command (CAddAddr i (A6 v "") 64)) with (@Netlink.AddAddr _ K _ i (A6 v "") 64) in Ho.
  destruct (over _ s) as [[e|] t]; destruct Ho as [Hl Ht]; (split; [exact Hl|]); intros i' a' b'; cbn [has over_socket orb].
  - by rewrite Ht.
  - by apply has_entry.
Qed.

Lemma del_spec (s : Z * K) i a b : ready s i a b -> let '(err, t) := Lanprefix.DelAddr i a b s in
  (forall n, InterfaceByName t n = InterfaceByName s n)
  /\ forall i' a' b', has t i' a' b' = negb (match err with Some _ => false | None => bool_decide ((i', a', b') = (i, a, b)) end) && has s i' a' b'.
Proof using All.
  intros Hr. destruct (ready_command s i a b Hr) as (v & -> & -> & _ & Hc & _ & Hm).
  pose proof (over_addr _ s false i v 64 Hc ltac:(by rewrite Hm)) as Ho. cbn [Lanprefix.DelAddr over_socket].
  change (run_command (CDelAddr i (A6 v "") 64)) with (@Netlink.DelAddr _ K _ i (A6 v "") 64) in Ho.
  destruct (over _ s) as [[e|] t]; destruct Ho as [Hl Ht]; (split; [exact Hl|]); intros i' a' b'; cbn [has over_socket andb negb].
  - by rewrite Ht.
  - by apply has_no_entry.
Qed.
End Implementation.

(** The rtnetlink client implements the interface the LAN prefixes are managed
    through.  Over a kernel that acknowledges requests once and carries out an address
    request as it reads it, an address added through the socket without an error is on
    the interface, one removed is gone, an error means neither happened, and no other
    address and no interface has changed: sequence numbers, byte order, the encoding of
    attributes and the reading of acknowledgements included. *)
Lemma lan_addresses_implemented {K} {Mach : Machine} {Serve : Kernel K} {Table : AddrKernel K} {Acks : KernelAcks K}
  {Laws : AddrKernelLaws K} : 36 <= Getpagesize -> @NetlinkLaws (Z * K) over_socket.
Proof.
  intros Hpage. split.
  - intros i a b s t Hr E. pose proof (add_spec Hpage s i a b Hr) as Hs. rewrite E in Hs. apply Hs.
  - intros i a b s e t Hr E. pose proof (add_spec Hpage s i a b Hr) as Hs. rewrite E in Hs. apply Hs.
  - intros i a b s t Hr E. pose proof (del_spec Hpage s i a b Hr) as Hs. rewrite E in Hs. apply Hs.
  - intros i a b s e t Hr E. pose proof (del_spec Hpage s i a b Hr) as Hs. rewrite E in Hs. apply Hs.
  - intros i a b s n Hr. pose proof (add_spec Hpage s i a b Hr) as Hs. destruct (Lanprefix.AddAddr i a b s). apply Hs.
  - intros i a b s n Hr. pose proof (del_spec Hpage s i a b Hr) as Hs. destruct (Lanprefix.DelAddr i a b s). apply Hs.
Qed.

(** ** Sample: a kernel with a table of addresses *)

#[local] Instance sample_machine : Machine := {| little_endian := false; Getpagesize := 4096 |}.

(** It refuses to remove an address it does not hold (EADDRNOTAVAIL). *)
Definition sample_apply (r : request) (k : list (Z * Z * Z)) : Z * list (Z * Z * Z) :=
  match r with
  | RAddr true i v p => (0, (i, v, p) :: k)
  | RAddr false i v p => if bool_decide ((i, v, p) ∈ k) then (0, filter (fun e => e <> (i, v, p)) k) else (-99, k)
  | _ => (0, k)
  end.

#[local] Instance sample_kernel : Kernel (list (Z * Z * Z)) := fun k b =>
  match understand b with
  | Some (q, _, r) => (inr [inl (sample_ack q (sample_apply r k).1)], (sample_apply r k).2)
  | None => (inl (OtherError "short write"), k)
  end.

#[local] Instance sample_table : AddrKernel (list (Z * Z * Z)) := {|
  assigned k i v p := bool_decide ((i, v, p) ∈ k);
  ifindex _ n := if String.eqb n "lan0" then Some 2 else if String.eqb n "lan1" then Some 3 else None;
  can_open _ := None |}.

#[local] Instance sample_acks : KernelAcks (list (Z * Z * Z)).
Proof.
  intros k b q fl r Hu _. unfold serve, sample_kernel. rewrite Hu. cbn [fst]. eexists _, _. split; [reflexivity|].
  split; [apply sample_ack_is|]. destruct r as [[] ? ? ?| | | | | | | | | |]; cbn; try lia. case_bool_decide; cbn; lia.
Qed.

#[local] Instance sample_laws : AddrKernelLaws (list (Z * Z * Z)).
Proof.
  split.
  - intros k n i. cbn. destruct (String.eqb n "lan0"); [intros [= <-]; by_eval|]. destruct (String.eqb n "lan1"); [intros [= <-]; by_eval|done].
  - done.
  - intros k b q fl new i v p d Hu E Hack i' v' p'.
    revert E. unfold serve, sample_kernel. rewrite Hu. cbn [fst snd]. intros [= <-]. cbn [assigned sample_table].
    destruct new; cbn [sample_apply fst snd] in *; [|case_bool_decide as Hin; cbn [fst snd] in *].
    + rewrite <- bool_decide_or. apply bool_decide_ext. by rewrite elem_of_cons.
    + rewrite <- bool_decide_not, <- bool_decide_and. apply bool_decide_ext. by rewrite list_elem_of_filter.
    + apply sample_errno in Hack; lia.
  - intros k b q fl new i v p Hu Hno. revert Hno. unfold serve, sample_kernel. rewrite Hu. cbn [fst snd]. intros Hno.
    destruct new; cbn [sample_apply fst snd] in *; [|case_bool_decide; cbn [fst snd] in *]; [| |done].
    all: by destruct (Hno _ eq_refl (sample_ack_is q 0)).
Qed.

Lemma lan_addresses_implemented_witness : exists t,
  @Lanprefix.AddAddr (Z * list (Z * Z * Z)) over_socket 2 (A6 1 "") 64 (0, []) = (None, t)
  /\ @has (Z * list (Z * Z * Z)) over_socket t 2 (A6 1 "") 64 = true.
Proof.
  destruct (@Lanprefix.AddAddr (Z * list (Z * Z * Z)) over_socket 2 (A6 1 "") 64 (0, [])) as [err t] eqn:E.
  assert (36 <= @Getpagesize sample_machine) as Hpage by discriminate.
  pose proof (@add_ok _ _ (lan_addresses_implemented (K := list (Z * Z * Z)) Hpage) 2 (A6 1 "") 64 (0, []) t) as H.
  assert (err = None) as -> by (apply (f_equal fst) in E; vm_compute in E; by symmetry).
  exists t. split; [done|]. rewrite H; [reflexivity| |exact E].
  split; [by exists "lan0"%string|]. split; [|reflexivity]. by exists 1.
Defined.
