(* ===== verification/Linknetlink.v ===== *)
(** The devices over the rtnetlink client: the interface Companion.v is written against
    (its class [Links]), implemented by the socket of Netlink.v.  A kernel is what it
    makes of the requests it reads (Rtnetlink.v); that the tunnel and the veth pairs are
    then as Companion.v relies on is proved, not assumed. *)

From S2P Require Import Prelude Wire Netip Text Mtu Netlink Rtnetlink Companion.

Local Open Scope Z_scope.

(** A kernel's devices, the one of its IPv4 default route, net.InterfaceByName and the
    writing of a sysctl, which do not go through the socket. *)
Class DevKernel (K : Type) : Type := {
  devices : K -> gmap Z Link;
  route4 : K -> option Z;
  interface : string -> K -> option Z;
  sysctl : string -> string -> K -> bool * K }.

(** An ip6tnl device's ends, as the kernel holds them. *)
Definition tunnel_of (l r : Z) : kind := IP6Tnl (A6 l "") (A6 r "").

(** What a request about devices does, once the kernel carries it out. *)
Definition carried {K} `{DevKernel K} (r : request) (k k' : K) : Prop :=
  match r with
  | RAddTunnel n l r m => exists i, devices k !! i = None
      /\ devices k' = <[i := mkLink (of_bytes n) (tunnel_of l r) m false]> (devices k) /\ route4 k' = route4 k
  | RSetTunnel i l r => exists m, devices k' = alter (with_mtu m ∘ with_kind (tunnel_of l r)) i (devices k) /\ route4 k' = route4 k
  | RAddVeth n p m pm => exists i j, i <> j /\ devices k !! i = None /\ devices k !! j = None
      /\ devices k' = <[i := mkLink (of_bytes n) (Veth j) m false]> (<[j := mkLink (of_bytes p) (Veth i) pm false]> (devices k))
      /\ route4 k' = route4 k
  | RSetUp i => devices k' = alter with_up i (devices k) /\ route4 k' = route4 k
  | RSetMTU i m => devices k' = alter (with_mtu m) i (devices k) /\ route4 k' = route4 k
  | RDelLink i => devices k' = remove i (devices k)
      /\ forall j, route4 k = Some j -> devices k' !! j <> None -> route4 k' = Some j
  | RRoute true i d => devices k' = devices k /\ (d = mkPrefix (A4 0) 0 -> route4 k' = Some i)
  | _ => True
  end.

(** Names are unique, an index is positive, a veth's other end is there; a request
    acknowledged has been carried out; one refused, or that could not be sent, has
    changed no device and no default route; writing a sysctl changes neither. *)
Class DevKernelLaws (K : Type) {M : Machine} {S : Kernel K} {D : DevKernel K} : Prop := {
  dev_name (k : K) n i : interface n k = Some i <-> exists l, devices k !! i = Some l /\ lname l = n;
  dev_index (k : K) i l : devices k !! i = Some l -> 0 < i < 2 ^ 32;
  dev_peer (k : K) i l p : devices k !! i = Some l -> lkind l = Veth p ->
    p <> i /\ exists m, devices k !! p = Some m /\ lkind m = Veth i;
  dev_acked (k : K) b q fl r d : understand b = Some (q, fl, r) -> (serve k b).1 = inr [inl d] -> is_ack q 0 d ->
    carried r k (serve k b).2;
  dev_refused (k : K) b q fl r : understand b = Some (q, fl, r) ->
    (forall d, (serve k b).1 = inr [inl d] -> ~ is_ack q 0 d) ->
    devices (serve k b).2 = devices k /\ route4 (serve k b).2 = route4 k;
  dev_sysctl p v (k : K) : devices (sysctl p v k).2 = devices k /\ route4 (sysctl p v k).2 = route4 k }.

Section Implementation.
Context {K : Type} {Mach : Machine} {Serve : Kernel K} {Dev : DevKernel K} {Acks : KernelAcks K} {Laws : DevKernelLaws K}.
Hypothesis Hpage : 36 <= Getpagesize.

#[export] Instance links_over_socket : Links (Z * K) := {
  links s := devices s.2;
  default_route s := route4 s.2;
  InterfaceByName n s := interface n s.2;
  DelLink i := over (Netlink.DelLink i);
  AddIP6Tnl n l r m := over (Netlink.AddIP6Tnl (str n) l r m);
  SetIP6TnlEndpoints i l r := over (Netlink.SetIP6TnlEndpoints i l r);
  AddVeth a b m := over (Netlink.AddVeth (str a) (str b) m);
  SetLinkUp i := over (Netlink.SetLinkUp i);
  SetLinkMTU i m := over (Netlink.SetLinkMTU i m);
  AddRoute i d := over (Netlink.AddRoute i d);
  WriteFile p v s := let '(ok, k) := sysctl p v s.2 in (ok, (s.1, k)) }.

(** A call leaves its request carried out, or everything as it was. *)
Lemma over_leaves c (s : Z * K) (P : Z * K -> Prop) : command_wf c ->
  (forall t, carried (meaning c).2 s.2 t.2 -> P t) -> leaves s (over (run_command c) s) P.
Proof using All.
  intros Hc HP. pose proof (over_command Hpage c s Hc) as Ho. unfold leaves. destruct (over (run_command c) s) as [err t].
  destruct Ho as (req & q & Hu & Ht & Ha). cbn [fst snd links default_route links_over_socket]. rewrite Ht.
  destruct err as [e|]; [by eapply dev_refused|]. destruct Ha as (d & Hs & Hd). apply HP. rewrite Ht. by eapply dev_acked.
Qed.

Lemma of_str n : of_bytes (str n) = n.
Proof.
  unfold str, of_bytes. rewrite <- list_fmap_compose.
  transitivity (String.string_of_list_ascii (String.list_ascii_of_string n)); [|apply String.string_of_list_ascii_of_string].
  f_equal. transitivity (id <$> String.list_ascii_of_string n); [|apply list_fmap_id]. apply list_fmap_ext. intros _ a _. cbn.
  by rewrite N2Z.id, Ascii.ascii_N_embedding.
Qed.

Lemma value16_plain a : plain6 a -> A6 (value16 a) "" = a.
Proof. intros (v & -> & Hv). unfold value16. cbn [As16]. by rewrite unbe_be_id. Qed.

Lemma default_route_wf : dst_wf (mkPrefix (A4 0) 0).
Proof. by_eval. Qed.
End Implementation.

(** C34: the rtnetlink client implements the interface the companion devices are managed
    through.  Over a kernel that acknowledges a request once and has carried it out
    exactly when the acknowledgement says so, a tunnel or a veth pair made through the
    socket without an error is there, with the name, the ends and the MTU asked for; a
    device moved, resized, brought up or removed has been, and no other has (one moved may
    have got another MTU); the default
    route goes where it was sent; and an error means none of it happened: the flags, the
    nested attributes, the byte order and the reading of acknowledgements included. *)
Theorem devices_implemented {K} {Mach : Machine} {Serve : Kernel K} {Dev : DevKernel K} {Acks : KernelAcks K}
  {Laws : DevKernelLaws K} : 36 <= Getpagesize -> @LinksLaws (Z * K) links_over_socket.
Proof.
  intros Hpage. split.
  - intros k n i. apply dev_name.
  - intros k i l. apply dev_index.
  - intros k i l p. apply dev_peer.
  - intros i k Hi. by apply (over_leaves Hpage (CDelLink i)).
  - intros n l r m k Hn Hl Hr Hm. apply (over_leaves Hpage (CAddIP6Tnl (str n) l r m)); [done|].
    intros t (i & Hi & Ht). cbn [meaning snd] in *. unfold tunnel_of in Ht. rewrite of_str, !value16_plain in Ht by done. by exists i.
  - intros i l r k Hi Hl Hr. apply (over_leaves Hpage (CSetIP6TnlEndpoints i l r)); [done|].
    intros t [mtu Ht]. cbn [meaning snd] in Ht. unfold tunnel_of in Ht. rewrite !value16_plain in Ht by done. by exists mtu.
  - intros a b m k Ha Hb Hm. apply (over_leaves Hpage (CAddVeth (str a) (str b) m)); [done|].
    intros t Ht. cbn [meaning snd carried] in Ht. by rewrite !of_str in Ht.
  - intros i k Hi. by apply (over_leaves Hpage (CSetLinkUp i)).
  - intros i m k Hi Hm. by apply (over_leaves Hpage (CSetLinkMTU i m)).
  - intros i k Hi. apply (over_leaves Hpage (CAddRoute i (mkPrefix (A4 0) 0))); [split; [done|apply default_route_wf]|].
    intros t [Hd Hr]. split; [exact Hd|]. by apply Hr.
  - intros p v s. pose proof (dev_sysctl p v s.2) as Hs. cbn. destruct (sysctl p v s.2) as [ok k']. exact Hs.
Qed.

(** ** Sample: the devices of Companion.v, behind a socket *)

#[local] Instance sample_machine : Machine := {| little_endian := true; Getpagesize := 4096 |}.
#[local] Existing Instance sample_links.

Definition sample_apply (r : request) (k : sample_kernel) : option string * sample_kernel :=
  match r with
  | RAddTunnel n l r m => AddIP6Tnl (of_bytes n) (A6 l "") (A6 r "") m k
  | RSetTunnel i l r => SetIP6TnlEndpoints i (A6 l "") (A6 r "") k
  | RAddVeth n p m pm =>
    if m =? pm then AddVeth (of_bytes n) (of_bytes p) m k else (Some "refused"%string, k)
  | RSetUp i => SetLinkUp i k
  | RSetMTU i m => SetLinkMTU i m k
  | RDelLink i => DelLink i k
  | RRoute true i d => AddRoute i d k
  | _ => (None, k)
  end.

(** What is refused is refused with EINVAL. *)
#[local] Instance sample_serve : Kernel sample_kernel := fun k b =>
  match understand b with
  | Some (q, _, r) => (inr [inl (sample_ack q (match (sample_apply r k).1 with None => 0 | Some _ => -22 end))], (sample_apply r k).2)
  | None => (inl (OtherError "short write"), k)
  end.

#[local] Instance sample_dev : DevKernel sample_kernel := {|
  devices k := links k; route4 k := default_route k; interface := InterfaceByName; sysctl := WriteFile |}.

#[local] Instance sample_dev_acks : KernelAcks sample_kernel.
Proof.
  intros k b q fl r Hu _. unfold serve, sample_serve. rewrite Hu. cbn [fst]. eexists _, _. split; [reflexivity|].
  split; [apply sample_ack_is|]. destruct (sample_apply r k).1; lia.
Qed.

Lemma sample_applied r k : leaves k (sample_apply r k) (fun k' => carried r k k').
Proof.
  destruct r as [| [] i d | | | |n l r m|i l r|n p m pm|i|i m|i]; cbn [sample_apply carried]; try done.
  - apply commit_leaves. intros Hd. split; [done|]. intros ->. reflexivity.
  - cbn. case_bool_decide; [|done]. apply commit_leaves. intros Hd. by eexists.
  - apply commit_leaves. intros Hd. by exists 1460.
  - destruct (Z.eqb_spec m pm) as [<-|]; [|done]. cbn. case_bool_decide; [|done]. case_bool_decide; [|done]. apply commit_leaves. intros Hd.
    exists (fresh_index (dlinks (proj1_sig k))), (fresh_index (dlinks (proj1_sig k)) + 1). split; [lia|done].
  - by apply commit_leaves.
  - by apply commit_leaves.
  - apply commit_leaves. intros Hd. split; [done|]. intros j Hj. cbn in *. rewrite Hj. cbn. by destruct (remove i _ !! j).
Qed.

#[local] Instance sample_dev_laws : DevKernelLaws sample_kernel.
Proof.
  split.
  - intros k n i. apply (by_name (LinksLaws := sample_links_laws)).
  - intros k i l. apply (index_range (LinksLaws := sample_links_laws)).
  - intros k i l p. apply (veth_peer (LinksLaws := sample_links_laws)).
  - intros k b q fl r d Hu E Hack. pose proof (sample_applied r k) as Ha. revert E. unfold serve, sample_serve. rewrite Hu. cbn [fst snd].
    intros [= <-]. unfold leaves in Ha. destruct (sample_apply r k) as [[e|] k']; cbn [fst snd] in *; [|done].
    apply sample_errno in Hack; lia.
  - intros k b q fl r Hu Hno. pose proof (sample_applied r k) as Ha. revert Hno. unfold serve, sample_serve. rewrite Hu. cbn [fst snd].
    unfold leaves in Ha. destruct (sample_apply r k) as [[e|] k']; cbn [fst snd] in *; [done|]. intros Hno. by destruct (Hno _ eq_refl (sample_ack_is q 0)).
  - done.
Qed.

(** The tunnel made over the socket, past one an earlier run has left. *)
Definition sample_made : option string * Tunnel * (Z * sample_kernel) :=
  Slowpath.Ensure sample_b4 sample_aftr (mkTunnel (tunnelMTU 1500) 0) (0, sample_start).

Lemma devices_implemented_witness : sample_made.2.1 = 4 /\ SlowpathFacts.in_place sample_b4 sample_aftr sample_made.1.2 sample_made.2.
Proof.
  assert (36 <= @Getpagesize sample_machine) as Hpage by discriminate.
  pose proof (@SlowpathFacts.Ensure_spec _ _ (devices_implemented (K := sample_kernel) Hpage) sample_b4 sample_aftr (mkTunnel (tunnelMTU 1500) 0)
    (0, sample_start) ltac:(by eexists) ltac:(by eexists) ltac:(by_eval)) as H.
  split; [vm_compute; reflexivity|].
  change (Slowpath.Ensure _ _ _ _) with sample_made in H.
  rewrite (succeeded sample_made ltac:(vm_compute; reflexivity)) in H. by destruct H as [H _]; apply H.
Defined.
