(* ===== verification/Dnsproxy.v ===== *)
(** The DNS proxy: src/internal/dnsproxy (dnsproxy.go, udp.go, tcp.go).  Each LAN
    address has a UDP listener that forwards every query in a task of its own, and a TCP
    listener that relays each connection.

    A message is its bytes, never read.  The sockets and tasks are the actor library's:
    the state of a listener is its HandleInfo's, and the system around it -- the socket's
    active count, the tasks in flight, what was sent -- moves by the effects it returns.
    What the network does is an argument. *)

From S2P Require Import Prelude Wire Netip.
From stdpp Require Import relations.

Local Open Scope Z_scope.

(** ** Configuration (dnsproxy.go) *)

Definition Port : Z := 53.
Definition Second : Z := 1000000000.
Definition udpQueryTimeout : Z := 5 * Second.
Definition maxInFlight : Z := 256.
Definition maxUDPMessageBytes : Z := 65535.
Definition bindRetries : Z := 10.
Definition bindRetryInterval : Z := Second.
Definition tcpDialTimeout : Z := 5 * Second.

(** An address and a port. *)
Abbreviation AddrPort := (Addr * Z)%type.

#[export] Instance AddrPort_eq_dec : EqDecision AddrPort := _.

Record Config : Type := mkConfig {
  ListenAddrs : list Addr; ListenPort : Z; UpstreamAddrs : list AddrPort; queryTimeout : Z }.

Record udpListener : Type := mkUDP { addr : AddrPort; upstreams : list AddrPort; timeout : Z }.

(** A child of the supervision tree: a UDP listener, or a TCP one relaying to the
    upstreams. *)
Inductive child : Type := UDPChild (u : udpListener) | TCPChild (at_ : AddrPort) (upstreams : list AddrPort).

Definition Spec (cfg : Config) : outcome (list child) :=
  if bool_decide (UpstreamAddrs cfg = []) then Fail "dnsproxy: no upstream DNS servers configured"
  else
    let port := if ListenPort cfg =? 0 then Port else ListenPort cfg in
    let timeout := if queryTimeout cfg =? 0 then udpQueryTimeout else queryTimeout cfg in
    Ret (flat_map (fun a => [UDPChild (mkUDP (a, port) (UpstreamAddrs cfg) timeout); TCPChild (a, port) (UpstreamAddrs cfg)])
           (ListenAddrs cfg)).

Definition Upstreams (addrs : list Addr) : list AddrPort := (fun a => (a, Port)) <$> addrs.

(** ** The UDP listener (udp.go) *)

(** Binding an address: it works, it is not there yet (EADDRNOTAVAIL), or fails
    otherwise. *)
Inductive bound : Type := Bound | NotAvail | BindError (e : string).

(** The loop of open from [attempt] on: what each try gives, and whether the context
    ends in the pause after it.  Each round is a try, so [bindRetries + 1 - attempt]
    rounds are enough (running out would show as a panic). *)
Fixpoint open_loop (fuel : nat) (bind : Z -> bound) (cancelled : Z -> bool) (attempt : Z) : outcome Z :=
  match fuel with
  | O => Panic
  | S fuel =>
    match bind attempt with
    | Bound => Ret attempt
    | r =>
      if negb (match r with NotAvail => true | _ => false end) || (bindRetries <=? attempt) then Fail "dnsproxy: listening"
      else if cancelled attempt then Fail "context canceled"
      else open_loop fuel bind cancelled (attempt + 1)
    end
  end.

(** The try that bound the socket. *)
Definition open (bind : Z -> bound) (cancelled : Z -> bool) : outcome Z :=
  open_loop (Z.to_nat (bindRetries + 1)) bind cancelled 0.

(** What start does to the processes and the socket, given what its calls return. *)
Inductive start_effect : Type := StartLink | GiveSocket | Arm (n : Z) | KillChild | CloseSocket.

Definition start (opened : outcome Z) (startLink controlling setActive : option string) : option string * list start_effect :=
  match opened with
  | Fail e => (Some e, [])
  | Panic => (Some "panic"%string, [])
  | Ret _ =>
    match startLink with
    | Some e => (Some e, [StartLink; CloseSocket])
    | None =>
      match controlling with
      | Some e => (Some e, [StartLink; GiveSocket; KillChild; CloseSocket])
      | None =>
        match setActive with
        | Some e => (Some e, [StartLink; GiveSocket; Arm maxInFlight; KillChild; CloseSocket])
        | None => (None, [StartLink; GiveSocket; Arm maxInFlight])
        end
      end
    end
  end.

Record answer : Type := mkAnswer { to : AddrPort; data : bytes }.

(** A connected socket: each call fails or not; the datagram read, after what was
    written. *)
Record Conn : Type := mkConn { Dial : bool; SetDeadline : bool; Write : bytes -> bool; Read : bytes -> option bytes }.

(** What a query's task is seen to do on the network: a socket opened to an upstream, the
    datagram it sent there, the datagram that came back, the context found ended. *)
Inductive io : Type := Dialed (u : AddrPort) | Wrote (u : AddrPort) (b : bytes) | Received (u : AddrPort) (b : bytes) | Ended.

(** A datagram is cut at the buffer's length. *)
Definition ask (upstream : AddrPort) (c : Conn) (query : bytes) : option bytes * list io :=
  if negb (Dial c) then (None, [Dialed upstream])
  else if negb (SetDeadline c) then (None, [Dialed upstream])
  else if negb (Write c query) then (None, [Dialed upstream])
  else
    match Read c query with
    | None => (None, [Dialed upstream; Wrote upstream query])
    | Some b => (Some (take (Z.to_nat maxUDPMessageBytes) b), [Dialed upstream; Wrote upstream query; Received upstream b])
    end.

(** The Run of a query's task: the connections it makes, and whether the context has
    ended after each. *)
Fixpoint forward (client : AddrPort) (query : bytes) (upstreams : list AddrPort) (net : AddrPort -> Conn)
    (ended : AddrPort -> bool) : option answer * list io :=
  match upstreams with
  | [] => (None, [])
  | u :: rest =>
    match ask u (net u) query with
    | (Some b, tr) => (Some (mkAnswer client b), tr)
    | (None, tr) =>
      if ended u then (None, tr ++ [Ended])
      else let '(a, tr') := forward client query rest net ended in (a, tr ++ tr')
    end
  end.

(** Messages a listener is sent: a datagram, the end of a task, the socket's. *)
Inductive msg : Type :=
| DataMsg (from : AddrPort) (query : bytes)
| AsyncResult (key : Z) (value : option answer)
| ErrorMsg
| ClosedMsg
| SendErrorMsg.

(** What the listener asks of the library: a task, an answer sent and the socket armed
    for more, the socket armed, the listener stopped. *)
Inductive effect : Type :=
| Async (key : Z) (client : AddrPort) (query : bytes)
| SendActive (to : AddrPort) (data : bytes) (n : Z)
| SetActive (n : Z)
| Stop (reason : string).

Definition HandleInfo (next : Z) (m : msg) : Z * list effect :=
  match m with
  | DataMsg from query => (u64 (next + 1), [Async next from query])
  | AsyncResult _ (Some a) => (next, [SendActive (to a) (data a) 1])
  | AsyncResult _ None => (next, [SetActive 1])
  | ErrorMsg => (next, [Stop "dnsproxy: reading"])
  | ClosedMsg => (next, [Stop "dnsproxy: closed"])
  | SendErrorMsg => (next, [])
  end.

(** ** TCP (tcp.go) *)

(** The upstream a connection is relayed to: the first that accepts one. *)
Fixpoint relay (upstreams : list AddrPort) (accepts : AddrPort -> bool) : option AddrPort :=
  match upstreams with
  | [] => None
  | a :: rest => if accepts a then Some a else relay rest accepts
  end.

(** ** A listener at work *)

Section System.
Variable ups : list AddrPort.

(** A task that has ended: its client and query, what it did on the network, what it
    returned. *)
Record exchange : Type := mkExchange { client : AddrPort; query : bytes; seen : list io; relayed : option answer }.

(** The listener's state; the datagrams its socket will hand over still; the tasks in
    flight; the queries received; the tasks that have ended; what was sent; whether it has
    stopped. *)
Record system : Type := mkSystem {
  nextKey : Z; credit : Z; inFlight : list (Z * (AddrPort * bytes));
  received : list (AddrPort * bytes); finished : list exchange; sent : list answer; stopped : bool }.

(** The library carrying out an effect (the socket's active count adds up). *)
Definition perform (s : system) (e : effect) : system :=
  match e with
  | Async key client query =>
    mkSystem (nextKey s) (credit s) (inFlight s ++ [(key, (client, query))]) (received s) (finished s) (sent s) (stopped s)
  | SendActive to data n => mkSystem (nextKey s) (credit s + n) (inFlight s) (received s) (finished s) (sent s ++ [mkAnswer to data]) (stopped s)
  | SetActive n => mkSystem (nextKey s) (credit s + n) (inFlight s) (received s) (finished s) (sent s) (stopped s)
  | Stop _ => mkSystem (nextKey s) (credit s) (inFlight s) (received s) (finished s) (sent s) true
  end.

Definition handle (s : system) (m : msg) : system :=
  let '(next, effs) := HandleInfo (nextKey s) m in
  fold_left perform effs (mkSystem next (credit s) (inFlight s) (received s) (finished s) (sent s) (stopped s)).

(** A datagram comes while the socket is armed, and uses one of its count; a task ends
    with what its forwarding gave; the socket fails. *)
Inductive step : system -> system -> Prop :=
| step_data s from q : stopped s = false -> 0 < credit s ->
    step s (handle (mkSystem (nextKey s) (credit s - 1) (inFlight s) (received s ++ [(from, q)]) (finished s) (sent s) false)
              (DataMsg from q))
| step_done s pre key from q post net ended a tr : stopped s = false -> inFlight s = pre ++ (key, (from, q)) :: post ->
    forward from q ups net ended = (a, tr) ->
    step s (handle (mkSystem (nextKey s) (credit s) (pre ++ post) (received s) (finished s ++ [mkExchange from q tr a]) (sent s) false)
              (AsyncResult key a))
| step_socket s m : stopped s = false -> m ∈ [ErrorMsg; ClosedMsg; SendErrorMsg] -> step s (handle s m).

(** As start leaves it. *)
Definition started : system := mkSystem 0 maxInFlight [] [] [] [] false.

(** ** Facts *)

(** A query as it should be forwarded: to the upstreams in their order, in the client's
    own bytes, until one answers; that answer, up to the buffer's length, is relayed to the
    client, and there is none only when no upstream tried had one, and all were tried or
    the context had ended. *)
Definition forwarded (x : exchange) : Prop :=
  exists tried rest, ups = tried ++ rest /\
    omap (fun e => match e with Dialed u => Some u | _ => None end) (seen x) = tried /\
    (forall u b, Wrote u b ∈ seen x -> b = query x) /\
    match relayed x with
    | Some a => to a = client x /\ exists pre u b, seen x = pre ++ [Dialed u; Wrote u (query x); Received u b] /\
        data a = take (Z.to_nat maxUDPMessageBytes) b /\ forall u' b', Received u' b' ∉ pre
    | None => (forall u b, Received u b ∉ seen x) /\ (rest = [] \/ Ended ∈ seen x)
    end.

Lemma ask_seen u c q : let '(r, tr) := ask u c q in
  match r with
  | Some d => exists b, tr = [Dialed u; Wrote u q; Received u b] /\ d = take (Z.to_nat maxUDPMessageBytes) b
  | None => tr = [Dialed u] \/ tr = [Dialed u; Wrote u q]
  end.
Proof. unfold ask. repeat case_match; simplify_eq; eauto. Qed.

Lemma forward_forwarded from q us net ended : let '(a, tr) := forward from q us net ended in
  exists tried rest, us = tried ++ rest /\
    omap (fun e => match e with Dialed u => Some u | _ => None end) tr = tried /\
    (forall u b, Wrote u b ∈ tr -> b = q) /\
    match a with
    | Some a => to a = from /\ exists pre u b, tr = pre ++ [Dialed u; Wrote u q; Received u b] /\
        data a = take (Z.to_nat maxUDPMessageBytes) b /\ forall u' b', Received u' b' ∉ pre
    | None => (forall u b, Received u b ∉ tr) /\ (rest = [] \/ Ended ∈ tr)
    end.
Proof.
  induction us as [|u us IH]; cbn [forward].
  { exists [], []. split; [done|]. split; [done|]. split; [set_solver|]. split; [set_solver|by left]. }
  pose proof (ask_seen u (net u) q) as Hu. destruct (ask u (net u) q) as [[d|] tr].
  - destruct Hu as (b & -> & ->). exists [u], us. split; [done|]. split; [done|]. split; [set_solver|]. split; [done|].
    exists [], u, b. split; [done|]. split; [done|set_solver].
  - destruct (ended u).
    + exists [u], us. split; [done|]. split; [by destruct Hu as [-> | ->]|].
      destruct Hu as [-> | ->]; (split; [set_solver|]; split; [set_solver|right; set_solver]).
    + destruct (forward from q us net ended) as [a tr']. destruct IH as (tried & rest & -> & Ht & Hw & Ha).
      exists (u :: tried), rest. split; [done|]. split; [destruct Hu as [-> | ->]; cbn; by rewrite Ht|].
      split; [destruct Hu as [-> | ->]; set_solver|]. destruct a as [a|].
      * destruct Ha as (Hto & pre & v & b & -> & Hd & Hp). split; [done|]. exists (tr ++ pre), v, b.
        split; [by rewrite app_assoc|]. split; [done|]. destruct Hu as [-> | ->]; set_solver.
      * destruct Ha as [Hn He]. split; [destruct Hu as [-> | ->]; set_solver|]. destruct He as [He|He]; [by left|right; set_solver].
Qed.

(** What every reachable state satisfies. *)
Record inv (s : system) : Prop := {
  inv_slots : credit s + zlen (inFlight s) = maxInFlight;
  inv_credit : 0 <= credit s;
  inv_queries : received s ≡ₚ ((fun x => (client x, query x)) <$> finished s) ++ (inFlight s).*2;
  inv_forwarded : Forall forwarded (finished s);
  inv_sent : sent s = omap relayed (finished s) }.

Lemma inv_started : inv started.
Proof. split; done. Qed.

Lemma inv_step s s' : inv s -> step s s' -> inv s'.
Proof.
  intros [Hs Hc Hq Hf Ha] Hstep. destruct Hstep as [s from q Hst Hcr|s pre key from q post net ended a tr Hst Hin E|s m Hst Hm].
  - unfold handle. cbn. split; cbn.
    + rewrite zlen_app, zlen_cons, zlen_nil. lia.
    + lia.
    + rewrite fmap_app, app_assoc. cbn. by rewrite <- Hq.
    + done.
    + done.
  - pose proof (forward_forwarded from q ups net ended) as Hfw. rewrite E in Hfw.
    rewrite Hin in *. rewrite zlen_app, zlen_cons in Hs. rewrite fmap_app, fmap_cons in Hq. cbn in Hq.
    assert (forwarded (mkExchange from q tr a)) as Hx by exact Hfw.
    assert (received s ≡ₚ ((fun x => (client x, query x)) <$> (finished s ++ [mkExchange from q tr a])) ++ (pre ++ post).*2) as Hq'.
    { rewrite Hq, !fmap_app. cbn. solve_Permutation. }
    assert (Forall forwarded (finished s ++ [mkExchange from q tr a])) as Hf' by (apply Forall_app; by repeat constructor).
    destruct a as [a|]; unfold handle; cbn; (split; cbn; [rewrite zlen_app; lia|lia|done|done|]).
    + rewrite omap_app, <- Ha. cbn. by destruct a.
    + by rewrite omap_app, <- Ha, app_nil_r.
  - rewrite !elem_of_cons, elem_of_nil in Hm. destruct Hm as [->|[->|[->|[]]]]; unfold handle; cbn; by split.
Qed.

Lemma inv_reachable s : rtc step started s -> inv s.
Proof.
  intros Hr. cut (inv started -> inv s); [intros H; apply H, inv_started|].
  induction Hr as [|s1 s2 s3 Hstep Hr IH]; [done|]. intros Hi. apply IH. by eapply inv_step.
Qed.

(** The keys of the tasks in flight, short of the counter's wrap-around. *)
Record keyed (n : nat) (s : system) : Prop := {
  keyed_next : 0 <= nextKey s <= Z.of_nat n;
  keyed_below : Forall (fun t => t.1 < nextKey s) (inFlight s);
  keyed_distinct : NoDup (inFlight s).*1 }.

Lemma keyed_step n s s' : Z.of_nat (S n) < 2 ^ 64 -> keyed n s -> step s s' -> keyed (S n) s'.
Proof.
  intros Hn [Hk Hb Hd] Hstep. destruct Hstep as [s from q Hst Hcr|s pre key from q post net ended a tr Hst Hin E|s m Hst Hm].
  - unfold handle. cbn. rewrite Z.mod_small by lia. split; cbn; [lia| |].
    + apply Forall_app. split; [|constructor; [cbn; lia|done]]. eapply Forall_impl; [done|]. intros t Ht. cbn in Ht. lia.
    + rewrite fmap_app. apply NoDup_app. split; [done|]. split; [|apply NoDup_singleton].
      intros k (t & -> & Ht)%list_elem_of_fmap Hk'. apply list_elem_of_singleton in Hk'. rewrite Forall_forall in Hb.
      specialize (Hb t Ht). cbn in *. lia.
  - rewrite Hin in *. apply Forall_app in Hb as [Hb1 Hb2]. inversion Hb2 as [|? ? Hb3 Hb4]; subst.
    assert (Forall (fun t => t.1 < nextKey s) (pre ++ post)) by (by apply Forall_app).
    assert (NoDup (pre ++ post).*1) as Hd' by (eapply sublist_NoDup; [exact Hd|]; apply fmap_sublist, sublist_app; [done|by constructor]).
    destruct a; unfold handle; cbn; (split; cbn; [lia|done|done]).
  - rewrite !elem_of_cons, elem_of_nil in Hm. destruct Hm as [->|[->|[->|[]]]]; unfold handle; cbn; (split; cbn; [lia|done|done]).
Qed.

Lemma keyed_reachable n : forall s, Z.of_nat n < 2 ^ 64 -> nsteps step n started s -> keyed n s.
Proof.
  induction n as [|n IH]; intros s Hn Hr.
  - inversion Hr; subst. split; cbn; [lia|constructor|constructor].
  - apply nsteps_inv_r in Hr as (s1 & Hr & Hstep). eapply keyed_step; [done| |done]. apply IH; [lia|done].
Qed.
End System.

(** C38: a LAN's queries are forwarded, each once and to its asker, and the listener never
    runs out of room for good.  In every state a listener reaches: its socket is armed
    for exactly as many queries as there are free slots of its 256, so that it can always
    take a query or finish one.  The queries received are the ones in flight and the ones
    done with, each once.  What was done with each, by what its task was seen to do on the
    network: the client's bytes, as they came, went to the upstreams in their order until
    one answered; and that answer, up to the buffer's length, was returned for the client,
    or nothing, when none tried had answered and all were tried or the context had ended.
    And what the listener has sent is exactly what the tasks returned, in their order.
    Tasks in flight have keys of their own (within 2^64 steps). *)
Theorem queries_forwarded ups s : rtc (step ups) started s ->
  (credit s + zlen (inFlight s) = maxInFlight /\ (0 < credit s \/ inFlight s <> []))
  /\ received s ≡ₚ ((fun x => (client x, query x)) <$> finished s) ++ (inFlight s).*2
  /\ Forall (forwarded ups) (finished s)
  /\ sent s = omap relayed (finished s)
  /\ (forall n, Z.of_nat n < 2 ^ 64 -> nsteps (step ups) n started s -> NoDup (inFlight s).*1).
Proof.
  intros Hr. destruct (inv_reachable ups s Hr) as [Hs Hc Hq Hf Ha]. split; [split; [done|]|].
  - destruct (inFlight s); [left; unfold maxInFlight in Hs; cbn in Hs; rewrite zlen_nil in Hs; lia|by right].
  - repeat (split; [done|]). intros n Hn Hsteps. by eapply keyed_reachable.
Qed.

(** ** Binding *)

Lemma open_loop_spec bind cancelled fuel : forall k, Z.of_nat fuel + k = bindRetries + 1 -> 0 <= k <= bindRetries ->
  match open_loop fuel bind cancelled k with
  | Ret j => k <= j <= bindRetries /\ bind j = Bound /\ forall i, k <= i < j -> bind i = NotAvail
  | Fail _ => exists j, k <= j <= bindRetries /\ (forall i, k <= i < j -> bind i = NotAvail)
      /\ ((exists e, bind j = BindError e) \/ bind j = NotAvail /\ (j = bindRetries \/ cancelled j = true))
  | Panic => False
  end.
Proof.
  induction fuel as [|fuel IH]; intros k Hf Hk; [lia|]. cbn [open_loop].
  destruct (bind k) as [| |e] eqn:Eb; cbn [negb orb].
  - split; [lia|]. split; [done|]. intros; lia.
  - destruct (Z.leb_spec bindRetries k).
    + exists k. split; [lia|]. split; [intros; lia|]. right. split; [done|left; lia].
    + destruct (cancelled k) eqn:Ec; [exists k; split; [lia|]; split; [intros; lia|]; right; split; [done|by right]|].
      specialize (IH (k + 1) ltac:(lia) ltac:(lia)).
      assert (forall i j, (k + 1 <= i < j -> bind i = NotAvail) -> k <= i < j -> bind i = NotAvail) as Hex.
      { intros i j Hi Hr. destruct (decide (i = k)) as [->|]; [done|]. apply Hi. lia. }
      destruct (open_loop fuel bind cancelled (k + 1)) as [j|e|]; [|destruct IH as (j & Hj & Hi & Hr)|done].
      * destruct IH as (Hj & Hb & Hi). split; [lia|]. split; [done|]. intros i. apply Hex, Hi.
      * exists j. split; [lia|]. split; [intros i; apply Hex, Hi|done].
  - exists k. split; [lia|]. split; [intros; lia|]. left. by eexists.
Qed.

(** A listener waits out an address not there yet, trying eleven times at most, and
    fails at once on any other error; when the start fails after binding, the socket
    is closed, and the process killed if it had started. *)
Lemma listener_starts bind cancelled startLink controlling setActive :
  match start (open bind cancelled) startLink controlling setActive with
  | (None, effs) => effs = [StartLink; GiveSocket; Arm maxInFlight] /\ exists j, 0 <= j <= 10 /\ bind j = Bound /\ forall i, 0 <= i < j -> bind i = NotAvail
  | (Some _, effs) => (effs = [] /\ (exists j, 0 <= j <= 10 /\ (forall i, 0 <= i < j -> bind i = NotAvail)
        /\ ((exists e, bind j = BindError e) \/ bind j = NotAvail /\ (j = 10 \/ cancelled j = true))))
      \/ (List.last effs StartLink = CloseSocket /\ (KillChild ∈ effs <-> startLink = None))
  end.
Proof.
  pose proof (open_loop_spec bind cancelled (Z.to_nat (bindRetries + 1)) 0 ltac:(done) ltac:(done)) as Ho.
  unfold start. change (open_loop _ _ _ _) with (open bind cancelled) in Ho. destruct (open bind cancelled) as [j|e|]; [|by left|done].
  destruct startLink; [|destruct controlling; [|destruct setActive]].
  - right. split; [done|]. split; [intros HK; exfalso; set_solver|done].
  - right. split; [done|]. split; [done|set_solver].
  - right. split; [done|]. split; [done|set_solver].
  - split; [done|]. by exists j.
Qed.

(** ** Sample: the first upstream does not answer, the second does *)

Definition sample_ups : list AddrPort := Upstreams [A6 1 ""; A6 2 ""].
Definition sample_net (u : AddrPort) : Conn :=
  mkConn true true (fun _ => true) (fun q => if bool_decide (u.1 = A6 2 "") then Some (q ++ [7; 8]) else None).
Definition sample_client : AddrPort := (A4 0xC0A80102, 40000).
Definition sample_task : option answer * list io := forward sample_client [1; 2] sample_ups sample_net (fun _ => false).

Definition sample_asked : system :=
  handle (mkSystem 0 255 [] [(sample_client, [1; 2])] [] [] false) (DataMsg sample_client [1; 2]).
Definition sample_answered : system :=
  handle (mkSystem 1 255 ([] ++ []) [(sample_client, [1; 2])] [mkExchange sample_client [1; 2] sample_task.2 sample_task.1] [] false)
    (AsyncResult 0 sample_task.1).

Lemma queries_forwarded_witness :
  sent sample_answered = [mkAnswer sample_client [1; 2; 7; 8]] /\ credit sample_answered = 256 /\
  seen <$> finished sample_answered = [[Dialed (A6 1 "", 53); Wrote (A6 1 "", 53) [1; 2];
    Dialed (A6 2 "", 53); Wrote (A6 2 "", 53) [1; 2]; Received (A6 2 "", 53) [1; 2; 7; 8]]] /\
  Forall (forwarded sample_ups) (finished sample_answered).
Proof.
  assert (rtc (step sample_ups) started sample_answered) as Hr.
  { apply (rtc_l _ _ sample_asked); [apply (step_data sample_ups started sample_client [1; 2]); reflexivity|].
    apply rtc_once. apply (step_done sample_ups sample_asked [] 0 sample_client [1; 2] [] sample_net (fun _ => false)); reflexivity. }
  destruct (queries_forwarded sample_ups sample_answered Hr) as ((Hc & _) & _ & Hf & Hs & _).
  split; [rewrite Hs; vm_compute; reflexivity|]. split; [exact Hc|]. split; [vm_compute; reflexivity|exact Hf].
Defined.
