(* ===== verification/Discovery.v ===== *)
(** How the program comes by its softwire: src/cmd/minuteman (main.go: resolveAFTR,
    discoverAFTROnce, discoverViaHB46PP, retryDelayFor, resolveB4; softwire.go: what the
    controller is given) and the attempt of src/internal/softwirectl/discovery.go.

    An attempt asks DHCPv6 for the AFTR (Aftrdiscovery.v) and falls back on HB46PP
    (Hb46pp.v); startup repeats it until it succeeds, the controller of Controller.v runs
    it again when the answer is due for a refresh.  The network seen by each attempt is
    an argument: the classes of those files, with the random durations drawn. *)

From S2P Require Import Prelude Stats Wire Netip Text Dhcpv6 Datapath Migration Softwire PrefixDelegation Routeradvert.
From S2P Require Import Hb46pp Aftrdiscovery Controller.

Local Open Scope Z_scope.

Definition informationRequestTimeout : Z := 30 * Second.
Definition noReplyRetryCap : Z := 5 * Minute.

Record hb46ppIdentity : Type := mkIdentity { vendorID : bytes; product : bytes; version : bytes }.

(** One outcome of a discovery. *)
Record aftrDiscovery : Type := mkAftrDiscovery {
  aftr : Addr; dnsServers : list Addr; refresh : Z; hb46ppToken : bytes }.

(** An error of a discovery: its class for HB46PP's retry times, and whether
    aftrdiscovery.ErrNoReply is in its chain. *)
Record failure : Type := mkFailure { class : Hb46pp.err; noReply : bool }.

(** ** One attempt *)

(** What an attempt sees: DHCPv6 and its resolver, the world HB46PP reaches through
    given DNS servers (the system's if there are none), and random durations. *)
Record attempt (G : Type) : Type := mkAttempt {
  anet : Net; aworld : list Addr -> World; drawn : G; drawn_retry : G }.
Arguments mkAttempt {G} _ _ _ _.
Arguments anet {G} _.
Arguments aworld {G} _ _.
Arguments drawn {G} _.
Arguments drawn_retry {G} _.

Section Attempt.
Context {G : Type} `{Random G}.

Definition discoverViaHB46PP (a : attempt G) (servers : list Addr) (identity : hb46ppIdentity) (prevToken : bytes)
    : result aftrDiscovery :=
  match @Hb46pp.Discover (aworld a servers) G _
          (mkClientInfo (vendorID identity) (product identity) (version identity) [str "dslite"] prevToken) (drawn a) with
  | Err e => Err e
  | Ok r =>
    if negb (IsValid (Hb46pp.AFTRAddr r)) then Err (OtherError "provisioning server returned no DS-Lite parameters")
    else Ok (mkAftrDiscovery (Hb46pp.AFTRAddr r) servers (resRefreshInterval r) (pToken (resProvisioning r)))
  end.

Definition discoverAFTROnce (a : attempt G) (identity : hb46ppIdentity) (prevToken : bytes) (fallbackDNS : list Addr)
    : outcome (aftrDiscovery + failure) :=
  match @Aftrdiscovery.Discover (anet a) informationRequestTimeout with
  | Found r => Ret (inl (mkAftrDiscovery (AFTRAddr r) (Aftrdiscovery.dnsServers r) (Aftrdiscovery.RefreshInterval r) []))
  | ErrNoAFTRName r =>
    match discoverViaHB46PP a (Aftrdiscovery.dnsServers r) identity prevToken with
    | Ok d => Ret (inl d)
    | Err e => Ret (inr (mkFailure e false))
    end
  | ErrNoReply =>
    match discoverViaHB46PP a fallbackDNS identity prevToken with
    | Ok d => Ret (inl d)
    | Err e => Ret (inr (mkFailure e true))
    end
  | ErrResolve true _ => Ret (inr (mkFailure (DNSError "discovering AFTR") false))
  | ErrResolve false _ | ErrExchange _ | ErrDecode _ => Ret (inr (mkFailure (OtherError "discovering AFTR") false))
  | Crashed => Panic
  end.

Definition retryDelayFor (e : failure) (g : G) : Z :=
  let delay := RetryDelay (class e) g in
  if noReply e && (noReplyRetryCap <? delay) then noReplyRetryCap else delay.

(** ** At startup *)

(** A turn of resolveAFTR's loop: the attempt, whether the context has ended once it has
    failed, whether it ends during the wait. *)
Record turn : Type := mkTurn { tried : attempt G; ended : bool; stopped : bool }.

Inductive resolution : Type :=
| Resolved (d : aftrDiscovery)
| ContextEnded
| Unfinished (* more turns are needed than were given *).

(** Beside the outcome, the waits in order. *)
Fixpoint resolve_loop (turns : list turn) (identity : hb46ppIdentity) (fallbackDNS : list Addr) : outcome (resolution * list Z) :=
  match turns with
  | [] => Ret (Unfinished, [])
  | t :: turns =>
    r ← discoverAFTROnce (tried t) identity [] fallbackDNS;
    match r with
    | inl d => Ret (Resolved d, [])
    | inr e =>
      if ended t then Ret (ContextEnded, [])
      else
        let delay := retryDelayFor e (drawn_retry (tried t)) in
        if stopped t then Ret (ContextEnded, [delay])
        else '(r, delays) ← resolve_loop turns identity fallbackDNS; Ret (r, delay :: delays)
    end
  end.

Definition resolveAFTR (aftrFlag : bytes) (turns : list turn) (identity : hb46ppIdentity) (fallbackDNS : list Addr)
    : outcome (resolution * list Z) :=
  if negb (bool_decide (aftrFlag = [])) then
    match ParseAddr aftrFlag with
    | Some a => Ret (Resolved (mkAftrDiscovery a [] 0 []), [])
    | None => Fail "parsing -aftr"
    end
  else resolve_loop turns identity fallbackDNS.

(** ** For the controller *)

Definition toSoftwirectl (d : aftrDiscovery) : Controller.Discovery :=
  mkDiscovery (aftr d) (dnsServers d) (refresh d) (of_bytes (hb46ppToken d)).

(** The attempt's reply; a failure's discovery is the zero one, and its wait is drawn
    with it (here as hb46pp.RetryDelay, which startSoftwireControl passes). *)
Definition discover (a : attempt G) (identity : hb46ppIdentity) (fallbackDNS : list Addr) (token : string) : outcome rvalue :=
  r ← discoverAFTROnce a identity (str token) fallbackDNS;
  Ret (match r with
       | inl d => discoverRep (toSoftwirectl d) None 0
       | inr e => discoverRep zeroDiscovery (Some "discovery") (RetryDelay (class e) (drawn_retry a))
       end).
End Attempt.
Arguments turn G : clear implicits.

(** The servers a delegation lends the fallback. *)
Definition pdDNSServers (lease : option Lease) : list Addr :=
  match lease with None => [] | Some l => LDNSServers l end.

(** ** The softwire's source *)

Definition b4ResolveRetryInterval : Z := Second.

(** An answer of SourceForDest, and whether the context ends before the next. *)
Record asking : Type := mkAsking { answer : outcome (Addr * bool); leaves : bool }.

Inductive source : Type := Source (a : Addr) | QueryFailed | SourceEnded | SourceUnfinished.

(** The messages of the wait. *)
Inductive b4_log : Type := LogNotGlobal | LogNoRoute.

Fixpoint resolveB4_loop (asks : list asking) (loggedNoRoute loggedNotGlobal : bool) : source * list b4_log :=
  match asks with
  | [] => (SourceUnfinished, [])
  | a :: asks =>
    match answer a with
    | Ret (src, ok) =>
      if ok && UsableB4 src then (Source src, [])
      else
        let notGlobal := ok && negb loggedNotGlobal in
        let noRoute := negb notGlobal && (negb ok && negb loggedNoRoute) in
        let log := (if notGlobal then [LogNotGlobal] else []) ++ (if noRoute then [LogNoRoute] else []) in
        if leaves a then (SourceEnded, log)
        else
          let '(r, rest) := resolveB4_loop asks (loggedNoRoute || noRoute) (loggedNotGlobal || notGlobal) in
          (r, log ++ rest)
    | _ => (QueryFailed, [])
    end
  end.

Definition resolveB4 (asks : list asking) : source * list b4_log := resolveB4_loop asks false false.

(** ** What the waits are *)

Section Paces.
Context {G : Type} `{RandomLaws G}.

Lemma RetryDelay_range e (g : G) : Minute <= RetryDelay e g <= 3 * Hour.
Proof.
  unfold RetryDelay, notProvisionedMin, notProvisionedMax, dnsFailureMin, dnsFailureMax, httpFailureMin, httpFailureMax.
  assert (Minute = 60 * Second /\ Hour = 3600 * Second /\ 0 < Second) as (Em & Eh & Hs) by done.
  destruct e as [s|s|s].
  - pose proof (Hb46pp.randInterval_bounds (1 * Hour) (3 * Hour) g ltac:(lia)). lia.
  - pose proof (Hb46pp.randInterval_bounds (1 * Minute) (10 * Minute) g ltac:(lia)). lia.
  - pose proof (Hb46pp.randInterval_bounds (10 * Minute) (30 * Minute) g ltac:(lia)). lia.
Qed.

Lemma retryDelayFor_range e (g : G) :
  Minute <= retryDelayFor e g <= 3 * Hour /\ (noReply e = true -> retryDelayFor e g <= noReplyRetryCap).
Proof.
  pose proof (RetryDelay_range (class e) g) as Hr. unfold retryDelayFor, noReplyRetryCap.
  assert (Minute = 60 * Second /\ Hour = 3600 * Second /\ 0 < Second) as (Em & Eh & Hs) by done.
  destruct (noReply e); cbn [andb]; [|by split]. destruct (Z.ltb_spec (5 * Minute) (RetryDelay (class e) g)); lia.
Qed.

(** The replies of an attempt decode: what Dhcpv6Client.v hands over. *)
Definition decodes (a : attempt G) : Prop := forall d x m, @Exchange_ (anet a) d x = inl m -> message_wf m.

Lemma discoverAFTROnce_total a identity token fb : decodes a -> exists r, discoverAFTROnce a identity token fb = Ret r.
Proof.
  intros Hd. unfold discoverAFTROnce. pose proof (@Discover_total (anet a) informationRequestTimeout Hd) as Ht.
  destruct (Aftrdiscovery.Discover _) as [r|r| |e|e|[] e|]; try done; try (by eexists); destruct (discoverViaHB46PP _ _ _ _); by eexists.
Qed.

(** An unanswered request is known from the failure. *)
Lemma noReply_spec a identity token fb e : discoverAFTROnce a identity token fb = Ret (inr e) ->
  (noReply e = true <-> @Aftrdiscovery.Discover (anet a) informationRequestTimeout = ErrNoReply).
Proof.
  unfold discoverAFTROnce. destruct (Aftrdiscovery.Discover _) as [r|r| |e'|e'|[] e'|];
    try (destruct (discoverViaHB46PP _ _ _ _)); intros [= <-]; done.
Qed.

(** The attempt of a turn fails, and nothing ends the wait after it. *)
Definition goes_on (identity : hb46ppIdentity) (fb : list Addr) (t : turn G) : Prop :=
  (exists e, discoverAFTROnce (tried t) identity [] fb = Ret (inr e)) /\ ended t = false /\ stopped t = false.

Definition succeeds (identity : hb46ppIdentity) (fb : list Addr) (t : turn G) (d : aftrDiscovery) : Prop :=
  discoverAFTROnce (tried t) identity [] fb = Ret (inl d).

(** What the loop comes to. *)
Definition outcome_ok identity fb (turns : list (turn G)) (r : resolution) (delays : list Z) : Prop :=
  (forall d, r = Resolved d <-> exists pre t post, turns = pre ++ t :: post /\ Forall (goes_on identity fb) pre /\ succeeds identity fb t d)
  /\ (r = ContextEnded -> exists t, t ∈ turns /\ (ended t = true \/ stopped t = true))
  /\ (r = Unfinished -> Forall (goes_on identity fb) turns)
  /\ forall i d, delays !! i = Some d -> Minute <= d <= 3 * Hour
       /\ exists t, turns !! i = Some t
            /\ (@Aftrdiscovery.Discover (anet (tried t)) informationRequestTimeout = ErrNoReply -> d <= 5 * Minute).

Lemma stops_here identity fb t (turns : list (turn G)) r delays :
  (forall d, r = Resolved d <-> succeeds identity fb t d) -> ~ goes_on identity fb t ->
  (r = ContextEnded -> ended t = true \/ stopped t = true) -> r <> Unfinished ->
  (forall d, d ∈ delays -> delays = [d] /\ Minute <= d <= 3 * Hour
     /\ (@Aftrdiscovery.Discover (anet (tried t)) informationRequestTimeout = ErrNoReply -> d <= 5 * Minute)) ->
  outcome_ok identity fb (t :: turns) r delays.
Proof.
  intros Hr Hno Hc Hu Hd. split_and!.
  - intros d. rewrite Hr. split; [intros Hs; by exists [], t, turns|]. intros ([|t' pre] & t2 & post & E & Hpre & Hs).
    + by injection E as <- <-.
    + injection E as <- E. by apply Forall_cons in Hpre as [? _].
  - intros E. exists t. split; [left|by apply Hc].
  - done.
  - intros [|i] d Hi; [|apply list_elem_of_lookup_2 in Hi as Hin; apply Hd in Hin as [-> _]; done].
    apply list_elem_of_lookup_2 in Hi. destruct (Hd _ Hi) as (_ & ? & ?). split; [done|]. by exists t.
Qed.

Lemma goes_further identity fb t (turns : list (turn G)) r delays delay :
  goes_on identity fb t -> Minute <= delay <= 3 * Hour ->
  (@Aftrdiscovery.Discover (anet (tried t)) informationRequestTimeout = ErrNoReply -> delay <= 5 * Minute) ->
  outcome_ok identity fb turns r delays -> outcome_ok identity fb (t :: turns) r (delay :: delays).
Proof.
  intros Ht Hdel Hcap (H1 & H2 & H3 & H4). split_and!.
  - intros d. rewrite H1. split.
    + intros (pre & t2 & post & -> & Hpre & Hs). exists (t :: pre), t2, post. split; [done|]. split; [by constructor|done].
    + intros ([|t' pre] & t2 & post & E & Hpre & Hs); injection E as <- E.
      * destruct Ht as [[e He] _]. unfold succeeds in Hs. by rewrite He in Hs.
      * apply Forall_cons in Hpre as [_ Hpre]. by exists pre, t2, post.
  - intros Hc. destruct (H2 Hc) as (t2 & ? & ?). exists t2. split; [by right|done].
  - intros Hu. constructor; [done|by apply H3].
  - intros [|i] d; [intros [= <-]; split; [done|by exists t]|apply H4].
Qed.

(** Startup waits for the provider and no longer than it must.  For replies that
    decode and whatever the network answers, the loop of resolveAFTR ends with an AFTR
    exactly when an attempt succeeds before the context ends, and with that attempt's;
    it ends without one only because the context did; every attempt that fails is
    followed by a wait of one minute to three hours, of five minutes at most if nothing
    answered the request, so that enough turns always reach the first success. *)
Lemma resolve_persists identity fb (turns : list (turn G)) : Forall (fun t => decodes (tried t)) turns ->
  exists r delays, resolve_loop turns identity fb = Ret (r, delays) /\ outcome_ok identity fb turns r delays.
Proof.
  induction 1 as [|t turns Hd _ (r & delays & E & Hok)]; cbn [resolve_loop].
  { exists Unfinished, []. split; [done|]. split_and!; [|done|done|done].
    intros d. split; [done|]. intros (pre & t & post & E & _). by destruct pre. }
  destruct (discoverAFTROnce_total (tried t) identity [] fb Hd) as [[d|e] Eo]; rewrite Eo, bind_ret.
  - exists (Resolved d), []. split; [done|]. apply stops_here; [| |done|done|set_solver].
    + intros d'. unfold succeeds. rewrite Eo. naive_solver.
    + unfold goes_on. rewrite Eo. naive_solver.
  - destruct (retryDelayFor_range e (drawn_retry (tried t))) as [Hr Hc].
    assert (@Aftrdiscovery.Discover (anet (tried t)) informationRequestTimeout = ErrNoReply ->
      retryDelayFor e (drawn_retry (tried t)) <= 5 * Minute) as Hcap by (intros En; apply Hc; by eapply noReply_spec).
    assert (forall d, ContextEnded = Resolved d <-> succeeds identity fb t d) as Hn by (intros d; unfold succeeds; by rewrite Eo).
    destruct (ended t) eqn:Ee.
    { exists ContextEnded, []. split; [done|]. apply stops_here; [done| |by left|done|set_solver]. intros (_ & ? & _). congruence. }
    destruct (stopped t) eqn:Es.
    { exists ContextEnded, [retryDelayFor e (drawn_retry (tried t))]. split; [done|].
      apply stops_here; [done| |by right|done|]. { intros (_ & _ & ?). congruence. } intros d ->%list_elem_of_singleton. done. }
    rewrite E, bind_ret. eexists r, _. split; [done|]. apply goes_further; [|done..]. split; [by exists e|done].
Qed.

(** A token HB46PP cannot send back (it is not sixty-four hexadecimal digits) fails every
    attempt that falls back on HB46PP, whatever the network answers: the attempts of the
    controller then succeed by DHCPv6 only. *)
Lemma malformed_token a identity token fb r : tokenPattern token = false -> token <> [] ->
  discoverAFTROnce a identity token fb = Ret (inl r) ->
  exists found, @Aftrdiscovery.Discover (anet a) informationRequestTimeout = Found found.
Proof.
  intros Hp Hne. assert (forall servers d, discoverViaHB46PP a servers identity token <> Ok d) as Hno.
  { intros servers d. unfold discoverViaHB46PP, Hb46pp.Discover. destruct lookupServer as [server|e]; cbn [mbind result_bind]; [|done].
    unfold requestURL, validate. cbn [VendorID Product Version Capabilities Token].
    repeat (case_match; try done); exfalso; repeat case_bool_decide; rewrite ?Hp in *; cbn in *; congruence || done. }
  unfold discoverAFTROnce. destruct (Aftrdiscovery.Discover _) as [r'|r'| |e'|e'|[] e'|]; try done; [by eexists|..];
    (destruct (discoverViaHB46PP _ _ _ _) as [d|e] eqn:E; [by apply Hno in E|done]).
Qed.

(** The controller's attempt: a failure always comes with a wait, a success is what the
    attempt found. *)
Lemma discover_reply a identity fb token : decodes a ->
  exists d, (discover a identity fb token = Ret (discoverRep (toSoftwirectl d) None 0)
             /\ discoverAFTROnce a identity (str token) fb = Ret (inl d))
    \/ exists w, discover a identity fb token = Ret (discoverRep zeroDiscovery (Some "discovery"%string) w) /\ Minute <= w <= 3 * Hour.
Proof.
  intros Hd. unfold discover. destruct (discoverAFTROnce_total a identity (str token) fb Hd) as [[d|e] E]; rewrite E, bind_ret.
  - exists d. by left.
  - exists (mkAftrDiscovery AInvalid [] 0 []). right. eexists. split; [done|]. apply RetryDelay_range.
Qed.
End Paces.

(** ** The softwire's source is an address of the WAN's own *)

Definition waits (a : asking) : Prop :=
  leaves a = false /\ exists src ok, answer a = Ret (src, ok) /\ ok && UsableB4 src = false.

Lemma resolveB4_loop_spec asks noRoute notGlobal :
  let '(r, log) := resolveB4_loop asks noRoute notGlobal in
  (forall a, r = Source a <-> exists pre x post, asks = pre ++ x :: post /\ Forall waits pre /\ answer x = Ret (a, true) /\ UsableB4 a = true)
  /\ (forall m, m ∈ log -> match m with LogNoRoute => noRoute | LogNotGlobal => notGlobal end = false) /\ NoDup log.
Proof.
  revert noRoute notGlobal. induction asks as [|x asks IH]; intros noRoute notGlobal; cbn [resolveB4_loop].
  { split; [|split; [set_solver|constructor]]. intros a. split; [done|]. intros (pre & x & post & E & _). by destruct pre. }
  destruct (answer x) as [[src ok]|e|] eqn:Ea.
  2, 3: (split; [|split; [set_solver|constructor]]); intros a; (split; [done|]); intros ([|y pre] & z & post & [= <- ->] & Hw & Hz & _);
    [congruence|]; apply Forall_cons in Hw as [(_ & ? & ? & Hy & _) _]; congruence.
  destruct (ok && UsableB4 src) eqn:Eu.
  { split; [|split; [set_solver|constructor]]. apply andb_true_iff in Eu as [-> Hu]. intros a. split.
    - intros [= <-]. by exists [], x, asks.
    - intros ([|y pre] & z & post & [= <- ->] & Hw & Hz & _); [congruence|].
      apply Forall_cons in Hw as [(_ & ? & ? & Hy & Hy') _]. rewrite Ea in Hy. injection Hy as <- <-. by rewrite Hu in Hy'. }
  assert (forall a, (exists pre z post, x :: asks = pre ++ z :: post /\ Forall waits pre /\ answer z = Ret (a, true) /\ UsableB4 a = true)
    <-> leaves x = false /\ exists pre z post, asks = pre ++ z :: post /\ Forall waits pre /\ answer z = Ret (a, true) /\ UsableB4 a = true) as Hx.
  { intros a. split.
    - intros ([|y pre] & z & post & [= <- ->] & Hw & Hz & Hu).
      + rewrite Ea in Hz. injection Hz as -> ->. by rewrite Hu in Eu.
      + apply Forall_cons in Hw as [(Hl & _) Hw]. split; [done|]. by exists pre, z, post.
    - intros (Hl & pre & z & post & -> & Hw & Hz & Hu). exists (x :: pre), z, post. split; [done|]. split; [|done].
      constructor; [|done]. split; [done|]. by exists src, ok. }
  set (log := (if ok && negb notGlobal then [LogNotGlobal] else []) ++ _).
  assert (NoDup log /\ forall m, m ∈ log -> match m with LogNoRoute => noRoute | LogNotGlobal => notGlobal end = false) as [Hnd Hlog].
  { subst log. destruct ok, notGlobal, noRoute; cbn; split; (repeat constructor; set_solver) || (intros [] Hm; set_solver). }
  destruct (leaves x) eqn:El.
  { split; [|by split]. intros a. rewrite Hx. split; [done|]. by intros [? _]. }
  specialize (IH (noRoute || (negb (ok && negb notGlobal) && (negb ok && negb noRoute))) (notGlobal || (ok && negb notGlobal))).
  destruct (resolveB4_loop asks _ _) as [r rest]. destruct IH as (IH1 & IH2 & IH3). split_and!.
  - intros a. rewrite Hx, IH1. naive_solver.
  - intros m [Hm|Hm]%elem_of_app; [by apply Hlog|]. apply IH2 in Hm. by destruct m; apply orb_false_iff in Hm as [? _].
  - apply NoDup_app. split; [done|]. split; [|done]. intros m Hm1 Hm2. apply IH2 in Hm2. clear IH1 IH2 Hlog Hnd IH3 Hx.
    subst log. destruct ok, notGlobal, noRoute, m; cbn in *; set_solver.
Qed.

(** The source returned is the first answer that is one the softwire can use, none
    passed over; each of the two messages of the wait is logged once at most. *)
Lemma resolveB4_first asks : let '(r, log) := resolveB4 asks in
  (forall a, r = Source a <-> exists pre x post, asks = pre ++ x :: post /\ Forall waits pre /\ answer x = Ret (a, true) /\ UsableB4 a = true)
  /\ NoDup log.
Proof. pose proof (resolveB4_loop_spec asks false false) as H. unfold resolveB4. destruct (resolveB4_loop _ _ _). naive_solver. Qed.

(** ** Samples *)

#[local] Instance fixed_draw : Random unit := { draw n g := (n, g) }.
#[local] Instance fixed_draw_laws : RandomLaws unit.
Proof. split. intros n []. cbn. lia. Qed.

(** Nothing answers DHCPv6, and the provider does not offer HB46PP. *)
Definition silent_net : Net := {|
  Exchange_ _ _ := inr DeadlineExceeded; ctx_Err := false; Aftrdiscovery.LookupNetIP _ _ := inl [] |}.

Definition silent : attempt unit := mkAttempt silent_net (fun _ => bare_world) tt tt.
Definition answered : attempt unit := mkAttempt Aftrdiscovery.sample_net (fun _ => bare_world) tt tt.
Definition sample_identity : hb46ppIdentity := mkIdentity (str "acde48-minuteman") (str "minuteman") (str "0_1").
Definition sample_turns : list (turn unit) := [mkTurn silent false false; mkTurn silent false false; mkTurn answered false false].

(** The third attempt is answered. *)
Lemma resolve_persists_witness : exists delays,
  resolve_loop sample_turns sample_identity []
  = Ret (Resolved (mkAftrDiscovery Aftrdiscovery.sample_aftr [] (24 * 3600 * Second) []), delays).
Proof.
  assert (Forall (fun t => decodes (tried t)) sample_turns) as Hd.
  { constructor; [done|]. constructor; [done|]. constructor; [|constructor]. intros d x m [= <-]. by_eval. }
  destruct (resolve_persists sample_identity [] sample_turns Hd) as (r & delays & E & H1 & _).
  exists delays. rewrite E. do 2 f_equal. apply H1.
  exists (take 2 sample_turns), (mkTurn answered false false), []. split; [reflexivity|]. split; [|reflexivity].
  repeat constructor; (eexists; vm_compute; reflexivity).
Defined.

(** The two waits before it: five minutes each, instead of up to three hours. *)
Lemma sample_waits : snd <$> resolve_loop sample_turns sample_identity [] = Ret [5 * Minute; 5 * Minute].
Proof. vm_compute. reflexivity. Qed.
