(* ===== verification/Startup.v ===== *)
(** The program's start and end: src/cmd/minuteman (main.go: run, runDHCPv4,
    startDNSProxy, normalizeLegacyArgs; softwire.go: startSoftwireControl).  Running.v has
    the loops of main.go and apps.go.

    [run] is the order of it: which device, map, socket and application each step makes,
    what each failure leaves, and what the deferred functions take down.  The steps' own
    work is in the files of the parts; here a step has an answer, which is an argument. *)

From S2P Require Import Prelude Stats Wire Netip Text Dhcpv4Message Dhcpv4Pool Dhcpv4Handler Datapath Mtu Companion Cliconfig.

Local Open Scope Z_scope.

(** ** The flags *)

Record Flags : Type := mkFlags {
  wanIface : string; b4Addr : bytes; aftrAddr : bytes; wanDstMAC : bytes; requestPD : bool; ndProxy : bool; dnsProxyOn : bool;
  dhcpv4On : bool; dhcpv4Lease : Z; mssClamp : bytes; ipv6SwRSS : bool; stateDir : string; pidFile : string;
  lans : list LANSpec; dnsServersFlag : list Addr; dhcpv4DNSFlag : list Addr }.

Definition Minute : Z := 60 * 1000000000.
Definition minDHCPv4Lease : Z := Minute.
Definition dhcpMinMTU : Z := 68.

(** What the flags come to once checked, before anything is opened. *)
Record Checked : Type := mkChecked { staticB4 : option Addr (* none: dynamic *); dstMAC : option bytes; mssClampPolicy : Z }.

Definition check_flags (f : Flags) : outcome Checked :=
  if bool_decide (wanIface f = "") || bool_decide (lans f = []) then Fail "missing required flags: -wan and at least one -lan"
  else if requestPD f && ndProxy f then Fail "-dhcpv6-pd and -ndproxy are mutually exclusive"
  else
    b4 ← (if bool_decide (b4Addr f = []) then Ret None
          else match ParseAddr (b4Addr f) with Some a => Ret (Some a) | None => Fail "parsing -b4" end);
    mac ← ParseMAC (wanDstMAC f);
    policy ← ParseMSSClamp (mssClamp f);
    if negb (forallb Is4 (dhcpv4DNSFlag f)) then Fail "-dhcpv4-dns must be an IPv4 address"
    else if dhcpv4On f && (dhcpv4Lease f <? minDHCPv4Lease) then Fail "-dhcpv4-lease is too short"
    else Ret (mkChecked b4 mac policy).

(** The upstreams of the DNS proxy: the flag's, else those discovered, else the lease's. *)
Definition select_dns (flag discovered lease : list Addr) : list Addr :=
  let servers := if zlen discovered =? 0 then lease else discovered in
  if 0 <? zlen flag then flag else servers.

(** ** The DHCPv4 server's interfaces (runDHCPv4) *)

Definition mtu_overhead : Z := 40.

Definition dhcpv4_config (dnsOverride : list Addr) (dnsProxyOn : bool) (wanMTU lease : Z) (spec : LANSpec) : outcome InterfaceConfig :=
  if negb (prefix_IsValid (Cliconfig.Subnet spec)) || negb (Is4 (paddr (Cliconfig.Subnet spec)))
  then Fail "-dhcpv4: LAN interface has no IPv4 subnet"
  else
    let dns := if 0 <? zlen dnsOverride then dnsOverride else if dnsProxyOn then [Cliconfig.GatewayIP spec] else [] in
    let mtu := Cliconfig.MTU spec in
    let mtu := if (mtu =? 0) && (mtu_overhead <? wanMTU) then wanMTU - mtu_overhead else mtu in
    let mtu := if negb (mtu =? 0) && ((mtu <? dhcpMinMTU) || (0xffff <? mtu)) then 0 else mtu in
    Ret (mkConfig (Cliconfig.Iface spec) (Cliconfig.GatewayIP spec) (Cliconfig.Subnet spec) dns (u16 mtu) lease).

Definition dhcpv4_configs (dnsOverride : list Addr) (dnsProxyOn : bool) (wanMTU lease : Z) (specs : list LANSpec)
    : outcome (list InterfaceConfig) := mapM (dhcpv4_config dnsOverride dnsProxyOn wanMTU lease) specs.

(** ** A LAN's configuration (attachLAN) *)

(** The MTU of the interface itself is taken where the flag gives none; the second part
    is whether the warning about the fragmenter's ceiling is logged. *)
Definition attachLAN_config (ifaceMTU : Z) (spec : LANSpec) : LANConfig * bool :=
  let mtu := if Cliconfig.MTU spec =? 0 then ifaceMTU else Cliconfig.MTU spec in
  (mkLANConfig (Cliconfig.GatewayIP spec) (u16 mtu), Fragpath.MaxInnerLen <? mtu).

(** ** The DNS proxy's addresses (startDNSProxy) *)

(** Each LAN's gateway, and its link-local address where it has one, which is then what
    is advertised for it. *)
Definition dns_listen (LinkLocalAddr : string -> option Addr) (specs : list LANSpec) : list Addr * gmap string Addr :=
  fold_left (fun '(listen, rdnss) spec =>
    let listen := listen ++ [Cliconfig.GatewayIP spec] in
    match LinkLocalAddr (Cliconfig.Iface spec) with
    | None => (listen, rdnss)
    | Some ll => (listen ++ [ll], <[Cliconfig.Iface spec := ll]> rdnss)
    end) specs ([], ∅).

(** ** Arguments of the subcommands (normalizeLegacyArgs) *)

(** The pattern of a long option with one dash: a letter, at least one more character of
    its name, and perhaps a value; a value holds no line feed. *)
Definition is_letter (c : Z) : bool := (0x41 <=? c) && (c <=? 0x5A) || (0x61 <=? c) && (c <=? 0x7A).
Definition is_name_char (c : Z) : bool := is_letter c || is_digit c || (c =? 0x2D) || (c =? 0x5F).

Definition legacyLongFlag (a : bytes) : bool :=
  match a with
  | 0x2D :: c :: rest =>
    let '(name, value, _) := Cut3 0x3D rest in
    is_letter c && negb (bool_decide (name = [])) && forallb is_name_char name && forallb (fun x => negb (x =? 0x0A)) value
  | _ => false
  end.

Fixpoint normalizeLegacyArgs (args : list bytes) : list bytes :=
  match args with
  | [] => []
  | a :: args =>
    if bool_decide (a = [0x2D; 0x2D]) then a :: args
    else (if legacyLongFlag a then 0x2D :: a else a) :: normalizeLegacyArgs args
  end.

Definition onlineCPUs (n : Z) : list Z := seqZ 0 n.

(** ** The order of run *)

Inductive application : Type := DHCPv6Client | DNSProxyApp | RouterAdvertisements | DHCPv6PD | NDProxyApp | PrefixWatch
  | DHCPv4Server | SoftwireControl | TunnelPMTU.

(** What is held until it is given back: the applications' supervisor, the datapath, the
    fragmenter's pairs, the tunnel, an interface's table of leases, the softwire control's
    netlink socket, the file with the process's number. *)
Inductive resource : Type := Apps | DatapathR | PairsR | TunnelR | LeasesOf (iface : string) | NetlinkSocket | PidFile.

Inductive work : Type :=
| StartApp (a : application) | AcquirePD | ResolveAFTR | AttachWAN | LookupWAN | EnsurePairs | EnableFrag | ResolveB4
| SetB4Config | EnsureTunnel | AttachLAN (iface : string) | EnableRSS | DiscoverPrefix.

Inductive action : Type := Open (r : resource) | Shut (r : resource) | Do (w : work) | SolicitRouters | Serve.

#[export] Instance application_eq_dec : EqDecision application.
Proof. solve_decision. Defined.
#[export] Instance resource_eq_dec : EqDecision resource.
Proof. solve_decision. Defined.
#[export] Instance work_eq_dec : EqDecision work.
Proof. solve_decision. Defined.
#[export] Instance action_eq_dec : EqDecision action.
Proof. solve_decision. Defined.

(** What has happened, each action with whether it worked, and the deferred functions,
    the last first. *)
Record St : Type := mkSt { trace : list (action * bool); deferred : list (list resource) }.

Section Run.
Context (answer : action -> option string).

Definition R (A : Type) : Type := St -> (A + string) * St.

#[export] Instance R_ret : MRet R := fun A a s => (inl a, s).
#[export] Instance R_bind : MBind R := fun A B f m s =>
  match m s with (inl a, s) => f a s | (inr e, s) => (inr e, s) end.

Definition note (a : action) (ok : bool) (s : St) : St := mkSt (trace s ++ [(a, ok)]) (deferred s).

(** An action whose error ends the run. *)
Definition try (a : action) : R unit := fun s =>
  match answer a with Some e => (inr e, note a false s) | None => (inl tt, note a true s) end.

(** One whose error is only logged, or that has none. *)
Definition emit (a : action) : R unit := fun s => (inl tt, note a true s).

Definition defer (rs : list resource) : R unit := fun s => (inl tt, mkSt (trace s) (rs :: deferred s)).

(** An action whose error closes [rs] before it ends the run. *)
Definition try_or (a : action) (rs : list resource) : R unit := fun s =>
  match answer a with
  | Some e => (inr e, fold_left (fun s r => note (Shut r) true s) rs (note a false s))
  | None => (inl tt, note a true s)
  end.

Definition when (b : bool) (m : R unit) : R unit := if b then m else mret tt.

Definition fail_if (b : bool) (e : string) : R unit := fun s => if b then (inr e, s) else (inl tt, s).

Fixpoint each {A} (f : A -> R unit) (l : list A) : R unit :=
  match l with [] => mret tt | a :: l => f a ≫= fun _ => each f l end.

(** The tables of leases opened one by one; a failure closes those open. *)
Fixpoint open_leases (ifaces opened : list string) : R unit :=
  match ifaces with
  | [] => mret tt
  | i :: ifaces => try_or (Open (LeasesOf i)) (map LeasesOf opened) ≫= fun _ => open_leases ifaces (opened ++ [i])
  end.

Definition ifaces (f : Flags) : list string := map Cliconfig.Iface (lans f).

(** The interfaces whose leases are kept. *)
Definition kept (f : Flags) : list string := if bool_decide (stateDir f = "") then [] else ifaces f.

(** Before the datapath: the applications, the DHCPv6 client, the delegation, the AFTR. *)
Definition run_discovery (f : Flags) (dnsServers : list Addr) : R unit :=
  try (Open Apps) ≫= fun _ => defer [Apps] ≫= fun _ =>
  when (requestPD f || bool_decide (aftrAddr f = [])) (try (Do (StartApp DHCPv6Client))) ≫= fun _ =>
  when (requestPD f) (try (Do AcquirePD)) ≫= fun _ =>
  try (Do ResolveAFTR) ≫= fun _ =>
  fail_if (dnsProxyOn f && (zlen dnsServers =? 0)) "-dns-proxy needs at least one DNS server".

(** The datapath, the softwire and the devices they need. *)
Definition run_softwire (f : Flags) : R unit :=
  try (Open DatapathR) ≫= fun _ => defer [DatapathR] ≫= fun _ =>
  try (Do AttachWAN) ≫= fun _ => emit SolicitRouters ≫= fun _ => try (Do LookupWAN) ≫= fun _ =>
  try (Open PairsR) ≫= fun _ => try_or (Do EnsurePairs) [PairsR] ≫= fun _ => defer [PairsR] ≫= fun _ =>
  try (Do EnableFrag) ≫= fun _ =>
  when (bool_decide (b4Addr f = [])) (try (Do ResolveB4)) ≫= fun _ =>
  try (Do SetB4Config) ≫= fun _ =>
  try (Open TunnelR) ≫= fun _ => try_or (Do EnsureTunnel) [TunnelR] ≫= fun _ => defer [TunnelR] ≫= fun _ =>
  each (fun i => try (Do (AttachLAN i))) (ifaces f) ≫= fun _ =>
  when (ipv6SwRSS f) (try (Do EnableRSS)).

(** runDHCPv4, its configurations apart. *)
Definition run_dhcpv4 (f : Flags) : R unit :=
  open_leases (kept f) [] ≫= fun _ =>
  try_or (Do (StartApp DHCPv4Server)) (map LeasesOf (kept f)) ≫= fun _ =>
  defer (Apps :: map LeasesOf (kept f)).

(** startSoftwireControl: a socket that does not open only turns the watch off. *)
Definition run_control (dynamicB4 : bool) : R unit :=
  let socket := if dynamicB4 && bool_decide (answer (Open NetlinkSocket) = None) then [NetlinkSocket] else [] in
  each (fun r => emit (Open r)) socket ≫= fun _ =>
  try_or (Do (StartApp SoftwireControl)) socket ≫= fun _ => defer socket.

(** The services of the LANs and the control of the softwire. *)
Definition run_services (f : Flags) (configs : outcome (list InterfaceConfig)) : R unit :=
  when (dnsProxyOn f) (try (Do (StartApp DNSProxyApp))) ≫= fun _ =>
  when (requestPD f || ndProxy f) (try (Do (StartApp RouterAdvertisements))) ≫= fun _ =>
  when (requestPD f) (try (Do (StartApp DHCPv6PD))) ≫= fun _ =>
  when (ndProxy f) (try (Do (StartApp NDProxyApp)) ≫= fun _ => try (Do DiscoverPrefix) ≫= fun _ => try (Do (StartApp PrefixWatch))) ≫= fun _ =>
  when (dhcpv4On f) (fail_if (negb (ok configs)) "-dhcpv4: LAN interface has no IPv4 subnet" ≫= fun _ => run_dhcpv4 f) ≫= fun _ =>
  when (bool_decide (aftrAddr f = []) || bool_decide (b4Addr f = [])) (run_control (bool_decide (b4Addr f = []))) ≫= fun _ =>
  try (Do (StartApp TunnelPMTU)).

(** Up: the applications are the first thing stopped from here on. *)
Definition run_end (f : Flags) : R unit :=
  defer [Apps] ≫= fun _ =>
  when (negb (bool_decide (pidFile f = ""))) (try (Open PidFile) ≫= fun _ => defer [PidFile]) ≫= fun _ =>
  emit Serve.

Definition run_body (f : Flags) (dnsServers : list Addr) (configs : outcome (list InterfaceConfig)) : R unit :=
  run_discovery f dnsServers ≫= fun _ => run_softwire f ≫= fun _ => run_services f configs ≫= fun _ => run_end f.

(** stopApps runs once (sync.OnceFunc). *)
Definition shut (tr : list (action * bool)) (r : resource) : list (action * bool) :=
  if bool_decide (r = Apps) && bool_decide ((Shut Apps, true) ∈ tr) then tr else tr ++ [(Shut r, true)].

(** A run: its error if it has one, and everything that happened, the deferred functions
    included.  Flags that do not pass leave no trace.  [dnsServers] are those selected
    once the AFTR is known, [configs] the DHCPv4 server's. *)
Definition run (f : Flags) (dnsServers : list Addr) (configs : outcome (list InterfaceConfig)) : option string * list (action * bool) :=
  match check_flags f with
  | Ret _ =>
    let '(r, s) := run_body f dnsServers configs (mkSt [] []) in
    (match r with inl _ => None | inr e => Some e end, fold_left shut (concat (deferred s)) (trace s))
  | _ => (Some "flags"%string, [])
  end.
End Run.

(** ** Everything is given back *)

(** What is open after some actions; nothing may be opened twice, or closed when it is
    not open. *)
Definition entry (open : option (list resource)) (e : action * bool) : option (list resource) :=
  l ← open;
  match e with
  | (Open r, true) => if bool_decide (r ∈ l) then None else Some (r :: l)
  | (Shut r, _) => if bool_decide (r ∈ l) then Some (filter (fun x => x <> r) l) else None
  | _ => Some l
  end.

Definition ledger (tr : list (action * bool)) : option (list resource) := fold_left entry tr (Some []).

Lemma ledger_snoc tr e : ledger (tr ++ [e]) = entry (ledger tr) e.
Proof. unfold ledger. by rewrite fold_left_app. Qed.

Lemma ledger_open tr l r : ledger tr = Some l -> r ∉ l -> ledger (tr ++ [(Open r, true)]) = Some (r :: l).
Proof. intros H Hr. rewrite ledger_snoc, H. cbn. by rewrite bool_decide_eq_false_2. Qed.

Lemma ledger_shut tr l r b : ledger tr = Some l -> r ∈ l -> ledger (tr ++ [(Shut r, b)]) = Some (filter (fun x => x <> r) l).
Proof. intros H Hr. rewrite ledger_snoc, H. cbn. by rewrite bool_decide_eq_true_2. Qed.

Definition quiet (e : action * bool) : bool :=
  match e with (Open _, b) => negb b | (Shut _, _) | (Serve, _) => false | _ => true end.

Lemma ledger_quiet tr l e : ledger tr = Some l -> quiet e = true -> ledger (tr ++ [e]) = Some l.
Proof. intros H He. rewrite ledger_snoc, H. by destruct e as [[r|r|w| |] []]. Qed.

Definition not_apps (l : list resource) : list resource := filter (fun r => r <> Apps) l.

Lemma in_snoc {A} (x y : A) l : x ∈ l ++ [y] <-> x ∈ l \/ x = y.
Proof. by rewrite elem_of_app, list_elem_of_singleton. Qed.

(** The deferred functions run in order. *)
Lemma shut_all_empties D : forall tr l, ledger tr = Some l -> NoDup (not_apps D) ->
  (forall r, r ∈ l <-> r ∈ D /\ ~ (r = Apps /\ (Shut Apps, true) ∈ tr)) -> ledger (fold_left shut D tr) = Some [].
Proof.
  induction D as [|r D IH]; intros tr l Hl Hnd Hin; cbn [fold_left].
  { rewrite Hl. f_equal. destruct l as [|x l]; [done|]. assert (x ∈ x :: l) as [Hx _]%Hin by left. by apply not_elem_of_nil in Hx. }
  unfold shut at 2. destruct (decide (r = Apps)) as [->|Hne].
  - rewrite (bool_decide_eq_true_2 (Apps = Apps)) by done. cbn [andb]. unfold not_apps in Hnd. rewrite filter_cons_False in Hnd by tauto.
    case_bool_decide as Hs.
    + apply (IH tr l Hl Hnd). intros x. rewrite Hin, elem_of_cons. naive_solver.
    + assert (Apps ∈ l) as Ha by (apply Hin; split; [left|tauto]).
      apply (IH _ _ (ledger_shut _ _ _ _ Hl Ha) Hnd). intros x. rewrite list_elem_of_filter, Hin, elem_of_cons, elem_of_app, list_elem_of_singleton.
      destruct (decide (x = Apps)); naive_solver.
  - rewrite (bool_decide_eq_false_2 (r = Apps)) by done. cbn [andb]. unfold not_apps in Hnd. rewrite filter_cons_True in Hnd by done.
    apply NoDup_cons in Hnd as [Hr Hnd]. assert (r ∉ D) as HrD by (intros HD; apply Hr, list_elem_of_filter; done).
    assert (r ∈ l) as Hrl by (apply Hin; split; [left|tauto]).
    apply (IH _ _ (ledger_shut _ _ _ _ Hl Hrl) Hnd). intros x. rewrite list_elem_of_filter, Hin, elem_of_cons, elem_of_app, list_elem_of_singleton.
    split; [intros (Hx1 & [Hx2|Hx2] & Hx3); [done|]; split; [done|]; intros (-> & [?|?]); [naive_solver|congruence]|].
    intros [Hx1 Hx2]. split; [by intros ->|]. split; [by right|]. naive_solver.
Qed.

Section Ledger.
Context (answer : action -> option string).

(** The state of a run under way: [p] is open and not yet deferred, everything else open
    is deferred, the applications' end among it; what is deferred is within [U]. *)
Record under_way (p U : list resource) (s : St) : Prop := {
  uw_ledger : exists l, ledger (trace s) = Some l /\ forall r, r ∈ l <-> r ∈ p ++ concat (deferred s);
  uw_nodup : NoDup (p ++ not_apps (concat (deferred s)));
  uw_apps : Apps ∈ concat (deferred s);
  uw_pending : Apps ∉ p;
  uw_bound : forall r, r ∈ concat (deferred s) -> r ∈ U;
  uw_stopped : (Shut Apps, true) ∉ trace s;
  uw_serve : (Serve, true) ∉ trace s }.

Definition no_shut (s : St) : Prop := forall r b, (Shut r, b) ∉ trace s.

(** From [p] pending to [q]; a failure leaves nothing pending, a success closes nothing. *)
Definition triple (p U : list resource) (m : R unit) (q V : list resource) : Prop :=
  forall s, under_way p U s ->
  match m s with
  | (inl _, s') => under_way q V s' /\ (no_shut s -> no_shut s')
  | (inr _, s') => exists W, under_way [] W s'
  end.

Lemma triple_bind p U m q V n r W : triple p U m q V -> triple q V n r W -> triple p U (m ≫= fun _ => n) r W.
Proof.
  intros Hm Hn s Hs. specialize (Hm s Hs). unfold mbind, R_bind. destruct (m s) as [[[]|e] s1]; [|done]. destruct Hm as [H1 H2].
  specialize (Hn s1 H1). destruct (n s1) as [[[]|e] s2]; [|done]. naive_solver.
Qed.

Lemma triple_ret p U : triple p U (mret tt) p U.
Proof. intros s Hs. done. Qed.

Lemma under_way_more p U V s : (forall r, r ∈ U -> r ∈ V) -> under_way p U s -> under_way p V s.
Proof. intros HU [H1 H2 H3 H4 H5 H6 H7]. split; [done..| |done|done]. intros r Hr. by apply HU, H5. Qed.

Lemma triple_when (b : bool) p U m V : (forall r, r ∈ U -> r ∈ V) -> (b = true -> triple p U m p V) -> triple p U (when b m) p V.
Proof.
  intros HU Hm s Hs. destruct b; cbn [when]; [by apply Hm|]. cbn. split; [by eapply under_way_more|done].
Qed.

Lemma under_way_note p U s a b : quiet (a, b) = true -> under_way p U s -> under_way p U (note a b s) /\ (no_shut s -> no_shut (note a b s)).
Proof.
  intros Hq [(l & Hl & Hin) H2 H3 H4 H5 H6 H7]. split.
  - split; cbn [note trace deferred]; [|done..| |].
    + exists l. split; [by apply ledger_quiet|done].
    + intros [?|E]%in_snoc; [done|]. injection E as <- <-. done.
    + intros [?|E]%in_snoc; [done|]. injection E as <- <-. done.
  - intros Hn r x. cbn [note trace]. intros [?|E]%in_snoc; [by eapply Hn|]. injection E as <- <-. done.
Qed.

Lemma under_way_opened p U s r : r ∉ U -> r ∉ p -> r <> Apps -> under_way p U s ->
  under_way (p ++ [r]) U (note (Open r) true s) /\ (no_shut s -> no_shut (note (Open r) true s)).
Proof.
  intros HrU Hrp Hra [(l & Hl & Hin) H2 H3 H4 H5 H6 H7].
  assert (r ∉ concat (deferred s)) as Hrd by (intros Hr; by apply HrU, H5).
  split.
  - split; cbn [note trace deferred]; [| |done| |done|..].
    + exists (r :: l). split; [apply ledger_open; [done|rewrite Hin, elem_of_app; tauto]|].
      intros x. rewrite elem_of_cons, Hin, !elem_of_app, list_elem_of_singleton. tauto.
    + rewrite <- app_assoc. cbn [app]. rewrite <- Permutation_middle. constructor; [|done]. rewrite elem_of_app. unfold not_apps.
      rewrite list_elem_of_filter. tauto.
    + by intros [?|E]%in_snoc.
    + by intros [?|E]%in_snoc.
    + by intros [?|E]%in_snoc.
  - intros Hn r' x. cbn [note trace]. intros [?|E]%in_snoc; [by eapply Hn|done].
Qed.

Lemma under_way_closed p q U s : under_way (p ++ q) U s -> under_way q U (fold_left (fun s r => note (Shut r) true s) p s).
Proof.
  revert s. induction p as [|r p IH]; intros s Hs; cbn [fold_left]; [done|]. apply IH.
  destruct Hs as [(l & Hl & Hin) H2 H3 H4 H5 H6 H7]. cbn [app] in *. apply NoDup_cons in H2 as [Hr H2].
  rewrite not_elem_of_cons in H4. destruct H4 as [H4 H4'].
  assert (r ∉ (p ++ q) ++ concat (deferred s)) as Hr'.
  { rewrite !elem_of_app in *. unfold not_apps in Hr. rewrite list_elem_of_filter in Hr. intros [?|?]; [tauto|]. apply Hr. right. naive_solver. }
  split; cbn [note trace deferred]; [|done..| |].
  - exists (filter (fun x => x <> r) l). split; [apply ledger_shut; [done|]; apply Hin; left|].
    intros x. rewrite list_elem_of_filter, Hin. cbn [app]. rewrite elem_of_cons. split; [tauto|]. intros Hx. split; [by intros ->|by right].
  - intros [?|E]%in_snoc; [done|]. congruence.
  - by intros [?|E]%in_snoc.
Qed.

(** The rules of the actions. *)
Lemma triple_do w p U : triple p U (try_or answer (Do w) p) p U.
Proof.
  intros s Hs. unfold try_or. destruct (answer (Do w)) as [e|].
  - exists U. apply under_way_closed. rewrite app_nil_r. by apply (under_way_note p U s).
  - by apply (under_way_note p U s).
Qed.

Lemma triple_open r p U : r ∉ U -> r ∉ p -> r <> Apps -> triple p U (try_or answer (Open r) p) (p ++ [r]) U.
Proof.
  intros H1 H2 H3 s Hs. unfold try_or. destruct (answer (Open r)) as [e|].
  - exists U. apply under_way_closed. rewrite app_nil_r. by apply (under_way_note p U s).
  - by apply under_way_opened.
Qed.

Lemma try_as a : try answer a = try_or answer a [].
Proof. done. Qed.

Lemma triple_emit_open r U : r ∉ U -> r <> Apps -> triple [] U (emit (Open r)) [r] U.
Proof. intros H1 H2 s Hs. apply (under_way_opened [] U s r); [done|apply not_elem_of_nil|done|done]. Qed.

Lemma triple_solicit U : triple [] U (emit SolicitRouters) [] U.
Proof. intros s Hs. by apply (under_way_note [] U s). Qed.

Lemma triple_fail_if b e U : triple [] U (fail_if b e) [] U.
Proof. intros s Hs. unfold fail_if. destruct b; [by exists U|done]. Qed.

(** What is pending is deferred, with the applications' end or not. *)
Lemma triple_defer p rs U : (rs = p \/ rs = Apps :: p) -> triple p U (defer rs) [] (rs ++ U).
Proof.
  intros Hrs s [(l & Hl & Hin) H2 H3 H4 H5 H6 H7]. cbn. split; [|done].
  assert (not_apps rs = p) as Hp.
  { assert (not_apps p = p) as E by (clear -H4; unfold not_apps; induction p as [|x p IH]; [done|];
      rewrite not_elem_of_cons in H4; destruct H4; rewrite filter_cons_True by done; by rewrite IH).
    destruct Hrs as [-> | ->]; [done|]. unfold not_apps. rewrite filter_cons_False by tauto. exact E. }
  split; cbn [trace deferred concat]; [| | | | |done|done].
  - exists l. split; [done|]. intros r. rewrite Hin. cbn [app]. rewrite !elem_of_app. destruct Hrs as [-> | ->]; [done|].
    rewrite elem_of_cons. naive_solver.
  - cbn [app]. unfold not_apps in *. rewrite filter_app, Hp. done.
  - rewrite elem_of_app. by right.
  - apply not_elem_of_nil.
  - intros r. rewrite !elem_of_app. intros [?|?]; [by left|right; by apply H5].
Qed.

Lemma triple_each {A} (f : A -> R unit) l U : (forall a, triple [] U (f a) [] U) -> triple [] U (each f l) [] U.
Proof. intros Hf. induction l as [|a l IH]; cbn [each]; [apply triple_ret|]. eapply triple_bind; [apply Hf|exact IH]. Qed.

Lemma triple_open_leases ifs opened U : NoDup (opened ++ ifs) -> (forall i, i ∈ opened ++ ifs -> LeasesOf i ∉ U) ->
  triple (map LeasesOf opened) U (open_leases answer ifs opened) (map LeasesOf (opened ++ ifs)) U.
Proof.
  revert opened. induction ifs as [|i ifs IH]; intros opened Hnd HU; cbn [open_leases].
  { rewrite app_nil_r. apply triple_ret. }
  eapply triple_bind.
  - apply triple_open; [apply HU; apply elem_of_app; right; left| |done].
    apply NoDup_app in Hnd as (_ & Hd & _). intros (x & [= <-] & Hx)%list_elem_of_fmap. apply (Hd i Hx). left.
  - change (map LeasesOf opened ++ [LeasesOf i]) with (map LeasesOf opened ++ map LeasesOf [i]). rewrite <- map_app.
    specialize (IH (opened ++ [i])). rewrite <- app_assoc in IH. by apply IH.
Qed.

(** ** The parts of a run *)

Lemma step_do w U : triple [] U (try answer (Do w)) [] U.
Proof. apply (triple_do w [] U). Qed.

(** A resource acquired and deferred at once, or after a step that gives it back. *)
Lemma step_open r U : r ∉ U -> r <> Apps -> triple [] U (try answer (Open r)) [r] U.
Proof. intros HU Ha. apply (triple_open r [] U); [done|apply not_elem_of_nil|done]. Qed.

Lemma step_defer r U : triple [r] U (defer [r]) [] (r :: U).
Proof. by apply (triple_defer [r] [r] U); left. Qed.

Lemma softwire_triple f : triple [] [Apps] (run_softwire answer f) [] [TunnelR; PairsR; DatapathR; Apps].
Proof.
  unfold run_softwire.
  eapply triple_bind; [by apply (step_open DatapathR); [set_solver|]|]. eapply triple_bind; [apply step_defer|].
  eapply triple_bind; [apply step_do|]. eapply triple_bind; [apply triple_solicit|]. eapply triple_bind; [apply step_do|].
  eapply triple_bind; [by apply (step_open PairsR); [set_solver|]|]. eapply triple_bind; [apply triple_do|].
  eapply triple_bind; [apply step_defer|]. eapply triple_bind; [apply step_do|].
  eapply triple_bind; [apply triple_when; [done|]; intros _; apply step_do|]. eapply triple_bind; [apply step_do|].
  eapply triple_bind; [by apply (step_open TunnelR); [set_solver|]|]. eapply triple_bind; [apply triple_do|].
  eapply triple_bind; [apply step_defer|]. eapply triple_bind; [apply triple_each; intros i; apply step_do|].
  apply triple_when; [done|]. intros _. apply step_do.
Qed.

Definition before_control (f : Flags) : list resource := Apps :: map LeasesOf (kept f) ++ [TunnelR; PairsR; DatapathR; Apps].

Lemma dhcpv4_triple f : NoDup (ifaces f) ->
  triple [] [TunnelR; PairsR; DatapathR; Apps] (run_dhcpv4 answer f) [] (before_control f).
Proof.
  intros Hnd. assert (NoDup (kept f)) as Hk by (unfold kept; case_bool_decide; [constructor|done]).
  unfold run_dhcpv4. eapply triple_bind; [apply (triple_open_leases (kept f) []); [done|intros i _; set_solver]|].
  cbn [app]. eapply triple_bind; [apply triple_do|]. apply (triple_defer (map LeasesOf (kept f)) (Apps :: map LeasesOf (kept f))). by right.
Qed.

Lemma control_triple dynamicB4 f : triple [] (before_control f) (run_control answer dynamicB4) [] (NetlinkSocket :: before_control f).
Proof.
  assert (NetlinkSocket ∉ before_control f) as Hn.
  { unfold before_control. rewrite elem_of_cons, elem_of_app, list_elem_of_fmap. intros [?|[(x & ? & _)|?]]; [done..|set_solver]. }
  unfold run_control. destruct (dynamicB4 && _); cbn [each].
  - eapply triple_bind; [eapply triple_bind; [by apply triple_emit_open|apply triple_ret]|].
    eapply triple_bind; [apply triple_do|]. apply step_defer.
  - eapply triple_bind; [apply triple_ret|]. eapply triple_bind; [apply triple_do|].
    intros s Hs. destruct (triple_defer [] [] (before_control f) ltac:(by left) s Hs) as [H1 H2]. split; [|exact H2].
    eapply under_way_more; [|exact H1]. intros r Hr. by right.
Qed.

Lemma services_triple f configs : NoDup (ifaces f) ->
  triple [] [TunnelR; PairsR; DatapathR; Apps] (run_services answer f configs) [] (NetlinkSocket :: before_control f).
Proof.
  intros Hnd. unfold run_services. do 3 (eapply triple_bind; [apply triple_when; [done|]; intros _; apply step_do|]).
  eapply triple_bind; [apply triple_when; [done|]; intros _; eapply triple_bind; [apply step_do|]; eapply triple_bind; apply step_do|].
  eapply triple_bind; [apply (triple_when _ _ _ _ (before_control f)); [intros r Hr; unfold before_control; right; apply elem_of_app; by right|];
    intros _; eapply triple_bind; [apply triple_fail_if|by apply dhcpv4_triple]|].
  eapply triple_bind; [apply (triple_when _ _ _ _ (NetlinkSocket :: before_control f)); [intros r Hr; by right|]; intros _; apply control_triple|].
  apply step_do.
Qed.

(** ** The end of a run *)

Lemma finished W s : under_way [] W s -> ledger (fold_left shut (concat (deferred s)) (trace s)) = Some [].
Proof.
  intros [(l & Hl & Hin) H2 _ _ _ H6 _]. apply (shut_all_empties _ _ l); [done..|]. intros r. rewrite Hin. cbn [app]. tauto.
Qed.

Lemma shut_serve D tr : (Serve, true) ∈ fold_left shut D tr <-> (Serve, true) ∈ tr.
Proof.
  revert tr. induction D as [|r D IH]; intros tr; cbn [fold_left]; [done|]. rewrite IH. unfold shut. destruct (_ && _); [done|].
  rewrite in_snoc. split; [by intros [?|?]|by left].
Qed.

Lemma shut_stopped D tr : (Shut Apps, true) ∈ tr -> fold_left shut D tr = tr ++ map (fun r => (Shut r, true)) (not_apps D).
Proof.
  revert tr. induction D as [|r D IH]; intros tr Hs; cbn [fold_left]; [by rewrite app_nil_r|]. unfold shut at 2, not_apps.
  rewrite (bool_decide_eq_true_2 (_ ∈ tr)) by done. rewrite andb_true_r. case_bool_decide as Ha.
  - subst r. rewrite filter_cons_False by tauto. by apply IH.
  - rewrite filter_cons_True by done. rewrite IH by (apply in_snoc; by left). by rewrite <- app_assoc.
Qed.

(** How a run ends: nothing open, and if it was up, the applications stopped before
    anything but the process's file was given back. *)
Definition ends_well (tr : list (action * bool)) : Prop :=
  ledger tr = Some []
  /\ ((Serve, true) ∈ tr -> exists before pid rest,
        tr = before ++ (Serve, true) :: map (fun r => (Shut r, true)) (pid ++ Apps :: rest)
        /\ (pid = [] \/ pid = [PidFile]) /\ (Apps ∉ rest) /\ forall r b, (Shut r, b) ∉ before).

Definition final {A} (r : (A + string) * St) : list (action * bool) := fold_left shut (concat (deferred r.2)) (trace r.2).

Lemma failed_ends_well (e : string) W s : under_way [] W s -> ends_well (final (@inr unit string e, s)).
Proof. intros Hs. split; [by eapply finished|]. unfold final. rewrite shut_serve. intros H. by destruct (uw_serve _ _ _ Hs). Qed.

Lemma served_ends_well W s pid D : under_way [] W s -> no_shut s -> deferred s = pid ++ [Apps] :: D -> pid = [] \/ pid = [[PidFile]] ->
  ends_well (final (@inl unit string tt, note Serve true s)).
Proof.
  intros [(l & Hl & Hin) H2 H3 H4 H5 H6 H7] Hn HD Hpid. unfold final. cbn [snd note trace deferred]. split.
  - apply (shut_all_empties _ _ l); [by rewrite ledger_snoc, Hl|done|]. intros r. rewrite Hin. cbn [app]. rewrite in_snoc.
    split; [|tauto]. intros Hr. split; [done|]. intros (_ & [?|?]); [tauto|congruence].
  - intros _. exists (trace s), (concat pid), (not_apps (concat D)). split_and!.
    + rewrite HD, concat_app. cbn [concat app]. rewrite fold_left_app. cbn [fold_left].
      assert (fold_left shut (concat pid) (trace s ++ [(Serve, true)]) = trace s ++ [(Serve, true)] ++ map (fun r => (Shut r, true)) (concat pid)) as ->
        by (destruct Hpid as [-> | ->]; [done|]; cbn [concat app fold_left map]; unfold shut;
            rewrite (bool_decide_eq_false_2 (PidFile = Apps)) by done; cbn [andb]; by rewrite <- app_assoc).
      unfold shut at 2. rewrite (bool_decide_eq_false_2 (_ ∈ _)), andb_false_r.
      2: { rewrite !elem_of_app. intros [?|[?|Hp]]; [done|by apply list_elem_of_singleton in H|].
           destruct Hpid as [-> | ->]; cbn in Hp; [by apply not_elem_of_nil in Hp|by apply list_elem_of_singleton in Hp]. }
      rewrite shut_stopped by (apply in_snoc; by right). rewrite map_app. cbn [map]. by rewrite <- !app_assoc.
    + destruct Hpid as [-> | ->]; [by left|by right].
    + unfold not_apps. rewrite list_elem_of_filter. tauto.
    + exact Hn.
Qed.

Lemma end_ends_well f W s : under_way [] W s -> no_shut s -> PidFile ∉ W -> ends_well (final (run_end answer f s)).
Proof.
  intros Hs Hn HW. unfold run_end, mbind, R_bind, defer at 1. cbn.
  destruct (triple_defer [] [Apps] W ltac:(by right) s Hs) as [H1 H2]. specialize (H2 Hn).
  set (s1 := mkSt (trace s) ([Apps] :: deferred s)) in *. destruct (negb _); cbn [when].
  - pose proof (triple_bind [] ([Apps] ++ W) (try answer (Open PidFile)) [PidFile] ([Apps] ++ W) (defer [PidFile]) [] (PidFile :: [Apps] ++ W)
      (step_open PidFile ([Apps] ++ W) ltac:(set_solver) ltac:(done)) (step_defer _ _) s1 H1) as Ht.
    unfold mbind, R_bind, try in *. destruct (answer (Open PidFile)) as [e|].
    + destruct Ht as [V HV]. by apply (failed_ends_well e V).
    + destruct Ht as [H3 H4]. cbn in *. by apply (served_ends_well _ _ [[PidFile]] (deferred s) H3 (H4 H2)); [|right].
  - by apply (served_ends_well _ _ [] (deferred s) H1 H2); [|left].
Qed.

Lemma body_ends_well f dns configs : NoDup (ifaces f) -> ends_well (final (run_body answer f dns configs (mkSt [] []))).
Proof.
  intros Hnd. unfold run_body. unfold mbind at 1. unfold R_bind at 1. unfold run_discovery. unfold mbind at 1. unfold R_bind at 1.
  unfold try at 1. destruct (answer (Open Apps)) as [e|]; [split; [done|]; cbn; by intros ?%list_elem_of_singleton|].
  unfold mbind at 1. unfold R_bind at 1. cbn [defer].
  set (s0 := mkSt (trace (note (Open Apps) true (mkSt [] []))) ([Apps] :: deferred (note (Open Apps) true (mkSt [] [])))).
  assert (under_way [] [Apps] s0 /\ no_shut s0) as [H0 Hn0].
  { split; [split|]; cbn.
    - exists [Apps]. split; [reflexivity|done].
    - constructor.
    - left.
    - apply not_elem_of_nil.
    - done.
    - by intros ?%list_elem_of_singleton.
    - by intros ?%list_elem_of_singleton.
    - intros r b. cbn. by intros ?%list_elem_of_singleton. }
  match goal with |- ends_well (final (match ?m s0 with _ => _ end)) => assert (triple [] [Apps] m [] [Apps]) as Hd end.
  { do 2 (eapply triple_bind; [apply triple_when; [done|]; intros _; apply step_do|]).
    eapply triple_bind; [apply step_do|apply triple_fail_if]. }
  specialize (Hd s0 H0).
  match goal with |- ends_well (final (match ?m s0 with _ => _ end)) => destruct (m s0) as [[[]|e] s1] end; [|destruct Hd as [V HV]; by apply (failed_ends_well e V)].
  destruct Hd as [H1 Hn1]. specialize (Hn1 Hn0).
  pose proof (triple_bind _ _ _ _ _ _ _ _ (softwire_triple f) (services_triple f configs Hnd) s1 H1) as Ht.
  unfold mbind, R_bind in *. destruct (run_softwire answer f s1) as [[[]|e] s2]; [|destruct Ht as [V HV]; by apply (failed_ends_well e V)].
  destruct (run_services answer f configs s2) as [[[]|e] s3]; [|destruct Ht as [V HV]; by apply (failed_ends_well e V)].
  destruct Ht as [H3 Hn3]. eapply end_ends_well; [exact H3|by apply Hn3|].
  unfold before_control. rewrite !elem_of_cons, elem_of_app, list_elem_of_fmap. intros [?|[?|[(x & ? & _)|?]]]; [done..|set_solver].
Qed.
End Ledger.

(** C18: whatever fails, everything is given back.  For any flags with distinct LAN
    interfaces and any answers to the steps of a run, the datapath, the fragmenter's
    pairs, the tunnel, the tables of leases, the netlink socket, the applications and the
    process's file are each opened at most once, closed exactly once if opened, and never
    closed otherwise; and a run that was up stops the applications before it gives back
    anything they use. *)
Theorem run_gives_back answer f dns configs : NoDup (ifaces f) -> ends_well (run answer f dns configs).2.
Proof.
  intros Hnd. unfold run. destruct (check_flags f) as [c|e|]; [|split; [done|intros []%not_elem_of_nil]..].
  pose proof (body_ends_well answer f dns configs Hnd) as H. by destruct (run_body _ _ _ _ _) as [r s].
Qed.

(** ** The DHCPv4 interfaces the flags make are served *)

(** What the server's theorems (Dhcpv4Handler.v) ask of an interface, for the interface
    of a -lan flag. *)
Record serves (spec : LANSpec) (cfg : InterfaceConfig) : Prop := {
  sv_server : ServerIP cfg = Cliconfig.GatewayIP spec;
  sv_subnet : Dhcpv4Handler.Subnet cfg = Cliconfig.Subnet spec /\ prefix_wf (Dhcpv4Handler.Subnet cfg);
  sv_inside : Is4 (ServerIP cfg) = true /\ Contains (Dhcpv4Handler.Subnet cfg) (ServerIP cfg) = true;
  sv_dns : Forall (fun a => Is4 a = true) (DNSServers cfg);
  sv_mtu : Dhcpv4Handler.MTU cfg = 0 \/ 68 <= Dhcpv4Handler.MTU cfg <= 65535;
  sv_pool : 1 <= pbits (Dhcpv4Handler.Subnet cfg) <= 30 ->
    exists p, NewPool (Dhcpv4Handler.Subnet cfg) (ServerIP cfg) (LeaseTime cfg) = Ret p /\ good cfg p;
  sv_timers : LeaseTime cfg <= 2 ^ 63 / 7 ->
    renewalTime (LeaseTime cfg) / 10 ^ 9 < rebindingTime (LeaseTime cfg) / 10 ^ 9 < LeaseTime cfg / 10 ^ 9 }.

Lemma check_flags_dhcpv4 f c : check_flags f = Ret c ->
  Forall (fun a => Is4 a = true) (dhcpv4DNSFlag f) /\ (dhcpv4On f = true -> Minute <= dhcpv4Lease f).
Proof.
  unfold check_flags. destruct (_ || _); [done|]. destruct (_ && _); [done|]. intros (b4 & _ & E)%bind_inv.
  apply bind_inv in E as (mac & _ & E). apply bind_inv in E as (policy & _ & E).
  destruct (forallb Is4 (dhcpv4DNSFlag f)) eqn:Ed; cbn [negb] in E; [|done]. destruct (dhcpv4On f && _) eqn:El; [done|]. split.
  - apply Forall_forall. intros a Ha. rewrite forallb_forall in Ed. apply Ed. by apply list_elem_of_In.
  - intros Hon. rewrite Hon in El. cbn in El. apply Z.ltb_ge in El. done.
Qed.

(** An address is in its own prefix. *)
Lemma contains_own v bits : 0 <= v < 2 ^ 32 -> 0 <= bits <= 32 ->
  exists n, Masked (mkPrefix (A4 v) bits) = mkPrefix (A4 n) bits /\ 0 <= n < 2 ^ 32 /\ Contains (mkPrefix (A4 n) bits) (A4 v) = true.
Proof.
  intros Hv Hb. exists (clear_low v (32 - bits)).
  assert (Masked (mkPrefix (A4 v) bits) = mkPrefix (A4 (clear_low v (32 - bits))) bits) as E
    by (unfold Masked, prefix_IsValid; cbn [pbits paddr]; by rewrite (proj2 (Z.leb_le _ _)) by lia).
  split; [exact E|]. split; [apply clear_low_range; [done|lia]|]. rewrite <- E, Contains_Masked by (split; [done|]; split; [done|cbn; lia]).
  unfold Contains, prefix_IsValid. cbn [pbits paddr Zone]. rewrite (proj2 (Z.leb_le _ _)), Z.eqb_refl by lia. done.
Qed.

Lemma lease_timers d : Minute <= d <= 2 ^ 63 / 7 -> renewalTime d / 10 ^ 9 < rebindingTime d / 10 ^ 9 < d / 10 ^ 9.
Proof.
  intros Hd. change (2 ^ 63 / 7) with 1317624576693539401 in Hd. unfold Minute in Hd. unfold renewalTime, rebindingTime. rewrite i64_id by lia.
  rewrite !Z.quot_div_nonneg by lia.
  pose proof (Z.div_mod d 2 ltac:(lia)). pose proof (Z.mod_pos_bound d 2 eq_refl).
  pose proof (Z.div_mod (d * 7) 8 ltac:(lia)). pose proof (Z.mod_pos_bound (d * 7) 8 eq_refl).
  change (10 ^ 9) with 1000000000 in *.
  assert (forall a b, a + 1000000000 <= b -> a / 1000000000 < b / 1000000000) as Hlt.
  { intros a b Hab. assert ((a + 1 * 1000000000) / 1000000000 <= b / 1000000000) by (apply Z.div_le_mono; lia).
    rewrite Z.div_add in * by lia. lia. }
  split; apply Hlt; lia.
Qed.

Lemma dhcpv4_config_serves dns proxy wanMTU lease spec cfg : spec_wf spec -> Forall (fun a => Is4 a = true) dns -> Minute <= lease ->
  dhcpv4_config dns proxy wanMTU lease spec = Ret cfg -> serves spec cfg.
Proof.
  intros [Ha Hv Hs Hm] Hdns Hl. unfold dhcpv4_config.
  destruct (prefix_IsValid (Cliconfig.Subnet spec)) eqn:Ev; cbn [negb orb]; [|done].
  destruct (Is4 (paddr (Cliconfig.Subnet spec))) eqn:E4; cbn [negb]; [|done].
  destruct Hs as [Hs|(bits & Hb & Hs & Hwf)]; [by rewrite Hs in Ev|].
  assert (exists v, Cliconfig.GatewayIP spec = A4 v /\ 0 <= v < 2 ^ 32 /\ 0 <= bits <= 32) as (v & Hg & Hv32 & Hb32).
  { rewrite Hs in E4. unfold Masked, prefix_IsValid in E4. cbn [pbits paddr] in E4. rewrite (proj2 (Z.leb_le 0 bits)) in E4 by lia.
    destruct (Cliconfig.GatewayIP spec) as [|v|v z]; [done| |done]. by exists v. }
  rewrite Hg in Hs. cbn [WithoutZone] in Hs.
  destruct (contains_own v bits Hv32 Hb32) as (n & En & Hn & Hc). rewrite En in Hs.
  assert (forall dns' mtu, Forall (fun a => Is4 a = true) dns' -> mtu = 0 \/ 68 <= mtu <= 65535 ->
    serves spec (mkConfig (Cliconfig.Iface spec) (Cliconfig.GatewayIP spec) (Cliconfig.Subnet spec) dns' mtu lease)) as Hok.
  { intros dns' mtu Hd Hmtu. set (cfg' := mkConfig _ _ _ _ _ _).
    split; cbn [cfg' ServerIP Dhcpv4Handler.Subnet DNSServers Dhcpv4Handler.MTU LeaseTime]; [done|done| |done|done| |].
    - by rewrite Hg, Hs.
    - rewrite Hg, Hs. cbn [pbits]. intros Hp. pose proof (NewPool_spec n bits (A4 v) lease Hn ltac:(lia)) as HN. cbv zeta in HN.
      rewrite bool_decide_eq_true_2, Hc in HN by lia. cbn [Is4 andb] in HN. destruct HN as (p & HN & _). exists p. split; [done|].
      apply (NewPool_good cfg' Hwf Hd p). unfold cfg'. cbn [ServerIP Dhcpv4Handler.Subnet LeaseTime]. by rewrite Hg, Hs.
    - intros Hle. by apply lease_timers. }
  set (mtu0 := if (Cliconfig.MTU spec =? 0) && _ then _ else _). intros [= <-]. apply Hok.
  - destruct (0 <? zlen dns); [done|]. destruct proxy; [|constructor]. rewrite Hg. by repeat constructor.
  - destruct (Z.eqb_spec mtu0 0) as [->|Hne]; cbn [negb andb]; [by left|]. unfold dhcpMinMTU.
    destruct (Z.ltb_spec mtu0 68); cbn [orb]; [left; reflexivity|]. destruct (Z.ltb_spec 0xffff mtu0); [left; reflexivity|]. right.
    assert (u16 mtu0 = mtu0) as -> by (apply Z.mod_small; lia). lia.
Qed.

(** C27: the interfaces the flags give the DHCPv4 server are ones it can serve.  For flags
    that pass the checks and -lan values as they are parsed, each interface's server
    address is an IPv4 address of its subnet, its DNS servers are IPv4 addresses, its MTU
    is a valid one or none, for a subnet of 1 to 30 bits its pool can be made and meets the
    conditions of the handler's theorems, and for a lease of at most 2^63 / 7 nanoseconds
    (about 41 years) its renewal timers are distinct whole seconds in order.  The flags
    accept longer leases and other subnets as well: of a longer lease the rebinding time
    overflows ([Dhcpv4Handler.rebinding_overflow]), and the pool refuses a subnet of more
    than 30 bits. *)
Theorem dhcpv4_flags_serve f c wanMTU cfgs : check_flags f = Ret c -> dhcpv4On f = true -> Forall spec_wf (lans f) ->
  dhcpv4_configs (dhcpv4DNSFlag f) (dnsProxyOn f) wanMTU (dhcpv4Lease f) (lans f) = Ret cfgs -> Forall2 serves (lans f) cfgs.
Proof.
  intros Hc Hon Hwf. destruct (check_flags_dhcpv4 f c Hc) as [Hdns Hl]. specialize (Hl Hon). clear Hc. unfold dhcpv4_configs. revert cfgs.
  induction Hwf as [|spec specs Hs Hwf IH]; intros cfgs; cbn [mapM]; [intros [= <-]; constructor|].
  intros (cfg & E & H)%bind_inv. apply bind_inv in H as (rest & E2 & [= <-]). constructor; [|by apply IH].
  by eapply dhcpv4_config_serves.
Qed.

(** What is advertised as a DNS server is listened on. *)
Lemma dns_listen_covers link specs : let '(listen, rdnss) := dns_listen link specs in
  (forall iface a, rdnss !! iface = Some a -> a ∈ listen /\ link iface = Some a) /\ forall spec, spec ∈ specs -> Cliconfig.GatewayIP spec ∈ listen.
Proof.
  unfold dns_listen.
  assert (forall (acc : list Addr * gmap string Addr), (forall iface a, acc.2 !! iface = Some a -> a ∈ acc.1 /\ link iface = Some a) ->
    let '(listen, rdnss) := fold_left (fun '(listen, rdnss) spec =>
      let listen := listen ++ [Cliconfig.GatewayIP spec] in
      match link (Cliconfig.Iface spec) with
      | None => (listen, rdnss)
      | Some ll => (listen ++ [ll], <[Cliconfig.Iface spec := ll]> rdnss)
      end) specs acc in
    (forall iface a, rdnss !! iface = Some a -> a ∈ listen /\ link iface = Some a)
    /\ (forall a, a ∈ acc.1 -> a ∈ listen) /\ forall spec, spec ∈ specs -> Cliconfig.GatewayIP spec ∈ listen) as H.
  { induction specs as [|spec specs IH]; intros [listen rdnss] Hacc; cbn [fold_left].
    { split; [exact Hacc|]. split; [done|]. intros s Hs. by apply not_elem_of_nil in Hs. }
    set (acc' := match link (Cliconfig.Iface spec) with None => _ | Some ll => _ end). specialize (IH acc').
    assert ((forall iface a, acc'.2 !! iface = Some a -> a ∈ acc'.1 /\ link iface = Some a)
      /\ forall a, a ∈ listen ++ [Cliconfig.GatewayIP spec] -> a ∈ acc'.1) as [Hacc' Hsub].
    { subst acc'. cbn [fst snd] in Hacc. destruct (link (Cliconfig.Iface spec)) as [ll|] eqn:El; cbn [fst snd].
      - split; [|intros a Ha; apply elem_of_app; by left]. intros iface a. destruct (decide (iface = Cliconfig.Iface spec)) as [->|Hne].
        + rewrite lookup_insert_eq. intros [= <-]. split; [apply in_snoc; by right|done].
        + rewrite lookup_insert_ne by done. intros Ha. destruct (Hacc iface a Ha). split; [|done]. do 2 (apply elem_of_app; left). done.
      - split; [|done]. intros iface a Ha. destruct (Hacc iface a Ha). split; [|done]. apply elem_of_app. by left. }
    specialize (IH Hacc'). destruct (fold_left _ specs acc') as [listen' rdnss']. destruct IH as (H1 & H2 & H3). split; [done|]. split.
    - intros a Ha. apply H2, Hsub, elem_of_app. by left.
    - intros s [->|Hs]%elem_of_cons; [apply H2, Hsub, in_snoc; by right|by apply H3]. }
  specialize (H ([], ∅) ltac:(intros i a; cbn; by rewrite lookup_empty)). destruct (fold_left _ specs _) as [listen rdnss]. naive_solver.
Qed.

(** Rewriting the arguments twice is rewriting them once, and what follows a bare double
    dash is left alone. *)
Lemma normalize_idem args : normalizeLegacyArgs (normalizeLegacyArgs args) = normalizeLegacyArgs args.
Proof.
  induction args as [|a args IH]; cbn [normalizeLegacyArgs]; [done|]. case_bool_decide as Ha; cbn [normalizeLegacyArgs].
  { by rewrite bool_decide_eq_true_2. }
  destruct (legacyLongFlag a) eqn:El.
  - assert (exists c rest, a = 0x2D :: c :: rest) as (c & rest & ->) by (unfold legacyLongFlag in El; repeat case_match; try done; subst; eauto).
    assert (legacyLongFlag (0x2D :: 0x2D :: c :: rest) = false) as ->; [|by rewrite bool_decide_eq_false_2, IH].
    unfold legacyLongFlag. by destruct (Cut3 _ _) as [[x y] z].
  - by rewrite bool_decide_eq_false_2, El, IH.
Qed.

Lemma normalize_samples : normalizeLegacyArgs (str <$> ["stats"; "-json"; "-interval=5s"; "-h"; "-5"; "--raw"; "--"; "-json"]%string)
  = str <$> ["stats"; "--json"; "--interval=5s"; "-h"; "-5"; "--raw"; "--"; "-json"]%string.
Proof. vm_compute. reflexivity. Qed.

(** A gateway that -lan takes and the datapath does not: an IPv6 one. *)
Lemma ipv6_gateway_refused spec mtu i w : Is4 (Cliconfig.GatewayIP spec) = false ->
  (SetLANConfig i (attachLAN_config mtu spec).1 w).1 = Fail "GatewayIP must be an IPv4 address".
Proof. intros H. unfold SetLANConfig. cbn. by rewrite H. Qed.

(** ** Samples *)

Definition sample_flags : Flags :=
  mkFlags "wan0" [] [] [] true false true true (12 * 3600 * 10 ^ 9) (str "auto") true "/var/lib/minuteman" "/run/minuteman.pid"
    [mkLANSpec "lan0" (A4 0xC0A80101) (mkPrefix (A4 0xC0A80100) 24) 0; mkLANSpec "lan1" (A4 0x0A000001) (mkPrefix (A4 0x0A000000) 25) 1400] [] [].

Definition sample_configs : outcome (list InterfaceConfig) :=
  dhcpv4_configs (dhcpv4DNSFlag sample_flags) (dnsProxyOn sample_flags) 1500 (dhcpv4Lease sample_flags) (lans sample_flags).

Definition sample_servers : list Addr := [A6 0x20010db8000000000000000000000053 ""].

(** Every step works: the run is up, and then stops the applications first. *)
Lemma run_gives_back_witness : ends_well (run (fun _ => None) sample_flags sample_servers sample_configs).2
  /\ (Serve, true) ∈ (run (fun _ => None) sample_flags sample_servers sample_configs).2.
Proof.
  split; [|by_eval]. apply (run_gives_back (fun _ => None) sample_flags sample_servers sample_configs). by_eval.
Defined.

(** The tunnel's watcher does not start: the socket of the softwire's control, the
    tables of leases and the tunnel are given back in that order, and only the tables
    after the applications have stopped. *)
Lemma late_failure_order : let pmtu a := if bool_decide (a = Do (StartApp TunnelPMTU)) then Some "no"%string else None in
  drop 25 (map fst (run pmtu sample_flags sample_servers sample_configs).2)
  = [Do (StartApp SoftwireControl); Do (StartApp TunnelPMTU); Shut NetlinkSocket; Shut Apps; Shut (LeasesOf "lan0"); Shut (LeasesOf "lan1");
     Shut TunnelR; Shut PairsR; Shut DatapathR].
Proof. vm_compute. reflexivity. Qed.

(** Without the DHCPv4 server the applications stop last. *)
Definition plain_flags : Flags :=
  mkFlags "wan0" [] [] [] false false false false 0 (str "off") false "" "" (lans sample_flags) [] [].

Lemma late_failure_order_plain : let pmtu a := if bool_decide (a = Do (StartApp TunnelPMTU)) then Some "no"%string else None in
  drop 17 (map fst (run pmtu plain_flags [] sample_configs).2)
  = [Do (StartApp SoftwireControl); Do (StartApp TunnelPMTU); Shut NetlinkSocket; Shut TunnelR; Shut PairsR; Shut DatapathR; Shut Apps].
Proof. vm_compute. reflexivity. Qed.

Lemma dhcpv4_flags_serve_witness : exists c cfgs, check_flags sample_flags = Ret c /\ sample_configs = Ret cfgs
  /\ Forall2 serves (lans sample_flags) cfgs.
Proof.
  eexists _, _. split; [vm_compute; reflexivity|]. split; [vm_compute; reflexivity|].
  eapply (dhcpv4_flags_serve sample_flags _ 1500); [vm_compute; reflexivity|reflexivity| |vm_compute; reflexivity].
  constructor; [|constructor; [|constructor]]; (split; [by_eval|reflexivity|right|]).
  1: exists 24. 3: exists 25. 1, 3: (split; [by_eval|]; split; [reflexivity|by_eval]).
  - by left.
  - right. by_eval.
Defined.
