(* ===== verification/Running.v ===== *)
(** What the program does around its applications: src/cmd/minuteman, main.go (attachLAN
    and run's loop over the LANs, logStatsUntilDone) and apps.go (startApps).  Startup.v
    has the order of the steps; here is the work of these. *)

From S2P Require Import Prelude Stats Wire Netip Datapath Cliconfig Companion Loading Startup.

Local Open Scope Z_scope.

(** ** The LANs (attachLAN) *)

(** The loader's attachments, the kernel's, and the datapath's maps. *)
Record lan_state : Type := mkLanState { atts : Attachments; xdp : Xdp; maps : world }.

Section Lans.
(** net.InterfaceByName's index and MTU, and whether an attachment is accepted. *)
Context (byName ifaceMTU : string -> option Z) (accepts : Z -> string -> bool).

(** The value is whether the warning about the fragmenter's ceiling is logged. *)
Definition attachLAN (spec : LANSpec) (s : lan_state) : outcome bool * lan_state :=
  match Loading.AttachLAN byName accepts (Cliconfig.Iface spec) (atts s) (xdp s) with
  | (Ret i, l, x) =>
    match (if Cliconfig.MTU spec =? 0 then ifaceMTU (Cliconfig.Iface spec) else Some (Cliconfig.MTU spec)) with
    | None => (Fail "looking up LAN interface", mkLanState l x (maps s))
    | Some mtu =>
      let '(cfg, warned) := attachLAN_config mtu spec in
      match SetLANConfig i cfg (maps s) with
      | (Ret _, w) => (Ret warned, mkLanState l x w)
      | (Fail _, w) => (Fail "setting LAN config", mkLanState l x w)
      | (Panic, w) => (Panic, mkLanState l x w)
      end
    end
  | (Fail _, l, x) => (Fail "attaching LAN interface", mkLanState l x (maps s))
  | (Panic, l, x) => (Panic, mkLanState l x (maps s))
  end.

(** run's loop: the first failure ends it. *)
Fixpoint attachLANs (specs : list LANSpec) (s : lan_state) : outcome unit * lan_state :=
  match specs with
  | [] => (Ret tt, s)
  | spec :: specs =>
    match attachLAN spec s with
    | (Ret _, s) => attachLANs specs s
    | (Fail e, s) => (Fail e, s)
    | (Panic, s) => (Panic, s)
    end
  end.

(** ** What a LAN attached is *)

(** The encapsulation program is on the LAN's device, through a link the loader holds;
    packets from the device find the LAN's gateway and MTU, and packets for it a port. *)
Definition lan_up (spec : LANSpec) (i : Z) (s : lan_state) : Prop :=
  byName (Cliconfig.Iface spec) = Some i
  /\ (exists lk, lanLinks (atts s) !! u32 i = Some lk /\ open_links (xdp s) !! lk = Some (i, "xdp_dslite_encap"%string))
  /\ Is4 (Cliconfig.GatewayIP spec) = true
  /\ (exists mtu, (if Cliconfig.MTU spec =? 0 then ifaceMTU (Cliconfig.Iface spec) else Some (Cliconfig.MTU spec)) = Some mtu
       /\ Datapath.lans (maps s) !! u32 i = Some (mkLanVal (addr_val (Cliconfig.GatewayIP spec)) (u16 mtu)))
  /\ txports (maps s) !! u32 i = Some (u32 i).

(** What a step keeps, of a device that is not the one it is about. *)
Definition others_kept (j : Z) (s s' : lan_state) : Prop :=
  forall i, u32 i <> j ->
  lanLinks (atts s') !! u32 i = lanLinks (atts s) !! u32 i
  /\ (forall lk, lanLinks (atts s) !! u32 i = Some lk -> open_links (xdp s') !! lk = open_links (xdp s) !! lk)
  /\ Datapath.lans (maps s') !! u32 i = Datapath.lans (maps s) !! u32 i /\ txports (maps s') !! u32 i = txports (maps s) !! u32 i.

Lemma lan_kept spec i j s s' : u32 i <> j -> others_kept j s s' -> lan_up spec i s -> lan_up spec i s'.
Proof.
  intros Hne Hk (Hn & (lk & Hl & Ho) & H4 & (mtu & Hm & Hv) & Ht). destruct (Hk i Hne) as (E1 & E2 & E3 & E4).
  split; [done|]. split; [exists lk; by rewrite E1, (E2 lk Hl)|]. split; [done|]. split; [exists mtu; by rewrite E3|by rewrite E4].
Qed.

Lemma SetLANConfig_sets i cfg w w' : SetLANConfig i cfg w = (Ret tt, w') ->
  Is4 (Datapath.GatewayIP cfg) = true
  /\ Datapath.lans w' = <[i := mkLanVal (addr_val (Datapath.GatewayIP cfg)) (cInnerMTU cfg)]> (Datapath.lans w) /\ txports w' = <[i := i]> (txports w).
Proof.
  intros E. assert (wp (SetLANConfig i cfg) (fun r w' => r = Ret tt ->
    Is4 (Datapath.GatewayIP cfg) = true
    /\ Datapath.lans w' = <[i := mkLanVal (addr_val (Datapath.GatewayIP cfg)) (cInnerMTU cfg)]> (Datapath.lans w) /\ txports w' = <[i := i]> (txports w)) w) as Hw.
  { unfold SetLANConfig. destruct (Is4 _); cbn [negb]; [|done]. apply wp_bind, wp_mapop; [done|].
    apply wp_mapop; done. }
  unfold wp in Hw. rewrite E in Hw. by apply Hw.
Qed.

(** Two LANs are not on one link, and a link is one the kernel has open. *)
Lemma lan_link_unique l x a b lk : attaching l x -> lanLinks l !! a = Some lk -> lanLinks l !! b = Some lk -> a = b.
Proof.
  intros (Hnd & _)%attaching_held Ha Hb. unfold held in Hnd. do 2 apply NoDup_app in Hnd as (_ & _ & Hnd).
  apply elem_of_map_to_list in Ha, Hb. apply list_elem_of_lookup in Ha as [na Ha], Hb as [nb Hb].
  assert (na = nb) as -> by (eapply (NoDup_lookup _ _ _ lk Hnd); rewrite list_lookup_fmap; by rewrite ?Ha, ?Hb). congruence.
Qed.

Lemma lan_link_open l x a lk : attaching l x -> lanLinks l !! a = Some lk -> lk < next_link x.
Proof.
  intros (_ & Hin & Hlt)%attaching_held Ha. apply Hlt, Hin. unfold held. rewrite !elem_of_app. right. right.
  apply list_elem_of_fmap. exists (a, lk). split; [done|]. by apply elem_of_map_to_list.
Qed.

(** The attachment: the program is on the device, through a new link; the one it replaces,
    and no other, is closed. *)
Lemma AttachLAN_attached name l x j l' x' : Loading.AttachLAN byName accepts name l x = (Ret j, l', x') -> attaching l x ->
  exists i, byName name = Some i /\ j = u32 i /\ attaching l' x'
  /\ (exists lk, lanLinks l' !! j = Some lk /\ open_links x' !! lk = Some (i, "xdp_dslite_encap"%string))
  /\ forall a, a <> j -> lanLinks l' !! a = lanLinks l !! a
     /\ forall lk, lanLinks l !! a = Some lk -> open_links x' !! lk = open_links x !! lk.
Proof.
  intros E Ha. assert (attaching l' x') as Ha' by (eapply attaching_lan; [exact Ha|exact E]).
  unfold Loading.AttachLAN in E. destruct (byName name) as [i|]; [|done]. unfold AttachXDP in E. destruct (accepts _ _); [|done].
  cbn beta iota zeta in E. apply (f_equal (fun y => (y.1.1, y.1.2, y.2))) in E. cbn [fst snd] in E.
  exists i. split; [done|]. assert (j = u32 i) as -> by congruence. split; [done|]. split; [done|].
  assert (l' = mkAttachments (wanLink l) (wanIfindex l) (<[u32 i := next_link x]> (lanLinks l)) (fragLinks l)) as -> by congruence.
  assert (x' = match lanLinks l !! u32 i with
    | Some old => close_link old (mkXdp (next_link x + 1) (<[next_link x := (i, "xdp_dslite_encap"%string)]> (open_links x)))
    | None => mkXdp (next_link x + 1) (<[next_link x := (i, "xdp_dslite_encap"%string)]> (open_links x)) end) as -> by congruence.
  clear E Ha'. cbn [lanLinks]. split.
  - exists (next_link x). split; [by rewrite lookup_insert_eq|]. destruct (lanLinks l !! u32 i) as [old|] eqn:Eo; cbn [open_links close_link].
    + pose proof (lan_link_open l x _ old Ha Eo). rewrite lookup_delete_ne by lia. by rewrite lookup_insert_eq.
    + by rewrite lookup_insert_eq.
  - intros a Hne. split; [by rewrite lookup_insert_ne by congruence|]. intros lk Hlk. pose proof (lan_link_open l x a lk Ha Hlk) as Hlt.
    destruct (lanLinks l !! u32 i) as [old|] eqn:Eo; cbn [open_links close_link].
    + rewrite lookup_delete_ne by (intros ->; apply Hne; by apply (lan_link_unique l x a (u32 i) lk)). rewrite lookup_insert_ne by lia. done.
    + by rewrite lookup_insert_ne by lia.
Qed.

Lemma attachLAN_up spec s r s' : attachLAN spec s = (Ret r, s') -> attaching (atts s) (xdp s) ->
  exists i, lan_up spec i s' /\ others_kept (u32 i) s s' /\ attaching (atts s') (xdp s').
Proof.
  unfold attachLAN. intros E Ha. destruct (Loading.AttachLAN _ _ _ _ _) as [[[j|e|] l] x] eqn:Eat; [|done..].
  destruct (AttachLAN_attached _ _ _ _ _ _ Eat Ha) as (i & Hn & -> & Ha' & Hl & Ho).
  destruct (if Cliconfig.MTU spec =? 0 then _ else _) as [mtu|] eqn:Em; [|done].
  destruct (attachLAN_config mtu spec) as [cfg warned] eqn:Ec. unfold attachLAN_config in Ec.
  assert (cfg = mkLANConfig (Cliconfig.GatewayIP spec) (u16 mtu)) as ->.
  { apply (f_equal fst) in Ec. cbn [fst] in Ec. rewrite <- Ec. f_equal. f_equal. by destruct (Cliconfig.MTU spec =? 0); congruence. }
  destruct (SetLANConfig _ _ _) as [[[]|e|] w] eqn:Es; [|done..]. destruct (SetLANConfig_sets _ _ _ _ Es) as (H4 & Hlans & Htx).
  assert (s' = mkLanState l x w) as -> by congruence. exists i. cbn [atts xdp maps Datapath.GatewayIP cInnerMTU] in *. split; [|split; [|done]].
  - split; [done|]. split; [done|]. split; [done|]. cbn [maps]. rewrite Htx. split; [exists mtu; by rewrite Hlans, lookup_insert_eq|]. by rewrite lookup_insert_eq.
  - intros a Hne. cbn [atts xdp maps]. destruct (Ho (u32 a) Hne) as [H1 H2]. cbn [maps]. rewrite Hlans, Htx, !lookup_insert_ne by congruence. done.
Qed.

(** Once the loop is through, every LAN is attached. *)
Lemma attachLANs_up specs s s' : attachLANs specs s = (Ret tt, s') -> attaching (atts s) (xdp s) ->
  (forall a b i j, a <> b -> byName a = Some i -> byName b = Some j -> u32 i <> u32 j) -> NoDup (map Cliconfig.Iface specs) ->
  attaching (atts s') (xdp s')
  /\ (forall spec, spec ∈ specs -> exists i, lan_up spec i s')
  /\ forall spec i, lan_up spec i s -> Cliconfig.Iface spec ∉ map Cliconfig.Iface specs -> lan_up spec i s'.
Proof.
  intros E Ha Hinj. revert s E Ha. induction specs as [|spec specs IH]; intros s E Ha Hnd; cbn [attachLANs map] in *.
  { assert (s' = s) as -> by congruence. split; [done|]. split; [by intros spec ?%not_elem_of_nil|done]. }
  apply NoDup_cons in Hnd as [Hni Hnd]. destruct (attachLAN spec s) as [[warned|e|] s1] eqn:E1; [|done..].
  destruct (attachLAN_up _ _ _ _ E1 Ha) as (i & Hi & Ho & Ha1). destruct (IH s1 E Ha1 Hnd) as (Ha2 & H1 & H2). split; [done|]. split.
  - intros q [->|Hq]%elem_of_cons; [|by apply H1]. exists i. by apply H2.
  - intros q j Hq [Hne Hnq]%not_elem_of_cons. apply H2; [|done]. apply (lan_kept q j (u32 i) s); [|done..].
    destruct Hi as (Hn & _), Hq as (Hnq' & _). by apply (Hinj (Cliconfig.Iface q) (Cliconfig.Iface spec)).
Qed.
End Lans.

(** ** Until the end (logStatsUntilDone) *)

(** What wakes the loop, in order: a tick, with the counters or their error, and the
    end of the context.  With no interval there is no ticker. *)
Inductive wake : Type := Ticked (stats : Stats.Stats + string) | CtxDone.

(** What it logs. *)
Inductive line : Type := StatsLine (s : Stats.Stats) | ReadingStats (e : string) | ShuttingDown.

Definition line_of (r : Stats.Stats + string) : line := match r with inl s => StatsLine s | inr e => ReadingStats e end.

(** The lines, and whether it has returned. *)
Fixpoint logStats_loop (wakes : list wake) : list line * bool :=
  match wakes with
  | [] => ([], false)
  | CtxDone :: _ => ([ShuttingDown], true)
  | Ticked r :: wakes => let '(out, returned) := logStats_loop wakes in (line_of r :: out, returned)
  end.

Definition logStatsUntilDone (interval : Z) (wakes : list wake) : list line * bool :=
  if interval <=? 0 then if existsb (fun w => match w with CtxDone => true | Ticked _ => false end) wakes then ([ShuttingDown], true) else ([], false)
  else logStats_loop wakes.

(** It outlives every error of the counters, logging each reading, until the context ends. *)
Lemma logStats_until_done interval (rs : list (Stats.Stats + string)) rest : 0 < interval ->
  logStatsUntilDone interval (map Ticked rs) = (map line_of rs, false)
  /\ logStatsUntilDone interval (map Ticked rs ++ CtxDone :: rest) = (map line_of rs ++ [ShuttingDown], true).
Proof.
  intros Hi. unfold logStatsUntilDone. rewrite (proj2 (Z.leb_gt _ _)) by lia.
  induction rs as [|r rs [IH1 IH2]]; [done|]. cbn [map app logStats_loop]. by rewrite IH1, IH2.
Qed.

(** ** The applications' node (startApps) *)

(** What ends first: the applications, by giving up or not, or the context; later events
    find the goroutine gone. *)
Inductive ended : Type := AppsEnded (err : option string) | ContextEnded.

(** What the whole program is failed with. *)
Definition watch_apps (events : list ended) : option string :=
  match events with AppsEnded err :: _ => err | _ => None end.

(** The node starts or not; if it does, the goroutine watches it. *)
Definition startApps (start : option string) (events : list ended) : option string * option string :=
  match start with Some e => (Some e, None) | None => (None, watch_apps events) end.

(** An application that gives up fails the program, unless it is already shutting down. *)
Lemma startApps_fails start events e :
  (startApps start events).2 = Some e <-> start = None /\ exists rest, events = AppsEnded (Some e) :: rest.
Proof.
  unfold startApps, watch_apps. destruct start as [s|]; [naive_solver|].
  destruct events as [|[[x|]|] rest]; cbn; naive_solver.
Qed.

(** ** A run *)

Definition sample_byName (n : string) : option Z := if String.eqb n "lan0" then Some 5 else if String.eqb n "lan1" then Some 6 else None.
Definition sample_lan_state : lan_state := mkLanState no_attachment (mkXdp 9 ∅) (zero_world []).

(** A second LAN with an IPv6 gateway ends the loop, its program attached and nothing
    configured for it. *)
Definition sample_attached : outcome unit * lan_state :=
  attachLANs sample_byName (fun _ => Some 1500) (fun _ _ => true)
    [mkLANSpec "lan0" (A4 0xC0A80101) (mkPrefix (A4 0xC0A80100) 24) 1400; mkLANSpec "lan1" (A6 1 "") (mkPrefix (A6 0 "") 64) 0] sample_lan_state.

Example second_lan_refused : sample_attached.1 = Fail "setting LAN config"
  /\ Datapath.lans (maps sample_attached.2) !! 5 = Some (mkLanVal 0xC0A80101 1400)
  /\ Datapath.lans (maps sample_attached.2) !! 6 = None
  /\ open_links (xdp sample_attached.2) !! 10 = Some (6, "xdp_dslite_encap"%string).
Proof. vm_compute. repeat split. Qed.
