(* ===== verification/Lanservices.v ===== *)
(** What a LAN is told and what serves it, the parts put together: the addresses the DNS
    proxy binds (startDNSProxy of src/cmd/minuteman/main.go, LinkLocalAddr of
    src/pkg/routeradvert/transport.go), the leases the prefix delegation applies
    (runPrefixDelegation, reconcileAndLog and pdlease's applier), and the WAN's prefix
    extended instead (runNDProxy).

    The parts are the models of Dnsproxy.v, Pdlease.v, Lanprefix.v and Wanextend.v; the
    theorem says what they come to: the Router Advertisements of a LAN promise a prefix of
    the lease in force, for as long as the lease does, and a DNS server only where one
    listens. *)

From S2P Require Import Prelude Wire Netip Cliconfig Dhcpv6 PrefixDelegation Pdlease Routeradvert Lanprefix Wanextend Dnsproxy Startup.

Local Open Scope Z_scope.

(** ** A LAN's own address (transport.go) *)

(** An address of net.Interface.Addrs: the IP of a *net.IPNet, or of another type. *)
Inductive ifaddr : Type := IPNet (ip : bytes) | OtherAddr.

(** net.IP's To4 and IsLinkLocalUnicast. *)
Definition To4 (ip : bytes) : bool :=
  (zlen ip =? 4) || ((zlen ip =? 16) && bool_decide (take 12 ip = zeros 10 ++ [0xff; 0xff])).

Definition IsLinkLocalUnicast (ip : bytes) : bool :=
  if To4 ip then
    let v4 := drop (length ip - 4) ip in
    (default 0 (v4 !! 0%nat) =? 169) && (default 0 (v4 !! 1%nat) =? 254)
  else (zlen ip =? 16) && (default 0 (ip !! 0%nat) =? 0xfe) && (Z.land (default 0 (ip !! 1%nat)) 0xc0 =? 0x80).

Definition WithZone (a : Addr) (zone : string) : Addr := match a with A6 v _ => A6 v zone | _ => a end.

(** The loop over the addresses of [iface]. *)
Fixpoint first_link_local (iface : string) (addrs : list ifaddr) : option Addr :=
  match addrs with
  | [] => None
  | OtherAddr :: rest => first_link_local iface rest
  | IPNet ip :: rest =>
    if To4 ip || negb (IsLinkLocalUnicast ip) then first_link_local iface rest
    else match AddrFromSlice ip with
         | None => first_link_local iface rest
         | Some a => Some (WithZone a iface)
         end
  end.

(** [interfaces]: what looking an interface up and listing its addresses answers. *)
Definition LinkLocalAddr (interfaces : string -> outcome (list ifaddr)) (iface : string) : outcome Addr :=
  addrs ← interfaces iface;
  match first_link_local iface addrs with
  | Some a => Ret a
  | None => Fail "routeradvert: no link-local IPv6 address"
  end.

(** ** The DNS proxy (startDNSProxy) *)

(** [start]: the error starting the tree, if there is one. *)
Definition startDNSProxy (interfaces : string -> outcome (list ifaddr)) (specs : list LANSpec) (dnsServers : list Addr)
    (start : list child -> option string) : outcome (gmap string Addr * list child) :=
  let '(listenAddrs, rdnssByIface) :=
    dns_listen (fun i => match LinkLocalAddr interfaces i with Ret a => Some a | _ => None end) specs in
  spec ← Dnsproxy.Spec (Dnsproxy.mkConfig listenAddrs 0 (Upstreams dnsServers) 0);
  match start spec with Some e => Fail e | None => Ret (rdnssByIface, spec) end.

(** Some listener of the tree is bound to the address, on the DNS port. *)
Definition listens (spec : list child) (a : Addr) : Prop := exists u, UDPChild u ∈ spec /\ Dnsproxy.addr u = (a, Port).

(** ** The leases (runPrefixDelegation) *)

Section Delegation.
Context {K : Type} `{Netlink K}.
Context (lanIfaces : list string) (rdnss : gmap string Addr).

(** The closure's variable, the kernel, and what the advertiser was handed. *)
Record lan_state : Type := mkLan { assigned : list Assignment; kernel : K; adv : gmap string Routeradvert.Config }.

(** A lease without a prefix makes the index panic. *)
Definition reconcileAndLog (l : Lease) (st : lan_state) : outcome lan_state :=
  match LPrefixes l with
  | [] => Panic
  | p :: _ =>
    let '((a, _), k) := Reconcile (Prefix_ p) (PrefixDelegation.ValidLifetime p) (PrefixDelegation.PreferredLifetime p)
                          lanIfaces (assigned st) (kernel st) in
    Ret (mkLan a k (Sync rdnss a (adv st)))
  end.

(** The applier's casts, one at a time. *)
Fixpoint apply_leases (ls : list Lease) (st : lan_state) : outcome lan_state :=
  match ls with
  | [] => Ret st
  | l :: ls => st ← reconcileAndLog l st; apply_leases ls st
  end.

(** Up to the start of the lease process, whose error, if there is one, is returned;
    the lease acquired is the LANs' by then. *)
Definition runPrefixDelegation (start : option string) (initial : Lease) (k : K) : outcome (option string * lan_state) :=
  st ← reconcileAndLog initial (mkLan [] k ∅);
  Ret (start, st).

(** From the lease acquired through those the lease process applies. *)
Definition lan_life (initial : Lease) (applied : list Lease) (k : K) : outcome lan_state :=
  r ← runPrefixDelegation None initial k; apply_leases applied r.2.

(** ** What is advertised *)

(** LAN [j]'s configuration is the lease's. *)
Definition promises (l : Lease) (j : nat) (i : string) (cfg : Routeradvert.Config) : Prop :=
  exists p rest, LPrefixes l = p :: rest /\ lanIfaces !! j = Some i /\ SubnetFor (Prefix_ p) (Z.of_nat j) = Ret (raPrefix cfg) /\
    OnLink cfg = true /\ raValid cfg = PrefixDelegation.ValidLifetime p /\ raPreferred cfg = PrefixDelegation.PreferredLifetime p /\
    RDNSSAddr cfg = default AInvalid (rdnss !! i).

Lemma carved_address d i s : SubnetFor d i = Ret s -> prefix_IsValid s = true /\ exists a, AssignedAddress s = Ret a.
Proof.
  unfold SubnetFor. destruct (_ || _); [done|]. destruct (_ <? _); [done|]. destruct (_ <? _); [done|].
  cbv zeta. destruct (_ && _); [done|]. intros E.
  match type of E with Ret ?t = _ => assert (t = s) as <- by congruence end. clear E. set (w := Z.lor _ _). clearbody w.
  assert (AddrFrom16 (be 8 w ++ zeros 8) = A6 (w mod 2 ^ 64 * 2 ^ 64) "") as ->.
  { unfold AddrFrom16. rewrite unbe_app by auto with wire. rewrite unbe_be, zlen_zeros, unbe_zeros.
    change (256 ^ Z.of_nat 8) with (2 ^ 64). change (256 ^ Z.max 0 8) with (2 ^ 64). by rewrite Z.add_0_r. }
  split; [done|]. eexists. apply AssignedAddress_value, Z.mod_pos_bound. done.
Qed.

Definition of_lease (d : Prefix) (v p : Z) (j : nat) (name : string) (a : Assignment) : Prop :=
  Lanprefix.Iface a = name /\
  match SubnetFor d (Z.of_nat j) with
  | Ret s => Lanprefix.Subnet a = s /\ Lanprefix.ValidLifetime a = v /\ Lanprefix.PreferredLifetime a = p
  | _ => prefix_IsValid (Lanprefix.Subnet a) = false
  end.

(** Whatever the kernel answers. *)
Lemma reconcileOne_entry d v p j name prev (k : K) : of_lease d v p j name (reconcileOne d v p j name prev k).1.1.
Proof.
  unfold of_lease, reconcileOne. destruct (SubnetFor d (Z.of_nat j)) as [s| |] eqn:Es; [|done..].
  destruct (carved_address _ _ _ Es) as (_ & a & ->). by repeat case_match.
Qed.

Lemma reconcile_loop_entry d v p names prev j (k : K) i name : names !! i = Some name ->
  exists a, (reconcile_loop d v p j names prev k).1.1 !! i = Some a /\ of_lease d v p (j + i) name a.
Proof.
  revert j k i. induction names as [|n names IH]; intros j k i Hi; [done|]. cbn [reconcile_loop].
  pose proof (reconcileOne_entry d v p j n prev k) as He. destruct (reconcileOne _ _ _ _ _ _ _) as [[a err] k1].
  destruct i as [|i].
  - injection Hi as ->. destruct (reconcile_loop _ _ _ _ _ _ _) as [[r e] k2]. exists a. split; [done|].
    by rewrite Nat.add_0_r.
  - destruct (IH (S j) k1 i Hi) as (a' & Ha & Ho). destruct (reconcile_loop _ _ _ _ _ _ _) as [[r e] k2]. exists a'.
    split; [done|]. by rewrite Nat.add_succ_r.
Qed.

Lemma reconcile_loop_length d v p names prev j (k : K) : length (reconcile_loop d v p j names prev k).1.1 = length names.
Proof.
  revert j k. induction names as [|n names IH]; intros j k; [done|]. cbn [reconcile_loop].
  destruct (reconcileOne _ _ _ _ _ _ _) as [[a err] k1]. specialize (IH (S j) k1).
  destruct (reconcile_loop _ _ _ _ _ _ _) as [[r e] k2]. cbn in *. by rewrite IH.
Qed.

Lemma Sync_cases l st i : Sync rdnss l st !! i = st !! i \/
  exists j a, l !! j = Some a /\ prefix_IsValid (Lanprefix.Subnet a) = true /\ Lanprefix.Iface a = i /\
    Sync rdnss l st !! i = Some (Lanprefix.config rdnss a).
Proof.
  unfold Sync. revert st. induction l as [|a l IH]; intros st; [by left|]. cbn [fold_left].
  destruct (IH (if prefix_IsValid (Lanprefix.Subnet a) then <[Lanprefix.Iface a := Lanprefix.config rdnss a]> st else st))
    as [E|(j & b & Hj & Hb)]; [|right; by exists (S j), b].
  destruct (prefix_IsValid (Lanprefix.Subnet a)) eqn:Ev; [|by left]. rewrite E.
  destruct (decide (Lanprefix.Iface a = i)) as [<-|Hne]; [|left; by rewrite lookup_insert_ne].
  right. exists 0%nat, a. split; [done|]. split; [done|]. split; [done|]. by rewrite lookup_insert_eq.
Qed.

Lemma Sync_hits l st j a : NoDup (Lanprefix.Iface <$> l) -> l !! j = Some a -> prefix_IsValid (Lanprefix.Subnet a) = true ->
  Sync rdnss l st !! Lanprefix.Iface a = Some (Lanprefix.config rdnss a).
Proof.
  intros Hnd. revert j st. induction l as [|b l IH]; intros j st; [done|]. apply NoDup_cons in Hnd as [Hb Hnd].
  destruct j as [|j]; [|intros Hj Hv; cbn; by apply (IH Hnd j)].
  intros [= ->] Hv. cbn. rewrite Hv. destruct (Sync_cases l (<[Lanprefix.Iface a := Lanprefix.config rdnss a]> st) (Lanprefix.Iface a))
    as [E|(j & c & Hj & _ & Hc & _)]; [unfold Sync in E; rewrite E; by rewrite lookup_insert_eq|].
  destruct Hb. rewrite <- Hc. apply list_elem_of_fmap. exists c. split; [done|]. by eapply list_elem_of_lookup_2.
Qed.

Lemma reconcileAndLog_spec l st : NoDup lanIfaces -> LPrefixes l <> [] -> exists st', reconcileAndLog l st = Ret st' /\
  (forall i, adv st' !! i = adv st !! i \/ exists j cfg, adv st' !! i = Some cfg /\ promises l j i cfg) /\
  (Lanprefix.Open (kernel st) = None -> forall j i p s, head (LPrefixes l) = Some p -> lanIfaces !! j = Some i ->
     SubnetFor (Prefix_ p) (Z.of_nat j) = Ret s -> exists cfg, adv st' !! i = Some cfg /\ promises l j i cfg).
Proof.
  intros Hnd Hne. unfold reconcileAndLog. destruct (LPrefixes l) as [|p rest] eqn:El; [done|].
  set (v := PrefixDelegation.ValidLifetime p). set (q := PrefixDelegation.PreferredLifetime p).
  destruct (Reconcile (Prefix_ p) v q lanIfaces (assigned st) (kernel st)) as [[a errs] k] eqn:Er.
  eexists. split; [reflexivity|]. cbn [adv]. unfold Reconcile in Er.
  destruct (Lanprefix.Open (kernel st)) as [e|] eqn:Eo; [injection Er as <- _ _; split; [intros i; by left|done]|].
  pose proof (fun i n => reconcile_loop_entry (Prefix_ p) v q lanIfaces (assigned st) 0 (kernel st) i n) as Hent.
  pose proof (reconcile_loop_length (Prefix_ p) v q lanIfaces (assigned st) 0 (kernel st)) as Hlen.
  rewrite Er in Hent, Hlen. cbn [fst snd Nat.add] in Hent, Hlen.
  assert (forall j i b, lanIfaces !! j = Some i -> of_lease (Prefix_ p) v q j i b -> prefix_IsValid (Lanprefix.Subnet b) = true ->
    promises l j i (Lanprefix.config rdnss b)) as Hprom.
  { intros j i b Hj (Hi & Hs) Hv. destruct (SubnetFor (Prefix_ p) (Z.of_nat j)) as [s| |] eqn:Es; [|congruence..].
    destruct Hs as (Hs & Hv1 & Hq). exists p, rest. unfold Lanprefix.config. cbn. rewrite Hi, Hs, Hv1, Hq. done. }
  assert (Lanprefix.Iface <$> a = lanIfaces) as Hnames.
  { apply list_eq. intros j. rewrite list_lookup_fmap. destruct (lanIfaces !! j) as [n|] eqn:En.
    - destruct (Hent j n En) as (b & Hb & Hn & _). by rewrite Hb, <- Hn.
    - apply lookup_ge_None in En. rewrite (proj2 (lookup_ge_None a j)) by lia. done. }
  split.
  - intros i. destruct (Sync_cases a (adv st) i) as [E|(j & b & Hj & Hv & <- & E)]; [by left|]. right. exists j. eexists.
    split; [exact E|]. assert (lanIfaces !! j = Some (Lanprefix.Iface b)) as Hn by (by rewrite <- Hnames, list_lookup_fmap, Hj).
    destruct (Hent j _ Hn) as (b' & Hb' & Ho). rewrite Hj in Hb'. injection Hb' as <-. by apply Hprom.
  - intros _ j i p' s [= <-] Hj Es. destruct (Hent j i Hj) as (b & Hb & Ho). exists (Lanprefix.config rdnss b).
    assert (prefix_IsValid (Lanprefix.Subnet b) = true) as Hv.
    { destruct Ho as [_ Ho]. rewrite Es in Ho. destruct Ho as [-> _]. by eapply carved_address. }
    split; [|by apply Hprom]. destruct Ho as [<- _]. eapply Sync_hits; [by rewrite Hnames|done|done].
Qed.

(** Every configuration advertised is owed to one of the leases. *)
Definition owed (ls : list Lease) (st : lan_state) : Prop :=
  forall i cfg, adv st !! i = Some cfg -> exists l j, l ∈ ls /\ promises l j i cfg.

Lemma owed_step seen l st st' : NoDup lanIfaces -> LPrefixes l <> [] -> owed seen st -> reconcileAndLog l st = Ret st' ->
  owed (seen ++ [l]) st'.
Proof.
  intros Hnd Hne Hst E i cfg Hc. destruct (reconcileAndLog_spec l st Hnd Hne) as (st1 & E1 & Hold & _).
  assert (st1 = st') as -> by congruence. destruct (Hold i) as [Ho|(j & cfg' & Ho & Hp)].
  - rewrite Ho in Hc. destruct (Hst i cfg Hc) as (l' & j & Hin & Hp). exists l', j. split; [|done]. apply elem_of_app. by left.
  - rewrite Hc in Ho. injection Ho as <-. exists l, j. split; [|done]. apply elem_of_app. right. by left.
Qed.

Lemma apply_leases_owed ls st seen : NoDup lanIfaces -> Forall lease_ok ls -> owed seen st ->
  exists st', apply_leases ls st = Ret st' /\ owed (seen ++ ls) st'.
Proof.
  intros Hnd Hls. revert st seen. induction Hls as [|l ls [Hne _] _ IH]; intros st seen Hst.
  { exists st. by rewrite app_nil_r. }
  destruct (reconcileAndLog_spec l st Hnd Hne) as (st1 & E & _). cbn [apply_leases]. rewrite E. cbn [mbind outcome_bind].
  destruct (IH st1 (seen ++ [l])) as (st' & E' & H'); [by eapply owed_step|].
  exists st'. split; [exact E'|]. by rewrite <- app_assoc in H'.
Qed.

Lemma lan_life_leases initial ls (k : K) : lan_life initial ls k = apply_leases (initial :: ls) (mkLan [] k ∅).
Proof. unfold lan_life, runPrefixDelegation. cbn [apply_leases]. by destruct (reconcileAndLog initial _). Qed.

Lemma apply_leases_app l1 l2 st : apply_leases (l1 ++ l2) st = (st ← apply_leases l1 st; apply_leases l2 st).
Proof.
  revert st. induction l1 as [|l l1 IH]; intros st; [done|]. cbn [app apply_leases].
  destruct (reconcileAndLog l st) as [st'| |]; [apply IH|done..].
Qed.
End Delegation.

(** ** The WAN's own prefix (runNDProxy) *)

(** [proxy], [watcher]: the errors starting the two applications, if there are any;
    [rs]: the readings of the WAN's prefix.  What the LANs advertise when it returns. *)
Definition runNDProxy (lanIfaces : list string) (rdnss : gmap string Addr) (proxy : option string) (rs : list (outcome Prefix))
    (watcher : option string) (adv : gmap string Routeradvert.Config) : outcome Prefix * gmap string Routeradvert.Config :=
  match proxy with
  | Some e => (Fail e, adv)
  | None =>
    match Wanextend.DiscoverPrefix rs with
    | None => (Fail "discovering WAN prefix for NDProxy", adv)
    | Some p =>
      let adv := Extend (mkWatch lanIfaces rdnss) p adv in
      match watcher with Some e => (Fail e, adv) | None => (Ret p, adv) end
    end
  end.

(** ** What serves *)

Lemma proxy_listens interfaces specs servers start rdnss spec i a :
  startDNSProxy interfaces specs servers start = Ret (rdnss, spec) -> rdnss !! i = Some a -> listens spec a.
Proof.
  unfold startDNSProxy. set (link := fun i => match LinkLocalAddr interfaces i with Ret a => Some a | _ => None end).
  pose proof (dns_listen_covers link specs) as Hc. destruct (dns_listen link specs) as [listen r]. destruct Hc as [Hc _].
  unfold Dnsproxy.Spec. cbn [UpstreamAddrs ListenPort ListenAddrs queryTimeout]. case_bool_decide; [done|].
  cbn [mbind outcome_bind]. destruct (start _); [done|]. intros E Ha.
  assert (r = rdnss) as -> by congruence. destruct (Hc i a Ha) as [Hin _].
  match type of E with Ret (_, ?t) = _ => assert (t = spec) as <- by congruence end. clear E.
  eexists (mkUDP (a, Port) _ _). split; [|reflexivity]. apply list_elem_of_In, in_flat_map. exists a. split; [by apply list_elem_of_In|]. by left.
Qed.

(** The address a LAN is served on is its own: one of the interface's, link-local, with
    the interface as its zone. *)
Lemma LinkLocalAddr_own interfaces iface a : LinkLocalAddr interfaces iface = Ret a ->
  exists ip addrs, interfaces iface = Ret addrs /\ IPNet ip ∈ addrs /\ zlen ip = 16 /\ IsLinkLocalUnicast ip = true /\
    a = A6 (unbe ip) iface.
Proof.
  unfold LinkLocalAddr. intros (addrs & E & H)%bind_inv. rewrite E. clear E.
  enough (exists ip, IPNet ip ∈ addrs /\ zlen ip = 16 /\ IsLinkLocalUnicast ip = true /\ a = A6 (unbe ip) iface) as (ip & ? & ? & ? & ?)
    by (by exists ip, addrs).
  destruct (first_link_local iface addrs) as [b|] eqn:E; [|done]. injection H as ->.
  induction addrs as [|[ip|] addrs IH]; cbn [first_link_local] in E; [done| |].
  - destruct (To4 ip || negb (IsLinkLocalUnicast ip)) eqn:Eo.
    { destruct (IH E) as (ip' & ? & ?). exists ip'. split; [by right|done]. }
    apply orb_false_elim in Eo as [E4 Eu%negb_false_iff]. pose proof Eu as Eu'. unfold IsLinkLocalUnicast in Eu'. rewrite E4 in Eu'.
    apply andb_prop in Eu' as [Eu' _]. apply andb_prop in Eu' as [El _]. unfold AddrFromSlice in E. rewrite El in E.
    apply Z.eqb_eq in El. rewrite (proj2 (Z.eqb_neq (zlen ip) 4)) in E by lia. injection E as <-.
    exists ip. split; [by left|]. split; [done|]. split; [done|]. done.
  - destruct (IH E) as (ip' & ? & ?). exists ip'. split; [by right|done].
Qed.

(** Without a delegation: after any readings the watch makes, every LAN advertises the
    last valid prefix read, off-link, and a DNS server only where the proxy listens. *)
Lemma lans_follow_wan interfaces specs servers start rdnss spec rs p ms adv adv' :
  startDNSProxy interfaces specs servers start = Ret (rdnss, spec) ->
  let names := Cliconfig.Iface <$> specs in
  runNDProxy names rdnss None rs None adv = (Ret p, adv') ->
  exists current, Wanextend.watch (mkWatch names rdnss) p ms adv' = (current, Extend (mkWatch names rdnss) current adv) /\
    current = latest p ms /\
    forall i, i ∈ names -> exists cfg, Extend (mkWatch names rdnss) current adv !! i = Some cfg /\
      raPrefix cfg = current /\ OnLink cfg = false /\ (RDNSSAddr cfg = AInvalid \/ listens spec (RDNSSAddr cfg)).
Proof.
  intros Hdns names. unfold runNDProxy. destruct (Wanextend.DiscoverPrefix rs) as [q|]; [|done]. intros [= -> <-].
  exists (latest p ms). rewrite watch_latest. split; [done|]. split; [done|]. intros i Hi. unfold Extend. rewrite sync_lookup.
  rewrite decide_True by done. eexists. split; [reflexivity|]. split; [done|]. split; [done|]. cbn.
  destruct (rdnss !! i) as [a|] eqn:Ea; [right|by left]. by eapply proxy_listens.
Qed.

(** C30: With the DHCPv6 prefix delegation model, what the LANs are told follows the
    lease: after any life of the lease process (renewals, rebindings, fresh
    acquisitions, whatever the servers answer and the kernel refuses) no lease applied
    makes the applier panic; every configuration advertised on a LAN is that LAN's own /64 of
    a lease that was applied, on-link, with that lease's lifetimes and with no DNS server but
    one the proxy listens on; and if the netlink socket opened when the lease in
    force was applied, every LAN it has a /64 for advertises that /64. *)
Theorem lans_follow_delegation {K} `{Netlink K} w initial s interfaces specs servers start rdnss spec (k : K) :
  (forall k e d m, PrefixDelegation.answer w k e d = Ret m -> message_wf m) -> lease_ok initial -> Pdlease.reach w initial s ->
  startDNSProxy interfaces specs servers start = Ret (rdnss, spec) ->
  let names := Cliconfig.Iface <$> specs in NoDup names ->
  exists before st0 st, initial :: applied s = before ++ [lease s] /\
    apply_leases names rdnss before (mkLan [] k ∅) = Ret st0 /\
    lan_life names rdnss initial (applied s) k = Ret st /\
    (forall i cfg, adv st !! i = Some cfg -> exists l j, l ∈ initial :: applied s /\ promises names rdnss l j i cfg /\
       0 <= raPreferred cfg <= raValid cfg /\ (RDNSSAddr cfg = AInvalid \/ listens spec (RDNSSAddr cfg))) /\
    (Lanprefix.Open (kernel st0) = None -> forall j i p sub, head (LPrefixes (lease s)) = Some p -> names !! j = Some i ->
       SubnetFor (Prefix_ p) (Z.of_nat j) = Ret sub -> exists cfg, adv st !! i = Some cfg /\ promises names rdnss (lease s) j i cfg).
Proof.
  intros Hw Hi Hr Hdns names Hnd. destruct (reach_rung w Hw initial s Hi Hr) as (_ & Hl & Hf & _).
  apply last_Some in Hl as (before & Hb). rewrite lan_life_leases, Hb. rewrite Hb in Hf.
  pose proof Hf as Hall. apply Forall_app in Hf as [Hf0 Hf1]. rewrite Forall_singleton in Hf1.
  destruct (apply_leases_owed names rdnss before (mkLan [] k ∅) [] Hnd Hf0) as (st0 & E0 & H0).
  { intros i cfg. cbn. by rewrite lookup_empty. }
  destruct (reconcileAndLog_spec names rdnss (lease s) st0 Hnd (proj1 Hf1)) as (st & E & _ & Hnew).
  exists before, st0, st. split; [done|]. split; [done|]. split; [|split; [|exact Hnew]].
  { rewrite apply_leases_app, E0. cbn [mbind outcome_bind apply_leases]. by rewrite E. }
  intros i cfg Hc. destruct (owed_step names rdnss before (lease s) st0 st Hnd (proj1 Hf1) H0 E i cfg Hc) as (l & j & Hin & Hp).
  exists l, j. split; [done|]. split; [done|]. rewrite Forall_forall in Hall. destruct (Hall l Hin) as (_ & Hlt & _).
  destruct Hp as (p & rest & El & _ & _ & _ & -> & -> & ->). rewrite El in Hlt. inversion Hlt; subst. split; [lia|].
  destruct (rdnss !! i) as [a|] eqn:Ea; [right|by left]. by eapply proxy_listens.
Qed.

(** ** At concrete inputs *)

Definition sample_specs : list LANSpec :=
  [mkLANSpec "lan0" (A4 0xC0A80101) (mkPrefix (A4 0xC0A80100) 24) 0; mkLANSpec "lan1" (A4 0xC0A80201) (mkPrefix (A4 0xC0A80200) 24) 0].
Definition sample_interfaces (i : string) : outcome (list ifaddr) :=
  Ret [IPNet [192; 168; 1; 1]; IPNet ([0xfe; 0x80] ++ zeros 13 ++ [1])].
Definition sample_dns : gmap string Addr * list child :=
  match startDNSProxy sample_interfaces sample_specs [A6 1 ""] (fun _ => None) with Ret r => r | _ => (∅, []) end.

Lemma sample_dns_eq : startDNSProxy sample_interfaces sample_specs [A6 1 ""] (fun _ => None) = Ret (sample_dns.1, sample_dns.2).
Proof. vm_compute. reflexivity. Qed.

Lemma sample_link_local : LinkLocalAddr sample_interfaces "lan1" = Ret (A6 0xfe800000000000000000000000000001 "lan1").
Proof. vm_compute. reflexivity. Qed.

Lemma sample_names : NoDup (Cliconfig.Iface <$> sample_specs).
Proof. apply (bool_decide_unpack _). vm_compute. reflexivity. Qed.

Lemma sample_carved : exists p sub, head (LPrefixes (lease sample_bound)) = Some p /\ SubnetFor (Prefix_ p) (Z.of_nat 1) = Ret sub.
Proof.
  exists (default (mkIAPrefix 0 0 Prefix_invalid) (head (LPrefixes (lease sample_bound)))), (mkPrefix (A6 0x20010db8000100010000000000000000 "") 64).
  split; vm_compute; reflexivity.
Qed.

(** The sample lease renewed once: the second LAN still advertises. *)
Lemma lans_follow_delegation_witness : exists st cfg,
  lan_life (K := Lanprefix.sample_k) (Cliconfig.Iface <$> sample_specs) sample_dns.1 sample_lease (applied sample_bound) (sample_lans, []) = Ret st /\
  adv st !! "lan1" = Some cfg /\ (RDNSSAddr cfg = AInvalid \/ listens sample_dns.2 (RDNSSAddr cfg)).
Proof.
  destruct (lans_follow_delegation (K := Lanprefix.sample_k) sample_world sample_lease sample_bound sample_interfaces sample_specs
    [A6 1 ""] (fun _ => None) sample_dns.1 sample_dns.2 (sample_lans, []) sample_answers sample_lease_ok sample_bound_reach sample_dns_eq sample_names)
    as (before & st0 & st & _ & _ & E & Hall & Hlast).
  destruct sample_carved as (p & sub & Hp & Hs).
  assert ((Cliconfig.Iface <$> sample_specs) !! 1%nat = Some "lan1") as Hn by reflexivity.
  assert (Lanprefix.Open (kernel st0) = None) as Ho by reflexivity.
  destruct (Hlast Ho 1%nat "lan1" p sub Hp Hn Hs) as (cfg & Hc & _).
  exists st, cfg. split; [exact E|]. split; [exact Hc|]. destruct (Hall "lan1" cfg Hc) as (_ & _ & _ & _ & _ & Hr). exact Hr.
Defined.
