(* ===== verification/Solicit.v ===== *)
(** Soliciting the WAN's router: src/pkg/routeradvert/solicit.go.  The sends and waits of
    [SolicitRouters], on a kernel whose answers and a context whose end are parameters. *)

From S2P Require Import Prelude Wire Netip Routeradvert.

Local Open Scope Z_scope.

Definition maxRtrSolicitations : nat := 3.
Definition rtrSolicitationInterval : Z := 4 * Second.

(** What Sendto answers: sent, EADDRNOTAVAIL, another error. *)
Inductive sendto : Type := Sent | NotAvail | SendError (e : string).

Section Solicit.
(** The answer to the [n]-th send, and whether the context ends before a wait of
    [d] begun at [now] does. *)
Context (answer : nat -> sendto) (ended : Z -> Z -> bool).

(** The state: how many sends there have been, the instant, and when a solicitation went
    out. *)
Record state : Type := mkState { sends : nat; now : Z; out : list Z }.

(** select on the context and a timer: [None] once the context ends. *)
Definition wait (d : Z) (s : state) : option state :=
  if ended (now s) d then None else Some (mkState (sends s) (now s + d) (out s)).

(** [None]: more sends than [fuel]. *)
Fixpoint sendRetryingTentative (fuel : nat) (s : state) : option (outcome unit * state) :=
  match fuel with
  | O => None
  | S fuel =>
    let s' := mkState (S (sends s)) (now s) (out s) in
    match answer (sends s) with
    | Sent => Some (Ret tt, mkState (S (sends s)) (now s) (out s ++ [now s]))
    | SendError e => Some (Fail e, s')
    | NotAvail =>
      match wait TentativeRetryInterval s' with
      | None => Some (Fail "context", s')
      | Some s'' => sendRetryingTentative fuel s''
      end
    end
  end.

(** The loop from turn [i] on, [n] turns left. *)
Fixpoint solicit_loop (fuel : nat) (n i : nat) (s : state) : option (outcome unit * state) :=
  match n with
  | O => Some (Ret tt, s)
  | S n =>
    match (if (0 <? i)%nat then wait rtrSolicitationInterval s else Some s) with
    | None => Some (Fail "context", s)
    | Some s =>
      match sendRetryingTentative fuel s with
      | None => None
      | Some (Ret _, s) => solicit_loop fuel n (S i) s
      | Some (Fail e, s) => Some (Fail e, s)
      | Some (Panic, s) => Some (Panic, s)
      end
    end
  end.

(** [opened]: the error of looking the interface up, opening and binding the socket or
    setting its hop limit, if there is one. *)
Definition SolicitRouters (fuel : nat) (opened : option string) (start : Z) : option (outcome unit * state) :=
  match opened with
  | Some e => Some (Fail e, mkState 0 start [])
  | None => solicit_loop fuel maxRtrSolicitations 0 (mkState 0 start [])
  end.

(** ** Cadence *)

(** At least [rtrSolicitationInterval] between any two, all by [t]. *)
Fixpoint spaced (l : list Z) (t : Z) : Prop :=
  match l with
  | [] => True
  | a :: l' => a <= t /\ Forall (fun b => a + rtrSolicitationInterval <= b) l' /\ spaced l' t
  end.

Lemma spaced_later l t t' : spaced l t -> t <= t' -> spaced l t'.
Proof. induction l as [|a l IH]; [done|]. intros (H1 & H2 & H3) Ht. split; [lia|]. split; [done|by apply IH]. Qed.

Lemma spaced_le l t : spaced l t -> Forall (fun a => a <= t) l.
Proof. induction l as [|a l IH]; [done|]. intros (H1 & _ & H3). constructor; [done|by apply IH]. Qed.

Lemma spaced_snoc l t t' : spaced l t -> t + rtrSolicitationInterval <= t' -> spaced (l ++ [t']) t'.
Proof.
  intros Hs Ht. unfold rtrSolicitationInterval, Second in *. pose proof (spaced_le _ _ Hs) as Hle.
  induction l as [|a l IH]; [cbn; split; [lia|done]|]. destruct Hs as (H1 & H2 & H3). cbn [app spaced]. split; [lia|].
  inversion Hle; subst. split; [|by apply IH]. apply Forall_app. split; [done|]. constructor; [|done]. unfold rtrSolicitationInterval, Second. lia.
Qed.

(** A send that is retried: later, and out at most once. *)
Lemma sendRetrying_spec fuel s r s' : sendRetryingTentative fuel s = Some (r, s') ->
  now s <= now s' /\ (r = Ret tt /\ out s' = out s ++ [now s'] \/ r <> Ret tt /\ out s' = out s).
Proof.
  revert s. induction fuel as [|fuel IH]; intros s; [done|]. cbn [sendRetryingTentative].
  destruct (answer (sends s)) as [| |e]; [intros [= <- <-]; split; [done|by left]| |intros [= <- <-]; split; [done|by right]].
  unfold wait. destruct (ended _ _); [intros [= <- <-]; split; [done|by right]|]. intros H. apply IH in H as (Hn & Ho).
  cbn in *. unfold TentativeRetryInterval, Second in Hn. split; [lia|exact Ho].
Qed.

Lemma solicit_loop_spaced fuel n i s r s' : (0 < i)%nat \/ out s = [] -> spaced (out s) (now s) -> solicit_loop fuel n i s = Some (r, s') ->
  spaced (out s') (now s') /\ (length (out s') <= length (out s) + n)%nat /\ (r = Ret tt -> length (out s') = (length (out s) + n)%nat).
Proof.
  revert i s. induction n as [|n IH]; intros i s Hi Hs; cbn [solicit_loop].
  { intros [= <- <-]. split; [done|]. split; [lia|]. lia. }
  destruct (if (0 <? i)%nat then wait _ s else Some s) as [s1|] eqn:Ew; [|intros [= <- <-]; split; [done|]; split; [lia|done]].
  assert (out s1 = out s /\ now s <= now s1 /\ (out s = [] \/ now s + rtrSolicitationInterval <= now s1)) as (Ho1 & Hn1 & Hd1).
  { revert Ew. unfold wait, rtrSolicitationInterval, Second. destruct (Nat.ltb_spec 0 i); [destruct (ended _ _); [done|]|]; intros [= <-].
    - cbn. split; [done|]. split; [lia|right; lia].
    - split; [done|]. split; [done|]. left. destruct Hi; [lia|done]. }
  destruct (sendRetryingTentative fuel s1) as [[r1 s2]|] eqn:Es; [|done]. apply sendRetrying_spec in Es as (Hn2 & Hc).
  destruct Hc as [[-> Ho2]|[Hne Ho2]].
  - intros H. apply IH in H as (H1 & H2 & H3).
    + rewrite Ho2, length_app, Ho1 in H2, H3. cbn in H2, H3. split; [done|]. split; [lia|]. intros E. rewrite (H3 E). lia.
    + left. lia.
    + rewrite Ho2, Ho1. destruct Hd1 as [->|Hd1]; [cbn; split; [lia|done]|]. apply (spaced_snoc _ (now s)); [done|lia].
  - destruct r1 as [[]|e|]; [done| |]; intros [= <- <-]; (split; [rewrite Ho2, Ho1; apply (spaced_later _ (now s)); [done|lia]|]);
      rewrite Ho2, Ho1; (split; [lia|done]).
Qed.

(** Whatever the kernel answers: at most three solicitations, at least four seconds
    apart, and all three when it returns without an error. *)
Lemma solicitations_spaced fuel opened start r s : SolicitRouters fuel opened start = Some (r, s) ->
  spaced (out s) (now s) /\ (length (out s) <= 3)%nat /\ (r = Ret tt -> length (out s) = 3%nat).
Proof.
  unfold SolicitRouters. destruct opened; [intros [= <- <-]; split; [done|]; split; [cbn; lia|done]|].
  intros H. by apply solicit_loop_spaced in H; [|right|].
Qed.

(** ** Termination *)

(** While the context lasts, a link-local address that leaves its tentative state after
    [k] sends is waited for, and no longer. *)
Lemma sendRetrying_waits fuel k s : (forall t d, ended t d = false) -> (forall n, (sends s <= n < sends s + k)%nat -> answer n = NotAvail) ->
  answer (sends s + k) = Sent -> (k < fuel)%nat ->
  sendRetryingTentative fuel s =
    Some (Ret tt, let t := now s + Z.of_nat k * TentativeRetryInterval in mkState (sends s + S k) t (out s ++ [t])).
Proof.
  intros He. revert fuel s. induction k as [|k IH]; intros fuel s Hn Ha Hf; (destruct fuel as [|fuel]; [lia|]); cbn [sendRetryingTentative].
  - rewrite Nat.add_0_r in Ha. rewrite Ha, Z.add_0_r. by rewrite Nat.add_1_r.
  - rewrite Hn by lia. unfold wait. rewrite He. cbn [sends now out]. rewrite IH; cbn [sends now out].
    + f_equal. f_equal. cbv zeta. replace (S (sends s) + S k)%nat with (sends s + S (S k))%nat by lia.
      by replace (now s + TentativeRetryInterval + Z.of_nat k * TentativeRetryInterval) with (now s + Z.of_nat (S k) * TentativeRetryInterval) by lia.
    + intros n Hlt. apply Hn. cbn [sends] in *. lia.
    + by replace (S (sends s) + k)%nat with (sends s + S k)%nat by lia.
    + lia.
Qed.

Lemma sendRetrying_ends fuel s c : (forall t d, c <= t + d -> ended t d = true) ->
  c <= now s + Z.of_nat fuel * TentativeRetryInterval -> (0 < fuel)%nat -> exists r, sendRetryingTentative fuel s = Some r.
Proof.
  intros He. revert s. induction fuel as [|fuel IH]; intros s Hc Hf; [lia|]. cbn [sendRetryingTentative].
  destruct (answer (sends s)); [by eexists| |by eexists]. unfold wait. cbn [now].
  destruct (ended (now s) TentativeRetryInterval) eqn:E; [by eexists|].
  destruct fuel as [|fuel]; [rewrite He in E by lia; done|]. apply IH; cbn [now]; lia.
Qed.
End Solicit.

(** The three of RFC 4861 6.3.7: from an address that becomes usable after [k] sends, at
    once then and four and eight seconds later; and whatever the kernel answers, a
    context that ends ends it. *)
Lemma SolicitRouters_sends answer ended fuel k start : (forall t d, ended t d = false) ->
  (forall n, (n < k)%nat -> answer n = NotAvail) -> (forall n, (k <= n)%nat -> answer n = Sent) -> (k < fuel)%nat ->
  exists s, SolicitRouters answer ended fuel None start = Some (Ret tt, s) /\
    let t := start + Z.of_nat k * TentativeRetryInterval in out s = [t; t + 4 * Second; t + 8 * Second].
Proof.
  intros He Hn Hs Hf. unfold SolicitRouters, maxRtrSolicitations. cbn [solicit_loop Nat.ltb Nat.leb].
  rewrite (sendRetrying_waits _ _ fuel k) by (done || (cbn; intros; apply Hn; lia) || (by apply Hs)). cbv zeta. cbn [sends now out app].
  unfold wait. rewrite He. cbn [sends now out].
  rewrite (sendRetrying_waits _ _ fuel 0) by (done || (cbn; intros; lia) || (cbn; apply Hs; lia) || lia). cbv zeta. cbn [sends now out app].
  rewrite He. cbn [sends now out].
  rewrite (sendRetrying_waits _ _ fuel 0) by (done || (cbn; intros; lia) || (cbn; apply Hs; lia) || lia). cbv zeta. cbn [sends now out app].
  eexists. split; [reflexivity|]. cbn [out]. unfold rtrSolicitationInterval.
  apply (f_equal2 cons); [lia|]. apply (f_equal2 cons); [lia|]. apply (f_equal2 cons); [lia|done].
Qed.
