(* ===== verification/Statscmd.v ===== *)
(** The commands that inspect a running instance: main's dispatch (src/cmd/minuteman/main.go),
    `minuteman stats` and `minuteman stats interfaces` (stats.go: newStatsCmd,
    newStatsInterfacesCmd, runStats, runStatsWithInterfaces, runStatsInterfaces, encodeJSON).

    Parsing the subcommand's own arguments is cobra's and encoding a value encoding/json's:
    both are arguments.  A writer takes a line at a time and may refuse any. *)

From S2P Require Import Prelude Stats Wire Netip Text Netlink Rtnetlink Ethtool Ifstats Netdump Startup.

Local Open Scope Z_scope.

(** ** Which invocation (main) *)

(** [args]: the arguments after the program's name. *)
Inductive invocation : Type := Subcommand (args : list bytes) | Gateway.

Definition main (args : list bytes) : invocation :=
  match args with
  | a :: _ => if bool_decide (head a = Some 0x2D) then Gateway else Subcommand (normalizeLegacyArgs args)
  | [] => Gateway
  end.

(** ** Writing *)

Section Write.
(** The error of the [n]-th write, if it fails. *)
Context (refuses : nat -> option string).

(** What is written of [lines] from the [n]-th write on. *)
Fixpoint write_lines (n : nat) (lines : list bytes) : outcome unit * list bytes :=
  match lines with
  | [] => (Ret tt, [])
  | l :: lines =>
    match refuses n with
    | Some e => (Fail e, [])
    | None => let '(r, out) := write_lines (S n) lines in (r, l :: out)
    end
  end.

(** ** The commands *)

(** What encoding/json is given: the interfaces alone are a list, never null. *)
Inductive value : Type := VStats (s : Stats.Stats) | VInterfaces (l : list ifaceStats) | VLegacy (s : Stats.Stats) (l : list ifaceStats).

Context (encode : value -> outcome bytes).

Definition encodeJSON (v : value) : outcome unit * list bytes :=
  match encode v with
  | Ret b => write_lines 0 [b]
  | Fail e => (Fail e, [])
  | Panic => (Panic, [])
  end.

(** [stats]: ReadPinnedStats; [c]: collectInterfaceStats. *)
Definition runStats (stats : outcome Stats.Stats) (jsonOut : bool) : outcome unit * list bytes :=
  match stats with
  | Ret s => if jsonOut then encodeJSON (VStats s) else write_lines 0 (printStats s)
  | Fail e => (Fail e, [])
  | Panic => (Panic, [])
  end.

Definition runStatsInterfaces (c : collected) (jsonOut : bool) : outcome unit * list bytes :=
  match c with
  | Collected l => if jsonOut then encodeJSON (VInterfaces l) else write_lines 0 (printInterfaceStats l)
  | CollectFailed e => (Fail e, [])
  | NotBack => (Panic, [])
  end.

(** Both are read before anything is written. *)
Definition runStatsWithInterfaces (stats : outcome Stats.Stats) (c : collected) (jsonOut : bool) : outcome unit * list bytes :=
  match stats with
  | Ret s =>
    match c with
    | Collected l => if jsonOut then encodeJSON (VLegacy s l) else write_lines 0 (printStats s ++ [] :: printInterfaceStats l)
    | CollectFailed e => (Fail e, [])
    | NotBack => (Panic, [])
    end
  | Fail e => (Fail e, [])
  | Panic => (Panic, [])
  end.

(** The two commands, their flags parsed. *)
Inductive command : Type := StatsCmd (jsonOut legacyIface : bool) | InterfacesCmd (jsonOut : bool).

Definition RunE (cmd : command) (stats : outcome Stats.Stats) (c : collected) : outcome unit * list bytes :=
  match cmd with
  | StatsCmd jsonOut legacyIface => if legacyIface then runStatsWithInterfaces stats c jsonOut else runStats stats jsonOut
  | InterfacesCmd jsonOut => runStatsInterfaces c jsonOut
  end.

(** ** What is printed *)

(** The whole output of a command whose reads succeed. *)
Definition whole (cmd : command) (stats : outcome Stats.Stats) (c : collected) : outcome (list bytes) :=
  match cmd with
  | StatsCmd true false => s ← stats; b ← encode (VStats s); Ret [b]
  | StatsCmd false false => s ← stats; Ret (printStats s)
  | StatsCmd false true => Ifstats.runStatsWithInterfaces stats c
  | StatsCmd true true =>
    s ← stats; match c with Collected l => b ← encode (VLegacy s l); Ret [b] | CollectFailed e => Fail e | NotBack => Panic end
  | InterfacesCmd j =>
    match c with
    | Collected l => if j : bool then b ← encode (VInterfaces l); Ret [b] else Ret (printInterfaceStats l)
    | CollectFailed e => Fail e
    | NotBack => Panic
    end
  end.

Lemma write_lines_spec n lines : let '(r, out) := write_lines n lines in
  (exists rest, lines = out ++ rest /\ (r = Ret tt <-> rest = [])) /\
  ((forall k, (n <= k < n + length lines)%nat -> refuses k = None) -> r = Ret tt).
Proof.
  revert n. induction lines as [|l lines IH]; intros n; [by split; [exists []|]|]. cbn [write_lines].
  destruct (refuses n) as [e|] eqn:Er.
  { split; [by exists (l :: lines)|]. intros H. rewrite H in Er by (cbn; lia). done. }
  specialize (IH (S n)). destruct (write_lines (S n) lines) as [r out]. destruct IH as ((rest & -> & Hr) & Hall).
  split; [by exists rest|]. intros H. apply Hall. intros k Hk. apply H. cbn. lia.
Qed.

(** A command prints its whole output or reports an error, and what it printed
    before the error is a beginning of it; a reading that fails prints nothing; a
    writer that refuses nothing gets everything. *)
Lemma command_prints cmd stats c : let '(r, out) := RunE cmd stats c in
  match whole cmd stats c with
  | Ret lines =>
    (exists rest, lines = out ++ rest /\ (r = Ret tt <-> rest = [])) /\ ((forall k, refuses k = None) -> r = Ret tt)
  | Fail e => r = Fail e /\ out = []
  | Panic => r = Panic /\ out = []
  end.
Proof.
  assert (forall lines, let '(r, out) := write_lines 0 lines in
    (exists rest, lines = out ++ rest /\ (r = Ret tt <-> rest = [])) /\ ((forall k, refuses k = None) -> r = Ret tt)) as Hw.
  { intros lines. pose proof (write_lines_spec 0 lines) as H. destruct (write_lines 0 lines) as [r out]. destruct H as [H1 H2].
    split; [done|]. intros Hk. by apply H2. }
  assert (forall v, let '(r, out) := encodeJSON v in
    match encode v ≫= fun b => Ret [b] with
    | Ret lines => (exists rest, lines = out ++ rest /\ (r = Ret tt <-> rest = [])) /\ ((forall k, refuses k = None) -> r = Ret tt)
    | Fail e => r = Fail e /\ out = []
    | Panic => r = Panic /\ out = []
    end) as Hj.
  { intros v. unfold encodeJSON. destruct (encode v) as [b|e|]; [apply (Hw [b])|done..]. }
  destruct cmd as [[] []|[]]; cbn [RunE whole]; unfold runStats, runStatsWithInterfaces, runStatsInterfaces, Ifstats.runStatsWithInterfaces;
    destruct stats as [s|e|]; destruct c as [l|e'|]; try done; first [apply Hj | apply Hw].
Qed.
End Write.

Lemma dispatch_samples :
  main [] = Gateway /\ main [str "-wan"; str "eth0"] = Gateway /\
  main [str "stats"; str "-json"] = Subcommand [str "stats"; str "--json"] /\ main [str ""] = Subcommand [str ""].
Proof. by vm_compute. Qed.
