(* ===== verification/Dnstcp.v ===== *)
(** DNS over TCP: the relay of src/internal/dnsproxy/tcp.go, two io.Copy at once between a
    client and the upstream that accepted it (chosen in Dnsproxy.v).

    A direction is what its sender has written, whether it has closed, what has been
    delivered, and how the copy ended; the peers, the two copies and the relay's process
    interleave in any order. *)

From S2P Require Import Prelude.

Local Open Scope Z_scope.

(** [over]: the copy has returned and closed the other side's writing half; [Some false]
    when a read or a write failed. *)
Record half : Type := mkHalf { sent : bytes; fin : bool; delivered : bytes; over : option bool }.

Inductive half_step : half -> half -> Prop :=
| peer_writes b s d o : half_step (mkHalf s false d o) (mkHalf (s ++ b) false d o)
| peer_closes s d o : half_step (mkHalf s false d o) (mkHalf s true d o)
| copies n s f d : (0 < n)%nat -> (n <= length (drop (length d) s))%nat ->
    half_step (mkHalf s f d None) (mkHalf s f (d ++ take n (drop (length d) s)) None)
| copy_ends s : half_step (mkHalf s true s None) (mkHalf s true s (Some true))
| copy_fails s f d : half_step (mkHalf s f d None) (mkHalf s f d (Some false)).

(** A connection being relayed, from the client (up) and to it (down). *)
Record relaying : Type := mkRelay { up : half; down : half; returned : bool }.

Inductive relay_step : relaying -> relaying -> Prop :=
| step_up u u' d r : half_step u u' -> relay_step (mkRelay u d r) (mkRelay u' d r)
| step_down u d d' r : half_step d d' -> relay_step (mkRelay u d r) (mkRelay u d' r)
| relay_returns u d : over u <> None -> over d <> None -> relay_step (mkRelay u d false) (mkRelay u d true).

Definition fresh_half : half := mkHalf [] false [] None.
Definition accepted : relaying := mkRelay fresh_half fresh_half false.

Definition half_ok (h : half) : Prop := delivered h `prefix_of` sent h /\ (over h = Some true -> fin h = true /\ delivered h = sent h).

Lemma half_ok_step h h' : half_ok h -> half_step h h' -> half_ok h'.
Proof.
  intros [[rest Hp] Ho]. destruct 1 as [b s d o|s d o|n s f d H1 H2|s|s f d]; cbn in *; subst.
  - split; [exists (rest ++ b); by rewrite app_assoc|]. intros E. by destruct (Ho E).
  - split; [by exists rest|]. intros E. by destruct (Ho E).
  - split; [|done]. cbn. rewrite drop_app_length. exists (drop n rest). by rewrite <- app_assoc, take_drop.
  - split; [by exists []; rewrite app_nil_r|done].
  - split; [by exists rest|done].
Qed.

(** A copy that is not over can go on, unless its sender is silent. *)
Definition half_waits (h : half) : Prop := fin h = false /\ delivered h = sent h.

Lemma half_goes_on h : half_ok h -> over h = None ->
  half_waits h \/ exists h', half_step h h' /\ sent h' = sent h /\ fin h' = fin h /\ over h' <> Some false.
Proof.
  intros [[rest Hp] _] Ho. destruct h as [s f d o]. cbn in *. subst.
  destruct rest as [|c rest]; [rewrite app_nil_r|].
  - destruct f; [right|by left]. eexists. split; [apply copy_ends|done].
  - right. eexists. split; [apply (copies 1); [lia|rewrite drop_app_length; cbn; lia]|done].
Qed.

(** The bytes of each direction arrive verbatim and in order, whatever the chunks: what has
    been delivered is always a beginning of what was sent, all of it once the copy has ended
    without an error, and one direction ends without the other; the relay returns only
    when both have, and until then waits only for a peer that neither writes nor closes. *)
Lemma relay_verbatim r : rtc relay_step accepted r ->
  half_ok (up r) /\ half_ok (down r) /\ (returned r = true -> over (up r) <> None /\ over (down r) <> None) /\
  (returned r = false ->
     (over (up r) = None /\ half_waits (up r)) \/ (over (down r) = None /\ half_waits (down r)) \/
     exists r', relay_step r r' /\ sent (up r') = sent (up r) /\ sent (down r') = sent (down r)).
Proof.
  intros Hr. assert (half_ok (up r) /\ half_ok (down r) /\ (returned r = true -> over (up r) <> None /\ over (down r) <> None)) as (Hu & Hd & Hret).
  { revert Hr. apply (rtc_ind_r (R := relay_step) (fun r => half_ok (up r) /\ half_ok (down r) /\
        (returned r = true -> over (up r) <> None /\ over (down r) <> None))); [|intros a b _ Hs (Hu & Hd & Hret)].
    - assert (half_ok fresh_half) by (split; [by exists []|done]). done.
    - assert (forall h h', half_step h h' -> over h <> None -> over h' <> None) as Hover by (by destruct 1).
      destruct Hs as [u u' d rt Hh|u d d' rt Hh|u d]; cbn in *.
      + split; [by apply (half_ok_step u)|]. split; [done|]. intros E. destruct (Hret E). eauto.
      + split; [done|]. split; [by apply (half_ok_step d)|]. intros E. destruct (Hret E). eauto.
      + done. }
  split; [done|]. split; [done|]. split; [done|]. intros E. destruct r as [u d rt]. cbn in *. subst rt.
  destruct (over u) as [bu|] eqn:Eu.
  - destruct (over d) as [bd|] eqn:Ed.
    + right. right. eexists. split; [apply relay_returns; congruence|done].
    + destruct (half_goes_on d Hd Ed) as [Hw|(d' & Hs & Hsent & _)]; [right; by left|].
      right. right. eexists. split; [by apply step_down|done].
  - destruct (half_goes_on u Hu Eu) as [Hw|(u' & Hs & Hsent & _)]; [by left|].
    right. right. eexists. split; [by apply step_up|done].
Qed.
