(* ===== verification/Pollfd.v ===== *)
(** Sockets read and written through the Go runtime's poller: src/pkg/internal/pollfd.

    A RawConn's Read and Write call the function they are given each time the descriptor is
    ready, until it returns true or the descriptor is closed; the answers of the system
    calls and the moment of the close are parameters. *)

From S2P Require Import Prelude.

Local Open Scope Z_scope.

(** What a system call answers: EAGAIN, or its result. *)
Inductive answered (A : Type) : Type := EAGAIN | Answered (r : outcome A).
Arguments EAGAIN {A}.
Arguments Answered {A} _.

(** Opening: [file], [conn]: whether os.NewFile and SyscallConn succeed.  The booleans: the
    FD is there, the descriptor is closed. *)
Definition New (file conn : bool) : outcome unit * bool :=
  if negb file then (Fail "os.ErrInvalid", true)
  else if negb conn then (Fail "SyscallConn", true)
  else (Ret tt, false).

Section Wait.
Context {A : Type}.
(** The [n]-th call's answer; whether the descriptor is closed before it. *)
Context (call : nat -> answered A) (closed : nat -> bool).

(** The n-th turn of RawConn.Read or Write with the function of Recvfrom or Sendto; [None]:
    still waiting after [fuel] turns. *)
Fixpoint wait_ready (fuel n : nat) : option (outcome A) :=
  match fuel with
  | O => None
  | S fuel =>
    if closed n then Some (Fail "os.ErrClosed")
    else match call n with EAGAIN => wait_ready fuel (S n) | Answered r => Some r end
  end.

Definition Recvfrom (fuel : nat) : option (outcome A) := wait_ready fuel 0.
Definition Sendto (fuel : nat) : option (outcome A) := wait_ready fuel 0.

Lemma wait_ready_first fuel n k : (forall i, (n <= i < n + k)%nat -> closed i = false /\ call i = EAGAIN) -> (k < fuel)%nat ->
  (closed (n + k) = true -> wait_ready fuel n = Some (Fail "os.ErrClosed")) /\
  (closed (n + k) = false -> forall r, call (n + k) = Answered r -> wait_ready fuel n = Some r).
Proof.
  revert fuel n. induction k as [|k IH]; intros fuel n Hw Hf; (destruct fuel as [|fuel]; [lia|]); cbn [wait_ready].
  - rewrite Nat.add_0_r. split; [by intros ->|]. intros -> r Hr. by rewrite Hr.
  - destruct (Hw n ltac:(lia)) as [-> ->]. replace (n + S k)%nat with (S n + k)%nat by lia. apply IH; [|lia].
    intros i Hi. apply Hw. lia.
Qed.

(** A read parks while there is nothing to read and returns what the first call that does
    not say EAGAIN answers; a close wakes it, however long it has waited. *)
Lemma recv_parks k : (forall i, (i < k)%nat -> closed i = false /\ call i = EAGAIN) ->
  (closed k = true -> Recvfrom (S k) = Some (Fail "os.ErrClosed")) /\
  (closed k = false -> forall r, call k = Answered r -> Recvfrom (S k) = Some r).
Proof. intros Hw. apply (wait_ready_first (S k) 0 k); [|lia]. intros i Hi. apply Hw. lia. Qed.
End Wait.

(** A failed New leaves no descriptor open. *)
Lemma New_closes file conn : ok (New file conn).1 = false <-> (New file conn).2 = true.
Proof. by destruct file, conn. Qed.
